(* ===== verification/_CoqProject ===== *)
-Q . S2P
Prelude.v
Policy.v
Identity.v
Schedule.v
Json.v
Protocol.v
Digest.v
Capability.v
Authority.v
Session.v
Broker.v
Tables.v
Runs.v
Completion.v
Lifecycle.v
RunSafety.v
DeliveryTables.v
Deliveries.v
DeliveryLifecycle.v
DeliveryInvariants.v
JobTables.v
Jobs.v
Routes.v
Operators.v
OperatorLifecycle.v
JobLifecycle.v
JobInvariants.v
System.v
SystemSafety.v
DeliverySafety.v
JobSafety.v
OperatorSafety.v
Tasks.v
Channels.v
ChatStore.v
SlackQueue.v
SlackSafety.v
SlackSources.v
SlackIntake.v
Agents.v
Conversations.v
EventQueue.v
Dispatch.v
DispatchSafety.v
DispatchExact.v
