(* ===== verification/Prelude.v ===== *)
(** * Codeoff: a verification development

    Codeoff is a gateway between chat channels and coding agents, with a durable
    scheduler that runs agent jobs on a timetable, on an isolated remote runner.
    This library models the parts of the scheduler that decide: when a job is
    due, when it is retried, what a runner is allowed to execute, what is known
    about an execution when a connection breaks, and how the database takes a
    job from its creation over its occurrences, their runs and their results to
    the messages that deliver them.  Beside the scheduler it models the chat
    side: the intake of messages from Slack, the store of chat work, the dispatch
    of events to an agent and the queue that sends messages to Slack.

    ** The program's parts and their files

    - [Prelude] (this file): results and early returns, machine integers, bytes
      and text, and the automation every other file uses.
    - [Policy], module [Policy] (core/src/scheduler_policy.rs): the operational
      policy record, its validator, and the retry, backoff and deadline
      arithmetic.
    - [Identity], module [Identity] (core/src/scheduled_identity.rs): critical
      ids, credential revisions, evidence key ids and SPIFFE workload
      identities.
    - [Schedule], module [Schedule] (state/src/scheduler.rs [ScheduleSpec],
      state/src/scheduler/timezone.rs): schedules, their next occurrence, the
      coalescing of missed occurrences, the proof of a minimum cadence and the
      stored form.
    - [Json]: JSON values as serde_json holds them, and the interface [Serde] to
      its text layer.
    - [Protocol], module [Protocol] (runtime/src/scheduled_remote_protocol.rs):
      the frames between gateway and runner, their validation, codec and
      sequencer.
    - [Digest], module [Digest] (state/src/scheduler.rs [framed_sha256]): framed
      digests, with the interface [Sha2] to the hash.
    - [Capability], module [Capability] (core/src/attested_capability.rs): the
      capability profile a runner attests, its self-digest and its parser.
    - [Authority], modules [Snapshot] and [Authority] (state/src/scheduler.rs):
      canonical snapshots, the execution authority of a claimed run and the
      attestations that have to match it.
    - [Session], module [Session] (runtime/src/scheduled_remote_session.rs): the
      lifecycle of one remote execution.
    - [Broker], module [Broker] (runtime/src/scheduled_runner_broker.rs and the
      observed writer of runtime/src/scheduled_runner_tls.rs): the registry of
      the connected runner, the reservation of its slot and the start write.
    - [Tables], module [Tables] (state/migrations): the database, with the
      CHECK constraints, keys and triggers of runs, attempts, late evidence and
      result artifacts that can reject or count what the transactions write;
      statements and transactions over them.
    - [Runs], module [Runs] (state/src/scheduler/store.rs): claiming, heartbeats,
      the start of an execution, preflight failures, execution outcomes, the
      recovery of expired leases, exact reconciliation and cancellation.
    - [Completion], module [Completion] (state/src/scheduler/store.rs
      [complete_scheduled_run_success]): accepting a result with its artifact,
      the baseline and one delivery intent per target, or keeping it as late
      evidence.
    - [Lifecycle], module [Lifecycle]: the abstract lifecycle of a run, and the
      simulation of every transaction of [Runs] and [Completion] by it.
    - [RunSafety], module [RunSafety]: the calls of the run store as data, the
      invariant of its tables, who may write, and what a claim and a completion
      do.
    - [DeliveryTables], module [DeliveryTables] (state/migrations): constraints,
      keys and triggers of deliveries, their attempts, accepted baselines and
      operator actions.
    - [Deliveries], module [Deliveries] (state/src/scheduler/store.rs and
      delivery.rs): rendering input, preparation of the payload, the readiness
      scan, skipping and rejecting, both claims, heartbeats, delivered and failed
      reports, reconciliation, reclaim and requeue.
    - [DeliveryLifecycle], [DeliveryInvariants]: the abstract machine of one
      delivery, its simulation, and the invariants of the delivery tables.
    - [JobTables], module [JobTables] (state/migrations): constraints, keys and
      triggers of jobs, schedules, targets, overlap cursors, idempotency records
      and the mutation audit, and the insertion of a run.
    - [Jobs], module [Jobs] (state/src/scheduler/store.rs and scheduler.rs):
      create, update, pause, resume and delete, with cadence proofs, limits,
      idempotency and audit; reading back; the materialization of due
      occurrences.
    - [Routes], module [Routes] (state/src/scheduler.rs [DeliveryTargetRoute]):
      the canonical target envelope and its routing coordinates.
    - [Operators], module [Operators] (state/src/scheduler.rs, scheduler/store.rs
      and state/migrations): operator requests, their digests, evidence and
      reasons; the append-only log of actions with its constraints and triggers;
      retries of runs and deliveries, and actions on unknown outcomes.
    - [OperatorLifecycle], module [OperatorLifecycle]: the exact effect of the
      operator transactions, their steps and the invariant of the log.
    - [JobLifecycle], [JobInvariants]: the exact effect of every job call, the
      abstract machine of one job, and the invariants of the job tables.
    - [System], module [System]: histories that interleave calls on jobs, runs
      and deliveries with operator requests, and what each part leaves alone of
      the others.
    - [SystemSafety], [DeliverySafety], [JobSafety], [OperatorSafety]: what holds
      of runs, deliveries, jobs and operator requests over every history.
    - [Tasks]: asynchronous functions as programs of actions between awaits, held
      in a pool that can start, advance, drop and stop them; the class
      [Discipline] by which a pool keeps an invariant.
    - [Channels], module [Channels] (channel/contract/src event.rs, message.rs,
      error.rs, context.rs): channel events, message and context requests,
      receipts.
    - [ChatStore], module [ChatStore] (state/src/store.rs, error.rs and the chat
      migrations): the outbox with its receipts and throttles, the queue of
      channel events, conversations, drafts, fetch attempts, processing
      indicators, and their retention.
    - [SlackQueue], module [SlackQueue] (channel/slack/src/delivery.rs): delivery
      and draining of messages, with the memory of completions that could not be
      stored.
    - [SlackSafety], module [SlackSafety]: what holds of every history of that
      queue.
    - [SlackSources], module [SlackSources] (state/src/store.rs
      [slack_source_references]): what is read back of a stored Slack payload:
      its references, links, attachments and files.
    - [SlackIntake], module [SlackIntake] (channel/slack/src normalize.rs,
      mention_filter.rs, intake.rs, worker.rs, socket_mode.rs): mentions, the
      normalisation of envelopes, the intake and the receive worker.
    - [Agents], module [Agents] (agent/contract/src/lib.rs): tasks of an agent,
      their validation and their results.
    - [Conversations], module [Conversations] (runtime/src/lib.rs, and of
      channel_tools.rs the tool names, errors and the bootstrap of the context):
      the conversation of an event, the task and the context made of it, and the
      summary of a conversation.
    - [EventQueue]: the effect of every operation of the chat store on the queue
      of events, the drafts and the threads.
    - [Dispatch], module [Dispatch] (runtime/src/lib.rs
      [dispatch_next_channel_event_with_processing_streams_context_and_locks]):
      one dispatch as a task, the processing streams, and histories of dispatches.
    - [DispatchSafety], [DispatchExact]: what holds of every history of
      dispatches, and what one dispatch does.

    A claimed run ([Authority.ClaimedScheduledRun]) is frozen into an authority;
    the broker reserves the runner's slot, admits and prepares the run over the
    protocol; the session of either side accepts only frames that match the
    authority; the start write pins the slot until the runner's signed cleanup.
    The run store hands out that claim under a lease and a fence, records that
    execution started together with the attested profile, and takes the result,
    the failure or the expired lease back.  Jobs feed that store: a due
    occurrence inserts a waiting run frozen from the job as it is, and a mutation
    of a job cancels what has not started.  A completed run inserts one delivery
    intent per target, which the delivery store prepares, claims under its own
    lease and fence, and reports on.  Operators act on what stopped: a request,
    bound by its digest to one action on one attempt and fence, is recorded and
    used up in the transaction that moves the row.

    The chat side has tables of its own in the same database.  The receive worker
    acknowledges an envelope of Slack and hands it to the intake, which normalises
    it and stores the event with its source in the queue.  A dispatch claims an
    event, locks its conversation, runs the agent on the conversation's thread and
    stores the draft, the thread and the summary.  A message to Slack is put into
    the outbox, claimed, posted, and closed with a receipt that also raises the
    throttle of its channel; what Slack acknowledged and the store did not take
    is kept in memory and stored by a later drain.

    ** Correspondence

    Definitions carry the names of the source.  [Result<T, E>] is [result], the
    [?] operator is [let?] and [check?], a guarded [return Err] is [bail?].  An
    integer of a machine type is a [Z]; checked, saturating and wrapping
    operations are written out at their width.  A string is its UTF-8 bytes.  A
    method on [&mut self] returns the state it leaves on every path, errors
    included; [expect] and [debug_assert] are an explicit panic.  An [Arc] is an
    index, the broker's threads are interleavings of atomic actions.

    A table is a [gmap] by primary key, a SQL statement a function on the tables
    that fails where a constraint or a trigger rejects a row, and a transaction
    ([Tables.transaction]) a sequence of statements that takes effect on
    [commit()] only.  Transactions are atomic, as SQLite serialises writers; every
    statement, BEGIN and COMMIT may also fail from outside, by the list of faults
    the world carries, and a COMMIT that fails has not committed.  [try_get] of a
    column is the column, or a decoding error where it can have another type.

    Code outside the repository is a parameter: the cron engine, the time zone
    database and chrono ([Schedule.Calendar]), serde_json's text layer
    ([Json.Serde]), SHA-256 ([Digest.Sha2]), SQLite's JSON
    and date functions ([Tables.Sqlite], [ChatStore.SqliteDates]), clocks, random
    numbers and the transport (arguments and scripts).  The answers of Slack, of
    the agent and of the context provider are inputs of a history.  Theorems that
    rely on documented behaviour of such code name it as a hypothesis, and each of
    them is applied to a concrete instance.

    ** What the theorems show

    - Policy: the validator accepts exactly the coherent policies; backoff
      delays stay in their envelope, and outside it wrap around modulo 2^32, to
      zero for some policies;
      retries are granted exactly within attempts and deadlines.
    - Identity: the workload identity parser accepts exactly its grammar.
    - Schedule: the next occurrence is the least later grid point; the closed
      form of coalescing gives, on the grid, exactly the windows that stepping
      finds within its bounds; coalescing loses no occurrence; an
      accepted cron expression never fires faster than its minimum; storage
      round-trips.
    - Protocol: decoding is exactly the inverse of encoding; accepted frames are
      numbered without gap.
    - Digest, Capability, Authority: digests commit to each part; a profile is
      pinned by its digest and survives its text; an authority matches its own
      claim only; an accepted recovery attestation is the builder's own text.
    - Session: it refines an abstract exchange of all frames, heartbeats and
      sequence numbers included, which determines every field;
      nothing starts without authority, in time, with one binding and nonce;
      rejected frames change nothing; no panic is reachable; disconnects are
      classified by what was exchanged; heartbeats never go back.
    - Broker: at most one execution is in flight; a pinned reservation is only
      released by its own lease; a start that may have left the gateway is never
      forgotten, until a signed cleanup; admissions stay within their clocks.
    - Runs, over every history of calls on jobs, runs and deliveries and of
      operator requests: they take steps of the abstract lifecycle only, and runs
      and attempts stay consistent; an older fence never writes again; only the holder of a live
      lease writes; a started execution is repeated only when its persisted
      profile attests that it may be, or an operator's retry of that attempt is
      on record; a run that ended stays as it is but for such a retry; a claim
      and a completion do exactly what they report.
    - Deliveries, over the same histories: each refines the abstract machine;
      attempts, fences and idempotency keys stay consistent; a message is sent
      again only after a confirmed failure, and after an unknown one only if an
      operator's forced resend of that attempt is on record; a
      stale sender writes nothing; a delivery belongs to a succeeded run; a
      claim and a report do exactly what they say; a reclaim ends every expired
      send.
    - Jobs, over the same histories: a job and its schedule move from generation
      to generation together, and an active job has its next occurrence; a
      superseded generation changes nothing; an occurrence has at most one run;
      a deleted job stays deleted; active jobs stay within the limits; an
      idempotent request is applied once, and a later one that its own checks let
      through is answered from its record; a created
      job reads back; every call does exactly what its record in [JobLifecycle]
      says.
    - Operators, over the same histories: each transaction has exactly its
      recorded effect or none; what moved a row is on record and used up once; a
      request is applied at most once, does only the action it was made for, and
      an applied retry is answered as a replay for ever.
    - Slack queue, over every interleaving of deliveries and drains of any number
      of processes, with dropped futures, stopped processes, storage failures and
      any answers: a message is acknowledged at most once while its key is in the
      outbox; receipts are answers to accepted messages; an unrecorded completion
      keeps its channel throttled and is stored by a due drain; a repeated
      request gets the first receipt.
    - Intake: a text matches the mention filter exactly when it has a mention of a
      configured user; what is stored comes from the envelope; an envelope that comes
      twice is queued once; the worker acknowledges before it processes.
    - Dispatch, over every interleaving of dispatches, intake and retention, with
      dropped tasks, stopped processes, storage failures and any answers: the
      agent is run at most once for an event in the queue, and drafts are its
      answers; within one serving process a conversation is served by one worker
      at a time and the agent always gets the thread that is stored.  One dispatch
      leaves exactly what its outcome says when the agent's answer can be stored,
      when the agent fails and when the conversation is busy.  A summary stays
      within its limit.
    - Behaviour the code does not seem to mean: recording a cancelled execution,
      mutating a job while one of its runs waits for a retry, and giving up an
      overdue delivery are refused by the schema; a repeated resumption is
      refused before its record is read; the interval between messages is kept
      under the channel of Slack's answer, not under the one asked for; an event
      whose dispatch was interrupted is never taken up again; a direct message that
      mentions a target user is not held to the list of allowed senders.

    ** Bounds and fuel

    [Schedule.cadence_loop] runs on fuel [proof_limit + 1]; [cadence_loop_total]
    shows that more never changes its verdict, because each round counts one
    occurrence against the limit.  [Schedule.coalesce_loop] recurses on the
    code's own step bound.  [trim] uses the length of the text, since a
    white-space character has at least one byte, and so does
    [SlackSources.split_white].  The receive worker and a history recurse on the
    turns and moves they are given.  Every other recursion is structural.

    The length of a history, the number of targets and the number of rows are
    not bounded.  Generations, attempts and fences are integers of the database;
    that a generation, or the attempt count of a chat row, would overflow after
    2^63 updates is not modelled, while attempts and fences of runs and deliveries
    stop at their limits as in the code.

    ** Not modelled

    In state/src/scheduler/store.rs: retention (so no row is deleted in a
    history), executor epoch registration and permits, and the read-only listings
    and metrics.  An operator action carries the one schema version and hash
    algorithm its table admits, so they are not columns here; the kinds of
    transition cursors other than suppressed overlaps are not written by the
    modelled calls.  In state/src/store.rs: the opening of the database, the
    idempotency claim and the scheduler half of the cleanup.  The asynchronous
    drivers of the broker, the executors and the delivery worker, evidence and
    grant signatures, TLS, the WebSocket and HTTP calls of Slack, the agent
    adapters, the tools an agent calls, the management service and the command
    line: they are I/O around the modelled parts, or depend on packages for all
    they decide. *)

From stdpp Require Import base tactics list strings numbers.
From Stdlib Require Import ZArith Lia Ascii.
From Stdlib Require String.

(* Later scopes win: integers are the default, and [++] appends lists. *)
Open Scope string_scope.
Open Scope list_scope.
Open Scope Z_scope.

(** ** Results

    Rust's [Result<T, E>] with the [?] operator.  The notation expands to a
    bare [match] so that case analysis on a definition follows the code's
    early returns one by one. *)

Inductive result (E A : Type) : Type :=
| Ok (a : A)
| Err (e : E).
Arguments Ok {_ _} _.
Arguments Err {_ _} _.

Declare Scope codeoff_scope.
Delimit Scope codeoff_scope with codeoff.
Open Scope codeoff_scope.

Notation "'let?' x := m 'in' k" :=
  (match m with Ok x => k | Err e => Err e end)
  (at level 10, x pattern, m at level 100, k at level 200)
  : codeoff_scope.

Notation "'check?' m 'in' k" :=
  (match m with Ok _ => k | Err e => Err e end)
  (at level 10, m at level 100, k at level 200)
  : codeoff_scope.

(** [return Err(e)] guarded by a condition, and the statement form
    [if cond { return Err(e); }]. *)
Definition ensure {E : Type} (b : bool) (e : E) : result E unit :=
  if b then Ok tt else Err e.

Notation "'bail?' c 'with' e 'in' k" :=
  (if c then Err e else k)
  (at level 10, c at level 100, e at level 100, k at level 200)
  : codeoff_scope.

(** [.map_err(|_| e)], [.ok_or(e)], [.ok()] and [.is_ok()]. *)
Definition map_err {E F A} (f : E -> F) (r : result E A) : result F A :=
  match r with Ok a => Ok a | Err e => Err (f e) end.

Definition ok_or {E A} (o : option A) (e : E) : result E A :=
  match o with Some a => Ok a | None => Err e end.

Definition ok {E A} (r : result E A) : option A :=
  match r with Ok a => Some a | Err _ => None end.

Definition is_ok {E A} (r : result E A) : bool :=
  match r with Ok _ => true | Err _ => false end.

#[export] Instance result_eq_dec {E A} `{EqDecision E} `{EqDecision A} :
  EqDecision (result E A).
Proof. solve_decision. Defined.

(** ** Proof automation *)

Create HintDb codeoff.
Create Rewrite HintDb codeoff.

(** Splits the scrutinee of a [match] or [if] of a hypothesis or of the goal
    and keeps its equation. *)
Ltac split_match :=
  match goal with
  | H : context [match ?x with _ => _ end] |- _ =>
      lazymatch x with context [match _ with _ => _ end] => fail | _ => idtac end;
      destruct x eqn:?
  | |- context [match ?x with _ => _ end] =>
      lazymatch x with context [match _ with _ => _ end] => fail | _ => idtac end;
      destruct x eqn:?
  end.

(** The same, on one hypothesis only. *)
Ltac split_match_in H :=
  match type of H with
  | context [match ?x with _ => _ end] =>
      lazymatch x with context [match _ with _ => _ end] => fail | _ => idtac end;
      destruct x eqn:?
  end.

(** Peels a successful chain of [?] steps: every branch that returns early is
    closed, and the equations of the steps that were passed remain. *)
Ltac peel H :=
  repeat (split_match_in H; simplify_eq; try done).

(** Turns the boolean tests of the code into arithmetic facts. *)
Ltac bool_facts :=
  repeat match goal with
  | H : _ && _ = true |- _ => apply andb_true_iff in H as [? ?]
  | H : _ || _ = false |- _ => apply orb_false_iff in H as [? ?]
  | H : negb _ = true |- _ => apply negb_true_iff in H
  | H : negb _ = false |- _ => apply negb_false_iff in H
  | H : (_ <? _) = true |- _ => apply Z.ltb_lt in H
  | H : (_ <? _) = false |- _ => apply Z.ltb_ge in H
  | H : (_ <=? _) = true |- _ => apply Z.leb_le in H
  | H : (_ <=? _) = false |- _ => apply Z.leb_gt in H
  | H : (_ =? _) = true |- _ => apply Z.eqb_eq in H
  | H : (_ =? _) = false |- _ => apply Z.eqb_neq in H
  | H : N.ltb _ _ = true |- _ => apply N.ltb_lt in H
  | H : N.ltb _ _ = false |- _ => apply N.ltb_ge in H
  | H : N.leb _ _ = true |- _ => apply N.leb_le in H
  | H : N.leb _ _ = false |- _ => apply N.leb_gt in H
  | H : N.eqb _ _ = true |- _ => apply N.eqb_eq in H
  | H : N.eqb _ _ = false |- _ => apply N.eqb_neq in H
  | H : bool_decide _ = true |- _ => apply bool_decide_eq_true in H
  | H : bool_decide _ = false |- _ => apply bool_decide_eq_false in H
  end.

(** [bool_facts] with a case for every disjunction that holds. *)
Ltac bool_cases :=
  repeat (bool_facts; match goal with
    | H : _ || _ = true |- _ => apply orb_true_iff in H as [H|H]
    end); bool_facts.

(** ** Machine integers

    A [uN] or [iN] value is a [Z]; its width is written out where the code
    depends on it. *)

Definition u16_max : Z := 65535.
Definition u32_max : Z := 4294967295.
Definition u64_max : Z := 18446744073709551615.
Definition i64_min : Z := -9223372036854775808.
Definition i64_max : Z := 9223372036854775807.

Definition in_u16 (z : Z) : bool := (0 <=? z) && (z <=? u16_max).
Definition in_u32 (z : Z) : bool := (0 <=? z) && (z <=? u32_max).
Definition in_u64 (z : Z) : bool := (0 <=? z) && (z <=? u64_max).
Definition in_i64 (z : Z) : bool := (i64_min <=? z) && (z <=? i64_max).

(** [i64::checked_add] and its siblings: [None] when the exact result does not
    fit. *)
Definition fits (range : Z -> bool) (z : Z) : option Z :=
  if range z then Some z else None.

Definition i64_checked_add (a b : Z) : option Z := fits in_i64 (a + b).
Definition i64_checked_sub (a b : Z) : option Z := fits in_i64 (a - b).
Definition i64_checked_mul (a b : Z) : option Z := fits in_i64 (a * b).
(** [i64::checked_div] truncates toward zero and is [None] for a zero divisor
    and for [i64::MIN / -1]. *)
Definition i64_checked_div (a b : Z) : option Z :=
  if b =? 0 then None else fits in_i64 (Z.quot a b).
Definition u64_checked_add (a b : Z) : option Z := fits in_u64 (a + b).

Definition i64_saturating_sub (a b : Z) : Z := Z.max i64_min (Z.min i64_max (a - b)).
Definition u32_saturating_add (a b : Z) : Z := Z.min u32_max (a + b).
Definition u64_saturating_add (a b : Z) : Z := Z.min u64_max (a + b).
Definition u64_saturating_sub (a b : Z) : Z := Z.max 0 (a - b).
Definition u64_saturating_mul (a b : Z) : Z := Z.min u64_max (a * b).
Definition u64_wrapping_mul (a b : Z) : Z := (a * b) mod 2 ^ 64.

(** [u32::checked_shl]: [None] only when the shift amount reaches the width;
    bits shifted out of the word are lost without a report. *)
Definition u32_checked_shl (a k : Z) : option Z :=
  if k <? 32 then Some (Z.shiftl a k mod 2 ^ 32) else None.

(** [Ord::clamp]. *)
Definition clamp (lo hi z : Z) : Z := Z.max lo (Z.min hi z).

Lemma fits_some range z r : fits range z = Some r <-> range z = true /\ r = z.
Proof. unfold fits. destruct (range z); naive_solver. Qed.

Lemma in_i64_spec z : in_i64 z = true <-> i64_min <= z <= i64_max.
Proof. unfold in_i64. rewrite andb_true_iff, !Z.leb_le. done. Qed.

Lemma in_u64_spec z : in_u64 z = true <-> 0 <= z <= u64_max.
Proof. unfold in_u64. rewrite andb_true_iff, !Z.leb_le. done. Qed.

Lemma in_u32_spec z : in_u32 z = true <-> 0 <= z <= u32_max.
Proof. unfold in_u32. rewrite andb_true_iff, !Z.leb_le. done. Qed.

Lemma in_u16_spec z : in_u16 z = true <-> 0 <= z <= u16_max.
Proof. unfold in_u16. rewrite andb_true_iff, !Z.leb_le. done. Qed.

(** Rewrites every width test and checked operation of the context into
    inequalities [lia] can use. *)
Ltac widths :=
  unfold i64_checked_add, i64_checked_sub, i64_checked_mul, i64_checked_div,
    u64_checked_add in *;
  repeat match goal with
  | H : fits _ _ = Some _ |- _ => apply fits_some in H as [? ->]
  | H : in_i64 _ = true |- _ => apply in_i64_spec in H
  | H : in_u64 _ = true |- _ => apply in_u64_spec in H
  | H : in_u32 _ = true |- _ => apply in_u32_spec in H
  | H : in_u16 _ = true |- _ => apply in_u16_spec in H
  end;
  unfold i64_min, i64_max, u64_max, u32_max, u16_max in *.

(** A successful chain of validations is a conjunction. *)
Lemma check_ok {E A} (m : result E unit) (k : result E A) a :
  (check? m in k) = Ok a <-> m = Ok tt /\ k = Ok a.
Proof. destruct m as [[]|e]; split; (done || by intros [??]). Qed.

Lemma bail_ok {E A} (c : bool) (e : E) (k : result E A) a :
  (bail? c with e in k) = Ok a <-> c = false /\ k = Ok a.
Proof. destruct c; split; (done || by intros [??]). Qed.

Lemma map_err_ok {E F A} (f : E -> F) (r : result E A) a :
  map_err f r = Ok a <-> r = Ok a.
Proof. destruct r; naive_solver. Qed.

Lemma ok_or_ok {E A} (o : option A) (e : E) a : ok_or o e = Ok a <-> o = Some a.
Proof. destruct o; naive_solver. Qed.

#[export] Hint Rewrite @check_ok @bail_ok @map_err_ok @ok_or_ok : codeoff.

(** Strips the error conversions from the steps a chain has passed. *)
Ltac ok_facts :=
  repeat match goal with
  | H : ok_or _ _ = Ok _ |- _ => apply ok_or_ok in H
  | H : map_err _ _ = Ok _ |- _ => apply map_err_ok in H
  | H : (check? _ in _) = Ok _ |- _ => apply check_ok in H as [? H]
  end.

(** ** Lists *)

Lemma Forall_weaken {A} (P Q : A -> Prop) l :
  Forall P l -> (forall x, P x -> Q x) -> Forall Q l.
Proof. intros Hl HPQ. by apply (Forall_impl Q HPQ). Qed.

Lemma forallb_spec {A} (f : A -> bool) l :
  forallb f l = true <-> Forall (fun x => f x = true) l.
Proof.
  induction l as [|x l IH]; cbn; [by split|].
  rewrite andb_true_iff, IH. split; [by intros []; constructor|].
  by intros [??]%Forall_cons_1.
Qed.

Lemma NoDup_sub {A} (l k : list A) : l ⊆+ k -> NoDup k -> NoDup l.
Proof. intros [k' ->]%submseteq_Permutation Hk. by apply list.NoDup_app in Hk as [? _]. Qed.

(** One element of a list, and the rest of it when that element changes. *)
Lemma omap_at {A B} (f : A -> option B) l i x :
  l !! i = Some x -> omap f l ≡ₚ option_list (f x) ++ omap f (delete i l).
Proof.
  intros Hx. rewrite (delete_Permutation l i x Hx) at 1. cbn. by destruct (f x).
Qed.

Lemma omap_insert {A B} (f : A -> option B) l i x y :
  l !! i = Some x -> omap f (<[i := y]> l) ≡ₚ option_list (f y) ++ omap f (delete i l).
Proof.
  intros Hx. apply lookup_lt_Some in Hx as Hlt.
  rewrite (omap_at f (<[i := y]> l) i y) by by apply list_lookup_insert_eq.
  do 2 f_equiv. rewrite !delete_take_drop, take_insert_ge, drop_insert_lt by lia. done.
Qed.

(** How many elements of a log satisfy a test. *)
Definition counted {A} (f : A -> bool) (l : list A) : Z := Z.of_nat (length (List.filter f l)).

Lemma counted_app {A} (f : A -> bool) l l' : counted f (l ++ l') = counted f l + counted f l'.
Proof. unfold counted. rewrite List.filter_app, length_app. lia. Qed.

Lemma counted_one {A} (f : A -> bool) l x :
  counted f (l ++ [x]) = counted f l + (if f x then 1 else 0).
Proof. rewrite counted_app. unfold counted. cbn. by destruct (f x). Qed.

(** [limit 1]: the first row in the given order. *)
Fixpoint first_by {A} (before : A -> A -> bool) (l : list A) : option A :=
  match l with
  | [] => None
  | x :: l =>
      match first_by before l with
      | None => Some x
      | Some y => if before x y then Some x else Some y
      end
  end.

Lemma first_by_elem {A} before (l : list A) x : first_by before l = Some x -> x ∈ l.
Proof.
  revert x. induction l as [|y l IH]; intros x; cbn; [done|].
  destruct (first_by before l) as [z|].
  - specialize (IH z eq_refl). destruct (before y z); intros [= <-]; by constructor.
  - intros [= <-]. constructor.
Qed.

Lemma first_by_some {A} (before : A -> A -> bool) (l : list A) :
  l <> [] -> exists x, first_by before l = Some x /\ x ∈ l.
Proof.
  intros Hl. destruct (first_by before l) as [x|] eqn:E.
  - exists x. split; [done|]. by eapply first_by_elem.
  - destruct l as [|y l]; [done|]. cbn in E. destruct (first_by before l) as [z|]; [|done].
    by destruct (before y z).
Qed.

(** ** Bytes and text

    A Rust [str] is its UTF-8 bytes, a [string] of the Standard Library. *)

Definition byte_in (lo hi : ascii) (b : ascii) : bool :=
  (N.leb (N_of_ascii lo) (N_of_ascii b)) && (N.leb (N_of_ascii b) (N_of_ascii hi)).

Definition is_ascii_digit (b : ascii) : bool := byte_in "0" "9" b.
Definition is_ascii_lowercase (b : ascii) : bool := byte_in "a" "z" b.
Definition is_ascii_uppercase (b : ascii) : bool := byte_in "A" "Z" b.
Definition is_ascii_alphanumeric (b : ascii) : bool :=
  is_ascii_digit b || is_ascii_lowercase b || is_ascii_uppercase b.
Definition is_ascii_byte (b : ascii) : bool := N.ltb (N_of_ascii b) 128.

(** [str::len], the number of bytes. *)
Definition len (s : string) : Z := Z.of_nat (String.length s).

(** [s.bytes().all(p)]. *)
Fixpoint bytes_all (p : ascii -> bool) (s : string) : bool :=
  match s with
  | EmptyString => true
  | String b rest => p b && bytes_all p rest
  end.

(** [str::is_ascii]. *)
Definition is_ascii (s : string) : bool := bytes_all is_ascii_byte s.
Definition is_empty (s : string) : bool :=
  match s with EmptyString => true | String _ _ => false end.

(** The sequences that [String::from_utf8] accepts: no surrogate, nothing above
    U+10FFFF, and every character in its shortest form. *)
Definition in_bytes (lo hi : N) (b : ascii) : bool :=
  N.leb lo (N_of_ascii b) && N.leb (N_of_ascii b) hi.

Fixpoint utf8_valid (s : string) : bool :=
  match s with
  | EmptyString => true
  | String a s1 =>
      if in_bytes 0 127 a then utf8_valid s1
      else match s1 with
      | EmptyString => false
      | String b s2 =>
          if in_bytes 194 223 a then in_bytes 128 191 b && utf8_valid s2
          else match s2 with
          | EmptyString => false
          | String c s3 =>
              if in_bytes 224 239 a then
                in_bytes (if in_bytes 224 224 a then 160 else 128)
                  (if in_bytes 237 237 a then 159 else 191) b
                && in_bytes 128 191 c && utf8_valid s3
              else match s3 with
              | EmptyString => false
              | String d s4 =>
                  in_bytes 240 244 a
                  && in_bytes (if in_bytes 240 240 a then 144 else 128)
                       (if in_bytes 244 244 a then 143 else 191) b
                  && in_bytes 128 191 c && in_bytes 128 191 d && utf8_valid s4
              end
          end
      end
  end.

(** [s.bytes().next()] and [s.bytes().next_back()]. *)
Definition first_byte (s : string) : option ascii :=
  match s with EmptyString => None | String b _ => Some b end.
Fixpoint last_byte (s : string) : option ascii :=
  match s with
  | EmptyString => None
  | String b EmptyString => Some b
  | String _ rest => last_byte rest
  end.

(** The bytes of a string, and one white-space character (Unicode
    [White_Space], as [char::is_whitespace] tests it) at the head of a byte
    list: the number of bytes it occupies. *)
Fixpoint to_bytes (s : string) : list N :=
  match s with
  | EmptyString => []
  | String b rest => N_of_ascii b :: to_bytes rest
  end.

Fixpoint of_bytes (l : list N) : string :=
  match l with
  | [] => EmptyString
  | b :: rest => String (ascii_of_N b) (of_bytes rest)
  end.

Definition white_space_prefix (l : list N) : option nat :=
  match l with
  | b :: rest =>
      if (N.leb 9 b && N.leb b 13) || N.eqb b 32 then Some 1%nat
      else match rest with
      | c :: rest' =>
          if N.eqb b 194 && (N.eqb c 133 || N.eqb c 160) then Some 2%nat
          else match rest' with
          | d :: _ =>
              if (N.eqb b 225 && N.eqb c 154 && N.eqb d 128)
                 || (N.eqb b 226 && N.eqb c 128
                     && ((N.leb 128 d && N.leb d 138)
                         || N.eqb d 168 || N.eqb d 169 || N.eqb d 175))
                 || (N.eqb b 226 && N.eqb c 129 && N.eqb d 159)
                 || (N.eqb b 227 && N.eqb c 128 && N.eqb d 128)
              then Some 3%nat else None
          | [] => None
          end
      | [] => None
      end
  | [] => None
  end.

(** The same test on the reversed bytes, for the end of the string. *)
Definition white_space_suffix (r : list N) : option nat :=
  match white_space_prefix (take 1 r) with
  | Some n => Some n
  | None =>
      match white_space_prefix (reverse (take 2 r)) with
      | Some 2%nat => Some 2%nat
      | _ =>
          match white_space_prefix (reverse (take 3 r)) with
          | Some 3%nat => Some 3%nat
          | _ => None
          end
      end
  end.

Fixpoint drop_while_white (prefix : list N -> option nat) (fuel : nat) (l : list N) : list N :=
  match fuel with
  | O => l
  | S fuel' =>
      match prefix l with
      | Some n => drop_while_white prefix fuel' (drop n l)
      | None => l
      end
  end.

(** [str::trim]: no more white-space characters than bytes, so the length is
    enough fuel for either end. *)
Definition trim (s : string) : string :=
  let l := to_bytes s in
  let head := drop_while_white white_space_prefix (length l) l in
  of_bytes (reverse (drop_while_white white_space_suffix (length head) (reverse head))).

(** [s == s.trim()]. *)
Definition is_trimmed (s : string) : bool := String.eqb s (trim s).

(** [str::strip_prefix]. *)
Fixpoint strip_prefix (p s : string) : option string :=
  match p, s with
  | EmptyString, _ => Some s
  | String a p', String b s' => if Ascii.eqb a b then strip_prefix p' s' else None
  | String _ _, EmptyString => None
  end.

(** [str::split_once] and [str::split] on a one-byte delimiter. *)
Fixpoint split_once (c : ascii) (s : string) : option (string * string) :=
  match s with
  | EmptyString => None
  | String b rest =>
      if Ascii.eqb b c then Some (EmptyString, rest)
      else match split_once c rest with
           | Some (l, r) => Some (String b l, r)
           | None => None
           end
  end.

Fixpoint split (c : ascii) (s : string) : list string :=
  match s with
  | EmptyString => [EmptyString]
  | String b rest =>
      if Ascii.eqb b c then EmptyString :: split c rest
      else match split c rest with
           | seg :: segs => String b seg :: segs
           | [] => [String b EmptyString]
           end
  end.

(** [str::ends_with] on a one-byte character. *)
Definition ends_with (c : ascii) (s : string) : bool :=
  match last_byte s with Some b => Ascii.eqb b c | None => false end.

(** Sixty-four lower-case hexadecimal digits, the shape of a SHA-256 digest. *)
Definition is_hex_byte (b : ascii) : bool := is_ascii_digit b || byte_in "a" "f" b.

(** *** Lemmas on text *)

#[global] Arguments String.append !_ _ : simpl nomatch.

Lemma bytes_all_app p s t : bytes_all p (s +:+ t) = bytes_all p s && bytes_all p t.
Proof. induction s as [|b s IH]; [done|]. cbn. by rewrite IH, andb_assoc. Qed.

Lemma bytes_all_impl (p q : ascii -> bool) s :
  (forall b, p b = true -> q b = true) -> bytes_all p s = true -> bytes_all q s = true.
Proof.
  intros Hpq. induction s as [|b s IH]; [done|]. cbn.
  intros [? ?]%andb_true_iff. by rewrite Hpq, IH.
Qed.

Lemma len_app s t : len (s +:+ t) = len s + len t.
Proof.
  unfold len. rewrite <- Nat2Z.inj_add. f_equal.
  induction s as [|b s IH]; [done|]. cbn. by rewrite IH.
Qed.

Lemma append_assoc s t r : (s +:+ t) +:+ r = s +:+ (t +:+ r).
Proof. induction s as [|b s IH]; [done|]. cbn. by rewrite IH. Qed.

Lemma append_empty s : s +:+ "" = s.
Proof. induction s as [|b s IH]; [done|]. cbn. by f_equal. Qed.

Lemma strip_prefix_spec p s r : strip_prefix p s = Some r <-> s = p +:+ r.
Proof.
  revert s. induction p as [|a p IH]; intros s; cbn; [naive_solver|].
  destruct s as [|b s]; [naive_solver|].
  destruct (Ascii.eqb_spec a b) as [->|]; [rewrite IH|]; naive_solver.
Qed.

(** [without c s]: the byte [c] does not occur in [s]. *)
Definition without (c : ascii) (s : string) : bool :=
  bytes_all (fun b => negb (Ascii.eqb b c)) s.

Lemma without_cons c b s :
  without c (String b s) = true <-> b <> c /\ without c s = true.
Proof.
  unfold without. cbn. rewrite andb_true_iff, negb_true_iff, Ascii.eqb_neq. done.
Qed.

Lemma split_once_spec c s l r :
  split_once c s = Some (l, r) <-> s = l +:+ String c r /\ without c l = true.
Proof.
  revert l r. induction s as [|b s IH]; intros l r; cbn.
  { split; [done|]. by intros [H _]; destruct l. }
  destruct (Ascii.eqb_spec b c) as [->|Hb].
  - split; [intros; by simplify_eq|].
    destruct l as [|b' l]; cbn; [intros [? _]; by simplify_eq|].
    intros [? [? _]%without_cons]. by simplify_eq.
  - split.
    + intros H. peel H. specialize (IH s0 r) as [IH _].
      destruct IH as [-> Hl]; [done|]. split; [done|]. by apply without_cons.
    + intros [Hs Hl]. destruct l as [|b' l]; cbn in *; simplify_eq.
      apply without_cons in Hl as [_ Hl]. by rewrite (proj2 (IH l r)) by done.
Qed.

Definition char (c : ascii) : string := String c EmptyString.

Lemma split_nonempty c s : split c s <> [].
Proof. destruct s; cbn; [done|]. by repeat case_match. Qed.

Lemma concat_cons sep s t l :
  String.concat sep (s :: t :: l) = s +:+ sep +:+ String.concat sep (t :: l).
Proof. done. Qed.

Lemma concat_split c s : String.concat (char c) (split c s) = s.
Proof.
  induction s as [|b s IH]; [done|]. cbn.
  pose proof (split_nonempty c s).
  destruct (Ascii.eqb_spec b c) as [->|]; destruct (split c s) as [|seg segs];
    try done; cbn in *; [by rewrite IH|].
  destruct segs; cbn in *; by rewrite IH.
Qed.

Lemma split_without c s : without c s = true -> split c s = [s].
Proof.
  induction s as [|b s IH]; [done|]. intros [Hb%Ascii.eqb_neq Hs]%without_cons.
  cbn. by rewrite Hb, IH.
Qed.

Lemma split_app c s t : without c s = true -> split c (s +:+ String c t) = s :: split c t.
Proof.
  induction s as [|b s IH]; cbn; [by rewrite Ascii.eqb_refl|].
  intros [Hb%Ascii.eqb_neq Hs]%without_cons. by rewrite Hb, IH.
Qed.

Lemma split_concat c l :
  l <> [] -> Forall (fun s => without c s = true) l ->
  split c (String.concat (char c) l) = l.
Proof.
  induction l as [|s l IH]; [done|]. intros _ [Hs Hl]%Forall_cons_1.
  destruct l as [|t l]; cbn; [by apply split_without|].
  unfold char. cbn. rewrite split_app by done. f_equal. by apply IH.
Qed.

Lemma split_segments c s : Forall (fun seg => without c seg = true) (split c s).
Proof.
  induction s as [|b s IH]; cbn; [by repeat constructor|].
  destruct (Ascii.eqb_spec b c) as [|Hb]; [by constructor|].
  destruct (split c s) as [|seg segs]; [by repeat constructor; apply without_cons|].
  apply Forall_cons_1 in IH as [??]. constructor; [by apply without_cons | done].
Qed.

Lemma last_byte_app s t : t <> EmptyString -> last_byte (s +:+ t) = last_byte t.
Proof.
  intros Ht. induction s as [|b s IH]; [done|]. cbn. rewrite IH.
  by destruct (s +:+ t) eqn:E; [destruct s, t|].
Qed.

Lemma to_bytes_app s t : to_bytes (s +:+ t) = to_bytes s ++ to_bytes t.
Proof. induction s as [|b s IH]; [done|]. cbn. by rewrite IH. Qed.

Lemma of_to_bytes s : of_bytes (to_bytes s) = s.
Proof. induction s as [|b s IH]; [done|]. cbn. by rewrite ascii_N_embedding, IH. Qed.

(** A string whose ends are not white space is its own trimming. *)
Lemma is_trimmed_ends s :
  white_space_prefix (to_bytes s) = None ->
  white_space_suffix (reverse (to_bytes s)) = None -> is_trimmed s = true.
Proof.
  intros Hp Hs. unfold is_trimmed, trim. cbv zeta.
  set (l := to_bytes s) in *.
  replace (drop_while_white white_space_prefix (length l) l) with l
    by (destruct (length l); cbn; [|rewrite Hp]; done).
  replace (drop_while_white white_space_suffix (length l) (reverse l)) with (reverse l)
    by (destruct (length l); cbn; [|rewrite Hs]; done).
  rewrite reverse_involutive. unfold l. rewrite of_to_bytes. apply String.eqb_refl.
Qed.
