(* ===== verification/Policy.v ===== *)
(** * The scheduler's operational policy (crates/core/src/scheduler_policy.rs)

    One immutable record of limits, leases, retry and deadline parameters that
    every scheduled job, run and delivery snapshots.  The file models the
    record, its default and legacy values, its validator with every stable
    error, and the retry and deadline arithmetic at its machine width. *)

From stdpp Require Import base tactics list strings numbers.
From Stdlib Require Import ZArith Lia Ascii.
From S2P Require Import Prelude.

Module Policy.

Definition SCHEDULER_OPERATIONAL_POLICY_VERSION : Z := 1.

Record SchedulerOperationalPolicy := mkPolicy {
  schema_version : Z;
  recovery_batch_limit : Z;
  materialization_batch_limit : Z;
  occurrence_search_limit : Z;
  tick_interval_ms : Z;
  error_backoff_ms : Z;
  minimum_schedule_cadence_seconds : Z;
  max_active_jobs : Z;
  max_active_jobs_per_owner : Z;
  max_prompt_bytes : Z;
  max_result_bytes : Z;
  max_summary_bytes : Z;
  run_lease_seconds : Z;
  run_heartbeat_interval_ms : Z;
  run_timeout_seconds : Z;
  run_prepare_grace_ms : Z;
  run_cancellation_grace_ms : Z;
  run_finalization_grace_ms : Z;
  run_retry_base_seconds : Z;
  run_retry_max_seconds : Z;
  run_deadline_seconds : Z;
  run_max_attempts : Z;
  delivery_tick_interval_ms : Z;
  delivery_batch_limit : Z;
  delivery_lease_seconds : Z;
  delivery_heartbeat_interval_ms : Z;
  delivery_readiness_timeout_seconds : Z;
  delivery_send_timeout_seconds : Z;
  delivery_finalization_timeout_seconds : Z;
  delivery_max_attempts : Z;
  delivery_retry_base_seconds : Z;
  delivery_retry_max_seconds : Z;
  delivery_retry_after_max_seconds : Z;
  delivery_deadline_seconds : Z;
  delivery_readiness_retry_base_seconds : Z;
  delivery_readiness_retry_max_seconds : Z
}.

#[export] Instance policy_eq_dec : EqDecision SchedulerOperationalPolicy.
Proof. solve_decision. Defined.

(** The widths of the record's fields: what the Rust types guarantee of every
    value before [validate] runs. *)
Definition typed (p : SchedulerOperationalPolicy) : bool :=
  in_u32 (schema_version p) && in_u16 (recovery_batch_limit p)
  && in_u16 (materialization_batch_limit p) && in_u32 (occurrence_search_limit p)
  && in_u64 (tick_interval_ms p) && in_u64 (error_backoff_ms p)
  && in_u32 (minimum_schedule_cadence_seconds p) && in_u32 (max_active_jobs p)
  && in_u32 (max_active_jobs_per_owner p) && in_u32 (max_prompt_bytes p)
  && in_u32 (max_result_bytes p) && in_u32 (max_summary_bytes p)
  && in_u16 (run_lease_seconds p) && in_u64 (run_heartbeat_interval_ms p)
  && in_u32 (run_timeout_seconds p) && in_u64 (run_prepare_grace_ms p)
  && in_u64 (run_cancellation_grace_ms p) && in_u64 (run_finalization_grace_ms p)
  && in_u32 (run_retry_base_seconds p) && in_u32 (run_retry_max_seconds p)
  && in_u32 (run_deadline_seconds p) && in_u16 (run_max_attempts p)
  && in_u64 (delivery_tick_interval_ms p) && in_u16 (delivery_batch_limit p)
  && in_u16 (delivery_lease_seconds p) && in_u64 (delivery_heartbeat_interval_ms p)
  && in_u16 (delivery_readiness_timeout_seconds p)
  && in_u16 (delivery_send_timeout_seconds p)
  && in_u16 (delivery_finalization_timeout_seconds p)
  && in_u16 (delivery_max_attempts p) && in_u32 (delivery_retry_base_seconds p)
  && in_u32 (delivery_retry_max_seconds p)
  && in_u32 (delivery_retry_after_max_seconds p)
  && in_u32 (delivery_deadline_seconds p)
  && in_u16 (delivery_readiness_retry_base_seconds p)
  && in_u16 (delivery_readiness_retry_max_seconds p).

Definition default : SchedulerOperationalPolicy := {|
  schema_version := SCHEDULER_OPERATIONAL_POLICY_VERSION;
  recovery_batch_limit := 32;
  materialization_batch_limit := 32;
  occurrence_search_limit := 100000;
  tick_interval_ms := 250;
  error_backoff_ms := 1000;
  minimum_schedule_cadence_seconds := 60;
  max_active_jobs := 1000;
  max_active_jobs_per_owner := 100;
  max_prompt_bytes := 64 * 1024;
  max_result_bytes := 64 * 1024;
  max_summary_bytes := 32 * 1024;
  run_lease_seconds := 60;
  run_heartbeat_interval_ms := 15000;
  run_timeout_seconds := 1800;
  run_prepare_grace_ms := 5000;
  run_cancellation_grace_ms := 5000;
  run_finalization_grace_ms := 5000;
  run_retry_base_seconds := 30;
  run_retry_max_seconds := 300;
  run_deadline_seconds := 3600;
  run_max_attempts := 3;
  delivery_tick_interval_ms := 250;
  delivery_batch_limit := 32;
  delivery_lease_seconds := 60;
  delivery_heartbeat_interval_ms := 10000;
  delivery_readiness_timeout_seconds := 10;
  delivery_send_timeout_seconds := 30;
  delivery_finalization_timeout_seconds := 5;
  delivery_max_attempts := 5;
  delivery_retry_base_seconds := 5;
  delivery_retry_max_seconds := 300;
  delivery_retry_after_max_seconds := 3600;
  delivery_deadline_seconds := 3600;
  delivery_readiness_retry_base_seconds := 1;
  delivery_readiness_retry_max_seconds := 60
|}.

Definition legacy_compatible : SchedulerOperationalPolicy :=
  let d := default in {|
  schema_version := schema_version d;
  recovery_batch_limit := recovery_batch_limit d;
  materialization_batch_limit := materialization_batch_limit d;
  occurrence_search_limit := occurrence_search_limit d;
  tick_interval_ms := tick_interval_ms d;
  error_backoff_ms := error_backoff_ms d;
  minimum_schedule_cadence_seconds := 1;
  max_active_jobs := 1000000;
  max_active_jobs_per_owner := 1000000;
  max_prompt_bytes := max_prompt_bytes d;
  max_result_bytes := max_result_bytes d;
  max_summary_bytes := 64 * 1024;
  run_lease_seconds := run_lease_seconds d;
  run_heartbeat_interval_ms := run_heartbeat_interval_ms d;
  run_timeout_seconds := run_timeout_seconds d;
  run_prepare_grace_ms := run_prepare_grace_ms d;
  run_cancellation_grace_ms := run_cancellation_grace_ms d;
  run_finalization_grace_ms := run_finalization_grace_ms d;
  run_retry_base_seconds := run_retry_base_seconds d;
  run_retry_max_seconds := 30;
  run_deadline_seconds := run_deadline_seconds d;
  run_max_attempts := run_max_attempts d;
  delivery_tick_interval_ms := delivery_tick_interval_ms d;
  delivery_batch_limit := delivery_batch_limit d;
  delivery_lease_seconds := delivery_lease_seconds d;
  delivery_heartbeat_interval_ms := delivery_heartbeat_interval_ms d;
  delivery_readiness_timeout_seconds := delivery_readiness_timeout_seconds d;
  delivery_send_timeout_seconds := delivery_send_timeout_seconds d;
  delivery_finalization_timeout_seconds := delivery_finalization_timeout_seconds d;
  delivery_max_attempts := delivery_max_attempts d;
  delivery_retry_base_seconds := delivery_retry_base_seconds d;
  delivery_retry_max_seconds := delivery_retry_max_seconds d;
  delivery_retry_after_max_seconds := delivery_retry_after_max_seconds d;
  delivery_deadline_seconds := delivery_deadline_seconds d;
  delivery_readiness_retry_base_seconds := delivery_readiness_retry_base_seconds d;
  delivery_readiness_retry_max_seconds := delivery_readiness_retry_max_seconds d
|}.

(** ** Validation *)

Record SchedulerPolicyValidationError := mkPolicyError {
  field : string;
  reason : string
}.

#[export] Instance policy_error_eq_dec : EqDecision SchedulerPolicyValidationError.
Proof. solve_decision. Defined.

Definition invalid (f r : string) : SchedulerPolicyValidationError := mkPolicyError f r.

Abbreviation verdict := (result SchedulerPolicyValidationError unit).

Definition validate_eq (f : string) (value expected : Z) (r : string) : verdict :=
  if negb (value =? expected) then Err (invalid f r) else Ok tt.

Definition validate_range (f : string) (value minimum maximum : Z) : verdict :=
  if (value <? minimum) || (value >? maximum)
  then Err (invalid f "is outside the supported range") else Ok tt.

Definition validate_heartbeat (f : string) (heartbeat_ms lease_seconds : Z) : verdict :=
  if (heartbeat_ms =? 0) || (heartbeat_ms * 3 >=? lease_seconds * 1000)
  then Err (invalid f "must be positive and strictly shorter than one third of its lease")
  else Ok tt.

Definition validate_run_policy (p : SchedulerOperationalPolicy) : verdict :=
  check? validate_range "run_lease_seconds" (run_lease_seconds p) 5 3600 in
  check? validate_heartbeat "run_heartbeat_interval_ms"
           (run_heartbeat_interval_ms p) (run_lease_seconds p) in
  let run_lease_ms := run_lease_seconds p * 1000 in
  bail? tick_interval_ms p >=? run_lease_ms
    with invalid "tick_interval_ms" "must be shorter than run_lease_seconds" in
  check? validate_range "run_timeout_seconds" (run_timeout_seconds p) 1 21600 in
  check? validate_range "run_prepare_grace_ms" (run_prepare_grace_ms p) 1 60000 in
  check? validate_range "run_cancellation_grace_ms" (run_cancellation_grace_ms p) 3 60000 in
  check? validate_range "run_finalization_grace_ms" (run_finalization_grace_ms p) 1 60000 in
  check? validate_range "run_retry_base_seconds" (run_retry_base_seconds p) 1 86400 in
  check? validate_range "run_retry_max_seconds" (run_retry_max_seconds p)
           (run_retry_base_seconds p) 86400 in
  check? validate_range "run_deadline_seconds" (run_deadline_seconds p) 1 604800 in
  check? validate_range "run_max_attempts" (run_max_attempts p) 1 20 in
  let required_ms :=
    run_timeout_seconds p * 1000 + run_prepare_grace_ms p
    + run_cancellation_grace_ms p + run_finalization_grace_ms p in
  bail? required_ms >? run_deadline_seconds p * 1000
    with invalid "run_deadline_seconds"
           "must cover run timeout and all completion grace intervals" in
  Ok tt.

Definition validate_delivery_policy (p : SchedulerOperationalPolicy) : verdict :=
  check? validate_range "delivery_tick_interval_ms" (delivery_tick_interval_ms p) 10 60000 in
  check? validate_range "delivery_batch_limit" (delivery_batch_limit p) 1 1024 in
  check? validate_range "delivery_lease_seconds" (delivery_lease_seconds p) 5 3600 in
  check? validate_heartbeat "delivery_heartbeat_interval_ms"
           (delivery_heartbeat_interval_ms p) (delivery_lease_seconds p) in
  bail? delivery_tick_interval_ms p >=? delivery_lease_seconds p * 1000
    with invalid "delivery_tick_interval_ms" "must be shorter than delivery_lease_seconds" in
  check? validate_range "delivery_readiness_timeout_seconds"
           (delivery_readiness_timeout_seconds p) 1 300 in
  check? validate_range "delivery_send_timeout_seconds"
           (delivery_send_timeout_seconds p) 1 3600 in
  check? validate_range "delivery_finalization_timeout_seconds"
           (delivery_finalization_timeout_seconds p) 1 60 in
  check? validate_range "delivery_max_attempts" (delivery_max_attempts p) 1 20 in
  check? validate_range "delivery_retry_base_seconds" (delivery_retry_base_seconds p) 1 3600 in
  check? validate_range "delivery_retry_max_seconds" (delivery_retry_max_seconds p)
           (delivery_retry_base_seconds p) 86400 in
  check? validate_range "delivery_retry_after_max_seconds"
           (delivery_retry_after_max_seconds p) 1 (delivery_deadline_seconds p) in
  check? validate_range "delivery_deadline_seconds" (delivery_deadline_seconds p) 1 604800 in
  check? validate_range "delivery_readiness_retry_base_seconds"
           (delivery_readiness_retry_base_seconds p) 1 3600 in
  check? validate_range "delivery_readiness_retry_max_seconds"
           (delivery_readiness_retry_max_seconds p)
           (delivery_readiness_retry_base_seconds p) 3600 in
  let required :=
    u32_saturating_add (delivery_send_timeout_seconds p)
      (delivery_finalization_timeout_seconds p) in
  bail? required >? delivery_deadline_seconds p
    with invalid "delivery_deadline_seconds"
           "must cover delivery send and finalization timeouts" in
  Ok tt.

Definition validate (p : SchedulerOperationalPolicy) : verdict :=
  check? validate_eq "schema_version" (schema_version p)
           SCHEDULER_OPERATIONAL_POLICY_VERSION
           "must be the supported scheduler policy schema version" in
  check? validate_range "recovery_batch_limit" (recovery_batch_limit p) 1 1024 in
  check? validate_range "materialization_batch_limit" (materialization_batch_limit p) 1 1024 in
  check? validate_range "occurrence_search_limit" (occurrence_search_limit p) 1 1000000 in
  check? validate_range "tick_interval_ms" (tick_interval_ms p) 10 60000 in
  check? validate_range "error_backoff_ms" (error_backoff_ms p) 10 300000 in
  check? validate_range "minimum_schedule_cadence_seconds"
           (minimum_schedule_cadence_seconds p) 1 86400 in
  check? validate_range "max_active_jobs" (max_active_jobs p) 1 1000000 in
  check? validate_range "max_active_jobs_per_owner" (max_active_jobs_per_owner p)
           1 (max_active_jobs p) in
  check? validate_range "max_prompt_bytes" (max_prompt_bytes p) 1 (256 * 1024) in
  check? validate_range "max_result_bytes" (max_result_bytes p) 1 (256 * 1024) in
  check? validate_range "max_summary_bytes" (max_summary_bytes p) 1 (max_result_bytes p) in
  check? validate_run_policy p in
  validate_delivery_policy p.

(** ** Retry and deadline arithmetic *)

Definition can_retry (attempt max_attempts next_at absolute_deadline : Z) : bool :=
  (attempt <? max_attempts) && (next_at <? absolute_deadline).

(** FNV-1a over the identity's bytes, at 64 bits. *)
Definition stable_hash (value : string) : Z :=
  foldl (fun hash byte => u64_wrapping_mul (Z.lxor hash (Z.of_N byte)) 1099511628211)
    14695981039346656037 (to_bytes value).

Definition bounded_exponential_delay (base cap : Z) (identity : string) (attempt : Z) : Z :=
  let exponent := clamp 0 31 (i64_saturating_sub attempt 1) in
  let exponential :=
    Z.min (match u32_checked_shl base exponent with Some x => x | None => cap end) cap in
  let jitter_bound := Z.max (exponential / 4) 1 in
  let jitter := stable_hash identity mod jitter_bound in
  let jitter32 := if in_u32 jitter then jitter else u32_max in
  Z.min (u32_saturating_add exponential jitter32) cap.

Definition run_retry_delay_seconds (p : SchedulerOperationalPolicy) (run_id : string)
    (attempt : Z) : Z :=
  bounded_exponential_delay (run_retry_base_seconds p) (run_retry_max_seconds p)
    run_id attempt.

Definition delivery_retry_delay_seconds (p : SchedulerOperationalPolicy)
    (delivery_id : string) (attempt : Z) : Z :=
  bounded_exponential_delay (delivery_retry_base_seconds p)
    (delivery_retry_max_seconds p) delivery_id attempt.

Definition run_deadline_at (p : SchedulerOperationalPolicy) (scheduled_for : Z) : option Z :=
  i64_checked_add scheduled_for (run_deadline_seconds p).

Definition delivery_deadline_at (p : SchedulerOperationalPolicy)
    (payload_created_at : Z) : option Z :=
  i64_checked_add payload_created_at (delivery_deadline_seconds p).

Definition run_retry_at (p : SchedulerOperationalPolicy) (run_id : string)
    (attempt scheduled_for now : Z) : option Z :=
  match i64_checked_add now (run_retry_delay_seconds p run_id attempt) with
  | None => None
  | Some next =>
      match run_deadline_at p scheduled_for with
      | None => None
      | Some deadline =>
          if can_retry attempt (run_max_attempts p) next deadline then Some next else None
      end
  end.

(** [i64::try_from(seconds).unwrap_or(max).clamp(1, max)]; [clamp] panics when
    the bounds cross, which [validate] excludes. *)
Definition provider_retry_after (p : SchedulerOperationalPolicy)
    (retry_after_seconds : option Z) : Z :=
  match retry_after_seconds with
  | None => 0
  | Some seconds =>
      let limit := delivery_retry_after_max_seconds p in
      clamp 1 limit (if in_i64 seconds then seconds else limit)
  end.

Definition delivery_retry_at (p : SchedulerOperationalPolicy) (delivery_id : string)
    (attempt payload_created_at now : Z) (retry_after_seconds : option Z) : option Z :=
  let policy_delay := delivery_retry_delay_seconds p delivery_id attempt in
  let retry_after := provider_retry_after p retry_after_seconds in
  match i64_checked_add now (Z.max policy_delay retry_after) with
  | None => None
  | Some next =>
      match delivery_deadline_at p payload_created_at with
      | None => None
      | Some deadline =>
          if can_retry attempt (delivery_max_attempts p) next deadline
          then Some next else None
      end
  end.

Definition delivery_can_retry_at (p : SchedulerOperationalPolicy)
    (attempt payload_created_at next_at : Z) : bool :=
  match delivery_deadline_at p payload_created_at with
  | None => false
  | Some deadline => can_retry attempt (delivery_max_attempts p) next_at deadline
  end.
(** The struct update [..policy] on the run-retry group, for concrete
    policies in the witnesses. *)
Definition with_run_retry (base cap deadline attempts : Z)
    (p : SchedulerOperationalPolicy) : SchedulerOperationalPolicy := {|
  schema_version := schema_version p;
  recovery_batch_limit := recovery_batch_limit p;
  materialization_batch_limit := materialization_batch_limit p;
  occurrence_search_limit := occurrence_search_limit p;
  tick_interval_ms := tick_interval_ms p;
  error_backoff_ms := error_backoff_ms p;
  minimum_schedule_cadence_seconds := minimum_schedule_cadence_seconds p;
  max_active_jobs := max_active_jobs p;
  max_active_jobs_per_owner := max_active_jobs_per_owner p;
  max_prompt_bytes := max_prompt_bytes p;
  max_result_bytes := max_result_bytes p;
  max_summary_bytes := max_summary_bytes p;
  run_lease_seconds := run_lease_seconds p;
  run_heartbeat_interval_ms := run_heartbeat_interval_ms p;
  run_timeout_seconds := run_timeout_seconds p;
  run_prepare_grace_ms := run_prepare_grace_ms p;
  run_cancellation_grace_ms := run_cancellation_grace_ms p;
  run_finalization_grace_ms := run_finalization_grace_ms p;
  run_retry_base_seconds := base;
  run_retry_max_seconds := cap;
  run_deadline_seconds := deadline;
  run_max_attempts := attempts;
  delivery_tick_interval_ms := delivery_tick_interval_ms p;
  delivery_batch_limit := delivery_batch_limit p;
  delivery_lease_seconds := delivery_lease_seconds p;
  delivery_heartbeat_interval_ms := delivery_heartbeat_interval_ms p;
  delivery_readiness_timeout_seconds := delivery_readiness_timeout_seconds p;
  delivery_send_timeout_seconds := delivery_send_timeout_seconds p;
  delivery_finalization_timeout_seconds := delivery_finalization_timeout_seconds p;
  delivery_max_attempts := delivery_max_attempts p;
  delivery_retry_base_seconds := delivery_retry_base_seconds p;
  delivery_retry_max_seconds := delivery_retry_max_seconds p;
  delivery_retry_after_max_seconds := delivery_retry_after_max_seconds p;
  delivery_deadline_seconds := delivery_deadline_seconds p;
  delivery_readiness_retry_base_seconds := delivery_readiness_retry_base_seconds p;
  delivery_readiness_retry_max_seconds := delivery_readiness_retry_max_seconds p
|}.

(** ** The contract a validated policy satisfies *)

(** The promise of [validate], stated without its order or its errors: every
    field in its range, and the cross-field relations the workers rely on. *)
Record coherent (p : SchedulerOperationalPolicy) : Prop := {
  coh_version : schema_version p = SCHEDULER_OPERATIONAL_POLICY_VERSION;
  coh_recovery : 1 <= recovery_batch_limit p <= 1024;
  coh_materialization : 1 <= materialization_batch_limit p <= 1024;
  coh_occurrence : 1 <= occurrence_search_limit p <= 1000000;
  coh_tick : 10 <= tick_interval_ms p <= 60000;
  coh_backoff : 10 <= error_backoff_ms p <= 300000;
  coh_cadence : 1 <= minimum_schedule_cadence_seconds p <= 86400;
  coh_jobs : 1 <= max_active_jobs p <= 1000000;
  coh_owner_jobs : 1 <= max_active_jobs_per_owner p <= max_active_jobs p;
  coh_prompt : 1 <= max_prompt_bytes p <= 256 * 1024;
  coh_result : 1 <= max_result_bytes p <= 256 * 1024;
  coh_summary : 1 <= max_summary_bytes p <= max_result_bytes p;
  coh_run_lease : 5 <= run_lease_seconds p <= 3600;
  (* Three missed heartbeats still leave the run lease alive. *)
  coh_run_heartbeat : run_heartbeat_interval_ms p <> 0
    /\ run_heartbeat_interval_ms p * 3 < run_lease_seconds p * 1000;
  coh_run_tick : tick_interval_ms p < run_lease_seconds p * 1000;
  coh_run_timeout : 1 <= run_timeout_seconds p <= 21600;
  coh_run_prepare : 1 <= run_prepare_grace_ms p <= 60000;
  coh_run_cancellation : 3 <= run_cancellation_grace_ms p <= 60000;
  coh_run_finalization : 1 <= run_finalization_grace_ms p <= 60000;
  coh_run_base : 1 <= run_retry_base_seconds p <= 86400;
  coh_run_cap : run_retry_base_seconds p <= run_retry_max_seconds p <= 86400;
  coh_run_deadline : 1 <= run_deadline_seconds p <= 604800;
  coh_run_attempts : 1 <= run_max_attempts p <= 20;
  (* One whole attempt with every grace interval fits under the deadline. *)
  coh_run_cover : run_timeout_seconds p * 1000 + run_prepare_grace_ms p
    + run_cancellation_grace_ms p + run_finalization_grace_ms p
    <= run_deadline_seconds p * 1000;
  coh_delivery_tick : 10 <= delivery_tick_interval_ms p <= 60000;
  coh_delivery_batch : 1 <= delivery_batch_limit p <= 1024;
  coh_delivery_lease : 5 <= delivery_lease_seconds p <= 3600;
  coh_delivery_heartbeat : delivery_heartbeat_interval_ms p <> 0
    /\ delivery_heartbeat_interval_ms p * 3 < delivery_lease_seconds p * 1000;
  coh_delivery_tick_lease :
    delivery_tick_interval_ms p < delivery_lease_seconds p * 1000;
  coh_delivery_readiness : 1 <= delivery_readiness_timeout_seconds p <= 300;
  coh_delivery_send : 1 <= delivery_send_timeout_seconds p <= 3600;
  coh_delivery_finalization : 1 <= delivery_finalization_timeout_seconds p <= 60;
  coh_delivery_attempts : 1 <= delivery_max_attempts p <= 20;
  coh_delivery_base : 1 <= delivery_retry_base_seconds p <= 3600;
  coh_delivery_cap :
    delivery_retry_base_seconds p <= delivery_retry_max_seconds p <= 86400;
  coh_delivery_after :
    1 <= delivery_retry_after_max_seconds p <= delivery_deadline_seconds p;
  coh_delivery_deadline : 1 <= delivery_deadline_seconds p <= 604800;
  coh_ready_base : 1 <= delivery_readiness_retry_base_seconds p <= 3600;
  coh_ready_cap : delivery_readiness_retry_base_seconds p
    <= delivery_readiness_retry_max_seconds p <= 3600;
  coh_delivery_cover :
    delivery_send_timeout_seconds p + delivery_finalization_timeout_seconds p
    <= delivery_deadline_seconds p
}.

Lemma validate_range_ok f v lo hi : validate_range f v lo hi = Ok tt <-> lo <= v <= hi.
Proof.
  unfold validate_range. split.
  - intros H. split_match_in H; [done|]. bool_facts. lia.
  - intros ?. replace (v <? lo) with false by (symmetry; apply Z.ltb_ge; lia).
    replace (v >? hi) with false by (symmetry; rewrite Z.gtb_ltb; apply Z.ltb_ge; lia).
    done.
Qed.

Lemma validate_eq_ok f v x r : validate_eq f v x r = Ok tt <-> v = x.
Proof. unfold validate_eq. destruct (Z.eqb_spec v x); naive_solver. Qed.

Lemma validate_heartbeat_ok f h l :
  validate_heartbeat f h l = Ok tt <-> h <> 0 /\ h * 3 < l * 1000.
Proof.
  unfold validate_heartbeat. split.
  - intros H. split_match_in H; [done|]. lia.
  - intros [??]. replace (h =? 0) with false by lia.
    by replace (h * 3 >=? l * 1000) with false by lia.
Qed.

Lemma validate_run_policy_ok p :
  validate_run_policy p = Ok tt <->
  5 <= run_lease_seconds p <= 3600
  /\ (run_heartbeat_interval_ms p <> 0
      /\ run_heartbeat_interval_ms p * 3 < run_lease_seconds p * 1000)
  /\ tick_interval_ms p < run_lease_seconds p * 1000
  /\ 1 <= run_timeout_seconds p <= 21600
  /\ 1 <= run_prepare_grace_ms p <= 60000
  /\ 3 <= run_cancellation_grace_ms p <= 60000
  /\ 1 <= run_finalization_grace_ms p <= 60000
  /\ 1 <= run_retry_base_seconds p <= 86400
  /\ run_retry_base_seconds p <= run_retry_max_seconds p <= 86400
  /\ 1 <= run_deadline_seconds p <= 604800
  /\ 1 <= run_max_attempts p <= 20
  /\ run_timeout_seconds p * 1000 + run_prepare_grace_ms p
     + run_cancellation_grace_ms p + run_finalization_grace_ms p
     <= run_deadline_seconds p * 1000.
Proof.
  unfold validate_run_policy. cbv zeta.
  rewrite !check_ok, !bail_ok, !check_ok, !bail_ok, !validate_range_ok, validate_heartbeat_ok.
  intuition lia.
Qed.

Lemma validate_delivery_policy_ok p :
  validate_delivery_policy p = Ok tt <->
  10 <= delivery_tick_interval_ms p <= 60000
  /\ 1 <= delivery_batch_limit p <= 1024
  /\ 5 <= delivery_lease_seconds p <= 3600
  /\ (delivery_heartbeat_interval_ms p <> 0
      /\ delivery_heartbeat_interval_ms p * 3 < delivery_lease_seconds p * 1000)
  /\ delivery_tick_interval_ms p < delivery_lease_seconds p * 1000
  /\ 1 <= delivery_readiness_timeout_seconds p <= 300
  /\ 1 <= delivery_send_timeout_seconds p <= 3600
  /\ 1 <= delivery_finalization_timeout_seconds p <= 60
  /\ 1 <= delivery_max_attempts p <= 20
  /\ 1 <= delivery_retry_base_seconds p <= 3600
  /\ delivery_retry_base_seconds p <= delivery_retry_max_seconds p <= 86400
  /\ 1 <= delivery_retry_after_max_seconds p <= delivery_deadline_seconds p
  /\ 1 <= delivery_deadline_seconds p <= 604800
  /\ 1 <= delivery_readiness_retry_base_seconds p <= 3600
  /\ delivery_readiness_retry_base_seconds p
     <= delivery_readiness_retry_max_seconds p <= 3600
  /\ delivery_send_timeout_seconds p + delivery_finalization_timeout_seconds p
     <= delivery_deadline_seconds p.
Proof.
  unfold validate_delivery_policy, u32_saturating_add, u32_max. cbv zeta.
  rewrite !check_ok, !bail_ok, !check_ok, !bail_ok, !validate_range_ok, validate_heartbeat_ok.
  intuition lia.
Qed.

Lemma validate_coherent p : validate p = Ok tt <-> coherent p.
Proof.
  unfold validate.
  rewrite !check_ok, !validate_range_ok, validate_eq_ok, validate_run_policy_ok,
    validate_delivery_policy_ok.
  split; [intros; destruct_and!; by constructor | intros []; repeat (done || split)].
Qed.

(** ** The backoff *)

Lemma stable_hash_u64 s : 0 <= stable_hash s < 2 ^ 64.
Proof.
  unfold stable_hash.
  assert (forall l h, 0 <= h < 2 ^ 64 ->
    0 <= foldl (fun hash byte => u64_wrapping_mul (Z.lxor hash (Z.of_N byte)) 1099511628211) h l
      < 2 ^ 64) as Hfold.
  { induction l as [|b l IH]; intros h Hh; [done|]. cbn. apply IH.
    apply Z.mod_pos_bound. lia. }
  apply Hfold. lia.
Qed.

(** The jitter is below a quarter of the delay it is added to (or zero). *)
Lemma jitter_range id x :
  0 <= x -> 0 <= stable_hash id mod Z.max (x / 4) 1 < Z.max (x / 4) 1.
Proof. intros. apply Z.mod_pos_bound. lia. Qed.

(** The shift keeps the low 32 bits of the doubled base; the delay is that word,
    capped, plus the jitter. *)
Lemma backoff_closed_form base cap id attempt :
  0 <= cap <= u32_max -> 1 <= attempt <= 32 ->
  let x := Z.min (base * 2 ^ (attempt - 1) mod 2 ^ 32) cap in
  bounded_exponential_delay base cap id attempt
  = Z.min (x + stable_hash id mod Z.max (x / 4) 1) cap.
Proof.
  intros Hc Ha x. unfold bounded_exponential_delay, i64_saturating_sub, clamp.
  unfold i64_min, i64_max, u32_max in *.
  replace (Z.max 0 (Z.min 31 _)) with (attempt - 1) by lia.
  unfold u32_checked_shl. replace (attempt - 1 <? 32) with true by lia.
  rewrite Z.shiftl_mul_pow2 by lia. fold x.
  assert (0 <= base * 2 ^ (attempt - 1) mod 2 ^ 32) by (by apply Z.mod_pos_bound).
  assert (0 <= x <= 4294967295) as Hx by lia.
  assert (x / 4 <= x) by (apply Z.div_le_upper_bound; lia).
  pose proof (jitter_range id x ltac:(lia)). clearbody x.
  generalize dependent (stable_hash id mod Z.max (x / 4) 1). intros j Hj.
  replace (in_u32 j) with true; [unfold u32_saturating_add, u32_max; lia|].
  symmetry. apply in_u32_spec. unfold u32_max. lia.
Qed.

Lemma backoff_word_envelope base cap id attempt :
  0 <= cap <= u32_max -> 1 <= attempt <= 32 ->
  let x := Z.min (base * 2 ^ (attempt - 1) mod 2 ^ 32) cap in
  x <= bounded_exponential_delay base cap id attempt <= Z.min cap (x + x / 4).
Proof.
  intros Hc Ha x. rewrite backoff_closed_form by done. cbv zeta. fold x.
  assert (0 <= base * 2 ^ (attempt - 1) mod 2 ^ 32) by (by apply Z.mod_pos_bound).
  assert (0 <= x / 4) by (apply Z.div_pos; lia).
  pose proof (jitter_range id x ltac:(lia)). lia.
Qed.

(** Where the shift loses no bit, the word is the doubled base. *)
Lemma backoff_envelope base cap id attempt :
  0 <= base -> 0 <= cap <= u32_max -> 1 <= attempt <= 32 ->
  base * 2 ^ (attempt - 1) < 2 ^ 32 ->
  let x := Z.min (base * 2 ^ (attempt - 1)) cap in
  x <= bounded_exponential_delay base cap id attempt <= Z.min cap (x + x / 4).
Proof.
  intros Hb Hc Ha Hfit. pose proof (backoff_word_envelope base cap id attempt Hc Ha) as He.
  rewrite Z.mod_small in He; [exact He|]. split; [|done].
  apply Z.mul_nonneg_nonneg; [done|by apply Z.pow_nonneg].
Qed.

Lemma backoff_capped base cap id attempt :
  bounded_exponential_delay base cap id attempt <= cap.
Proof. unfold bounded_exponential_delay. cbv zeta. apply Z.le_min_r. Qed.

Lemma checked_shl_nonneg a k x : u32_checked_shl a k = Some x -> 0 <= x.
Proof.
  unfold u32_checked_shl. intros. case_match; simplify_eq.
  by apply Z.mod_pos_bound.
Qed.

Lemma backoff_nonneg base cap id attempt :
  0 <= cap -> 0 <= bounded_exponential_delay base cap id attempt.
Proof.
  intros Hcap. unfold bounded_exponential_delay, u32_saturating_add. cbv zeta.
  apply Z.min_glb; [|done]. set (e := Z.min _ cap).
  assert (0 <= e) as He.
  { subst e. apply Z.min_glb; [|done].
    destruct (u32_checked_shl _ _) eqn:E; [exact (checked_shl_nonneg _ _ _ E) | done]. }
  pose proof (jitter_range id e He) as Hj. clearbody e.
  generalize dependent (stable_hash id mod Z.max (e / 4) 1). intros j Hj.
  destruct (in_u32 j); unfold u32_max; lia.
Qed.

(** Twenty attempts of a delivery backoff never shift a bit out. *)
Lemma small_base_fits base attempt :
  0 <= base <= 3600 -> 1 <= attempt <= 20 -> base * 2 ^ (attempt - 1) < 2 ^ 32.
Proof.
  intros. assert (2 ^ (attempt - 1) <= 2 ^ 19) by (apply Z.pow_le_mono_r; lia). nia.
Qed.

Lemma base_le_scaled base cap attempt :
  0 <= base <= cap -> 1 <= attempt -> base <= Z.min (base * 2 ^ (attempt - 1)) cap.
Proof.
  intros. assert (1 <= 2 ^ (attempt - 1)) by (apply (Z.pow_le_mono_r 2 0); lia).
  apply Z.min_glb; [nia | lia].
Qed.

(** ** Properties *)

(** The validator accepts exactly the coherent policies: every field range
    and every cross-field relation (heartbeat against lease, tick against
    lease, timeouts and graces against deadlines, per-owner against global
    limits), and nothing else. *)
Theorem validate_characterised p : validate p = Ok tt <-> coherent p.
Proof. apply validate_coherent. Qed.

(** The two policies the program ships are accepted and fit their types. *)
Example shipped_policies_valid :
  validate default = Ok tt /\ validate legacy_compatible = Ok tt
  /\ typed default = true /\ typed legacy_compatible = true.
Proof. vm_compute. done. Qed.

(** Under a validated policy the delay before delivery attempt [attempt + 1]
    is the base doubled once per earlier attempt, capped, plus a jitter of at
    most a quarter of it, and it never exceeds the cap. *)
Theorem delivery_backoff_envelope p id attempt :
  validate p = Ok tt -> 1 <= attempt <= delivery_max_attempts p ->
  let x := Z.min (delivery_retry_base_seconds p * 2 ^ (attempt - 1))
             (delivery_retry_max_seconds p) in
  delivery_retry_base_seconds p <= x
  /\ x <= delivery_retry_delay_seconds p id attempt
  /\ delivery_retry_delay_seconds p id attempt
     <= Z.min (delivery_retry_max_seconds p) (x + x / 4).
Proof.
  intros [] %validate_coherent Ha x.
  split; [apply base_le_scaled; lia|].
  apply backoff_envelope; unfold u32_max; try lia. apply small_base_fits; lia.
Qed.

Lemma delivery_backoff_envelope_witness :
  validate default = Ok tt /\ 5 <= delivery_retry_delay_seconds default "delivery-1" 1.
Proof.
  split; [done|].
  destruct (delivery_backoff_envelope default "delivery-1" 1 eq_refl ltac:(cbn; lia))
    as (_ & H & _). exact H.
Defined.

(** The same envelope for run retries, as long as the doubled base still
    fits in 32 bits. *)
Theorem run_backoff_envelope p id attempt :
  validate p = Ok tt -> 1 <= attempt <= run_max_attempts p ->
  run_retry_base_seconds p * 2 ^ (attempt - 1) < 2 ^ 32 ->
  let x := Z.min (run_retry_base_seconds p * 2 ^ (attempt - 1))
             (run_retry_max_seconds p) in
  run_retry_base_seconds p <= x
  /\ x <= run_retry_delay_seconds p id attempt
  /\ run_retry_delay_seconds p id attempt
     <= Z.min (run_retry_max_seconds p) (x + x / 4).
Proof.
  intros [] %validate_coherent Ha Hfit x.
  split; [apply base_le_scaled; lia|].
  apply backoff_envelope; unfold u32_max; lia.
Qed.

Lemma run_backoff_envelope_witness :
  validate default = Ok tt /\ 120 <= run_retry_delay_seconds default "run-1" 3.
Proof.
  split; [done|].
  destruct (run_backoff_envelope default "run-1" 3 eq_refl ltac:(cbn; lia) ltac:(cbn; lia))
    as (_ & H & _). exact H.
Defined.

(** C37. Without that side condition the backoff wraps around: under every
    validated policy and for every attempt it allows, the delay is the doubled
    base reduced modulo 2^32, capped, plus at most a quarter of that; so a retry
    is granted with no delay at all exactly when the doubled base is a multiple of
    2^32.  [checked_shl] rejects only an oversized shift amount, not lost bits. *)
Theorem run_backoff_wraps p id attempt :
  validate p = Ok tt -> 1 <= attempt <= run_max_attempts p ->
  let doubled := run_retry_base_seconds p * 2 ^ (attempt - 1) in
  let x := Z.min (doubled mod 2 ^ 32) (run_retry_max_seconds p) in
  x <= run_retry_delay_seconds p id attempt <= Z.min (run_retry_max_seconds p) (x + x / 4)
  /\ (run_retry_delay_seconds p id attempt = 0 <-> (2 ^ 32 | doubled)).
Proof.
  intros [] %validate_coherent Ha doubled x.
  assert (x <= run_retry_delay_seconds p id attempt
          <= Z.min (run_retry_max_seconds p) (x + x / 4)) as He
    by (apply backoff_word_envelope; unfold u32_max; lia).
  split; [done|]. rewrite <- Z.mod_divide by done.
  assert (0 <= doubled mod 2 ^ 32) by (by apply Z.mod_pos_bound).
  split; [lia|]. intros Hz. subst x. rewrite Hz in He.
  replace (Z.min 0 (run_retry_max_seconds p)) with 0 in He by lia.
  change (0 + 0 / 4) with 0 in He. lia.
Qed.

(** A policy with a base and a cap of 16384 seconds is accepted; its eighteenth
    run attempt of twenty is retried after the cap, its nineteenth at once. *)
Lemma run_backoff_wraps_witness :
  let p := with_run_retry 16384 16384 604800 20 default in
  typed p = true /\ validate p = Ok tt /\ run_retry_delay_seconds p "run-1" 18 = 16384
  /\ run_retry_delay_seconds p "run-1" 19 = 0.
Proof.
  intros p. split_and!; [done..|].
  destruct (run_backoff_wraps p "run-1" 19 eq_refl ltac:(cbn; lia)) as [_ Hz].
  apply Hz. by exists 1.
Defined.

(** A run is rescheduled at [next] exactly when attempts remain and [next],
    the present time plus the policy delay, lies strictly before the absolute
    deadline of its occurrence, with every sum inside 64 bits. *)
Theorem run_retry_at_exact p run_id attempt scheduled_for now next :
  run_retry_at p run_id attempt scheduled_for now = Some next <->
  next = now + run_retry_delay_seconds p run_id attempt
  /\ i64_min <= next <= i64_max
  /\ i64_min <= scheduled_for + run_deadline_seconds p <= i64_max
  /\ attempt < run_max_attempts p
  /\ next < scheduled_for + run_deadline_seconds p.
Proof.
  unfold run_retry_at, run_deadline_at, i64_checked_add, fits, can_retry.
  split.
  - intros H. peel H. rewrite in_i64_spec in *. bool_facts. lia.
  - intros (-> & H1%in_i64_spec & H2%in_i64_spec & H3%Z.ltb_lt & H4%Z.ltb_lt).
    by rewrite H1, H2, H3, H4.
Qed.

(** A delivery retry respects both clocks: it waits at least the policy
    delay and at least the provider's [Retry-After] (clamped to the policy
    maximum), and it still starts strictly before the delivery deadline. *)
Theorem delivery_retry_at_sound p id attempt created now retry_after next :
  validate p = Ok tt ->
  delivery_retry_at p id attempt created now retry_after = Some next ->
  attempt < delivery_max_attempts p
  /\ now + delivery_retry_delay_seconds p id attempt <= next
  /\ next < created + delivery_deadline_seconds p
  /\ (forall s, retry_after = Some s -> 0 <= s <= u64_max ->
       now + Z.min (Z.max 1 s) (delivery_retry_after_max_seconds p) <= next)
  /\ delivery_can_retry_at p attempt created next = true.
Proof.
  intros [] %validate_coherent H.
  unfold delivery_retry_at, delivery_can_retry_at, delivery_deadline_at in *.
  cbv zeta in H. peel H. unfold can_retry in *.
  split_and!; [| | |intros s -> Hs; unfold provider_retry_after, clamp, in_i64, i64_max in *
              |done]; widths; bool_facts; try lia.
  destruct (_ && _) eqn:? in *; bool_facts; lia.
Qed.

Lemma delivery_retry_at_sound_witness :
  delivery_retry_at default "delivery-1" 1 1000 1100 (Some 120) = Some 1220
  /\ 1100 + Z.min (Z.max 1 120) 3600 <= 1220.
Proof.
  assert (delivery_retry_at default "delivery-1" 1 1000 1100 (Some 120) = Some 1220) as H
    by (vm_compute; reflexivity).
  split; [exact H|].
  destruct (delivery_retry_at_sound default "delivery-1" 1 1000 1100 (Some 120) 1220 eq_refl H)
    as (_ & _ & _ & Hafter & _).
  apply (Hafter 120); [reflexivity | unfold u64_max; lia].
Defined.

End Policy.
