(* ===== verification/Identity.v ===== *)
(** * Canonical scheduled identities (crates/core/src/scheduled_identity.rs)

    The bounded tokens and the narrow SPIFFE identity that deployment
    configuration, signed evidence and the remote protocol share. *)

From stdpp Require Import base tactics list strings numbers.
From Stdlib Require Import ZArith Lia Ascii.
From S2P Require Import Prelude.

Module Identity.

Definition MAX_CRITICAL_ID_BYTES : Z := 128.
Definition MAX_CREDENTIAL_REVISION_BYTES : Z := 128.
Definition MAX_EVIDENCE_KEY_ID_BYTES : Z := 128.
Definition MAX_RUNNER_WORKLOAD_IDENTITY_BYTES : Z := 256.

(** The error carries its stable reason. *)
Record ScheduledIdentityError := identity_error { error_reason : string }.

#[export] Instance identity_error_eq_dec : EqDecision ScheduledIdentityError.
Proof. solve_decision. Defined.

(** The four newtypes over [String]. *)
Record CriticalId := mkCriticalId { critical_id_str : string }.
Record CredentialRevision := mkCredentialRevision { credential_revision_str : string }.
Record EvidenceKeyId := mkEvidenceKeyId { evidence_key_id_str : string }.
Record RunnerWorkloadIdentity := mkRunnerWorkloadIdentity { workload_identity_str : string }.

Definition is_bounded_ascii_token (value : string) (max_bytes : Z)
    (lowercase_only allow_colon : bool) : bool :=
  if is_empty value || (len value >? max_bytes) || negb (is_ascii value)
     || negb (is_trimmed value)
  then false
  else match first_byte value with
  | None => false
  | Some first =>
      if negb (is_ascii_alphanumeric first)
         || (lowercase_only && is_ascii_uppercase first)
      then false
      else match last_byte value with
      | None => false
      | Some last =>
          if negb (is_ascii_alphanumeric last)
             || (lowercase_only && is_ascii_uppercase last)
          then false
          else bytes_all (fun byte =>
                 is_ascii_digit byte
                 || is_ascii_lowercase byte
                 || (negb lowercase_only && is_ascii_uppercase byte)
                 || (Ascii.eqb byte "-" || Ascii.eqb byte "_" || Ascii.eqb byte ".")
                 || (allow_colon && Ascii.eqb byte ":")) value
      end
  end.

Definition is_label_byte (byte : ascii) : bool :=
  is_ascii_lowercase byte || is_ascii_digit byte || Ascii.eqb byte "-".

Definition is_label_edge (byte : option ascii) : bool :=
  match byte with
  | Some b => is_ascii_lowercase b || is_ascii_digit b
  | None => false
  end.

(** One dot-separated label of a trust domain. *)
Definition valid_label (label : string) : bool :=
  negb (is_empty label) && (len label <=? 63) && bytes_all is_label_byte label
  && is_label_edge (first_byte label) && is_label_edge (last_byte label).

Definition valid_trust_domain (value : string) : bool :=
  if is_empty value || (len value >? 128) || negb (is_ascii value) then false
  else forallb valid_label (split "." value).

Definition is_segment_byte (byte : ascii) : bool :=
  is_ascii_alphanumeric byte
  || (Ascii.eqb byte "-" || Ascii.eqb byte "_" || Ascii.eqb byte ".").

(** One slash-separated segment of a SPIFFE path. *)
Definition valid_segment (segment : string) : bool :=
  negb (is_empty segment) && (len segment <=? 64)
  && negb (String.eqb segment "." || String.eqb segment "..")
  && bytes_all is_segment_byte segment.

Definition valid_spiffe_path (value : string) : bool :=
  negb (is_empty value) && negb (ends_with "/" value)
  && forallb valid_segment (split "/" value).

Definition parse_critical_id (value : string) : result ScheduledIdentityError CriticalId :=
  if negb (is_bounded_ascii_token value MAX_CRITICAL_ID_BYTES false true)
  then Err (identity_error "critical_id_invalid")
  else Ok (mkCriticalId value).

Definition parse_credential_revision (value : string) :
    result ScheduledIdentityError CredentialRevision :=
  if negb (is_bounded_ascii_token value MAX_CREDENTIAL_REVISION_BYTES true false)
  then Err (identity_error "credential_revision_invalid")
  else Ok (mkCredentialRevision value).

Definition parse_evidence_key_id (value : string) :
    result ScheduledIdentityError EvidenceKeyId :=
  if is_empty value || (len value >? MAX_EVIDENCE_KEY_ID_BYTES)
     || negb (bytes_all (fun byte =>
          is_ascii_lowercase byte || is_ascii_digit byte || Ascii.eqb byte "-") value)
  then Err (identity_error "evidence_key_id_invalid")
  else Ok (mkEvidenceKeyId value).

Definition parse_runner_workload_identity (value : string) :
    result ScheduledIdentityError RunnerWorkloadIdentity :=
  if is_empty value || (len value >? MAX_RUNNER_WORKLOAD_IDENTITY_BYTES)
     || negb (is_ascii value) || negb (is_trimmed value)
  then Err (identity_error "runner_workload_identity_invalid")
  else
    let? remainder := ok_or (strip_prefix "spiffe://" value)
      (identity_error "runner_workload_identity_scheme_invalid") in
    let? (trust_domain, path) := ok_or (split_once "/" remainder)
      (identity_error "runner_workload_identity_path_missing") in
    if negb (valid_trust_domain trust_domain) || negb (valid_spiffe_path path)
    then Err (identity_error "runner_workload_identity_noncanonical")
    else Ok (mkRunnerWorkloadIdentity value).

(** The examples of the crate's own tests. *)
Example workload_identity_examples :
  forallb (fun v => is_ok (parse_runner_workload_identity v))
    ["spiffe://codeoff/runner/production"; "spiffe://example.org/ns/default/sa/runner-1";
     "spiffe://trust-domain/workload/Runner_1"] = true
  /\ forallb (fun v => negb (is_ok (parse_runner_workload_identity v)))
    [""; " spiffe://codeoff/runner/production"; "https://codeoff/runner/production";
     "SPIFFE://codeoff/runner/production"; "spiffe://Codeoff/runner/production";
     "spiffe://codeoff"; "spiffe://codeoff/"; "spiffe://codeoff//runner";
     "spiffe://codeoff/runner/../production"; "spiffe://codeoff/runner%2fproduction";
     "spiffe://codeoff/runner?query=yes"; "spiffe://codeoff/runner#fragment";
     "spiffe://user@codeoff/runner"; "spiffe://codeoff:443/runner";
     "spiffe://-codeoff/runner"; "spiffe://codeoff-/runner"] = true.
Proof. vm_compute. done. Qed.

(** ** Lemmas *)

Lemma valid_label_bytes l :
  valid_label l = true -> l <> EmptyString /\ bytes_all is_label_byte l = true.
Proof. unfold valid_label. intros H. bool_facts. by destruct l. Qed.

Lemma valid_segment_bytes s :
  valid_segment s = true -> s <> EmptyString /\ bytes_all is_segment_byte s = true.
Proof. unfold valid_segment. intros H. bool_facts. by destruct s. Qed.

(** A class of bytes that excludes the separator keeps the pieces apart. *)
Lemma class_without (p : ascii -> bool) c s :
  p c = false -> bytes_all p s = true -> without c s = true.
Proof.
  intros Hc. apply bytes_all_impl. intros b Hb.
  destruct (Ascii.eqb_spec b c); [congruence | done].
Qed.

Lemma class_ascii (p : ascii -> bool) s :
  (forall b, p b = true -> is_ascii_byte b = true) -> bytes_all p s = true -> is_ascii s = true.
Proof. apply bytes_all_impl. Qed.

Lemma label_byte_ascii b : is_label_byte b = true -> is_ascii_byte b = true.
Proof. by destruct b as [[][][][][][][][]]. Qed.

Lemma segment_byte_ascii b : is_segment_byte b = true -> is_ascii_byte b = true.
Proof. by destruct b as [[][][][][][][][]]. Qed.

Lemma concat_class (p : ascii -> bool) c l :
  p c = true -> Forall (fun s => bytes_all p s = true) l ->
  bytes_all p (String.concat (char c) l) = true.
Proof.
  intros Hc. induction 1 as [|s l Hs Hl IH]; [done|].
  destruct l as [|t l]; [done|]. rewrite concat_cons.
  rewrite !bytes_all_app, Hs, IH. cbn. by rewrite Hc.
Qed.

Lemma concat_nonempty c l :
  l <> [] -> Forall (fun s => s <> EmptyString) l ->
  String.concat (char c) l <> EmptyString.
Proof.
  destruct l as [|s l]; [done|]. intros _ [Hs _]%Forall_cons_1.
  destruct s; [done|]. by destruct l.
Qed.

(** The last byte of a joined path is the last byte of its last segment. *)
Lemma concat_last_byte (p : ascii -> bool) c l :
  l <> [] -> Forall (fun s => s <> EmptyString /\ bytes_all p s = true) l ->
  exists b, last_byte (String.concat (char c) l) = Some b /\ p b = true.
Proof.
  intros Hne Hl. induction l as [|s l IH]; [done|].
  apply Forall_cons_1 in Hl as [[Hs Hp] Hl].
  destruct l as [|t l].
  - cbn. clear IH Hne. induction s as [|b s IHs]; [done|]. cbn in Hp.
    apply andb_true_iff in Hp as [Hb Hp]. destruct s; [by exists b|]. by apply IHs.
  - rewrite concat_cons. destruct IH as (b & Hb & Hpb); [done..|].
    exists b. split; [|done]. rewrite last_byte_app, last_byte_app; [done| |done].
    apply concat_nonempty; [done|]. eapply Forall_weaken; [done|]. by intros ? [??].
Qed.

Lemma white_space_suffix_ascii b r :
  N.ltb 32 b && N.ltb b 128 = true -> white_space_suffix (b :: r) = None.
Proof.
  intros H. unfold white_space_suffix, reverse.
  destruct r as [|c r]; [|destruct r as [|d r]]; cbn [take]; rewrite ?take_0; cbn;
    repeat case_match; simplify_eq; try done; exfalso; bool_cases; lia.
Qed.

Lemma to_bytes_last s b :
  last_byte s = Some b -> exists r, reverse (to_bytes s) = N_of_ascii b :: r.
Proof.
  induction s as [|a s IH]; [done|]. destruct s as [|a' s].
  - cbn. intros. simplify_eq. by eexists.
  - intros H. destruct IH as [r Hr]; [done|]. cbn [to_bytes] in *.
    rewrite reverse_cons, Hr. by eexists.
Qed.

Lemma segment_byte_visible b :
  is_segment_byte b = true -> N.ltb 32 (N_of_ascii b) && N.ltb (N_of_ascii b) 128 = true.
Proof. by destruct b as [[][][][][][][][]]. Qed.

(** ** The canonical SPIFFE contract *)

(** A workload identity spelled from its parts: dot-joined labels and
    slash-joined path segments, each of them valid. *)
Definition canonical_spiffe (v : string) (labels segments : list string) : Prop :=
  v = "spiffe://" +:+ String.concat "." labels
        +:+ String "/" (String.concat "/" segments)
  /\ labels <> [] /\ segments <> []
  /\ Forall (fun l => valid_label l = true) labels
  /\ Forall (fun s => valid_segment s = true) segments
  /\ len (String.concat "." labels) <= 128
  /\ len v <= MAX_RUNNER_WORKLOAD_IDENTITY_BYTES.

Lemma labels_without_slash labels :
  Forall (fun l => valid_label l = true) labels ->
  without "/" (String.concat "." labels) = true.
Proof.
  intros H. apply (class_without (fun b => is_label_byte b || Ascii.eqb b ".")); [done|].
  apply (concat_class _ "."); [done|]. eapply Forall_weaken; [done|].
  intros l [_ Hl]%valid_label_bytes. eapply bytes_all_impl; [|done]. cbn.
  intros b ->. done.
Qed.

Lemma trust_domain_of_labels labels :
  labels <> [] -> Forall (fun l => valid_label l = true) labels ->
  len (String.concat "." labels) <= 128 ->
  valid_trust_domain (String.concat "." labels) = true.
Proof.
  intros Hne Hl Hlen. unfold valid_trust_domain.
  assert (String.concat "." labels <> EmptyString) as Hs.
  { apply (concat_nonempty "."); [done|]. eapply Forall_weaken; [done|].
    by intros l [??]%valid_label_bytes. }
  assert (is_ascii (String.concat "." labels) = true) as Ha.
  { apply (concat_class _ "."); [done|]. eapply Forall_weaken; [done|].
    intros l [_ ?]%valid_label_bytes. eapply class_ascii; [apply label_byte_ascii|done]. }
  rewrite Ha. replace (len _ >? 128) with false by lia.
  destruct (String.concat "." labels) eqn:E; [done|]. cbn [is_empty orb negb].
  rewrite <- E, (split_concat "."); [by apply forallb_spec | done |].
  eapply Forall_weaken; [done|]. intros l [_ ?]%valid_label_bytes.
  by apply (class_without is_label_byte).
Qed.

Lemma path_of_segments segments :
  segments <> [] -> Forall (fun s => valid_segment s = true) segments ->
  valid_spiffe_path (String.concat "/" segments) = true.
Proof.
  intros Hne Hs. unfold valid_spiffe_path.
  assert (Forall (fun s => s <> EmptyString /\ bytes_all is_segment_byte s = true) segments)
    as Hbytes by (eapply Forall_weaken; [done | apply valid_segment_bytes]).
  destruct (concat_last_byte _ "/" _ Hne Hbytes) as (b & Hb & Hpb).
  unfold ends_with. change (char "/") with "/" in Hb. rewrite Hb.
  rewrite (split_concat "/"); [|done|].
  - replace (forallb valid_segment segments) with true
      by (symmetry; by apply forallb_spec).
    destruct (String.concat "/" segments); [done|]. cbn.
    by destruct b as [[][][][][][][][]].
  - eapply Forall_weaken; [exact Hbytes|]. intros s [_ ?].
    by apply (class_without is_segment_byte).
Qed.

(** The spelled identity is ASCII and already trimmed. *)
Lemma canonical_spiffe_text v labels segments :
  canonical_spiffe v labels segments -> is_ascii v = true /\ is_trimmed v = true.
Proof.
  intros (-> & Hl & Hs & HL & HS & _ & _).
  assert (Forall (fun s => s <> EmptyString /\ bytes_all is_segment_byte s = true) segments)
    as Hbytes by (eapply Forall_weaken; [done | apply valid_segment_bytes]).
  split.
  - unfold is_ascii. rewrite !bytes_all_app. cbn.
    rewrite (concat_class _ "."), (concat_class _ "/"); try done.
    + eapply Forall_weaken; [exact Hbytes|]. intros s [_ ?].
      eapply class_ascii; [apply segment_byte_ascii | done].
    + eapply Forall_weaken; [exact HL|]. intros s [_ ?]%valid_label_bytes.
      eapply class_ascii; [apply label_byte_ascii | done].
  - destruct (concat_last_byte _ "/" _ Hs Hbytes) as (b & Hb & Hpb).
    apply is_trimmed_ends; [cbn; by repeat case_match|].
    edestruct (to_bytes_last) as [r ->]; [|by apply white_space_suffix_ascii,
      segment_byte_visible, Hpb].
    rewrite last_byte_app by (by destruct (String.concat "." labels)).
    rewrite last_byte_app by done. rewrite <- Hb. change (char "/") with "/" in *.
    by destruct (String.concat "/" segments).
Qed.

(** ** Properties *)

(** The workload identity parser accepts exactly the canonically spelled
    SPIFFE identities within the byte bounds - no empty label or segment, no
    dot segments, no leading, trailing or doubled separator - and keeps the
    text unchanged. *)
Theorem workload_identity_exact v w :
  parse_runner_workload_identity v = Ok w <->
  w = mkRunnerWorkloadIdentity v
  /\ exists labels segments, canonical_spiffe v labels segments.
Proof.
  unfold parse_runner_workload_identity. split.
  - intros H. peel H. ok_facts. split; [done|].
    apply orb_false_iff in Heqb0 as [Hd%negb_false_iff Hp%negb_false_iff].
    exists (split "." s), (split "/" s0).
    apply strip_prefix_spec in Heqr. apply split_once_spec in Heqr0 as [-> _]. subst.
    unfold valid_trust_domain, valid_spiffe_path in *. peel Hd. bool_facts.
    unfold canonical_spiffe. rewrite (concat_split "."), (concat_split "/").
    rewrite <- !forallb_spec. split_and!; try done; try apply split_nonempty; lia.
  - intros (-> & labels & segments & H).
    destruct (canonical_spiffe_text _ _ _ H) as [-> ->].
    destruct H as (Hv & Hl & Hs & HL & HS & Hd & Hlen).
    replace (is_empty v) with false by (by rewrite Hv).
    replace (len v >? _) with false by lia. cbn [orb negb].
    rewrite (proj2 (strip_prefix_spec _ _ _) Hv). cbn [ok_or].
    rewrite (proj2 (split_once_spec "/" _ _ _) (conj eq_refl (labels_without_slash _ HL))).
    cbn [ok_or]. by rewrite trust_domain_of_labels, path_of_segments.
Qed.

End Identity.
