(* ===== verification/Schedule.v ===== *)
(** * Schedules and occurrences (crates/state/src/scheduler.rs, timezone.rs)

    The three kinds of schedule, their next occurrence, the coalescing of
    overdue occurrences into one window, the proof that a cron schedule keeps
    the minimum cadence, and the stored form of a schedule.  The cron parser
    (croner), the time-zone database (jiff) and the calendar (chrono) are the
    operations of a class; what the code relies on of them is a second class
    of laws. *)

From stdpp Require Import base tactics list strings numbers pretty.
From Stdlib Require Import ZArith Lia Ascii.
From S2P Require Import Prelude.

Module Schedule.

Definition MAX_CRON_HORIZON_SECONDS : Z := 366 * 24 * 60 * 60 * 10.
Definition GREGORIAN_CYCLE_START : Z := 946684800.
Definition GREGORIAN_CYCLE_END : Z := 13569465600.
Definition REQUIRED_TZDB_VERSION : string := "2026c".

Inductive StateValueError :=
| Empty (field : string)
| TooLarge (field : string)
| InvalidJson (field : string)
| NonCanonicalJson (field : string)
| ForbiddenDurableData (field : string)
| InvalidSha256 (field : string)
| InvalidValue (field : string)
| InvalidVersion
| OnceNotFuture
| InvalidInterval
| CadenceTooShort
| CadenceProofExhausted
| CadenceProofUnavailable
| InvalidCronFieldCount
| InvalidCron
| InvalidTimezone.

#[export] Instance state_value_error_eq_dec : EqDecision StateValueError.
Proof. solve_decision. Defined.

Inductive OccurrenceError :=
| NoFutureOccurrence
| ArithmeticOverflow
| SearchExhausted.

#[export] Instance occurrence_error_eq_dec : EqDecision OccurrenceError.
Proof. solve_decision. Defined.

Record OccurrenceWindow := mkWindow {
  scheduled_for : Z;
  coalesced_through : Z;
  skipped_count : Z;
  skipped_count_saturated : bool;
  next_run_at : option Z
}.

#[export] Instance window_eq_dec : EqDecision OccurrenceWindow.
Proof. solve_decision. Defined.

Inductive ScheduleSpec :=
| Once (at_ : Z)
| FixedInterval (anchor every_seconds : Z)
| Cron (expression timezone : string).

#[export] Instance schedule_spec_eq_dec : EqDecision ScheduleSpec.
Proof. solve_decision. Defined.

(** ** External calendar *)

Class Calendar := {
  (* croner *)
  cron_expr : Type;
  cron_parse : string -> option cron_expr;
  (* jiff's bundled time-zone database *)
  zone : Type;
  tzdb_version : option string;
  zone_get : string -> option zone;
  zone_iana_name : zone -> option string;
  zone_following : zone -> Z -> nat -> option Z;
  timestamp_ok : Z -> bool;
  (* chrono *)
  datetime_ok : Z -> bool;
  (* occurrences of an expression in a zone, in Unix seconds; the flag asks
     for the reference itself to count *)
  find_next_occurrence : cron_expr -> zone -> Z -> bool -> option Z;
  find_previous_occurrence : cron_expr -> zone -> Z -> bool -> option Z
}.

(** [BundledTimeZone::parse]: only the pinned database release is trusted. *)
Definition bundled_time_zone_parse `{Calendar} (name : string) : option zone :=
  if negb (bool_decide (tzdb_version = Some REQUIRED_TZDB_VERSION)) then None
  else zone_get name.

(** [BundledTimeZone::transition_timestamps]: the transitions before [end_],
    refused when there are more than [limit] of them.  Every round consumes
    one unit of [room], the remaining capacity. *)
Fixpoint transition_timestamps_from `{Calendar} (z : zone) (start end_ : Z)
    (room i : nat) : option (list Z) :=
  match zone_following z start i with
  | None => Some []
  | Some timestamp =>
      if timestamp >=? end_ then Some []
      else match room with
      | O => None
      | S room' =>
          match transition_timestamps_from z start end_ room' (S i) with
          | Some rest => Some (timestamp :: rest)
          | None => None
          end
      end
  end.

Definition transition_timestamps `{Calendar} (z : zone) (start end_ limit : Z) :
    option (list Z) :=
  if negb (timestamp_ok start) then None
  else transition_timestamps_from z start end_ (Z.to_nat limit) 0.

(** ** White-space separated fields *)

(** [str::split_whitespace]: cut at every white-space character, whose
    remaining [skip] bytes are dropped, and keep the non-empty pieces. *)
Fixpoint split_at_white (skip : nat) (s : string) : list string :=
  match s with
  | EmptyString => [EmptyString]
  | String b rest =>
      match skip with
      | S skip' => split_at_white skip' rest
      | O =>
          match white_space_prefix (to_bytes s) with
          | Some n => EmptyString :: split_at_white (pred n) rest
          | None =>
              match split_at_white O rest with
              | seg :: segs => String b seg :: segs
              | [] => [String b EmptyString]
              end
          end
      end
  end.

Definition split_whitespace (s : string) : list string :=
  List.filter (fun w => negb (is_empty w)) (split_at_white O s).

(** [str::parse::<u8>]: an optional plus sign and decimal digits up to 255. *)
Fixpoint parse_digits (acc : Z) (s : string) : option Z :=
  match s with
  | EmptyString => Some acc
  | String b rest =>
      if is_ascii_digit b then
        let acc' := acc * 10 + (Z.of_N (N_of_ascii b) - 48) in
        if acc' <=? 255 then parse_digits acc' rest else None
      else None
  end.

Definition parse_u8 (s : string) : option Z :=
  let digits := match s with String "+" rest => rest | _ => s end in
  match digits with EmptyString => None | _ => parse_digits 0 digits end.

Definition is_fixed (bound : Z) (field : string) : bool :=
  match parse_u8 field with Some v => v <? bound | None => false end.

(** ** Construction *)

Definition once (at_ : Z) : ScheduleSpec := Once at_.

Definition fixed_interval (anchor every_seconds : Z) : result StateValueError ScheduleSpec :=
  if every_seconds <=? 0 then Err InvalidInterval
  else Ok (FixedInterval anchor every_seconds).

Definition cron `{Calendar} (expression timezone : string) :
    result StateValueError ScheduleSpec :=
  let canonical := String.concat " " (split_whitespace expression) in
  bail? negb (Nat.eqb (length (split_whitespace canonical)) 5) with InvalidCronFieldCount in
  let? _ := ok_or (cron_parse canonical) InvalidCron in
  let? z := ok_or (bundled_time_zone_parse timezone) InvalidTimezone in
  Ok (Cron canonical
        (match zone_iana_name z with Some name => name | None => timezone end)).

Definition validate_for_create (s : ScheduleSpec) (now : Z) : result StateValueError unit :=
  match s with
  | Once at_ => if at_ <=? now then Err OnceNotFuture else Ok tt
  | _ => Ok tt
  end.

(** ** Occurrences *)

Definition next_fixed_interval (anchor every_seconds reference : Z) :
    result OccurrenceError Z :=
  if reference <? anchor then Ok anchor
  else
    let? elapsed := ok_or (i64_checked_sub reference anchor) ArithmeticOverflow in
    let? steps := ok_or (match i64_checked_div elapsed every_seconds with
                         | Some steps => i64_checked_add steps 1
                         | None => None
                         end) ArithmeticOverflow in
    let? offset := ok_or (i64_checked_mul steps every_seconds) ArithmeticOverflow in
    ok_or (i64_checked_add anchor offset) ArithmeticOverflow.

Definition coalesce_fixed_interval (due now every_seconds : Z) :
    result OccurrenceError OccurrenceWindow :=
  let? elapsed := ok_or (i64_checked_sub now due) ArithmeticOverflow in
  let? skipped := ok_or (i64_checked_div elapsed every_seconds) ArithmeticOverflow in
  let? offset := ok_or (i64_checked_mul skipped every_seconds) ArithmeticOverflow in
  let? through := ok_or (i64_checked_add due offset) ArithmeticOverflow in
  let? next := ok_or (i64_checked_add through every_seconds) ArithmeticOverflow in
  Ok {| scheduled_for := due;
        coalesced_through := through;
        skipped_count := if in_u32 skipped then skipped else u32_max;
        skipped_count_saturated := skipped >? u32_max;
        next_run_at := Some next |}.

Definition next_cron `{Calendar} (expression timezone : string) (reference : Z) :
    result OccurrenceError Z :=
  let? horizon_end :=
    ok_or (i64_checked_add reference MAX_CRON_HORIZON_SECONDS) ArithmeticOverflow in
  bail? negb (timestamp_ok reference) || negb (timestamp_ok horizon_end)
    with ArithmeticOverflow in
  let? c := ok_or (cron_parse expression) NoFutureOccurrence in
  let? z := ok_or (bundled_time_zone_parse timezone) NoFutureOccurrence in
  bail? negb (datetime_ok reference) with ArithmeticOverflow in
  let? timestamp := ok_or (find_next_occurrence c z reference false) NoFutureOccurrence in
  bail? (timestamp <=? reference)
        || match i64_checked_sub timestamp reference with
           | None => true
           | Some distance => distance >? MAX_CRON_HORIZON_SECONDS
           end
    with SearchExhausted in
  Ok timestamp.

Definition next_after `{Calendar} (s : ScheduleSpec) (reference : Z) :
    result OccurrenceError Z :=
  match s with
  | Once at_ => if at_ >? reference then Ok at_ else Err NoFutureOccurrence
  | FixedInterval anchor every_seconds => next_fixed_interval anchor every_seconds reference
  | Cron expression timezone => next_cron expression timezone reference
  end.

Definition first_after_create `{Calendar} (s : ScheduleSpec) (now : Z) :
    result OccurrenceError Z :=
  match s with
  | Once at_ => Ok at_
  | FixedInterval anchor _ => if anchor >? now then Ok anchor else next_after s now
  | Cron _ _ => next_after s now
  end.

(** The stepping loop [for _ in 0..max_steps] of [coalesce]. *)
Fixpoint coalesce_loop `{Calendar} (s : ScheduleSpec) (due now : Z) (steps : nat)
    (current skipped : Z) : result OccurrenceError OccurrenceWindow :=
  match steps with
  | O => Err SearchExhausted
  | S steps' =>
      match next_after s current with
      | Err NoFutureOccurrence => Ok (mkWindow due current skipped false None)
      | Err error => Err error
      | Ok next =>
          if next >? now then Ok (mkWindow due current skipped false (Some next))
          else coalesce_loop s due now steps' next (u32_saturating_add skipped 1)
      end
  end.

Definition coalesce `{Calendar} (s : ScheduleSpec) (due now max_steps : Z) :
    result OccurrenceError OccurrenceWindow :=
  if due >? now then Ok (mkWindow due due 0 false (Some due))
  else match s with
  | Once _ => Ok (mkWindow due due 0 false None)
  | FixedInterval _ every_seconds => coalesce_fixed_interval due now every_seconds
  | Cron _ _ => coalesce_loop s due now (Z.to_nat max_steps) due 0
  end.

(** ** The minimum cadence *)

Definition CYCLE : Z := GREGORIAN_CYCLE_END - GREGORIAN_CYCLE_START.

(** The checkpoints of a fixed daily expression: around every zone transition
    of one Gregorian cycle the surrounding occurrences keep their distance. *)
Fixpoint checkpoints_keep `{Calendar} (c : cron_expr) (z : zone) (minimum : Z)
    (checkpoints : list Z) : result StateValueError bool :=
  match checkpoints with
  | [] => Ok true
  | checkpoint :: rest =>
      bail? negb (datetime_ok checkpoint) with CadenceProofUnavailable in
      let? previous :=
        ok_or (find_previous_occurrence c z checkpoint false) CadenceProofUnavailable in
      let? next := ok_or (find_next_occurrence c z checkpoint true) CadenceProofUnavailable in
      if match i64_checked_sub next previous with
         | None => true
         | Some gap => gap <? minimum
         end
      then Ok false else checkpoints_keep c z minimum rest
  end.

Definition daily_keeps `{Calendar} (c : cron_expr) (z : zone) (minimum proof_limit : Z) :
    result StateValueError bool :=
  let? transitions :=
    ok_or (transition_timestamps z GREGORIAN_CYCLE_START GREGORIAN_CYCLE_END proof_limit)
      CadenceProofExhausted in
  let? kept := checkpoints_keep c z minimum
    (GREGORIAN_CYCLE_START :: transitions ++ [GREGORIAN_CYCLE_END - 1]) in
  if negb kept then Ok false
  else
    bail? negb (datetime_ok (GREGORIAN_CYCLE_START - 1)) with CadenceProofUnavailable in
    bail? negb (datetime_ok GREGORIAN_CYCLE_END) with CadenceProofUnavailable in
    let? first := ok_or (find_next_occurrence c z (GREGORIAN_CYCLE_START - 1) false)
      CadenceProofUnavailable in
    let? last := ok_or (find_previous_occurrence c z GREGORIAN_CYCLE_END false)
      CadenceProofUnavailable in
    Ok (first + CYCLE - last >=? minimum).

(** The enumeration of one cycle.  It ends with [Ok None] for the early
    [return Ok(false)] and with [Ok (Some (first, last))] at the [break].  An
    iteration either leaves the loop or counts one more occurrence, and more
    than [proof_limit] of them leave it too, so [proof_limit + 1] iterations
    are enough; running out of fuel is reported as the same exhaustion. *)
Fixpoint cadence_loop `{Calendar} (c : cron_expr) (z : zone) (minimum proof_limit : Z)
    (fuel : nat) (previous first : option Z) (reference occurrences : Z) :
    result StateValueError (option (option Z * option Z)) :=
  match fuel with
  | O => Err CadenceProofExhausted
  | S fuel' =>
      bail? negb (datetime_ok reference) with CadenceProofUnavailable in
      let? occurrence :=
        ok_or (find_next_occurrence c z reference false) CadenceProofUnavailable in
      bail? occurrence <=? reference with CadenceProofUnavailable in
      if occurrence >=? GREGORIAN_CYCLE_END then Ok (Some (first, previous))
      else
        let? occurrences' := ok_or (fits in_u32 (occurrences + 1)) CadenceProofExhausted in
        bail? occurrences' >? proof_limit with CadenceProofExhausted in
        let first' := Some (match first with Some f => f | None => occurrence end) in
        if match previous with
           | Some prior => occurrence - prior <? minimum
           | None => false
           end
        then Ok None
        else cadence_loop c z minimum proof_limit fuel' (Some occurrence) first'
               occurrence occurrences'
  end.

Definition cycle_keeps `{Calendar} (c : cron_expr) (z : zone) (minimum proof_limit : Z) :
    result StateValueError bool :=
  let? broke := cadence_loop c z minimum proof_limit (S (Z.to_nat proof_limit))
    None None (GREGORIAN_CYCLE_START - 1) 0 in
  match broke with
  | None => Ok false
  | Some (Some first, Some last) => Ok (first + CYCLE - last >=? minimum)
  | Some _ => Err CadenceProofUnavailable
  end.

Definition prove_cron_minimum_cadence `{Calendar} (expression timezone : string)
    (minimum proof_limit : Z) : result StateValueError bool :=
  if minimum <=? 60 then Ok true
  else match split_whitespace expression with
  | [f0; f1; f2; f3; f4] =>
      let fixed_minute := is_fixed 60 f0 in
      let fixed_hour := is_fixed 24 f1 in
      let every_day := bool_decide ([f2; f3; f4] = ["*"; "*"; "*"]) in
      let utc := String.eqb timezone "UTC" in
      if utc && fixed_minute && String.eqb f1 "*" && every_day then Ok (minimum <=? 3600)
      else if utc && fixed_minute && fixed_hour && every_day then Ok (minimum <=? 86400)
      else
        let fixed_daily := fixed_minute && fixed_hour && every_day in
        if negb utc && negb fixed_daily then Err CadenceProofUnavailable
        else
          let? c := ok_or (cron_parse expression) InvalidCron in
          let? z := ok_or (bundled_time_zone_parse timezone) CadenceProofUnavailable in
          if fixed_daily then daily_keeps c z minimum proof_limit
          else cycle_keeps c z minimum proof_limit
  | _ => Err InvalidCron
  end.

Definition validate_minimum_cadence `{Calendar} (s : ScheduleSpec)
    (now minimum_seconds proof_limit : Z) : result StateValueError unit :=
  let? valid :=
    match s with
    | Once at_ => Ok (match i64_checked_sub at_ now with
                      | Some delay => delay >=? minimum_seconds
                      | None => false
                      end)
    | FixedInterval _ every_seconds => Ok (every_seconds >=? minimum_seconds)
    | Cron expression timezone =>
        prove_cron_minimum_cadence expression timezone minimum_seconds proof_limit
    end in
  if negb valid then Err CadenceTooShort else Ok tt.

(** ** The stored form *)

(** [ScheduleStorageParts]: kind, canonical spec, time zone, once instant,
    anchor and interval columns. *)
Record StorageParts := mkParts {
  part_kind : string;
  part_spec : string;
  part_timezone : option string;
  part_once_at : option Z;
  part_anchor_at : option Z;
  part_interval_seconds : option Z
}.

Definition storage_parts (s : ScheduleSpec) : StorageParts :=
  match s with
  | Once at_ => mkParts "once" (pretty at_) None (Some at_) None None
  | FixedInterval anchor every_seconds =>
      mkParts "fixed_interval" (pretty every_seconds) None None (Some anchor)
        (Some every_seconds)
  | Cron expression timezone => mkParts "cron" expression (Some timezone) None None None
  end.

(** [StateError::InvalidSchedulerState { reason: "invalid persisted schedule" }]
    is the only error. *)
Inductive StorageError := InvalidPersistedSchedule.

Definition from_storage `{Calendar} (p : StorageParts) : result StorageError ScheduleSpec :=
  ok_or
    (if String.eqb (part_kind p) "once" then
       match part_once_at p with Some at_ => Some (once at_) | None => None end
     else if String.eqb (part_kind p) "fixed_interval" then
       match part_anchor_at p, part_interval_seconds p with
       | Some anchor, Some every_seconds => ok (fixed_interval anchor every_seconds)
       | _, _ => None
       end
     else if String.eqb (part_kind p) "cron" then
       match part_timezone p with
       | Some timezone => ok (cron (part_spec p) timezone)
       | None => None
       end
     else None)
    InvalidPersistedSchedule.

(** ** Lemmas: fields *)

(** No white-space character starts anywhere in the word. *)
Fixpoint solid (s : string) : Prop :=
  match s with
  | EmptyString => True
  | String _ rest => white_space_prefix (to_bytes s) = None /\ solid rest
  end.

Lemma white_space_prefix_mono l r :
  white_space_prefix (l ++ r) = None -> white_space_prefix l = None.
Proof.
  destruct l as [|b [|c [|d l]]]; cbn; try done; repeat case_match; try done.
Qed.

Lemma white_space_prefix_blank b l r :
  white_space_prefix (b :: l) = None -> white_space_prefix (b :: l ++ 32%N :: r) = None.
Proof.
  intros H. destruct l as [|c [|d l]]; cbn in *; repeat case_match; try done;
    exfalso; bool_cases; lia.
Qed.

Lemma split_at_white_nonempty k s : split_at_white k s <> [].
Proof. revert k. induction s as [|b s IH]; intros [|k]; cbn; try done; by repeat case_match. Qed.

Lemma split_at_white_head s seg segs :
  split_at_white O s = seg :: segs -> exists r, s = seg +:+ r.
Proof.
  revert seg segs. induction s as [|b s IH]; intros seg segs; cbn.
  { intros. simplify_eq. by exists "". }
  case_match; [intros; simplify_eq; by eexists|].
  destruct (split_at_white 0 s) as [|seg' segs'] eqn:E; intros; simplify_eq.
  - by exists s.
  - destruct (IH _ _ eq_refl) as [r ->]. by exists r.
Qed.

Lemma split_at_white_solid k s : Forall solid (split_at_white k s).
Proof.
  revert k. induction s as [|b s IH]; intros k; [by repeat constructor|].
  destruct k as [|k]; cbn [split_at_white]; [|apply IH].
  destruct (white_space_prefix (to_bytes (String b s))) eqn:Hw; [by constructor|].
  specialize (IH O). destruct (split_at_white 0 s) as [|seg segs] eqn:E.
  { by apply split_at_white_nonempty in E. }
  apply Forall_cons_1 in IH as [Hs Hss]. constructor; [|done]. split; [|done].
  apply split_at_white_head in E as [r ->]. cbn [to_bytes] in *.
  rewrite to_bytes_app in Hw. by eapply (white_space_prefix_mono (_ :: _)).
Qed.

Lemma split_at_white_word w : solid w -> split_at_white O w = [w].
Proof.
  induction w as [|b w IH]; [done|]. intros [Hw Hs].
  cbn [split_at_white]. by rewrite Hw, IH.
Qed.

Lemma split_at_white_cons w t :
  solid w -> split_at_white O (w +:+ String " " t) = w :: split_at_white O t.
Proof.
  induction w as [|b w IH]; [done|]. intros [Hw Hs]. cbn [String.append split_at_white].
  replace (white_space_prefix _) with (@None nat); [by rewrite IH|].
  symmetry. cbn [to_bytes] in *. rewrite to_bytes_app.
  by apply (white_space_prefix_blank (N_of_ascii b)).
Qed.

Lemma split_at_white_concat ws :
  ws <> [] -> Forall solid ws -> split_at_white O (String.concat " " ws) = ws.
Proof.
  induction ws as [|w ws IH]; [done|]. intros _ [Hw Hws]%Forall_cons_1.
  destruct ws as [|w' ws]; [by apply split_at_white_word|].
  rewrite concat_cons. cbn [String.append]. rewrite split_at_white_cons by done.
  by rewrite IH.
Qed.

(** Re-reading the joined fields gives the fields back. *)
Lemma split_whitespace_concat s :
  split_whitespace (String.concat " " (split_whitespace s)) = split_whitespace s.
Proof.
  set (ws := split_whitespace s).
  assert (Forall (fun w => solid w /\ negb (is_empty w) = true) ws) as Hws.
  { apply Forall_forall. intros w Hw. apply list_elem_of_In, List.filter_In in Hw as [Hw Hne].
    split; [|done]. apply list_elem_of_In in Hw.
    by apply (proj1 (Forall_forall _ _) (split_at_white_solid O s)). }
  clearbody ws. destruct (decide (ws = [])) as [->|Hne]; [done|].
  unfold split_whitespace. rewrite split_at_white_concat; [|done|].
  - clear Hne. induction Hws as [|w ws [_ Hw] _ IH]; [done|]. cbn. by rewrite Hw, IH.
  - eapply Forall_weaken; [done|]. by intros w [??].
Qed.

(** ** Lemmas: fixed intervals *)

(** The first point of the grid [anchor + k * every], [k >= 0], after
    [reference]. *)
Definition least_after (anchor every reference n : Z) : Prop :=
  reference < n
  /\ (exists k, 0 <= k /\ n = anchor + k * every)
  /\ forall k, 0 <= k -> reference < anchor + k * every -> n <= anchor + k * every.

Lemma grid_successor anchor every reference :
  0 < every -> anchor <= reference ->
  least_after anchor every reference
    (anchor + ((reference - anchor) / every + 1) * every).
Proof.
  intros He Hr.
  pose proof (Z.div_pos (reference - anchor) every).
  pose proof (Z.div_mod (reference - anchor) every).
  pose proof (Z.mod_pos_bound (reference - anchor) every).
  set (q := (reference - anchor) / every) in *.
  split_and!; [nia | exists (q + 1); lia |].
  intros k Hk Hlt. assert (q < k) by nia. nia.
Qed.

Lemma next_fixed_interval_steps anchor every reference :
  0 < every -> anchor <= reference -> reference - anchor <= i64_max ->
  next_fixed_interval anchor every reference =
  (let? offset := ok_or (i64_checked_mul ((reference - anchor) / every + 1) every)
                    ArithmeticOverflow in
   ok_or (i64_checked_add anchor offset) ArithmeticOverflow)
  \/ (next_fixed_interval anchor every reference = Err ArithmeticOverflow
      /\ i64_max < ((reference - anchor) / every + 1) * every).
Proof.
  intros He Hr Hd. unfold next_fixed_interval.
  replace (reference <? anchor) with false by lia.
  pose proof (Z.div_pos (reference - anchor) every ltac:(lia) He) as Hq.
  assert ((reference - anchor) / every <= reference - anchor) as Hle
    by (apply Z.div_le_upper_bound; nia).
  unfold i64_checked_sub, i64_checked_div, i64_checked_add, fits.
  replace (in_i64 (reference - anchor)) with true
    by (symmetry; apply in_i64_spec; unfold i64_min; lia).
  cbn [ok_or]. replace (every =? 0) with false by lia.
  rewrite Z.quot_div_nonneg by lia.
  replace (in_i64 ((reference - anchor) / every)) with true
    by (symmetry; apply in_i64_spec; unfold i64_min in *; lia).
  destruct (in_i64 ((reference - anchor) / every + 1)) eqn:E; [by left|].
  right. split; [done|].
  assert (~ (i64_min <= (reference - anchor) / every + 1 <= i64_max))
    by (by rewrite <- in_i64_spec, E). unfold i64_min in *. nia.
Qed.

(** Inside the representable range the successor of a grid point is one
    interval later. *)
Lemma next_on_grid anchor every current :
  0 < every -> in_i64 anchor = true -> anchor <= current ->
  (every | current - anchor) ->
  current + every - anchor <= i64_max -> current + every <= i64_max ->
  next_fixed_interval anchor every current = Ok (current + every).
Proof.
  intros He Ha Hle [k Hk] Hfit1 Hfit2.
  assert (((current - anchor) / every + 1) * every = current + every - anchor) as Hq.
  { rewrite Hk, Z.div_mul by lia. lia. }
  apply in_i64_spec in Ha.
  destruct (next_fixed_interval_steps anchor every current) as [->|[_ ?]]; try lia.
  unfold i64_checked_mul, i64_checked_add, fits. rewrite Hq.
  replace (in_i64 (current + every - anchor)) with true
    by (symmetry; apply in_i64_spec; unfold i64_min in *; lia).
  cbn [ok_or]. replace (anchor + (current + every - anchor)) with (current + every) by lia.
  replace (in_i64 (current + every)) with true; [done|].
  symmetry; apply in_i64_spec; unfold i64_min in *; lia.
Qed.

(** The closed form, once its checks have passed. *)
Lemma next_fixed_interval_overflow anchor every reference e :
  next_fixed_interval anchor every reference = Err e -> e = ArithmeticOverflow.
Proof.
  unfold next_fixed_interval, ok_or. intros Hn.
  by repeat (split_match_in Hn; simplify_eq).
Qed.

(** A next occurrence that was found from a grid point fits in both forms. *)
Lemma next_on_grid_fits anchor every current n :
  0 < every -> anchor <= current -> (every | current - anchor) ->
  next_fixed_interval anchor every current = Ok n ->
  n = current + every /\ n - anchor <= i64_max /\ n <= i64_max.
Proof.
  intros He Hle [k Hk] Hn. unfold next_fixed_interval in Hn.
  replace (current <? anchor) with false in Hn by lia. peel Hn. ok_facts.
  unfold i64_checked_div in *. repeat case_match; simplify_eq. widths.
  rewrite Z.quot_div_nonneg in * by lia.
  assert ((current - anchor) / every * every = current - anchor) as Hq
    by (by rewrite Hk, Z.div_mul by lia).
  lia.
Qed.

Lemma coalesce_fixed_interval_ok due now every w :
  0 < every -> due <= now ->
  coalesce_fixed_interval due now every = Ok w ->
  let skipped := (now - due) / every in
  w = mkWindow due (due + skipped * every)
        (if in_u32 skipped then skipped else u32_max) (skipped >? u32_max)
        (Some (due + skipped * every + every))
  /\ due + skipped * every + every <= i64_max.
Proof.
  intros He Hle H skipped. unfold coalesce_fixed_interval in H.
  peel H. ok_facts. unfold i64_checked_div in *. peel Heqr0. widths.
  subst skipped. rewrite Z.quot_div_nonneg in * by lia. split; [done | lia].
Qed.

Lemma coalesce_fixed_interval_fits due now every :
  0 < every -> due <= now -> i64_min <= due ->
  let skipped := (now - due) / every in
  now - due <= i64_max -> due + skipped * every + every <= i64_max ->
  coalesce_fixed_interval due now every
  = Ok (mkWindow due (due + skipped * every)
        (if in_u32 skipped then skipped else u32_max) (skipped >? u32_max)
        (Some (due + skipped * every + every))).
Proof.
  intros He Hle Hdue skipped Hd Hf.
  pose proof (Z.div_pos (now - due) every ltac:(lia) He) as Hq.
  pose proof (Z.mul_div_le (now - due) every He).
  assert ((now - due) / every <= now - due) by (apply Z.div_le_upper_bound; nia).
  assert (forall z, i64_min <= z <= i64_max -> in_i64 z = true) as Hin
    by (intros; by apply in_i64_spec).
  fold skipped in Hq, H, H0. unfold i64_min in *.
  unfold coalesce_fixed_interval, i64_checked_sub, fits. rewrite Hin by lia. cbn [ok_or].
  unfold i64_checked_div, fits. replace (every =? 0) with false by lia.
  rewrite Z.quot_div_nonneg by lia. fold skipped. rewrite Hin by lia. cbn [ok_or].
  unfold i64_checked_mul, fits. rewrite Hin by nia. cbn [ok_or].
  unfold i64_checked_add, fits. rewrite Hin by nia. cbn [ok_or]. by rewrite Hin by nia.
Qed.

Lemma skipped_bounds due now every :
  0 < every -> due <= now ->
  0 <= (now - due) / every
  /\ due + (now - due) / every * every <= now
  /\ now < due + (now - due) / every * every + every.
Proof.
  intros He Hle. pose proof (Z.div_pos (now - due) every ltac:(lia) He).
  pose proof (Z.div_mod (now - due) every ltac:(lia)).
  pose proof (Z.mod_pos_bound (now - due) every He). nia.
Qed.

(** ** Lemmas: the stepping loop *)

Section Stepping.
Context `{Calendar}.

(** [n] successive occurrences after [t], each the [next_after] of the one
    before. *)
Fixpoint iterate_next (s : ScheduleSpec) (n : nat) (t : Z) : option Z :=
  match n with
  | O => Some t
  | S n' => match next_after s t with
            | Ok t' => iterate_next s n' t'
            | Err _ => None
            end
  end.

Lemma next_cron_after e tz r n : next_cron e tz r = Ok n -> r < n.
Proof. unfold next_cron. intros Hn. peel Hn; bool_facts; (done || lia). Qed.

Lemma coalesce_loop_sound s due now steps current skipped w :
  coalesce_loop s due now steps current skipped = Ok w ->
  current <= now -> 0 <= skipped -> skipped + Z.of_nat steps <= u32_max ->
  scheduled_for w = due /\ skipped_count_saturated w = false
  /\ skipped <= skipped_count w < skipped + Z.of_nat steps
  /\ iterate_next s (Z.to_nat (skipped_count w - skipped)) current
     = Some (coalesced_through w)
  /\ coalesced_through w <= now
  /\ match next_run_at w with
     | Some n => next_after s (coalesced_through w) = Ok n /\ now < n
     | None => next_after s (coalesced_through w) = Err NoFutureOccurrence
     end.
Proof.
  revert current skipped. induction steps as [|steps IH]; intros current skipped; [done|].
  cbn [coalesce_loop]. intros Hl Hc Hs Hb.
  destruct (next_after s current) as [n|[]] eqn:En; try done.
  - destruct (n >? now) eqn:Egt; simplify_eq; cbn.
    + rewrite Z.sub_diag. cbn. rewrite En. split_and!; (done || lia).
    + unfold u32_saturating_add in Hl. rewrite Z.min_r in Hl by lia.
      apply IH in Hl as (? & ? & ? & Hit & ? & ?); [|lia..].
      split_and!; try done; try lia.
      replace (Z.to_nat (skipped_count w - skipped))
        with (S (Z.to_nat (skipped_count w - (skipped + 1)))) by lia.
      cbn. by rewrite En.
  - simplify_eq. cbn. rewrite Z.sub_diag. cbn. rewrite En. split_and!; (done || lia).
Qed.

(** On the grid the loop walks interval by interval. *)
Lemma coalesce_loop_grid anchor every due now steps current skipped k :
  0 < every -> in_i64 anchor = true -> anchor <= current -> (every | current - anchor) ->
  current + Z.of_nat k * every <= now < current + Z.of_nat k * every + every ->
  current + Z.of_nat k * every + every - anchor <= i64_max ->
  current + Z.of_nat k * every + every <= i64_max ->
  (k < steps)%nat -> 0 <= skipped -> skipped + Z.of_nat k <= u32_max ->
  coalesce_loop (FixedInterval anchor every) due now steps current skipped
  = Ok (mkWindow due (current + Z.of_nat k * every) (skipped + Z.of_nat k) false
          (Some (current + Z.of_nat k * every + every))).
Proof.
  intros He Ha. revert steps current skipped.
  induction k as [|k IH]; intros [|steps] current skipped Hc Hg Hn Hf1 Hf2 Hk Hs Hu;
    try lia; cbn [coalesce_loop next_after];
    rewrite next_on_grid by (done || nia).
  - replace (current + every >? now) with true by lia.
    do 2 f_equal; [lia.. | do 2 f_equal; lia].
  - replace (current + every >? now) with false by nia.
    unfold u32_saturating_add. rewrite Z.min_r by lia.
    rewrite IH; try nia.
    + do 2 f_equal; [lia.. | do 2 f_equal; lia].
    + destruct Hg as [q Hq]. exists (q + 1). lia.
Qed.

(** A stepping loop that answers has walked the grid up to [now]. *)
Lemma coalesce_loop_walks anchor every due now steps current skipped w :
  0 < every -> anchor <= current -> (every | current - anchor) -> current <= now ->
  coalesce_loop (FixedInterval anchor every) due now steps current skipped = Ok w ->
  exists k, (k < steps)%nat
    /\ current + Z.of_nat k * every <= now < current + Z.of_nat k * every + every
    /\ current + Z.of_nat k * every + every - anchor <= i64_max
    /\ current + Z.of_nat k * every + every <= i64_max.
Proof.
  intros He. revert current skipped.
  induction steps as [|steps IH]; intros current skipped Hc Hg Hn Hw; [done|].
  cbn [coalesce_loop next_after] in Hw.
  destruct (next_fixed_interval anchor every current) as [n|e] eqn:En.
  - apply next_on_grid_fits in En as (-> & Hf1 & Hf2); [|done..].
    destruct (Z.gtb_spec (current + every) now).
    + exists 0%nat. lia.
    + destruct (IH (current + every) (u32_saturating_add skipped 1)) as (k & Hk & Hb & H1 & H2);
        [lia| |lia|done|].
      { destruct Hg as [q Hq]. exists (q + 1). lia. }
      exists (S k). lia.
  - apply next_fixed_interval_overflow in En as ->. done.
Qed.

End Stepping.

(** ** Lemmas: the cadence proof *)

(** What the enumeration relies on of croner: an exclusive search returns the
    least occurrence strictly after its reference. *)
Definition next_is_least `{Calendar} (c : cron_expr) (z : zone) (occ : Z -> Prop) : Prop :=
  forall r n, find_next_occurrence c z r false = Some n ->
    r < n /\ occ n /\ forall m, occ m -> r < m -> n <= m.

(** The Gregorian calendar repeats after four hundred years, to the second, in
    a zone without transitions. *)
Definition gregorian (occ : Z -> Prop) : Prop := forall m, occ m <-> occ (m + CYCLE).

(** Any two occurrences between [lo] and [hi] are at least [minimum] apart. *)
Definition spaced (occ : Z -> Prop) (minimum lo hi : Z) : Prop :=
  forall a b, occ a -> occ b -> lo <= a -> a < b -> b <= hi -> minimum <= b - a.

Section Cadence.
Context `{Calendar} (c : cron_expr) (z : zone) (occ : Z -> Prop).
Hypothesis Hnext : next_is_least c z occ.

(** What the loop knows after each counted occurrence. *)
Definition cadence_inv (minimum : Z) (previous first : option Z) (reference : Z) : Prop :=
  match previous, first with
  | None, None => reference = GREGORIAN_CYCLE_START - 1
  | Some p, Some f =>
      reference = p /\ occ p /\ occ f /\ GREGORIAN_CYCLE_START <= f <= p
      /\ (forall m, occ m -> GREGORIAN_CYCLE_START <= m -> f <= m)
      /\ spaced occ minimum GREGORIAN_CYCLE_START p
  | _, _ => False
  end.

Lemma cadence_inv_first minimum n :
  occ n -> GREGORIAN_CYCLE_START - 1 < n ->
  (forall m, occ m -> GREGORIAN_CYCLE_START - 1 < m -> n <= m) ->
  cadence_inv minimum (Some n) (Some n) n.
Proof.
  intros Hn Hlt Hleast. cbn. split_and!; try done; try lia.
  - intros m Hm ?. apply Hleast; [done | lia].
  - intros a b Ha _ Hlo Hab Hb. specialize (Hleast a Ha ltac:(lia)). lia.
Qed.

Lemma cadence_inv_step minimum p f n :
  cadence_inv minimum (Some p) (Some f) p ->
  occ n -> p < n -> (forall m, occ m -> p < m -> n <= m) -> minimum <= n - p ->
  cadence_inv minimum (Some n) (Some f) n.
Proof.
  cbn. intros (_ & Hp & Hf & Hr & Hfst & Hsp) Hn Hlt Hleast Hgap.
  split_and!; try done; try lia.
  intros a b Ha Hb Hlo Hab Hhi.
  destruct (Z.le_gt_cases b p); [by apply Hsp|].
  assert (b = n) as -> by (specialize (Hleast b Hb ltac:(lia)); lia).
  destruct (Z.le_gt_cases a p); [lia|].
  specialize (Hleast a Ha ltac:(lia)). lia.
Qed.

Lemma cadence_loop_sound minimum limit fuel previous first reference count f l :
  cadence_inv minimum previous first reference ->
  cadence_loop c z minimum limit fuel previous first reference count = Ok (Some (Some f, Some l)) ->
  cadence_inv minimum (Some l) (Some f) l
  /\ forall m, occ m -> l < m -> GREGORIAN_CYCLE_END <= m.
Proof.
  revert previous first reference count.
  induction fuel as [|fuel IH]; intros previous first reference count Hinv; [done|].
  cbn [cadence_loop]. intros Hl. peel Hl; ok_facts; apply Hnext in Heqr as (Hlt & Hocc & Hleast).
  - (* the search left the cycle *)
    assert (reference = l) as -> by (cbn in Hinv; tauto). split; [done|].
    intros m Hm Hgt. specialize (Hleast m Hm Hgt). lia.
  - (* one more occurrence, with one before it *)
    eapply IH; [|exact Hl]. assert (reference = z0) as -> by (cbn in Hinv; tauto).
    eapply cadence_inv_step; (done || lia).
  - (* the first occurrence *)
    eapply IH; [|exact Hl]. cbn in Hinv. subst. by apply cadence_inv_first.
Qed.

Lemma cycle_keeps_spaced minimum limit :
  cycle_keeps c z minimum limit = Ok true ->
  exists f l, cadence_inv minimum (Some l) (Some f) l
    /\ (forall m, occ m -> l < m -> GREGORIAN_CYCLE_END <= m)
    /\ minimum <= f + CYCLE - l.
Proof.
  unfold cycle_keeps. intros Hk. peel Hk.
  apply cadence_loop_sound in Heqr as [??]; [|done].
  eexists _, _. split_and!; [done.. | lia].
Qed.

End Cadence.

Lemma gregorian_shift occ k m : gregorian occ -> occ m <-> occ (m + k * CYCLE).
Proof.
  intros Hg. revert m.
  assert (forall n, 0 <= n -> forall m, occ m <-> occ (m + n * CYCLE)) as Hpos.
  { apply (natlike_ind (fun n => forall m, occ m <-> occ (m + n * CYCLE))).
    - intros m. by rewrite Z.mul_0_l, Z.add_0_r.
    - intros x _ IH m. rewrite (IH m), (Hg (m + x * CYCLE)).
      by replace (m + x * CYCLE + CYCLE) with (m + Z.succ x * CYCLE) by lia. }
  intros m. destruct (Z.le_gt_cases 0 k); [by apply Hpos|].
  rewrite (Hpos (- k) ltac:(lia) (m + k * CYCLE)).
  by replace (m + k * CYCLE + - k * CYCLE) with m by lia.
Qed.

Lemma spaced_everywhere occ minimum f l :
  gregorian occ ->
  cadence_inv occ minimum (Some l) (Some f) l ->
  (forall m, occ m -> l < m -> GREGORIAN_CYCLE_END <= m) ->
  minimum <= f + CYCLE - l ->
  forall a b, occ a -> occ b -> a < b -> minimum <= b - a.
Proof.
  intros Hg (_ & Hl & Hf & Hfl & Hfirst & Hsp) Hlast Hwrap a b Ha Hb Hab.
  assert (0 < CYCLE) as Hc by done.
  set (k := (a - GREGORIAN_CYCLE_START) / CYCLE).
  pose proof (Z.div_mod (a - GREGORIAN_CYCLE_START) CYCLE ltac:(lia)) as Hdiv.
  pose proof (Z.mod_pos_bound (a - GREGORIAN_CYCLE_START) CYCLE Hc) as Hmod. fold k in Hdiv.
  rewrite (gregorian_shift _ (- k) _ Hg) in Ha. rewrite (gregorian_shift _ (- k) _ Hg) in Hb.
  assert (GREGORIAN_CYCLE_START <= a + - k * CYCLE < GREGORIAN_CYCLE_END) as Hin
    by (unfold CYCLE in *; lia).
  destruct (Z.le_gt_cases (b + - k * CYCLE) l) as [|Hgt].
  - specialize (Hsp _ _ Ha Hb). lia.
  - pose proof (Hlast _ Hb ltac:(lia)) as Hend.
    assert (f <= b + - k * CYCLE - CYCLE) as Hfb.
    { apply Hfirst; [|unfold CYCLE in *; lia].
      rewrite (Hg _). by replace (b + - k * CYCLE - CYCLE + CYCLE) with (b + - k * CYCLE) by lia. }
    assert (a + - k * CYCLE <= l) as Hal.
    { destruct (Z.le_gt_cases (a + - k * CYCLE) l) as [|Hal]; [done|].
      specialize (Hlast _ Ha ltac:(lia)). lia. }
    lia.
Qed.

(** The loop leaves before its fuel is spent. *)
Lemma cadence_loop_fuel `{Calendar} c z minimum limit fuel1 fuel2 previous first reference count :
  (Z.to_nat (limit - count) < fuel1)%nat -> (Z.to_nat (limit - count) < fuel2)%nat ->
  cadence_loop c z minimum limit fuel1 previous first reference count
  = cadence_loop c z minimum limit fuel2 previous first reference count.
Proof.
  revert fuel2 previous first reference count.
  induction fuel1 as [|fuel1 IH]; intros [|fuel2] previous first reference count H1 H2;
    try lia.
  cbn [cadence_loop]. unfold fits.
  repeat (case_match; simplify_eq; try done); apply IH; cbn in *; simplify_eq; lia.
Qed.

(** ** A concrete calendar, for the witnesses

    One expression, one zone, an occurrence every ten Gregorian years. *)
Definition decade : Z := CYCLE / 40.

Definition decade_calendar : Calendar := {|
  cron_expr := unit;
  cron_parse := fun _ => Some tt;
  zone := unit;
  tzdb_version := Some REQUIRED_TZDB_VERSION;
  zone_get := fun name => if String.eqb name "UTC" then Some tt else None;
  zone_iana_name := fun _ => Some "UTC";
  zone_following := fun _ _ _ => None;
  timestamp_ok := fun _ => true;
  datetime_ok := fun _ => true;
  find_next_occurrence := fun _ _ r _ =>
    Some (GREGORIAN_CYCLE_START + ((r - GREGORIAN_CYCLE_START) / decade + 1) * decade);
  find_previous_occurrence := fun _ _ r _ =>
    Some (GREGORIAN_CYCLE_START + ((r - GREGORIAN_CYCLE_START - 1) / decade) * decade)
|}.

Definition decennial (m : Z) : Prop := (decade | m - GREGORIAN_CYCLE_START).

Lemma decade_next_is_least : @next_is_least decade_calendar tt tt decennial.
Proof.
  intros r n [= <-].
  pose proof (Z.div_mod (r - GREGORIAN_CYCLE_START) decade ltac:(done)).
  pose proof (Z.mod_pos_bound (r - GREGORIAN_CYCLE_START) decade ltac:(done)).
  set (q := (r - GREGORIAN_CYCLE_START) / decade) in *.
  assert (0 < decade) by done. split_and!; [nia | exists (q + 1); lia |].
  intros m [k Hk] Hlt. assert (q < k) by nia. nia.
Qed.

Lemma decennial_gregorian : gregorian decennial.
Proof.
  intros m. unfold decennial. change CYCLE with (40 * decade). split.
  - intros [k Hk]. exists (k + 40). lia.
  - intros [k Hk]. exists (k - 40). lia.
Qed.

(** ** Properties *)

(** The next occurrence of a fixed interval is the least point of the grid
    strictly after the reference; the only other outcome is the overflow
    error, and only when the exact computation leaves 64 bits. *)
Theorem next_fixed_interval_exact anchor every reference :
  in_i64 anchor = true -> in_i64 reference = true -> 0 < every ->
  (exists n, next_fixed_interval anchor every reference = Ok n
     /\ least_after anchor every reference n)
  \/ (next_fixed_interval anchor every reference = Err ArithmeticOverflow
      /\ anchor <= reference
      /\ (i64_max < reference - anchor
          \/ i64_max < ((reference - anchor) / every + 1) * every
          \/ i64_max < anchor + ((reference - anchor) / every + 1) * every)).
Proof.
  intros Ha Hr He. destruct (Z.lt_ge_cases reference anchor) as [Hlt|Hge].
  { left. exists anchor. unfold next_fixed_interval.
    replace (reference <? anchor) with true by lia.
    split; [done|]. split_and!; [lia | exists 0; lia | nia]. }
  destruct (Z.le_gt_cases (reference - anchor) i64_max) as [Hd|Hd].
  2: { right. split; [|lia]. unfold next_fixed_interval, i64_checked_sub, fits.
       replace (reference <? anchor) with false by lia.
       by replace (in_i64 (reference - anchor)) with false
         by (unfold in_i64, i64_max in *; lia). }
  destruct (next_fixed_interval_steps anchor every reference) as [->|[-> ?]];
    [done.. | | right; split_and!; auto].
  unfold i64_checked_mul, i64_checked_add, fits.
  pose proof (grid_successor anchor every reference He Hge) as Hgrid.
  pose proof (Z.div_pos (reference - anchor) every ltac:(lia) He) as Hq.
  set (q := (reference - anchor) / every) in *. apply in_i64_spec in Ha.
  destruct (in_i64 ((q + 1) * every)) eqn:E1; cbn [ok_or].
  2: { right. unfold in_i64, i64_min in E1, Ha. split_and!; [done.. |]. right; left. nia. }
  destruct (in_i64 (anchor + (q + 1) * every)) eqn:E2; cbn [ok_or]; [left; by eexists|].
  right. unfold in_i64, i64_min in E2, Ha. split_and!; [done.. |]. right; right. nia.
Qed.

Lemma next_fixed_interval_exact_witness :
  least_after 100 60 250 280.
Proof.
  destruct (next_fixed_interval_exact 100 60 250 eq_refl eq_refl ltac:(lia))
    as [(n & Hn & H) | [Hn _]]; [|discriminate].
  injection Hn as <-. exact H.
Defined.

(** C35. The closed form that coalesces a fixed interval computes what stepping one
    occurrence at a time computes: for every due time on the grid of the
    interval, the loop that is used for cron schedules returns a window exactly
    when the closed form returns the same one, fewer occurrences are skipped than
    the loop may take steps, and the next run is a 64-bit distance away from the
    anchor.  The closed form needs neither bound. *)
Theorem coalesce_fixed_is_stepping `{Calendar} anchor every due now max_steps w :
  0 < every -> in_i64 anchor = true -> anchor <= due -> (every | due - anchor) ->
  due <= now -> 0 <= max_steps <= u32_max ->
  coalesce_loop (FixedInterval anchor every) due now (Z.to_nat max_steps) due 0 = Ok w <->
  coalesce (FixedInterval anchor every) due now max_steps = Ok w
  /\ (now - due) / every < max_steps
  /\ (forall n, next_run_at w = Some n -> n - anchor <= i64_max).
Proof.
  intros He Ha Hd Hg Hn Hmax. unfold coalesce. replace (due >? now) with false by lia.
  destruct (skipped_bounds due now every He Hn) as (Hq & Hlo & Hhi).
  set (q := (now - due) / every) in *. split.
  - intros Hw. destruct (coalesce_loop_walks _ _ _ _ _ _ _ _ He Hd Hg Hn Hw)
      as (k & Hk & Hb & Hf1 & Hf2).
    assert (q = Z.of_nat k) as Hqk by nia.
    rewrite (coalesce_loop_grid _ _ _ _ _ _ _ k) in Hw by (done || lia).
    injection Hw as <-. pose proof (proj1 (in_i64_spec _) Ha).
    rewrite (coalesce_fixed_interval_fits due now every) by (done || fold q; lia).
    fold q. rewrite Hqk. replace (in_u32 (Z.of_nat k)) with true by (symmetry; apply in_u32_spec; lia).
    replace (Z.of_nat k >? u32_max) with false by lia.
    split_and!; [done|lia|]. intros n [= <-]. lia.
  - intros (Hc & Hsteps & Hfit).
    apply coalesce_fixed_interval_ok in Hc as [-> Hnext]; [|done..]. fold q in Hnext, Hfit.
    specialize (Hfit _ eq_refl). cbn in Hfit.
    rewrite (coalesce_loop_grid _ _ _ _ _ _ _ (Z.to_nat q)); try (done || lia);
      rewrite Z2Nat.id by done; try lia. fold q.
    replace (in_u32 q) with true by (symmetry; apply in_u32_spec; lia).
    by replace (q >? u32_max) with false by lia.
Qed.

Lemma coalesce_fixed_is_stepping_witness :
  @coalesce_loop decade_calendar (FixedInterval 100 60) 160 1000 (Z.to_nat 20) 160 0
  = Ok (mkWindow 160 1000 14 false (Some 1060)).
Proof.
  apply (@coalesce_fixed_is_stepping decade_calendar 100 60 160 1000 20 _ ltac:(lia) eq_refl
    ltac:(lia) ltac:(by exists 1) ltac:(lia) ltac:(unfold u32_max; lia)).
  split_and!; [reflexivity|reflexivity|]. intros n [= <-]. vm_compute. discriminate.
Defined.

(** Coalescing an overdue cron job loses nothing: the window starts at the
    due time, the occurrences counted as skipped are exactly the successive
    ones up to the last at or before now, and the next run is the occurrence
    right after it - or there is none. *)
Theorem coalesce_cron_complete `{Calendar} expression timezone due now max_steps w :
  due <= now -> 0 <= max_steps <= u32_max ->
  coalesce (Cron expression timezone) due now max_steps = Ok w ->
  scheduled_for w = due /\ skipped_count_saturated w = false
  /\ 0 <= skipped_count w < max_steps
  /\ iterate_next (Cron expression timezone) (Z.to_nat (skipped_count w)) due
     = Some (coalesced_through w)
  /\ coalesced_through w <= now
  /\ match next_run_at w with
     | Some n => next_cron expression timezone (coalesced_through w) = Ok n /\ now < n
     | None => next_cron expression timezone (coalesced_through w) = Err NoFutureOccurrence
     end.
Proof.
  intros Hd Hm Hc. unfold coalesce in Hc. replace (due >? now) with false in Hc by lia.
  apply coalesce_loop_sound in Hc as (? & ? & ? & Hit & ? & ?); [|lia..].
  rewrite Z.sub_0_r in Hit. split_and!; (done || lia).
Qed.

Lemma coalesce_cron_complete_witness :
  @iterate_next decade_calendar (Cron "*/7 * * * *" "UTC") 2 GREGORIAN_CYCLE_START
  = Some (GREGORIAN_CYCLE_START + 2 * decade).
Proof.
  destruct (@coalesce_cron_complete decade_calendar "*/7 * * * *" "UTC"
              GREGORIAN_CYCLE_START (GREGORIAN_CYCLE_START + 2 * decade) 10
              (mkWindow GREGORIAN_CYCLE_START (GREGORIAN_CYCLE_START + 2 * decade) 2 false
                 (Some (GREGORIAN_CYCLE_START + 3 * decade))))
    as (_ & _ & _ & H & _); [vm_compute; discriminate | vm_compute; split; discriminate
    | vm_compute; reflexivity | exact H].
Defined.

(** The cadence proof is sound on the whole timeline: when the enumeration of
    one Gregorian cycle accepts a UTC expression whose minute field is not a
    plain number, no two occurrences ever are closer than the minimum. *)
Theorem cron_cadence_sound `{Calendar} expression f0 f1 f2 f3 f4 minimum limit c z occ :
  split_whitespace expression = [f0; f1; f2; f3; f4] -> is_fixed 60 f0 = false ->
  60 < minimum ->
  cron_parse expression = Some c -> bundled_time_zone_parse "UTC" = Some z ->
  next_is_least c z occ -> gregorian occ ->
  prove_cron_minimum_cadence expression "UTC" minimum limit = Ok true ->
  forall a b, occ a -> occ b -> a < b -> minimum <= b - a.
Proof.
  intros Hf Hm Hmin Hc Hz Hnext Hg Hk. unfold prove_cron_minimum_cadence in Hk.
  replace (minimum <=? 60) with false in Hk by lia.
  rewrite Hf, Hm in Hk. cbn in Hk. rewrite Hc, Hz in Hk. cbn in Hk.
  destruct (cycle_keeps_spaced c z occ Hnext minimum limit Hk) as (f & l & ? & ? & ?).
  by apply (spaced_everywhere occ minimum f l).
Qed.

Lemma cron_cadence_sound_witness :
  86400 <= (GREGORIAN_CYCLE_START + decade) - GREGORIAN_CYCLE_START.
Proof.
  apply (@cron_cadence_sound decade_calendar "*/7 * * * *" "*/7" "*" "*" "*" "*"
           86400 100 tt tt decennial); try reflexivity.
  - apply decade_next_is_least.
  - apply decennial_gregorian.
  - exists 0. reflexivity.
  - exists 1. reflexivity.
Defined.

(** C26. The enumeration terminates within its bound: giving the loop more than
    [proof_limit + 1] iterations never changes its verdict. *)
Theorem cadence_loop_total `{Calendar} c z minimum limit extra :
  cadence_loop c z minimum limit (S (Z.to_nat limit) + extra) None None
    (GREGORIAN_CYCLE_START - 1) 0
  = cadence_loop c z minimum limit (S (Z.to_nat limit)) None None
      (GREGORIAN_CYCLE_START - 1) 0.
Proof. apply cadence_loop_fuel; lia. Qed.

(** The schedules the public constructors build. *)
Inductive built `{Calendar} : ScheduleSpec -> Prop :=
| built_once at_ : built (once at_)
| built_fixed anchor every s : fixed_interval anchor every = Ok s -> built s
| built_cron expression timezone s : cron expression timezone = Ok s -> built s.

(** The database's canonical names are fixed points of its lookup. *)
Definition zone_names_canonical `{Calendar} : Prop :=
  forall name z n, zone_get name = Some z -> zone_iana_name z = Some n ->
    exists z', zone_get n = Some z' /\ zone_iana_name z' = Some n.

Lemma cron_idempotent `{Calendar} expression timezone e tz :
  zone_names_canonical -> cron expression timezone = Ok (Cron e tz) ->
  cron e tz = Ok (Cron e tz).
Proof.
  unfold cron, bundled_time_zone_parse. intros Hzones Hc. peel Hc; ok_facts.
  rewrite !split_whitespace_concat in *. rewrite Heqb, Heqr. cbn [ok_or].
  destruct (zone_iana_name a0) as [n|] eqn:Hn.
  - destruct (Hzones _ _ _ Heqr0 Hn) as (z' & -> & Hn'). cbn [ok_or]. by rewrite Hn'.
  - rewrite Heqr0. cbn [ok_or]. by rewrite Hn.
Qed.

(** Every schedule the constructors build survives storage: decoding its
    stored columns gives the same schedule back. *)
Theorem storage_roundtrip `{Calendar} s :
  zone_names_canonical -> built s -> from_storage (storage_parts s) = Ok s.
Proof.
  intros Hzones [at_ | anchor every s' Hf | expression timezone s' Hc]; [done| |].
  - unfold fixed_interval in Hf. peel Hf.
    change (ok_or (ok (fixed_interval anchor every)) InvalidPersistedSchedule
            = Ok (FixedInterval anchor every)).
    unfold fixed_interval. by rewrite Heqb.
  - assert (exists e tz, s' = Cron e tz) as (e & tz & ->)
      by (unfold cron in Hc; peel Hc; by do 2 eexists).
    apply cron_idempotent in Hc; [|done]. unfold from_storage. cbn. by rewrite Hc.
Qed.

Lemma storage_roundtrip_witness :
  @from_storage decade_calendar (storage_parts (Cron "*/7 * * * *" "UTC"))
  = Ok (Cron "*/7 * * * *" "UTC").
Proof.
  apply (@storage_roundtrip decade_calendar).
  - intros name z n Hz [= <-]. exists tt. split; reflexivity.
  - apply (@built_cron decade_calendar "*/7  *   * * *" "UTC"). vm_compute. reflexivity.
Defined.

End Schedule.
