(* ===== verification/Json.v ===== *)
(** * JSON values

    The values of serde_json as the sources use them.  Without the
    [preserve_order] feature its [Map] is a [BTreeMap], so an object is its
    key-sorted field list.  Printing and parsing text are operations of the
    package, parameters of every definition that calls them. *)

From stdpp Require Import base tactics list strings numbers pretty sorting.
From Stdlib Require Import ZArith Lia Ascii.
From S2P Require Import Prelude.

(** [Number]: an unsigned or a negative 64-bit integer, or a float (its bits). *)
Inductive Number :=
| PosInt (n : Z)
| NegInt (z : Z)
| Float (bits : Z).

Inductive Value :=
| Null
| Bool (b : bool)
| Num (n : Number)
| Str (s : string)
| Arr (elements : list Value)
| Obj (fields : list (string * Value)).

(** ** Equality *)

Lemma value_ind' (P : Value -> Prop)
    (HNull : P Null) (HBool : forall b, P (Bool b)) (HNum : forall n, P (Num n))
    (HStr : forall s, P (Str s)) (HArr : forall l, Forall P l -> P (Arr l))
    (HObj : forall m, Forall (fun kv => P kv.2) m -> P (Obj m)) : forall v, P v.
Proof.
  fix rec 1. intros [|b|n|s|l|m]; [exact HNull|apply HBool|apply HNum|apply HStr|..].
  - apply HArr. induction l as [|v l IHl]; constructor; [apply rec|exact IHl].
  - apply HObj. induction m as [|[k v] m IHm]; constructor; [apply rec|exact IHm].
Qed.

#[export] Instance number_eq_dec : EqDecision Number.
Proof. solve_decision. Defined.

(** [PartialEq for Value]. *)
Fixpoint value_eqb (v w : Value) : bool :=
  match v, w with
  | Null, Null => true
  | Bool b, Bool c => Bool.eqb b c
  | Num n, Num m => bool_decide (n = m)
  | Str s, Str t => String.eqb s t
  | Arr l, Arr k =>
      (fix go l k := match l, k with
       | [], [] => true
       | v :: l, w :: k => value_eqb v w && go l k
       | _, _ => false
       end) l k
  | Obj l, Obj k =>
      (fix go l k := match l, k with
       | [], [] => true
       | (a, v) :: l, (b, w) :: k => String.eqb a b && value_eqb v w && go l k
       | _, _ => false
       end) l k
  | _, _ => false
  end.

Lemma value_eqb_spec v w : value_eqb v w = true <-> v = w.
Proof.
  revert w. induction v as [|b|n|s|l IH|m IH] using value_ind'; intros w;
    destruct w as [|c|p|t|k|k]; cbn; try (split; [done|congruence]).
  - rewrite eqb_true_iff. split; congruence.
  - rewrite bool_decide_eq_true. split; congruence.
  - rewrite String.eqb_eq. split; congruence.
  - revert k. induction IH as [|v l Hv _ IHl]; intros [|w k];
      try (split; [done|congruence]).
    cbn. rewrite andb_true_iff, (Hv w), (IHl k). split; [|intros; by simplify_eq].
    intros [-> [= ->]]. done.
  - revert k. induction IH as [|[a v] l Hv _ IHl]; intros [|[b w] k];
      try (split; [done|congruence]).
    cbn in Hv |- *. rewrite !andb_true_iff, String.eqb_eq, (Hv w), (IHl k).
    split; [|intros; by simplify_eq]. intros [[-> ->] [= ->]]. done.
Qed.

#[export] Instance value_eq_dec : EqDecision Value.
Proof.
  intros v w. destruct (value_eqb v w) eqn:E.
  - left. by apply value_eqb_spec.
  - right. intros Heq. apply value_eqb_spec in Heq. congruence.
Defined.

(** ** [Map<String, Value>] *)

Fixpoint map_insert (k : string) (v : Value) (m : list (string * Value)) :
    list (string * Value) :=
  match m with
  | [] => [(k, v)]
  | (k', v') :: rest =>
      match String.compare k k' with
      | Lt => (k, v) :: m
      | Eq => (k, v) :: rest
      | Gt => (k', v') :: map_insert k v rest
      end
  end.

Fixpoint map_get (k : string) (m : list (string * Value)) : option Value :=
  match m with
  | [] => None
  | (k', v') :: rest => if String.eqb k k' then Some v' else map_get k rest
  end.

Definition contains_key (k : string) (m : list (string * Value)) : bool :=
  match map_get k m with Some _ => true | None => false end.

(** [json!({...})]. *)
Definition json_object (fields : list (string * Value)) : Value :=
  Obj (foldl (fun m '(k, v) => map_insert k v m) [] fields).

(** The conversions [json!] applies to fields of the sources' types. *)
Definition json_u64 (n : Z) : Value := Num (PosInt n).
Definition json_i64 (n : Z) : Value := Num (if n <? 0 then NegInt n else PosInt n).
Definition json_option {A} (f : A -> Value) (o : option A) : Value :=
  match o with Some a => f a | None => Null end.

(** An object's fields in strict key order, at every depth: what a [BTreeMap]
    holds. *)
Fixpoint keys_sorted (keys : list string) : bool :=
  match keys with
  | [] => true
  | k :: rest =>
      forallb (fun k' => match String.compare k k' with Lt => true | _ => false end) rest
      && keys_sorted rest
  end.

Definition object_sorted (v : Value) : bool :=
  match v with Obj m => keys_sorted (map fst m) | _ => true end.

(** ** Accessors *)

Definition as_object (v : Value) : option (list (string * Value)) :=
  match v with Obj m => Some m | _ => None end.
Definition as_str (v : Value) : option string :=
  match v with Str s => Some s | _ => None end.
Definition as_array (v : Value) : option (list Value) :=
  match v with Arr l => Some l | _ => None end.
Definition as_bool (v : Value) : option bool :=
  match v with Bool b => Some b | _ => None end.
Definition as_u64 (v : Value) : option Z :=
  match v with Num (PosInt n) => Some n | _ => None end.
Definition as_i64 (v : Value) : option Z :=
  match v with
  | Num (PosInt n) => if n <=? i64_max then Some n else None
  | Num (NegInt z) => Some z
  | _ => None
  end.
Definition is_null (v : Value) : bool :=
  match v with Null => true | _ => false end.

(** [Value::get] by key: [None] unless the value is an object. *)
Definition get (k : string) (v : Value) : option Value :=
  match as_object v with Some m => map_get k m | None => None end.

(** [Value::pointer] along object keys. *)
Fixpoint pointer (path : list string) (v : Value) : option Value :=
  match path with
  | [] => Some v
  | k :: path' =>
      match as_object v with
      | Some m => match map_get k m with Some v' => pointer path' v' | None => None end
      | None => None
      end
  end.

(** ** Text *)

(** [serde_json::to_vec]/[to_string] and [from_slice]/[from_str], and the
    [Display] of a value ([Value::to_string]). *)
Class Serde := {
  to_vec : Value -> option string;
  from_slice : string -> option Value;
  display : Value -> string
}.

(** Reading back what was printed.  serde_json documents this for values built
    without floats and nested below its recursion limit of 128, which is what
    the sources print. *)
Definition reads_back `{Serde} (v : Value) : Prop :=
  forall bytes, to_vec v = Some bytes -> from_slice bytes = Some v.

(** [Display] and [serde_json::to_string] print a value the same, compact way. *)
Definition prints `{Serde} (v : Value) : Prop := to_vec v = Some (display v).

(** Objects are read into a [BTreeMap]. *)
Definition sorted_reader `{Serde} : Prop :=
  forall s v, from_slice s = Some v -> object_sorted v = true.

(** A value that travels through text unchanged. *)
Definition faithful `{Serde} (v : Value) : Prop := prints v /\ reads_back v.

Lemma faithful_reads `{Serde} v : faithful v -> from_slice (display v) = Some v.
Proof. intros [Hp Hr]. by apply Hr. Qed.

Lemma faithful_inj `{Serde} v w : faithful v -> faithful w -> display v = display w -> v = w.
Proof. intros Hv%faithful_reads Hw%faithful_reads Heq. congruence. Qed.

(** *** Sorted objects *)

Definition before (x y : string * Value) : Prop := String.compare x.1 y.1 = Lt.

Lemma keys_sorted_spec m : keys_sorted (map fst m) = true <-> StronglySorted before m.
Proof.
  induction m as [|[k v] m IH]; cbn; [by split; [constructor|]|].
  rewrite andb_true_iff, IH, forallb_spec. split.
  - intros [Hall Hm]. constructor; [done|]. apply Forall_map in Hall.
    apply (Forall_weaken _ _ _ Hall). intros [k' v'] Hlt. unfold before. cbn in *.
    by destruct (String.compare k k').
  - intros Hs. apply StronglySorted_inv in Hs as [Hm Hall]. split; [|done].
    apply Forall_map. apply (Forall_weaken _ _ _ Hall). intros [k' v'] Hlt.
    unfold before in Hlt. cbn in *. by rewrite Hlt.
Qed.

Lemma compare_lt_neq a b : String.compare a b = Lt -> a <> b.
Proof.
  intros Hlt ->. pose proof (String.compare_antisym b b) as Hs. by rewrite Hlt in Hs.
Qed.

Lemma sorted_nodup m : StronglySorted before m -> NoDup m.
Proof.
  induction m as [|x m IH]; [constructor|]. intros Hs.
  apply StronglySorted_inv in Hs as [Hm Hall]. constructor; [|by apply IH].
  intros Hin. rewrite Forall_forall in Hall.
  specialize (Hall x Hin). by apply compare_lt_neq in Hall.
Qed.

Lemma map_get_elem k m v : map_get k m = Some v -> (k, v) ∈ m.
Proof.
  induction m as [|[k' v'] m IH]; [done|]. cbn.
  destruct (String.eqb_spec k k') as [->|]; intros; simplify_eq; [by left|].
  right. auto.
Qed.

(** A sorted object of the expected size that has every expected field is the
    expected object. *)
Lemma sorted_object_unique m expected :
  keys_sorted (map fst m) = true -> keys_sorted (map fst expected) = true ->
  length m = length expected ->
  Forall (fun kv => map_get kv.1 m = Some kv.2) expected -> m = expected.
Proof.
  intros Hm He Hlen Hget. apply keys_sorted_spec in Hm, He.
  symmetry. apply (StronglySorted_unique_strong before); [|done|done|].
  - intros x y _ _ Hxy Hyx. unfold before in *.
    rewrite String.compare_antisym, Hxy in Hyx. done.
  - apply submseteq_length_Permutation; [|lia].
    apply NoDup_submseteq; [by apply sorted_nodup|]. intros [k v] Hin.
    rewrite Forall_forall in Hget.
    by apply map_get_elem, (Hget (k, v)).
Qed.

(** ** A concrete printer

    It prints the given values in compact form, without escapes, and reads
    their texts back.  The witnesses run on it. *)

Definition quote (s : string) : string :=
  String (ascii_of_nat 34) s +:+ String (ascii_of_nat 34) "".

Fixpoint print_value (v : Value) : string :=
  match v with
  | Null => "null"
  | Bool b => if b then "true" else "false"
  | Num (PosInt n) => pretty (Z.to_N n)
  | Num _ => "-"
  | Str s => quote s
  | Arr l => "[" +:+ String.concat "," (map print_value l) +:+ "]"
  | Obj m =>
      "{" +:+ String.concat ","
        (map (fun '(k, v) => quote k +:+ ":" +:+ print_value v) m) +:+ "}"
  end.

Definition serde_of (values : list Value) : Serde := {|
  to_vec v := if existsb (value_eqb v) values then Some (print_value v) else None;
  from_slice s := List.find (fun v => String.eqb s (print_value v)) values;
  display := print_value
|}.

Definition reads_all (values : list Value) : bool :=
  forallb (fun v => bool_decide
    (List.find (fun w => String.eqb (print_value v) (print_value w)) values = Some v)) values.

Lemma serde_of_prints values v s :
  @to_vec (serde_of values) v = Some s -> In v values /\ s = print_value v.
Proof.
  cbn. destruct (existsb (value_eqb v) values) eqn:E; [|done]. intros [= <-].
  apply existsb_exists in E as (w & Hin & ->%value_eqb_spec). done.
Qed.

Lemma serde_of_reads values v : reads_all values = true -> @reads_back (serde_of values) v.
Proof.
  intros Hall s (Hin & ->)%serde_of_prints. unfold reads_all in Hall.
  rewrite List.forallb_forall in Hall. specialize (Hall v Hin). bool_facts. done.
Qed.

Lemma serde_of_faithful values v :
  reads_all values = true -> existsb (value_eqb v) values = true ->
  @faithful (serde_of values) v.
Proof.
  intros Hall Hin. split; [|by apply serde_of_reads]. unfold prints. cbn. by rewrite Hin.
Qed.

Lemma serde_of_sorted values :
  forallb object_sorted values = true -> @sorted_reader (serde_of values).
Proof.
  intros Hall s v Hfind. apply List.find_some in Hfind as [Hin _].
  by apply (proj1 (List.forallb_forall object_sorted values)).
Qed.

Definition zeros64 : string :=
  "0000000000000000000000000000000000000000000000000000000000000000".
