(* ===== verification/Protocol.v ===== *)
(** * The remote runner protocol (crates/runtime/src/scheduled_remote_protocol.rs)

    Versioned, bounded frames between the gateway scheduler and a remote
    runner: their validation, their canonical JSON encoding and decoding, and
    the per-sender sequencer. *)

From stdpp Require Import base tactics list strings numbers.
From Stdlib Require Import ZArith Lia Ascii.
From S2P Require Import Prelude.
From S2P Require Import Identity.
From S2P Require Import Json.
Import Identity.

Module Protocol.

Definition REMOTE_PROTOCOL_VERSION : Z := 2.
Definition MAX_REMOTE_FRAME_BYTES : Z := 64 * 1024.
Definition MAX_READY_TTL_MILLIS : Z := 30000.
Definition MAX_ADMISSION_TTL_MILLIS : Z := 30000.
Definition MAX_JSON_FIELD_BYTES : Z := 32 * 1024.
Definition MAX_ERROR_BYTES : Z := 2 * 1024.

(** ** Frames *)

Record ReadinessRequestFrame := mkReadinessRequest {
  rr_challenge : string;
  rr_ready_until_unix_millis : Z
}.

Record ReadyFrame := mkReady {
  ready_signed_evidence_json : string;
  ready_challenge : string;
  ready_until_unix_millis : Z;
  ready_attested_profile_json : string;
  ready_attested_profile_digest : string;
  ready_deployment_epoch : Z;
  ready_profile_digest : string;
  ready_gateway_image_digest : string;
  ready_runner_image_digest : string;
  ready_runner_workload_identity : string;
  ready_runner_client_cert_public_key_fingerprint : string;
  ready_credential_revision : string;
  ready_github_mcp_access_auth_mode : string;
  ready_github_mcp_access_token_revision : string
}.

Record AdmissionFrame := mkAdmission {
  adm_challenge : string;
  adm_admission_nonce : string;
  adm_expires_at_unix_millis : Z;
  adm_deployment_epoch : Z;
  adm_profile_digest : string
}.

Record RunBinding := mkBinding {
  run_id : string;
  job_id : string;
  attempt : Z;
  fence_token : Z;
  authority_digest : string;
  profile_digest : string;
  deployment_epoch : Z;
  credential_revision : string
}.

Record PrepareFrame := mkPrepare {
  prepare_binding : RunBinding;
  prepare_execution_grant_json : string;
  prepare_isolation_permit_envelope_json : string;
  prepare_task_json : string;
  prepare_definition_json : string;
  prepare_capability_json : string;
  prepare_targets_json : string
}.

Record PreparedFrame := mkPrepared {
  prepared_signed_evidence_json : string;
  prepared_binding : RunBinding;
  prepared_preparation_nonce : string;
  prepared_attested_profile_json : string;
  prepared_attested_profile_digest : string;
  prepared_github_mcp_access_auth_mode : string;
  prepared_github_mcp_access_token_revision : string
}.

Record StartFrame := mkStart {
  start_binding : RunBinding;
  start_preparation_nonce : string
}.

Inductive RemoteResultKind :=
| Completed
| FailedBeforeStart
| OutcomeUnknown.

Record ResultFrame := mkResult {
  result_signed_evidence_json : string;
  result_signed_cleanup_evidence_json : string;
  result_binding : RunBinding;
  result_preparation_nonce : string;
  result_kind : RemoteResultKind;
  result_json : string
}.

Record CancelFrame := mkCancel {
  cancel_binding : RunBinding;
  cancel_reason : string
}.

Inductive RemoteHeartbeatPhase :=
| Preparing
| PhasePrepared
| Started.

Record HeartbeatFrame := mkHeartbeat {
  heartbeat_binding : RunBinding;
  heartbeat_phase : RemoteHeartbeatPhase
}.

Record ErrorFrame := mkError {
  error_binding : option RunBinding;
  error_preparation_nonce : option string;
  error_code : string;
  error_message : string;
  error_retryable : bool
}.

Inductive RemoteMessage :=
| ReadinessRequest (request : ReadinessRequestFrame)
| Ready (ready : ReadyFrame)
| Admission (admission : AdmissionFrame)
| Prepare (prepare : PrepareFrame)
| Prepared (prepared : PreparedFrame)
| Start (start : StartFrame)
| Result (r : ResultFrame)
| Cancel (cancel : CancelFrame)
| Heartbeat (heartbeat : HeartbeatFrame)
| Error (error : ErrorFrame).

Record RemoteFrame := mkFrame {
  version : Z;
  session_nonce : string;
  sequence : Z;
  message : RemoteMessage
}.

#[export] Instance binding_eq_dec : EqDecision RunBinding.
Proof. solve_decision. Defined.
#[export] Instance result_kind_eq_dec : EqDecision RemoteResultKind.
Proof. solve_decision. Defined.
#[export] Instance heartbeat_phase_eq_dec : EqDecision RemoteHeartbeatPhase.
Proof. solve_decision. Defined.
#[export] Instance rr_eq_dec : EqDecision ReadinessRequestFrame.
Proof. solve_decision. Defined.
#[export] Instance ready_eq_dec : EqDecision ReadyFrame.
Proof. solve_decision. Defined.
#[export] Instance admission_eq_dec : EqDecision AdmissionFrame.
Proof. solve_decision. Defined.
#[export] Instance prepare_eq_dec : EqDecision PrepareFrame.
Proof. solve_decision. Defined.
#[export] Instance prepared_eq_dec : EqDecision PreparedFrame.
Proof. solve_decision. Defined.
#[export] Instance start_eq_dec : EqDecision StartFrame.
Proof. solve_decision. Defined.
#[export] Instance result_frame_eq_dec : EqDecision ResultFrame.
Proof. solve_decision. Defined.
#[export] Instance cancel_eq_dec : EqDecision CancelFrame.
Proof. solve_decision. Defined.
#[export] Instance heartbeat_eq_dec : EqDecision HeartbeatFrame.
Proof. solve_decision. Defined.
#[export] Instance error_frame_eq_dec : EqDecision ErrorFrame.
Proof. solve_decision. Defined.
#[export] Instance message_eq_dec : EqDecision RemoteMessage.
Proof. solve_decision. Defined.
#[export] Instance frame_eq_dec : EqDecision RemoteFrame.
Proof. solve_decision. Defined.

Inductive RemoteProtocolError :=
| FrameTooLarge
| InvalidJson
| NonCanonicalJson
| InvalidShape (label : string)
| InvalidField (field : string)
| VersionMismatch
| SessionMismatch
| SequenceStartsAfterOne
| SequenceGap
| SequenceReplay
| SequenceConflict.

#[export] Instance protocol_error_eq_dec : EqDecision RemoteProtocolError.
Proof. solve_decision. Defined.

Abbreviation outcome A := (result RemoteProtocolError A).

(** ** Field checks *)

Section Protocol.
Context `{Serde}.

Definition require_bounded (field value : string) (max : Z) : outcome unit :=
  if is_empty value || negb (is_trimmed value) || (len value >? max)
  then Err (InvalidField field) else Ok tt.

Definition require_hex (field value : string) (length : Z) : outcome unit :=
  if negb (len value =? length) || negb (bytes_all is_hex_byte value)
  then Err (InvalidField field) else Ok tt.

Definition require_image_digest (field value : string) : outcome unit :=
  match strip_prefix "sha256:" value with
  | None => Err (InvalidField field)
  | Some digest => require_hex field digest 64
  end.

Definition require_critical_id (field value : string) : outcome unit :=
  match parse_critical_id value with
  | Ok _ => Ok tt
  | Err _ => Err (InvalidField field)
  end.

Definition require_credential_revision (field value : string) : outcome unit :=
  match parse_credential_revision value with
  | Ok _ => Ok tt
  | Err _ => Err (InvalidField field)
  end.

Definition require_github_mcp_access_auth_mode (field value : string) : outcome unit :=
  if negb (String.eqb value "supervisor-dynamic-tools-v1")
  then Err (InvalidField field) else Ok tt.

Definition require_json_field (field value : string) : outcome unit :=
  check? require_bounded field value MAX_JSON_FIELD_BYTES in
  let? parsed := ok_or (from_slice value) (InvalidField field) in
  if is_null parsed then Err (InvalidField field) else Ok tt.

(** ** Validation *)

(** A validity window: [now = 0] asks for the shape only. *)
Definition ttl_invalid (until now max : Z) : bool :=
  negb (now =? 0) && ((until <=? now) || (u64_saturating_sub until now >? max)).

Definition validate_readiness_request (r : ReadinessRequestFrame) (now : Z) : outcome unit :=
  check? require_hex "readiness_request.challenge" (rr_challenge r) 64 in
  if ttl_invalid (rr_ready_until_unix_millis r) now MAX_READY_TTL_MILLIS
  then Err (InvalidField "readiness_request.validity") else Ok tt.

Definition validate_ready (r : ReadyFrame) (now : Z) : outcome unit :=
  check? require_hex "ready.challenge" (ready_challenge r) 64 in
  check? require_json_field "ready.attested_profile_json" (ready_attested_profile_json r) in
  check? require_json_field "ready.signed_evidence_json" (ready_signed_evidence_json r) in
  check? require_hex "ready.attested_profile_digest" (ready_attested_profile_digest r) 64 in
  check? require_hex "ready.profile_digest" (ready_profile_digest r) 64 in
  check? require_image_digest "ready.gateway_image_digest" (ready_gateway_image_digest r) in
  check? require_image_digest "ready.runner_image_digest" (ready_runner_image_digest r) in
  let? _ := map_err (fun _ => InvalidField "ready.runner_workload_identity")
    (parse_runner_workload_identity (ready_runner_workload_identity r)) in
  check? require_hex "ready.runner_client_cert_public_key_fingerprint"
           (ready_runner_client_cert_public_key_fingerprint r) 64 in
  check? require_credential_revision "ready.credential_revision"
           (ready_credential_revision r) in
  check? require_github_mcp_access_auth_mode "ready.github_mcp_access_auth_mode"
           (ready_github_mcp_access_auth_mode r) in
  check? require_credential_revision "ready.github_mcp_access_token_revision"
           (ready_github_mcp_access_token_revision r) in
  if (ready_deployment_epoch r =? 0)
     || ttl_invalid (ready_until_unix_millis r) now MAX_READY_TTL_MILLIS
  then Err (InvalidField "ready.validity") else Ok tt.

Definition validate_admission_frame (a : AdmissionFrame) (now : Z) : outcome unit :=
  check? require_hex "admission.challenge" (adm_challenge a) 64 in
  check? require_hex "admission.admission_nonce" (adm_admission_nonce a) 64 in
  check? require_hex "admission.profile_digest" (adm_profile_digest a) 64 in
  if (adm_deployment_epoch a =? 0)
     || (negb (now =? 0) && (adm_expires_at_unix_millis a <=? now))
  then Err (InvalidField "admission.validity") else Ok tt.

Definition validate_run_binding (b : RunBinding) : outcome unit :=
  check? require_critical_id "binding.run_id" (run_id b) in
  check? require_critical_id "binding.job_id" (job_id b) in
  check? require_hex "binding.authority_digest" (authority_digest b) 64 in
  check? require_hex "binding.profile_digest" (profile_digest b) 64 in
  check? require_credential_revision "binding.credential_revision" (credential_revision b) in
  if (attempt b =? 0) || (fence_token b =? 0) || (deployment_epoch b =? 0)
  then Err (InvalidField "binding.authority") else Ok tt.

Definition validate_prepare (p : PrepareFrame) : outcome unit :=
  check? validate_run_binding (prepare_binding p) in
  check? require_json_field "prepare.execution_grant_json" (prepare_execution_grant_json p) in
  check? require_json_field "prepare.isolation_permit_envelope_json"
           (prepare_isolation_permit_envelope_json p) in
  check? require_json_field "prepare.task_json" (prepare_task_json p) in
  check? require_json_field "prepare.definition_json" (prepare_definition_json p) in
  check? require_json_field "prepare.capability_json" (prepare_capability_json p) in
  require_json_field "prepare.targets_json" (prepare_targets_json p).

Definition validate_prepared (p : PreparedFrame) : outcome unit :=
  check? validate_run_binding (prepared_binding p) in
  check? require_hex "prepared.preparation_nonce" (prepared_preparation_nonce p) 64 in
  check? require_json_field "prepared.attested_profile_json"
           (prepared_attested_profile_json p) in
  check? require_hex "prepared.attested_profile_digest"
           (prepared_attested_profile_digest p) 64 in
  check? require_github_mcp_access_auth_mode "prepared.github_mcp_access_auth_mode"
           (prepared_github_mcp_access_auth_mode p) in
  check? require_credential_revision "prepared.github_mcp_access_token_revision"
           (prepared_github_mcp_access_token_revision p) in
  require_json_field "prepared.signed_evidence_json" (prepared_signed_evidence_json p).

Definition validate_start (s : StartFrame) : outcome unit :=
  check? validate_run_binding (start_binding s) in
  require_hex "start.preparation_nonce" (start_preparation_nonce s) 64.

Definition validate_result (r : ResultFrame) : outcome unit :=
  check? validate_run_binding (result_binding r) in
  check? require_hex "result.preparation_nonce" (result_preparation_nonce r) 64 in
  bail? len (result_json r) >? MAX_JSON_FIELD_BYTES
    with InvalidField "result.result_json" in
  check? require_json_field "result.signed_evidence_json" (result_signed_evidence_json r) in
  require_json_field "result.signed_cleanup_evidence_json"
    (result_signed_cleanup_evidence_json r).

Definition validate_cancel (c : CancelFrame) : outcome unit :=
  check? validate_run_binding (cancel_binding c) in
  require_bounded "cancel.reason" (cancel_reason c) MAX_ERROR_BYTES.

Definition validate_error (e : ErrorFrame) : outcome unit :=
  check? match error_binding e with
         | Some binding => validate_run_binding binding
         | None => Ok tt
         end in
  check? match error_preparation_nonce e with
         | Some nonce => require_hex "error.preparation_nonce" nonce 64
         | None => Ok tt
         end in
  check? require_credential_revision "error.code" (error_code e) in
  require_bounded "error.message" (error_message e) MAX_ERROR_BYTES.

Definition validate_message (m : RemoteMessage) (now : Z) : outcome unit :=
  match m with
  | ReadinessRequest request => validate_readiness_request request now
  | Ready ready => validate_ready ready now
  | Admission admission => validate_admission_frame admission now
  | Prepare prepare => validate_prepare prepare
  | Prepared prepared => validate_prepared prepared
  | Start start => validate_start start
  | Result r => validate_result r
  | Cancel cancel => validate_cancel cancel
  | Heartbeat heartbeat => validate_run_binding (heartbeat_binding heartbeat)
  | Error error => validate_error error
  end.

Definition validate_at (f : RemoteFrame) (now : Z) : outcome unit :=
  bail? negb (version f =? REMOTE_PROTOCOL_VERSION) with VersionMismatch in
  check? require_hex "session_nonce" (session_nonce f) 64 in
  bail? sequence f =? 0 with InvalidField "sequence" in
  validate_message (message f) now.

(** ** Encoding *)

Definition binding_to_value (b : RunBinding) : Value :=
  json_object [
    ("run_id", Str (run_id b));
    ("job_id", Str (job_id b));
    ("attempt", json_u64 (attempt b));
    ("fence_token", json_u64 (fence_token b));
    ("authority_digest", Str (authority_digest b));
    ("profile_digest", Str (profile_digest b));
    ("deployment_epoch", json_u64 (deployment_epoch b));
    ("credential_revision", Str (credential_revision b))].

Definition readiness_request_to_value (r : ReadinessRequestFrame) : Value :=
  json_object [
    ("challenge", Str (rr_challenge r));
    ("ready_until_unix_millis", json_u64 (rr_ready_until_unix_millis r))].

Definition ready_to_value (r : ReadyFrame) : Value :=
  json_object [
    ("challenge", Str (ready_challenge r));
    ("ready_until_unix_millis", json_u64 (ready_until_unix_millis r));
    ("attested_profile_json", Str (ready_attested_profile_json r));
    ("attested_profile_digest", Str (ready_attested_profile_digest r));
    ("deployment_epoch", json_u64 (ready_deployment_epoch r));
    ("profile_digest", Str (ready_profile_digest r));
    ("gateway_image_digest", Str (ready_gateway_image_digest r));
    ("runner_image_digest", Str (ready_runner_image_digest r));
    ("runner_workload_identity", Str (ready_runner_workload_identity r));
    ("runner_client_cert_public_key_fingerprint",
       Str (ready_runner_client_cert_public_key_fingerprint r));
    ("credential_revision", Str (ready_credential_revision r));
    ("github_mcp_access_auth_mode", Str (ready_github_mcp_access_auth_mode r));
    ("github_mcp_access_token_revision", Str (ready_github_mcp_access_token_revision r));
    ("signed_evidence_json", Str (ready_signed_evidence_json r))].

Definition admission_to_value (a : AdmissionFrame) : Value :=
  json_object [
    ("challenge", Str (adm_challenge a));
    ("admission_nonce", Str (adm_admission_nonce a));
    ("expires_at_unix_millis", json_u64 (adm_expires_at_unix_millis a));
    ("deployment_epoch", json_u64 (adm_deployment_epoch a));
    ("profile_digest", Str (adm_profile_digest a))].

Definition prepare_to_value (p : PrepareFrame) : Value :=
  json_object [
    ("binding", binding_to_value (prepare_binding p));
    ("execution_grant_json", Str (prepare_execution_grant_json p));
    ("isolation_permit_envelope_json", Str (prepare_isolation_permit_envelope_json p));
    ("task_json", Str (prepare_task_json p));
    ("definition_json", Str (prepare_definition_json p));
    ("capability_json", Str (prepare_capability_json p));
    ("targets_json", Str (prepare_targets_json p))].

Definition prepared_to_value (p : PreparedFrame) : Value :=
  json_object [
    ("binding", binding_to_value (prepared_binding p));
    ("preparation_nonce", Str (prepared_preparation_nonce p));
    ("attested_profile_json", Str (prepared_attested_profile_json p));
    ("attested_profile_digest", Str (prepared_attested_profile_digest p));
    ("github_mcp_access_auth_mode", Str (prepared_github_mcp_access_auth_mode p));
    ("github_mcp_access_token_revision", Str (prepared_github_mcp_access_token_revision p));
    ("signed_evidence_json", Str (prepared_signed_evidence_json p))].

Definition start_to_value (s : StartFrame) : Value :=
  json_object [
    ("binding", binding_to_value (start_binding s));
    ("preparation_nonce", Str (start_preparation_nonce s))].

Definition result_kind_str (k : RemoteResultKind) : string :=
  match k with
  | Completed => "completed"
  | FailedBeforeStart => "failed_before_start"
  | OutcomeUnknown => "outcome_unknown"
  end.

Definition result_to_value (r : ResultFrame) : Value :=
  json_object [
    ("binding", binding_to_value (result_binding r));
    ("preparation_nonce", Str (result_preparation_nonce r));
    ("kind", Str (result_kind_str (result_kind r)));
    ("result_json", Str (result_json r));
    ("signed_cleanup_evidence_json", Str (result_signed_cleanup_evidence_json r));
    ("signed_evidence_json", Str (result_signed_evidence_json r))].

Definition cancel_to_value (c : CancelFrame) : Value :=
  json_object [
    ("binding", binding_to_value (cancel_binding c));
    ("reason", Str (cancel_reason c))].

Definition heartbeat_phase_str (p : RemoteHeartbeatPhase) : string :=
  match p with
  | Preparing => "preparing"
  | PhasePrepared => "prepared"
  | Started => "started"
  end.

Definition heartbeat_to_value (h : HeartbeatFrame) : Value :=
  json_object [
    ("binding", binding_to_value (heartbeat_binding h));
    ("phase", Str (heartbeat_phase_str (heartbeat_phase h)))].

Definition error_to_value (e : ErrorFrame) : Value :=
  json_object [
    ("binding", json_option binding_to_value (error_binding e));
    ("preparation_nonce", json_option Str (error_preparation_nonce e));
    ("code", Str (error_code e));
    ("message", Str (error_message e));
    ("retryable", Bool (error_retryable e))].

Definition message_to_value (m : RemoteMessage) : Value :=
  let '(kind, payload) :=
    match m with
    | ReadinessRequest value => ("readiness_request", readiness_request_to_value value)
    | Ready value => ("ready", ready_to_value value)
    | Admission value => ("admission", admission_to_value value)
    | Prepare value => ("prepare", prepare_to_value value)
    | Prepared value => ("prepared", prepared_to_value value)
    | Start value => ("start", start_to_value value)
    | Result value => ("result", result_to_value value)
    | Cancel value => ("cancel", cancel_to_value value)
    | Heartbeat value => ("heartbeat", heartbeat_to_value value)
    | Error value => ("error", error_to_value value)
    end in
  json_object [("kind", Str kind); ("payload", payload)].

Definition frame_to_value (f : RemoteFrame) : Value :=
  json_object [
    ("version", json_u64 (version f));
    ("session_nonce", Str (session_nonce f));
    ("sequence", json_u64 (sequence f));
    ("message", message_to_value (message f))].

Definition encode (f : RemoteFrame) : outcome string :=
  check? validate_at f 0 in
  let? encoded := ok_or (to_vec (frame_to_value f)) InvalidJson in
  if len encoded >? MAX_REMOTE_FRAME_BYTES then Err FrameTooLarge else Ok encoded.

(** ** Decoding *)

Definition exact_object (value : Value) (fields : list string) (label : string) :
    outcome (list (string * Value)) :=
  let? object := ok_or (as_object value) (InvalidShape label) in
  if negb (Nat.eqb (length object) (length fields))
     || existsb (fun field => negb (contains_key field object)) fields
  then Err (InvalidShape label) else Ok object.

Definition required (object : list (string * Value)) (field : string) : outcome Value :=
  ok_or (map_get field object) (InvalidField field).

Definition required_str (object : list (string * Value)) (field : string) : outcome string :=
  let? v := required object field in ok_or (as_str v) (InvalidField field).

Definition required_string := required_str.

Definition required_u64 (object : list (string * Value)) (field : string) : outcome Z :=
  let? v := required object field in ok_or (as_u64 v) (InvalidField field).

Definition optional_string (object : list (string * Value)) (field : string) :
    outcome (option string) :=
  let? v := required object field in
  match v with
  | Null => Ok None
  | Str s => Ok (Some s)
  | _ => Err (InvalidField field)
  end.

Definition optional_object {T} (object : list (string * Value)) (field : string)
    (parse : Value -> outcome T) : outcome (option T) :=
  let? v := required object field in
  match v with
  | Null => Ok None
  | value => let? t := parse value in Ok (Some t)
  end.

Definition binding_from_value (value : Value) : outcome RunBinding :=
  let? object := exact_object value
    ["run_id"; "job_id"; "attempt"; "fence_token"; "authority_digest"; "profile_digest";
     "deployment_epoch"; "credential_revision"] "binding" in
  let? run_id := required_string object "run_id" in
  let? job_id := required_string object "job_id" in
  let? attempt64 := required_u64 object "attempt" in
  let? attempt := ok_or (fits in_u32 attempt64) (InvalidField "binding.attempt") in
  let? fence_token := required_u64 object "fence_token" in
  let? authority_digest := required_string object "authority_digest" in
  let? profile_digest := required_string object "profile_digest" in
  let? deployment_epoch := required_u64 object "deployment_epoch" in
  let? credential_revision := required_string object "credential_revision" in
  Ok (mkBinding run_id job_id attempt fence_token authority_digest profile_digest
        deployment_epoch credential_revision).

Definition readiness_request_from_value (value : Value) : outcome ReadinessRequestFrame :=
  let? object := exact_object value ["challenge"; "ready_until_unix_millis"]
    "readiness_request" in
  let? challenge := required_string object "challenge" in
  let? until := required_u64 object "ready_until_unix_millis" in
  Ok (mkReadinessRequest challenge until).

Definition ready_from_value (value : Value) : outcome ReadyFrame :=
  let? object := exact_object value
    ["challenge"; "ready_until_unix_millis"; "attested_profile_json";
     "attested_profile_digest"; "deployment_epoch"; "profile_digest";
     "gateway_image_digest"; "runner_image_digest"; "runner_workload_identity";
     "runner_client_cert_public_key_fingerprint"; "credential_revision";
     "github_mcp_access_auth_mode"; "github_mcp_access_token_revision";
     "signed_evidence_json"] "ready" in
  let? challenge := required_string object "challenge" in
  let? until := required_u64 object "ready_until_unix_millis" in
  let? profile_json := required_string object "attested_profile_json" in
  let? attested_digest := required_string object "attested_profile_digest" in
  let? epoch := required_u64 object "deployment_epoch" in
  let? profile_digest := required_string object "profile_digest" in
  let? gateway := required_string object "gateway_image_digest" in
  let? runner := required_string object "runner_image_digest" in
  let? identity := required_string object "runner_workload_identity" in
  let? fingerprint :=
    required_string object "runner_client_cert_public_key_fingerprint" in
  let? credential := required_string object "credential_revision" in
  let? auth_mode := required_string object "github_mcp_access_auth_mode" in
  let? token_revision := required_string object "github_mcp_access_token_revision" in
  let? evidence := required_string object "signed_evidence_json" in
  Ok (mkReady evidence challenge until profile_json attested_digest epoch profile_digest
        gateway runner identity fingerprint credential auth_mode token_revision).

Definition admission_from_value (value : Value) : outcome AdmissionFrame :=
  let? object := exact_object value
    ["challenge"; "admission_nonce"; "expires_at_unix_millis"; "deployment_epoch";
     "profile_digest"] "admission" in
  let? challenge := required_string object "challenge" in
  let? nonce := required_string object "admission_nonce" in
  let? expires := required_u64 object "expires_at_unix_millis" in
  let? epoch := required_u64 object "deployment_epoch" in
  let? digest := required_string object "profile_digest" in
  Ok (mkAdmission challenge nonce expires epoch digest).

Definition prepare_from_value (value : Value) : outcome PrepareFrame :=
  let? object := exact_object value
    ["binding"; "execution_grant_json"; "isolation_permit_envelope_json"; "task_json";
     "definition_json"; "capability_json"; "targets_json"] "prepare" in
  let? binding_value := required object "binding" in
  let? binding := binding_from_value binding_value in
  let? grant := required_string object "execution_grant_json" in
  let? permit := required_string object "isolation_permit_envelope_json" in
  let? task := required_string object "task_json" in
  let? definition := required_string object "definition_json" in
  let? capability := required_string object "capability_json" in
  let? targets := required_string object "targets_json" in
  Ok (mkPrepare binding grant permit task definition capability targets).

Definition prepared_from_value (value : Value) : outcome PreparedFrame :=
  let? object := exact_object value
    ["binding"; "preparation_nonce"; "attested_profile_json"; "attested_profile_digest";
     "github_mcp_access_auth_mode"; "github_mcp_access_token_revision";
     "signed_evidence_json"] "prepared" in
  let? binding_value := required object "binding" in
  let? binding := binding_from_value binding_value in
  let? nonce := required_string object "preparation_nonce" in
  let? profile_json := required_string object "attested_profile_json" in
  let? digest := required_string object "attested_profile_digest" in
  let? auth_mode := required_string object "github_mcp_access_auth_mode" in
  let? token_revision := required_string object "github_mcp_access_token_revision" in
  let? evidence := required_string object "signed_evidence_json" in
  Ok (mkPrepared evidence binding nonce profile_json digest auth_mode token_revision).

Definition start_from_value (value : Value) : outcome StartFrame :=
  let? object := exact_object value ["binding"; "preparation_nonce"] "start" in
  let? binding_value := required object "binding" in
  let? binding := binding_from_value binding_value in
  let? nonce := required_string object "preparation_nonce" in
  Ok (mkStart binding nonce).

Definition result_from_value (value : Value) : outcome ResultFrame :=
  let? object := exact_object value
    ["binding"; "preparation_nonce"; "kind"; "result_json"; "signed_cleanup_evidence_json";
     "signed_evidence_json"] "result" in
  let? kind_str := required_str object "kind" in
  let? kind :=
    if String.eqb kind_str "completed" then Ok Completed
    else if String.eqb kind_str "failed_before_start" then Ok FailedBeforeStart
    else if String.eqb kind_str "outcome_unknown" then Ok OutcomeUnknown
    else Err (InvalidField "result.kind") in
  let? binding_value := required object "binding" in
  let? binding := binding_from_value binding_value in
  let? nonce := required_string object "preparation_nonce" in
  let? json := required_string object "result_json" in
  let? cleanup := required_string object "signed_cleanup_evidence_json" in
  let? evidence := required_string object "signed_evidence_json" in
  Ok (mkResult evidence cleanup binding nonce kind json).

Definition cancel_from_value (value : Value) : outcome CancelFrame :=
  let? object := exact_object value ["binding"; "reason"] "cancel" in
  let? binding_value := required object "binding" in
  let? binding := binding_from_value binding_value in
  let? reason := required_string object "reason" in
  Ok (mkCancel binding reason).

Definition heartbeat_from_value (value : Value) : outcome HeartbeatFrame :=
  let? object := exact_object value ["binding"; "phase"] "heartbeat" in
  let? phase_str := required_str object "phase" in
  let? phase :=
    if String.eqb phase_str "preparing" then Ok Preparing
    else if String.eqb phase_str "prepared" then Ok PhasePrepared
    else if String.eqb phase_str "started" then Ok Started
    else Err (InvalidField "heartbeat.phase") in
  let? binding_value := required object "binding" in
  let? binding := binding_from_value binding_value in
  Ok (mkHeartbeat binding phase).

Definition error_from_value (value : Value) : outcome ErrorFrame :=
  let? object := exact_object value
    ["binding"; "preparation_nonce"; "code"; "message"; "retryable"] "error" in
  let? binding := optional_object object "binding" binding_from_value in
  let? nonce := optional_string object "preparation_nonce" in
  let? code := required_string object "code" in
  let? message := required_string object "message" in
  let? retryable_value := required object "retryable" in
  let? retryable := ok_or (as_bool retryable_value) (InvalidField "error.retryable") in
  Ok (mkError binding nonce code message retryable).

Definition message_from_value (value : Value) : outcome RemoteMessage :=
  let? object := exact_object value ["kind"; "payload"] "message" in
  let? kind := required_str object "kind" in
  let? payload := required object "payload" in
  if String.eqb kind "readiness_request" then
    let? f := readiness_request_from_value payload in Ok (ReadinessRequest f)
  else if String.eqb kind "ready" then let? f := ready_from_value payload in Ok (Ready f)
  else if String.eqb kind "admission" then
    let? f := admission_from_value payload in Ok (Admission f)
  else if String.eqb kind "prepare" then
    let? f := prepare_from_value payload in Ok (Prepare f)
  else if String.eqb kind "prepared" then
    let? f := prepared_from_value payload in Ok (Prepared f)
  else if String.eqb kind "start" then let? f := start_from_value payload in Ok (Start f)
  else if String.eqb kind "result" then let? f := result_from_value payload in Ok (Result f)
  else if String.eqb kind "cancel" then let? f := cancel_from_value payload in Ok (Cancel f)
  else if String.eqb kind "heartbeat" then
    let? f := heartbeat_from_value payload in Ok (Heartbeat f)
  else if String.eqb kind "error" then let? f := error_from_value payload in Ok (Error f)
  else Err (InvalidField "message.kind").

Definition frame_from_value (value : Value) : outcome RemoteFrame :=
  let? object := exact_object value ["version"; "session_nonce"; "sequence"; "message"]
    "frame" in
  let? version := required_u64 object "version" in
  let? nonce := required_string object "session_nonce" in
  let? sequence := required_u64 object "sequence" in
  let? message_value := required object "message" in
  let? message := message_from_value message_value in
  Ok (mkFrame version nonce sequence message).

Definition decode (bytes : string) (now : Z) : outcome RemoteFrame :=
  bail? len bytes >? MAX_REMOTE_FRAME_BYTES with FrameTooLarge in
  let? value := ok_or (from_slice bytes) InvalidJson in
  let? frame := frame_from_value value in
  check? validate_at frame now in
  let? encoded := encode frame in
  if negb (String.eqb encoded bytes) then Err NonCanonicalJson else Ok frame.

(** ** The sequencer *)

Inductive SequenceAcceptance := SeqAccepted | SeqExactDuplicate.

#[export] Instance acceptance_eq_dec : EqDecision SequenceAcceptance.
Proof. solve_decision. Defined.

Record RemoteFrameSequencer := mkSequencer {
  seq_session_nonce : string;
  seq_last : option RemoteFrame
}.

Definition sequencer_new (nonce : string) : outcome RemoteFrameSequencer :=
  check? require_hex "session_nonce" nonce 64 in
  Ok (mkSequencer nonce None).

(** [&mut self]: the returned sequencer is the state after the call, on every
    path. *)
Definition sequencer_accept (s : RemoteFrameSequencer) (frame : RemoteFrame) (now : Z) :
    outcome SequenceAcceptance * RemoteFrameSequencer :=
  match validate_at frame now with
  | Err e => (Err e, s)
  | Ok _ =>
      if negb (String.eqb (session_nonce frame) (seq_session_nonce s))
      then (Err SessionMismatch, s)
      else match seq_last s with
      | None =>
          if negb (sequence frame =? 1) then (Err SequenceStartsAfterOne, s)
          else (Ok SeqAccepted, mkSequencer (seq_session_nonce s) (Some frame))
      | Some last =>
          if sequence frame =? sequence last then
            if bool_decide (frame = last) then (Ok SeqExactDuplicate, s)
            else (Err SequenceConflict, s)
          else if sequence frame <? sequence last then (Err SequenceReplay, s)
          else if negb (sequence frame =? u64_saturating_add (sequence last) 1)
          then (Err SequenceGap, s)
          else (Ok SeqAccepted, mkSequencer (seq_session_nonce s) (Some frame))
      end
  end.

End Protocol.

(** ** The codec *)

(** The run binding a message carries. *)
Definition message_binding (m : RemoteMessage) : option RunBinding :=
  match m with
  | ReadinessRequest _ | Ready _ | Admission _ => None
  | Prepare p => Some (prepare_binding p)
  | Prepared p => Some (prepared_binding p)
  | Start s => Some (start_binding s)
  | Result r => Some (result_binding r)
  | Cancel c => Some (cancel_binding c)
  | Heartbeat h => Some (heartbeat_binding h)
  | Error e => error_binding e
  end.

(** [attempt] is the one field narrower than the JSON number it travels as. *)
Definition frame_typed (f : RemoteFrame) : Prop :=
  match message_binding (message f) with
  | Some b => in_u32 (attempt b) = true
  | None => True
  end.

Lemma message_roundtrip m :
  (forall b, message_binding m = Some b -> in_u32 (attempt b) = true) ->
  message_from_value (message_to_value m) = Ok m.
Proof.
  intros Htyped.
  assert (Hfits : forall b, message_binding m = Some b ->
            fits in_u32 (attempt b) = Some (attempt b)) by (intros; apply fits_some; auto).
  clear Htyped.
  destruct m as [[]|[]|[]|[[]]|[? []]|[[]]|[? ? [] ? [] ?]|[[]]|[[] []]|[[[]|] [] ? ? ?]];
    try (specialize (Hfits _ eq_refl); cbv -[fits in_u32] in Hfits);
    cbv -[fits in_u32]; rewrite ?Hfits; reflexivity.
Qed.

Lemma frame_roundtrip f : frame_typed f -> frame_from_value (frame_to_value f) = Ok f.
Proof.
  intros Htyped. destruct f as [v n s m]. unfold frame_from_value, frame_to_value.
  cbv -[message_to_value message_from_value].
  rewrite message_roundtrip; [done|]. intros b Hb.
  unfold frame_typed in Htyped. cbn [message] in Htyped. by rewrite Hb in Htyped.
Qed.

Lemma encode_ok `{Serde} f bytes :
  encode f = Ok bytes <->
  validate_at f 0 = Ok tt /\ to_vec (frame_to_value f) = Some bytes
  /\ len bytes <= MAX_REMOTE_FRAME_BYTES.
Proof.
  unfold encode. rewrite check_ok. destruct (to_vec (frame_to_value f)) as [e|]; cbn.
  - destruct (len e >? MAX_REMOTE_FRAME_BYTES) eqn:E; rewrite Z.gtb_ltb in E; bool_facts;
      naive_solver lia.
  - naive_solver.
Qed.

(** C36. The decoder is exactly the inverse of the encoder: a byte string
    decodes to a frame precisely when it is the frame's own encoding, within the
    size bound, and the frame is valid at the given time.  In particular
    encoding then decoding gives the frame back, and no second byte string, a
    re-ordered or padded one for instance, decodes to the same frame. *)
Theorem codec_exact `{Serde} f bytes now :
  frame_typed f -> reads_back (frame_to_value f) ->
  decode bytes now = Ok f
  <-> encode f = Ok bytes /\ validate_at f now = Ok tt
      /\ len bytes <= MAX_REMOTE_FRAME_BYTES.
Proof.
  intros Htyped Hreads. split.
  - unfold decode. intros Hd. peel Hd. bool_facts.
    match goal with E : String.eqb _ _ = true |- _ => apply String.eqb_eq in E as -> end.
    match goal with u : unit |- _ => destruct u end.
    repeat split; [done..|]. rewrite Z.gtb_ltb in *. bool_facts. done.
  - intros (Henc & Hvalid & _). pose proof Henc as (Hv0 & Hvec & Hlen)%encode_ok.
    unfold decode. rewrite (Hreads _ Hvec). cbn [ok_or].
    rewrite frame_roundtrip, Hvalid, Henc, String.eqb_refl by done. cbn [negb].
    rewrite Z.gtb_ltb. by rewrite (proj2 (Z.ltb_ge _ _)) by done.
Qed.

(** ** The sequencer's history *)

(** Feeding a sequencer a series of timed frames: the frames it accepted, in
    order, and its final state. *)
Fixpoint sequencer_run `{Serde} (s : RemoteFrameSequencer)
    (input : list (RemoteFrame * Z)) : list RemoteFrame * RemoteFrameSequencer :=
  match input with
  | [] => ([], s)
  | (f, now) :: rest =>
      let '(r, s') := sequencer_accept s f now in
      let '(accepted, s'') := sequencer_run s' rest in
      (match r with Ok SeqAccepted => f :: accepted | _ => accepted end, s'')
  end.

Definition last_sequence (s : RemoteFrameSequencer) : Z :=
  match seq_last s with Some f => sequence f | None => 0 end.

(** What one call does, on every branch. *)
Lemma sequencer_accept_spec `{Serde} s f now r s' :
  sequencer_accept s f now = (r, s') -> last_sequence s <= u64_max ->
  seq_session_nonce s' = seq_session_nonce s
  /\ (r = Ok SeqAccepted ->
      validate_at f now = Ok tt /\ session_nonce f = seq_session_nonce s
      /\ sequence f = last_sequence s + 1 /\ sequence f <= u64_max
      /\ seq_last s' = Some f)
  /\ (r = Ok SeqExactDuplicate -> seq_last s = Some f)
  /\ (r <> Ok SeqAccepted -> s' = s).
Proof.
  unfold sequencer_accept, last_sequence. intros Hacc Hmax.
  destruct (validate_at f now) as [[]|e]; [|naive_solver].
  destruct (String.eqb_spec (session_nonce f) (seq_session_nonce s)); cbn in Hacc;
    [|naive_solver].
  destruct (seq_last s) as [l|] eqn:El.
  - peel Hacc; bool_facts; subst; split_and!; try done; intros; simplify_eq; try done.
    unfold u64_saturating_add in *. cbn. split_and!; (lia || done).
  - peel Hacc; bool_facts; subst; split_and!; try done; intros; simplify_eq; try done.
    cbn. unfold u64_max. split_and!; (lia || done).
Qed.

Lemma sequencer_run_spec `{Serde} input s accepted s' :
  sequencer_run s input = (accepted, s') -> last_sequence s <= u64_max ->
  map sequence accepted = seqZ (last_sequence s + 1) (Z.of_nat (length accepted))
  /\ Forall (fun f => session_nonce f = seq_session_nonce s
                      /\ exists now, validate_at f now = Ok tt) accepted
  /\ last_sequence s' = last_sequence s + Z.of_nat (length accepted)
  /\ last_sequence s' <= u64_max /\ seq_session_nonce s' = seq_session_nonce s.
Proof.
  revert s accepted. induction input as [|[f now] input IH]; intros s accepted Hrun Hmax.
  { cbn in Hrun. simplify_eq. cbn. rewrite Z.add_0_r. by split_and!. }
  cbn in Hrun. destruct (sequencer_accept s f now) as [r s1] eqn:Hacc.
  destruct (sequencer_run s1 input) as [acc2 s2] eqn:Hrun2.
  apply sequencer_accept_spec in Hacc as (Hn & Hok & _ & Herr); [|done].
  destruct (decide (r = Ok SeqAccepted)) as [->|Hr].
  - simplify_eq. destruct Hok as (Hv & Hs & Hseq & Hf & Hl); [done|].
    assert (Hls : last_sequence s1 = last_sequence s + 1)
      by (unfold last_sequence; by rewrite Hl).
    destruct (IH _ _ Hrun2) as (Hmap & Hall & Hend & Hle & Hnn); [lia|].
    cbn [map length]. rewrite Nat2Z.inj_succ, Hseq, Hmap, Hls.
    rewrite (seqZ_cons (last_sequence s + 1)) by lia.
    split_and!; [| |lia|done|congruence].
    + f_equal. by rewrite Z.pred_succ.
    + constructor; [by eauto|]. by rewrite Hn in Hall.
  - rewrite (Herr Hr) in *. clear Hok Herr.
    assert (accepted = acc2 /\ s' = s2) as [-> ->].
    { destruct r as [[]|]; naive_solver. }
    eauto.
Qed.

(** Whatever frames are fed to a new sequencer, in whatever order, with
    whatever repetitions, the frames it accepts carry its session nonce, were
    each valid when accepted, and are numbered 1, 2, 3, ... without a gap or a
    repetition. *)
Theorem sequencer_total_order `{Serde} nonce s input accepted s' :
  sequencer_new nonce = Ok s -> sequencer_run s input = (accepted, s') ->
  map sequence accepted = seqZ 1 (Z.of_nat (length accepted))
  /\ Forall (fun f => session_nonce f = nonce
                      /\ exists now, validate_at f now = Ok tt) accepted.
Proof.
  intros Hnew Hrun. unfold sequencer_new in Hnew. peel Hnew.
  apply sequencer_run_spec in Hrun as (Hseq & Hall & _); [by split|done].
Qed.

(** ** Witnesses *)

Definition sample_binding : RunBinding :=
  mkBinding "run-1" "job-1" 1 7 zeros64 zeros64 3 "credential-r1".

Definition sample_frame (n : Z) : RemoteFrame :=
  mkFrame 2 zeros64 n (Start (mkStart sample_binding zeros64)).

Lemma codec_exact_witness :
  let S := serde_of [frame_to_value (sample_frame 1)] in
  exists bytes, decode bytes 1000 = Ok (sample_frame 1) /\ len bytes < 700.
Proof.
  intros S. exists (print_value (frame_to_value (sample_frame 1))). split; [|vm_compute; reflexivity].
  apply (codec_exact (sample_frame 1) _ 1000).
  - reflexivity.
  - by apply serde_of_reads.
  - split_and!; [vm_compute; reflexivity..|]. vm_compute. discriminate.
Defined.

Lemma sequencer_total_order_witness :
  let S := serde_of [] in
  map sequence [sample_frame 1; sample_frame 2] = seqZ 1 2.
Proof.
  intros S.
  apply (sequencer_total_order zeros64 (mkSequencer zeros64 None)
    [(sample_frame 2, 5); (sample_frame 1, 6); (sample_frame 1, 7); (sample_frame 2, 8)]
    [sample_frame 1; sample_frame 2] (mkSequencer zeros64 (Some (sample_frame 2))));
    vm_compute; reflexivity.
Defined.

End Protocol.
