(* ===== verification/Digest.v ===== *)
(** * Digests (crates/state/src/scheduler.rs, [framed_sha256] and [sha256_hex])

    The digests that bind snapshots, authorities and evidence together.  The
    compression function is the [sha2] package's, a parameter; the hexadecimal
    form and the length-prefixed framing of its input are the program's. *)

From stdpp Require Import base tactics list strings numbers.
From Stdlib Require Import ZArith Lia Ascii.
From S2P Require Import Prelude.

(** [Sha256::digest] over the bytes fed so far: the raw digest. *)
Class Sha2 := { sha256_digest : string -> string }.

Module Digest.

Definition hex_digit (n : N) : ascii :=
  ascii_of_N (if N.ltb n 10 then 48 + n else 87 + n)%N.

(** [encode_sha256]: every byte as ["{byte:02x}"]. *)
Fixpoint encode_sha256 (value : string) : string :=
  match value with
  | EmptyString => EmptyString
  | String b rest =>
      String (hex_digit (N_of_ascii b / 16))
        (String (hex_digit (N_of_ascii b mod 16)) (encode_sha256 rest))
  end.

Definition sha256_hex `{Sha2} (value : string) : string :=
  encode_sha256 (sha256_digest value).

(** [u64::to_be_bytes]. *)
Definition to_be_bytes (n : Z) : string :=
  of_bytes (map (fun i => Z.to_N (Z.land (Z.shiftr n (8 * i)) 255)) [7; 6; 5; 4; 3; 2; 1; 0]).

(** The bytes one part contributes: its length, then itself. *)
Definition frame_part (value : string) : string :=
  to_be_bytes (if in_u64 (len value) then len value else u64_max) +:+ value.

(** The bytes [framed_sha256] feeds to the hash. *)
Fixpoint framed_input (parts : list string) : string :=
  match parts with
  | [] => EmptyString
  | part :: rest => frame_part part +:+ framed_input rest
  end.

Definition framed_sha256 `{Sha2} (domain : string) (values : list string) : string :=
  encode_sha256 (sha256_digest (framed_input (domain :: values))).

(** ** Hexadecimal form *)

Lemma hex_digit_is_hex n : (n < 16)%N -> is_hex_byte (hex_digit n) = true.
Proof.
  intros Hn.
  assert (Hcases : Forall (fun k => is_hex_byte (hex_digit k) = true)
            (map N.of_nat (seq 0 16))) by (vm_compute; repeat constructor).
  rewrite Forall_forall in Hcases. apply Hcases.
  apply List.in_map_iff. exists (N.to_nat n). rewrite List.in_seq. lia.
Qed.

Lemma encode_sha256_hex s :
  bytes_all is_hex_byte (encode_sha256 s) = true /\ len (encode_sha256 s) = 2 * len s.
Proof.
  induction s as [|b s [IHh IHl]]; [done|]. cbn [encode_sha256 bytes_all].
  assert (Hb : (N_of_ascii b < 256)%N) by apply N_ascii_bounded.
  rewrite IHh, !hex_digit_is_hex; [|by apply N.mod_lt|by apply N.Div0.div_lt_upper_bound].
  split; [done|]. unfold len in *. cbn [String.length]. lia.
Qed.

Lemma hex_digit_inj n m :
  (n < 16)%N -> (m < 16)%N -> hex_digit n = hex_digit m -> n = m.
Proof.
  unfold hex_digit. intros Hn Hm Heq. apply (f_equal N_of_ascii) in Heq.
  destruct (N.ltb n 10) eqn:En, (N.ltb m 10) eqn:Em; bool_facts;
    rewrite !N_ascii_embedding in Heq by lia; lia.
Qed.

Lemma encode_sha256_inj s t : encode_sha256 s = encode_sha256 t -> s = t.
Proof.
  revert t. induction s as [|b s IH]; intros [|c t]; cbn [encode_sha256]; try done.
  pose proof (N_ascii_bounded b). pose proof (N_ascii_bounded c).
  intros Heq. injection Heq as Hhi Hlo Heq.
  apply hex_digit_inj in Hhi; [|by apply N.Div0.div_lt_upper_bound..].
  apply hex_digit_inj in Hlo; [|by apply N.mod_lt..].
  f_equal; [|by apply IH].
  rewrite <- (ascii_N_embedding b), <- (ascii_N_embedding c). f_equal.
  rewrite (N.div_mod (N_of_ascii b) 16), (N.div_mod (N_of_ascii c) 16) by done.
  congruence.
Qed.

(** ** Framing is unambiguous *)

Lemma app_inj_length a b c d :
  String.length a = String.length c -> a +:+ b = c +:+ d -> a = c /\ b = d.
Proof.
  revert c. induction a as [|x a IH]; intros [|y c]; cbn; intros Hlen Heq; try done.
  injection Heq as -> Heq. injection Hlen as Hlen. by destruct (IH c Hlen Heq) as [-> ->].
Qed.

Lemma of_bytes_inj l k :
  Forall (fun n => (n < 256)%N) l -> Forall (fun n => (n < 256)%N) k ->
  of_bytes l = of_bytes k -> l = k.
Proof.
  intros Hl. revert k. induction Hl as [|x l Hx _ IH]; intros k Hk Heq.
  { by destruct k. }
  destruct k as [|y k]; [done|]. apply Forall_cons_1 in Hk as [Hy Hk].
  cbn in Heq. injection Heq as Hxy Heq. f_equal; [|by apply IH].
  by rewrite <- (N_ascii_embedding x), <- (N_ascii_embedding y), Hxy.
Qed.

Lemma byte_bounded n i : (Z.to_N (Z.land (Z.shiftr n i) 255) < 256)%N.
Proof.
  change 255 with (Z.ones 8). rewrite Z.land_ones by lia.
  pose proof (Z.mod_pos_bound (Z.shiftr n i) (2 ^ 8)) as Hb. change (2 ^ 8) with 256 in *. lia.
Qed.

Lemma high_bit_zero n k : 0 <= n < 2 ^ 64 -> 64 <= k -> Z.testbit n k = false.
Proof.
  intros Hn Hk. rewrite <- (Z.mod_small n (2 ^ 64)) by lia.
  by apply Z.mod_pow2_bits_high.
Qed.

Lemma byte_testbit n m i k :
  0 <= i -> i <= k < i + 8 ->
  Z.to_N (Z.land (Z.shiftr n i) 255) = Z.to_N (Z.land (Z.shiftr m i) 255) ->
  Z.testbit n k = Z.testbit m k.
Proof.
  intros Hi Hik Hb.
  assert (Hz : Z.land (Z.shiftr n i) (Z.ones 8) = Z.land (Z.shiftr m i) (Z.ones 8)).
  { apply Z2N.inj; [..|exact Hb]; rewrite Z.land_ones by lia; by apply Z.mod_pos_bound. }
  apply (f_equal (fun z => Z.testbit z (k - i))) in Hz.
  rewrite !Z.land_spec, !Z.shiftr_spec, Z.ones_spec_low, !andb_true_r in Hz by lia.
  by replace (k - i + i) with k in Hz by lia.
Qed.

Lemma to_be_bytes_inj n m :
  0 <= n < 2 ^ 64 -> 0 <= m < 2 ^ 64 -> to_be_bytes n = to_be_bytes m -> n = m.
Proof.
  intros Hn Hm Heq. unfold to_be_bytes in Heq.
  apply of_bytes_inj in Heq;
    [|apply Forall_forall; intros x (i & <- & _)%List.in_map_iff; apply byte_bounded..].
  pose proof (List.ext_in_map Heq) as Hbyte. clear Heq. cbn beta in Hbyte.
  apply Z.bits_inj'. intros k Hk.
  destruct (decide (k < 64)) as [Hlt|Hge]; [|by rewrite !(high_bit_zero _ k) by lia].
  pose proof (Z.div_mod k 8) as Hdm. pose proof (Z.mod_pos_bound k 8) as Hmb.
  set (i := k / 8) in *.
  assert (Hi : 0 <= i <= 7) by lia.
  apply (byte_testbit n m (8 * i)); [lia|lia|]. apply Hbyte. cbn [List.In]. lia.
Qed.

(** Two lists of parts with the same framed bytes are the same list. *)
Lemma framed_input_inj parts parts' :
  Forall (fun p => in_u64 (len p) = true) parts ->
  Forall (fun p => in_u64 (len p) = true) parts' ->
  framed_input parts = framed_input parts' -> parts = parts'.
Proof.
  intros Hp. revert parts'.
  induction Hp as [|p parts Hlen _ IH]; intros [|q parts'] Hq Heq; try done.
  apply Forall_cons_1 in Hq as [Hqlen Hq]. cbn [framed_input] in Heq.
  unfold frame_part in Heq. rewrite Hlen, Hqlen, !append_assoc in Heq.
  apply app_inj_length in Heq as [Hl Hrest]; [|done].
  apply to_be_bytes_inj in Hl; [|widths; lia..].
  apply app_inj_length in Hrest as [-> Hrest]; [|unfold len in Hl; lia].
  f_equal. by apply IH.
Qed.

(** A framed digest commits to its domain and to every part separately: if
    the hash does not collide on the two inputs, equal framed digests come from
    the same domain and the same parts, so no two fields can trade bytes and no
    digest of one domain passes for one of another. *)
Theorem framed_sha256_commits `{Sha2} domain values domain' values' :
  Forall (fun p => in_u64 (len p) = true) (domain :: values) ->
  Forall (fun p => in_u64 (len p) = true) (domain' :: values') ->
  (sha256_digest (framed_input (domain :: values))
     = sha256_digest (framed_input (domain' :: values')) ->
   framed_input (domain :: values) = framed_input (domain' :: values')) ->
  framed_sha256 domain values = framed_sha256 domain' values' ->
  domain = domain' /\ values = values'.
Proof.
  intros Hv Hv' Hcollision Heq. unfold framed_sha256 in Heq.
  apply encode_sha256_inj, Hcollision, framed_input_inj in Heq; [|done..].
  by injection Heq.
Qed.

(** The identity is a digest without collisions. *)
Lemma framed_sha256_commits_witness :
  let S := {| sha256_digest s := s |} in
  len (framed_sha256 "d" ["ab"; "c"]) = 56 /\ "d" = "d" /\ ["ab"; "c"] = ["ab"; "c"].
Proof.
  intros S. split; [reflexivity|].
  apply (framed_sha256_commits "d" ["ab"; "c"] "d" ["ab"; "c"]);
    [repeat constructor..|done|reflexivity].
Defined.

End Digest.
