(* ===== verification/Capability.v ===== *)
(** * Attested capability profiles (crates/core/src/attested_capability.rs)

    The evidence a runner deployment presents about itself: its canonical JSON,
    its self-digest, its validation and its parser. *)

From stdpp Require Import base tactics list strings numbers.
From Stdlib Require Import ZArith Lia Ascii.
From S2P Require Import Prelude.
From S2P Require Import Identity.
From S2P Require Import Json.
From S2P Require Import Digest.
Import Digest.

Module Capability.

Definition EXPECTED_GITHUB_TOOLS : list string :=
  ["get_me"; "issue_read"; "list_issues"; "search_issues"; "search_orgs"].

(** [github_tools] is a [BTreeSet<String>]: a sorted list without repetition. *)
Record AttestedCapabilityProfile := mkProfile {
  codex_version : string;
  app_server_schema_sha256 : string;
  codex_program_sha256 : string;
  github_mcp_version : string;
  github_mcp_configured_artifact_sha256 : string;
  github_mcp_configured_endpoint_identity : string;
  github_mcp_access_auth_mode : string;
  github_mcp_access_token_revision : string;
  github_mcp_health_checked_at_unix_seconds : Z;
  github_mcp_health_credential_revision : string;
  github_mcp_health_result_sha256 : string;
  github_mcp_health_tool : string;
  github_tool_schema_sha256 : string;
  github_tools : list string;
  credential_reference : string;
  permission_policy_revision : string;
  config_revision : string;
  config_sha256 : string;
  gateway_image_digest : string;
  runner_image_digest : string;
  runner_workload_identity : string;
  runner_client_cert_public_key_fingerprint : string;
  credential_revision : string;
  credential_isolation_revision : string;
  credential_deny_policy_revision : string;
  negative_test_revision : string;
  output_schema_revision : string;
  attested_at_unix_seconds : Z;
  profile_sha256 : string
}.

#[export] Instance profile_eq_dec : EqDecision AttestedCapabilityProfile.
Proof. solve_decision. Defined.

Inductive AttestedCapabilityProfileError :=
| InvalidJson
| NonCanonicalJson
| InvalidShape
| InvalidField
| DigestMismatch.

Abbreviation outcome A := (result AttestedCapabilityProfileError A).

(** [BTreeSet::insert] and [collect]. *)
Fixpoint set_insert (x : string) (l : list string) : list string :=
  match l with
  | [] => [x]
  | y :: rest =>
      match String.compare x y with
      | Lt => x :: l
      | Eq => l
      | Gt => y :: set_insert x rest
      end
  end.

Definition collect_set (l : list string) : list string :=
  foldl (fun s x => set_insert x s) [] l.

(** The object of [canonical_json], for a given array of tools. *)
Definition profile_value (p : AttestedCapabilityProfile) (tools : list string) : Value :=
  json_object [
    ("app_server_schema_sha256", Str (app_server_schema_sha256 p));
    ("attested_at_unix_seconds", json_u64 (attested_at_unix_seconds p));
    ("codex_program_sha256", Str (codex_program_sha256 p));
    ("codex_version", Str (codex_version p));
    ("config_revision", Str (config_revision p));
    ("config_sha256", Str (config_sha256 p));
    ("credential_deny_policy_revision", Str (credential_deny_policy_revision p));
    ("credential_isolation_revision", Str (credential_isolation_revision p));
    ("credential_reference", Str (credential_reference p));
    ("credential_revision", Str (credential_revision p));
    ("gateway_image_digest", Str (gateway_image_digest p));
    ("github_mcp_configured_artifact_sha256", Str (github_mcp_configured_artifact_sha256 p));
    ("github_mcp_access_auth_mode", Str (github_mcp_access_auth_mode p));
    ("github_mcp_access_token_revision", Str (github_mcp_access_token_revision p));
    ("github_mcp_configured_endpoint_identity",
       Str (github_mcp_configured_endpoint_identity p));
    ("github_mcp_health_checked_at_unix_seconds",
       json_u64 (github_mcp_health_checked_at_unix_seconds p));
    ("github_mcp_health_credential_revision", Str (github_mcp_health_credential_revision p));
    ("github_mcp_health_result_sha256", Str (github_mcp_health_result_sha256 p));
    ("github_mcp_health_tool", Str (github_mcp_health_tool p));
    ("github_mcp_version", Str (github_mcp_version p));
    ("github_tool_schema_sha256", Str (github_tool_schema_sha256 p));
    ("github_tools", Arr (map Str tools));
    ("negative_test_revision", Str (negative_test_revision p));
    ("output_schema_revision", Str (output_schema_revision p));
    ("permission_policy_revision", Str (permission_policy_revision p));
    ("profile_sha256", Str (profile_sha256 p));
    ("runner_client_cert_public_key_fingerprint",
       Str (runner_client_cert_public_key_fingerprint p));
    ("runner_image_digest", Str (runner_image_digest p));
    ("runner_workload_identity", Str (runner_workload_identity p))].

(** The object [computed_profile_sha256] hashes: without the attestation time
    and the digest itself. *)
Definition identity_value (p : AttestedCapabilityProfile) (tools : list string) : Value :=
  json_object [
    ("app_server_schema_sha256", Str (app_server_schema_sha256 p));
    ("codex_program_sha256", Str (codex_program_sha256 p));
    ("codex_version", Str (codex_version p));
    ("config_revision", Str (config_revision p));
    ("config_sha256", Str (config_sha256 p));
    ("credential_deny_policy_revision", Str (credential_deny_policy_revision p));
    ("credential_isolation_revision", Str (credential_isolation_revision p));
    ("credential_reference", Str (credential_reference p));
    ("credential_revision", Str (credential_revision p));
    ("gateway_image_digest", Str (gateway_image_digest p));
    ("github_mcp_configured_artifact_sha256", Str (github_mcp_configured_artifact_sha256 p));
    ("github_mcp_access_auth_mode", Str (github_mcp_access_auth_mode p));
    ("github_mcp_access_token_revision", Str (github_mcp_access_token_revision p));
    ("github_mcp_configured_endpoint_identity",
       Str (github_mcp_configured_endpoint_identity p));
    ("github_mcp_health_checked_at_unix_seconds",
       json_u64 (github_mcp_health_checked_at_unix_seconds p));
    ("github_mcp_health_credential_revision", Str (github_mcp_health_credential_revision p));
    ("github_mcp_health_result_sha256", Str (github_mcp_health_result_sha256 p));
    ("github_mcp_health_tool", Str (github_mcp_health_tool p));
    ("github_mcp_version", Str (github_mcp_version p));
    ("github_tool_schema_sha256", Str (github_tool_schema_sha256 p));
    ("github_tools", Arr (map Str tools));
    ("negative_test_revision", Str (negative_test_revision p));
    ("output_schema_revision", Str (output_schema_revision p));
    ("permission_policy_revision", Str (permission_policy_revision p));
    ("runner_client_cert_public_key_fingerprint",
       Str (runner_client_cert_public_key_fingerprint p));
    ("runner_image_digest", Str (runner_image_digest p));
    ("runner_workload_identity", Str (runner_workload_identity p))].

Definition text_fields (p : AttestedCapabilityProfile) : list string :=
  [codex_version p; github_mcp_version p; github_mcp_configured_endpoint_identity p;
   github_mcp_access_auth_mode p; github_mcp_access_token_revision p;
   github_mcp_health_credential_revision p; github_mcp_health_tool p; credential_reference
   p; permission_policy_revision p; config_revision p; credential_revision p;
   credential_isolation_revision p; credential_deny_policy_revision p;
   negative_test_revision p; output_schema_revision p; runner_workload_identity p;
   gateway_image_digest p; runner_image_digest p; profile_sha256 p].

Definition is_lowercase_hex (value : string) (length : Z) : bool :=
  (len value =? length) && bytes_all is_hex_byte value.

Definition is_image_digest (value : string) : bool :=
  match strip_prefix "sha256:" value with
  | Some digest => is_lowercase_hex digest 64
  | None => false
  end.

Section Profile.
Context `{Serde} `{Sha2}.

Definition canonical_json (p : AttestedCapabilityProfile) : string :=
  display (profile_value p (github_tools p)).

Definition computed_profile_sha256 (p : AttestedCapabilityProfile) : string :=
  sha256_hex (display (identity_value p (github_tools p))).

Definition validate (p : AttestedCapabilityProfile) : outcome unit :=
  bail? (attested_at_unix_seconds p =? 0)
        || negb (github_mcp_health_checked_at_unix_seconds p =? attested_at_unix_seconds p)
        || negb (String.eqb (github_mcp_access_auth_mode p) "supervisor-dynamic-tools-v1")
        || negb (String.eqb (github_mcp_health_tool p) "get_me")
        || negb (String.eqb (github_mcp_health_credential_revision p) (credential_revision p))
        || negb (is_ok (Identity.parse_credential_revision (github_mcp_access_token_revision p)))
        || negb (String.eqb (profile_sha256 p) (computed_profile_sha256 p))
        || existsb is_empty (text_fields p)
        || negb (bool_decide (github_tools p = collect_set EXPECTED_GITHUB_TOOLS))
  with InvalidField in
  bail? existsb (fun digest => negb (is_lowercase_hex digest 64))
          [app_server_schema_sha256 p; codex_program_sha256 p; config_sha256 p;
           github_mcp_configured_artifact_sha256 p; github_mcp_health_result_sha256 p;
           github_tool_schema_sha256 p; profile_sha256 p;
           runner_client_cert_public_key_fingerprint p]
  with InvalidField in
  bail? existsb (fun digest => negb (is_image_digest digest))
          [gateway_image_digest p; runner_image_digest p]
  with InvalidField in
  Ok tt.

Definition string_field (object : list (string * Value)) (field : string) : outcome string :=
  match map_get field object with
  | Some v => ok_or (as_str v) InvalidField
  | None => Err InvalidField
  end.

Definition u64_field (object : list (string * Value)) (field : string) : outcome Z :=
  match map_get field object with
  | Some v => ok_or (as_u64 v) InvalidField
  | None => Err InvalidField
  end.

Fixpoint strings (values : list Value) : outcome (list string) :=
  match values with
  | [] => Ok []
  | v :: rest =>
      let? s := ok_or (as_str v) InvalidField in
      let? l := strings rest in
      Ok (s :: l)
  end.

Definition tools_field (object : list (string * Value)) : outcome (list string) :=
  match map_get "github_tools" object with
  | Some v =>
      let? values := ok_or (as_array v) InvalidField in
      let? l := strings values in
      Ok (collect_set l)
  | None => Err InvalidField
  end.

Definition profile_fields (object : list (string * Value)) : outcome AttestedCapabilityProfile :=
  let? tools := tools_field object in
  let? app_server_schema_sha256 := string_field object "app_server_schema_sha256" in
  let? attested_at_unix_seconds := u64_field object "attested_at_unix_seconds" in
  let? codex_program_sha256 := string_field object "codex_program_sha256" in
  let? codex_version := string_field object "codex_version" in
  let? config_revision := string_field object "config_revision" in
  let? config_sha256 := string_field object "config_sha256" in
  let? credential_deny_policy_revision :=
    string_field object "credential_deny_policy_revision" in
  let? credential_isolation_revision :=
    string_field object "credential_isolation_revision" in
  let? credential_reference := string_field object "credential_reference" in
  let? credential_revision := string_field object "credential_revision" in
  let? gateway_image_digest := string_field object "gateway_image_digest" in
  let? github_mcp_configured_artifact_sha256 :=
    string_field object "github_mcp_configured_artifact_sha256" in
  let? github_mcp_access_auth_mode := string_field object "github_mcp_access_auth_mode" in
  let? github_mcp_access_token_revision :=
    string_field object "github_mcp_access_token_revision" in
  let? github_mcp_configured_endpoint_identity :=
    string_field object "github_mcp_configured_endpoint_identity" in
  let? github_mcp_health_checked_at_unix_seconds :=
    u64_field object "github_mcp_health_checked_at_unix_seconds" in
  let? github_mcp_health_credential_revision :=
    string_field object "github_mcp_health_credential_revision" in
  let? github_mcp_health_result_sha256 :=
    string_field object "github_mcp_health_result_sha256" in
  let? github_mcp_health_tool := string_field object "github_mcp_health_tool" in
  let? github_mcp_version := string_field object "github_mcp_version" in
  let? github_tool_schema_sha256 := string_field object "github_tool_schema_sha256" in
  let? negative_test_revision := string_field object "negative_test_revision" in
  let? output_schema_revision := string_field object "output_schema_revision" in
  let? permission_policy_revision := string_field object "permission_policy_revision" in
  let? profile_sha256 := string_field object "profile_sha256" in
  let? runner_client_cert_public_key_fingerprint :=
    string_field object "runner_client_cert_public_key_fingerprint" in
  let? runner_image_digest := string_field object "runner_image_digest" in
  let? runner_workload_identity := string_field object "runner_workload_identity" in
  Ok (mkProfile codex_version app_server_schema_sha256 codex_program_sha256
        github_mcp_version github_mcp_configured_artifact_sha256
        github_mcp_configured_endpoint_identity github_mcp_access_auth_mode
        github_mcp_access_token_revision github_mcp_health_checked_at_unix_seconds
        github_mcp_health_credential_revision github_mcp_health_result_sha256
        github_mcp_health_tool github_tool_schema_sha256 tools credential_reference
        permission_policy_revision config_revision config_sha256 gateway_image_digest
        runner_image_digest runner_workload_identity
        runner_client_cert_public_key_fingerprint credential_revision
        credential_isolation_revision credential_deny_policy_revision
        negative_test_revision output_schema_revision attested_at_unix_seconds
        profile_sha256).

Definition parse_canonical_json (value : string) : outcome AttestedCapabilityProfile :=
  let? parsed := ok_or (from_slice value) InvalidJson in
  bail? negb (bool_decide (to_vec parsed = Some value)) with NonCanonicalJson in
  let? object := ok_or (as_object parsed) InvalidShape in
  bail? negb (Nat.eqb (length object) 29) with InvalidShape in
  let? profile := profile_fields object in
  check? validate profile in
  Ok profile.

End Profile.


(** ** Reading back a profile *)

Definition with_tools (p : AttestedCapabilityProfile) (tools : list string) :
    AttestedCapabilityProfile :=
  mkProfile (codex_version p) (app_server_schema_sha256 p) (codex_program_sha256 p)
    (github_mcp_version p) (github_mcp_configured_artifact_sha256 p)
    (github_mcp_configured_endpoint_identity p) (github_mcp_access_auth_mode p)
    (github_mcp_access_token_revision p) (github_mcp_health_checked_at_unix_seconds p)
    (github_mcp_health_credential_revision p) (github_mcp_health_result_sha256 p)
    (github_mcp_health_tool p) (github_tool_schema_sha256 p) tools (credential_reference p)
    (permission_policy_revision p) (config_revision p) (config_sha256 p)
    (gateway_image_digest p) (runner_image_digest p) (runner_workload_identity p)
    (runner_client_cert_public_key_fingerprint p) (credential_revision p)
    (credential_isolation_revision p) (credential_deny_policy_revision p)
    (negative_test_revision p) (output_schema_revision p) (attested_at_unix_seconds p)
    (profile_sha256 p).

Lemma strings_map l : strings (map Str l) = Ok l.
Proof. induction l as [|s l IH]; [done|]. cbn. by rewrite IH. Qed.

Lemma profile_value_object p tools :
  exists object, profile_value p tools = Obj object /\ length object = 29%nat
    /\ profile_fields object = Ok (with_tools p (collect_set tools)).
Proof.
  eexists. split; [|split].
  - cbv -[map]. reflexivity.
  - reflexivity.
  - cbv -[map strings collect_set]. rewrite strings_map. reflexivity.
Qed.

Lemma profile_value_tools p tools tools' :
  profile_value p tools' = profile_value p tools -> tools = tools'.
Proof.
  intros Heq. apply (f_equal (get "github_tools")) in Heq.
  cbv -[map] in Heq. injection Heq as Heq.
  apply (f_equal strings) in Heq. rewrite !strings_map in Heq. by injection Heq.
Qed.

(** The identity object determines the profile up to the two fields it leaves
    out. *)
Lemma identity_value_inj p p' :
  identity_value p (github_tools p) = identity_value p' (github_tools p') ->
  github_tools p = github_tools p' ->
  (github_mcp_health_checked_at_unix_seconds p = github_mcp_health_checked_at_unix_seconds p' ->
   attested_at_unix_seconds p = attested_at_unix_seconds p') ->
  profile_sha256 p = profile_sha256 p' -> p = p'.
Proof.
  intros Heq Ht Ha Hs. rewrite Ht in Heq.
  destruct p, p'. cbv -[map] in Heq, Ht, Ha, Hs. injection Heq as ? ? ? ? ? ? ?.
  subst. by rewrite (Ha eq_refl).
Qed.

Section Laws.
Context `{Serde} `{Sha2}.

Lemma validate_tools p :
  validate p = Ok tt -> github_tools p = EXPECTED_GITHUB_TOOLS.
Proof.
  unfold validate. intros Hv. apply bail_ok in Hv as [Hc _]. bool_facts. done.
Qed.

Lemma parse_printed p tools :
  faithful (profile_value p tools) ->
  parse_canonical_json (display (profile_value p tools))
  = check? validate (with_tools p (collect_set tools)) in
    Ok (with_tools p (collect_set tools)).
Proof.
  intros [Hprints Hreads]. unfold parse_canonical_json.
  rewrite (Hreads _ Hprints). cbn [ok_or]. rewrite bool_decide_eq_true_2 by done.
  destruct (profile_value_object p tools) as (object & Hobj & Hlen & Hfields).
  rewrite Hobj. cbn [negb as_object ok_or]. by rewrite Hlen, Hfields.
Qed.

Lemma with_tools_expected p tools :
  validate p = Ok tt -> collect_set tools = EXPECTED_GITHUB_TOOLS ->
  with_tools p (collect_set tools) = p.
Proof. intros Ht%validate_tools ->. rewrite <- Ht. by destruct p. Qed.

Lemma validate_digest p :
  validate p = Ok tt ->
  profile_sha256 p = computed_profile_sha256 p
  /\ attested_at_unix_seconds p = github_mcp_health_checked_at_unix_seconds p.
Proof.
  unfold validate. intros Hv. apply bail_ok in Hv as [Hc _]. bool_facts.
  repeat match goal with E : String.eqb _ _ = true |- _ => apply String.eqb_eq in E end.
  by split.
Qed.

(** A valid profile survives its own canonical text: parsing what
    [canonical_json] prints gives the very same profile. *)
Theorem profile_roundtrip p :
  validate p = Ok tt -> faithful (profile_value p (github_tools p)) ->
  parse_canonical_json (canonical_json p) = Ok p.
Proof.
  intros Hv Hf. unfold canonical_json. rewrite parse_printed by done.
  rewrite with_tools_expected, Hv; [done..|]. by rewrite (validate_tools p Hv).
Qed.

(** The parser does not insist on the one canonical text: the same tools in
    another order, or listed twice, print to a text that differs from
    [canonical_json] and still parses to the same profile. *)
Theorem parser_accepts_other_texts p tools :
  validate p = Ok tt -> collect_set tools = EXPECTED_GITHUB_TOOLS ->
  tools <> EXPECTED_GITHUB_TOOLS ->
  faithful (profile_value p tools) -> faithful (profile_value p (github_tools p)) ->
  parse_canonical_json (display (profile_value p tools)) = Ok p
  /\ display (profile_value p tools) <> canonical_json p.
Proof.
  intros Hv Ht Hne Hf Hf'. split.
  - by rewrite parse_printed, with_tools_expected, Hv.
  - intros Heq. apply Hne.
    apply faithful_inj in Heq; [|done..].
    rewrite (validate_tools p Hv) in Heq. by apply profile_value_tools in Heq.
Qed.

(** The self-digest pins the whole profile: two valid profiles with the same
    digest, on whose identities the hash does not collide, are equal in every
    field, the attestation time included. *)
Theorem profile_digest_pins p p' :
  validate p = Ok tt -> validate p' = Ok tt ->
  faithful (identity_value p (github_tools p)) ->
  faithful (identity_value p' (github_tools p')) ->
  (sha256_digest (display (identity_value p (github_tools p)))
     = sha256_digest (display (identity_value p' (github_tools p'))) ->
   display (identity_value p (github_tools p))
     = display (identity_value p' (github_tools p'))) ->
  profile_sha256 p = profile_sha256 p' -> p = p'.
Proof.
  intros Hv Hv' Hf Hf' Hcollision Hsha.
  pose proof (validate_digest p Hv) as [Hd Ht]. pose proof (validate_digest p' Hv') as [Hd' Ht'].
  rewrite Hd, Hd' in Hsha. unfold computed_profile_sha256, sha256_hex in Hsha.
  apply encode_sha256_inj, Hcollision, faithful_inj in Hsha; [|done..].
  apply identity_value_inj; [done| |by rewrite Ht, Ht'|].
  - by rewrite (validate_tools p Hv), (validate_tools p' Hv').
  - rewrite Hd, Hd'. unfold computed_profile_sha256. by rewrite Hsha.
Qed.

End Laws.

(** ** Witnesses *)

(** A stand-in for the hash: thirty-two zero bytes. *)
Definition zero_sha2 : Sha2 := {|
  sha256_digest _ := of_bytes (repeat 0%N 32)
|}.

Definition sample_profile : AttestedCapabilityProfile :=
  mkProfile "0.144.6" zeros64 zeros64 "1.6.0" zeros64 "configured-sidecar"
    "supervisor-dynamic-tools-v1" "mcp-channel-v1" 1 "credential-v1" zeros64 "get_me" zeros64
    EXPECTED_GITHUB_TOOLS "configured-credential" "policy-v1" "config-v1" zeros64
    ("sha256:" +:+ zeros64) ("sha256:" +:+ zeros64) "spiffe://codeoff/runner/production"
    zeros64 "credential-v1" "isolation-v1" "deny-v1" "negative-v1" "output-v1" 1 zeros64.

Definition reversed_tools : list string := reverse EXPECTED_GITHUB_TOOLS.

Definition sample_serde : Serde :=
  serde_of [profile_value sample_profile EXPECTED_GITHUB_TOOLS;
            profile_value sample_profile reversed_tools;
            identity_value sample_profile EXPECTED_GITHUB_TOOLS].

Lemma profile_roundtrip_witness :
  let S := sample_serde in let D := zero_sha2 in
  parse_canonical_json (canonical_json sample_profile) = Ok sample_profile.
Proof.
  intros S D. apply (profile_roundtrip sample_profile); [vm_compute; reflexivity|].
  apply serde_of_faithful; vm_compute; reflexivity.
Defined.

Lemma parser_accepts_other_texts_witness :
  let S := sample_serde in let D := zero_sha2 in
  parse_canonical_json (display (profile_value sample_profile reversed_tools))
    = Ok sample_profile
  /\ display (profile_value sample_profile reversed_tools) <> canonical_json sample_profile.
Proof.
  intros S D. apply (parser_accepts_other_texts sample_profile reversed_tools);
    [vm_compute; reflexivity | vm_compute; reflexivity | vm_compute; discriminate
    | apply serde_of_faithful; vm_compute; reflexivity..].
Defined.

Lemma profile_digest_pins_witness :
  let S := sample_serde in let D := zero_sha2 in sample_profile = sample_profile.
Proof.
  intros S D. apply (profile_digest_pins sample_profile sample_profile);
    [vm_compute; reflexivity.. | | | done | done];
    apply serde_of_faithful; vm_compute; reflexivity.
Defined.

End Capability.
