(* ===== verification/Authority.v ===== *)
(** * Execution authority (crates/state/src/scheduler.rs)

    The canonical snapshots a scheduled run is frozen into, and the authority
    derived from them: the digest-bound JSON object that every later party (the
    runner, its evidence, recovery) has to match. *)

From stdpp Require Import base tactics list strings numbers pretty sorting.
From Stdlib Require Import ZArith Lia Ascii.
From S2P Require Import Prelude.
From S2P Require Import Policy.
From S2P Require Import Schedule.
From S2P Require Import Json.
From S2P Require Import Digest.
From S2P Require Import Capability.
Import Digest.

(** ** Snapshots *)

Module Snapshot.
Import Schedule.

Definition MAX_SNAPSHOT_BYTES : Z := 256 * 1024.
Definition MAX_CONTEXT_BYTES : Z := 64 * 1024.
Definition MAX_PREVIOUS_SUCCESS_BYTES : Z := 16 * 1024.

Definition to_ascii_lowercase_byte (b : ascii) : ascii :=
  if is_ascii_uppercase b then ascii_of_N (N_of_ascii b + 32) else b.

(** [str::to_ascii_lowercase] and [replace('-', "_")]. *)
Fixpoint map_bytes (f : ascii -> ascii) (s : string) : string :=
  match s with
  | EmptyString => EmptyString
  | String b rest => String (f b) (map_bytes f rest)
  end.

Definition dash_to_underscore (b : ascii) : ascii := if Ascii.eqb b "-" then "_"%char else b.

(** [str::ends_with] on a string. *)
Fixpoint ends_with_str (suffix s : string) : bool :=
  String.eqb suffix s
  || match s with EmptyString => false | String _ rest => ends_with_str suffix rest end.

Definition forbidden_keys : list string :=
  ["secret"; "token"; "password"; "private_key"; "auth"; "authorization"; "credentials";
   "api_key"; "client_secret"; "access_token"; "refresh_token"; "event_id"; "dedupe_key";
   "origin"; "slack_event"; "live_event"].

Definition forbidden_suffixes : list string :=
  ["_secret"; "_token"; "_password"; "_private_key"; "_api_key"].

Definition is_forbidden_durable_key (key : string) : bool :=
  let normalized :=
    map_bytes dash_to_underscore (map_bytes to_ascii_lowercase_byte (trim key)) in
  existsb (String.eqb normalized) forbidden_keys
  || existsb (fun suffix => ends_with_str suffix normalized) forbidden_suffixes.

Fixpoint contains_forbidden_durable_key (value : Value) : bool :=
  match value with
  | Obj object =>
      existsb (fun '(key, value) =>
        is_forbidden_durable_key key || contains_forbidden_durable_key value) object
  | Arr values => existsb contains_forbidden_durable_key values
  | _ => false
  end.

Definition validate_text (field value : string) : result StateValueError unit :=
  bail? is_empty value with Empty field in
  bail? len value >? MAX_CONTEXT_BYTES with TooLarge field in
  Ok tt.

Definition validate_lowercase_sha256 (field value : string) : result StateValueError unit :=
  bail? negb (len value =? 64) || negb (bytes_all is_hex_byte value)
  with InvalidSha256 field in
  Ok tt.

(** [char_indices]: the byte offsets at which a character starts, which are
    the bytes that do not continue one. *)
Definition is_continuation (b : ascii) : bool :=
  let n := N_of_ascii b in N.leb 128 n && N.ltb n 192.

Fixpoint char_starts (offset : Z) (s : string) : list Z :=
  match s with
  | EmptyString => []
  | String b rest =>
      let later := char_starts (offset + 1) rest in
      if is_continuation b then later else offset :: later
  end.

Fixpoint take_while_le (maximum : Z) (l : list Z) : list Z :=
  match l with
  | [] => []
  | x :: rest => if x <=? maximum then x :: take_while_le maximum rest else []
  end.

Definition bounded_utf8_boundary (value : string) (maximum : Z) : Z :=
  if len value <=? maximum then len value
  else List.last (take_while_le maximum (char_starts 0 value)) 0.

Section Snapshot.
Context `{Serde} `{Sha2}.

Definition canonicalize_snapshot (version : Z) (field json : string) :
    result StateValueError string :=
  bail? version =? 0 with InvalidVersion in
  bail? len json >? MAX_SNAPSHOT_BYTES with TooLarge field in
  let? value := ok_or (from_slice json) (InvalidJson field) in
  bail? contains_forbidden_durable_key value with ForbiddenDurableData field in
  let? canonical := ok_or (to_vec value) (InvalidJson field) in
  bail? len canonical >? MAX_SNAPSHOT_BYTES with TooLarge field in
  Ok canonical.

Definition validate_canonical_snapshot (version : Z) (field json : string) :
    result StateValueError unit :=
  let? canonical := canonicalize_snapshot version field json in
  bail? negb (String.eqb canonical json) with NonCanonicalJson field in
  Ok tt.

Definition validate_canonical_json (field json : string) : result StateValueError unit :=
  bail? len json >? MAX_SNAPSHOT_BYTES with TooLarge field in
  let? value := ok_or (from_slice json) (InvalidJson field) in
  bail? negb (bool_decide (to_vec value = Some json)) with NonCanonicalJson field in
  Ok tt.

Definition is_reason_code_byte (b : ascii) : bool :=
  is_ascii_lowercase b || is_ascii_digit b || Ascii.eqb b "_".

Definition validate_operator_reason (reason_json reason_digest : string) :
    result StateValueError unit :=
  let FIELD := "operator retry reason" in
  bail? len reason_json >? MAX_CONTEXT_BYTES with TooLarge FIELD in
  check? validate_canonical_json FIELD reason_json in
  check? validate_lowercase_sha256 "operator retry reason digest" reason_digest in
  bail? negb (String.eqb (sha256_hex reason_json) reason_digest)
  with InvalidSha256 "operator retry reason digest" in
  let? value := ok_or (from_slice reason_json) (InvalidJson FIELD) in
  let? object := ok_or (as_object value) (InvalidJson FIELD) in
  let exact_keys := ["reason"; "reason_code"; "schema_version"] in
  let reason := map_get "reason" object ≫= as_str in
  let reason_code := map_get "reason_code" object ≫= as_str in
  bail? negb (Nat.eqb (length object) (length exact_keys))
        || existsb (fun key => negb (contains_key key object)) exact_keys
        || negb (bool_decide ((map_get "schema_version" object ≫= as_u64) = Some 1))
        || match reason with
           | None => true
           | Some reason =>
               is_empty reason || (len reason >? 4 * 1024) || negb (String.eqb (trim reason) reason)
           end
        || match reason_code with
           | None => true
           | Some code =>
               is_empty code || (len code >? 64) || negb (bytes_all is_reason_code_byte code)
           end
  with InvalidJson FIELD in
  Ok tt.

End Snapshot.

(** *** Cutting text at a character *)

Lemma char_starts_range offset s :
  Forall (fun i => offset <= i < offset + len s) (char_starts offset s).
Proof.
  revert offset. induction s as [|b s IH]; intros offset; [constructor|].
  assert (Hlater : Forall (fun i => offset <= i < offset + len (String b s))
                     (char_starts (offset + 1) s)).
  { apply (Forall_weaken _ _ _ (IH (offset + 1))). unfold len. cbn. lia. }
  cbn [char_starts]. case_match; [done|]. constructor; [|done]. unfold len. cbn. lia.
Qed.

Lemma char_starts_increasing offset s : StronglySorted Z.lt (char_starts offset s).
Proof.
  revert offset. induction s as [|b s IH]; intros offset; [constructor|].
  cbn [char_starts]. case_match; [done|]. constructor; [done|].
  apply (Forall_weaken _ _ _ (char_starts_range (offset + 1) s)). lia.
Qed.

(** The last element of an increasing prefix below the bound is its largest. *)
Lemma last_take_while maximum l :
  StronglySorted Z.lt l -> Forall (fun i => 0 <= i) l -> 0 <= maximum ->
  let b := List.last (take_while_le maximum l) 0 in
  0 <= b <= maximum /\ (b = 0 \/ b ∈ l) /\ Forall (fun i => i <= maximum -> i <= b) l.
Proof.
  intros Hs Hpos Hmax. induction l as [|x l IH]; cbn zeta.
  { cbn. split_and!; [lia|lia|by left|constructor]. }
  apply StronglySorted_inv in Hs as [Hs Hx]. apply Forall_cons_1 in Hpos as [Hx0 Hpos].
  specialize (IH Hs Hpos). cbn zeta in IH. destruct IH as (Hb & Hin & Hall).
  cbn [take_while_le]. destruct (x <=? maximum) eqn:E; bool_facts.
  - destruct (take_while_le maximum l) as [|y t] eqn:Et.
    + cbn in *. split_and!; [lia|lia|right; by left|].
      constructor; [lia|]. destruct l as [|y l]; [constructor|].
      cbn in Et. destruct (y <=? maximum) eqn:Ey; [done|]. bool_facts.
      apply Forall_cons_1 in Hx as [Hxy _].
      apply StronglySorted_inv in Hs as [_ Hy]. constructor; [lia|].
      apply (Forall_weaken _ _ _ Hy). lia.
    + change (List.last (x :: y :: t) 0) with (List.last (y :: t) 0).
      set (b := List.last (y :: t) 0) in *.
      assert (Hyb : x <= b).
      { destruct l as [|z l]; [done|]. cbn in Et. destruct (z <=? maximum) eqn:Ez; [|done].
        injection Et as -> _. bool_facts. apply Forall_cons_1 in Hall as [Hz _].
        apply Forall_cons_1 in Hx as [Hxz _]. lia. }
      split_and!; [lia|lia| |constructor; [lia|done]].
      destruct Hin as [->|Hin]; [by left|right; by right].
  - cbn. split_and!; [lia|lia|by left|]. constructor; [lia|].
    apply (Forall_weaken _ _ _ Hx). lia.
Qed.

(** The previous success handed to a run is cut at a character: the cut is
    within the text and within the bound, falls on the start of a character (or
    keeps the text whole), and no later character start is within the bound. *)
Theorem bounded_utf8_boundary_spec value maximum :
  0 <= maximum ->
  let b := bounded_utf8_boundary value maximum in
  0 <= b <= len value /\ b <= maximum
  /\ (b = len value \/ b = 0 \/ b ∈ char_starts 0 value)
  /\ Forall (fun i => i <= maximum -> i <= b) (char_starts 0 value).
Proof.
  intros Hmax. unfold bounded_utf8_boundary. cbn zeta.
  pose proof (char_starts_range 0 value) as Hrange.
  assert (Hlen : 0 <= len value) by (unfold len; lia).
  destruct (len value <=? maximum) eqn:E; bool_facts.
  - split_and!; [lia|lia|lia|by left|]. apply (Forall_weaken _ _ _ Hrange). lia.
  - destruct (last_take_while maximum (char_starts 0 value)) as (Hb & Hin & Hall);
      [apply char_starts_increasing | apply (Forall_weaken _ _ _ Hrange); lia | done |].
    split_and!; [lia|lia|lia|by right|done].
Qed.

(** A two-byte character across the bound is left out whole. *)
Lemma bounded_utf8_boundary_spec_witness :
  let value := of_bytes [97; 195; 169]%N in
  bounded_utf8_boundary value 2 = 1 /\ bounded_utf8_boundary value 2 <= 2.
Proof.
  intros value. split; [reflexivity|].
  apply (bounded_utf8_boundary_spec value 2). lia.
Defined.

End Snapshot.

(** ** Authority *)

Module Authority.
Import Schedule Snapshot.

Record RunLeaseBinding := mkLeaseBinding {
  run_id : string;
  job_id : string;
  attempt : Z;
  fence : Z;
  lease_owner : string
}.

#[export] Instance lease_binding_eq_dec : EqDecision RunLeaseBinding.
Proof. solve_decision. Defined.

Record ClaimedScheduledRun := mkClaim {
  binding : RunLeaseBinding;
  schedule_id : string;
  job_generation : Z;
  schedule_generation : Z;
  scheduled_for : Z;
  coalesced_through : Z;
  definition_version : Z;
  definition_json : string;
  capability_schema_version : Z;
  capability_digest : string;
  capability_json : string;
  targets_json : string;
  execution_baseline_json : string;
  scheduler_policy : Policy.SchedulerOperationalPolicy
}.

Record ScheduledPrepareAuthority := mkAuthority {
  nonce : string;
  canonical_json : string;
  digest : string;
  instruction : string;
  previous_success : option string;
  previous_success_was_truncated : bool
}.

(** [#[derive(Serialize)]] of the policy: one number per field. *)
Definition policy_value (p : Policy.SchedulerOperationalPolicy) : Value :=
  json_object [
    ("schema_version", json_u64 (Policy.schema_version p));
    ("recovery_batch_limit", json_u64 (Policy.recovery_batch_limit p));
    ("materialization_batch_limit", json_u64 (Policy.materialization_batch_limit p));
    ("occurrence_search_limit", json_u64 (Policy.occurrence_search_limit p));
    ("tick_interval_ms", json_u64 (Policy.tick_interval_ms p));
    ("error_backoff_ms", json_u64 (Policy.error_backoff_ms p));
    ("minimum_schedule_cadence_seconds", json_u64 (Policy.minimum_schedule_cadence_seconds p));
    ("max_active_jobs", json_u64 (Policy.max_active_jobs p));
    ("max_active_jobs_per_owner", json_u64 (Policy.max_active_jobs_per_owner p));
    ("max_prompt_bytes", json_u64 (Policy.max_prompt_bytes p));
    ("max_result_bytes", json_u64 (Policy.max_result_bytes p));
    ("max_summary_bytes", json_u64 (Policy.max_summary_bytes p));
    ("run_lease_seconds", json_u64 (Policy.run_lease_seconds p));
    ("run_heartbeat_interval_ms", json_u64 (Policy.run_heartbeat_interval_ms p));
    ("run_timeout_seconds", json_u64 (Policy.run_timeout_seconds p));
    ("run_prepare_grace_ms", json_u64 (Policy.run_prepare_grace_ms p));
    ("run_cancellation_grace_ms", json_u64 (Policy.run_cancellation_grace_ms p));
    ("run_finalization_grace_ms", json_u64 (Policy.run_finalization_grace_ms p));
    ("run_retry_base_seconds", json_u64 (Policy.run_retry_base_seconds p));
    ("run_retry_max_seconds", json_u64 (Policy.run_retry_max_seconds p));
    ("run_deadline_seconds", json_u64 (Policy.run_deadline_seconds p));
    ("run_max_attempts", json_u64 (Policy.run_max_attempts p));
    ("delivery_tick_interval_ms", json_u64 (Policy.delivery_tick_interval_ms p));
    ("delivery_batch_limit", json_u64 (Policy.delivery_batch_limit p));
    ("delivery_lease_seconds", json_u64 (Policy.delivery_lease_seconds p));
    ("delivery_heartbeat_interval_ms", json_u64 (Policy.delivery_heartbeat_interval_ms p));
    ("delivery_readiness_timeout_seconds", json_u64 (Policy.delivery_readiness_timeout_seconds p));
    ("delivery_send_timeout_seconds", json_u64 (Policy.delivery_send_timeout_seconds p));
    ("delivery_finalization_timeout_seconds", json_u64 (Policy.delivery_finalization_timeout_seconds p));
    ("delivery_max_attempts", json_u64 (Policy.delivery_max_attempts p));
    ("delivery_retry_base_seconds", json_u64 (Policy.delivery_retry_base_seconds p));
    ("delivery_retry_max_seconds", json_u64 (Policy.delivery_retry_max_seconds p));
    ("delivery_retry_after_max_seconds", json_u64 (Policy.delivery_retry_after_max_seconds p));
    ("delivery_deadline_seconds", json_u64 (Policy.delivery_deadline_seconds p));
    ("delivery_readiness_retry_base_seconds", json_u64 (Policy.delivery_readiness_retry_base_seconds p));
    ("delivery_readiness_retry_max_seconds", json_u64 (Policy.delivery_readiness_retry_max_seconds p))].

(** [json!] of an optional object. *)
Definition previous_success_value (previous : option string) (truncated : bool) : Value :=
  json_option (fun content =>
    json_object [("content", Str content); ("was_truncated", Bool truncated)]) previous.

Definition task_value (claim : ClaimedScheduledRun) (instruction : string)
    (previous : option string) (truncated : bool) : Value :=
  let b := binding claim in
  json_object [
    ("channel", Null);
    ("feedback_target", Null);
    ("instruction", Str instruction);
    ("previous_success", previous_success_value previous truncated);
    ("principal", json_object [("kind", Str "service"); ("service", Str "codeoff-scheduler")]);
    ("session", Str "fresh");
    ("source", json_object [
      ("job_id", Str (job_id b));
      ("kind", Str "scheduled_run");
      ("run_id", Str (run_id b));
      ("scheduled_for", Str (pretty (scheduled_for claim)))]);
    ("task_id", Str ("scheduled:" +:+ run_id b +:+ ":" +:+ pretty (attempt b) +:+ ":"
                     +:+ pretty (fence b)));
    ("tool_policy", Str "none")].

Record AuthorityDigests := mkDigests {
  baseline_digest : string;
  claim_capability_digest : string;
  definition_digest : string;
  instruction_digest : string;
  targets_digest : string;
  task_digest : string
}.

Definition authority_value (claim : ClaimedScheduledRun) (nonce : string)
    (d : AuthorityDigests) : Value :=
  let b := binding claim in
  json_object [
    ("binding", json_object [
      ("attempt", json_i64 (attempt b));
      ("fence", json_i64 (fence b));
      ("job_id", Str (job_id b));
      ("lease_owner", Str (lease_owner b));
      ("run_id", Str (run_id b))]);
    ("capability_identity_digest", Str (capability_digest claim));
    ("claim", json_object [
      ("capability_schema_version", json_u64 (capability_schema_version claim));
      ("coalesced_through", json_i64 (coalesced_through claim));
      ("definition_version", json_u64 (definition_version claim));
      ("job_generation", json_i64 (job_generation claim));
      ("schedule_generation", json_i64 (schedule_generation claim));
      ("schedule_id", Str (schedule_id claim));
      ("scheduled_for", json_i64 (scheduled_for claim))]);
    ("digests", json_object [
      ("baseline", Str (baseline_digest d));
      ("capability", Str (claim_capability_digest d));
      ("definition", Str (definition_digest d));
      ("instruction", Str (instruction_digest d));
      ("targets", Str (targets_digest d));
      ("task", Str (task_digest d))]);
    ("nonce", Str nonce);
    ("operational_policy", policy_value (scheduler_policy claim));
    ("schema_version", json_u64 1)].

Definition execution_surface : Value :=
  json_object [
    ("approval_policy", Str "never");
    ("dynamic_tools", Bool false);
    ("network_access", Bool false);
    ("sandbox", Str "read-only");
    ("web_search", Str "disabled")].

Section Authority.
Context `{Serde} `{Sha2}.

(** The instruction a definition carries: present, text and not blank. *)
Definition definition_instruction (definition : Value) : result StateValueError string :=
  match get "instruction" definition ≫= as_str with
  | Some value =>
      if negb (is_empty (trim value)) then Ok value
      else Err (InvalidJson "scheduled definition")
  | None => Err (InvalidJson "scheduled definition")
  end.

(** The previous success a definition asks for, cut to its bound. *)
Definition previous_context (definition baseline : Value) : option string * bool :=
  let include_previous :=
    bool_decide ((pointer ["previous_success"; "kind"] definition ≫= as_str)
                 = Some "latest_success") in
  let previous :=
    if include_previous then get "previous_success_context" baseline ≫= as_str else None in
  match previous with
  | None => (None, false)
  | Some value =>
      let boundary := bounded_utf8_boundary value MAX_PREVIOUS_SUCCESS_BYTES in
      (Some (String.substring 0 (Z.to_nat boundary) value), boundary <? len value)
  end.

(** The six digests of a claim's parts. *)
Definition claim_digests (claim : ClaimedScheduledRun) (instruction : string)
    (previous : option string) (truncated : bool) : AuthorityDigests := {|
  baseline_digest := framed_sha256 "scheduled-baseline-v1" [execution_baseline_json claim];
  claim_capability_digest := framed_sha256 "scheduled-capability-v1" [capability_json claim];
  definition_digest := framed_sha256 "scheduled-definition-v1" [definition_json claim];
  instruction_digest := framed_sha256 "scheduled-instruction-v1" [instruction];
  targets_digest := framed_sha256 "scheduled-targets-v1" [targets_json claim];
  task_digest := framed_sha256 "scheduled-agent-task-v1"
    [display (task_value claim instruction previous truncated)]
|}.

(** What [for_claim] reads out of the claim's snapshots: the instruction, the
    previous success and whether that was cut. *)
Definition claim_inputs (claim : ClaimedScheduledRun) :
    result StateValueError (string * option string * bool) :=
  let? definition := ok_or (from_slice (definition_json claim))
    (InvalidJson "scheduled definition") in
  let? instruction := definition_instruction definition in
  let? baseline := ok_or (from_slice (execution_baseline_json claim))
    (InvalidJson "scheduled execution baseline") in
  let '(previous, truncated) := previous_context definition baseline in
  Ok (instruction, previous, truncated).

Definition for_claim (claim : ClaimedScheduledRun) (nonce : string) :
    result StateValueError ScheduledPrepareAuthority :=
  check? validate_lowercase_sha256 "scheduled prepare nonce" nonce in
  check? validate_canonical_snapshot (definition_version claim) "scheduled definition"
           (definition_json claim) in
  check? validate_canonical_snapshot (capability_schema_version claim)
           "scheduled capability" (capability_json claim) in
  check? validate_canonical_json "scheduled targets" (targets_json claim) in
  check? validate_canonical_json "scheduled execution baseline"
           (execution_baseline_json claim) in
  let? _ := map_err (fun _ => InvalidValue "scheduled operational policy")
    (Policy.validate (scheduler_policy claim)) in
  let? (instruction, previous, truncated) := claim_inputs claim in
  let authority_json :=
    display (authority_value claim nonce
      (claim_digests claim instruction previous truncated)) in
  let digest := framed_sha256 "scheduled-prepare-authority-v1" [authority_json] in
  Ok (mkAuthority nonce authority_json digest instruction previous truncated).

(** [.expect(...)]: [None] is a panic. *)
Definition attestation_json (a : ScheduledPrepareAuthority) (side_effect_free : bool) :
    option string :=
  authority ← from_slice (canonical_json a);
  Some (display (json_object [
    ("authority", authority);
    ("authority_digest", Str (digest a));
    ("schema_version", json_u64 1);
    ("side_effect_free", Bool side_effect_free)])).

Definition validate_recovery_capability_profile (json : string) :
    result StateValueError Value :=
  let? _ := map_err (fun _ => InvalidJson "scheduled recovery capability profile")
    (Capability.parse_canonical_json json) in
  ok_or (from_slice json) (InvalidJson "scheduled recovery capability profile").

Definition validate_recovery_capability_profile_value (value : Value) :
    result StateValueError unit :=
  let? canonical := ok_or (to_vec value)
    (InvalidJson "scheduled recovery capability profile") in
  let? _ := map_err (fun _ => InvalidJson "scheduled recovery capability profile")
    (Capability.parse_canonical_json canonical) in
  Ok tt.

Definition recovery_value (a : ScheduledPrepareAuthority) (authority profile : Value) : Value :=
  json_object [
    ("authority", authority);
    ("authority_digest", Str (digest a));
    ("capability_profile", profile);
    ("execution_surface", execution_surface);
    ("schema_version", json_u64 2)].

(** [None] is the panic of [expect]. *)
Definition recovery_attestation_json (a : ScheduledPrepareAuthority)
    (capability_profile_json : string) : option (result StateValueError string) :=
  match validate_recovery_capability_profile capability_profile_json with
  | Err e => Some (Err e)
  | Ok profile =>
      authority ← from_slice (canonical_json a);
      Some (Ok (display (recovery_value a authority profile)))
  end.

Definition remote_recovery_value (a : ScheduledPrepareAuthority) (authority profile : Value)
    (deployment_profile_digest : string) (deployment_epoch : Z) : Value :=
  json_object [
    ("authority", authority);
    ("authority_digest", Str (digest a));
    ("capability_profile", profile);
    ("deployment_epoch", json_u64 deployment_epoch);
    ("deployment_profile_digest", Str deployment_profile_digest);
    ("execution_surface", execution_surface);
    ("schema_version", json_u64 3)].

Definition remote_recovery_attestation_json (a : ScheduledPrepareAuthority)
    (capability_profile_json deployment_profile_digest : string) (deployment_epoch : Z) :
    option (result StateValueError string) :=
  match validate_recovery_capability_profile capability_profile_json with
  | Err e => Some (Err e)
  | Ok profile =>
      match validate_lowercase_sha256 "scheduled deployment profile digest"
              deployment_profile_digest with
      | Err e => Some (Err e)
      | Ok _ =>
          if deployment_epoch =? 0
          then Some (Err (InvalidValue "scheduled deployment epoch"))
          else
            authority ← from_slice (canonical_json a);
            Some (Ok (display (remote_recovery_value a authority profile
                                 deployment_profile_digest deployment_epoch)))
      end
  end.

(** The checks the three [..._matches] functions share. *)
Definition envelope_matches (a : ScheduledPrepareAuthority) (profile : Value)
    (json json_digest : string) (schema : Z) : bool :=
  bool_decide (to_vec profile = Some json)
  && String.eqb (sha256_hex json) json_digest
  && bool_decide ((get "schema_version" profile ≫= as_u64) = Some schema)
  && bool_decide ((get "authority_digest" profile ≫= as_str) = Some (digest a))
  && bool_decide (get "authority" profile = from_slice (canonical_json a)).

Definition attestation_matches (a : ScheduledPrepareAuthority) (json json_digest : string)
    (require_side_effect_free : bool) : bool :=
  match from_slice json with
  | None => false
  | Some profile =>
      if negb (envelope_matches a profile json json_digest 1) then false
      else negb require_side_effect_free
           || bool_decide ((get "side_effect_free" profile ≫= as_bool) = Some true)
  end.

Definition capability_profile_matches (profile : Value) : bool :=
  match get "capability_profile" profile with
  | Some value => is_ok (validate_recovery_capability_profile_value value)
  | None => false
  end.

Definition recovery_attestation_matches (a : ScheduledPrepareAuthority)
    (json json_digest : string) : bool :=
  match from_slice json with
  | None => false
  | Some profile =>
      if negb (envelope_matches a profile json json_digest 2)
         || negb (bool_decide (get "execution_surface" profile = Some execution_surface))
      then false
      else capability_profile_matches profile
  end.

Definition remote_recovery_attestation_matches (a : ScheduledPrepareAuthority)
    (json json_digest deployment_profile_digest : string) (deployment_epoch : Z) : bool :=
  match from_slice json with
  | None => false
  | Some profile =>
      match as_object profile with Some object => Nat.eqb (length object) 7 | None => false end
      && envelope_matches a profile json json_digest 3
      && bool_decide ((get "deployment_profile_digest" profile ≫= as_str)
                      = Some deployment_profile_digest)
      && bool_decide ((get "deployment_epoch" profile ≫= as_u64) = Some deployment_epoch)
      && (deployment_epoch >? 0)
      && is_ok (validate_lowercase_sha256 "scheduled deployment profile digest"
                  deployment_profile_digest)
      && bool_decide (get "execution_surface" profile = Some execution_surface)
      && capability_profile_matches profile
  end.

Definition matches_remote_binding (a : ScheduledPrepareAuthority) (run_id job_id : string)
    (attempt fence : Z) (authority_digest : string) : bool :=
  match from_slice (canonical_json a) with
  | None => false
  | Some authority =>
      String.eqb authority_digest (digest a)
      && bool_decide ((pointer ["binding"; "run_id"] authority ≫= as_str) = Some run_id)
      && bool_decide ((pointer ["binding"; "job_id"] authority ≫= as_str) = Some job_id)
      && bool_decide ((pointer ["binding"; "attempt"] authority ≫= as_u64) = Some attempt)
      && bool_decide ((pointer ["binding"; "fence"] authority ≫= as_u64) = Some fence)
  end.

End Authority.


(** ** What an authority binds *)

Section Laws.
Context `{Serde} `{Sha2}.

Lemma json_i64_u64 z : 0 <= z -> as_u64 (json_i64 z) = Some z.
Proof. intros Hz. unfold json_i64. by rewrite (proj2 (Z.ltb_ge z 0)). Qed.

Lemma authority_value_binding claim n d :
  let field k := pointer ["binding"; k] (authority_value claim n d) in
  field "run_id" = Some (Str (run_id (binding claim)))
  /\ field "job_id" = Some (Str (job_id (binding claim)))
  /\ field "attempt" = Some (json_i64 (attempt (binding claim)))
  /\ field "fence" = Some (json_i64 (fence (binding claim))).
Proof. destruct claim as [[]]. cbv -[json_i64]. split_and!; reflexivity. Qed.

(** The authority of a claim is the printed object of that claim. *)
Lemma for_claim_json claim n a :
  for_claim claim n = Ok a ->
  exists i p t, claim_inputs claim = Ok (i, p, t)
    /\ canonical_json a = display (authority_value claim n (claim_digests claim i p t))
    /\ digest a = framed_sha256 "scheduled-prepare-authority-v1" [canonical_json a]
    /\ nonce a = n.
Proof.
  unfold for_claim. intros Hok. peel Hok. cbn. eauto 10.
Qed.

(** The authority issued for a claim accepts one remote binding only: the
    digest of this authority with the run, job, attempt and fence of the claim
    it was issued for.  A frame of another attempt or an older fence is
    refused. *)
Theorem authority_binds_claim claim n a r j att fen dig i p t :
  for_claim claim n = Ok a -> 0 <= attempt (binding claim) -> 0 <= fence (binding claim) ->
  claim_inputs claim = Ok (i, p, t) ->
  faithful (authority_value claim n (claim_digests claim i p t)) ->
  matches_remote_binding a r j att fen dig = true
  <-> r = run_id (binding claim) /\ j = job_id (binding claim)
      /\ att = attempt (binding claim) /\ fen = fence (binding claim) /\ dig = digest a.
Proof.
  intros (i' & p' & t' & Hi & Hjson & _ & _)%for_claim_json Hatt Hfence Hinputs Hfaithful.
  rewrite Hinputs in Hi. injection Hi as <- <- <-.
  unfold matches_remote_binding. rewrite Hjson, faithful_reads by done.
  destruct (authority_value_binding claim n (claim_digests claim i p t)) as (-> & -> & -> & ->).
  cbn [mbind option_bind]. rewrite !json_i64_u64 by done. cbn [as_str].
  rewrite !andb_true_iff, !bool_decide_eq_true, String.eqb_eq. naive_solver.
Qed.

(** ** Recovery attestations *)

Lemma validate_profile_ok json v :
  validate_recovery_capability_profile json = Ok v ->
  validate_recovery_capability_profile_value v = Ok tt.
Proof.
  unfold validate_recovery_capability_profile, validate_recovery_capability_profile_value.
  intros Hok. peel Hok. ok_facts. pose proof Heqr as Hparse.
  unfold Capability.parse_canonical_json in Hparse. rewrite Hok in Hparse. cbn [ok_or] in Hparse.
  peel Hparse. bool_facts. rewrite Heqb. cbn [ok_or]. by rewrite Heqr.
Qed.

Lemma validate_profile_value_ok v :
  reads_back v -> validate_recovery_capability_profile_value v = Ok tt ->
  exists json, validate_recovery_capability_profile json = Ok v.
Proof.
  unfold validate_recovery_capability_profile, validate_recovery_capability_profile_value.
  intros Hreads Hok. destruct (to_vec v) as [json|] eqn:Hvec; cbn [ok_or] in Hok; [|done].
  exists json. peel Hok. by rewrite (Hreads _ Hvec).
Qed.

Definition remote_recovery_fields (a : ScheduledPrepareAuthority) (authority profile : Value)
    (pd : string) (ep : Z) : list (string * Value) :=
  [("authority", authority); ("authority_digest", Str (digest a));
   ("capability_profile", profile); ("deployment_epoch", json_u64 ep);
   ("deployment_profile_digest", Str pd);
   ("execution_surface", execution_surface); ("schema_version", json_u64 3)].

Lemma remote_recovery_value_fields a authority profile pd ep :
  remote_recovery_value a authority profile pd ep
  = Obj (remote_recovery_fields a authority profile pd ep).
Proof. cbv -[digest execution_surface]. reflexivity. Qed.

Lemma option_bind_some {A B} (o : option A) (f : A -> option B) b :
  o ≫= f = Some b -> exists a, o = Some a /\ f a = Some b.
Proof. destruct o; naive_solver. Qed.

Lemma as_str_some v s : as_str v = Some s -> v = Str s.
Proof. destruct v; naive_solver. Qed.

Lemma as_u64_some v n : as_u64 v = Some n -> v = json_u64 n.
Proof. destruct v as [| |[]| | |]; naive_solver. Qed.

(** An accepted envelope is the object the builder prints. *)
Lemma accepted_is_built a object json json_digest authority profile pd ep :
  keys_sorted (map fst object) = true -> length object = 7%nat ->
  envelope_matches a (Obj object) json json_digest 3 = true ->
  from_slice (canonical_json a) = Some authority ->
  get "capability_profile" (Obj object) = Some profile ->
  (get "deployment_profile_digest" (Obj object) ≫= as_str) = Some pd ->
  (get "deployment_epoch" (Obj object) ≫= as_u64) = Some ep ->
  get "execution_surface" (Obj object) = Some execution_surface ->
  Obj object = remote_recovery_value a authority profile pd ep.
Proof.
  intros Hsorted Hlen Henv Hauth Hprofile Hpd Hep Hsurface.
  unfold envelope_matches in Henv. bool_facts.
  repeat match goal with E : _ ≫= _ = Some _ |- _ =>
    apply option_bind_some in E as (? & ? & E);
    first [apply as_str_some in E | apply as_u64_some in E]; subst end.
  rewrite remote_recovery_value_fields. f_equal.
  apply sorted_object_unique; [done|done|done|].
  repeat constructor; cbn [fst snd]; try assumption. by rewrite <- Hauth.
Qed.

(** The text of an envelope the builder prints passes every check. *)
Lemma built_is_accepted a authority profile pd ep :
  let v := remote_recovery_value a authority profile pd ep in
  faithful v -> from_slice (canonical_json a) = Some authority ->
  validate_recovery_capability_profile_value profile = Ok tt ->
  is_ok (validate_lowercase_sha256 "scheduled deployment profile digest" pd) = true ->
  0 < ep ->
  remote_recovery_attestation_matches a (display v) (sha256_hex (display v)) pd ep = true.
Proof.
  intros v Hf Hauth Hprofile Hpd Hep. unfold remote_recovery_attestation_matches.
  rewrite (faithful_reads _ Hf). destruct Hf as [Hprints _]. unfold prints in Hprints.
  subst v. rewrite remote_recovery_value_fields in *.
  unfold envelope_matches, capability_profile_matches. rewrite Hprints, Hauth, Hpd.
  rewrite String.eqb_refl, Z.gtb_ltb, (proj2 (Z.ltb_lt 0 ep)) by done.
  cbv [remote_recovery_fields get as_object map_get String.eqb Ascii.eqb Bool.eqb length
       Nat.eqb mbind option_bind as_str as_u64 json_u64].
  rewrite Hprofile. by rewrite !bool_decide_eq_true_2.
Qed.

(** A remote recovery attestation is accepted exactly when its digest is the
    digest of its text and the text is what the builder prints for this
    authority, this deployment and some valid capability profile.  Nothing can
    be added to, dropped from or reordered in an accepted attestation. *)
Theorem remote_attestation_exact a json json_digest pd ep :
  sorted_reader -> 0 <= ep ->
  (forall v, validate_recovery_capability_profile_value v = Ok tt -> reads_back v) ->
  (forall authority profile,
     from_slice (canonical_json a) = Some authority ->
     validate_recovery_capability_profile_value profile = Ok tt ->
     faithful (remote_recovery_value a authority profile pd ep)) ->
  is_Some (from_slice (canonical_json a)) ->
  remote_recovery_attestation_matches a json json_digest pd ep = true
  <-> json_digest = sha256_hex json
      /\ exists capability, remote_recovery_attestation_json a capability pd ep = Some (Ok json).
Proof.
  intros Hsorted Hep Hreads Hfaithful [authority Hauth]. split.
  - unfold remote_recovery_attestation_matches.
    destruct (from_slice json) as [profile|] eqn:Hjson; [|done]. intros Hm.
    destruct profile as [| | | | |object]; try done. cbn [as_object] in Hm. bool_facts.
    unfold capability_profile_matches in *.
    destruct (get "capability_profile" (Obj object)) as [cap|] eqn:Hcap; [|done].
    destruct (validate_recovery_capability_profile_value cap) as [[]|] eqn:Hval; [|done].
    destruct (validate_lowercase_sha256 _ pd) as [[]|] eqn:Hpd; [|done].
    pose proof (Hsorted _ _ Hjson) as Hobj.
    assert (Hbuilt : Obj object = remote_recovery_value a authority cap pd ep).
    { by eapply accepted_is_built; [|apply Nat.eqb_eq| | | | | |]. }
    match goal with E : envelope_matches _ _ _ _ _ = true |- _ =>
      unfold envelope_matches in E end. bool_facts.
    match goal with E : String.eqb _ _ = true |- _ => apply String.eqb_eq in E as <- end.
    split; [done|].
    destruct (validate_profile_value_ok cap (Hreads _ Hval) Hval) as [text Htext].
    exists text. unfold remote_recovery_attestation_json.
    rewrite Htext, Hpd, (proj2 (Z.eqb_neq ep 0)), Hauth by lia. cbn. do 2 f_equal.
    destruct (Hfaithful authority cap Hauth Hval) as [Hprints _].
    rewrite Hbuilt in *. congruence.
  - intros [-> [text Hbuild]]. unfold remote_recovery_attestation_json in Hbuild.
    peel Hbuild. bool_facts. rewrite Hauth in Hbuild. cbn in Hbuild. injection Hbuild as <-.
    match goal with E : validate_recovery_capability_profile _ = Ok _ |- _ =>
      apply validate_profile_ok in E as Hval end.
    match goal with E : validate_lowercase_sha256 _ _ = Ok _ |- _ => rename E into Hpd end.
    apply built_is_accepted; [by apply Hfaithful|done|done|by rewrite Hpd|lia].
Qed.

End Laws.

(** ** Witnesses *)

Definition sample_definition : Value :=
  json_object [("instruction", Str "summarise the day");
               ("previous_success", json_object [("kind", Str "latest_success")])].
Definition sample_baseline : Value :=
  json_object [("previous_success_context", Str "yesterday")].
Definition sample_empty : Value := json_object [].

Definition sample_claim : ClaimedScheduledRun :=
  mkClaim (mkLeaseBinding "run-1" "job-1" 2 7 "worker-1") "schedule-1" 1 1 100 100 1
    (print_value sample_definition) 1 zeros64 (print_value sample_empty)
    (print_value sample_empty) (print_value sample_baseline) Policy.default.

Definition sample_authority_value : Value :=
  @authority_value sample_claim zeros64
    (@claim_digests (serde_of []) Capability.zero_sha2 sample_claim "summarise the day"
       (Some "yesterday") false).

Definition sample_authority : ScheduledPrepareAuthority :=
  mkAuthority zeros64 (print_value sample_authority_value) zeros64 "summarise the day"
    (Some "yesterday") false.

Definition sample_profile_value : Value :=
  Capability.profile_value Capability.sample_profile Capability.EXPECTED_GITHUB_TOOLS.

Definition sample_attestation : Value :=
  remote_recovery_value sample_authority sample_authority_value sample_profile_value zeros64 3.

Definition sample_serde : Serde :=
  serde_of [sample_definition; sample_empty; sample_baseline; sample_authority_value;
            sample_profile_value; sample_attestation].

(** The right binding is accepted, and the fence before it is not. *)
Lemma authority_binds_claim_witness :
  let S := sample_serde in let D := Capability.zero_sha2 in
  matches_remote_binding sample_authority "run-1" "job-1" 2 7 zeros64 = true
  /\ matches_remote_binding sample_authority "run-1" "job-1" 2 6 zeros64 = false.
Proof.
  intros S D. split; [|vm_compute; reflexivity].
  apply (authority_binds_claim sample_claim zeros64 sample_authority "run-1" "job-1" 2 7 zeros64
           "summarise the day" (Some "yesterday") false);
    [vm_compute; reflexivity | cbn; lia | cbn; lia | vm_compute; reflexivity
    | apply serde_of_faithful; vm_compute; reflexivity | split_and!; reflexivity].
Defined.

Lemma remote_attestation_exact_witness :
  let S := sample_serde in let D := Capability.zero_sha2 in
  remote_recovery_attestation_matches sample_authority (print_value sample_attestation)
    zeros64 zeros64 3 = true.
Proof.
  intros S D.
  apply (remote_attestation_exact sample_authority (print_value sample_attestation) zeros64
           zeros64 3).
  - apply serde_of_sorted. vm_compute. reflexivity.
  - lia.
  - intros v _. apply serde_of_reads. vm_compute. reflexivity.
  - intros authority profile Hauth Hprofile.
    vm_compute in Hauth. injection Hauth as <-.
    unfold validate_recovery_capability_profile_value in Hprofile.
    destruct (to_vec profile) as [text|] eqn:Hvec; [|done].
    apply serde_of_prints in Hvec as [Hin ->].
    apply serde_of_faithful; [vm_compute; reflexivity|].
    repeat destruct Hin as [<-|Hin]; try (vm_compute in Hprofile; discriminate);
      [vm_compute; reflexivity | destruct Hin].
  - vm_compute. eexists. reflexivity.
  - split; [vm_compute; reflexivity|]. exists (print_value sample_profile_value).
    vm_compute. reflexivity.
Defined.

End Authority.
