(* ===== verification/Session.v ===== *)
(** * Remote sessions (crates/runtime/src/scheduled_remote_session.rs)

    The role-aware lifecycle of one remote execution: which frame either side
    may send when, what it has to match, and how a disconnect is classified. *)

From stdpp Require Import base tactics list strings numbers sorting.
From Stdlib Require Import ZArith Lia.
From S2P Require Import Prelude.
From S2P Require Import Json.
From S2P Require Import Digest.
From S2P Require Import Capability.
From S2P Require Import Authority.
From S2P Require Import Protocol.
Import Digest Protocol.

Module Session.

Inductive RemoteSessionRole := Gateway | Runner.

Inductive RemoteSessionAcceptance := Accepted | ExactDuplicate.

Inductive RemoteTerminalDisposition :=
| DispCompleted
| DispFailedBeforeStart
| DispOutcomeUnknown.

Inductive RemoteDisconnectOutcome :=
| PreflightNoExecution
| DisconnectOutcomeUnknown
| AlreadyConclusive (disposition : RemoteTerminalDisposition).

Inductive SessionPhase :=
| WaitingReady
| WaitingAdmission
| WaitingPrepare
| WaitingPrepared
| WaitingStart
| WaitingResult
| PhaseTerminal.

Inductive RemoteSessionError :=
| SessionProtocol (e : RemoteProtocolError)
| WrongSender
| InvalidPhase
| SessionIdentityMismatch
| AdmissionExpired
| AdmissionTtlInvalid
| AdmissionConsumed
| RunBindingMismatch
| PreparationNonceMismatch
| AttestedProfileDigestMismatch
| HeartbeatPhaseRegression
| HeartbeatAheadOfSession
| SessionTerminal
| EvidenceReplay.

#[export] Instance role_eq_dec : EqDecision RemoteSessionRole.
Proof. solve_decision. Defined.
#[export] Instance session_phase_eq_dec : EqDecision SessionPhase.
Proof. solve_decision. Defined.
#[export] Instance session_acceptance_eq_dec : EqDecision RemoteSessionAcceptance.
Proof. solve_decision. Defined.
#[export] Instance session_error_eq_dec : EqDecision RemoteSessionError.
Proof. solve_decision. Defined.

Record ReadyIdentity := mkReadyIdentity {
  challenge : string;
  ready_until : Z;
  ready_epoch : Z;
  ready_profile : string;
  ready_credential : string
}.

Record AdmissionState := mkAdmissionState {
  admission_nonce : string;
  effective_expires_at_unix_millis : Z;
  consumed : bool
}.

Record TerminalState := mkTerminal {
  disposition : RemoteTerminalDisposition;
  conclusive_result : bool
}.

Record RemoteSessionState := mkSession {
  gateway_sequencer : RemoteFrameSequencer;
  runner_sequencer : RemoteFrameSequencer;
  expected_authority : Authority.ScheduledPrepareAuthority;
  phase : SessionPhase;
  ready : option ReadyIdentity;
  admission : option AdmissionState;
  binding : option RunBinding;
  preparation_nonce : option string;
  hb_phase : option RemoteHeartbeatPhase;
  started : bool;
  terminal : option TerminalState
}.

(** ** [&mut self] methods

    A method runs on the session and may return, return an error or panic; the
    session it leaves behind is part of the result on every path, so that a
    field assigned before an error stays assigned. *)

Inductive exit (A : Type) :=
| Returns (a : A)
| Throws (e : RemoteSessionError)
| Panics.
Arguments Returns {_} _.
Arguments Throws {_} _.
Arguments Panics {_}.

Definition method (A : Type) : Type := RemoteSessionState -> exit A * RemoteSessionState.

#[export] Instance method_ret : MRet method := fun A a s => (Returns a, s).
#[export] Instance method_bind : MBind method := fun A B f m s =>
  match m s with
  | (Returns a, s') => f a s'
  | (Throws e, s') => (Throws e, s')
  | (Panics, s') => (Panics, s')
  end.

Definition throw {A} (e : RemoteSessionError) : method A := fun s => (Throws e, s).
Definition this : method RemoteSessionState := fun s => (Returns s, s).
Definition assign (f : RemoteSessionState -> RemoteSessionState) : method unit :=
  fun s => (Returns tt, f s).
(** [.expect(...)] and [debug_assert!]. *)
Definition expect {A} (o : option A) : method A :=
  fun s => match o with Some a => (Returns a, s) | None => (Panics, s) end.
Definition debug_assert (b : bool) : method unit :=
  fun s => if b then (Returns tt, s) else (Panics, s).
Definition guard (b : bool) (e : RemoteSessionError) : method unit :=
  if b then throw e else mret tt.

(** Field assignments. *)
Definition set_phase (p : SessionPhase) (s : RemoteSessionState) : RemoteSessionState :=
  mkSession (gateway_sequencer s) (runner_sequencer s) (expected_authority s) p (ready s)
    (admission s) (binding s) (preparation_nonce s) (hb_phase s) (started s) (terminal s).
Definition set_ready (r : ReadyIdentity) (s : RemoteSessionState) : RemoteSessionState :=
  mkSession (gateway_sequencer s) (runner_sequencer s) (expected_authority s) (phase s)
    (Some r) (admission s) (binding s) (preparation_nonce s) (hb_phase s) (started s)
    (terminal s).
Definition set_admission (a : AdmissionState) (s : RemoteSessionState) : RemoteSessionState :=
  mkSession (gateway_sequencer s) (runner_sequencer s) (expected_authority s) (phase s)
    (ready s) (Some a) (binding s) (preparation_nonce s) (hb_phase s) (started s)
    (terminal s).
Definition set_binding (b : RunBinding) (s : RemoteSessionState) : RemoteSessionState :=
  mkSession (gateway_sequencer s) (runner_sequencer s) (expected_authority s) (phase s)
    (ready s) (admission s) (Some b) (preparation_nonce s) (hb_phase s) (started s)
    (terminal s).
Definition set_preparation_nonce (n : string) (s : RemoteSessionState) : RemoteSessionState :=
  mkSession (gateway_sequencer s) (runner_sequencer s) (expected_authority s) (phase s)
    (ready s) (admission s) (binding s) (Some n) (hb_phase s) (started s) (terminal s).
Definition set_hb_phase (p : RemoteHeartbeatPhase) (s : RemoteSessionState) :
    RemoteSessionState :=
  mkSession (gateway_sequencer s) (runner_sequencer s) (expected_authority s) (phase s)
    (ready s) (admission s) (binding s) (preparation_nonce s) (Some p) (started s)
    (terminal s).
Definition set_started (s : RemoteSessionState) : RemoteSessionState :=
  mkSession (gateway_sequencer s) (runner_sequencer s) (expected_authority s) (phase s)
    (ready s) (admission s) (binding s) (preparation_nonce s) (hb_phase s) true (terminal s).
Definition set_terminal (t : TerminalState) (s : RemoteSessionState) : RemoteSessionState :=
  mkSession (gateway_sequencer s) (runner_sequencer s) (expected_authority s) (phase s)
    (ready s) (admission s) (binding s) (preparation_nonce s) (hb_phase s) (started s)
    (Some t).
Definition set_sequencer (sender : RemoteSessionRole) (q : RemoteFrameSequencer)
    (s : RemoteSessionState) : RemoteSessionState :=
  match sender with
  | Gateway =>
      mkSession q (runner_sequencer s) (expected_authority s) (phase s) (ready s)
        (admission s) (binding s) (preparation_nonce s) (hb_phase s) (started s) (terminal s)
  | Runner =>
      mkSession (gateway_sequencer s) q (expected_authority s) (phase s) (ready s)
        (admission s) (binding s) (preparation_nonce s) (hb_phase s) (started s) (terminal s)
  end.

(** ** The session *)

Section Session.
Context `{Serde} `{Sha2}.

Definition new (session_nonce : string) (expected_authority : Authority.ScheduledPrepareAuthority)
    : result RemoteSessionError RemoteSessionState :=
  let? gateway := map_err SessionProtocol (sequencer_new session_nonce) in
  let? runner := map_err SessionProtocol (sequencer_new session_nonce) in
  Ok (mkSession gateway runner expected_authority WaitingReady None None None None None
        false None).

Definition require (actual expected : RemoteSessionRole) (expected_phase : SessionPhase) :
    method unit :=
  s ← this;
  guard (negb (bool_decide (actual = expected))) WrongSender;;
  guard (negb (bool_decide (phase s = expected_phase))) InvalidPhase.

Definition validate_admission (a : AdmissionFrame) (now : Z) : method Z :=
  s ← this;
  ready ← expect (ready s);
  guard (negb (String.eqb (adm_challenge a) (challenge ready))
         || negb (adm_deployment_epoch a =? ready_epoch ready)
         || negb (String.eqb (adm_profile_digest a) (ready_profile ready)))
    SessionIdentityMismatch;;
  match u64_checked_add now MAX_ADMISSION_TTL_MILLIS with
  | None => throw AdmissionTtlInvalid
  | Some max_expiry =>
      guard (ready_until ready <=? now) AdmissionExpired;;
      guard (adm_expires_at_unix_millis a <=? now) AdmissionExpired;;
      mret (Z.min (Z.min (ready_until ready) (adm_expires_at_unix_millis a)) max_expiry)
  end.

Definition require_live_admission (now : Z) (must_be_consumed : bool) : method unit :=
  s ← this;
  admission ← expect (admission s);
  debug_assert (negb (is_empty (admission_nonce admission)));;
  guard (effective_expires_at_unix_millis admission <=? now) AdmissionExpired;;
  guard (negb (Bool.eqb (consumed admission) must_be_consumed)) AdmissionConsumed.

Definition validate_binding (b : RunBinding) : method unit :=
  s ← this;
  ready ← expect (ready s);
  guard (negb (deployment_epoch b =? ready_epoch ready)
         || negb (String.eqb (profile_digest b) (ready_profile ready))
         || negb (String.eqb (credential_revision b) (ready_credential ready)))
    SessionIdentityMismatch;;
  guard (negb (Authority.matches_remote_binding (expected_authority s) (run_id b) (job_id b)
                 (attempt b) (fence_token b) (authority_digest b)))
    RunBindingMismatch.

Definition require_binding (b : RunBinding) : method unit :=
  s ← this;
  guard (negb (bool_decide (binding s = Some b))) RunBindingMismatch.

Definition require_preparation_nonce (n : string) : method unit :=
  s ← this;
  guard (negb (bool_decide (preparation_nonce s = Some n))) PreparationNonceMismatch.

Definition validate_error_binding (b : option RunBinding) (n : option string) : method unit :=
  s ← this;
  match binding s, b with
  | None, None => mret tt
  | Some expected, Some actual =>
      if bool_decide (expected = actual) then mret tt else throw RunBindingMismatch
  | _, _ => throw RunBindingMismatch
  end;;
  match preparation_nonce s, n with
  | None, None => mret tt
  | Some expected, Some actual =>
      if String.eqb expected actual then mret tt else throw PreparationNonceMismatch
  | _, _ => throw PreparationNonceMismatch
  end.

Definition heartbeat_rank (p : RemoteHeartbeatPhase) : Z :=
  match p with Preparing => 0 | PhasePrepared => 1 | Started => 2 end.

Definition accept_heartbeat (p : RemoteHeartbeatPhase) : method unit :=
  s ← this;
  maximum ← match phase s with
            | WaitingPrepared => mret Preparing
            | WaitingStart => mret PhasePrepared
            | WaitingResult => mret Started
            | _ => throw InvalidPhase
            end;
  guard (heartbeat_rank p >? heartbeat_rank maximum) HeartbeatAheadOfSession;;
  guard (match hb_phase s with
         | Some previous => heartbeat_rank p <? heartbeat_rank previous
         | None => false
         end) HeartbeatPhaseRegression;;
  assign (set_hb_phase p).

(** [Cancel] and [Error] end the session without a conclusive result. *)
Definition inconclusive (s : RemoteSessionState) : TerminalState :=
  mkTerminal (if started s then DispOutcomeUnknown else DispFailedBeforeStart) false.

Definition result_disposition (k : RemoteResultKind) : RemoteTerminalDisposition :=
  match k with
  | Completed => DispCompleted
  | FailedBeforeStart => DispFailedBeforeStart
  | OutcomeUnknown => DispOutcomeUnknown
  end.

Definition result_phase (k : RemoteResultKind) : SessionPhase :=
  match k with
  | FailedBeforeStart => WaitingStart
  | Completed | OutcomeUnknown => WaitingResult
  end.

Definition accept_message (sender : RemoteSessionRole) (m : RemoteMessage) (now : Z) :
    method unit :=
  s ← this;
  match m with
  | ReadinessRequest _ => throw InvalidPhase
  | Ready r =>
      require sender Runner WaitingReady;;
      assign (set_ready (mkReadyIdentity (ready_challenge r) (ready_until_unix_millis r)
                (ready_deployment_epoch r) (ready_profile_digest r)
                (ready_credential_revision r)));;
      assign (set_phase WaitingAdmission)
  | Admission a =>
      require sender Gateway WaitingAdmission;;
      effective_expiry ← validate_admission a now;
      assign (set_admission (mkAdmissionState (adm_admission_nonce a) effective_expiry false));;
      assign (set_phase WaitingPrepare)
  | Prepare p =>
      guard (negb (bool_decide (sender = Gateway))) WrongSender;;
      guard (bool_decide (phase s = WaitingPrepared)) AdmissionConsumed;;
      guard (negb (bool_decide (phase s = WaitingPrepare))) InvalidPhase;;
      require_live_admission now false;;
      validate_binding (prepare_binding p);;
      a ← expect (admission s);
      assign (set_admission (mkAdmissionState (admission_nonce a)
                (effective_expires_at_unix_millis a) true));;
      assign (set_binding (prepare_binding p));;
      assign (set_phase WaitingPrepared)
  | Prepared p =>
      require sender Runner WaitingPrepared;;
      require_binding (prepared_binding p);;
      r ← expect (ready s);
      guard (negb (String.eqb (sha256_hex (prepared_attested_profile_json p))
                     (prepared_attested_profile_digest p))) AttestedProfileDigestMismatch;;
      debug_assert (negb (is_empty (ready_profile r)));;
      assign (set_preparation_nonce (prepared_preparation_nonce p));;
      assign (set_phase WaitingStart)
  | Start st =>
      require sender Gateway WaitingStart;;
      require_live_admission now true;;
      require_binding (start_binding st);;
      require_preparation_nonce (start_preparation_nonce st);;
      assign set_started;;
      assign (set_phase WaitingResult)
  | Result r =>
      guard (negb (bool_decide (sender = Runner))) WrongSender;;
      guard (negb (bool_decide (phase s = result_phase (result_kind r)))) InvalidPhase;;
      require_binding (result_binding r);;
      require_preparation_nonce (result_preparation_nonce r);;
      assign (set_terminal (mkTerminal (result_disposition (result_kind r)) true));;
      assign (set_phase PhaseTerminal)
  | Heartbeat h =>
      guard (negb (bool_decide (sender = Runner))) WrongSender;;
      require_binding (heartbeat_binding h);;
      accept_heartbeat (heartbeat_phase h)
  | Cancel c =>
      guard (negb (bool_decide (sender = Gateway))) WrongSender;;
      require_binding (cancel_binding c);;
      assign (set_terminal (inconclusive s));;
      assign (set_phase PhaseTerminal)
  | Error e =>
      guard (negb (bool_decide (sender = Runner))) WrongSender;;
      validate_error_binding (error_binding e) (error_preparation_nonce e);;
      assign (set_terminal (inconclusive s));;
      assign (set_phase PhaseTerminal)
  end.

Definition accept (sender : RemoteSessionRole) (frame : RemoteFrame) (now : Z) :
    method RemoteSessionAcceptance :=
  s ← this;
  let sequencer :=
    match sender with Gateway => gateway_sequencer s | Runner => runner_sequencer s end in
  match sequencer_accept sequencer frame now with
  | (Err e, _) => throw (SessionProtocol e)
  | (Ok SeqExactDuplicate, _) =>
      match message frame with
      | Prepared _ | Result _ => throw EvidenceReplay
      | _ => mret ExactDuplicate
      end
  | (Ok SeqAccepted, next_sequencer) =>
      guard (bool_decide (phase s = PhaseTerminal)) SessionTerminal;;
      accept_message sender (message frame) now;;
      assign (set_sequencer sender next_sequencer);;
      mret Accepted
  end.

Definition disconnect (s : RemoteSessionState) : RemoteDisconnectOutcome :=
  match terminal s with
  | Some t =>
      if conclusive_result t then AlreadyConclusive (disposition t)
      else if started s then DisconnectOutcomeUnknown else PreflightNoExecution
  | None => if started s then DisconnectOutcomeUnknown else PreflightNoExecution
  end.

Definition terminal_disposition (s : RemoteSessionState) : option RemoteTerminalDisposition :=
  match terminal s with Some t => Some (disposition t) | None => None end.

End Session.

(** ** Frame by frame

    [step] reads off one accepted message: who may send it, in which phase, what
    it has to match, and the session it leaves. *)

Section Laws.
Context `{Serde} `{Sha2}.

Definition ready_identity (r : ReadyFrame) : ReadyIdentity :=
  mkReadyIdentity (ready_challenge r) (ready_until_unix_millis r) (ready_deployment_epoch r)
    (ready_profile_digest r) (ready_credential_revision r).

(** The admission answers this readiness, and neither has run out. *)
Definition admits (r : ReadyIdentity) (a : AdmissionFrame) (now : Z) : Prop :=
  adm_challenge a = challenge r /\ adm_deployment_epoch a = ready_epoch r
  /\ adm_profile_digest a = ready_profile r
  /\ now < ready_until r /\ now < adm_expires_at_unix_millis a.

Definition deadline (r : ReadyIdentity) (a : AdmissionFrame) (admitted_at : Z) : Z :=
  Z.min (Z.min (ready_until r) (adm_expires_at_unix_millis a))
    (admitted_at + MAX_ADMISSION_TTL_MILLIS).

(** The binding names the deployment that declared itself ready and the run the
    authority was issued for. *)
Definition authorised (authority : Authority.ScheduledPrepareAuthority) (r : ReadyIdentity)
    (b : RunBinding) : Prop :=
  deployment_epoch b = ready_epoch r /\ profile_digest b = ready_profile r
  /\ credential_revision b = ready_credential r
  /\ Authority.matches_remote_binding authority (run_id b) (job_id b) (attempt b)
        (fence_token b) (authority_digest b) = true.

Definition attested (p : PreparedFrame) : Prop :=
  sha256_hex (prepared_attested_profile_json p) = prepared_attested_profile_digest p.

Definition heartbeat_limit (p : SessionPhase) : option Z :=
  match p with
  | WaitingPrepared => Some 0
  | WaitingStart => Some 1
  | WaitingResult => Some 2
  | _ => None
  end.

Definition sequencer_of (role : RemoteSessionRole) (s : RemoteSessionState) :
    RemoteFrameSequencer :=
  match role with Gateway => gateway_sequencer s | Runner => runner_sequencer s end.

Inductive step (s : RemoteSessionState) (now : Z) :
    RemoteSessionRole -> RemoteMessage -> RemoteSessionState -> Prop :=
| step_ready r :
    phase s = WaitingReady ->
    step s now Runner (Ready r) (set_phase WaitingAdmission (set_ready (ready_identity r) s))
| step_admission r a :
    phase s = WaitingAdmission -> ready s = Some r -> admits r a now ->
    step s now Gateway (Admission a)
      (set_phase WaitingPrepare
         (set_admission (mkAdmissionState (adm_admission_nonce a) (deadline r a now) false) s))
| step_prepare r a p :
    phase s = WaitingPrepare -> ready s = Some r -> admission s = Some a ->
    now < effective_expires_at_unix_millis a -> consumed a = false ->
    authorised (expected_authority s) r (prepare_binding p) ->
    step s now Gateway (Prepare p)
      (set_phase WaitingPrepared (set_binding (prepare_binding p)
         (set_admission (mkAdmissionState (admission_nonce a)
            (effective_expires_at_unix_millis a) true) s)))
| step_prepared p :
    phase s = WaitingPrepared -> binding s = Some (prepared_binding p) -> attested p ->
    step s now Runner (Prepared p)
      (set_phase WaitingStart (set_preparation_nonce (prepared_preparation_nonce p) s))
| step_start a st :
    phase s = WaitingStart -> admission s = Some a ->
    now < effective_expires_at_unix_millis a -> consumed a = true ->
    binding s = Some (start_binding st) ->
    preparation_nonce s = Some (start_preparation_nonce st) ->
    step s now Gateway (Start st) (set_phase WaitingResult (set_started s))
| step_result r :
    phase s = result_phase (result_kind r) -> binding s = Some (result_binding r) ->
    preparation_nonce s = Some (result_preparation_nonce r) ->
    step s now Runner (Result r)
      (set_phase PhaseTerminal
         (set_terminal (mkTerminal (result_disposition (result_kind r)) true) s))
| step_heartbeat h limit :
    heartbeat_limit (phase s) = Some limit -> binding s = Some (heartbeat_binding h) ->
    heartbeat_rank (heartbeat_phase h) <= limit ->
    (forall previous, hb_phase s = Some previous ->
       heartbeat_rank previous <= heartbeat_rank (heartbeat_phase h)) ->
    step s now Runner (Heartbeat h) (set_hb_phase (heartbeat_phase h) s)
| step_cancel c :
    binding s = Some (cancel_binding c) ->
    step s now Gateway (Cancel c) (set_phase PhaseTerminal (set_terminal (inconclusive s) s))
| step_error e :
    binding s = error_binding e -> preparation_nonce s = error_preparation_nonce e ->
    step s now Runner (Error e) (set_phase PhaseTerminal (set_terminal (inconclusive s) s)).

Lemma accept_message_spec sender m now s x s' :
  accept_message sender m now s = (x, s') ->
  (x = Returns tt -> step s now sender m s') /\ (x <> Returns tt -> s' = s).
Proof.
  intros Hrun. destruct m;
    unfold accept_message, require, validate_admission, require_live_admission,
      validate_binding, require_binding, require_preparation_nonce, validate_error_binding,
      accept_heartbeat, guard, throw, this, assign, expect, debug_assert in Hrun;
    cbv [mbind method_bind mret method_ret] in Hrun;
    simplify_eq; try done;
    repeat (split_match_in Hrun; simplify_eq; try done); split; intros; try done;
    bool_facts; subst; widths; simplify_eq;
    repeat match goal with
    | E : String.eqb _ _ = true |- _ => apply String.eqb_eq in E
    | E : Bool.eqb _ _ = true |- _ => apply eqb_prop in E
    end.
  all: try (econstructor; (done || congruence); fail).
  all: try (eapply step_prepared; eauto; fail).
  all: try (eapply step_prepare; eauto; done).
  all: try (eapply step_start; eauto; fail).
  all: eapply step_heartbeat;
    [match goal with E : phase _ = _ |- _ => rewrite E; reflexivity end|done|..].
  all: rewrite Z.gtb_ltb in *; bool_facts; try lia; try done.
  all: intros previous Hp; simplify_eq; lia.
Qed.

(** A call on the session, on every branch: what was accepted is a [step] and
    moves only the sender's sequencer; anything else leaves the session as it
    was. *)
Lemma accept_spec sender f now s x s' :
  accept sender f now s = (x, s') ->
  (x = Returns Accepted ->
     phase s <> PhaseTerminal /\ validate_message (message f) now = Ok tt
     /\ exists s1 q, step s now sender (message f) s1 /\ s' = set_sequencer sender q s1
        /\ sequencer_accept (sequencer_of sender s) f now = (Ok SeqAccepted, q))
  /\ (x <> Returns Accepted -> s' = s).
Proof.
  unfold accept. cbv [mbind method_bind mret method_ret this throw guard assign].
  fold (sequencer_of sender s). intros Hrun.
  destruct (sequencer_accept _ f now) as [r q] eqn:Hseq.
  destruct r as [[]|]; [|by destruct (message f); simplify_eq|by simplify_eq].
  destruct (bool_decide (phase s = PhaseTerminal)) eqn:Hterm; [by simplify_eq|].
  destruct (accept_message sender (message f) now s) as [x1 s1] eqn:Hmsg.
  apply accept_message_spec in Hmsg as [Hok Herr].
  destruct x1 as [[]| |]; simplify_eq;
    [|split; [done|intros _; by apply Herr]..].
  split; [intros _|done]. bool_facts. split; [done|]. split.
  2: { eexists _, _. split_and!; [by apply Hok|done..]. }
  unfold sequencer_accept in Hseq. peel Hseq; ok_facts;
    match goal with E : validate_at _ _ = Ok _ |- _ => unfold validate_at in E; peel E end;
    match goal with u : unit |- _ => by destruct u end.
Qed.

(** A frame the session does not accept changes nothing: after an error of
    any kind, from the sequencer, the role and phase checks, the admission, the
    binding or the evidence, and after an exact duplicate, the session is the
    one before the call. *)
Theorem rejected_frame_changes_nothing sender f now s x s' :
  accept sender f now s = (x, s') -> x <> Returns Accepted -> s' = s.
Proof. intros Hrun Hx. by apply accept_spec in Hrun as [_ Herr]; auto. Qed.

End Laws.

(** ** Conversations

    The contract of a session, in terms of nothing but the frames exchanged so
    far: an event is a frame with its sender and the time it was accepted. *)

Definition Event : Type := RemoteSessionRole * RemoteMessage * Z.

(** The first event of some kind. *)
Fixpoint first {A} (f : RemoteMessage -> Z -> option A) (events : list Event) : option A :=
  match events with
  | [] => None
  | (_, m, t) :: rest => match f m t with Some a => Some a | None => first f rest end
  end.

Definition ready_of : list Event -> option ReadyIdentity :=
  first (fun m _ => match m with Ready r => Some (ready_identity r) | _ => None end).
Definition admission_of : list Event -> option (AdmissionFrame * Z) :=
  first (fun m t => match m with Admission a => Some (a, t) | _ => None end).
Definition binding_of : list Event -> option RunBinding :=
  first (fun m _ => match m with Prepare p => Some (prepare_binding p) | _ => None end).
Definition nonce_of : list Event -> option string :=
  first (fun m _ => match m with
    | Prepared p => Some (prepared_preparation_nonce p) | _ => None end).
Definition start_of : list Event -> option StartFrame :=
  first (fun m _ => match m with Start st => Some st | _ => None end).
Definition result_of : list Event -> option ResultFrame :=
  first (fun m _ => match m with Result r => Some r | _ => None end).

Definition is_heartbeat (e : Event) : bool :=
  match e with (_, Heartbeat _, _) => true | _ => false end.

Definition milestones (events : list Event) : list Event :=
  List.filter (fun e => negb (is_heartbeat e)) events.

Section Conversation.
Context `{Serde} `{Sha2}.
Variable authority : Authority.ScheduledPrepareAuthority.

(** The admission given to this conversation has not run out at [t]. *)
Definition live (events : list Event) (t : Z) : Prop :=
  exists r a admitted_at, ready_of events = Some r
    /\ admission_of events = Some (a, admitted_at) /\ t < deadline r a admitted_at.

Inductive Conversation : list Event -> SessionPhase -> Prop :=
| conv_new : Conversation [] WaitingReady
| conv_ready es r t :
    Conversation es WaitingReady ->
    Conversation (es ++ [(Runner, Ready r, t)]) WaitingAdmission
| conv_admission es r a t :
    Conversation es WaitingAdmission -> ready_of es = Some r -> admits r a t ->
    Conversation (es ++ [(Gateway, Admission a, t)]) WaitingPrepare
| conv_prepare es r p t :
    Conversation es WaitingPrepare -> live es t ->
    ready_of es = Some r -> authorised authority r (prepare_binding p) ->
    Conversation (es ++ [(Gateway, Prepare p, t)]) WaitingPrepared
| conv_prepared es p t :
    Conversation es WaitingPrepared ->
    binding_of es = Some (prepared_binding p) -> attested p ->
    Conversation (es ++ [(Runner, Prepared p, t)]) WaitingStart
| conv_start es st t :
    Conversation es WaitingStart -> live es t ->
    binding_of es = Some (start_binding st) ->
    nonce_of es = Some (start_preparation_nonce st) ->
    Conversation (es ++ [(Gateway, Start st, t)]) WaitingResult
| conv_result es r t :
    Conversation es (result_phase (result_kind r)) ->
    binding_of es = Some (result_binding r) ->
    nonce_of es = Some (result_preparation_nonce r) ->
    Conversation (es ++ [(Runner, Result r, t)]) PhaseTerminal
| conv_cancel es ph c t :
    Conversation es ph -> ph <> PhaseTerminal ->
    binding_of es = Some (cancel_binding c) ->
    Conversation (es ++ [(Gateway, Cancel c, t)]) PhaseTerminal
| conv_error es ph e t :
    Conversation es ph -> ph <> PhaseTerminal ->
    binding_of es = error_binding e -> nonce_of es = error_preparation_nonce e ->
    Conversation (es ++ [(Runner, Error e, t)]) PhaseTerminal.

(** The milestones a phase other than the last has seen, in order. *)
Definition shape (es : list Event) (ph : SessionPhase) : Prop :=
  match ph with
  | WaitingReady => es = []
  | WaitingAdmission => exists r tr, es = [(Runner, Ready r, tr)]
  | WaitingPrepare => exists r tr a ta, es = [(Runner, Ready r, tr); (Gateway, Admission a, ta)]
  | WaitingPrepared => exists r tr a ta p tp,
      es = [(Runner, Ready r, tr); (Gateway, Admission a, ta); (Gateway, Prepare p, tp)]
  | WaitingStart => exists r tr a ta p tp d td,
      es = [(Runner, Ready r, tr); (Gateway, Admission a, ta); (Gateway, Prepare p, tp);
            (Runner, Prepared d, td)]
  | WaitingResult => exists r tr a ta p tp d td st ts,
      es = [(Runner, Ready r, tr); (Gateway, Admission a, ta); (Gateway, Prepare p, tp);
            (Runner, Prepared d, td); (Gateway, Start st, ts)]
  | PhaseTerminal => True
  end.

Lemma conversation_shape es ph : Conversation es ph -> shape es ph.
Proof.
  intros Hc. induction Hc; cbn [shape] in *; try done; naive_solver.
Qed.

End Conversation.

Section Refinement.
Context `{Serde} `{Sha2}.

Definition admission_view (es : list Event) : option AdmissionState :=
  match ready_of es, admission_of es with
  | Some r, Some (a, admitted_at) =>
      Some (mkAdmissionState (adm_admission_nonce a) (deadline r a admitted_at)
              (bool_decide (is_Some (binding_of es))))
  | _, _ => None
  end.

Definition started_view (es : list Event) : bool := bool_decide (is_Some (start_of es)).

Definition terminal_view (es : list Event) : TerminalState :=
  match result_of es with
  | Some r => mkTerminal (result_disposition (result_kind r)) true
  | None =>
      mkTerminal (if started_view es then DispOutcomeUnknown else DispFailedBeforeStart) false
  end.

(** Every field of the session is a function of the frames exchanged. *)
Record explains (s : RemoteSessionState) (es : list Event) : Prop := {
  explains_phase : Conversation (expected_authority s) es (phase s);
  explains_ready : ready s = ready_of es;
  explains_admission : admission s = admission_view es;
  explains_binding : binding s = binding_of es;
  explains_nonce : preparation_nonce s = nonce_of es;
  explains_started : started s = started_view es;
  explains_terminal : terminal s =
    if bool_decide (phase s = PhaseTerminal) then Some (terminal_view es) else None;
  explains_no_result : phase s <> PhaseTerminal -> result_of es = None;
  explains_valid : Forall (fun '(_, m, t) => validate_message m t = Ok tt) es
}.

Lemma first_app {A} (f : RemoteMessage -> Z -> option A) es es' :
  first f (es ++ es') = match first f es with Some a => Some a | None => first f es' end.
Proof. induction es as [|[[? m] t] es IH]; [done|]. cbn. by destruct (f m t). Qed.

Lemma explains_sequencer sender q s es : explains s es -> explains (set_sequencer sender q s) es.
Proof. destruct sender; by intros []; constructor. Qed.

(** The last event ends the conversation and is not a milestone of the others. *)
Definition ending (m : RemoteMessage) : bool :=
  match m with Result _ | Cancel _ | Error _ => true | _ => false end.

Lemma explains_end s es sender m now t :
  explains s es -> ending m = true -> phase s <> PhaseTerminal ->
  validate_message m now = Ok tt ->
  Conversation (expected_authority s) (es ++ [(sender, m, now)]) PhaseTerminal ->
  t = terminal_view (es ++ [(sender, m, now)]) ->
  explains (set_phase PhaseTerminal (set_terminal t s)) (es ++ [(sender, m, now)]).
Proof.
  intros [] Hend Hph Hvalid Hconv ->.
  assert (Hsame : forall A (f : RemoteMessage -> Z -> option A), f m now = None ->
            first f (es ++ [(sender, m, now)]) = first f es).
  { intros A f Hf. rewrite first_app. cbn. rewrite Hf. by destruct (first f es). }
  assert (Hviews : ready_of (es ++ [(sender, m, now)]) = ready_of es
    /\ admission_of (es ++ [(sender, m, now)]) = admission_of es
    /\ binding_of (es ++ [(sender, m, now)]) = binding_of es
    /\ nonce_of (es ++ [(sender, m, now)]) = nonce_of es
    /\ start_of (es ++ [(sender, m, now)]) = start_of es)
    by (split_and!; apply Hsame; by destruct m).
  destruct Hviews as (Hr & Ha & Hb & Hn & Hs).
  constructor; cbn; unfold admission_view, started_view in *; rewrite ?Hr, ?Ha, ?Hb, ?Hn, ?Hs;
    try done. apply Forall_app. by repeat constructor.
Qed.

(** The conversation so far, written out, from the phase the session is in. *)
Ltac known_shape :=
  match goal with E : phase ?s = _, X : explains ?s ?es |- _ =>
    let Hs := fresh "Hshape" in
    pose proof (conversation_shape _ _ _ (explains_phase _ _ X)) as Hs;
    rewrite E in Hs; cbn [shape] in Hs;
    repeat match type of Hs with exists _, _ => destruct Hs as [? Hs] end; subst es
  end.

Lemma step_live s es now :
  explains s es -> forall a, admission s = Some a ->
  now < effective_expires_at_unix_millis a -> live es now.
Proof.
  intros X a Ha Hnow. rewrite (explains_admission _ _ X) in Ha. unfold admission_view in Ha.
  peel Ha. unfold live. cbn in Hnow. eauto 10.
Qed.

(** A step extends the conversation. *)
Lemma step_conversation s es now sender m s' :
  explains s es -> phase s <> PhaseTerminal -> step s now sender m s' ->
  is_heartbeat (sender, m, now) = false ->
  Conversation (expected_authority s) (es ++ [(sender, m, now)]) (phase s').
Proof.
  intros X Hph Hstep Hm. pose proof (explains_phase _ _ X) as Hc.
  pose proof (step_live s es now X) as Hlive.
  pose proof (explains_ready _ _ X) as Hr. pose proof (explains_binding _ _ X) as Hb.
  pose proof (explains_nonce _ _ X) as Hn.
  destruct Hstep; cbn [phase set_phase]; try done;
    repeat match goal with E : phase s = _ |- _ => rewrite E in Hc; clear E end.
  - by apply conv_ready.
  - eapply conv_admission; [done|by rewrite <- Hr|done].
  - eapply conv_prepare; [done|by eapply Hlive|by rewrite <- Hr|done].
  - apply conv_prepared; [done|congruence|done].
  - apply conv_start; [done|by eapply Hlive|congruence|congruence].
  - apply conv_result; [done|congruence|congruence].
  - eapply conv_cancel; [done|done|congruence].
  - eapply conv_error; [done|done|congruence|congruence].
Qed.

Lemma step_explains s es now sender m s' :
  explains s es -> phase s <> PhaseTerminal -> validate_message m now = Ok tt ->
  step s now sender m s' -> is_heartbeat (sender, m, now) = false ->
  explains s' (es ++ [(sender, m, now)]).
Proof.
  intros X Hph Hvalid Hstep Hm. pose proof (step_conversation _ _ _ _ _ _ X Hph Hstep Hm) as Hc.
  assert (Hall : Forall (fun '(_, m, t) => validate_message m t = Ok tt)
                   (es ++ [(sender, m, now)])).
  { apply Forall_app. split; [apply (explains_valid _ _ X)|by repeat constructor]. }
  assert (Hterm : terminal s = None).
  { rewrite (explains_terminal _ _ X). by rewrite bool_decide_eq_false_2. }
  assert (Hend : forall m', result_of [(sender, m', now)] = None ->
            terminal_view (es ++ [(sender, m', now)])
            = mkTerminal (if started_view (es ++ [(sender, m', now)])
                          then DispOutcomeUnknown else DispFailedBeforeStart) false).
  { intros m' Hm'. unfold terminal_view, result_of in *.
    rewrite first_app, Hm'. by rewrite (explains_no_result _ _ X Hph : first _ es = None). }
  destruct Hstep; try done.
  1-5: known_shape; destruct X; constructor; cbn in *; try done; try congruence.
  - rewrite explains_admission0 in *. by simplify_eq.
  - apply explains_end; try done. unfold terminal_view, result_of.
    rewrite first_app. by rewrite (explains_no_result _ _ X Hph : first _ es = None).
  - apply explains_end; try done. rewrite Hend by done. unfold inconclusive.
    rewrite (explains_started _ _ X). unfold started_view, start_of. rewrite first_app. cbn.
    by destruct (first _ es).
  - apply explains_end; try done. rewrite Hend by done. unfold inconclusive.
    rewrite (explains_started _ _ X). unfold started_view, start_of. rewrite first_app. cbn.
    by destruct (first _ es).
Qed.

Lemma heartbeat_explains s es now sender h s' :
  explains s es -> step s now sender (Heartbeat h) s' -> explains s' es.
Proof. intros [] Hstep. inversion Hstep; subst. by constructor. Qed.

(** ** Runs *)

(** Feeding a session a series of frames: the events it accepted and the session
    it ends in. *)
Fixpoint session_run (s : RemoteSessionState)
    (input : list (RemoteSessionRole * RemoteFrame * Z)) : list Event * RemoteSessionState :=
  match input with
  | [] => ([], s)
  | (sender, f, now) :: rest =>
      let '(x, s1) := accept sender f now s in
      let '(es, s2) := session_run s1 rest in
      (match x with Returns Accepted => (sender, message f, now) :: es | _ => es end, s2)
  end.

Lemma milestones_app es es' : milestones (es ++ es') = milestones es ++ milestones es'.
Proof. apply List.filter_app. Qed.

Lemma accept_explains s es sender f now x s' :
  explains s (milestones es) -> accept sender f now s = (x, s') ->
  explains s' (milestones (es ++ match x with
    | Returns Accepted => [(sender, message f, now)] | _ => [] end))
  /\ expected_authority s' = expected_authority s.
Proof.
  intros X Hacc. apply accept_spec in Hacc as [Hok Herr].
  assert (Hcase : x = Returns Accepted \/ x <> Returns Accepted)
    by (destruct x as [[]| |]; auto).
  destruct Hcase as [->|Hx].
  - destruct Hok as (Hph & Hvalid & s1 & q & Hstep & -> & _); [done|].
    split; [|by destruct Hstep].
    apply explains_sequencer. rewrite milestones_app.
    destruct (is_heartbeat (sender, message f, now)) eqn:Hh.
    + unfold milestones at 2. cbn [List.filter]. rewrite Hh. cbn [negb]. rewrite app_nil_r.
      destruct (message f); try done. by eapply heartbeat_explains.
    + unfold milestones at 2. cbn [List.filter]. rewrite Hh. cbn [negb].
      by eapply step_explains.
  - rewrite (Herr Hx). split; [|done].
    replace (match x with Returns Accepted => _ | _ => _ end) with (@nil Event)
      by (by destruct x as [[]| |]). by rewrite app_nil_r.
Qed.

Lemma session_run_explains input s es0 es s' :
  explains s (milestones es0) -> session_run s input = (es, s') ->
  explains s' (milestones (es0 ++ es)) /\ expected_authority s' = expected_authority s.
Proof.
  revert s es0 es. induction input as [|[[sender f] now] input IH]; intros s es0 es X Hrun.
  { cbn in Hrun. simplify_eq. by rewrite app_nil_r. }
  cbn in Hrun. destruct (accept sender f now s) as [x s1] eqn:Hacc.
  destruct (session_run s1 input) as [es1 s2] eqn:Hrun1. simplify_eq.
  destruct (accept_explains _ _ _ _ _ _ _ X Hacc) as [X1 Hauth].
  destruct (IH _ _ _ X1 Hrun1) as [X2 Hauth2]. split; [|congruence].
  rewrite <- app_assoc in X2. by destruct x as [[]| |].
Qed.

Lemma new_explains nonce authority s :
  new nonce authority = Ok s -> explains s (milestones []) /\ expected_authority s = authority.
Proof.
  unfold new. intros Hnew. peel Hnew. split; [|done]. constructor; cbn; try done. constructor.
Qed.

(** A session reached from a new one by any input. *)
Definition reaches (nonce : string) (authority : Authority.ScheduledPrepareAuthority)
    (input : list (RemoteSessionRole * RemoteFrame * Z)) (es : list Event)
    (s : RemoteSessionState) : Prop :=
  exists s0, new nonce authority = Ok s0 /\ session_run s0 input = (es, s).

Lemma reaches_explains nonce authority input es s :
  reaches nonce authority input es s ->
  explains s (milestones es) /\ expected_authority s = authority.
Proof.
  intros (s0 & [X Hauth]%new_explains & Hrun).
  destruct (session_run_explains _ _ _ _ _ X Hrun). split; [done|congruence].
Qed.

(** ** Every frame *)

(** The phase of the last heartbeat. *)
Definition last_beat (es : list Event) : option RemoteHeartbeatPhase :=
  last (omap (fun e => match e with
    | (_, Heartbeat h, _) => Some (heartbeat_phase h) | _ => None end) es).

(** A conversation with its heartbeats: the runner's, for the bound run, none
    ahead of the phase and none behind the one before. *)
Inductive Exchange (authority : Authority.ScheduledPrepareAuthority) :
    list Event -> SessionPhase -> Prop :=
| exchange_new : Exchange authority [] WaitingReady
| exchange_milestone es ph e ph' :
    Exchange authority es ph -> is_heartbeat e = false ->
    Conversation authority (milestones (es ++ [e])) ph' ->
    Exchange authority (es ++ [e]) ph'
| exchange_beat es ph h t limit :
    Exchange authority es ph -> heartbeat_limit ph = Some limit ->
    binding_of (milestones es) = Some (heartbeat_binding h) ->
    heartbeat_rank (heartbeat_phase h) <= limit ->
    (forall previous, last_beat es = Some previous ->
       heartbeat_rank previous <= heartbeat_rank (heartbeat_phase h)) ->
    Exchange authority (es ++ [(Runner, Heartbeat h, t)]) ph.

(** A frame on the wire with its sender and time, as an event. *)
Definition event_of (x : RemoteSessionRole * RemoteFrame * Z) : Event :=
  let '(sender, f, now) := x in (sender, message f, now).

Definition sent (role : RemoteSessionRole) (frames : list (RemoteSessionRole * RemoteFrame * Z)) :
    list RemoteFrame :=
  omap (fun '(sender, f, _) => if bool_decide (sender = role) then Some f else None) frames.

(** The frames of one side carry the session's nonce and the numbers 1, 2, 3, ...
    in 64 bits, and its sequencer holds the last of them. *)
Record numbered (nonce : string) (fs : list RemoteFrame) (q : RemoteFrameSequencer) : Prop := {
  nb_numbers : map sequence fs = seqZ 1 (Z.of_nat (length fs));
  nb_nonce : Forall (fun f => session_nonce f = nonce) fs;
  nb_bounded : Z.of_nat (length fs) <= u64_max;
  nb_sequencer : q = mkSequencer nonce (last fs)
}.

Record tracks (nonce : string) (s : RemoteSessionState)
    (frames : list (RemoteSessionRole * RemoteFrame * Z)) : Prop := {
  tr_explains : explains s (milestones (map event_of frames));
  tr_exchange : Exchange (expected_authority s) (map event_of frames) (phase s);
  tr_beat : hb_phase s = last_beat (map event_of frames);
  tr_numbered role : numbered nonce (sent role frames) (sequencer_of role s)
}.

Lemma numbered_last nonce fs q : numbered nonce fs q -> last_sequence q = Z.of_nat (length fs).
Proof.
  intros [Hn _ _ ->]. unfold last_sequence. cbn.
  destruct fs as [|f fs _] using rev_ind; [done|]. rewrite last_snoc.
  rewrite length_app in *. rewrite map_app in Hn. cbn in *.
  rewrite Nat2Z.inj_add, seqZ_app in Hn by lia.
  apply app_inj_tail in Hn as [_ Hn]. rewrite Hn. cbn. lia.
Qed.

Lemma numbered_accept nonce fs q f now q' :
  numbered nonce fs q -> sequencer_accept q f now = (Ok SeqAccepted, q') ->
  numbered nonce (fs ++ [f]) q'.
Proof.
  intros Hn Hacc. pose proof (numbered_last _ _ _ Hn) as Hlast. destruct Hn as [Hs Hall Hb ->].
  apply sequencer_accept_spec in Hacc as (Hnonce & Hok & _); [|lia].
  destruct (Hok eq_refl) as (_ & Hf & Hseq & Hmax & Hq). rewrite Hlast in Hseq.
  split.
  - rewrite map_app, length_app, Nat2Z.inj_add, seqZ_app, Hs by lia. cbn [map].
    rewrite Hseq. f_equal. unfold seqZ. change (Z.to_nat (Z.of_nat (length [f]))) with 1%nat.
    cbn. f_equal. lia.
  - apply Forall_app. by repeat constructor.
  - rewrite length_app. cbn. lia.
  - rewrite last_snoc. destruct q'; cbn in *. congruence.
Qed.

Lemma last_beat_app es e :
  last_beat (es ++ [e]) = match e with
    | (_, Heartbeat h, _) => Some (heartbeat_phase h) | _ => last_beat es end.
Proof.
  unfold last_beat. rewrite omap_app. destruct e as [[r m] t].
  destruct m; cbn; rewrite ?app_nil_r, ?last_snoc; done.
Qed.

Lemma sent_app role frames x :
  sent role (frames ++ [x])
  = sent role frames ++ if bool_decide (x.1.1 = role) then [x.1.2] else [].
Proof.
  unfold sent. rewrite omap_app. destruct x as [[r f] t]. cbn. by case_bool_decide.
Qed.

Lemma step_exchange authority s now sender m s' es :
  expected_authority s = authority -> step s now sender m s' -> explains s (milestones es) ->
  explains s' (milestones (es ++ [(sender, m, now)])) ->
  Exchange authority es (phase s) -> hb_phase s = last_beat es ->
  Exchange authority (es ++ [(sender, m, now)]) (phase s')
  /\ hb_phase s' = last_beat (es ++ [(sender, m, now)]).
Proof.
  intros <- Hstep X X' Hex Hbeat. rewrite last_beat_app.
  assert (expected_authority s' = expected_authority s) as Hauth by (by destruct Hstep).
  pose proof (explains_phase _ _ X') as Hc. rewrite Hauth in Hc.
  assert (is_heartbeat (sender, m, now) = false ->
          Exchange (expected_authority s) (es ++ [(sender, m, now)]) (phase s')) as Hmile.
  { intros Hm. by eapply exchange_milestone. }
  destruct Hstep; (split; [|done]); try (by apply Hmile). cbn.
  eapply exchange_beat; [done|done| |done|].
  - by rewrite <- (explains_binding _ _ X).
  - by rewrite <- Hbeat.
Qed.

Lemma accept_tracks nonce s frames sender f now x s' :
  tracks nonce s frames -> accept sender f now s = (x, s') ->
  tracks nonce s' (frames ++ match x with
    | Returns Accepted => [(sender, f, now)] | _ => [] end)
  /\ expected_authority s' = expected_authority s.
Proof.
  intros [X Hex Hbeat Hnum] Hacc.
  pose proof (accept_explains _ _ _ _ _ _ _ X Hacc) as [X' Hauth]. split; [|done].
  apply accept_spec in Hacc as [Hok Herr].
  assert (x = Returns Accepted \/ x <> Returns Accepted) as [->|Hx]
    by (destruct x as [[]| |]; auto).
  - destruct Hok as (_ & _ & s1 & q & Hstep & -> & Hseq); [done|].
    assert (sequencer_of sender s1 = sequencer_of sender s
            /\ forall role, sequencer_of role s1 = sequencer_of role s) as [_ Hsame]
      by (split; [by destruct Hstep|]; intros; by destruct Hstep).
    destruct (step_exchange _ _ _ _ _ _ (map event_of frames) eq_refl Hstep X) as [Hex' Hbeat'];
      [|done|done|].
    { destruct X'. destruct sender; by constructor. }
    split.
    + by rewrite map_app.
    + rewrite map_app. rewrite Hauth. by destruct sender.
    + rewrite map_app. by destruct sender.
    + intros role. rewrite sent_app. cbn. case_bool_decide as Hr.
      * subst role. replace (sequencer_of sender (set_sequencer sender q s1)) with q
          by (by destruct sender). by eapply numbered_accept.
      * rewrite app_nil_r.
        replace (sequencer_of role (set_sequencer sender q s1)) with (sequencer_of role s1)
          by (by destruct sender, role). by rewrite Hsame.
  - rewrite (Herr Hx). replace (match x with Returns Accepted => _ | _ => _ end)
      with (@nil (RemoteSessionRole * RemoteFrame * Z)) by (by destruct x as [[]| |]).
    by rewrite app_nil_r.
Qed.

Lemma session_run_tracks nonce input s frames es s' :
  tracks nonce s frames -> session_run s input = (es, s') ->
  exists accepted, accepted `sublist_of` input /\ es = map event_of accepted
    /\ tracks nonce s' (frames ++ accepted) /\ expected_authority s' = expected_authority s.
Proof.
  revert s frames es. induction input as [|[[sender f] now] input IH]; intros s frames es T Hrun.
  { cbn in Hrun. simplify_eq. exists []. by rewrite app_nil_r. }
  cbn in Hrun. destruct (accept sender f now s) as [x s1] eqn:Hacc.
  destruct (session_run s1 input) as [es1 s2] eqn:Hrun1. simplify_eq.
  destruct (accept_tracks _ _ _ _ _ _ _ _ T Hacc) as [T1 Hauth].
  destruct (IH _ _ _ T1 Hrun1) as (accepted & Hsub & -> & T2 & Hauth2).
  rewrite <- app_assoc in T2.
  exists (match x with Returns Accepted => [(sender, f, now)] | _ => [] end ++ accepted).
  split_and!; [| |done|congruence].
  - destruct x as [[]| |]; cbn; by constructor.
  - by destruct x as [[]| |].
Qed.

Lemma reaches_tracks nonce authority input es s :
  reaches nonce authority input es s ->
  exists frames, frames `sublist_of` input /\ es = map event_of frames
    /\ tracks nonce s frames /\ expected_authority s = authority.
Proof.
  intros (s0 & Hnew & Hrun).
  assert (tracks nonce s0 [] /\ expected_authority s0 = authority) as [T Hauth].
  { pose proof (new_explains _ _ _ Hnew) as [X Hauth]. split; [clear Hauth|done].
    unfold new, sequencer_new in Hnew. peel Hnew. cbn in Heqr0. simplify_eq.
    split; [done|cbn; constructor|done|].
    intros []; by split. }
  destruct (session_run_tracks _ _ _ _ _ _ T Hrun) as (frames & Hsub & Hes & T' & Ha).
  exists frames. split_and!; [done|done|done|congruence].
Qed.

(** C28. A session accepts nothing but a conversation, and remembers nothing else:
    whatever the two sides send, in whatever order and however often, the frames
    accepted form an exchange in the session's phase (a conversation, with the
    runner's heartbeats in between, none ahead of the phase and none going back);
    every field of the session (readiness, admission, binding, preparation nonce,
    last heartbeat, whether the run was started, how it ended) is what the
    exchange says; and the accepted frames of each side carry the session's nonce
    and the numbers 1, 2, 3, ..., the last of them in that side's sequencer. *)
Theorem session_refines_conversation nonce authority input es s :
  reaches nonce authority input es s ->
  expected_authority s = authority
  /\ Conversation authority (milestones es) (phase s) /\ Exchange authority es (phase s)
  /\ ready s = ready_of (milestones es) /\ admission s = admission_view (milestones es)
  /\ binding s = binding_of (milestones es) /\ preparation_nonce s = nonce_of (milestones es)
  /\ hb_phase s = last_beat es
  /\ started s = started_view (milestones es)
  /\ terminal s = (if bool_decide (phase s = PhaseTerminal)
                   then Some (terminal_view (milestones es)) else None)
  /\ exists frames, frames `sublist_of` input /\ es = map event_of frames
     /\ numbered nonce (sent Gateway frames) (gateway_sequencer s)
     /\ numbered nonce (sent Runner frames) (runner_sequencer s).
Proof.
  intros (frames & Hsub & -> & [[] Hex Hbeat Hnum] & <-)%reaches_tracks.
  split_and!; try done. exists frames. split_and!; [done|done| |].
  - exact (Hnum Gateway).
  - exact (Hnum Runner).
Qed.

(** ** What a conversation has established *)

(** The five frames of a started run and what ties them together. *)
Record started_run (authority : Authority.ScheduledPrepareAuthority)
    (r : ReadyFrame) (a : AdmissionFrame) (ta : Z) (p : PrepareFrame) (tp : Z)
    (d : PreparedFrame) (st : StartFrame) (ts : Z) : Prop := {
  run_admitted : admits (ready_identity r) a ta;
  run_authorised : authorised authority (ready_identity r) (prepare_binding p);
  run_prepared_in_time : tp < deadline (ready_identity r) a ta;
  run_same_binding :
    prepared_binding d = prepare_binding p /\ start_binding st = prepare_binding p;
  run_same_nonce : start_preparation_nonce st = prepared_preparation_nonce d;
  run_attested : attested d;
  run_started_in_time : ts < deadline (ready_identity r) a ta
}.

Definition facts (authority : Authority.ScheduledPrepareAuthority) (es : list Event)
    (ph : SessionPhase) : Prop :=
  match ph with
  | WaitingPrepare => exists r tr a ta,
      es = [(Runner, Ready r, tr); (Gateway, Admission a, ta)] /\ admits (ready_identity r) a ta
  | WaitingPrepared => exists r tr a ta p tp,
      es = [(Runner, Ready r, tr); (Gateway, Admission a, ta); (Gateway, Prepare p, tp)]
      /\ admits (ready_identity r) a ta
      /\ authorised authority (ready_identity r) (prepare_binding p)
      /\ tp < deadline (ready_identity r) a ta
  | WaitingStart => exists r tr a ta p tp d td,
      es = [(Runner, Ready r, tr); (Gateway, Admission a, ta); (Gateway, Prepare p, tp);
            (Runner, Prepared d, td)]
      /\ admits (ready_identity r) a ta
      /\ authorised authority (ready_identity r) (prepare_binding p)
      /\ tp < deadline (ready_identity r) a ta
      /\ prepared_binding d = prepare_binding p /\ attested d
  | WaitingResult => exists r tr a ta p tp d td st ts,
      es = [(Runner, Ready r, tr); (Gateway, Admission a, ta); (Gateway, Prepare p, tp);
            (Runner, Prepared d, td); (Gateway, Start st, ts)]
      /\ started_run authority r a ta p tp d st ts
  | PhaseTerminal => start_of es <> None ->
      exists r tr a ta p tp d td st ts rest,
      es = [(Runner, Ready r, tr); (Gateway, Admission a, ta); (Gateway, Prepare p, tp);
            (Runner, Prepared d, td); (Gateway, Start st, ts)] ++ rest
      /\ started_run authority r a ta p tp d st ts
  | _ => shape es ph
  end.

Lemma live_inv r tr a ta rest t :
  live ((Runner, Ready r, tr) :: (Gateway, Admission a, ta) :: rest) t ->
  t < deadline (ready_identity r) a ta.
Proof. intros (r' & a' & ta' & Hr & Ha & Hlt). cbn in *. by simplify_eq. Qed.

(** An event after a start keeps it in place; an ending before one is not it. *)
Lemma facts_end authority es ph e :
  facts authority es ph -> ph <> PhaseTerminal ->
  (forall st, e.1.2 <> Start st) -> facts authority (es ++ [e]) PhaseTerminal.
Proof.
  intros Hf Hph Hne. cbn [facts]. unfold start_of at 1. rewrite first_app.
  destruct e as [[snd m] t]. cbn in *.
  assert (Hm : match m with Start st => Some st | _ => None end = None)
    by (destruct m; try done; by destruct (Hne start)).
  rewrite Hm. intros Hst.
  destruct ph; cbn [facts shape] in Hf; try (exfalso; apply Hst; naive_solver); [].
  destruct Hf as (r & tr & a & ta & p & tp & d & td & st & ts & -> & Hrun).
  by exists r, tr, a, ta, p, tp, d, td, st, ts, [(snd, m, t)].
Qed.

Lemma conversation_facts authority es ph :
  Conversation authority es ph -> facts authority es ph.
Proof.
  intros Hc. induction Hc as
    [|es r t Hc IH|es r a t Hc IH Hr Hadm|es r p t Hc IH Hlive Hr Hauth|es p t Hc IH Hb Hatt
    |es st t Hc IH Hlive Hb Hn|es r t Hc IH Hb Hn|es ph c t Hc IH Hph Hb
    |es ph e t Hc IH Hph Hb Hn].
  - done.
  - cbn [facts shape] in *. subst. by eexists _, _.
  - cbn [facts shape] in *. destruct IH as (r' & tr & ->). cbn in Hr. simplify_eq.
    by eexists _, _, _, _.
  - destruct IH as (r' & tr & a & ta & -> & Hadm). cbn in Hr. simplify_eq.
    apply live_inv in Hlive. eexists _, _, _, _, _, _. by split_and!.
  - destruct IH as (r & tr & a & ta & p' & tp & -> & ? & ? & ?). cbn in Hb.
    eexists _, _, _, _, _, _, _, _. split_and!; try done. congruence.
  - destruct IH as (r & tr & a & ta & p & tp & d & td & -> & ? & ? & ? & ? & ?).
    apply live_inv in Hlive. cbn in Hb, Hn.
    eexists _, _, _, _, _, _, _, _, _, _. split; [done|]. constructor; try done; try congruence.
    split; congruence.
  - eapply facts_end; [exact IH|by destruct (result_kind r)|done].
  - by eapply facts_end.
  - by eapply facts_end.
Qed.

(** C27. Nothing is started without its authority: if a session has been started,
    the frames that led to it were, in this order, the runner's readiness, the
    gateway's admission of that readiness, a prepare whose binding the authority
    was issued for and the readiness covers, the runner's attested prepared
    frame and the gateway's start, all three with one binding, the last two with
    one nonce, and both the prepare and the start came before the earliest of
    the readiness expiry, the admission expiry and thirty seconds after the
    admission. *)
Theorem start_requires_authority nonce authority input es s :
  reaches nonce authority input es s -> started s = true ->
  exists r tr a ta p tp d td st ts rest,
    milestones es
    = [(Runner, Ready r, tr); (Gateway, Admission a, ta); (Gateway, Prepare p, tp);
       (Runner, Prepared d, td); (Gateway, Start st, ts)] ++ rest
    /\ started_run authority r a ta p tp d st ts.
Proof.
  intros [X <-]%reaches_explains Hs. rewrite (explains_started _ _ X) in Hs.
  unfold started_view in Hs. bool_facts. destruct Hs as [st0 Hst0].
  pose proof (conversation_facts _ _ _ (explains_phase _ _ X)) as Hf.
  destruct (phase s); cbn [facts shape] in Hf.
  7:{ apply Hf. congruence. }
  6:{ destruct Hf as (r & tr & a & ta & p & tp & d & td & st & ts & -> & Hrun).
      by exists r, tr, a, ta, p, tp, d, td, st, ts, []. }
  all: exfalso; repeat match type of Hf with exists _, _ => destruct Hf as [? Hf] end;
    lazymatch type of Hf with _ /\ _ => destruct Hf as [Hf _] | _ => idtac end;
    by rewrite Hf in Hst0.
Qed.

(** ** No reachable panic *)

Lemma require_hex_nonempty field value :
  require_hex field value 64 = Ok tt -> is_empty value = false.
Proof. unfold require_hex, len. destruct value; [by cbn|done]. Qed.

Lemma ready_of_valid es r :
  Forall (fun '(_, m, t) => validate_message m t = Ok tt) es ->
  ready_of es = Some r -> is_empty (ready_profile r) = false.
Proof.
  induction es as [|[[snd m] t] es IH]; [done|]. intros [Hm Hes]%Forall_cons_1.
  unfold ready_of. cbn [first]. destruct m; try by apply IH.
  intros [= <-]. cbn in *. unfold validate_ready in Hm. peel Hm.
  repeat match goal with u : unit |- _ => destruct u end. by eapply require_hex_nonempty.
Qed.

Lemma admission_of_valid es a t :
  Forall (fun '(_, m, t) => validate_message m t = Ok tt) es ->
  admission_of es = Some (a, t) -> is_empty (adm_admission_nonce a) = false.
Proof.
  induction es as [|[[snd m] t'] es IH]; [done|]. intros [Hm Hes]%Forall_cons_1.
  unfold admission_of. cbn [first]. destruct m; try by apply IH.
  intros [= <- <-]. cbn in *. unfold validate_admission_frame in Hm. peel Hm.
  repeat match goal with u : unit |- _ => destruct u end. by eapply require_hex_nonempty.
Qed.

Definition admission_awaited (ph : SessionPhase) : bool :=
  match ph with WaitingReady | WaitingAdmission | PhaseTerminal => false | _ => true end.

Lemma awaited_fields s es :
  explains s es -> phase s <> PhaseTerminal ->
  (phase s <> WaitingReady -> exists r, ready s = Some r /\ is_empty (ready_profile r) = false)
  /\ (admission_awaited (phase s) = true ->
      exists a, admission s = Some a /\ is_empty (admission_nonce a) = false).
Proof.
  intros X Hph. pose proof (conversation_shape _ _ _ (explains_phase _ _ X)) as Hshape.
  pose proof (ready_of_valid es) as Hr. pose proof (admission_of_valid es) as Ha.
  destruct X as [_ Hready Hadm _ _ _ _ _ Hvalid]. rewrite Hready, Hadm. unfold admission_view.
  destruct (phase s); cbn [shape] in Hshape; try done;
    repeat match type of Hshape with exists _, _ => destruct Hshape as [? Hshape] end;
    subst es; cbn in *; split; try done; intros _; eexists; (split; [done|]);
    first [by eapply Hr | by eapply Ha].
Qed.

(** The session never panics: on every session the two sides can reach,
    every call returns or reports an error.  None of its [expect]s and
    [debug_assert]s can fire. *)
Theorem session_never_panics nonce authority input es s sender f now :
  reaches nonce authority input es s -> (accept sender f now s).1 <> Panics.
Proof.
  intros [X _]%reaches_explains.
  unfold accept. cbv [mbind method_bind mret method_ret this throw guard assign].
  destruct (sequencer_accept _ f now) as [[[]|] q]; [|by destruct (message f)|done].
  destruct (bool_decide (phase s = PhaseTerminal)) eqn:Hterm; [done|]. bool_facts.
  destruct (awaited_fields _ _ X Hterm) as [Hready Hadm].
  destruct (accept_message sender (message f) now s) as [x s1] eqn:Hmsg.
  destruct x; cbn; try done. exfalso.
  destruct (message f);
    unfold accept_message, require, validate_admission, require_live_admission,
      validate_binding, require_binding, require_preparation_nonce, validate_error_binding,
      accept_heartbeat, guard, throw, this, assign, expect, debug_assert in Hmsg;
    cbv [mbind method_bind mret method_ret] in Hmsg;
    simplify_eq; try done;
    repeat (split_match_in Hmsg; simplify_eq; try done); bool_facts;
    match goal with E : phase _ = _ |- _ => rewrite E in Hready, Hadm end;
    first [ destruct Hready as (? & ? & ?); [done|congruence]
          | destruct Hadm as (? & ? & ?); [done|congruence] ].
Qed.

(** ** Disconnects *)

(** A conversation's result agrees with whether it was started. *)
Lemma result_start es authority ph r :
  Conversation authority es ph -> result_of es = Some r ->
  start_of es = None <-> result_kind r = FailedBeforeStart.
Proof.
  assert (Hno : forall es ph, Conversation authority es ph -> ph <> PhaseTerminal ->
            result_of es = None).
  { intros es' ph' Hc Hph. pose proof (conversation_shape _ _ _ Hc) as Hs.
    destruct ph'; cbn [shape] in Hs; try done;
      repeat match type of Hs with exists _, _ => destruct Hs as [? Hs] end; by subst. }
  intros Hc Hr. destruct ph; try (by rewrite (Hno _ _ Hc) in Hr); [].
  inversion Hc as [| | | | | |es' r' t Hc' Hb Hn|es' ph c t Hc' Hph|es' ph e t Hc' Hph]; subst.
  - pose proof (conversation_shape _ _ _ Hc') as Hs.
    assert (Hnone : result_of es' = None)
      by (eapply Hno; [exact Hc'|by destruct (result_kind r')]).
    unfold result_of in Hr, Hnone. rewrite first_app, Hnone in Hr. cbn in Hr. simplify_eq.
    unfold start_of. rewrite first_app. cbn.
    destruct (result_kind r); cbn [result_phase shape] in Hs;
      repeat match type of Hs with exists _, _ => destruct Hs as [? Hs] end; by subst.
  - pose proof (Hno _ _ Hc' Hph) as Hnone. unfold result_of in Hr, Hnone.
    by rewrite first_app, Hnone in Hr.
  - pose proof (Hno _ _ Hc' Hph) as Hnone. unfold result_of in Hr, Hnone.
    by rewrite first_app, Hnone in Hr.
Qed.

(** A disconnect is classified by what was exchanged: with a result frame,
    as that result; otherwise as unknown once a start was accepted, and as "not
    executed" before.  In particular a disconnect reports that nothing ran
    exactly when no start frame was ever accepted. *)
Theorem disconnect_classification nonce authority input es s :
  reaches nonce authority input es s ->
  disconnect s = match result_of (milestones es) with
                 | Some r => AlreadyConclusive (result_disposition (result_kind r))
                 | None => if started_view (milestones es) then DisconnectOutcomeUnknown
                           else PreflightNoExecution
                 end
  /\ (start_of (milestones es) = None <->
      disconnect s = PreflightNoExecution
      \/ disconnect s = AlreadyConclusive DispFailedBeforeStart).
Proof.
  intros [X _]%reaches_explains.
  assert (Heq : disconnect s = match result_of (milestones es) with
                 | Some r => AlreadyConclusive (result_disposition (result_kind r))
                 | None => if started_view (milestones es) then DisconnectOutcomeUnknown
                           else PreflightNoExecution
                 end).
  { unfold disconnect. rewrite (explains_terminal _ _ X), (explains_started _ _ X).
    destruct (bool_decide (phase s = PhaseTerminal)) eqn:Hph; bool_facts.
    - unfold terminal_view. by destruct (result_of (milestones es)).
    - by rewrite (explains_no_result _ _ X Hph). }
  split; [done|]. rewrite Heq. unfold started_view.
  destruct (result_of (milestones es)) as [r|] eqn:Hr.
  - rewrite (result_start _ _ _ _ (explains_phase _ _ X) Hr).
    destruct (result_kind r); cbn; naive_solver.
  - destruct (start_of (milestones es)); cbn; naive_solver.
Qed.

(** ** Heartbeats *)

Definition heartbeat_ranks (es : list Event) : list Z :=
  omap (fun e => match e with
    | (_, Heartbeat h, _) => Some (heartbeat_rank (heartbeat_phase h)) | _ => None end) es.

Definition hb_rank (s : RemoteSessionState) : Z :=
  match hb_phase s with Some p => heartbeat_rank p | None => 0 end.

Lemma heartbeat_rank_bounds p : 0 <= heartbeat_rank p <= 2.
Proof. destruct p; cbn; lia. Qed.

Lemma session_run_heartbeats input s es s' :
  session_run s input = (es, s') ->
  Forall (fun rank => hb_rank s <= rank) (heartbeat_ranks es)
  /\ StronglySorted Z.le (heartbeat_ranks es).
Proof.
  revert s es. induction input as [|[[sender f] now] input IH]; intros s es Hrun.
  { cbn in Hrun. simplify_eq. repeat constructor. }
  cbn in Hrun. destruct (accept sender f now s) as [x s1] eqn:Hacc.
  destruct (session_run s1 input) as [es1 s2] eqn:Hrun1. simplify_eq.
  destruct (IH _ _ Hrun1) as [Hlow Hsorted]. apply accept_spec in Hacc as [Hok Herr].
  destruct x as [[]| |]; try (rewrite Herr in Hlow by done; done); [].
  destruct Hok as (_ & _ & s3 & q & Hstep & -> & _); [done|].
  replace (hb_rank (set_sequencer sender q s3)) with (hb_rank s3) in Hlow
    by (by destruct sender).
  destruct Hstep; try done. cbn [heartbeat_ranks omap list_omap] in *.
  assert (Hle : hb_rank s <= heartbeat_rank (heartbeat_phase h)).
  { unfold hb_rank. destruct (hb_phase s); [by auto|]. apply heartbeat_rank_bounds. }
  split; constructor; try done. apply (Forall_weaken _ _ _ Hlow). cbn. lia.
Qed.

(** A runner's reported progress never goes back: the phases of the
    heartbeats a session accepts are in order, preparing before prepared before
    started. *)
Theorem heartbeats_never_regress nonce authority input es s :
  reaches nonce authority input es s -> StronglySorted Z.le (heartbeat_ranks es).
Proof. intros (s0 & _ & Hrun). by apply session_run_heartbeats in Hrun as [_ ?]. Qed.

End Refinement.

(** ** Witnesses *)

Definition run_binding : RunBinding :=
  mkBinding "run-1" "job-1" 2 7 zeros64 zeros64 3 "credential-r1".
Definition empty_json : string := print_value Authority.sample_empty.
Definition image : string := "sha256:" +:+ zeros64.

Definition sample_ready : ReadyFrame :=
  mkReady empty_json zeros64 20000 empty_json zeros64 3 zeros64 image image
    "spiffe://codeoff/runner/production" zeros64 "credential-r1" "supervisor-dynamic-tools-v1"
    "mcp-r1".
Definition sample_admission : AdmissionFrame := mkAdmission zeros64 zeros64 15000 3 zeros64.
Definition sample_prepare : PrepareFrame :=
  mkPrepare run_binding empty_json empty_json empty_json empty_json empty_json empty_json.
Definition sample_prepared : PreparedFrame :=
  mkPrepared empty_json run_binding zeros64 empty_json zeros64 "supervisor-dynamic-tools-v1"
    "mcp-r1".
Definition sample_start : StartFrame := mkStart run_binding zeros64.
Definition sample_result : ResultFrame :=
  mkResult empty_json empty_json run_binding zeros64 Completed empty_json.
Definition sample_beat (p : RemoteHeartbeatPhase) : RemoteMessage :=
  Heartbeat (mkHeartbeat run_binding p).

Definition frame (n : Z) (m : RemoteMessage) : RemoteFrame := mkFrame 2 zeros64 n m.

(** A full run, with a replayed admission and an early result among the input. *)
Definition sample_input : list (RemoteSessionRole * RemoteFrame * Z) :=
  [(Runner, frame 1 (Ready sample_ready), 1000);
   (Gateway, frame 1 (Admission sample_admission), 2000);
   (Gateway, frame 1 (Admission sample_admission), 2100);
   (Gateway, frame 2 (Prepare sample_prepare), 3000);
   (Runner, frame 2 (Result sample_result), 3500);
   (Runner, frame 2 (sample_beat Preparing), 3600);
   (Runner, frame 3 (Prepared sample_prepared), 4000);
   (Gateway, frame 3 (Start sample_start), 5000);
   (Runner, frame 4 (sample_beat Started), 6000);
   (Runner, frame 5 (Result sample_result), 90000)].

Definition sample_events : list Event :=
  [(Runner, Ready sample_ready, 1000); (Gateway, Admission sample_admission, 2000);
   (Gateway, Prepare sample_prepare, 3000); (Runner, sample_beat Preparing, 3600);
   (Runner, Prepared sample_prepared, 4000); (Gateway, Start sample_start, 5000);
   (Runner, sample_beat Started, 6000); (Runner, Result sample_result, 90000)].

Definition sample_end : RemoteSessionState :=
  mkSession (mkSequencer zeros64 (Some (frame 3 (Start sample_start))))
    (mkSequencer zeros64 (Some (frame 5 (Result sample_result))))
    Authority.sample_authority PhaseTerminal (Some (ready_identity sample_ready))
    (Some (mkAdmissionState zeros64 15000 true)) (Some run_binding) (Some zeros64)
    (Some Started) true (Some (mkTerminal DispCompleted true)).

Ltac sample_reaches :=
  eexists; split; [vm_compute; reflexivity|vm_compute; reflexivity].

Lemma session_refines_conversation_witness :
  let S := Authority.sample_serde in let D := Capability.Capability.zero_sha2 in
  Conversation Authority.sample_authority (milestones sample_events) PhaseTerminal
  /\ Exchange Authority.sample_authority sample_events PhaseTerminal.
Proof.
  intros S D.
  destruct (session_refines_conversation zeros64 Authority.sample_authority sample_input
    sample_events sample_end ltac:(sample_reaches)) as (_ & Hc & He & _).
  by split.
Defined.

Lemma start_requires_authority_witness :
  let S := Authority.sample_serde in let D := Capability.Capability.zero_sha2 in
  exists r tr a ta p tp d td st ts rest,
    milestones sample_events
    = [(Runner, Ready r, tr); (Gateway, Admission a, ta); (Gateway, Prepare p, tp);
       (Runner, Prepared d, td); (Gateway, Start st, ts)] ++ rest
    /\ started_run Authority.sample_authority r a ta p tp d st ts.
Proof.
  intros S D.
  apply (start_requires_authority zeros64 Authority.sample_authority sample_input
           sample_events sample_end); [sample_reaches|reflexivity].
Defined.

Lemma session_never_panics_witness :
  let S := Authority.sample_serde in let D := Capability.Capability.zero_sha2 in
  (accept Gateway (frame 4 (Prepare sample_prepare)) 7000 sample_end).1 <> Panics.
Proof.
  intros S D.
  apply (session_never_panics zeros64 Authority.sample_authority sample_input sample_events).
  sample_reaches.
Defined.

Lemma disconnect_classification_witness :
  let S := Authority.sample_serde in let D := Capability.Capability.zero_sha2 in
  disconnect sample_end = AlreadyConclusive DispCompleted.
Proof.
  intros S D.
  apply (disconnect_classification zeros64 Authority.sample_authority sample_input
           sample_events sample_end).
  sample_reaches.
Defined.

Lemma heartbeats_never_regress_witness :
  let S := Authority.sample_serde in let D := Capability.Capability.zero_sha2 in
  heartbeat_ranks sample_events = [0; 2] /\ StronglySorted Z.le (heartbeat_ranks sample_events).
Proof.
  intros S D. split; [reflexivity|].
  apply (heartbeats_never_regress zeros64 Authority.sample_authority sample_input
           sample_events sample_end).
  sample_reaches.
Defined.

(** A prepare from the runner's side is refused and changes nothing. *)
Lemma rejected_frame_changes_nothing_witness :
  let S := Authority.sample_serde in let D := Capability.Capability.zero_sha2 in
  (accept Runner (frame 6 (Prepare sample_prepare)) 7000 sample_end).2 = sample_end.
Proof.
  intros S D.
  apply (rejected_frame_changes_nothing Runner (frame 6 (Prepare sample_prepare)) 7000 sample_end
           (Throws SessionTerminal)); [vm_compute; reflexivity|discriminate].
Defined.

End Session.
