(* ===== verification/Broker.v ===== *)
(** * The runner broker (crates/runtime/src/scheduled_runner_broker.rs)

    The gateway's registry of the one connected runner, the reservation of its
    execution slot, and the point of no return of a start: the writer of
    scheduled_runner_tls.rs that reports its first poll, its first pending poll
    and its first byte to the reservation. *)

From stdpp Require Import base tactics list strings numbers.
From Stdlib Require Import ZArith Lia.
From S2P Require Import Prelude.
From S2P Require Import Identity.
From S2P Require Import Json.
From S2P Require Import Capability.
From S2P Require Import Protocol.
From S2P Require Import Session.
Import Protocol.

Module Broker.

Definition MAX_BROKER_CONNECTIONS : Z := 16.

Inductive ScheduledRunnerBrokerError :=
| InvalidConfiguration
| CapacityExceeded
| ConnectionClosed
| FirstFrameNotReady
| SessionBindingMismatch
| ReadyIdentityMismatch
| DuplicateSession
| StaleSession
| SessionUnavailable
| SessionExpired
| SessionBusy
| RandomnessUnavailable
| ProtocolRejected
| RunnerRejected
| Transport
| ResultInvalid.

#[export] Instance broker_error_eq_dec : EqDecision ScheduledRunnerBrokerError.
Proof. solve_decision. Defined.

(** [admission_ttl] is a [Duration], in nanoseconds; a byte vector is a string. *)
Record ScheduledRunnerBrokerConfig := mkConfig {
  schema_version : Z;
  cfg_deployment_epoch : Z;
  attestation_id : string;
  cfg_profile_digest : string;
  signed_not_after_unix_seconds : Z;
  gateway_image_digest : string;
  runner_image_digest : string;
  runner_workload_identity : string;
  runner_client_spki_sha256 : string;
  cfg_credential_revision : string;
  github_mcp_configured_artifact_sha256 : string;
  github_mcp_configured_endpoint_identity : string;
  github_mcp_access_auth_mode : string;
  github_mcp_access_token_revision : string;
  execution_grant_key_revision : string;
  execution_grant_signer_identity : string;
  executor_evidence_public_key : string;
  executor_evidence_key_id : string;
  executor_evidence_key_revision : string;
  executor_evidence_signer_identity : string;
  executor_identity : string;
  max_connections : Z;
  admission_ttl : Z
}.

Definition as_millis (duration : Z) : Z := duration / 1000000.
Definition as_secs (duration : Z) : Z := duration / 1000000000.

Definition is_lowercase_sha256 (value : string) : bool :=
  (len value =? 64) && bytes_all is_hex_byte value.

Definition is_oci_digest (value : string) : bool :=
  match strip_prefix "sha256:" value with
  | Some digest => is_lowercase_sha256 digest
  | None => false
  end.

(** [ScheduledRunnerAuthorizedPeer::new]: does it succeed. *)
Definition authorized_peer_ok (workload_identity client_spki_sha256 : string) : bool :=
  is_ok (Identity.parse_runner_workload_identity workload_identity)
  && is_lowercase_sha256 client_spki_sha256.

Definition validate (c : ScheduledRunnerBrokerConfig) :
    result ScheduledRunnerBrokerError unit :=
  bail? negb (schema_version c =? 1)
        || (cfg_deployment_epoch c =? 0)
        || (signed_not_after_unix_seconds c <=? 0)
        || negb ((1 <=? max_connections c) && (max_connections c <=? MAX_BROKER_CONNECTIONS))
        || (admission_ttl c =? 0)
        || (admission_ttl c >? MAX_ADMISSION_TTL_MILLIS * 1000000)
        || negb (len (executor_evidence_public_key c) =? 32)
        || negb (is_ok (Identity.parse_evidence_key_id (executor_evidence_key_id c)))
        || is_empty (execution_grant_key_revision c)
        || negb (is_trimmed (execution_grant_key_revision c))
        || (len (execution_grant_key_revision c) >? 128)
        || is_empty (execution_grant_signer_identity c)
        || negb (is_trimmed (execution_grant_signer_identity c))
        || (len (execution_grant_signer_identity c) >? 128)
  with InvalidConfiguration in
  bail? negb (is_lowercase_sha256 (attestation_id c))
        || negb (is_lowercase_sha256 (cfg_profile_digest c))
        || negb (is_oci_digest (gateway_image_digest c))
        || negb (is_oci_digest (runner_image_digest c))
        || negb (is_lowercase_sha256 (github_mcp_configured_artifact_sha256 c))
        || is_empty (github_mcp_configured_endpoint_identity c)
        || negb (is_trimmed (github_mcp_configured_endpoint_identity c))
  with InvalidConfiguration in
  bail? negb (authorized_peer_ok (runner_workload_identity c) (runner_client_spki_sha256 c))
  with InvalidConfiguration in
  let? _ := map_err (fun _ => InvalidConfiguration)
    (Identity.parse_credential_revision (cfg_credential_revision c)) in
  bail? negb (String.eqb (github_mcp_access_auth_mode c) "supervisor-dynamic-tools-v1")
        || negb (is_ok (Identity.parse_credential_revision (github_mcp_access_token_revision c)))
  with InvalidConfiguration in
  Ok tt.

(** ** State *)

Inductive ReservationPhase :=
| PreStart
| PinnedForCas
| AttemptingStart
| StartOutcomeUnknown
| StartStarted.

#[export] Instance reservation_phase_eq_dec : EqDecision ReservationPhase.
Proof. solve_decision. Defined.

Record ProtocolAdmission := mkProtocolAdmission {
  res_generation : Z;
  res_session_nonce : string;
  res_challenge : string;
  res_nonce : string;
  res_expires_at_unix_millis : Z;
  grant_issued : bool;
  grant_id : option string;
  res_phase : ReservationPhase
}.

Definition set_res_phase (p : ReservationPhase) (r : ProtocolAdmission) : ProtocolAdmission :=
  mkProtocolAdmission (res_generation r) (res_session_nonce r) (res_challenge r) (res_nonce r)
    (res_expires_at_unix_millis r) (grant_issued r) (grant_id r) p.

Definition set_grant (id : option string) (r : ProtocolAdmission) : ProtocolAdmission :=
  mkProtocolAdmission (res_generation r) (res_session_nonce r) (res_challenge r) (res_nonce r)
    (res_expires_at_unix_millis r) true id (res_phase r).

(** The fields its slot operations use: not the command channel, the copy of the
    configuration and the grant signer. *)
Record RegisteredRunnerSession := mkRegistered {
  generation : Z;
  reg_session_nonce : string;
  reg_ready : ReadyFrame;
  connected : bool;
  slot : option ProtocolAdmission
}.

Definition set_slot (r : option ProtocolAdmission) (s : RegisteredRunnerSession) :
    RegisteredRunnerSession :=
  mkRegistered (generation s) (reg_session_nonce s) (reg_ready s) (connected s) r.

Definition set_disconnected (s : RegisteredRunnerSession) : RegisteredRunnerSession :=
  mkRegistered (generation s) (reg_session_nonce s) (reg_ready s) false (slot s).

(** [Arc<RegisteredRunnerSession>] is an index into the sessions allocated so
    far, [Arc::ptr_eq] equality of indices.  [clearing] is the session whose
    [unregister] holds the registry lock between its test of the slot and its
    clearing of it: the one critical section in which another thread's slot
    operation can fall between two of its own.  The connection semaphore and the
    grant signer take no part in the registry and are left out. *)
Record BrokerInner := mkBroker {
  config : ScheduledRunnerBrokerConfig;
  sessions : list RegisteredRunnerSession;
  current : option nat;
  clearing : option nat;
  next_generation : Z
}.

Definition set_current (c : option nat) (b : BrokerInner) : BrokerInner :=
  mkBroker (config b) (sessions b) c (clearing b) (next_generation b).
Definition set_clearing (c : option nat) (b : BrokerInner) : BrokerInner :=
  mkBroker (config b) (sessions b) (current b) c (next_generation b).
Definition set_session (i : nat) (s : RegisteredRunnerSession) (b : BrokerInner) : BrokerInner :=
  mkBroker (config b) (<[i := s]> (sessions b)) (current b) (clearing b) (next_generation b).

(** The session and the nonce of a [ReservationLease]. *)
Record ReservationLease := mkLease {
  lease_session : nat;
  admission_nonce : string
}.

Abbreviation outcome A := (result ScheduledRunnerBrokerError A).

(** ** One session *)

Definition is_pinned (r : ProtocolAdmission) : bool :=
  negb (bool_decide (res_phase r = PreStart)).

Definition has_pinned_reservation (s : RegisteredRunnerSession) : bool :=
  match slot s with Some r => is_pinned r | None => false end.

Definition slot_available (s : RegisteredRunnerSession) (now : Z) :
    bool * RegisteredRunnerSession :=
  let s' :=
    match slot s with
    | Some r =>
        if bool_decide (res_phase r = PreStart) && (res_expires_at_unix_millis r <=? now)
        then set_slot None s else s
    | None => s
    end in
  (match slot s' with Some _ => false | None => true end, s').

(** [random] is what [random_sha256] returns when called. *)
Definition reserve (s : RegisteredRunnerSession) (now expires_at : Z) (random : outcome string) :
    outcome ProtocolAdmission * RegisteredRunnerSession :=
  if negb (connected s) || (expires_at <=? now) then (Err SessionUnavailable, s)
  else if match slot s with
          | Some r =>
              negb (bool_decide (res_phase r = PreStart))
              || (res_expires_at_unix_millis r >? now)
          | None => false
          end
  then (Err SessionBusy, s)
  else match random with
  | Err e => (Err e, s)
  | Ok nonce =>
      let r := mkProtocolAdmission (generation s) (reg_session_nonce s)
                 (ready_challenge (reg_ready s)) nonce expires_at false None PreStart in
      (Ok r, set_slot (Some r) s)
  end.

(** A failing [random_sha256] leaves the grant issued without an id. *)
Definition reserve_grant (s : RegisteredRunnerSession) (now : Z) (nonce : string)
    (random : outcome string) : outcome ProtocolAdmission * RegisteredRunnerSession :=
  match slot s with
  | None => (Err SessionUnavailable, s)
  | Some r =>
      if negb (String.eqb (res_nonce r) nonce) || negb (bool_decide (res_phase r = PreStart))
      then (Err SessionUnavailable, s)
      else if (res_expires_at_unix_millis r <=? now) || negb (connected s)
      then (Err SessionExpired, set_slot None s)
      else if grant_issued r then (Err SessionBusy, s)
      else match random with
      | Err e => (Err e, set_slot (Some (set_grant (grant_id r) r)) s)
      | Ok id =>
          let r' := set_grant (Some id) r in
          (Ok r', set_slot (Some r') s)
      end
  end.

Definition release_allowed (r : ProtocolAdmission) (allow_attempting allow_started : bool) : bool :=
  allow_started
  || (allow_attempting && bool_decide (res_phase r = AttemptingStart))
  || match res_phase r with PreStart | PinnedForCas => true | _ => false end.

Definition release_reservation (s : RegisteredRunnerSession) (nonce : string)
    (allow_attempting allow_started : bool) : bool * RegisteredRunnerSession :=
  match slot s with
  | Some r =>
      if String.eqb (res_nonce r) nonce && release_allowed r allow_attempting allow_started
      then (true, set_slot None s) else (false, s)
  | None => (false, s)
  end.

(** ** The registry *)

(** [Arc::new] with the next generation: [None] when the counter is exhausted. *)
Definition new_session (nonce : string) (ready : ReadyFrame) (b : BrokerInner) :
    outcome nat * BrokerInner :=
  match u64_checked_add (next_generation b) 1 with
  | None => (Err SessionUnavailable, b)
  | Some next =>
      (Ok (length (sessions b)),
       mkBroker (config b)
         (sessions b ++ [mkRegistered (next_generation b) nonce ready true None])
         (current b) (clearing b) next)
  end.

Definition occupied (b : BrokerInner) : bool :=
  match current b ≫= fun j => sessions b !! j with
  | Some s => connected s || has_pinned_reservation s
  | None => false
  end.

Definition register (i : nat) (b : BrokerInner) : outcome unit * BrokerInner :=
  if occupied b then (Err DuplicateSession, b) else (Ok tt, set_current (Some i) b).

(** [unregister] in its three atomic parts: the store to [connected], the test
    under the registry lock, and the clearing before the lock is given up. *)
Definition disconnect_session (i : nat) (b : BrokerInner) : BrokerInner :=
  match sessions b !! i with Some s => set_session i (set_disconnected s) b | None => b end.

Definition unregister_test (i : nat) (b : BrokerInner) : BrokerInner :=
  if bool_decide (current b = Some i) then
    match sessions b !! i with
    | Some s => if has_pinned_reservation s then b else set_clearing (Some i) b
    | None => b
    end
  else b.

Definition unregister_clear (b : BrokerInner) : BrokerInner :=
  match clearing b with
  | Some i =>
      match sessions b !! i with
      | Some s => set_clearing None (set_current None (set_session i (set_slot None s) b))
      | None => set_clearing None (set_current None b)
      end
  | None => b
  end.

Definition unregister (i : nat) (b : BrokerInner) : BrokerInner :=
  unregister_clear (unregister_test i (disconnect_session i b)).

(** The reservation a lease speaks of, as the start steps compare it. *)
Definition lease_matches (s : RegisteredRunnerSession) (r : ProtocolAdmission) (nonce : string) :
    bool :=
  String.eqb (res_nonce r) nonce
  && (res_generation r =? generation s)
  && String.eqb (res_session_nonce r) (reg_session_nonce s)
  && String.eqb (res_challenge r) (ready_challenge (reg_ready s))
  && grant_issued r
  && match grant_id r with Some _ => true | None => false end.

Definition is_current (i : nat) (b : BrokerInner) : bool := bool_decide (current b = Some i).

(** A start step: when [admitted] holds of the registry and [guard] of the
    reservation, move it to [next]. *)
Definition start_step (lease : ReservationLease) (admitted : RegisteredRunnerSession -> bool)
    (guard : RegisteredRunnerSession -> ProtocolAdmission -> bool) (next : ReservationPhase)
    (b : BrokerInner) : outcome unit * BrokerInner :=
  let i := lease_session lease in
  match sessions b !! i with
  | None => (Err SessionUnavailable, b)
  | Some s =>
      if negb (is_current i b && admitted s) then (Err SessionUnavailable, b)
      else match slot s with
      | None => (Err SessionUnavailable, b)
      | Some r =>
          if negb (guard s r) then (Err SessionUnavailable, b)
          else (Ok tt, set_session i (set_slot (Some (set_res_phase next r)) s) b)
      end
  end.

Definition validate_and_pin_reservation (lease : ReservationLease) (now : Z) :
    BrokerInner -> outcome unit * BrokerInner :=
  start_step lease connected
    (fun s r => lease_matches s r (admission_nonce lease)
                && negb (res_expires_at_unix_millis r <=? now)
                && bool_decide (res_phase r = PreStart))
    PinnedForCas.

Definition begin_start_attempt (lease : ReservationLease) :
    BrokerInner -> outcome unit * BrokerInner :=
  start_step lease connected
    (fun s r => lease_matches s r (admission_nonce lease)
                && bool_decide (res_phase r = PinnedForCas))
    AttemptingStart.

Definition confirm_start_byte (lease : ReservationLease) :
    BrokerInner -> outcome unit * BrokerInner :=
  start_step lease (fun _ => true)
    (fun s r => lease_matches s r (admission_nonce lease)
                && match res_phase r with
                   | AttemptingStart | StartOutcomeUnknown => true | _ => false end)
    StartStarted.

Definition mark_start_uncertain (lease : ReservationLease) :
    BrokerInner -> outcome unit * BrokerInner :=
  start_step lease (fun _ => true)
    (fun _ r => String.eqb (res_nonce r) (admission_nonce lease)
                && bool_decide (res_phase r = AttemptingStart))
    StartOutcomeUnknown.

Definition release (lease : ReservationLease) (allow_attempting allow_started : bool)
    (b : BrokerInner) : BrokerInner :=
  let i := lease_session lease in
  match sessions b !! i with
  | None => b
  | Some s =>
      let '(released, s') :=
        release_reservation s (admission_nonce lease) allow_attempting allow_started in
      let b' := set_session i s' b in
      if negb (connected s') && released && is_current i b' then set_current None b' else b'
  end.

Definition release_after_no_start (l : ReservationLease) := release l false false.
Definition release_after_zero_byte_start_failure (l : ReservationLease) := release l true false.
Definition release_after_signed_cleanup (l : ReservationLease) := release l true true.
(** [Drop for ReservationLeaseInner]. *)
Definition drop_lease (l : ReservationLease) := release l false false.

Definition session (b : BrokerInner) : option nat :=
  match current b with
  | Some i =>
      match sessions b !! i with
      | Some s => if connected s then Some i else None
      | None => None
      end
  | None => None
  end.

(** ** Admission *)

Record ScheduledExecutorAdmission := mkExecutorAdmission {
  adm_schema_version : Z;
  adm_epoch : Z;
  adm_attestation_id : string;
  adm_profile : string;
  adm_signed_not_after : Z;
  operation_deadline : Z
}.

(** [self.session()] with its operation deadline; [clock] is [unix_millis()]. *)
Definition admission_deadline (s : RegisteredRunnerSession) (now_seconds : Z)
    (c : ScheduledRunnerBrokerConfig) : outcome Z :=
  let? ready_deadline := ok_or (fits in_i64 (ready_until_unix_millis (reg_ready s) / 1000))
    SessionExpired in
  let? ttl_seconds := ok_or (fits in_i64 (Z.max (as_secs (admission_ttl c)) 1)) SessionExpired in
  let? bound := ok_or (i64_checked_add now_seconds ttl_seconds) SessionExpired in
  Ok (Z.min (Z.min bound (i64_saturating_sub (signed_not_after_unix_seconds c) 1))
        (i64_saturating_sub ready_deadline 1)).

Definition reservation_expiry (s : RegisteredRunnerSession) (now : Z)
    (c : ScheduledRunnerBrokerConfig) : outcome Z :=
  let? ttl := ok_or (fits in_u64 (as_millis (admission_ttl c))) SessionExpired in
  let? bound := ok_or (u64_checked_add now ttl) SessionExpired in
  Ok (Z.min (Z.min bound (ready_until_unix_millis (reg_ready s)))
        (u64_saturating_mul
           (if in_u64 (signed_not_after_unix_seconds c)
            then signed_not_after_unix_seconds c else 0) 1000)).

Definition state_admission (reserve_slot : bool) (clock : outcome Z) (random : outcome string)
    (b : BrokerInner) :
    outcome (ScheduledExecutorAdmission * nat * option ReservationLease) * BrokerInner :=
  match clock with
  | Err e => (Err e, b)
  | Ok now =>
      match fits in_i64 (now / 1000), session b with
      | None, _ => (Err SessionExpired, b)
      | Some _, None => (Err SessionUnavailable, b)
      | Some now_seconds, Some i =>
          match sessions b !! i with
          | None => (Err SessionUnavailable, b)
          | Some s =>
              match admission_deadline s now_seconds (config b) with
              | Err e => (Err e, b)
              | Ok deadline =>
                  if deadline <=? now_seconds then (Err SessionUnavailable, b)
                  else
                    let '(available, s1) := slot_available s now in
                    let b1 := set_session i s1 b in
                    if negb available then (Err SessionUnavailable, b1)
                    else
                      let grant lease b2 :=
                        match fits in_i64 (cfg_deployment_epoch (config b)) with
                        | None =>
                            (Err InvalidConfiguration,
                             match lease with Some l => drop_lease l b2 | None => b2 end)
                        | Some epoch =>
                            (Ok (mkExecutorAdmission (schema_version (config b)) epoch
                                   (attestation_id (config b)) (cfg_profile_digest (config b))
                                   (signed_not_after_unix_seconds (config b)) deadline, i, lease),
                             b2)
                        end in
                      if reserve_slot then
                        match reservation_expiry s1 now (config b) with
                        | Err e => (Err e, b1)
                        | Ok expires_at =>
                            match reserve s1 now expires_at random with
                            | (Err e, s2) => (Err e, set_session i s2 b1)
                            | (Ok r, s2) =>
                                grant (Some (mkLease i (res_nonce r))) (set_session i s2 b1)
                            end
                        end
                      else grant None b1
              end
          end
      end
  end.

(** ** Interleavings

    The atomic actions of the broker's threads, with the values their clock and
    their random source return.  While an [unregister] is between its test and
    its clearing it holds the registry lock, and only actions that do not need
    that lock can happen. *)

Inductive action :=
| ANewSession (nonce : string) (ready : ReadyFrame)
| ARegister (i : nat)
| ADisconnect (i : nat)
| AUnregisterTest (i : nat)
| AUnregisterClear
| ASlotAvailable (i : nat) (now : Z)
| AReserve (i : nat) (now expires_at : Z) (random : outcome string)
| AReserveGrant (i : nat) (now : Z) (nonce : string) (random : outcome string)
| APin (lease : ReservationLease) (now : Z)
| ABegin (lease : ReservationLease)
| AConfirm (lease : ReservationLease)
| AUncertain (lease : ReservationLease)
| ARelease (lease : ReservationLease) (allow_attempting allow_started : bool).

Definition needs_registry (a : action) : bool :=
  match a with
  | ARegister _ | AUnregisterTest _ | APin _ _ | ABegin _ | AConfirm _ | AUncertain _
  | ARelease _ _ _ => true
  | _ => false
  end.

(** A slot operation of one session. *)
Definition on_session {A} (i : nat)
    (f : RegisteredRunnerSession -> A * RegisteredRunnerSession) (b : BrokerInner) : BrokerInner :=
  match sessions b !! i with Some s => set_session i (snd (f s)) b | None => b end.

Definition perform (a : action) (b : BrokerInner) : BrokerInner :=
  match a with
  | ANewSession nonce ready => snd (new_session nonce ready b)
  | ARegister i => snd (register i b)
  | ADisconnect i => disconnect_session i b
  | AUnregisterTest i => unregister_test i b
  | AUnregisterClear => unregister_clear b
  | ASlotAvailable i now => on_session i (fun s => slot_available s now) b
  | AReserve i now expires_at random => on_session i (fun s => reserve s now expires_at random) b
  | AReserveGrant i now nonce random =>
      on_session i (fun s => reserve_grant s now nonce random) b
  | APin lease now => snd (validate_and_pin_reservation lease now b)
  | ABegin lease => snd (begin_start_attempt lease b)
  | AConfirm lease => snd (confirm_start_byte lease b)
  | AUncertain lease => snd (mark_start_uncertain lease b)
  | ARelease lease allow_attempting allow_started =>
      release lease allow_attempting allow_started b
  end.

Definition enabled (a : action) (b : BrokerInner) : bool :=
  negb (needs_registry a) || bool_decide (clearing b = None).

Fixpoint execute (actions : list action) (b : BrokerInner) : option BrokerInner :=
  match actions with
  | [] => Some b
  | a :: rest => if enabled a b then execute rest (perform a b) else None
  end.

Definition broker_new (c : ScheduledRunnerBrokerConfig) : outcome BrokerInner :=
  check? validate c in Ok (mkBroker c [] None None 1).

(** *** The registry invariant *)

Definition slot_ok (s : RegisteredRunnerSession) : Prop :=
  forall r, slot s = Some r ->
    res_generation r = generation s /\ res_session_nonce r = reg_session_nonce s
    /\ res_challenge r = ready_challenge (reg_ready s)
    /\ (is_pinned r = true -> grant_issued r = true /\ is_Some (grant_id r)).

Record registry_inv (b : BrokerInner) : Prop := {
  inv_pinned : forall i s, sessions b !! i = Some s -> has_pinned_reservation s = true ->
    current b = Some i;
  inv_clearing : forall i, clearing b = Some i ->
    current b = Some i /\ forall s, sessions b !! i = Some s -> has_pinned_reservation s = false;
  inv_slot : forall i s, sessions b !! i = Some s -> slot_ok s
}.

Lemma set_session_inv b i s s' :
  registry_inv b -> sessions b !! i = Some s -> slot_ok s' ->
  (has_pinned_reservation s' = true ->
     has_pinned_reservation s = true \/ current b = Some i /\ clearing b = None) ->
  registry_inv (set_session i s' b).
Proof.
  intros [Hp Hc Hs] Hi Hok Hpin. constructor; cbn.
  - intros j t Hj Ht. apply list_lookup_insert_Some in Hj as [(-> & -> & _)|[_ Hj]]; [|eauto].
    destruct (Hpin Ht) as [|[? _]]; eauto.
  - intros j Hj. destruct (Hc j Hj) as [Hcur Hno]. split; [done|].
    intros t Ht. apply list_lookup_insert_Some in Ht as [(-> & -> & _)|[_ Ht]]; [|eauto].
    destruct (has_pinned_reservation t) eqn:E; [|done].
    destruct (Hpin eq_refl) as [Hold|[_ Hnone]]; [|congruence].
    by rewrite (Hno s Hi) in Hold.
  - intros j t Hj. apply list_lookup_insert_Some in Hj as [(-> & -> & _)|[_ Hj]]; eauto.
Qed.

(** What a slot operation without the registry lock may do: keep the identity
    of the session, and neither pin nor unpin. *)
Lemma slot_step_inv {A} b i (f : RegisteredRunnerSession -> A * RegisteredRunnerSession) :
  registry_inv b ->
  (forall s, slot_ok s -> slot_ok (snd (f s))) ->
  (forall s, has_pinned_reservation (snd (f s)) = true -> has_pinned_reservation s = true) ->
  registry_inv (on_session i f b).
Proof.
  intros Hinv Hok Hpin. unfold on_session. destruct (sessions b !! i) as [s|] eqn:Hi; [|done].
  eapply set_session_inv; eauto. apply Hok. by eapply inv_slot.
Qed.

Lemma slot_available_step s now :
  (slot_ok s -> slot_ok (snd (slot_available s now)))
  /\ (has_pinned_reservation (snd (slot_available s now)) = has_pinned_reservation s).
Proof.
  unfold slot_available. destruct (slot s) as [r|] eqn:Hs; [|done].
  destruct (bool_decide (res_phase r = PreStart) && _) eqn:E; cbn; [|done].
  bool_facts. split; [by intros _ r'|].
  unfold has_pinned_reservation, is_pinned. cbn. rewrite Hs. by rewrite bool_decide_eq_true_2.
Qed.

Lemma reserve_step s now expires_at random :
  (slot_ok s -> slot_ok (snd (reserve s now expires_at random)))
  /\ has_pinned_reservation (snd (reserve s now expires_at random)) = has_pinned_reservation s.
Proof.
  unfold reserve.
  destruct (negb (connected s) || (expires_at <=? now)); [done|].
  destruct (match slot s with Some r => _ | None => _ end) eqn:Hbusy; [done|].
  destruct random as [nonce|e]; [|done]. cbn. split.
  - intros _ r [= <-]. cbn. by split_and!.
  - unfold has_pinned_reservation, is_pinned. cbn [slot set_slot res_phase].
    rewrite bool_decide_eq_true_2 by done. destruct (slot s) as [r|]; [|done].
    bool_facts. by rewrite bool_decide_eq_true_2.
Qed.

Lemma reserve_grant_step s now nonce random :
  (slot_ok s -> slot_ok (snd (reserve_grant s now nonce random)))
  /\ has_pinned_reservation (snd (reserve_grant s now nonce random)) = has_pinned_reservation s.
Proof.
  unfold reserve_grant. destruct (slot s) as [r|] eqn:Hs; [|done].
  destruct (negb (String.eqb (res_nonce r) nonce) || _) eqn:E; [done|]. bool_facts.
  assert (Hpre : has_pinned_reservation s = false).
  { unfold has_pinned_reservation, is_pinned. rewrite Hs. by rewrite bool_decide_eq_true_2. }
  destruct ((res_expires_at_unix_millis r <=? now) || negb (connected s)).
  { cbn. split; [by intros _ r'|by rewrite Hpre]. }
  destruct (grant_issued r); [done|].
  assert (Hset : forall id, (slot_ok s -> slot_ok (set_slot (Some (set_grant id r)) s))
    /\ has_pinned_reservation (set_slot (Some (set_grant id r)) s) = has_pinned_reservation s).
  { intros id. split.
    - intros Hok r' [= <-]. destruct (Hok r Hs) as (? & ? & ? & _). cbn. split_and!; try done.
      unfold is_pinned. cbn. by rewrite bool_decide_eq_true_2.
    - rewrite Hpre. unfold has_pinned_reservation, is_pinned. cbn.
      by rewrite bool_decide_eq_true_2. }
  destruct random; cbn; apply Hset.
Qed.

(** A start step moves a matching reservation of the current session. *)
Lemma start_step_ok lease admitted guard next b b' :
  start_step lease admitted guard next b = (Ok tt, b') ->
  exists s r, sessions b !! lease_session lease = Some s /\ slot s = Some r
    /\ current b = Some (lease_session lease) /\ admitted s = true /\ guard s r = true
    /\ b' = set_session (lease_session lease) (set_slot (Some (set_res_phase next r)) s) b.
Proof.
  unfold start_step. intros Hstep. peel Hstep. unfold is_current in *. bool_facts.
  eexists _, _. by split_and!.
Qed.

Lemma start_step_err lease admitted guard next b e b' :
  start_step lease admitted guard next b = (Err e, b') -> b' = b /\ e = SessionUnavailable.
Proof. unfold start_step. intros Hstep. by peel Hstep. Qed.

Lemma start_step_inv lease admitted guard next b :
  registry_inv b -> clearing b = None ->
  (forall s r, slot_ok s -> slot s = Some r -> guard s r = true ->
     grant_issued r = true /\ is_Some (grant_id r)) ->
  registry_inv (snd (start_step lease admitted guard next b)).
Proof.
  intros Hinv Hnone Hgrant.
  destruct (start_step lease admitted guard next b) as [[[]|e] b'] eqn:Hstep.
  - apply start_step_ok in Hstep as (s & r & Hi & Hs & Hcur & _ & Hguard & ->). cbn.
    pose proof (inv_slot _ Hinv _ _ Hi) as Hok.
    eapply set_session_inv; eauto. intros r' [= <-]. cbn.
    destruct (Hok r Hs) as (? & ? & ? & _). split_and!; try done. intros _. by eapply Hgrant.
  - apply start_step_err in Hstep as [-> _]. done.
Qed.

Lemma lease_matches_grant s r nonce :
  lease_matches s r nonce = true ->
  res_nonce r = nonce /\ grant_issued r = true /\ is_Some (grant_id r).
Proof.
  unfold lease_matches. intros Hm. bool_facts. destruct (grant_id r); [|done].
  match goal with E : String.eqb (res_nonce _) _ = true |- _ => apply String.eqb_eq in E end.
  by split_and!.
Qed.

Lemma release_inv lease aa st b :
  registry_inv b -> clearing b = None -> registry_inv (release lease aa st b).
Proof.
  intros Hinv Hnone. unfold release.
  destruct (sessions b !! lease_session lease) as [s|] eqn:Hi; [|done].
  destruct (release_reservation s (admission_nonce lease) aa st) as [released s'] eqn:Hrel.
  assert (Hs' : slot s' = None /\ released = true \/ s' = s /\ released = false).
  { unfold release_reservation in Hrel. peel Hrel; auto. }
  assert (Hb' : registry_inv (set_session (lease_session lease) s' b)).
  { pose proof (inv_slot _ Hinv _ _ Hi) as Hok. eapply set_session_inv; eauto.
    - destruct Hs' as [[Hn _]|[-> _]]; [|done]. intros r Hr. congruence.
    - destruct Hs' as [[Hn _]|[-> _]]; [|auto]. unfold has_pinned_reservation. by rewrite Hn. }
  destruct (negb (connected s') && released && is_current _ _) eqn:E; [|done]. bool_facts.
  unfold is_current in *. bool_facts. destruct Hs' as [[Hslot _]|[_ ?]]; [|congruence].
  destruct Hb' as [Hp Hc Hok]. constructor; cbn.
  - intros j t Hj Ht. pose proof (Hp j t Hj Ht) as Hcur. cbn in *. exfalso.
    assert (j = lease_session lease) as -> by congruence.
    rewrite list_lookup_insert_eq in Hj by (by eapply lookup_lt_Some). simplify_eq.
    unfold has_pinned_reservation in Ht. by rewrite Hslot in Ht.
  - cbn in Hc. rewrite Hnone. done.
  - done.
Qed.

Lemma unregister_clear_inv b : registry_inv b -> registry_inv (unregister_clear b).
Proof.
  intros Hinv. unfold unregister_clear. destruct (clearing b) as [i|] eqn:Hc; [|done].
  destruct (inv_clearing _ Hinv i Hc) as [Hcur Hno].
  assert (Hnone : forall j s, sessions b !! j = Some s -> has_pinned_reservation s = false).
  { intros j s Hj. destruct (has_pinned_reservation s) eqn:E; [|done].
    pose proof (inv_pinned _ Hinv _ _ Hj E). assert (j = i) as -> by congruence.
    by rewrite (Hno s Hj) in E. }
  destruct (sessions b !! i) as [s|] eqn:Hi; constructor; cbn; try done.
  - intros j t Hj Ht. apply list_lookup_insert_Some in Hj as [(-> & <- & _)|[_ Hj]]; [done|].
    by rewrite (Hnone _ _ Hj) in Ht.
  - intros j t Hj. apply list_lookup_insert_Some in Hj as [(-> & <- & _)|[_ Hj]];
      [by intros r|by eapply inv_slot].
  - intros j t Hj Ht. by rewrite (Hnone _ _ Hj) in Ht.
  - intros j t Hj. by eapply inv_slot.
Qed.

Lemma register_inv i b : registry_inv b -> clearing b = None -> registry_inv (snd (register i b)).
Proof.
  intros Hinv Hnone. unfold register. destruct (occupied b) eqn:Hocc; [done|].
  destruct Hinv as [Hp Hc Hs]. constructor; cbn; try done.
  - intros j s Hj Hpin. exfalso. unfold occupied in Hocc.
    rewrite (Hp j s Hj Hpin) in Hocc. cbn in Hocc. rewrite Hj in Hocc. bool_facts. congruence.
  - rewrite Hnone. done.
Qed.

Lemma new_session_inv nonce ready b : registry_inv b -> registry_inv (snd (new_session nonce ready b)).
Proof.
  intros Hinv. unfold new_session. destruct (u64_checked_add _ 1) as [next|]; [|done].
  assert (Hlook : forall j s, (sessions b ++ [mkRegistered (next_generation b) nonce ready true None])
            !! j = Some s -> sessions b !! j = Some s \/ slot s = None).
  { intros j s Hj. apply lookup_app_Some in Hj as [Hj|[_ Hj]]; [by left|].
    apply list_lookup_singleton_Some in Hj as [_ <-]. by right. }
  destruct Hinv as [Hp Hc Hs]. constructor; cbn.
  - intros j s Hj Hpin. destruct (Hlook j s Hj) as [|Hnone]; [eauto|].
    unfold has_pinned_reservation in Hpin. by rewrite Hnone in Hpin.
  - intros j Hj. destruct (Hc j Hj) as [Hcur Hno]. split; [done|]. intros s Hjs.
    destruct (Hlook j s Hjs) as [|Hnone]; [eauto|]. unfold has_pinned_reservation. by rewrite Hnone.
  - intros j s Hj. destruct (Hlook j s Hj) as [|Hnone]; [eauto|]. intros r Hr. congruence.
Qed.

Lemma perform_inv a b : registry_inv b -> enabled a b = true -> registry_inv (perform a b).
Proof.
  intros Hinv Hen. unfold enabled in Hen.
  assert (Hnone : needs_registry a = true -> clearing b = None).
  { intros Hn. rewrite Hn in Hen. cbn in Hen. bool_facts. done. }
  clear Hen. destruct a; cbn [perform needs_registry] in *.
  - by apply new_session_inv.
  - by apply register_inv; auto.
  - unfold disconnect_session. destruct (sessions b !! i) as [s|] eqn:Hi; [|done].
    eapply set_session_inv; eauto. intros r Hr. cbn in *. by apply (inv_slot _ Hinv _ _ Hi).
  - unfold unregister_test. destruct (bool_decide (current b = Some i)) eqn:Hcur; [|done].
    destruct (sessions b !! i) as [s|] eqn:Hi; [|done].
    destruct (has_pinned_reservation s) eqn:Hpin; [done|]. bool_facts.
    destruct Hinv as [Hp Hc Hs]. constructor; cbn; try done.
    intros j [= <-]. split; [done|]. intros t Ht. congruence.
  - by apply unregister_clear_inv.
  - apply slot_step_inv; [done|intros s; apply slot_available_step|].
    intros s. by rewrite (proj2 (slot_available_step s now)).
  - apply slot_step_inv; [done|intros s; apply reserve_step|].
    intros s. by rewrite (proj2 (reserve_step s now expires_at random)).
  - apply slot_step_inv; [done|intros s; apply reserve_grant_step|].
    intros s. by rewrite (proj2 (reserve_grant_step s now nonce random)).
  - apply start_step_inv; auto. intros s r _ _ [[Hg _]%andb_true_iff _]%andb_true_iff.
    by apply lease_matches_grant in Hg as [_ ?].
  - apply start_step_inv; auto. intros s r _ _ [Hg _]%andb_true_iff.
    by apply lease_matches_grant in Hg as [_ ?].
  - apply start_step_inv; auto. intros s r _ _ [Hg _]%andb_true_iff.
    by apply lease_matches_grant in Hg as [_ ?].
  - apply start_step_inv; auto. intros s r Hok Hr Hg. bool_facts.
    destruct (Hok r Hr) as (_ & _ & _ & Hgrant). apply Hgrant.
    unfold is_pinned. rewrite bool_decide_eq_false_2; [done|congruence].
  - by apply release_inv; auto.
Qed.

(** A broker that some interleaving of its threads reaches. *)
Definition reachable (b : BrokerInner) : Prop :=
  exists c b0 actions, broker_new c = Ok b0 /\ execute actions b0 = Some b.

Lemma execute_inv actions b b' :
  registry_inv b -> execute actions b = Some b' -> registry_inv b'.
Proof.
  revert b. induction actions as [|a actions IH]; intros b Hinv Hex; cbn in Hex.
  { by simplify_eq. }
  destruct (enabled a b) eqn:Hen; [|done]. eapply IH; [|done]. by apply perform_inv.
Qed.

Lemma reachable_inv b : reachable b -> registry_inv b.
Proof.
  intros (c & b0 & actions & Hnew & Hex). eapply execute_inv; [|exact Hex].
  unfold broker_new in Hnew. by peel Hnew.
Qed.

(** C33. At most one execution is in flight: in every interleaving of
    connections, disconnections, readiness polls, claims, grants and starts, at
    most one session holds a pinned reservation, it is the registered session,
    and its reservation carries that session's identity and an issued grant. *)
Theorem single_flight b i j s t :
  reachable b -> sessions b !! i = Some s -> sessions b !! j = Some t ->
  has_pinned_reservation s = true -> has_pinned_reservation t = true ->
  i = j /\ current b = Some i
  /\ exists r, slot s = Some r /\ res_generation r = generation s
       /\ res_session_nonce r = reg_session_nonce s /\ is_Some (grant_id r).
Proof.
  intros Hb Hi Hj Hs Ht. apply reachable_inv in Hb as Hinv.
  pose proof (inv_pinned _ Hinv _ _ Hi Hs) as Hci. pose proof (inv_pinned _ Hinv _ _ Hj Ht) as Hcj.
  split; [congruence|]. split; [done|]. unfold has_pinned_reservation in Hs.
  destruct (slot s) as [r|] eqn:Hr; [|done].
  destruct (inv_slot _ Hinv _ _ Hi r Hr) as (? & ? & ? & Hg). destruct (Hg Hs). eauto 10.
Qed.

(** ** The fate of a pinned reservation *)

Definition slot_of (b : BrokerInner) (i : nat) : option ProtocolAdmission :=
  sessions b !! i ≫= slot.

Definition phase_rank (p : ReservationPhase) : Z :=
  match p with
  | PreStart => 0
  | PinnedForCas => 1
  | AttemptingStart => 2
  | StartOutcomeUnknown => 3
  | StartStarted => 4
  end.

(** The same reservation, no earlier in its phases. *)
Definition kept (r : ProtocolAdmission) (o : option ProtocolAdmission) : Prop :=
  exists r', o = Some r' /\ res_nonce r' = res_nonce r
    /\ phase_rank (res_phase r) <= phase_rank (res_phase r').

Lemma kept_refl r : kept r (Some r).
Proof. exists r. split_and!; (done || lia). Qed.

Lemma kept_trans r r' o : kept r (Some r') -> kept r' o -> kept r o.
Proof.
  intros (? & [= <-] & Hn & Hp) (r2 & -> & Hn2 & Hp2). exists r2. split_and!; (congruence || lia).
Qed.

Lemma slot_of_some b i r : slot_of b i = Some r <->
  exists s, sessions b !! i = Some s /\ slot s = Some r.
Proof. unfold slot_of. destruct (sessions b !! i); cbn; naive_solver. Qed.

Lemma slot_of_set_session b i j s t :
  sessions b !! i = Some s ->
  slot_of (set_session i t b) j = if bool_decide (i = j) then slot t else slot_of b j.
Proof.
  intros Hi. unfold slot_of. cbn. case_bool_decide as Hij.
  - subst j. by rewrite list_lookup_insert_eq by (by eapply lookup_lt_Some).
  - by rewrite list_lookup_insert_ne.
Qed.

Lemma is_pinned_phase r : is_pinned r = true <-> res_phase r <> PreStart.
Proof. unfold is_pinned. rewrite negb_true_iff, bool_decide_eq_false. done. Qed.

(** Slot operations that need no registry lock do not touch a pinned slot. *)
Lemma slot_op_pinned s r :
  slot s = Some r -> is_pinned r = true ->
  (forall now, slot (snd (slot_available s now)) = Some r)
  /\ (forall now expires_at random, slot (snd (reserve s now expires_at random)) = Some r)
  /\ (forall now nonce random, slot (snd (reserve_grant s now nonce random)) = Some r).
Proof.
  intros Hs Hp%is_pinned_phase.
  assert (Hb : bool_decide (res_phase r = PreStart) = false) by by apply bool_decide_eq_false.
  split_and!; intros.
  - unfold slot_available. rewrite Hs, Hb. done.
  - unfold reserve. destruct (_ || _); [done|]. rewrite Hs, Hb. done.
  - unfold reserve_grant. rewrite Hs, Hb. cbn. by rewrite orb_true_r.
Qed.

Lemma on_session_pinned {A} b i j (f : RegisteredRunnerSession -> A * RegisteredRunnerSession) r :
  slot_of b i = Some r ->
  (forall s, slot s = Some r -> slot (snd (f s)) = Some r) -> slot_of (on_session j f b) i = Some r.
Proof.
  intros (s & Hi & Hs)%slot_of_some Hf. unfold on_session.
  destruct (sessions b !! j) as [t|] eqn:Hj; [|apply slot_of_some; eauto].
  rewrite (slot_of_set_session _ _ _ _ _ Hj). case_bool_decide; [|apply slot_of_some; eauto].
  subst. simplify_eq. by apply Hf.
Qed.

(** A start step advances the phase or leaves the slot alone. *)
Lemma start_step_kept lease admitted guard next b i r :
  slot_of b i = Some r ->
  (forall s r, guard s r = true -> phase_rank (res_phase r) <= phase_rank next) ->
  kept r (slot_of (snd (start_step lease admitted guard next b)) i).
Proof.
  intros Hr Hg. destruct (start_step lease admitted guard next b) as [[[]|e] b'] eqn:Hstep.
  - apply start_step_ok in Hstep as (s & r0 & Hj & Hs & _ & _ & Hguard & ->). cbn [snd].
    rewrite (slot_of_set_session _ _ _ _ _ Hj). case_bool_decide; [|rewrite Hr; apply kept_refl].
    subst. apply slot_of_some in Hr as (s' & Hj' & Hs'). simplify_eq.
    eexists. split; [done|]. cbn. split; [done|]. by eapply Hg.
  - apply start_step_err in Hstep as [-> _]. cbn. rewrite Hr. apply kept_refl.
Qed.

Lemma release_kept lease aa st b i r :
  slot_of b i = Some r ->
  slot_of (release lease aa st b) i = Some r
  \/ lease = mkLease i (res_nonce r) /\ release_allowed r aa st = true.
Proof.
  intros Hr. unfold release.
  destruct (sessions b !! lease_session lease) as [s|] eqn:Hj; [|by left].
  destruct (release_reservation s (admission_nonce lease) aa st) as [released s'] eqn:Hrel.
  assert (Hcur : forall (c : bool) b', slot_of (if c then set_current None b' else b') i
                 = slot_of b' i) by (by intros []). cbv zeta. rewrite Hcur.
  rewrite (slot_of_set_session _ _ _ _ _ Hj). case_bool_decide as Heq; [|by left].
  apply slot_of_some in Hr as (t & Ht & Hslot). rewrite <- Heq, Hj in Ht. simplify_eq.
  unfold release_reservation in Hrel. rewrite Hslot in Hrel.
  destruct (String.eqb_spec (res_nonce r) (admission_nonce lease)) as [Hn|]; cbn in Hrel.
  - destruct (release_allowed r aa st) eqn:Ha; simplify_eq; [|by left].
    right. split; [|done]. destruct lease. cbn in *. by subst.
  - simplify_eq. by left.
Qed.

(** Actions that concern no reservation of their own. *)
Definition quiet (a : action) : bool :=
  match a with
  | APin _ _ | ABegin _ | AConfirm _ | AUncertain _ | ARelease _ _ _ => false
  | _ => true
  end.

Lemma quiet_step b a i r :
  registry_inv b -> quiet a = true -> slot_of b i = Some r -> is_pinned r = true ->
  slot_of (perform a b) i = Some r.
Proof.
  intros Hinv Hq Hr Hp. pose proof Hr as (s & Hi & Hs)%slot_of_some.
  destruct a; cbn [perform quiet] in *; try done.
  - unfold new_session. destruct (u64_checked_add _ 1); [|done].
    apply slot_of_some. exists s. split; [|done]. cbn. by apply lookup_app_l_Some.
  - unfold register. by destruct (occupied b).
  - unfold disconnect_session. destruct (sessions b !! i0) as [t|] eqn:Hj; [|done].
    rewrite (slot_of_set_session _ _ _ _ _ Hj). case_bool_decide; [|done]. subst. cbn. congruence.
  - unfold unregister_test. by repeat case_match.
  - unfold unregister_clear. destruct (clearing b) as [j|] eqn:Hc; [|done].
    assert (Hpin : has_pinned_reservation s = true)
      by (unfold has_pinned_reservation; by rewrite Hs).
    destruct (inv_clearing _ Hinv j Hc) as [Hcur Hno].
    pose proof (inv_pinned _ Hinv _ _ Hi Hpin) as Hcur'. rewrite Hcur in Hcur'. simplify_eq.
    by rewrite (Hno s Hi) in Hpin.
  - apply on_session_pinned; [done|]. intros t Ht. by apply (slot_op_pinned t r Ht Hp).
  - apply on_session_pinned; [done|]. intros t Ht. by apply (slot_op_pinned t r Ht Hp).
  - apply on_session_pinned; [done|]. intros t Ht. by apply (slot_op_pinned t r Ht Hp).
Qed.

Lemma pinned_step b a i r :
  registry_inv b -> slot_of b i = Some r -> is_pinned r = true ->
  kept r (slot_of (perform a b) i)
  \/ exists aa st, a = ARelease (mkLease i (res_nonce r)) aa st /\ release_allowed r aa st = true.
Proof.
  intros Hinv Hr Hp. destruct (quiet a) eqn:Hq.
  { left. rewrite (quiet_step _ _ _ _ Hinv Hq Hr Hp). apply kept_refl. }
  destruct a; cbn [perform quiet] in *; try done;
    try (left; apply start_step_kept; [done|]; intros s0 r0 Hg; bool_facts;
         destruct (res_phase r0); cbn; (done || lia); fail).
  destruct (release_kept lease allow_attempting allow_started b i r Hr) as [Hk|[-> Ha]];
    [left; rewrite Hk; apply kept_refl|right; eauto].
Qed.

(** A pinned reservation belongs to its lease: whatever the other threads do
    (readiness polls, new claims, expiry, disconnects, new connections), the
    reservation stays in its slot and only moves forward, unless its own lease
    releases it, and that only in a phase the release allows. *)
Theorem pinned_reservation_fate b a i r :
  reachable b -> enabled a b = true -> slot_of b i = Some r -> is_pinned r = true ->
  kept r (slot_of (perform a b) i)
  \/ exists aa st, a = ARelease (mkLease i (res_nonce r)) aa st /\ release_allowed r aa st = true.
Proof. intros Hb _. apply pinned_step. by apply reachable_inv. Qed.

(** The release only a signed cleanup performs. *)
Definition is_signed_cleanup (i : nat) (nonce : string) (a : action) : bool :=
  match a with
  | ARelease lease _ true =>
      bool_decide (lease_session lease = i) && String.eqb (admission_nonce lease) nonce
  | _ => false
  end.

Definition committed (r : ProtocolAdmission) : bool := 3 <=? phase_rank (res_phase r).

Lemma committed_pinned r : committed r = true -> is_pinned r = true.
Proof. unfold committed. rewrite is_pinned_phase. by destruct (res_phase r). Qed.

Lemma committed_release r aa : committed r = true -> release_allowed r aa false = false.
Proof. unfold committed, release_allowed. by destruct (res_phase r), aa. Qed.

Lemma committed_kept r o : committed r = true -> kept r o ->
  exists r', o = Some r' /\ res_nonce r' = res_nonce r /\ committed r' = true.
Proof.
  intros Hc (r' & -> & Hn & Hp). exists r'. split_and!; [done|done|].
  unfold committed in *. bool_facts. apply Z.leb_le. lia.
Qed.

Lemma committed_trace actions b b' i r :
  registry_inv b -> execute actions b = Some b' -> slot_of b i = Some r ->
  committed r = true -> forallb (fun a => negb (is_signed_cleanup i (res_nonce r) a)) actions = true ->
  registry_inv b' /\ exists r', slot_of b' i = Some r' /\ res_nonce r' = res_nonce r
    /\ committed r' = true.
Proof.
  revert b r. induction actions as [|a actions IH]; intros b r Hinv Hex Hr Hc Hno; cbn in *.
  { simplify_eq. eauto 10. }
  destruct (enabled a b) eqn:Hen; [|done]. bool_facts.
  assert (Hinv' : registry_inv (perform a b)) by by apply perform_inv.
  destruct (pinned_step b a i r Hinv Hr (committed_pinned r Hc)) as [Hk|(aa & st & -> & Ha)].
  - destruct (committed_kept _ _ Hc Hk) as (r1 & Hr1 & Hn1 & Hc1).
    destruct (IH _ r1 Hinv' Hex Hr1 Hc1) as (Hfin & r2 & ? & ? & ?); [by rewrite Hn1|].
    split; [done|]. exists r2. split_and!; congruence.
  - exfalso. destruct st; [|by rewrite committed_release in Ha].
    match goal with E : is_signed_cleanup _ _ _ = false |- _ => cbn in E end.
    rewrite bool_decide_eq_true_2, String.eqb_refl in *; done.
Qed.

(** C34. Past the point of no return the slot is held until a signed cleanup:
    once a start may have reached the runner (its outcome unknown, or a byte of
    it written), no interleaving without the signed cleanup of that very lease
    frees the reservation, and as long as it stands no other session can
    register, no new reservation can be made and the slot is not available,
    however long the runner has been gone. *)
Theorem committed_start_survives b actions b' i r j now expires_at random :
  reachable b -> slot_of b i = Some r -> committed r = true ->
  execute actions b = Some b' ->
  forallb (fun a => negb (is_signed_cleanup i (res_nonce r) a)) actions = true ->
  (exists r', slot_of b' i = Some r' /\ res_nonce r' = res_nonce r /\ committed r' = true)
  /\ fst (register j b') = Err DuplicateSession
  /\ (forall s, sessions b' !! i = Some s ->
        is_ok (fst (reserve s now expires_at random)) = false
        /\ fst (slot_available s now) = false).
Proof.
  intros Hb Hr Hc Hex Hno. apply reachable_inv in Hb as Hinv.
  destruct (committed_trace _ _ _ _ _ Hinv Hex Hr Hc Hno) as (Hinv' & r' & Hr' & Hn & Hc').
  split; [by eauto|]. pose proof Hr' as (s & Hi & Hs)%slot_of_some.
  pose proof (committed_pinned _ Hc') as Hp.
  assert (Hpin : has_pinned_reservation s = true) by (unfold has_pinned_reservation; by rewrite Hs).
  split.
  - unfold register, occupied. rewrite (inv_pinned _ Hinv' _ _ Hi Hpin). cbn.
    by rewrite Hi, Hpin, orb_true_r.
  - intros t Ht. rewrite Hi in Ht. simplify_eq.
    apply is_pinned_phase in Hp. unfold reserve, slot_available. rewrite Hs.
    rewrite (bool_decide_eq_false_2 _ Hp). cbn. rewrite Hs. split; [by destruct (_ || _)|done].
Qed.

(** ** Writing the start frame (scheduled_runner_tls.rs)

    The transport answers each poll; between two polls the other threads act.
    A script that ends is a write whose timeout fires. *)

Inductive poll :=
| PollPending
| PollReady (written : Z)
| PollError.

Inductive write_result :=
| WriteOk
| WriteInvalidFrame
| WriteIo
| WriteTimeout
| WritePanic.

#[export] Instance write_result_eq_dec : EqDecision write_result.
Proof. solve_decision. Defined.

(** The three one-shot observers (still to be called or not), what the
    transport accepted and whether it ever left a poll pending. *)
Record Writer := mkWriter {
  inner : BrokerInner;
  on_first_poll : bool;
  on_first_pending : bool;
  on_first_byte : bool;
  accepted : Z;
  pended : bool
}.

Definition set_inner (b : BrokerInner) (w : Writer) : Writer :=
  mkWriter b (on_first_poll w) (on_first_pending w) (on_first_byte w) (accepted w) (pended w).

(** [observer.take()] and its call, if it is still there. *)
Definition observe_poll (lease : ReservationLease) (w : Writer) : bool * Writer :=
  if on_first_poll w then
    let '(r, b) := begin_start_attempt lease (inner w) in
    (is_ok r, mkWriter b false (on_first_pending w) (on_first_byte w) (accepted w) (pended w))
  else (true, w).

Definition observe_pending (lease : ReservationLease) (w : Writer) : bool * Writer :=
  if on_first_pending w then
    let '(r, b) := mark_start_uncertain lease (inner w) in
    (is_ok r, mkWriter b (on_first_poll w) false (on_first_byte w) (accepted w) true)
  else (true, mkWriter (inner w) (on_first_poll w) false (on_first_byte w) (accepted w) true).

Definition observe_byte (lease : ReservationLease) (written : Z) (w : Writer) : bool * Writer :=
  if on_first_byte w then
    let '(r, b) := confirm_start_byte lease (inner w) in
    (is_ok r,
     mkWriter b (on_first_poll w) (on_first_pending w) false (accepted w + written) (pended w))
  else (true, mkWriter (inner w) (on_first_poll w) (on_first_pending w) false
                (accepted w + written) (pended w)).

(** [None]: the script asks for an action the registry lock forbids. *)
Fixpoint write_all_observed (lease : ReservationLease) (buffer : Z)
    (script : list (list action * poll)) (w : Writer) :
    option (write_result * list (list action * poll) * Writer) :=
  if buffer =? 0 then Some (WriteOk, script, w)
  else match script with
  | [] => Some (WriteTimeout, [], w)
  | (others, p) :: rest =>
      match execute others (inner w) with
      | None => None
      | Some b =>
          if negb (bool_decide (clearing b = None)) then None
          else
            let '(ok, w1) := observe_poll lease (set_inner b w) in
            if negb ok then Some (WriteIo, rest, w1)
            else match p with
            | PollPending =>
                let '(ok, w2) := observe_pending lease w1 in
                if negb ok then Some (WriteIo, rest, w2)
                else write_all_observed lease buffer rest w2
            | PollReady written =>
                if 0 <? written then
                  let '(ok, w2) := observe_byte lease written w1 in
                  if negb ok then Some (WriteIo, rest, w2)
                  else if buffer <? written then Some (WritePanic, rest, w2)
                  else write_all_observed lease (buffer - written) rest w2
                else Some (WriteIo, rest, w1)
            | PollError => Some (WriteIo, rest, w1)
            end
      end
  end.

(** The length prefix, then the frame, then the flush: [flush] is what the other
    threads do meanwhile and how it ends. *)
Definition write_frame_observed `{Serde} (lease : ReservationLease) (frame : RemoteFrame)
    (script : list (list action * poll)) (flush : list action * write_result) (b : BrokerInner) :
    option (write_result * Writer) :=
  let w := mkWriter b true true true 0 false in
  match encode frame with
  | Err _ => Some (WriteInvalidFrame, w)
  | Ok encoded =>
      if negb (in_u32 (len encoded)) then Some (WriteInvalidFrame, w)
      else
        '(r, rest, w1) ← write_all_observed lease 4 script w;
        if negb (bool_decide (r = WriteOk)) then Some (r, w1)
        else
          '(r, rest, w2) ← write_all_observed lease (len encoded) rest w1;
          if negb (bool_decide (r = WriteOk)) then Some (r, w2)
          else
            b3 ← execute (fst flush) (inner w2);
            Some (snd flush, set_inner b3 w2)
  end.

Definition write_start_frame `{Serde} (lease : ReservationLease) (frame : RemoteFrame)
    (script : list (list action * poll)) (flush : list action * write_result) (b : BrokerInner) :
    option (write_result * Writer) :=
  '(r, w) ← write_frame_observed lease frame script flush b;
  if bool_decide (r = WriteOk) || bool_decide (r = WritePanic) then Some (r, w)
  else if negb (bool_decide (clearing (inner w) = None)) then None
  else Some (r, set_inner (release_after_zero_byte_start_failure lease (inner w)) w).

(** The other threads hold other leases. *)
Definition foreign (lease : ReservationLease) (a : action) : bool :=
  match a with
  | APin l _ | ABegin l | AConfirm l | AUncertain l | ARelease l _ _ =>
      negb (bool_decide (lease_session l = lease_session lease)
            && String.eqb (admission_nonce l) (admission_nonce lease))
  | _ => true
  end.

Lemma foreign_start_step lease l admitted guard next b r :
  slot_of b (lease_session lease) = Some r -> res_nonce r = admission_nonce lease ->
  (forall s r, guard s r = true -> res_nonce r = admission_nonce l) ->
  bool_decide (lease_session l = lease_session lease)
    && String.eqb (admission_nonce l) (admission_nonce lease) = false ->
  slot_of (snd (start_step l admitted guard next b)) (lease_session lease) = Some r.
Proof.
  intros Hr Hn Hg Hforeign.
  destruct (start_step l admitted guard next b) as [[[]|e] b'] eqn:Hstep.
  - apply start_step_ok in Hstep as (s & r0 & Hj & Hs & _ & _ & Hguard & ->). cbn [snd].
    rewrite (slot_of_set_session _ _ _ _ _ Hj).
    destruct (decide (lease_session l = lease_session lease)) as [Heq|Hne];
      [|by rewrite bool_decide_eq_false_2]. exfalso.
    rewrite bool_decide_eq_true_2 in Hforeign by done. cbn in Hforeign.
    apply String.eqb_neq in Hforeign. apply Hforeign.
    apply slot_of_some in Hr as (s' & Hj' & Hs'). rewrite <- Heq, Hj in Hj'. simplify_eq.
    by rewrite <- (Hg _ _ Hguard).
  - apply start_step_err in Hstep as [-> _]. done.
Qed.

(** Other leases do not touch a pinned reservation at all. *)
Lemma foreign_step lease a b r :
  registry_inv b -> foreign lease a = true ->
  slot_of b (lease_session lease) = Some r -> res_nonce r = admission_nonce lease ->
  is_pinned r = true -> slot_of (perform a b) (lease_session lease) = Some r.
Proof.
  intros Hinv Hf Hr Hn Hp. destruct (quiet a) eqn:Hq; [by apply quiet_step|].
  destruct a; cbn [foreign perform quiet] in *; try done; apply negb_true_iff in Hf;
    try (apply foreign_start_step; [done|done| |done]; intros s0 r0 Hg; bool_facts;
         first [by apply String.eqb_eq | by eapply lease_matches_grant]; fail).
  destruct (release_kept lease0 allow_attempting allow_started b _ r Hr) as [Hk|[-> _]]; [done|].
  exfalso. cbn in Hf. rewrite bool_decide_eq_true_2, Hn, String.eqb_refl in Hf; done.
Qed.

Lemma foreign_execute lease actions b b' r :
  registry_inv b -> forallb (foreign lease) actions = true -> execute actions b = Some b' ->
  slot_of b (lease_session lease) = Some r -> res_nonce r = admission_nonce lease ->
  is_pinned r = true -> slot_of b' (lease_session lease) = Some r.
Proof.
  revert b. induction actions as [|a actions IH]; intros b Hinv Hf Hex Hr Hn Hp; cbn in *.
  { by simplify_eq. }
  destruct (enabled a b) eqn:Hen; [|done]. bool_facts.
  apply (IH (perform a b)); [by apply perform_inv|done|done|by apply foreign_step|done|done].
Qed.

(** A reservation past its pin, in a given phase, for this lease. *)
Definition holds (lease : ReservationLease) (b : BrokerInner) (p : ReservationPhase) : Prop :=
  exists r, slot_of b (lease_session lease) = Some r /\ res_nonce r = admission_nonce lease
    /\ res_phase r = p.

(** What the observers called so far say about the reservation. *)
Record writer_inv (lease : ReservationLease) (w : Writer) : Prop := {
  wi_registry : registry_inv (inner w);
  wi_untouched : on_first_poll w = true ->
    accepted w = 0 /\ pended w = false /\ on_first_pending w = true /\ on_first_byte w = true;
  wi_phase : on_first_poll w = false ->
    holds lease (inner w)
      (if negb (on_first_byte w) then StartStarted
       else if negb (on_first_pending w) then StartOutcomeUnknown else AttemptingStart);
  wi_accepted : 0 <= accepted w /\ (0 < accepted w -> on_first_byte w = false);
  wi_pended : pended w = true -> on_first_pending w = false
}.

Lemma holds_execute lease actions b b' p :
  registry_inv b -> forallb (foreign lease) actions = true -> execute actions b = Some b' ->
  p <> PreStart -> holds lease b p -> holds lease b' p.
Proof.
  intros Hinv Hf Hex Hp (r & Hr & Hn & Hph). exists r. split; [|done].
  eapply foreign_execute; eauto. apply is_pinned_phase. congruence.
Qed.

Lemma writer_execute lease actions w b :
  writer_inv lease w -> forallb (foreign lease) actions = true ->
  execute actions (inner w) = Some b -> writer_inv lease (set_inner b w).
Proof.
  intros [] Hf Hex. constructor; cbn; try done; [by eapply execute_inv|].
  intros Hpoll. eapply holds_execute; eauto. by repeat case_match.
Qed.

(** The start steps of the lease that holds a reservation of this kind. *)
Lemma begin_holds lease b b' :
  begin_start_attempt lease b = (Ok tt, b') -> holds lease b' AttemptingStart.
Proof.
  intros (s & r & Hi & Hs & _ & _ & Hg & ->)%start_step_ok. bool_facts.
  match goal with E : lease_matches _ _ _ = true |- _ => apply lease_matches_grant in E as [Hn _] end.
  eexists. rewrite (slot_of_set_session _ _ _ _ _ Hi), bool_decide_eq_true_2 by done. by split_and!.
Qed.

Lemma uncertain_holds lease b :
  registry_inv b -> holds lease b AttemptingStart ->
  fst (mark_start_uncertain lease b) = Ok tt
  /\ holds lease (snd (mark_start_uncertain lease b)) StartOutcomeUnknown.
Proof.
  intros Hinv (r & (s & Hi & Hs)%slot_of_some & Hn & Hp).
  assert (Hcur : current b = Some (lease_session lease)).
  { eapply inv_pinned; eauto. unfold has_pinned_reservation. rewrite Hs.
    apply is_pinned_phase. congruence. }
  unfold mark_start_uncertain, start_step, is_current.
  rewrite Hi, Hs, Hcur, bool_decide_eq_true_2, Hn, String.eqb_refl by done. cbn.
  rewrite bool_decide_eq_true_2 by done. cbn. split; [done|].
  eexists. rewrite (slot_of_set_session _ _ _ _ _ Hi), bool_decide_eq_true_2 by done. by split_and!.
Qed.

Lemma confirm_holds lease b p :
  registry_inv b -> holds lease b p -> p = AttemptingStart \/ p = StartOutcomeUnknown ->
  fst (confirm_start_byte lease b) = Ok tt
  /\ holds lease (snd (confirm_start_byte lease b)) StartStarted.
Proof.
  intros Hinv (r & (s & Hi & Hs)%slot_of_some & Hn & Hp) Hcase.
  assert (Hpin : is_pinned r = true) by (apply is_pinned_phase; destruct Hcase; congruence).
  assert (Hcur : current b = Some (lease_session lease)).
  { eapply inv_pinned; eauto. unfold has_pinned_reservation. by rewrite Hs. }
  destruct (inv_slot _ Hinv _ _ Hi r Hs) as (Hg & Hsn & Hch & Hgr).
  destruct (Hgr Hpin) as [Hissued [id Hid]].
  assert (Hm : lease_matches s r (admission_nonce lease) = true).
  { unfold lease_matches. rewrite Hn, Hg, Hsn, Hch, Hissued, Hid.
    by rewrite !String.eqb_refl, Z.eqb_refl. }
  unfold confirm_start_byte, start_step, is_current.
  rewrite Hi, Hs, Hcur, bool_decide_eq_true_2, Hm by done. cbn [andb negb].
  replace (match res_phase r with AttemptingStart | StartOutcomeUnknown => true | _ => false end)
    with true by (rewrite Hp; destruct Hcase as [->| ->]; done). cbn. split; [done|].
  eexists. rewrite (slot_of_set_session _ _ _ _ _ Hi), bool_decide_eq_true_2 by done. by split_and!.
Qed.

(** The reservation agrees with what the transport has seen. *)
Definition secured (lease : ReservationLease) (w : Writer) : Prop :=
  registry_inv (inner w)
  /\ (0 < accepted w -> holds lease (inner w) StartStarted)
  /\ (pended w = true ->
      holds lease (inner w) StartStarted \/ holds lease (inner w) StartOutcomeUnknown).

Lemma writer_secured lease w : writer_inv lease w -> secured lease w.
Proof.
  intros [Hreg Hun Hph [Hacc0 Hacc] Hpend]. split; [done|]. destruct (on_first_poll w).
  { destruct (Hun eq_refl) as (Ha & Hp & _). split; [lia|congruence]. }
  specialize (Hph eq_refl). split.
  - intros Ha. by rewrite (Hacc Ha) in Hph.
  - intros Hp. rewrite (Hpend Hp) in Hph. destruct (on_first_byte w); auto.
Qed.

Lemma observe_poll_inv lease w ok w' :
  writer_inv lease w -> clearing (inner w) = None -> observe_poll lease w = (ok, w') ->
  secured lease w' /\ clearing (inner w') = None
  /\ (ok = true -> writer_inv lease w' /\ on_first_poll w' = false).
Proof.
  intros X Hnone Hobs. unfold observe_poll in Hobs. destruct (on_first_poll w) eqn:Hpoll.
  2:{ simplify_eq. split; [by apply writer_secured|done]. }
  pose proof (perform_inv (ABegin lease) (inner w) (wi_registry _ _ X)) as Hinv.
  unfold enabled in Hinv. rewrite Hnone in Hinv. specialize (Hinv eq_refl). cbn [perform] in Hinv.
  destruct (wi_untouched _ _ X Hpoll) as (Ha & Hp & Hfp & Hfb).
  destruct (begin_start_attempt lease (inner w)) as [[[]|e] b] eqn:Hbegin; simplify_eq; cbn in *.
  - apply begin_holds in Hbegin as Hh.
    assert (Hc : clearing b = None).
    { apply start_step_ok in Hbegin as (? & ? & _ & _ & _ & _ & _ & ->). done. }
    assert (Hw : writer_inv lease (mkWriter b false (on_first_pending w) (on_first_byte w)
                   (accepted w) (pended w))).
    { constructor; cbn; try done; [|rewrite Ha; lia|congruence].
      intros _. by rewrite Hfp, Hfb. }
    split; [by apply writer_secured|done].
  - apply start_step_err in Hbegin as [-> _]. split; [|done].
    split; [apply (wi_registry _ _ X)|]. cbn. rewrite Ha, Hp. split; [lia|done].
Qed.

Lemma observe_pending_inv lease w ok w' :
  writer_inv lease w -> on_first_poll w = false -> clearing (inner w) = None ->
  observe_pending lease w = (ok, w') ->
  writer_inv lease w' /\ on_first_poll w' = false
  /\ (ok = false -> on_first_byte w = false).
Proof.
  intros X Hpoll Hnone Hobs. pose proof (wi_phase _ _ X Hpoll) as Hph.
  unfold observe_pending in Hobs. destruct (on_first_pending w) eqn:Hfp.
  2:{ simplify_eq. split; [|done]. destruct X. constructor; cbn; try done; congruence. }
  pose proof (perform_inv (AUncertain lease) (inner w) (wi_registry _ _ X)) as Hinv.
  unfold enabled in Hinv. rewrite Hnone in Hinv. specialize (Hinv eq_refl). cbn [perform] in Hinv.
  destruct (on_first_byte w) eqn:Hfb; cbn in Hph.
  - destruct (uncertain_holds lease _ (wi_registry _ _ X) Hph) as [Hok Hh].
    destruct (mark_start_uncertain lease (inner w)) as [r b]. cbn in *. subst r. simplify_eq.
    split; [|done]. destruct X. constructor; cbn in *; try done; congruence.
  - destruct (mark_start_uncertain lease (inner w)) as [r b] eqn:Hmark. simplify_eq. cbn in *.
    split; [|done].
    assert (Hh : holds lease b StartStarted).
    { destruct r as [[]|e].
      - apply start_step_ok in Hmark as (s & r & Hi & Hs & _ & _ & Hg & ->). exfalso. bool_facts.
        destruct Hph as (r' & (s' & Hi' & Hs')%slot_of_some & _ & Hp). simplify_eq. congruence.
      - by apply start_step_err in Hmark as [-> _]. }
    destruct X. constructor; cbn; try done; congruence.
Qed.

Lemma observe_byte_inv lease n w ok w' :
  writer_inv lease w -> on_first_poll w = false -> clearing (inner w) = None -> 0 < n ->
  observe_byte lease n w = (ok, w') ->
  ok = true /\ writer_inv lease w' /\ on_first_poll w' = false
  /\ on_first_byte w' = false /\ 0 < accepted w'.
Proof.
  intros X Hpoll Hnone Hn Hobs. pose proof (wi_phase _ _ X Hpoll) as Hph.
  pose proof (wi_accepted _ _ X) as [Ha0 Ha]. unfold observe_byte in Hobs.
  destruct (on_first_byte w) eqn:Hfb; cbn in Hph.
  2:{ simplify_eq. cbn. split_and!; try done; [|lia]. destruct X.
      constructor; cbn; try done; try congruence. split; [lia|done]. }
  pose proof (perform_inv (AConfirm lease) (inner w) (wi_registry _ _ X)) as Hinv.
  unfold enabled in Hinv. rewrite Hnone in Hinv. specialize (Hinv eq_refl). cbn [perform] in Hinv.
  destruct (confirm_holds lease _ _ (wi_registry _ _ X) Hph) as [Hok Hh];
    [destruct (on_first_pending w); cbn; auto|].
  destruct (confirm_start_byte lease (inner w)) as [r b]. cbn in *. subst r. simplify_eq. cbn.
  split_and!; try done; [|lia]. destruct X. constructor; cbn; try done; try congruence.
  split; [lia|done].
Qed.

Definition foreign_script (lease : ReservationLease) (script : list (list action * poll)) : bool :=
  forallb (fun step => forallb (foreign lease) (fst step)) script.

Lemma write_all_secured lease script : forall buffer w r rest w',
  writer_inv lease w -> 0 <= buffer -> foreign_script lease script = true ->
  write_all_observed lease buffer script w = Some (r, rest, w') ->
  secured lease w' /\ foreign_script lease rest = true
  /\ (r = WriteOk -> writer_inv lease w' /\ (0 < accepted w -> 0 < accepted w')
                     /\ (0 < buffer -> 0 < accepted w')).
Proof.
  induction script as [|[others p] script IH]; intros buffer w r rest w' X Hbuf Hf Hrun;
    cbn [write_all_observed] in Hrun.
  { destruct (buffer =? 0) eqn:E; bool_facts; simplify_eq; (split; [by apply writer_secured|]);
      (split; [done|]); [|done]. intros _. split; [done|]. split; [done|lia]. }
  destruct (buffer =? 0) eqn:E; bool_facts.
  { simplify_eq. split; [by apply writer_secured|]. split; [done|]. intros _.
    split; [done|]. split; [done|lia]. }
  cbn [foreign_script forallb fst] in Hf. apply andb_true_iff in Hf as [Hfo Hf].
  change (foreign_script lease script = true) in Hf.
  destruct (execute others (inner w)) as [b|] eqn:Hex; [|done].
  apply (writer_execute _ _ _ _ X Hfo) in Hex as X0.
  destruct (bool_decide (clearing b = None)) eqn:Hnone; [|done]. cbn [negb] in Hrun. bool_facts.
  destruct (observe_poll lease (set_inner b w)) as [ok w1] eqn:Hobs.
  pose proof Hobs as Hobs'. apply (observe_poll_inv _ _ _ _ X0 Hnone) in Hobs as (Hsec & Hc1 & Hok).
  assert (Ha1 : accepted w1 = accepted w).
  { unfold observe_poll in Hobs'. by repeat (split_match_in Hobs'; simplify_eq). }
  destruct ok; cbn [negb] in Hrun; [|by simplify_eq]. destruct (Hok eq_refl) as [X1 Hp1].
  destruct p as [|n|]; [| |by simplify_eq].
  - destruct (observe_pending lease w1) as [ok w2] eqn:Hpend.
    assert (Ha2 : accepted w2 = accepted w1).
    { unfold observe_pending in Hpend. by repeat (split_match_in Hpend; simplify_eq). }
    apply (observe_pending_inv _ _ _ _ X1 Hp1 Hc1) in Hpend as (X2 & Hp2 & _).
    destruct ok; cbn [negb] in Hrun.
    + destruct (IH _ _ _ _ _ X2 Hbuf Hf Hrun) as (? & ? & Hfin). split; [done|]. split; [done|].
      intros Hr. destruct (Hfin Hr) as (? & Hm & ?). split_and!; try done. intros; apply Hm; lia.
    + simplify_eq. split; [by apply writer_secured|done].
  - destruct (0 <? n) eqn:Hn; [|by simplify_eq]. bool_facts.
    destruct (observe_byte lease n w1) as [ok w2] eqn:Hbyte.
    apply (observe_byte_inv _ _ _ _ _ X1 Hp1 Hc1 Hn) in Hbyte as (-> & X2 & Hp2 & Hb2 & Ha2).
    cbn [negb] in Hrun. destruct (buffer <? n) eqn:Hlt; bool_facts.
    { simplify_eq. split; [by apply writer_secured|done]. }
    destruct (IH (buffer - n) w2 r rest w' X2 ltac:(lia) Hf Hrun) as (? & ? & Hfin). split; [done|]. split; [done|].
    intros Hr. destruct (Hfin Hr) as (? & Hm & _). split_and!; auto.
Qed.

Lemma secured_execute lease actions w b :
  secured lease w -> forallb (foreign lease) actions = true ->
  execute actions (inner w) = Some b -> secured lease (set_inner b w).
Proof.
  intros (Hreg & Ha & Hp) Hf Hex. split; [by eapply execute_inv|]. cbn. split.
  - intros Hpos. by eapply holds_execute; eauto.
  - intros Hpd. destruct (Hp Hpd); [left|right]; by eapply holds_execute.
Qed.

Lemma write_frame_secured `{Serde} lease frame script flush b r w :
  registry_inv b -> foreign_script lease script = true ->
  forallb (foreign lease) (fst flush) = true ->
  write_frame_observed lease frame script flush b = Some (r, w) ->
  secured lease w /\ (r = WriteOk -> 0 < accepted w).
Proof.
  intros Hinv Hf Hff Hrun.
  assert (X : writer_inv lease (mkWriter b true true true 0 false)) by (constructor; cbn; lia || done).
  unfold write_frame_observed in Hrun. destruct (encode frame) as [encoded|e].
  2:{ simplify_eq. split; [by apply writer_secured|done]. }
  destruct (in_u32 (len encoded)); cbn [negb] in Hrun;
    [|simplify_eq; split; [by apply writer_secured|done]].
  apply bind_Some in Hrun as ([[r1 rest1] w1] & H1 & Hrun).
  destruct (write_all_secured lease script 4 _ _ _ _ X ltac:(lia) Hf H1) as (Hs1 & Hf1 & Hok1).
  destruct (bool_decide (r1 = WriteOk)) eqn:Er1; cbn [negb] in Hrun; bool_facts;
    [|by simplify_eq].
  destruct (Hok1 Er1) as (X1 & _ & Ha1). specialize (Ha1 ltac:(lia)).
  apply bind_Some in Hrun as ([[r2 rest2] w2] & H2 & Hrun).
  destruct (write_all_secured lease rest1 (len encoded) _ _ _ _ X1 ltac:(unfold len; lia) Hf1 H2)
    as (Hs2 & Hf2 & Hok2).
  destruct (bool_decide (r2 = WriteOk)) eqn:Er2; cbn [negb] in Hrun; bool_facts;
    [|by simplify_eq].
  destruct (Hok2 Er2) as (_ & Ha2 & _). specialize (Ha2 Ha1).
  apply bind_Some in Hrun as (b3 & H3 & Hrun). simplify_eq.
  split; [by eapply secured_execute|done].
Qed.

(** C32. A start that may have left the gateway is never forgotten: whatever the
    transport does and whatever the other threads do between its polls, when the
    start write returns, successfully or not, and the transport accepted a byte,
    the reservation is still in its slot and marked started; if it only left a
    poll pending, the reservation is still there as started or outcome unknown.
    The failure path releases the slot only when neither happened.  A successful
    write accepted at least one byte. *)
Theorem start_write_is_never_forgotten `{Serde} lease frame script flush b r w :
  reachable b -> foreign_script lease script = true ->
  forallb (foreign lease) (fst flush) = true ->
  write_start_frame lease frame script flush b = Some (r, w) ->
  (0 < accepted w -> holds lease (inner w) StartStarted)
  /\ (pended w = true ->
      holds lease (inner w) StartStarted \/ holds lease (inner w) StartOutcomeUnknown)
  /\ (r = WriteOk -> 0 < accepted w).
Proof.
  intros Hinv%reachable_inv Hf Hff Hrun. unfold write_start_frame in Hrun.
  apply bind_Some in Hrun as ([r1 w1] & Hw & Hrun).
  destruct (write_frame_secured _ _ _ _ _ _ _ Hinv Hf Hff Hw) as ((Hreg & Ha & Hp) & Hok).
  destruct (bool_decide (r1 = WriteOk) || bool_decide (r1 = WritePanic)) eqn:E; [by simplify_eq|].
  bool_facts. destruct (bool_decide (clearing (inner w1) = None)); cbn [negb] in Hrun; [|done].
  simplify_eq. cbn.
  assert (Hkeep : forall p, 3 <= phase_rank p -> holds lease (inner w1) p ->
            holds lease (release_after_zero_byte_start_failure lease (inner w1)) p).
  { intros p Hrank (q & Hq & Hn & Hph). exists q. split; [|done].
    destruct (release_kept lease true false _ _ _ Hq) as [Hk|[_ Hal]]; [done|].
    rewrite committed_release in Hal; [done|]. unfold committed. rewrite Hph. by apply Z.leb_le. }
  split; [intros; apply Hkeep; [by cbn|auto]|]. split; [|done].
  intros Hpd. destruct (Hp Hpd); [left|right]; by apply Hkeep.
Qed.

(** A mark on a started reservation is refused. *)
Lemma uncertain_refused lease b :
  holds lease b StartStarted -> mark_start_uncertain lease b = (Err SessionUnavailable, b).
Proof.
  intros (r & (s & Hi & Hs)%slot_of_some & Hn & Hp).
  unfold mark_start_uncertain, start_step. rewrite Hi, Hs, Hp. cbn.
  rewrite bool_decide_eq_false_2, andb_false_r by done. cbn. by destruct (is_current _ _).
Qed.

(** Back-pressure after the first byte aborts a start: when the transport
    takes part of the length prefix and the next poll is pending, the write
    fails at once, whatever the transport would accept afterwards.  The pending
    observer, still armed, asks to mark as uncertain a reservation the byte
    observer has already marked started, and its refusal is returned as an I/O
    error; the reservation stays pinned as started. *)
Theorem pending_after_byte_aborts `{Serde} lease frame encoded b b1 n rest flush :
  reachable b -> clearing b = None -> begin_start_attempt lease b = (Ok tt, b1) ->
  encode frame = Ok encoded -> 0 < n < 4 ->
  exists w, write_start_frame lease frame (([], PollReady n) :: ([], PollPending) :: rest) flush b
            = Some (WriteIo, w)
    /\ accepted w = n /\ holds lease (inner w) StartStarted.
Proof.
  intros Hb Hnone Hbegin Henc Hn. apply reachable_inv in Hb as Hinv.
  assert (Hc1 : clearing b1 = None).
  { apply start_step_ok in Hbegin as (? & ? & _ & _ & _ & _ & _ & ->). done. }
  assert (Hinv1 : registry_inv b1).
  { pose proof (perform_inv (ABegin lease) b Hinv) as Hp. cbn in Hp. rewrite Hbegin in Hp.
    apply Hp. unfold enabled. cbn. by rewrite bool_decide_eq_true_2. }
  destruct (confirm_holds lease b1 AttemptingStart Hinv1 (begin_holds _ _ _ Hbegin))
    as [Hok Hstarted]; [by left|].
  destruct (confirm_start_byte lease b1) as [r2 b2] eqn:Hconfirm. cbn in Hok, Hstarted. subst r2.
  assert (Hc2 : clearing b2 = None).
  { apply start_step_ok in Hconfirm as (? & ? & _ & _ & _ & _ & _ & ->). done. }
  assert (Hlen : in_u32 (len encoded) = true).
  { apply encode_ok in Henc as (_ & _ & Hmax). apply in_u32_spec.
    unfold len, MAX_REMOTE_FRAME_BYTES, u32_max in *. lia. }
  pose proof (uncertain_refused lease b2 Hstarted) as Hrefused.
  eexists. split; [|split].
  - unfold write_start_frame, write_frame_observed. rewrite Henc, Hlen. cbn [negb].
    cbn [write_all_observed execute inner mbind option_bind].
    rewrite Hnone. cbn -[begin_start_attempt confirm_start_byte mark_start_uncertain release].
    rewrite Hbegin. cbn -[confirm_start_byte mark_start_uncertain release].
    rewrite (proj2 (Z.ltb_lt 0 n)) by lia. rewrite Hconfirm.
    cbn -[mark_start_uncertain release]. rewrite (proj2 (Z.ltb_ge 4 n)) by lia.
    rewrite (proj2 (Z.eqb_neq (4 - n) 0)) by lia. rewrite Hc2.
    cbn -[mark_start_uncertain release]. rewrite Hrefused. cbn -[release].
    rewrite (bool_decide_eq_false_2 (WriteIo = WriteOk)) by done. cbn -[release].
    rewrite (bool_decide_eq_false_2 (WriteIo = WriteOk)) by done.
    rewrite (bool_decide_eq_false_2 (WriteIo = WritePanic)), Hc2 by done.
    cbn -[release]. reflexivity.
  - cbn. lia.
  - cbn -[release]. destruct Hstarted as (q & Hq & Hnq & Hpq). exists q. split; [|done].
    destruct (release_kept lease true false _ _ _ Hq) as [Hk|[_ Hal]]; [done|].
    unfold release_allowed in Hal. by rewrite Hpq in Hal.
Qed.

(** ** Admission bounds *)

Lemma reserve_ok s now expires_at random r s' :
  reserve s now expires_at random = (Ok r, s') ->
  s' = set_slot (Some r) s /\ now < expires_at /\ res_expires_at_unix_millis r = expires_at
  /\ res_phase r = PreStart /\ random = Ok (res_nonce r).
Proof. unfold reserve. intros Hr. peel Hr; bool_facts; by split_and!. Qed.

Lemma admission_deadline_bounds s now_seconds c d :
  admission_deadline s now_seconds c = Ok d -> 0 < signed_not_after_unix_seconds c <= i64_max ->
  0 <= ready_until_unix_millis (reg_ready s) ->
  d <= now_seconds + Z.max (as_secs (admission_ttl c)) 1
  /\ d < signed_not_after_unix_seconds c /\ d < ready_until_unix_millis (reg_ready s) / 1000.
Proof.
  unfold admission_deadline. intros Hd Hsig Hready. peel Hd. ok_facts. widths.
  pose proof (Z.div_pos (ready_until_unix_millis (reg_ready s)) 1000 Hready).
  unfold i64_saturating_sub, i64_min, i64_max in *. lia.
Qed.

Lemma reservation_expiry_bounds s now c e :
  reservation_expiry s now c = Ok e -> 0 < signed_not_after_unix_seconds c ->
  e <= now + as_millis (admission_ttl c) /\ e <= ready_until_unix_millis (reg_ready s)
  /\ e <= signed_not_after_unix_seconds c * 1000.
Proof.
  unfold reservation_expiry. intros He Hsig. peel He. ok_facts. widths.
  unfold u64_saturating_mul. destruct (in_u64 (signed_not_after_unix_seconds c)); lia.
Qed.

(** A claim admission stays inside every clock that vouches for it: its
    operation deadline is in the future and strictly before both the end of the
    signed attestation and the end of the runner's readiness, and the
    reservation it makes is unpinned, still alive, and expires within the
    admission lifetime, the readiness and the signature. *)
Theorem admission_within_clocks b now random adm i l b' s :
  0 < signed_not_after_unix_seconds (config b) <= i64_max ->
  state_admission true (Ok now) random b = (Ok (adm, i, Some l), b') ->
  sessions b !! i = Some s -> 0 <= ready_until_unix_millis (reg_ready s) ->
  now / 1000 < operation_deadline adm
  /\ operation_deadline adm < signed_not_after_unix_seconds (config b)
  /\ operation_deadline adm < ready_until_unix_millis (reg_ready s) / 1000
  /\ current b' = Some i /\ lease_session l = i
  /\ exists r, slot_of b' i = Some r /\ res_nonce r = admission_nonce l
       /\ res_phase r = PreStart
       /\ now < res_expires_at_unix_millis r <= now + as_millis (admission_ttl (config b))
       /\ res_expires_at_unix_millis r <= ready_until_unix_millis (reg_ready s)
       /\ res_expires_at_unix_millis r <= signed_not_after_unix_seconds (config b) * 1000.
Proof.
  intros Hsig Hadm Hs Hready. unfold state_admission in Hadm.
  destruct (fits in_i64 (now / 1000)) as [secs|] eqn:Hsecs; [|done].
  destruct (session b) as [j|] eqn:Hsession; [|done].
  assert (Hcur : current b = Some j).
  { unfold session in Hsession. peel Hsession. }
  destruct (sessions b !! j) as [t|] eqn:Ht; [|done].
  destruct (admission_deadline t secs (config b)) as [d|] eqn:Hd; [|done].
  destruct (d <=? secs) eqn:Hle; [done|].
  destruct (slot_available t now) as [available t1] eqn:Hslot.
  assert (Hready1 : reg_ready t1 = reg_ready t).
  { unfold slot_available in Hslot. injection Hslot as _ <-. by repeat case_match. }
  destruct available; [|done]. cbn [negb] in Hadm.
  destruct (reservation_expiry t1 now (config b)) as [e|] eqn:He; [|done].
  destruct (reserve t1 now e random) as [[r|] t2] eqn:Hr; [|done].
  apply reserve_ok in Hr as (-> & Hlt & Hexp & Hph & _).
  destruct (fits in_i64 (cfg_deployment_epoch (config b))) as [epoch|]; [|done].
  simplify_eq. cbn [operation_deadline lease_session admission_nonce]. widths. bool_facts.
  apply admission_deadline_bounds in Hd as (Hd1 & Hd2 & Hd3); [|unfold i64_max in *; lia|done].
  apply reservation_expiry_bounds in He as (He1 & He2 & He3); [|lia]. rewrite Hready1 in He2.
  split_and!; [lia|done|done|done|done|]. exists r.
  rewrite (slot_of_set_session _ _ _ t1); [|cbn; by rewrite list_lookup_insert_eq by (by eapply lookup_lt_Some)].
  rewrite bool_decide_eq_true_2 by done. split_and!; (done || lia).
Qed.

(** ** Witnesses *)

Definition sample_config : ScheduledRunnerBrokerConfig :=
  mkConfig 1 3 zeros64 zeros64 1000000 Session.image Session.image
    "spiffe://codeoff/runner/production" zeros64 "credential-r1" zeros64 "configured-sidecar"
    "supervisor-dynamic-tools-v1" "mcp-r1" "grant-r1" "gateway-1"
    "00000000000000000000000000000000" "key-1" "key-r1" "signer-1" "executor-1" 4 10000000000.

Definition sample_broker : BrokerInner := mkBroker sample_config [] None None 1.
Definition sample_lease : ReservationLease := mkLease 0 "nonce-1".

(** A runner connects, is claimed and granted, and its reservation is pinned. *)
Definition pin_actions : list action :=
  [ANewSession zeros64 Session.sample_ready; ARegister 0;
   AReserve 0 1000 11000 (Ok "nonce-1"); AReserveGrant 0 1100 "nonce-1" (Ok "grant-1");
   APin sample_lease 1200].

Definition after (actions : list action) : BrokerInner :=
  match execute actions sample_broker with Some b => b | None => sample_broker end.

Lemma after_reachable actions :
  execute actions sample_broker = Some (after actions) -> reachable (after actions).
Proof.
  intros Hex. exists sample_config, sample_broker, actions. split; [|done].
  vm_compute. reflexivity.
Qed.

Definition pinned_broker : BrokerInner := after pin_actions.
Definition started_broker : BrokerInner :=
  after (pin_actions ++ [ABegin sample_lease; AConfirm sample_lease]).

Definition pinned_reservation (p : ReservationPhase) : ProtocolAdmission :=
  mkProtocolAdmission 1 zeros64 zeros64 "nonce-1" 11000 true (Some "grant-1") p.

Definition pinned_session : RegisteredRunnerSession :=
  mkRegistered 1 zeros64 Session.sample_ready true (Some (pinned_reservation PinnedForCas)).

Lemma single_flight_witness :
  0%nat = 0%nat /\ current pinned_broker = Some 0%nat
  /\ exists r, slot pinned_session = Some r /\ res_generation r = generation pinned_session
       /\ res_session_nonce r = reg_session_nonce pinned_session /\ is_Some (grant_id r).
Proof.
  apply (single_flight pinned_broker 0 0 pinned_session pinned_session);
    [apply after_reachable; vm_compute; reflexivity|vm_compute; reflexivity..].
Defined.

(** An expired readiness poll leaves the pinned slot alone. *)
Lemma pinned_reservation_fate_witness :
  kept (pinned_reservation PinnedForCas)
    (slot_of (perform (ASlotAvailable 0 99000) pinned_broker) 0)
  \/ exists aa st, ASlotAvailable 0 99000 = ARelease (mkLease 0 "nonce-1") aa st
       /\ release_allowed (pinned_reservation PinnedForCas) aa st = true.
Proof.
  apply (pinned_reservation_fate pinned_broker (ASlotAvailable 0 99000) 0
           (pinned_reservation PinnedForCas));
    [apply after_reachable; vm_compute; reflexivity|vm_compute; reflexivity..].
Defined.

(** The runner disconnects, its lease is dropped, another one knocks. *)
Definition disconnect_actions : list action :=
  [ADisconnect 0; AUnregisterTest 0; ARelease sample_lease false false;
   ANewSession zeros64 Session.sample_ready].

Definition abandoned_broker : BrokerInner :=
  after (pin_actions ++ [ABegin sample_lease; AConfirm sample_lease] ++ disconnect_actions).

Lemma committed_start_survives_witness :
  (exists r, slot_of abandoned_broker 0 = Some r /\ res_nonce r = "nonce-1" /\ committed r = true)
  /\ fst (register 1 abandoned_broker) = Err DuplicateSession.
Proof.
  destruct (committed_start_survives started_broker disconnect_actions abandoned_broker 0
              (pinned_reservation StartStarted) 1 2000 3000 (Ok "nonce-2")) as (Hr & Hreg & _);
    [apply after_reachable; vm_compute; reflexivity|vm_compute; reflexivity..|].
  split; [exact Hr|exact Hreg].
Defined.

Definition sample_script : list (list action * poll) :=
  [([ASlotAvailable 0 99000], PollPending); ([ADisconnect 0; AUnregisterTest 0], PollReady 4);
   ([], PollError)].

(** The write is pending, the runner disconnects, four bytes go out, then the
    transport fails: the reservation is still there, as started. *)
Lemma start_write_is_never_forgotten_witness :
  let S := serde_of [frame_to_value (sample_frame 3)] in
  exists r w, write_start_frame sample_lease (sample_frame 3) sample_script ([], WriteOk)
                pinned_broker = Some (r, w)
    /\ r = WriteIo /\ accepted w = 4 /\ holds sample_lease (inner w) StartStarted.
Proof.
  intros S. eexists _, _. split; [vm_compute; reflexivity|]. split; [reflexivity|].
  split; [reflexivity|].
  eapply (start_write_is_never_forgotten sample_lease (sample_frame 3) sample_script
            ([], WriteOk) pinned_broker);
    [apply after_reachable; vm_compute; reflexivity|reflexivity|reflexivity
    |vm_compute; reflexivity|reflexivity].
Defined.

Lemma pending_after_byte_aborts_witness :
  let S := serde_of [frame_to_value (sample_frame 3)] in
  exists w, write_start_frame sample_lease (sample_frame 3)
              [([], PollReady 3); ([], PollPending); ([], PollReady 1); ([], PollReady 60000)]
              ([], WriteOk) pinned_broker = Some (WriteIo, w)
    /\ accepted w = 3 /\ holds sample_lease (inner w) StartStarted.
Proof.
  intros S.
  apply (pending_after_byte_aborts sample_lease (sample_frame 3)
           (print_value (frame_to_value (sample_frame 3))) pinned_broker
           (snd (begin_start_attempt sample_lease pinned_broker)) 3);
    [apply after_reachable; vm_compute; reflexivity|vm_compute; reflexivity
    |vm_compute; reflexivity|vm_compute; reflexivity|lia].
Defined.

Definition connected_broker : BrokerInner :=
  after [ANewSession zeros64 Session.sample_ready; ARegister 0].
Definition connected_session : RegisteredRunnerSession :=
  mkRegistered 1 zeros64 Session.sample_ready true None.

Lemma admission_within_clocks_witness :
  exists adm b', state_admission true (Ok 1000) (Ok "nonce-1") connected_broker
    = (Ok (adm, 0%nat, Some sample_lease), b') /\ 1 < operation_deadline adm.
Proof.
  eexists _, _. split; [vm_compute; reflexivity|].
  eapply (admission_within_clocks connected_broker 1000 (Ok "nonce-1") _ 0 sample_lease _
            connected_session);
    [vm_compute; split; congruence|vm_compute; reflexivity|vm_compute; reflexivity
    |vm_compute; congruence].
Defined.

End Broker.
