(* ===== verification/Tables.v ===== *)
(** * The durable tables of the scheduler (crates/state/migrations, and the
    storage helpers of crates/state/src/scheduler/store.rs)

    The rows a scheduled run lives in, with the CHECK constraints, the unique
    index and the triggers that the migrations put on them, and the SQL
    statements the store composes: an UPDATE with its row count, an INSERT with
    its keys, and a transaction that either commits every statement or leaves
    the tables as they were.  A table is a finite map from its primary key to
    its row.  Any statement may fail for a reason outside the program (a busy
    or unavailable database): the faults of a run are an input of the model. *)

From stdpp Require Import base tactics list strings numbers pretty gmap.
From Stdlib Require Import ZArith Lia Ascii.
From S2P Require Import Prelude.
From S2P Require Import Policy.
From S2P Require Import Schedule.
From S2P Require Import Json.
From S2P Require Import Digest.
From S2P Require Import Capability.
From S2P Require Import Authority.
Import Digest.

(** The JSON functions of SQLite that the statements call: [json_valid(x)],
    [cast(json_extract(x, '$.field') as integer)] and
    [json_extract(x, '$.field')] (with [None] for NULL), [json(x)], [json(value)]
    for every element of [json_each(x)], and [json_type(x, '$.field')]. *)
Class Sqlite := {
  json_valid : string -> bool;
  json_extract_integer : string -> string -> option Z;
  json_extract_text : string -> string -> option string;
  json_minify : string -> option string;
  json_elements : string -> list string;
  json_type : string -> string -> option string;
  json_root_type : string -> option string;
  (* [datetime(t, 'unixepoch')], NULL outside the years it can print *)
  datetime_unixepoch : Z -> option string
}.

Module Tables.
Import Schedule Snapshot Authority.

(** ** Errors *)

Inductive SqlError :=
| Contention       (* a pool timeout, or one of SQLite's busy and locked codes *)
| Unavailable      (* any other failure of the storage engine *)
| Decode           (* a column that does not hold the type it is read at *)
| Constraint.      (* a CHECK, a key, a foreign key or a trigger's raise(abort) *)

#[export] Instance sql_error_eq_dec : EqDecision SqlError.
Proof. solve_decision. Defined.

(** The texts of [InvalidSchedulerState]: a literal, or the [to_string] of
    another error. *)
Inductive Reason :=
| Text (reason : string)
| OfValue (error : StateValueError)
| OfPolicy (error : Policy.SchedulerPolicyValidationError)
| OfOccurrence (error : OccurrenceError)
| OfJson.

#[local] Existing Instance Policy.policy_error_eq_dec.
#[export] Instance reason_eq_dec : EqDecision Reason.
Proof. solve_decision. Defined.

Inductive StateError :=
| InvalidSchedulerState (reason : Reason)
| Scheduler (source : SqlError)
| ScheduledRunLostLease
| ScheduledRunCounterExhausted
| ScheduledRunCompletionConflict
| SchedulerGenerationConflict
| ScheduledActiveJobLimitExceeded (scope : string)
| ScheduledOnceExpired
| ScheduledDeliveryLostLease
| ScheduledDeliveryCounterExhausted
| ScheduledDeliveryBaselineConflict
| ScheduledDeliveryPayloadConflict
| ScheduledExecutorAdmissionUnavailable.

#[export] Instance state_error_eq_dec : EqDecision StateError.
Proof. solve_decision. Defined.

Definition invalid_state (reason : string) : StateError := InvalidSchedulerState (Text reason).
Definition invalid_value (error : StateValueError) : StateError :=
  InvalidSchedulerState (OfValue error).

(** ** Rows *)

Inductive ScheduledRunState :=
| Pending | Leased | Executing | Succeeded | Failed | TimedOut | Cancelled | OutcomeUnknown.

#[export] Instance run_state_eq_dec : EqDecision ScheduledRunState.
Proof. solve_decision. Defined.

(** The columns of [scheduled_runs] that are written when the run is
    materialized and by no later statement. *)
Record RunSnapshot := mkRunSnapshot {
  s_job_id : string;
  s_schedule_id : string;
  s_job_generation : Z;
  s_schedule_generation : Z;
  s_scheduled_for : Z;
  s_coalesced_through : Z;
  s_definition_version : Z;
  s_definition_json : string;
  s_capability_schema_version : Z;
  s_capability_digest : string;
  s_capability_json : string;
  s_targets_json : string;
  s_execution_baseline_json : option string;
  s_scheduler_policy_version : Z;
  s_scheduler_policy_json : string;
  s_skipped_count : Z;
  s_skipped_count_saturated : bool;
  s_created_at : Z
}.

#[export] Instance run_snapshot_eq_dec : EqDecision RunSnapshot.
Proof. solve_decision. Defined.

(** [result_artifact_id], [result_context], [result_hash_algorithm] and
    [result_hash]: one statement writes the four. *)
Record AcceptedResult := mkAccepted {
  result_artifact_id : string;
  result_context : string;
  result_hash_algorithm : string;
  result_hash : string
}.

#[export] Instance accepted_result_eq_dec : EqDecision AcceptedResult.
Proof. solve_decision. Defined.

Record Run := mkRun {
  r_snapshot : RunSnapshot;
  r_state : ScheduledRunState;
  r_attempt : Z;
  r_fence : Z;
  r_next_attempt_at : option Z;
  r_lease_owner : option string;
  r_lease_expires_at : option Z;
  r_overlap_slot : option Z;
  r_result : option AcceptedResult;
  r_error_kind : option string;
  r_error_message : option string;
  r_updated_at : Z;
  r_counter_limit_recorded : bool
}.

#[export] Instance run_eq_dec : EqDecision Run.
Proof. solve_decision. Defined.

Inductive AttemptState :=
| ALeased | AExecuting | RetryScheduled | PreflightRejected | LeaseExpired
| ASucceeded | AFailed | ATimedOut | ACancelled | AOutcomeUnknown.

#[export] Instance attempt_state_eq_dec : EqDecision AttemptState.
Proof. solve_decision. Defined.

Record AttestedExecutionProfileSnapshot := mkAttestedProfile {
  schema_version : Z;
  canonical_json : string;
  hash_algorithm : string;
  digest : string
}.

#[export] Instance attested_profile_eq_dec : EqDecision AttestedExecutionProfileSnapshot.
Proof. solve_decision. Defined.

(** A row of [scheduled_run_attempts], whose key is [(run_id, attempt)].  The
    four [attested_profile_*] columns are written by one statement. *)
Record Attempt := mkAttempt {
  a_job_id : string;
  a_fence : Z;
  a_lease_owner : string;
  a_state : AttemptState;
  a_claimed_at : Z;
  a_lease_expires_at : Z;
  a_preflight_completed_at : option Z;
  a_executing_at : option Z;
  a_completed_at : option Z;
  a_attested_profile : option AttestedExecutionProfileSnapshot;
  a_error_kind : option string;
  a_error_message : option string
}.

#[export] Instance attempt_eq_dec : EqDecision Attempt.
Proof. solve_decision. Defined.

Inductive ScheduledRunLateEvidenceKind :=
| CompletionAfterLeaseLoss | PreflightAfterLeaseLoss | HeartbeatAfterLeaseLoss.

#[export] Instance evidence_kind_eq_dec : EqDecision ScheduledRunLateEvidenceKind.
Proof. solve_decision. Defined.

Record LateEvidence := mkEvidence {
  e_evidence_id : string;
  e_run_id : string;
  e_attempt : Z;
  e_fence : Z;
  e_kind : ScheduledRunLateEvidenceKind;
  e_digest : string;
  e_observed_at : Z
}.

(** A row of [scheduled_run_result_artifacts], keyed by [artifact_id]. *)
Record Artifact := mkArtifact {
  f_run_id : string;
  f_job_id : string;
  f_accepted_attempt : Z;
  f_accepted_fence : Z;
  f_schema_version : Z;
  f_result_json : string;
  f_hash_algorithm : string;
  f_result_hash : string;
  f_previous_success_context : string;
  f_completed_at : Z;
  f_provenance : string;
  f_provenance_version : Z
}.

#[export] Instance artifact_eq_dec : EqDecision Artifact.
Proof. solve_decision. Defined.

(** What the baseline of a job says of its last accepted success. *)
Record BaselineResult := mkBaselineResult {
  b_hash_algorithm : string;
  b_result_hash : string;
  b_previous_success_context : string;
  b_source_run_id : string;
  b_completed_at : Z
}.

Record Baseline := mkBaseline {
  baseline_version : Z;
  b_result : option BaselineResult
}.

(** The columns of [scheduled_run_deliveries] that a completion writes and no
    later statement changes. *)
Record DeliveryIntent := mkIntent {
  d_run_id : string;
  d_job_id : string;
  d_target_identity_digest : string;
  d_target_json : string;
  d_delivery_policy_version : Z;
  d_result_artifact_id : string;
  d_result_attempt : Z;
  d_result_fence : Z;
  d_target_snapshot_digest_algorithm : string;
  d_target_snapshot_digest : string;
  d_intent_key : string;
  d_scheduler_policy_version : Z;
  d_scheduler_policy_json : string;
  d_created_at : Z
}.

#[export] Instance delivery_intent_eq_dec : EqDecision DeliveryIntent.
Proof. solve_decision. Defined.

(** The row of [scheduled_executor_epochs] with key [scheduled-codex-v1]. *)
Record ExecutorEpoch := mkEpoch {
  p_schema_version : Z;
  p_deployment_epoch : Z;
  p_attestation_id : string;
  p_profile_digest : string;
  p_expires_at : Z
}.

(** The payload columns of [scheduled_run_deliveries]: a CHECK makes them all
    NULL or all present, and one statement writes them. *)
Record DeliveryPayload := mkPayload {
  render_version : Z;
  payload_schema_version : Z;
  content_type : string;
  payload_hash_algorithm : string;
  payload_digest : string;
  payload_snapshot : string;
  payload_created_at : Z;
  expected_baseline_version : Z;
  target_snapshot_version : Z
}.

#[export] Instance delivery_payload_eq_dec : EqDecision DeliveryPayload.
Proof. solve_decision. Defined.

Inductive ScheduledDeliveryState :=
| DPending | DSending | DDelivered | DFailedRetryable | DFailedTerminal | DDeliveryUnknown
| DSkippedNone | DSkippedUnchanged.

#[export] Instance delivery_state_eq_dec : EqDecision ScheduledDeliveryState.
Proof. solve_decision. Defined.

(** A row of [scheduled_run_deliveries] with [authority_kind = 'intent_v1'],
    keyed by [delivery_id].  No statement inserts rows of another kind. *)
Record Delivery := mkDelivery {
  d_intent : DeliveryIntent;
  d_state : ScheduledDeliveryState;
  d_attempt : Z;
  d_fence : Z;
  d_next_attempt_at : option Z;
  d_lease_owner : option string;
  d_lease_expires_at : option Z;
  d_idempotency_key : option string;
  d_provider_receipt : option string;
  d_provider_outcome : option string;
  d_error_kind : option string;
  d_error_message : option string;
  d_payload : option DeliveryPayload;
  d_claimed_baseline_version : option Z;
  d_updated_at : Z;
  d_counter_limit_recorded : bool
}.

#[export] Instance delivery_eq_dec : EqDecision Delivery.
Proof. solve_decision. Defined.

(** A row of [scheduled_delivery_attempts], keyed by [(delivery_id, attempt)]. *)
Record DeliveryAttempt := mkDeliveryAttempt {
  da_fence : Z;
  da_lease_owner : string;
  da_lease_expires_at : Z;
  da_idempotency_key : string;
  da_claimed_baseline_version : Z;
  da_state : ScheduledDeliveryState;
  da_provider_receipt : option string;
  da_provider_outcome : option string;
  da_error_kind : option string;
  da_error_message : option string;
  da_started_at : Z;
  da_completed_at : option Z
}.

(** The primary key of [scheduled_delivery_baselines], and its other columns. *)
Record AcceptedDeliveryBaselineIdentity := mkBaselineIdentity {
  i_job_id : string;
  i_target_identity_digest : string;
  i_target_snapshot_digest_algorithm : string;
  i_target_snapshot_digest : string;
  i_delivery_policy_version : Z;
  i_render_version : Z;
  i_hash_algorithm : string
}.

#[export] Instance baseline_identity_eq_dec : EqDecision AcceptedDeliveryBaselineIdentity.
Proof. solve_decision. Defined.

#[export] Instance baseline_identity_countable : Countable AcceptedDeliveryBaselineIdentity.
Proof.
  apply (inj_countable'
    (fun i => (i_job_id i, i_target_identity_digest i, i_target_snapshot_digest_algorithm i,
               i_target_snapshot_digest i, i_delivery_policy_version i, i_render_version i,
               i_hash_algorithm i))
    (fun '(a, b, c, d, e, f, g) => mkBaselineIdentity a b c d e f g)).
  by intros [].
Defined.

Record AcceptedDeliveryBaseline := mkAcceptedBaseline {
  accepted_payload_digest : string;
  source_delivery_id : string;
  source_run_id : string;
  source_result_id : option string;
  source_result_hash : string;
  accepted_at : Z;
  delivery_baseline_version : Z
}.

Record PrincipalKey := mkPrincipal {
  pk_kind : string;
  pk_provider : string;
  pk_tenant : string;
  pk_subject : string
}.

#[export] Instance principal_eq_dec : EqDecision PrincipalKey.
Proof. solve_decision. Defined.

(** A row of [scheduler_operator_actions], keyed by [action_id]. *)
Record OperatorAction := mkOperatorAction {
  o_principal : PrincipalKey;
  o_request_id : string;
  o_request_digest : string;
  o_action : string;
  o_target_kind : string;
  o_target_id : string;
  o_expected_attempt : Z;
  o_expected_fence : Z;
  o_before_state : string;
  o_after_state : string;
  o_evidence_json : option string;
  o_evidence_digest : option string;
  o_provider_receipt : option string;
  o_duplicate_risk_acknowledged : bool;
  o_effective_at : Z;
  o_occurred_at : Z;
  o_reason_json : option string;
  o_reason_digest : option string
}.

(** A row of [scheduler_operator_action_consumptions], keyed by [action_id]. *)
Record OperatorConsumption := mkConsumption {
  c_target_kind : string;
  c_target_id : string;
  c_consumed_at : Z
}.

Inductive ScheduledJobStatus := Active | Paused | Completed | Deleted.

#[export] Instance job_status_eq_dec : EqDecision ScheduledJobStatus.
Proof. solve_decision. Defined.

(** A row of [scheduled_jobs], keyed by [job_id]. *)
Record Job := mkJob {
  j_definition_version : Z;
  j_definition_json : string;
  j_creator : PrincipalKey;
  j_owner : PrincipalKey;
  j_status : ScheduledJobStatus;
  j_generation : Z;
  j_capability_schema_version : Z;
  j_capability_digest : string;
  j_capability_json : string;
  j_scheduler_policy_version : Z;
  j_scheduler_policy_json : string;
  j_created_at : Z;
  j_updated_at : Z;
  j_deleted_at : option Z
}.

(** A row of [schedules], keyed by its unique [job_id]. *)
Record ScheduleRow := mkScheduleRow {
  h_schedule_id : string;
  h_kind : string;
  h_canonical_spec : string;
  h_timezone : option string;
  h_once_at : option Z;
  h_anchor_at : option Z;
  h_interval_seconds : option Z;
  h_generation : Z;
  h_next_run_at : option Z;
  h_cadence_proof_json : string;
  h_created_at : Z;
  h_updated_at : Z
}.

(** A row of [scheduled_job_delivery_targets], keyed by [target_id]. *)
Record JobTarget := mkJobTarget {
  t_job_id : string;
  t_ordinal : Z;
  t_provider : string;
  t_connector : string;
  t_tenant : string;
  t_kind : string;
  t_address_json : string;
  t_resolver_version : Z;
  t_resolver_digest : string;
  t_identity_digest : string
}.

(** A row of [scheduler_transition_cursors] of kind [overlap_suppressed], keyed
    by [job_id]. *)
Record TransitionCursor := mkCursor {
  cursor_generation : Z;
  cursor_value : Z;
  cursor_created_at : Z;
  cursor_updated_at : Z
}.

(** A row of [idempotency_keys], keyed by [scope] and [key]. *)
Record IdempotencyKey := mkIdempotencyKey {
  k_status : string;
  k_response_ref : option string;
  k_request_digest : option string;
  k_digest_algorithm : option string;
  k_response_json : option string;
  k_created_at : string;
  k_updated_at : string
}.

(** A row of [schedule_mutation_audit], keyed by [audit_id]. *)
Record ScheduleMutationAudit := mkAudit {
  au_audit_id : string;
  au_principal : option PrincipalKey;
  au_operation : string;
  au_job_id : option string;
  au_request_id : string;
  au_outcome : string;
  au_decision : string;
  au_reason : option string;
  au_error_code : option string;
  au_old_generation : option Z;
  au_new_generation : option Z;
  au_resolver_provider : option string;
  au_target_kind : option string;
  au_resolver_version : option Z;
  au_resolver_digest : option string;
  au_capability_version : option Z;
  au_capability_digest : option string;
  au_idempotency_outcome : option string;
  au_latency_ms : Z;
  au_correlation_id : string;
  au_occurred_at : Z
}.

Record Db := mkDb {
  runs : gmap string Run;
  attempts : gmap (string * Z) Attempt;
  late_evidence : list LateEvidence;
  artifacts : gmap string Artifact;
  baselines : gmap string Baseline;
  deliveries : gmap string Delivery;
  delivery_attempts : gmap (string * Z) DeliveryAttempt;
  delivery_baselines : gmap AcceptedDeliveryBaselineIdentity AcceptedDeliveryBaseline;
  operator_actions : gmap string OperatorAction;
  operator_consumptions : gmap string OperatorConsumption;
  jobs : gmap string Job;
  schedules : gmap string ScheduleRow;
  job_targets : gmap string JobTarget;
  transition_cursors : gmap string TransitionCursor;
  idempotency_keys : gmap (string * string) IdempotencyKey;
  mutation_audit : gmap string ScheduleMutationAudit;
  policy_lock : option Z;
  epoch : option ExecutorEpoch;
  totals : gmap string Z
}.

Definition with_runs (d : Db) (x : gmap string Run) : Db :=
  mkDb x (attempts d) (late_evidence d) (artifacts d) (baselines d) (deliveries d)
    (delivery_attempts d) (delivery_baselines d) (operator_actions d) (operator_consumptions d)
    (jobs d) (schedules d) (job_targets d) (transition_cursors d) (idempotency_keys d)
    (mutation_audit d) (policy_lock d) (epoch d) (totals d).

Definition with_attempts (d : Db) (x : gmap (string * Z) Attempt) : Db :=
  mkDb (runs d) x (late_evidence d) (artifacts d) (baselines d) (deliveries d)
    (delivery_attempts d) (delivery_baselines d) (operator_actions d) (operator_consumptions d)
    (jobs d) (schedules d) (job_targets d) (transition_cursors d) (idempotency_keys d)
    (mutation_audit d) (policy_lock d) (epoch d) (totals d).

Definition with_late_evidence (d : Db) (x : list LateEvidence) : Db :=
  mkDb (runs d) (attempts d) x (artifacts d) (baselines d) (deliveries d) (delivery_attempts d)
    (delivery_baselines d) (operator_actions d) (operator_consumptions d) (jobs d) (schedules d)
    (job_targets d) (transition_cursors d) (idempotency_keys d) (mutation_audit d)
    (policy_lock d) (epoch d) (totals d).

Definition with_artifacts (d : Db) (x : gmap string Artifact) : Db :=
  mkDb (runs d) (attempts d) (late_evidence d) x (baselines d) (deliveries d)
    (delivery_attempts d) (delivery_baselines d) (operator_actions d) (operator_consumptions d)
    (jobs d) (schedules d) (job_targets d) (transition_cursors d) (idempotency_keys d)
    (mutation_audit d) (policy_lock d) (epoch d) (totals d).

Definition with_baselines (d : Db) (x : gmap string Baseline) : Db :=
  mkDb (runs d) (attempts d) (late_evidence d) (artifacts d) x (deliveries d)
    (delivery_attempts d) (delivery_baselines d) (operator_actions d) (operator_consumptions d)
    (jobs d) (schedules d) (job_targets d) (transition_cursors d) (idempotency_keys d)
    (mutation_audit d) (policy_lock d) (epoch d) (totals d).

Definition with_deliveries (d : Db) (x : gmap string Delivery) : Db :=
  mkDb (runs d) (attempts d) (late_evidence d) (artifacts d) (baselines d) x
    (delivery_attempts d) (delivery_baselines d) (operator_actions d) (operator_consumptions d)
    (jobs d) (schedules d) (job_targets d) (transition_cursors d) (idempotency_keys d)
    (mutation_audit d) (policy_lock d) (epoch d) (totals d).

Definition with_delivery_attempts (d : Db) (x : gmap (string * Z) DeliveryAttempt) : Db :=
  mkDb (runs d) (attempts d) (late_evidence d) (artifacts d) (baselines d) (deliveries d) x
    (delivery_baselines d) (operator_actions d) (operator_consumptions d) (jobs d) (schedules d)
    (job_targets d) (transition_cursors d) (idempotency_keys d) (mutation_audit d)
    (policy_lock d) (epoch d) (totals d).

Definition with_delivery_baselines (d : Db) (x : gmap AcceptedDeliveryBaselineIdentity AcceptedDeliveryBaseline) : Db :=
  mkDb (runs d) (attempts d) (late_evidence d) (artifacts d) (baselines d) (deliveries d)
    (delivery_attempts d) x (operator_actions d) (operator_consumptions d) (jobs d)
    (schedules d) (job_targets d) (transition_cursors d) (idempotency_keys d) (mutation_audit d)
    (policy_lock d) (epoch d) (totals d).

Definition with_operator_actions (d : Db) (x : gmap string OperatorAction) : Db :=
  mkDb (runs d) (attempts d) (late_evidence d) (artifacts d) (baselines d) (deliveries d)
    (delivery_attempts d) (delivery_baselines d) x (operator_consumptions d) (jobs d)
    (schedules d) (job_targets d) (transition_cursors d) (idempotency_keys d) (mutation_audit d)
    (policy_lock d) (epoch d) (totals d).

Definition with_operator_consumptions (d : Db) (x : gmap string OperatorConsumption) : Db :=
  mkDb (runs d) (attempts d) (late_evidence d) (artifacts d) (baselines d) (deliveries d)
    (delivery_attempts d) (delivery_baselines d) (operator_actions d) x (jobs d) (schedules d)
    (job_targets d) (transition_cursors d) (idempotency_keys d) (mutation_audit d)
    (policy_lock d) (epoch d) (totals d).

Definition with_jobs (d : Db) (x : gmap string Job) : Db :=
  mkDb (runs d) (attempts d) (late_evidence d) (artifacts d) (baselines d) (deliveries d)
    (delivery_attempts d) (delivery_baselines d) (operator_actions d) (operator_consumptions d)
    x (schedules d) (job_targets d) (transition_cursors d) (idempotency_keys d)
    (mutation_audit d) (policy_lock d) (epoch d) (totals d).

Definition with_schedules (d : Db) (x : gmap string ScheduleRow) : Db :=
  mkDb (runs d) (attempts d) (late_evidence d) (artifacts d) (baselines d) (deliveries d)
    (delivery_attempts d) (delivery_baselines d) (operator_actions d) (operator_consumptions d)
    (jobs d) x (job_targets d) (transition_cursors d) (idempotency_keys d) (mutation_audit d)
    (policy_lock d) (epoch d) (totals d).

Definition with_job_targets (d : Db) (x : gmap string JobTarget) : Db :=
  mkDb (runs d) (attempts d) (late_evidence d) (artifacts d) (baselines d) (deliveries d)
    (delivery_attempts d) (delivery_baselines d) (operator_actions d) (operator_consumptions d)
    (jobs d) (schedules d) x (transition_cursors d) (idempotency_keys d) (mutation_audit d)
    (policy_lock d) (epoch d) (totals d).

Definition with_transition_cursors (d : Db) (x : gmap string TransitionCursor) : Db :=
  mkDb (runs d) (attempts d) (late_evidence d) (artifacts d) (baselines d) (deliveries d)
    (delivery_attempts d) (delivery_baselines d) (operator_actions d) (operator_consumptions d)
    (jobs d) (schedules d) (job_targets d) x (idempotency_keys d) (mutation_audit d)
    (policy_lock d) (epoch d) (totals d).

Definition with_idempotency_keys (d : Db) (x : gmap (string * string) IdempotencyKey) : Db :=
  mkDb (runs d) (attempts d) (late_evidence d) (artifacts d) (baselines d) (deliveries d)
    (delivery_attempts d) (delivery_baselines d) (operator_actions d) (operator_consumptions d)
    (jobs d) (schedules d) (job_targets d) (transition_cursors d) x (mutation_audit d)
    (policy_lock d) (epoch d) (totals d).

Definition with_mutation_audit (d : Db) (x : gmap string ScheduleMutationAudit) : Db :=
  mkDb (runs d) (attempts d) (late_evidence d) (artifacts d) (baselines d) (deliveries d)
    (delivery_attempts d) (delivery_baselines d) (operator_actions d) (operator_consumptions d)
    (jobs d) (schedules d) (job_targets d) (transition_cursors d) (idempotency_keys d) x
    (policy_lock d) (epoch d) (totals d).

Definition with_policy_lock (d : Db) (x : option Z) : Db :=
  mkDb (runs d) (attempts d) (late_evidence d) (artifacts d) (baselines d) (deliveries d)
    (delivery_attempts d) (delivery_baselines d) (operator_actions d) (operator_consumptions d)
    (jobs d) (schedules d) (job_targets d) (transition_cursors d) (idempotency_keys d)
    (mutation_audit d) x (epoch d) (totals d).

Definition with_totals (d : Db) (x : gmap string Z) : Db :=
  mkDb (runs d) (attempts d) (late_evidence d) (artifacts d) (baselines d) (deliveries d)
    (delivery_attempts d) (delivery_baselines d) (operator_actions d) (operator_consumptions d)
    (jobs d) (schedules d) (job_targets d) (transition_cursors d) (idempotency_keys d)
    (mutation_audit d) (policy_lock d) (epoch d) x.

(** ** Constraints *)

Definition is_some {A} (o : option A) : bool := match o with Some _ => true | None => false end.

(** [column = value] and comparisons of a nullable column: NULL selects
    nothing. *)
Definition is_value {A} `{EqDecision A} (o : option A) (a : A) : bool := bool_decide (o = Some a).
Definition after (o : option Z) (t : Z) : bool :=
  match o with Some x => x >? t | None => false end.
Definition not_after (o : option Z) (t : Z) : bool :=
  match o with Some x => x <=? t | None => false end.

Definition is_live (s : ScheduledRunState) : bool :=
  match s with Leased | Executing => true | _ => false end.

(** The states that hold their job's overlap slot. *)
Definition is_active (s : ScheduledRunState) : bool :=
  match s with Pending | Leased | Executing | OutcomeUnknown => true | _ => false end.

Definition admits_error (s : ScheduledRunState) : bool :=
  match s with Failed | TimedOut | OutcomeUnknown => true | _ => false end.

(** The CHECK on [overlap_slot].  A CHECK rejects a row only when it is false:
    an active row without a slot makes it NULL and passes. *)
Definition overlap_check (s : ScheduledRunState) (slot : option Z) : bool :=
  match slot with
  | Some n => is_active s && (n =? 1)
  | None => true
  end.

(** The CHECK constraints of [scheduled_runs] on the columns that change. *)
Definition run_checks (r : Run) : bool :=
  (0 <=? r_attempt r) && (0 <=? r_fence r)
  && (if is_live (r_state r)
      then is_some (r_lease_owner r) && is_some (r_lease_expires_at r)
      else negb (is_some (r_lease_owner r)) && negb (is_some (r_lease_expires_at r)))
  && (negb (is_some (r_next_attempt_at r)) || bool_decide (r_state r = Pending))
  && (negb (is_some (r_result r)) || bool_decide (r_state r = Succeeded))
  && ((negb (is_some (r_error_kind r)) && negb (is_some (r_error_message r)))
      || (admits_error (r_state r) && is_some (r_error_kind r)))
  && overlap_check (r_state r) (r_overlap_slot r).

(** The key of the unique index [idx_scheduled_runs_active_overlap]. *)
Definition overlap_key (r : Run) : option (string * Z) :=
  slot ← r_overlap_slot r; Some (s_job_id (r_snapshot r), slot).

Definition overlap_unique (t : gmap string Run) : bool :=
  bool_decide (NoDup (omap (fun '(_, r) => overlap_key r) (map_to_list t))).

Definition attempt_is_live (s : AttemptState) : bool :=
  match s with ALeased | AExecuting => true | _ => false end.

Definition needs_profile (s : AttemptState) : bool :=
  match s with AExecuting | ASucceeded | ATimedOut | AOutcomeUnknown => true | _ => false end.

(** [run_id], [attempt] and [fence] of every row are unique, and the row's run
    exists: [primary key (run_id, attempt)], [unique (run_id, fence)] and the
    foreign key. *)
Definition attempt_keys_free (d : Db) (id : string) (n : Z) (a : Attempt) : bool :=
  negb (is_some (attempts d !! (id, n)))
  && forallb (fun '((id', _), a') => negb (String.eqb id id' && (a_fence a =? a_fence a')))
       (map_to_list (attempts d))
  && match runs d !! id with
     | Some r => String.eqb (s_job_id (r_snapshot r)) (a_job_id a)
     | None => false
     end.

Section Statements.
Context `{Sqlite}.

(** The CHECK constraints of [scheduled_run_attempts]. *)
Definition attempt_checks (n : Z) (a : Attempt) : bool :=
  (0 <? n) && (0 <? a_fence a) && negb (is_empty (a_lease_owner a))
  && (a_claimed_at a <? a_lease_expires_at a)
  && match a_attested_profile a with
     | None => negb (needs_profile (a_state a))
     | Some p => (0 <? schema_version p) && json_valid (canonical_json p)
                 && negb (is_empty (hash_algorithm p)) && negb (is_empty (digest p))
     end
  && (negb (bool_decide (a_state a = AExecuting)) || is_some (a_executing_at a))
  && (if attempt_is_live (a_state a) then negb (is_some (a_completed_at a))
      else is_some (a_completed_at a))
  && ((negb (is_some (a_error_kind a)) && negb (is_some (a_error_message a)))
      || (is_some (a_error_kind a) && negb (attempt_is_live (a_state a)))).

(** ** Triggers *)

(** The artifact of a run, as [trg_scheduled_runs_result_artifact_binding]
    looks it up. *)
Definition artifact_binds (d : Db) (id : string) (r : Run) (res : AcceptedResult) : bool :=
  match artifacts d !! result_artifact_id res with
  | Some f =>
      String.eqb (f_run_id f) id && String.eqb (f_job_id f) (s_job_id (r_snapshot r))
      && (f_accepted_attempt f =? r_attempt r) && (f_accepted_fence f =? r_fence r)
      && (f_schema_version f =? 1) && String.eqb (f_provenance f) "native"
      && (f_provenance_version f =? 1)
  | None => false
  end.

(** [trg_scheduled_runs_success_authority]: what a row needs to become
    [succeeded]. *)
Definition success_authority (d : Db) (id : string) (r : Run) : bool :=
  match r_result r with
  | None => false
  | Some res =>
      artifact_binds d id r res
      && match artifacts d !! result_artifact_id res with
         | Some f =>
             String.eqb (f_hash_algorithm f) (result_hash_algorithm res)
             && String.eqb (f_result_hash f) (result_hash res)
             && String.eqb (f_previous_success_context f) (result_context res)
         | None => false
         end
      && match attempts d !! (id, r_attempt r) with
         | Some a => (a_fence a =? r_fence r) && bool_decide (a_state a = ASucceeded)
                     && is_some (a_completed_at a)
         | None => false
         end
  end.

(** The BEFORE UPDATE triggers of [scheduled_runs]. *)
Definition run_update_allowed (d : Db) (id : string) (old new : Run) : bool :=
  (negb (bool_decide (r_state new = Succeeded)) || bool_decide (r_state old = Succeeded)
   || success_authority d id new)
  && (negb (bool_decide (r_state old = Succeeded)) || bool_decide (r_result new = r_result old))
  && (bool_decide (r_result new = r_result old)
      || (negb (is_some (r_result old))
          && match r_result new with Some res => artifact_binds d id new res | None => true end)).

(** A saturating counter of [scheduler_transition_totals]; a kind that has no
    row is not counted. *)
Definition bump (kind : string) (amount : Z) (t : gmap string Z) : gmap string Z :=
  match t !! kind with
  | Some v => <[kind := v + Z.min amount (i64_max - v)]> t
  | None => t
  end.

Definition transition_kind (s : ScheduledRunState) : string :=
  match s with
  | Leased => "run_claimed"
  | Succeeded => "run_completed"
  | Failed => "run_failed"
  | TimedOut => "run_timed_out"
  | Cancelled => "run_cancelled"
  | OutcomeUnknown => "run_outcome_unknown"
  | Pending | Executing => ""
  end.

(** [trg_scheduler_metrics_run_transition] and
    [trg_scheduler_metrics_run_policy_limit]. *)
Definition count_transition (old new : Run) (t : gmap string Z) : gmap string Z :=
  if bool_decide (r_state old = r_state new) then t
  else
    let t := bump (transition_kind (r_state new)) 1 t in
    if bool_decide (r_state new = Failed)
       && (is_value (r_error_kind new) "run_deadline_exceeded"
           || is_value (r_error_kind new) "run_retry_exhausted")
    then bump "policy_limit_rejected" 1 t else t.

Definition validation_kinds : list string :=
  ["profile_validation_failed"; "artifact_validation_failed"; "tool_list_validation_failed"].

(** The three validation-failure triggers of [scheduled_run_attempts]. *)
Definition count_validation (old new : Attempt) (t : gmap string Z) : gmap string Z :=
  if bool_decide (a_state old = a_state new) then t
  else match a_error_kind new with
       | Some kind => if bool_decide (kind ∈ validation_kinds) then bump kind 1 t else t
       | None => t
       end.

(** ** Statements *)

Definition matching {K Row} `{Countable K} (where_ : K -> Row -> bool) (t : gmap K Row) :
    list (K * Row) :=
  List.filter (fun '(k, r) => where_ k r) (map_to_list t).

Definition update_rows {K Row} `{Countable K} (where_ : K -> Row -> bool) (set : Row -> Row)
    (t : gmap K Row) : gmap K Row :=
  map_imap (fun k r => Some (if where_ k r then set r else r)) t.

Record World := mkWorld {
  db : Db;
  faults : list (option SqlError)
}.

Definition Tx (A : Type) : Type := World -> result StateError A * World.

Definition ret {A} (a : A) : Tx A := fun w => (Ok a, w).
Definition fail {A} (e : StateError) : Tx A := fun w => (Err e, w).
Definition lift {A} (r : result StateError A) : Tx A := fun w => (r, w).
Definition bind {A B} (m : Tx A) (k : A -> Tx B) : Tx B :=
  fun w => match m w with (Ok a, w') => k a w' | (Err e, w') => (Err e, w') end.

(** The outcome of the next call of the storage engine that can fail. *)
Definition take_fault (w : World) : option SqlError * World :=
  match faults w with
  | [] => (None, w)
  | f :: rest => (f, mkWorld (db w) rest)
  end.

(** One statement: it fails from outside, or runs on the tables. *)
Definition sql {A} (statement : Db -> result SqlError (A * Db)) : Tx A :=
  fun w =>
    match take_fault w with
    | (Some e, w') => (Err (Scheduler e), w')
    | (None, w') =>
        match statement (db w') with
        | Ok (a, d) => (Ok a, mkWorld d (faults w'))
        | Err e => (Err (Scheduler e), w')
        end
    end.

(** [.map_err(f)] on a statement. *)
Definition map_tx_err {A} (f : StateError -> StateError) (m : Tx A) : Tx A :=
  fun w => let '(r, w') := m w in (map_err f r, w').

Definition query {A} (q : Db -> A) : Tx A := sql (fun d => Ok (q d, d)).

(** UPDATE of [scheduled_runs]: the rows affected, unless a constraint or a
    trigger rejects one of them. *)
Definition runs_updated (where_ : string -> Run -> bool) (set : Run -> Run) (d : Db) :
    result SqlError (Z * Db) :=
  let hit := matching where_ (runs d) in
  let rows := update_rows where_ set (runs d) in
  if forallb (fun '(id, r) => run_checks (set r) && run_update_allowed d id r (set r)) hit
     && overlap_unique rows
  then Ok (Z.of_nat (length hit),
           with_totals (with_runs d rows)
             (foldr (fun '(_, r) => count_transition r (set r)) (totals d) hit))
  else Err Constraint.

Definition update_runs (where_ : string -> Run -> bool) (set : Run -> Run) : Tx Z :=
  sql (runs_updated where_ set).

(** UPDATE of [scheduled_run_attempts]. *)
Definition attempts_updated (where_ : string * Z -> Attempt -> bool) (set : Attempt -> Attempt)
    (d : Db) : result SqlError (Z * Db) :=
  let hit := matching where_ (attempts d) in
  if forallb (fun '((_, n), a) => attempt_checks n (set a)) hit
  then Ok (Z.of_nat (length hit),
           with_totals (with_attempts d (update_rows where_ set (attempts d)))
             (foldr (fun '(_, a) => count_validation a (set a)) (totals d) hit))
  else Err Constraint.

Definition update_attempts (where_ : string * Z -> Attempt -> bool) (set : Attempt -> Attempt) :
    Tx Z :=
  sql (attempts_updated where_ set).

Definition insert_attempt (id : string) (n : Z) (a : Attempt) : Tx unit :=
  sql (fun d =>
    if attempt_keys_free d id n a && attempt_checks n a
    then Ok (tt, with_attempts d (<[(id, n) := a]> (attempts d)))
    else Err Constraint).

(** ** Transactions *)

(** How the body of a transaction ends: [commit()], [rollback()], or by
    dropping the transaction, which rolls it back. *)
Inductive Ending (A : Type) :=
| Commit (a : A)
| Rollback (a : A)
| Drop (a : A).
#[global] Arguments Commit {_} _.
#[global] Arguments Rollback {_} _.
#[global] Arguments Drop {_} _.

Definition restore (w0 w : World) : World := mkWorld (db w0) (faults w).

Definition begin_transaction {A} (begin_error : SqlError -> StateError) (body : Tx (Ending A)) :
    Tx A :=
  fun w =>
    match take_fault w with
    | (Some e, w0) => (Err (begin_error e), w0)
    | (None, w0) =>
        match body w0 with
        | (Err e, w1) => (Err e, restore w0 w1)
        | (Ok (Drop a), w1) => (Ok a, restore w0 w1)
        | (Ok (Rollback a), w1) =>
            match take_fault w1 with
            | (Some e, w2) => (Err (Scheduler e), restore w0 w2)
            | (None, w2) => (Ok a, restore w0 w2)
            end
        | (Ok (Commit a), w1) =>
            match take_fault w1 with
            | (Some e, w2) => (Err (Scheduler e), restore w0 w2)
            | (None, w2) => (Ok a, w2)
            end
        end
    end.

Definition transaction {A} (body : Tx (Ending A)) : Tx A := begin_transaction Scheduler body.

End Statements.

Notation "'do!' x := m 'in' k" := (bind m (fun x => k))
  (at level 10, x pattern, m at level 100, k at level 200) : codeoff_scope.
Notation "'try!' r 'in' k" := (bind (lift r) (fun _ => k))
  (at level 10, r at level 100, k at level 200) : codeoff_scope.

(** ** Laws *)

Section Laws.
Context `{Sqlite}.

Lemma ret_ok {A} (a b : A) w w' : ret a w = (Ok b, w') <-> a = b /\ w = w'.
Proof. unfold ret. naive_solver. Qed.

Lemma fail_ok {A} (e : StateError) (b : A) w w' : ~ fail e w = (Ok b, w').
Proof. unfold fail. naive_solver. Qed.

Lemma lift_ok {A} (r : result StateError A) b w w' : lift r w = (Ok b, w') <-> r = Ok b /\ w = w'.
Proof. unfold lift. naive_solver. Qed.

Lemma bind_cases {A B} (m : Tx A) (k : A -> Tx B) w x w' :
  bind m k w = (x, w') ->
  (exists e, x = Err e /\ m w = (Err e, w')) \/ (exists a w1, m w = (Ok a, w1) /\ k a w1 = (x, w')).
Proof.
  unfold bind. destruct (m w) as [[a|e] w1]; [by eauto|]. intros [= <- <-]. eauto.
Qed.

Lemma try_cases {A B} (r : result StateError A) (k : A -> Tx B) w x w' :
  bind (lift r) k w = (x, w') ->
  (exists e, r = Err e /\ x = Err e /\ w' = w) \/ exists a, r = Ok a /\ k a w = (x, w').
Proof. unfold bind, lift. destruct r as [a|e]; [eauto|]. intros [= <- <-]. eauto. Qed.

Lemma bind_ok {A B} (m : Tx A) (k : A -> Tx B) w b w' :
  bind m k w = (Ok b, w') -> exists a w1, m w = (Ok a, w1) /\ k a w1 = (Ok b, w').
Proof. unfold bind. destruct (m w) as [[a|e] w1]; naive_solver. Qed.

Lemma take_fault_db w f w' : take_fault w = (f, w') -> db w' = db w.
Proof. unfold take_fault. destruct (faults w); naive_solver. Qed.

Lemma sql_ok {A} (statement : Db -> result SqlError (A * Db)) w a w' :
  sql statement w = (Ok a, w') -> statement (db w) = Ok (a, db w').
Proof.
  unfold sql. destruct (take_fault w) as [[e|] w1] eqn:E; [done|].
  apply take_fault_db in E as Hdb.
  destruct (statement (db w1)) as [[a' d]|e] eqn:Es; [|done].
  intros [= -> <-]. by rewrite <-Hdb.
Qed.

Lemma sql_err {A} (statement : Db -> result SqlError (A * Db)) w e w' :
  sql statement w = (Err e, w') -> db w' = db w.
Proof.
  unfold sql. destruct (take_fault w) as [[f|] w1] eqn:E; apply take_fault_db in E.
  - by intros [= _ <-].
  - destruct (statement (db w1)) as [[a' d]|f]; [done|]. by intros [= _ <-].
Qed.

Lemma query_ok {A} (q : Db -> A) w a w' :
  query q w = (Ok a, w') -> a = q (db w) /\ db w' = db w.
Proof. unfold query. intros Hq%sql_ok. naive_solver. Qed.

Lemma sql_no_faults {A} (statement : Db -> result SqlError (A * Db)) d a d' :
  statement d = Ok (a, d') -> sql statement (mkWorld d []) = (Ok a, mkWorld d' []).
Proof. intros Hs. unfold sql. cbn. by rewrite Hs. Qed.

(** A transaction either leaves the tables alone or commits its whole body. *)
Lemma transaction_cases {A} begin_error (body : Tx (Ending A)) w r w' :
  begin_transaction begin_error body w = (r, w') ->
  (exists a w0 w1, r = Ok a /\ db w0 = db w /\ body w0 = (Ok (Commit a), w1) /\ db w' = db w1)
  \/ (db w' = db w /\
      forall a, r = Ok a -> exists w0 w1, db w0 = db w
        /\ (body w0 = (Ok (Rollback a), w1) \/ body w0 = (Ok (Drop a), w1))).
Proof.
  unfold begin_transaction. destruct (take_fault w) as [[e|] w0] eqn:E0;
    apply take_fault_db in E0.
  { intros [= <- <-]. right. split; [done|]. naive_solver. }
  destruct (body w0) as [[[a|a|a]|e] w1] eqn:Eb; cbn.
  - destruct (take_fault w1) as [[e|] w2] eqn:E2; intros [= <- <-].
    + right. cbn. split; [done|]. naive_solver.
    + left. exists a, w0, w1. apply take_fault_db in E2. done.
  - destruct (take_fault w1) as [[e|] w2] eqn:E2; intros [= <- <-]; right; cbn;
      (split; [done|]); [naive_solver|].
    intros a' [= <-]. eauto.
  - intros [= <- <-]. right. cbn. split; [done|]. intros a' [= <-]. eauto.
  - intros [= <- <-]. right. cbn. split; [done|]. naive_solver.
Qed.

(** *** Rows *)

Lemma lookup_update_rows {K Row} `{Countable K} (where_ : K -> Row -> bool) set t k :
  update_rows where_ set t !! k = (fun r => if where_ k r then set r else r) <$> t !! k.
Proof. unfold update_rows. rewrite map_lookup_imap. by destruct (t !! k). Qed.

Lemma elem_of_matching {K Row} `{Countable K} (where_ : K -> Row -> bool) (t : gmap K Row) k r :
  (k, r) ∈ matching where_ t <-> t !! k = Some r /\ where_ k r = true.
Proof.
  unfold matching. rewrite list_elem_of_In, filter_In, <-list_elem_of_In, elem_of_map_to_list.
  done.
Qed.

Lemma update_rows_one {K Row} `{Countable K} (where_ : K -> Row -> bool) set t k :
  (forall k' r, where_ k' r = true -> k' = k) ->
  Z.of_nat (length (matching where_ t)) = 1 ->
  exists r, t !! k = Some r /\ where_ k r = true /\ update_rows where_ set t = <[k := set r]> t.
Proof.
  intros Hkey Hlen. destruct (matching where_ t) as [|[k' r] l] eqn:E; [done|].
  assert ((k', r) ∈ matching where_ t) as (Hr & Hw)%elem_of_matching.
  { rewrite E. constructor. }
  pose proof (Hkey _ _ Hw) as ->. exists r. split_and!; [done..|].
  apply map_eq. intros k'. rewrite lookup_update_rows.
  destruct (decide (k' = k)) as [->|Hne].
  - rewrite Hr, lookup_insert_eq. cbn. by rewrite Hw.
  - rewrite lookup_insert_ne by done. destruct (t !! k') as [r'|]; [|done]. cbn.
    destruct (where_ k' r') eqn:Hw'; [|done]. by apply Hkey in Hw'.
Qed.

Lemma update_rows_none {K Row} `{Countable K} (where_ : K -> Row -> bool) set (t : gmap K Row) :
  matching where_ t = [] -> update_rows where_ set t = t.
Proof.
  intros Hnil. apply map_eq. intros k. rewrite lookup_update_rows.
  destruct (t !! k) as [r|] eqn:E; [|done]. cbn. destruct (where_ k r) eqn:Ew; [|done].
  assert ((k, r) ∈ matching where_ t) as Hin by by apply elem_of_matching.
  rewrite Hnil in Hin. by apply elem_of_nil in Hin.
Qed.

Lemma matching_NoDup {K Row} `{Countable K} (where_ : K -> Row -> bool) (t : gmap K Row) :
  NoDup ((matching where_ t).*1).
Proof.
  unfold matching. pose proof (NoDup_fst_map_to_list t) as Hnd.
  induction (map_to_list t) as [|[k r] l IH]; [constructor|]. cbn in *.
  apply NoDup_cons in Hnd as [Hk Hnd]. destruct (where_ k r); [|by apply IH].
  cbn. apply NoDup_cons. split; [|by apply IH]. contradict Hk.
  apply list_elem_of_fmap in Hk as ([k' r'] & -> & Hin).
  apply list_elem_of_In, filter_In in Hin as [Hin _]. apply list_elem_of_fmap.
  exists (k', r'). split; [done|]. by apply list_elem_of_In.
Qed.

(** A statement whose WHERE clause names the key hits one row or none. *)
Lemma matching_key {K Row} `{Countable K} (where_ : K -> Row -> bool) (t : gmap K Row) k :
  (forall k' r, where_ k' r = true -> k' = k) ->
  matching where_ t = [] \/ Z.of_nat (length (matching where_ t)) = 1.
Proof.
  intros Hkey. pose proof (matching_NoDup where_ t) as Hnd.
  assert (forall x, x ∈ matching where_ t -> x.1 = k) as Hall.
  { intros [k' r] (_ & Hw)%elem_of_matching. by eapply Hkey. }
  destruct (matching where_ t) as [|[k1 r1] [|[k2 r2] l]]; [by left|by right|].
  apply NoDup_cons in Hnd as [Hk _]. contradict Hk. cbn.
  assert (k1 = k) as -> by (apply (Hall (k1, r1)); repeat constructor).
  assert (k2 = k) as -> by (apply (Hall (k2, r2)); repeat constructor). constructor.
Qed.

Lemma filter_permutation {A} (f : A -> bool) (l k : list A) :
  l ≡ₚ k -> length (List.filter f l) = length (List.filter f k).
Proof.
  induction 1 as [|x l k _ IH|x y l|l k m _ IH1 _ IH2]; cbn; [done| | |congruence].
  - destruct (f x); cbn; congruence.
  - by destruct (f x), (f y).
Qed.

(** The rows that match, before and after a row is written. *)
Lemma matching_insert {K Row} `{Countable K} (where_ : K -> Row -> bool) (t : gmap K Row) k r :
  length (matching where_ (<[k := r]> t))
  = (length (matching where_ (delete k t)) + (if where_ k r then 1 else 0))%nat.
Proof.
  rewrite <-(insert_delete_eq t k r). unfold matching.
  rewrite (filter_permutation _ _ _ (map_to_list_insert (delete k t) k r (lookup_delete_eq _ _))).
  cbn. destruct (where_ k r); cbn; lia.
Qed.

Lemma matching_split {K Row} `{Countable K} (where_ : K -> Row -> bool) (t : gmap K Row) k r :
  t !! k = Some r ->
  length (matching where_ t)
  = (length (matching where_ (delete k t)) + (if where_ k r then 1 else 0))%nat.
Proof. intros Hr. by rewrite <-(matching_insert where_ t k r), insert_id. Qed.

(** A write after which a matching row no longer matches takes one row away. *)
Lemma matching_dropped {K Row} `{Countable K} (where_ : K -> Row -> bool) (t : gmap K Row) k r r' :
  t !! k = Some r -> where_ k r = true -> where_ k r' = false ->
  length (matching where_ t) = S (length (matching where_ (<[k := r']> t))).
Proof.
  intros Hr Hw Hw'. rewrite (matching_split where_ t k r Hr), matching_insert, Hw, Hw'. lia.
Qed.

(** *** Relations a computation respects

    A preorder between the tables before and after, whatever a computation
    returns.  It holds of a computation when it holds of its statements, and of
    a transaction when it holds of the bodies that commit. *)

Section Respects.
Context (R : relation Db) `{!PreOrder R}.

Definition respects {A} (m : Tx A) : Prop :=
  forall w r w', m w = (r, w') -> R (db w) (db w').

Lemma respects_ret {A} (a : A) : respects (ret a).
Proof. intros w r w' [= _ <-]. done. Qed.

Lemma respects_fail {A} e : respects (@fail A e).
Proof. intros w r w' [= _ <-]. done. Qed.

Lemma respects_lift {A} (x : result StateError A) : respects (lift x).
Proof. intros w r w' [= _ <-]. done. Qed.

Lemma respects_sql {A} (statement : Db -> result SqlError (A * Db)) :
  (forall d a d', statement d = Ok (a, d') -> R d d') -> respects (sql statement).
Proof.
  intros Hs w [a|e] w' Hsql; [by apply sql_ok, Hs in Hsql|].
  by apply sql_err in Hsql as ->.
Qed.

Lemma respects_query {A} (q : Db -> A) : respects (query q).
Proof. apply respects_sql. intros d a d' [= _ <-]. done. Qed.

Lemma respects_bind {A B} (m : Tx A) (k : A -> Tx B) :
  respects m -> (forall a, respects (k a)) -> respects (bind m k).
Proof.
  intros Hm Hk w r w' Hb. unfold bind in Hb. destruct (m w) as [[a|e] w1] eqn:E.
  - etrans; [by eapply Hm|by eapply Hk].
  - injection Hb as _ <-. by eapply Hm.
Qed.

Lemma respects_try {A B} (r : result StateError A) (k : A -> Tx B) :
  (forall a, respects (k a)) -> respects (bind (lift r) k).
Proof. apply respects_bind, respects_lift. Qed.

Lemma respects_map_err {A} f (m : Tx A) : respects m -> respects (map_tx_err f m).
Proof.
  intros Hm w r w' E. unfold map_tx_err in E. destruct (m w) as [r1 w1] eqn:E1.
  injection E as _ <-. by eapply Hm.
Qed.

Lemma respects_transaction {A} begin_error (body : Tx (Ending A)) :
  (forall w a w', body w = (Ok (Commit a), w') -> R (db w) (db w')) ->
  respects (begin_transaction begin_error body).
Proof.
  intros Hbody w r w' [(a & w0 & w1 & _ & <- & Hb & ->)|[-> _]]%transaction_cases; [|done].
  by eapply Hbody.
Qed.

Lemma respects_body {A} begin_error (body : Tx (Ending A)) :
  respects body -> respects (begin_transaction begin_error body).
Proof. intros Hb. apply respects_transaction. intros w a w'. apply Hb. Qed.

End Respects.

Lemma respects_weaken (R S : relation Db) {A} (m : Tx A) :
  (forall d d', R d d' -> S d d') -> respects R m -> respects S m.
Proof. intros HRS Hm w r w' E. by eapply HRS, Hm. Qed.

(** The tables besides runs and attempts that carry authority. *)
Record same_others (d d' : Db) : Prop := {
  same_artifacts : artifacts d' = artifacts d;
  same_baselines : baselines d' = baselines d;
  same_deliveries : deliveries d' = deliveries d;
  same_delivery_attempts : delivery_attempts d' = delivery_attempts d;
  same_delivery_baselines : delivery_baselines d' = delivery_baselines d;
  same_operator_actions : operator_actions d' = operator_actions d;
  same_operator_consumptions : operator_consumptions d' = operator_consumptions d;
  same_jobs : jobs d' = jobs d;
  same_schedules : schedules d' = schedules d;
  same_job_targets : job_targets d' = job_targets d;
  same_transition_cursors : transition_cursors d' = transition_cursors d;
  same_idempotency_keys : idempotency_keys d' = idempotency_keys d;
  same_mutation_audit : mutation_audit d' = mutation_audit d;
  same_policy_lock : policy_lock d' = policy_lock d;
  same_epoch : epoch d' = epoch d
}.

(** The tables of operator actions and of their use are append-only. *)
Definition log_grows (d d' : Db) : Prop :=
  operator_actions d ⊆ operator_actions d' /\ operator_consumptions d ⊆ operator_consumptions d'.

#[export] Instance log_grows_preorder : PreOrder log_grows.
Proof.
  split; [by split|]. intros d d1 d2 [? ?] [? ?]. split; by etrans.
Qed.

Lemma others_log d d' : same_others d d' -> log_grows d d'.
Proof. intros []. unfold log_grows. by rewrite same_operator_actions0, same_operator_consumptions0. Qed.

Lemma runs_updated_ok where_ set d n d' :
  runs_updated where_ set d = Ok (n, d') ->
  n = Z.of_nat (length (matching where_ (runs d)))
  /\ runs d' = update_rows where_ set (runs d)
  /\ attempts d' = attempts d /\ same_others d d'
  /\ overlap_unique (runs d') = true
  /\ (forall id r, runs d !! id = Some r -> where_ id r = true ->
        run_checks (set r) = true /\ run_update_allowed d id r (set r) = true).
Proof.
  unfold runs_updated. intros Hu.
  destruct (forallb _ _ && _) eqn:E; [|done]. simplify_eq. bool_facts.
  split_and!; try done.
  intros id r Hr Hw.
  match goal with HF : forallb _ _ = true |- _ => rewrite List.forallb_forall in HF;
    specialize (HF (id, r)); rewrite <-list_elem_of_In, elem_of_matching in HF;
    by apply andb_true_iff, HF end.
Qed.

Lemma attempts_updated_ok where_ set d n d' :
  attempts_updated where_ set d = Ok (n, d') ->
  n = Z.of_nat (length (matching where_ (attempts d)))
  /\ attempts d' = update_rows where_ set (attempts d)
  /\ runs d' = runs d /\ same_others d d'.
Proof.
  unfold attempts_updated. intros Hu. destruct (forallb _ _); [|done].
  by simplify_eq.
Qed.

Lemma insert_attempt_ok id n a w u w' :
  insert_attempt id n a w = (Ok u, w') ->
  attempts (db w) !! (id, n) = None
  /\ attempts (db w') = <[(id, n) := a]> (attempts (db w))
  /\ runs (db w') = runs (db w) /\ same_others (db w) (db w')
  /\ attempt_checks n a = true.
Proof.
  intros Hi%sql_ok. destruct (_ && _) eqn:E; [|done]. injection Hi as _ <-.
  apply andb_true_iff in E as [Hkeys ?]. cbn. split_and!; try done.
  unfold attempt_keys_free in Hkeys. bool_facts.
  by destruct (attempts (db w) !! (id, n)).
Qed.

End Laws.

(** Turns the tests of a WHERE clause into equations. *)
Ltac where_facts :=
  unfold is_value in *; bool_facts;
  repeat match goal with E : String.eqb _ _ = true |- _ => apply String.eqb_eq in E end.

(** Inverts a chain of statements that ran to its end. *)
Ltac tx_step H :=
  lazymatch type of H with
  | bind _ _ _ = (Ok _, _) => apply bind_ok in H as (? & ? & ? & H)
  | ret _ _ = (Ok _, _) => apply ret_ok in H as [? ?]; subst
  | lift _ _ = (Ok _, _) => apply lift_ok in H as [? ?]; subst
  | fail _ _ = (Ok _, _) => by apply fail_ok in H
  | query _ _ = (Ok _, _) => apply query_ok in H as [? ?]; subst
  end.

End Tables.
