(* ===== verification/Runs.v ===== *)
(** * The durable run lifecycle (crates/state/src/scheduler/store.rs)

    The transactions that move a materialized run through its states: a worker
    claims the earliest due run under a lease with a fresh fence, keeps the
    lease alive, records that execution started, and ends the attempt in a
    retry, a failure, an uncertain outcome or a committed result; recovery takes
    expired leases back; deleting or updating a job cancels what has not
    started.  Every transaction is translated whole: its argument checks, each
    statement in order, and what it returns on each row count. *)

From stdpp Require Import base tactics list strings numbers pretty gmap.
From Stdlib Require Import ZArith Lia Ascii.
From S2P Require Import Prelude.
From S2P Require Import Policy.
From S2P Require Import Schedule.
From S2P Require Import Json.
From S2P Require Import Digest.
From S2P Require Import Capability.
From S2P Require Import Authority.
From S2P Require Import Tables.
Import Digest.

Module Runs.
Import Schedule Snapshot Authority Tables.

(** ** Arguments and results *)

Inductive PreflightFailureDisposition :=
| RetryAt (retry_at : Z)
| Fail.

Inductive ScheduledExecutionTerminal :=
| TerminalFailed | TerminalTimedOut | TerminalCancelled | TerminalOutcomeUnknown.

#[export] Instance terminal_eq_dec : EqDecision ScheduledExecutionTerminal.
Proof. solve_decision. Defined.

(** [TransportConvergence] has one value, [Converged]. *)
Inductive ScheduledExecutionDisposition :=
| ExecutionRetryAt (retry_at deadline_at max_attempts : Z) (exhausted : ScheduledExecutionTerminal)
| Terminal (terminal : ScheduledExecutionTerminal).

Inductive ExpiredRunReclaimOutcome :=
| Idle
| ReclaimRetried (run_id : string) (attempt fence : Z)
| ReclaimFailed (run_id : string) (attempt fence : Z)
| ReclaimOutcomeUnknown (run_id : string) (attempt fence : Z).

Inductive ScheduledRunReconcileOutcome :=
| Applied (outcome : ExpiredRunReclaimOutcome)
| Stale
| NotEligible.

Inductive LateEvidenceAppendOutcome := Recorded | Duplicate | QuotaExceeded.

Inductive ScheduledRunExecutionOutcome :=
| OutcomeRetried
| OutcomeTerminal (terminal : ScheduledExecutionTerminal)
| OutcomeLateEvidence (evidence : LateEvidenceAppendOutcome).

Record ScheduledExecutorAdmission := mkAdmission {
  m_schema_version : Z;
  m_deployment_epoch : Z;
  m_attestation_id : string;
  m_profile_digest : string;
  m_signed_not_after : Z;
  m_operation_deadline : Z
}.

(** What the caller's [clock] returns at its three call sites in a claim, and
    what the cancellation flag holds at its two loads. *)
Record Readings := mkReadings {
  clock_at_admission : Z;
  clock_at_mutation : Z;
  clock_at_commit : Z;
  cancelled_at_admission : bool;
  cancelled_at_commit : bool
}.

Definition admission_validate (m : ScheduledExecutorAdmission) : result StateValueError unit :=
  bail? negb (m_schema_version m =? 1) || (m_deployment_epoch m <=? 0)
        || (m_operation_deadline m <=? 0) || (m_signed_not_after m <=? m_operation_deadline m)
    with InvalidValue "scheduled executor admission" in
  check? validate_lowercase_sha256 "scheduled executor admission id" (m_attestation_id m) in
  validate_lowercase_sha256 "scheduled executor admission profile" (m_profile_digest m).

Definition validate_lease_binding (b : RunLeaseBinding) : result StateError unit :=
  check? map_err invalid_value (validate_text "scheduled run id" (run_id b)) in
  check? map_err invalid_value (validate_text "scheduled run job id" (job_id b)) in
  check? map_err invalid_value (validate_text "scheduled run lease owner" (lease_owner b)) in
  bail? (attempt b <=? 0) || (fence b <=? 0)
    with invalid_state "scheduled run attempt and fence must be positive" in
  Ok tt.

(** ** Policy snapshots *)

(** [#[derive(Serialize)]] writes a struct's fields in declaration order. *)
Definition policy_pairs (p : Policy.SchedulerOperationalPolicy) : list (string * Z) := [
  ("schema_version", Policy.schema_version p);
  ("recovery_batch_limit", Policy.recovery_batch_limit p);
  ("materialization_batch_limit", Policy.materialization_batch_limit p);
  ("occurrence_search_limit", Policy.occurrence_search_limit p);
  ("tick_interval_ms", Policy.tick_interval_ms p);
  ("error_backoff_ms", Policy.error_backoff_ms p);
  ("minimum_schedule_cadence_seconds", Policy.minimum_schedule_cadence_seconds p);
  ("max_active_jobs", Policy.max_active_jobs p);
  ("max_active_jobs_per_owner", Policy.max_active_jobs_per_owner p);
  ("max_prompt_bytes", Policy.max_prompt_bytes p);
  ("max_result_bytes", Policy.max_result_bytes p);
  ("max_summary_bytes", Policy.max_summary_bytes p);
  ("run_lease_seconds", Policy.run_lease_seconds p);
  ("run_heartbeat_interval_ms", Policy.run_heartbeat_interval_ms p);
  ("run_timeout_seconds", Policy.run_timeout_seconds p);
  ("run_prepare_grace_ms", Policy.run_prepare_grace_ms p);
  ("run_cancellation_grace_ms", Policy.run_cancellation_grace_ms p);
  ("run_finalization_grace_ms", Policy.run_finalization_grace_ms p);
  ("run_retry_base_seconds", Policy.run_retry_base_seconds p);
  ("run_retry_max_seconds", Policy.run_retry_max_seconds p);
  ("run_deadline_seconds", Policy.run_deadline_seconds p);
  ("run_max_attempts", Policy.run_max_attempts p);
  ("delivery_tick_interval_ms", Policy.delivery_tick_interval_ms p);
  ("delivery_batch_limit", Policy.delivery_batch_limit p);
  ("delivery_lease_seconds", Policy.delivery_lease_seconds p);
  ("delivery_heartbeat_interval_ms", Policy.delivery_heartbeat_interval_ms p);
  ("delivery_readiness_timeout_seconds", Policy.delivery_readiness_timeout_seconds p);
  ("delivery_send_timeout_seconds", Policy.delivery_send_timeout_seconds p);
  ("delivery_finalization_timeout_seconds", Policy.delivery_finalization_timeout_seconds p);
  ("delivery_max_attempts", Policy.delivery_max_attempts p);
  ("delivery_retry_base_seconds", Policy.delivery_retry_base_seconds p);
  ("delivery_retry_max_seconds", Policy.delivery_retry_max_seconds p);
  ("delivery_retry_after_max_seconds", Policy.delivery_retry_after_max_seconds p);
  ("delivery_deadline_seconds", Policy.delivery_deadline_seconds p);
  ("delivery_readiness_retry_base_seconds", Policy.delivery_readiness_retry_base_seconds p);
  ("delivery_readiness_retry_max_seconds", Policy.delivery_readiness_retry_max_seconds p)].

Definition policy_struct (p : Policy.SchedulerOperationalPolicy) : Value :=
  Obj (map (fun '(k, n) => (k, json_u64 n)) (policy_pairs p)).

Definition policy_of_numbers (l : list Z) : option Policy.SchedulerOperationalPolicy :=
  match l with
  | [x1; x2; x3; x4; x5; x6; x7; x8; x9; x10; x11; x12; x13; x14; x15; x16; x17; x18;
     x19; x20; x21; x22; x23; x24; x25; x26; x27; x28; x29; x30; x31; x32; x33; x34; x35; x36] =>
      Some (Policy.mkPolicy x1 x2 x3 x4 x5 x6 x7 x8 x9 x10 x11 x12 x13 x14 x15 x16 x17 x18
              x19 x20 x21 x22 x23 x24 x25 x26 x27 x28 x29 x30 x31 x32 x33 x34 x35 x36)
  | _ => None
  end.

(** [#[derive(Deserialize)]] with [deny_unknown_fields]: an object with exactly
    the struct's fields, each an unsigned number of its field's width. *)
Definition policy_of_value (v : Value) : option Policy.SchedulerOperationalPolicy :=
  object ← as_object v;
  numbers ← mapM (fun '(k, _) => map_get k object ≫= as_u64) (policy_pairs Policy.default);
  policy ← policy_of_numbers numbers;
  if Nat.eqb (length object) 36 && Policy.typed policy then Some policy else None.

Section Store.
Context `{Serde} `{Sha2} `{Sqlite}.

Definition scheduler_policy_json (p : Policy.SchedulerOperationalPolicy) :
    result StateError string :=
  check? map_err (fun e => InvalidSchedulerState (OfPolicy e)) (Policy.validate p) in
  ok_or (to_vec (policy_struct p)) (InvalidSchedulerState OfJson).

Definition scheduler_policy_from_snapshot (version : Z) (snapshot : string) :
    result StateError Policy.SchedulerOperationalPolicy :=
  bail? negb (version =? Policy.SCHEDULER_OPERATIONAL_POLICY_VERSION)
    with invalid_state "unsupported scheduler operational policy version" in
  let? policy := ok_or (from_slice snapshot ≫= policy_of_value) (InvalidSchedulerState OfJson) in
  check? map_err (fun e => InvalidSchedulerState (OfPolicy e)) (Policy.validate policy) in
  let? printed := scheduler_policy_json policy in
  bail? negb (String.eqb printed snapshot)
    with invalid_state "scheduler operational policy snapshot is not canonical" in
  Ok policy.

(** ** Counters *)

Definition increment_scheduler_transition_total (kind : string) (amount : Z) : Tx unit :=
  do! updated := sql (fun d =>
    Ok (is_some (totals d !! kind),
        with_totals d (bump kind (Z.min i64_max amount) (totals d)))) in
  if updated then ret tt
  else fail (invalid_state "scheduler transition metric vocabulary is incomplete").

(** The same update, in a statement of its own after a rollback. *)
Definition record_stale_fence_rejection : Tx unit :=
  increment_scheduler_transition_total "stale_fence_rejected" 1.

(** ** Executor admission *)

Definition executor_admission_storage_error (admission : option ScheduledExecutorAdmission)
    (e : StateError) : StateError :=
  if is_some admission && bool_decide (e = Scheduler Contention)
  then ScheduledExecutorAdmissionUnavailable else e.

Definition epoch_is_exact (m : ScheduledExecutorAdmission) (now : Z) (d : Db) : bool :=
  match epoch d with
  | Some p =>
      (p_schema_version p =? m_schema_version m)
      && (p_deployment_epoch p =? m_deployment_epoch m)
      && String.eqb (p_attestation_id p) (m_attestation_id m)
      && String.eqb (p_profile_digest p) (m_profile_digest m)
      && (p_expires_at p =? m_signed_not_after m) && (p_expires_at p >? now)
  | None => false
  end.

Definition revalidate_executor_admission (admission : option ScheduledExecutorAdmission)
    (now : Z) : Tx unit :=
  match admission with
  | None => ret tt
  | Some m =>
      if (now <=? 0) || (m_operation_deadline m <=? now) || (m_signed_not_after m <=? now)
      then fail ScheduledExecutorAdmissionUnavailable
      else
        do! exact := query (epoch_is_exact m now) in
        if exact then ret tt else fail ScheduledExecutorAdmissionUnavailable
  end.

Definition acquire_and_validate_executor_admission
    (admission : option ScheduledExecutorAdmission) (now : Z) : Tx unit :=
  match admission with
  | None => ret tt
  | Some m =>
      try! map_err invalid_value (admission_validate m) in
      do! locked := map_tx_err (executor_admission_storage_error admission)
        (query (fun d => is_some (epoch d))) in
      if locked then revalidate_executor_admission admission now
      else fail ScheduledExecutorAdmissionUnavailable
  end.

Definition ensure_executor_admission_not_cancelled
    (admission : option ScheduledExecutorAdmission) (cancelled : bool) : Tx unit :=
  if is_some admission && cancelled then fail ScheduledExecutorAdmissionUnavailable
  else ret tt.

(** ** Claiming *)

(** [state = 'pending' and (next_attempt_at is null or next_attempt_at <= now)] *)
Definition is_due (now : Z) (r : Run) : bool :=
  bool_decide (r_state r = Pending)
  && match r_next_attempt_at r with None => true | Some t => t <=? now end.

Definition snapshot_policy (r : Run) (field : string) : option Z :=
  json_extract_integer (s_scheduler_policy_json (r_snapshot r)) field.

Definition past_deadline (now : Z) (r : Run) : bool :=
  match snapshot_policy r "run_deadline_seconds" with
  | Some d => (s_scheduled_for (r_snapshot r) >? i64_max - d)
              || (now >=? s_scheduled_for (r_snapshot r) + d)
  | None => false
  end.

Definition attempts_spent (r : Run) : bool :=
  match snapshot_policy r "run_max_attempts" with
  | Some m => r_attempt r >=? m
  | None => false
  end.

Definition expire_where (now : Z) (_ : string) (r : Run) : bool :=
  is_due now r && (past_deadline now r || attempts_spent r).

Definition expire_set (now : Z) (r : Run) : Run := {|
  r_snapshot := r_snapshot r;
  r_state := Failed;
  r_attempt := r_attempt r;
  r_fence := r_fence r;
  r_next_attempt_at := None;
  r_lease_owner := None;
  r_lease_expires_at := None;
  r_overlap_slot := None;
  r_result := r_result r;
  r_error_kind :=
    Some (if past_deadline now r then "run_deadline_exceeded" else "run_retry_exhausted");
  r_error_message := None;
  r_updated_at := now;
  r_counter_limit_recorded := r_counter_limit_recorded r
|}.

Definition counters_left (r : Run) : bool := (r_attempt r <? i64_max) && (r_fence r <? i64_max).

(** [order by scheduled_for, run_id] *)
Definition claims_before (x y : string * Run) : bool :=
  match s_scheduled_for (r_snapshot x.2) ?= s_scheduled_for (r_snapshot y.2) with
  | Lt => true
  | Eq => match String.compare x.1 y.1 with Gt => false | _ => true end
  | Gt => false
  end.

Definition claimable (now : Z) (_ : string) (r : Run) : bool := is_due now r && counters_left r.

(** The lease a claim takes: the requested one when it lies after the claim,
    and else the snapshot's [run_lease_seconds] from now. *)
Definition claim_lease (requested now : Z) (r : Run) : option Z :=
  if requested >? now then Some requested
  else seconds ← snapshot_policy r "run_lease_seconds"; Some (now + seconds).

Definition claim_set (owner : string) (requested now : Z) (r : Run) : Run := {|
  r_snapshot := r_snapshot r;
  r_state := Leased;
  r_attempt := r_attempt r + 1;
  r_fence := r_fence r + 1;
  r_next_attempt_at := None;
  r_lease_owner := Some owner;
  r_lease_expires_at := claim_lease requested now r;
  r_overlap_slot := r_overlap_slot r;
  r_result := r_result r;
  r_error_kind := r_error_kind r;
  r_error_message := r_error_message r;
  r_updated_at := now;
  r_counter_limit_recorded := r_counter_limit_recorded r
|}.

(** The UPDATE with its subselect and its RETURNING clause. *)
Definition claim_row (owner : string) (requested now : Z) (d : Db) :
    result SqlError (option (string * Run) * Db) :=
  match first_by claims_before (matching (claimable now) (runs d)) with
  | None => Ok (None, d)
  | Some (id, _) =>
      let? (_, d') := runs_updated (fun id' r => String.eqb id' id && claimable now id' r)
        (claim_set owner requested now) d in
      Ok (match runs d' !! id with Some r => Some (id, r) | None => None end, d')
  end.

Definition counters_exhausted (now : Z) (_ : string) (r : Run) : bool :=
  is_due now r && ((r_attempt r =? i64_max) || (r_fence r =? i64_max)).

Definition note_counter_limit (r : Run) : Run := {|
  r_snapshot := r_snapshot r;
  r_state := r_state r;
  r_attempt := r_attempt r;
  r_fence := r_fence r;
  r_next_attempt_at := r_next_attempt_at r;
  r_lease_owner := r_lease_owner r;
  r_lease_expires_at := r_lease_expires_at r;
  r_overlap_slot := r_overlap_slot r;
  r_result := r_result r;
  r_error_kind := r_error_kind r;
  r_error_message := r_error_message r;
  r_updated_at := r_updated_at r;
  r_counter_limit_recorded := true
|}.

Definition positive_u32 (value : Z) : result StateError Z :=
  if in_u32 value && (0 <? value) then Ok value
  else Err (invalid_state "persisted version is not positive").

Definition missing_baseline : StateError :=
  invalid_state "materialized run is missing its execution baseline snapshot".

(** The claim a run's snapshot columns describe. *)
Definition claim_of_snapshot (b : RunLeaseBinding) (s : RunSnapshot) :
    result StateError ClaimedScheduledRun :=
  let? definition_version := positive_u32 (s_definition_version s) in
  let? capability_schema_version := positive_u32 (s_capability_schema_version s) in
  let? baseline := ok_or (s_execution_baseline_json s) missing_baseline in
  let? policy := scheduler_policy_from_snapshot (s_scheduler_policy_version s)
    (s_scheduler_policy_json s) in
  Ok (mkClaim b (s_schedule_id s) (s_job_generation s) (s_schedule_generation s)
        (s_scheduled_for s) (s_coalesced_through s) definition_version (s_definition_json s)
        capability_schema_version (s_capability_digest s) (s_capability_json s)
        (s_targets_json s) baseline policy).

(** A column read as [i64]; SQLite turns an overflowing sum into a real. *)
Definition integer_column (o : option Z) : result StateError Z :=
  match o with
  | Some z => if in_i64 z then Ok z else Err (Scheduler Decode)
  | None => Err (Scheduler Decode)
  end.

Definition fresh_attempt (b : RunLeaseBinding) (now lease_expires_at : Z) : Attempt := {|
  a_job_id := job_id b;
  a_fence := fence b;
  a_lease_owner := lease_owner b;
  a_state := ALeased;
  a_claimed_at := now;
  a_lease_expires_at := lease_expires_at;
  a_preflight_completed_at := None;
  a_executing_at := None;
  a_completed_at := None;
  a_attested_profile := None;
  a_error_kind := None;
  a_error_message := None
|}.

(** The end every branch of a claim shares: still admitted, then commit. *)
Definition commit_admitted {A} (admission : option ScheduledExecutorAdmission)
    (readings : Readings) (a : A) : Tx (Ending A) :=
  do! _ := ensure_executor_admission_not_cancelled admission (cancelled_at_commit readings) in
  do! _ := revalidate_executor_admission admission (clock_at_commit readings) in
  ret (Commit a).

(** No row was claimed: report counters that cannot advance, once per run. *)
Definition claim_nothing (admission : option ScheduledExecutorAdmission) (readings : Readings) :
    Tx (Ending (result StateError (option ClaimedScheduledRun))) :=
  let now := clock_at_mutation readings in
  do! exhausted := query (fun d => negb (Nat.eqb (length
    (matching (counters_exhausted now) (runs d))) 0)) in
  if exhausted then
    do! newly_recorded := update_runs
      (fun id r => counters_exhausted now id r && negb (r_counter_limit_recorded r))
      note_counter_limit in
    do! _ := increment_scheduler_transition_total "policy_limit_rejected" newly_recorded in
    commit_admitted admission readings (Err ScheduledRunCounterExhausted)
  else commit_admitted admission readings (Ok None).

(** A row was claimed: record its attempt and hand out its binding. *)
Definition claim_found (owner : string) (admission : option ScheduledExecutorAdmission)
    (readings : Readings) (id : string) (r : Run) :
    Tx (Ending (result StateError (option ClaimedScheduledRun))) :=
  let b := mkLeaseBinding id (s_job_id (r_snapshot r)) (r_attempt r) (r_fence r) owner in
  do! expires := lift (integer_column (r_lease_expires_at r)) in
  do! _ := insert_attempt id (r_attempt r)
    (fresh_attempt b (clock_at_mutation readings) expires) in
  do! _ := lift (ok_or (s_execution_baseline_json (r_snapshot r)) missing_baseline) in
  do! claimed := lift (claim_of_snapshot b (r_snapshot r)) in
  commit_admitted admission readings (Ok (Some claimed)).

(** The body of the claim's transaction. *)
Definition claim_body (owner : string) (lease_expires_at : option Z)
    (admission : option ScheduledExecutorAdmission) (readings : Readings) :
    Tx (Ending (result StateError (option ClaimedScheduledRun))) :=
  do! _ := acquire_and_validate_executor_admission admission (clock_at_admission readings) in
  do! _ := ensure_executor_admission_not_cancelled admission
    (cancelled_at_admission readings) in
  let mutation_now := clock_at_mutation readings in
  do! _ :=
    if is_some lease_expires_at then ret 0
    else update_runs (expire_where mutation_now) (expire_set mutation_now) in
  let requested := match lease_expires_at with Some t => t | None => mutation_now end in
  do! row := sql (claim_row owner requested mutation_now) in
  match row with
  | None => claim_nothing admission readings
  | Some (id, r) => claim_found owner admission readings id r
  end.

Definition claim_next_scheduled_run_inner (owner : string) (now : Z)
    (lease_expires_at : option Z) (admission : option ScheduledExecutorAdmission)
    (readings : Readings) : Tx (option ClaimedScheduledRun) :=
  try! map_err invalid_value (validate_text "scheduled run lease owner" owner) in
  if match lease_expires_at with Some t => t <=? now | None => false end
  then fail (invalid_state "scheduled run lease must expire after claim time")
  else
    do! claimed := begin_transaction
      (fun e => executor_admission_storage_error admission (Scheduler e))
      (claim_body owner lease_expires_at admission readings) in
    lift claimed.

(** A clock and a flag that do not move. *)
Definition steady (now : Z) : Readings := mkReadings now now now false false.

Definition claim_next_scheduled_run (owner : string) (now lease_expires_at : Z) :
    Tx (option ClaimedScheduledRun) :=
  claim_next_scheduled_run_inner owner now (Some lease_expires_at) None (steady now).

Definition claim_next_scheduled_run_from_snapshot (owner : string) (now : Z) :
    Tx (option ClaimedScheduledRun) :=
  claim_next_scheduled_run_inner owner now None None (steady now).

(** ** Holding a lease *)

(** The five columns every fenced statement compares with the binding. *)
Definition bound_run (b : RunLeaseBinding) (id : string) (r : Run) : bool :=
  String.eqb id (run_id b) && String.eqb (s_job_id (r_snapshot r)) (job_id b)
  && (r_attempt r =? attempt b) && (r_fence r =? fence b)
  && is_value (r_lease_owner r) (lease_owner b).

Definition bound_attempt (b : RunLeaseBinding) (key : string * Z) (a : Attempt) : bool :=
  String.eqb key.1 (run_id b) && String.eqb (a_job_id a) (job_id b)
  && (key.2 =? attempt b) && (a_fence a =? fence b)
  && String.eqb (a_lease_owner a) (lease_owner b).

(** The shape of every fenced mutation: the run's row, then its attempt's, each
    of which has to be exactly one row. *)
Definition fenced_update {A} (run_update attempt_update : Tx Z) (finish : Tx A) :
    Tx (Ending (option A)) :=
  do! run := run_update in
  if negb (run =? 1) then ret (Rollback None)
  else
    do! attempt := attempt_update in
    if negb (attempt =? 1) then ret (Rollback None)
    else do! a := finish in ret (Commit (Some a)).

(** A fenced mutation that hit nothing is counted and reported. *)
Definition or_lost_lease {A} (m : Tx (option A)) : Tx A :=
  do! outcome := m in
  match outcome with
  | Some a => ret a
  | None => do! _ := record_stale_fence_rejection in fail ScheduledRunLostLease
  end.

Definition extend_lease (lease_expires_at now : Z) (r : Run) : Run := {|
  r_snapshot := r_snapshot r;
  r_state := r_state r;
  r_attempt := r_attempt r;
  r_fence := r_fence r;
  r_next_attempt_at := r_next_attempt_at r;
  r_lease_owner := r_lease_owner r;
  r_lease_expires_at := Some lease_expires_at;
  r_overlap_slot := r_overlap_slot r;
  r_result := r_result r;
  r_error_kind := r_error_kind r;
  r_error_message := r_error_message r;
  r_updated_at := now;
  r_counter_limit_recorded := r_counter_limit_recorded r
|}.

Definition extend_attempt (lease_expires_at : Z) (a : Attempt) : Attempt := {|
  a_job_id := a_job_id a;
  a_fence := a_fence a;
  a_lease_owner := a_lease_owner a;
  a_state := a_state a;
  a_claimed_at := a_claimed_at a;
  a_lease_expires_at := lease_expires_at;
  a_preflight_completed_at := a_preflight_completed_at a;
  a_executing_at := a_executing_at a;
  a_completed_at := a_completed_at a;
  a_attested_profile := a_attested_profile a;
  a_error_kind := a_error_kind a;
  a_error_message := a_error_message a
|}.

Definition heartbeat_scheduled_run (b : RunLeaseBinding) (now lease_expires_at : Z) : Tx unit :=
  try! validate_lease_binding b in
  if lease_expires_at <=? now
  then fail (invalid_state "scheduled run heartbeat must extend beyond now")
  else or_lost_lease (transaction (fenced_update
    (update_runs
      (fun id r => bound_run b id r && is_live (r_state r)
                   && after (r_lease_expires_at r) now
                   && match r_lease_expires_at r with
                      | Some t => lease_expires_at >? t | None => false end)
      (extend_lease lease_expires_at now))
    (update_attempts
      (fun key a => bound_attempt b key a && attempt_is_live (a_state a)
                    && (a_lease_expires_at a >? now) && (lease_expires_at >? a_lease_expires_at a))
      (extend_attempt lease_expires_at))
    (ret tt))).

Definition profile_validate (p : AttestedExecutionProfileSnapshot) :
    result StateValueError unit :=
  check? validate_canonical_snapshot (Tables.schema_version p) "attested execution profile"
           (Tables.canonical_json p) in
  check? validate_text "attested profile hash algorithm" (Tables.hash_algorithm p) in
  validate_text "attested profile digest" (Tables.digest p).

Definition start_run (now : Z) (r : Run) : Run := {|
  r_snapshot := r_snapshot r;
  r_state := Executing;
  r_attempt := r_attempt r;
  r_fence := r_fence r;
  r_next_attempt_at := r_next_attempt_at r;
  r_lease_owner := r_lease_owner r;
  r_lease_expires_at := r_lease_expires_at r;
  r_overlap_slot := r_overlap_slot r;
  r_result := r_result r;
  r_error_kind := r_error_kind r;
  r_error_message := r_error_message r;
  r_updated_at := now;
  r_counter_limit_recorded := r_counter_limit_recorded r
|}.

Definition start_attempt (now : Z) (p : AttestedExecutionProfileSnapshot) (a : Attempt) :
    Attempt := {|
  a_job_id := a_job_id a;
  a_fence := a_fence a;
  a_lease_owner := a_lease_owner a;
  a_state := AExecuting;
  a_claimed_at := a_claimed_at a;
  a_lease_expires_at := a_lease_expires_at a;
  a_preflight_completed_at := Some now;
  a_executing_at := Some now;
  a_completed_at := a_completed_at a;
  a_attested_profile := Some p;
  a_error_kind := a_error_kind a;
  a_error_message := a_error_message a
|}.

(** The WHERE clause of a fenced statement in one state before the lease ends. *)
Definition holds_run (b : RunLeaseBinding) (s : ScheduledRunState) (now : Z)
    (id : string) (r : Run) : bool :=
  bound_run b id r && bool_decide (r_state r = s) && after (r_lease_expires_at r) now.

Definition holds_attempt (b : RunLeaseBinding) (s : AttemptState) (now : Z)
    (key : string * Z) (a : Attempt) : bool :=
  bound_attempt b key a && bool_decide (a_state a = s) && (a_lease_expires_at a >? now).

Definition mark_scheduled_run_executing (b : RunLeaseBinding)
    (profile : AttestedExecutionProfileSnapshot) (now : Z) : Tx unit :=
  try! validate_lease_binding b in
  try! map_err invalid_value (profile_validate profile) in
  or_lost_lease (transaction (fenced_update
    (update_runs (holds_run b Leased now) (start_run now))
    (update_attempts (holds_attempt b ALeased now) (start_attempt now profile))
    (ret tt))).

(** ** Ending an attempt *)

(** The SET clause that releases a lease: the state, the retry time and the
    overlap slot are bound, and so are the error columns. *)
Definition release_run (state : ScheduledRunState) (retry_at slot : option Z)
    (kind message : option string) (now : Z) (r : Run) : Run := {|
  r_snapshot := r_snapshot r;
  r_state := state;
  r_attempt := r_attempt r;
  r_fence := r_fence r;
  r_next_attempt_at := retry_at;
  r_lease_owner := None;
  r_lease_expires_at := None;
  r_overlap_slot := slot;
  r_result := r_result r;
  r_error_kind := kind;
  r_error_message := message;
  r_updated_at := now;
  r_counter_limit_recorded := r_counter_limit_recorded r
|}.

Definition close_attempt (state : AttemptState) (preflight : option Z) (now : Z)
    (kind message : string) (a : Attempt) : Attempt := {|
  a_job_id := a_job_id a;
  a_fence := a_fence a;
  a_lease_owner := a_lease_owner a;
  a_state := state;
  a_claimed_at := a_claimed_at a;
  a_lease_expires_at := a_lease_expires_at a;
  a_preflight_completed_at :=
    match preflight with Some t => Some t | None => a_preflight_completed_at a end;
  a_executing_at := a_executing_at a;
  a_completed_at := Some now;
  a_attested_profile := a_attested_profile a;
  a_error_kind := Some kind;
  a_error_message := Some message
|}.

(** The row a query with the whole binding selects. *)
Definition select_run (where_ : string -> Run -> bool) (d : Db) : option (string * Run) :=
  match matching where_ (runs d) with
  | [] => None
  | x :: _ => Some x
  end.

(** [snapshot_retryable == Some(true)]: the retry time comes from the run's own
    policy.  [None] is a lost lease. *)
Definition snapshot_disposition (b : RunLeaseBinding) (now : Z) :
    Tx (option PreflightFailureDisposition) :=
  do! row := query (select_run (holds_run b Leased now)) in
  match row with
  | None => ret None
  | Some (_, r) =>
      do! policy := lift (scheduler_policy_from_snapshot
        (s_scheduler_policy_version (r_snapshot r)) (s_scheduler_policy_json (r_snapshot r))) in
      ret (Some (match Policy.run_retry_at policy (run_id b) (attempt b)
                         (s_scheduled_for (r_snapshot r)) now with
                 | Some t => RetryAt t
                 | None => Fail
                 end))
  end.

Definition choose_disposition (b : RunLeaseBinding) (disposition : PreflightFailureDisposition)
    (snapshot_retryable : option bool) (now : Z) : Tx (option PreflightFailureDisposition) :=
  match snapshot_retryable with
  | Some true => snapshot_disposition b now
  | Some false => ret (Some Fail)
  | None => ret (Some disposition)
  end.

Definition record_scheduled_run_preflight_failure_inner (b : RunLeaseBinding)
    (disposition : PreflightFailureDisposition) (snapshot_retryable : option bool)
    (error_kind error_message : string) (now : Z) : Tx unit :=
  try! validate_lease_binding b in
  try! map_err invalid_value (validate_text "scheduled preflight error kind" error_kind) in
  if len error_message >? MAX_CONTEXT_BYTES
  then fail (invalid_state "scheduled preflight error exceeds its storage bound")
  else or_lost_lease (transaction (
    do! chosen := choose_disposition b disposition snapshot_retryable now in
    match chosen with
    | None => ret (Rollback None)
    | Some (RetryAt retry_at) =>
        if retry_at >? now then
          fenced_update
            (update_runs (holds_run b Leased now)
              (release_run Pending (Some retry_at) (Some 1) None None now))
            (update_attempts (holds_attempt b ALeased now)
              (close_attempt RetryScheduled (Some now) now error_kind error_message))
            (ret tt)
        else fail (invalid_state "scheduled preflight retry must be later than now")
    | Some Fail =>
        fenced_update
          (update_runs (holds_run b Leased now)
            (release_run Failed None None (Some error_kind) (Some error_message) now))
          (update_attempts (holds_attempt b ALeased now)
            (close_attempt PreflightRejected (Some now) now error_kind error_message))
          (ret tt)
    end)).

(** ** Late evidence *)

Definition same_evidence (b : RunLeaseBinding) (kind : ScheduledRunLateEvidenceKind)
    (evidence : string) (e : LateEvidence) : bool :=
  String.eqb (e_run_id e) (run_id b) && (e_attempt e =? attempt b) && (e_fence e =? fence b)
  && bool_decide (e_kind e = kind) && String.eqb (e_digest e) evidence.

Definition evidence_of_attempt (b : RunLeaseBinding) (e : LateEvidence) : bool :=
  String.eqb (e_run_id e) (run_id b) && (e_attempt e =? attempt b).

(** The keys, the foreign key, the contract and the quota trigger of
    [scheduled_run_late_evidence]. *)
Definition evidence_accepted (d : Db) (e : LateEvidence) : bool :=
  negb (existsb (fun e' => String.eqb (e_evidence_id e') (e_evidence_id e)) (late_evidence d))
  && match attempts d !! (e_run_id e, e_attempt e) with
     | Some a => a_fence a =? e_fence e
     | None => false
     end
  && negb (is_empty (e_evidence_id e)) && (len (e_evidence_id e) <=? 128)
  && (len (e_digest e) =? 64) && bytes_all is_hex_byte (e_digest e)
  && (Z.of_nat (length (List.filter (fun e' => String.eqb (e_run_id e') (e_run_id e)
        && (e_attempt e' =? e_attempt e)) (late_evidence d))) <? 32).

(** [random] is the text of [lower(hex(randomblob(16)))]. *)
Definition append_late_evidence_in_transaction (b : RunLeaseBinding)
    (kind : ScheduledRunLateEvidenceKind) (evidence : string) (observed_at : Z)
    (random : string) : Tx LateEvidenceAppendOutcome :=
  do! duplicate := query (fun d => existsb (same_evidence b kind evidence) (late_evidence d)) in
  if duplicate then ret Duplicate
  else
    do! count := query (fun d =>
      Z.of_nat (length (List.filter (evidence_of_attempt b) (late_evidence d)))) in
    if count >=? 32 then ret QuotaExceeded
    else
      do! _ := sql (fun d =>
        let row := mkEvidence ("late:" +:+ random) (run_id b) (attempt b) (fence b) kind
          evidence observed_at in
        if evidence_accepted d row
        then Ok (tt, with_late_evidence d (late_evidence d ++ [row]))
        else Err Constraint) in
      ret Recorded.

(** What a stale completion may still do: append evidence and be counted. *)
Definition late_completion (b : RunLeaseBinding) (evidence : string) (observed_at : Z)
    (random : string) : Tx LateEvidenceAppendOutcome :=
  do! outcome := append_late_evidence_in_transaction b CompletionAfterLeaseLoss evidence
    observed_at random in
  do! _ := increment_scheduler_transition_total "stale_fence_rejected" 1 in
  ret outcome.

(** ** Reporting an execution *)

Definition profile_nonce (json : string) : result StateError (option string) :=
  let? profile := ok_or (from_slice json) (InvalidSchedulerState OfJson) in
  Ok (pointer ["authority"; "nonce"] profile ≫= as_str).

(** The authority a persisted profile claims to attest, when it is one of the
    given schema; [None] is [Ok(false)]. *)
Definition persisted_authority (b : RunLeaseBinding) (s : RunSnapshot)
    (profile : option AttestedExecutionProfileSnapshot) (schema : Z) :
    result StateError (option (ScheduledPrepareAuthority * string * string)) :=
  match profile with
  | None => Ok None
  | Some p =>
      if negb (Tables.schema_version p =? schema)
         || negb (String.eqb (Tables.hash_algorithm p) "sha256-v1") then Ok None
      else
        let? nonce := profile_nonce (Tables.canonical_json p) in
        match nonce with
        | None => Ok None
        | Some nonce =>
            let? claim := claim_of_snapshot b s in
            Ok (match for_claim claim nonce with
                | Ok authority => Some (authority, Tables.canonical_json p, Tables.digest p)
                | Err _ => None
                end)
        end
  end.

Definition persisted_profile_allows_retry (b : RunLeaseBinding) (s : RunSnapshot)
    (profile : option AttestedExecutionProfileSnapshot) : result StateError bool :=
  let? found := persisted_authority b s profile 1 in
  Ok (match found with
      | Some (authority, json, json_digest) => attestation_matches authority json json_digest true
      | None => false
      end).

Definition persisted_profile_allows_recovery (b : RunLeaseBinding) (s : RunSnapshot)
    (profile : option AttestedExecutionProfileSnapshot) : result StateError bool :=
  let? found := persisted_authority b s profile 2 in
  Ok (match found with
      | Some (authority, json, json_digest) =>
          recovery_attestation_matches authority json json_digest
      | None => false
      end).

Record ExecutionOutcomeTransition := mkTransition {
  t_run_state : ScheduledRunState;
  t_attempt_state : AttemptState;
  t_retry_at : option Z;
  t_overlap_slot : option Z;
  t_outcome : ScheduledRunExecutionOutcome
}.

Definition terminal_transition (terminal : ScheduledExecutionTerminal) :
    ExecutionOutcomeTransition :=
  let '(run_state, attempt_state) :=
    match terminal with
    | TerminalFailed => (Failed, AFailed)
    | TerminalTimedOut => (TimedOut, ATimedOut)
    | TerminalCancelled => (Cancelled, ACancelled)
    | TerminalOutcomeUnknown => (OutcomeUnknown, AOutcomeUnknown)
    end in
  mkTransition run_state attempt_state None
    (if bool_decide (terminal = TerminalOutcomeUnknown) then Some 1 else None)
    (OutcomeTerminal terminal).

Definition execution_outcome_transition (b : RunLeaseBinding)
    (disposition : ScheduledExecutionDisposition) (s : RunSnapshot)
    (profile : option AttestedExecutionProfileSnapshot) (now : Z) :
    result StateError ExecutionOutcomeTransition :=
  match disposition with
  | Terminal terminal => Ok (terminal_transition terminal)
  | ExecutionRetryAt retry_at _ _ exhausted =>
      let? policy := scheduler_policy_from_snapshot (s_scheduler_policy_version s)
        (s_scheduler_policy_json s) in
      let durable_deadline := Policy.run_deadline_at policy (s_scheduled_for s) in
      let? allowed := persisted_profile_allows_retry b s profile in
      Ok (if negb allowed then terminal_transition TerminalOutcomeUnknown
          else if (attempt b >=? Policy.run_max_attempts policy)
                  || match durable_deadline with
                     | None => true
                     | Some deadline => (now >=? deadline) || (retry_at >=? deadline)
                     end
          then terminal_transition exhausted
          else mkTransition Pending RetryScheduled (Some retry_at) (Some 1) OutcomeRetried)
  end.

(** The join of a run with its current attempt, both executing under the
    binding and before the end of the lease. *)
Definition select_executing (b : RunLeaseBinding) (now : Z) (d : Db) : option (Run * Attempt) :=
  match select_run (holds_run b Executing now) d with
  | Some (id, r) =>
      match attempts d !! (id, r_attempt r) with
      | Some a => if holds_attempt b AExecuting now (id, r_attempt r) a then Some (r, a) else None
      | None => None
      end
  | None => None
  end.

Definition newline : string := String (ascii_of_nat 10) "".

Definition execution_evidence (b : RunLeaseBinding) (error_kind error_message : string) : string :=
  sha256_hex ("scheduled-execution-outcome-v1" +:+ newline +:+ run_id b +:+ newline
    +:+ pretty (attempt b) +:+ newline +:+ error_kind +:+ newline +:+ error_message).

Definition unless_pending (s : ScheduledRunState) (text : string) : option string :=
  if bool_decide (s = Pending) then None else Some text.

Definition invalid_retry (disposition : ScheduledExecutionDisposition) (now : Z) : bool :=
  match disposition with
  | ExecutionRetryAt retry_at _ max_attempts _ => (retry_at <=? now) || (max_attempts <=? 0)
  | Terminal _ => false
  end.

Definition record_scheduled_run_execution_outcome (b : RunLeaseBinding)
    (disposition : ScheduledExecutionDisposition) (error_kind error_message : string)
    (now : Z) (random : string) : Tx ScheduledRunExecutionOutcome :=
  try! validate_lease_binding b in
  try! map_err invalid_value (validate_text "scheduled execution error kind" error_kind) in
  if len error_message >? MAX_CONTEXT_BYTES
  then fail (invalid_state "scheduled execution error exceeds its storage bound")
  else if invalid_retry disposition now
  then fail (invalid_state "invalid scheduled execution retry policy")
  else or_lost_lease (transaction (
    do! row := query (select_executing b now) in
    match row with
    | None =>
        do! evidence := late_completion b (execution_evidence b error_kind error_message) now
          random in
        ret (Commit (Some (OutcomeLateEvidence evidence)))
    | Some (r, a) =>
        do! t := lift (execution_outcome_transition b disposition (r_snapshot r)
          (a_attested_profile a) now) in
        fenced_update
          (update_runs (holds_run b Executing now)
            (release_run (t_run_state t) (t_retry_at t) (t_overlap_slot t)
              (unless_pending (t_run_state t) error_kind)
              (unless_pending (t_run_state t) error_message) now))
          (update_attempts (holds_attempt b AExecuting now)
            (close_attempt (t_attempt_state t) None now error_kind error_message))
          (ret (t_outcome t))
    end)).

(** ** Taking expired leases back *)

Record ExpiredReclaimTransition := mkReclaim {
  x_run_state : ScheduledRunState;
  x_attempt_state : AttemptState;
  x_overlap_slot : option Z;
  x_error_kind : string;
  x_outcome : ExpiredRunReclaimOutcome
}.

Definition expired_reclaim_transition (state : ScheduledRunState) (id : string)
    (attempt fence max_attempts : Z) (safe_execution_retry : bool) : ExpiredReclaimTransition :=
  let executing := bool_decide (state = Executing) in
  if executing && negb safe_execution_retry then
    mkReclaim OutcomeUnknown AOutcomeUnknown (Some 1) "execution_lease_expired"
      (ReclaimOutcomeUnknown id attempt fence)
  else if attempt <? max_attempts then
    mkReclaim Pending LeaseExpired (Some 1)
      (if executing then "safe_execution_lease_expired" else "preflight_lease_expired")
      (ReclaimRetried id attempt fence)
  else
    mkReclaim Failed LeaseExpired None
      (if executing then "safe_execution_lease_exhausted" else "preflight_lease_exhausted")
      (ReclaimFailed id attempt fence).

(** [a.state = r.state] between the two tables. *)
Definition same_state (s : ScheduledRunState) (a : AttemptState) : bool :=
  match s, a with
  | Leased, ALeased | Executing, AExecuting | Succeeded, ASucceeded | Failed, AFailed
  | TimedOut, ATimedOut | Cancelled, ACancelled | OutcomeUnknown, AOutcomeUnknown => true
  | _, _ => false
  end.

(** The attempt that the join conditions pair with a run. *)
Definition current_attempt (d : Db) (id : string) (r : Run) : option Attempt :=
  a ← attempts d !! (id, r_attempt r);
  if String.eqb (a_job_id a) (s_job_id (r_snapshot r)) && (a_fence a =? r_fence r)
     && is_value (r_lease_owner r) (a_lease_owner a) && same_state (r_state r) (a_state a)
  then Some a else None.

Definition reclaimable (now : Z) (d : Db) (id : string) (r : Run) : bool :=
  is_live (r_state r) && not_after (r_lease_expires_at r) now
  && match current_attempt d id r with
     | Some a => a_lease_expires_at a <=? now
     | None => false
     end.

(** [order by r.lease_expires_at, r.run_id] *)
Definition expires_before (x y : string * Run) : bool :=
  match r_lease_expires_at x.2, r_lease_expires_at y.2 with
  | Some t, Some u =>
      match t ?= u with
      | Lt => true
      | Eq => match String.compare x.1 y.1 with Gt => false | _ => true end
      | Gt => false
      end
  | _, _ => true
  end.

Definition next_expired (now : Z) (d : Db) : option (string * Run) :=
  first_by expires_before (matching (reclaimable now d) (runs d)).

Definition expired_run (b : RunLeaseBinding) (s : ScheduledRunState) (now : Z)
    (id : string) (r : Run) : bool :=
  bound_run b id r && bool_decide (r_state r = s) && not_after (r_lease_expires_at r) now.

Definition expired_attempt (b : RunLeaseBinding) (s : ScheduledRunState) (now : Z)
    (key : string * Z) (a : Attempt) : bool :=
  bound_attempt b key a && same_state s (a_state a) && (a_lease_expires_at a <=? now).

Definition if_stopped (s : ScheduledRunState) (kind : string) : option string :=
  match s with Failed | OutcomeUnknown => Some kind | _ => None end.

Definition reclaim_run (t : ExpiredReclaimTransition) (retry_at : option Z) (now : Z) : Run -> Run :=
  release_run (x_run_state t) retry_at (x_overlap_slot t)
    (if_stopped (x_run_state t) (x_error_kind t)) (if_stopped (x_run_state t) (x_error_kind t)) now.

Definition reclaim_attempt (t : ExpiredReclaimTransition) (now : Z) : Attempt -> Attempt :=
  close_attempt (x_attempt_state t) None now (x_error_kind t) (x_error_kind t).

Definition count_reclaim {A} (executing safe : bool) (a : A) : Tx A :=
  do! _ := increment_scheduler_transition_total "run_lease_reclaimed" 1 in
  if executing && safe then
    do! _ := increment_scheduler_transition_total "run_observe_only_reexecution" 1 in ret a
  else ret a.

(** [(attempt, now)] stands for a policy that allows no further attempt. *)
Definition reclaim_policy (override_policy : option (Z * Z)) (id : string) (r : Run) (now : Z) :
    result StateError (Z * Z) :=
  match override_policy with
  | Some policy => Ok policy
  | None =>
      let? policy := scheduler_policy_from_snapshot
        (s_scheduler_policy_version (r_snapshot r)) (s_scheduler_policy_json (r_snapshot r)) in
      Ok (match Policy.run_retry_at policy id (r_attempt r) (s_scheduled_for (r_snapshot r)) now with
          | Some retry_at => (Policy.run_max_attempts policy, retry_at)
          | None => (r_attempt r, now)
          end)
  end.

Definition allows_recovery (b : RunLeaseBinding) (r : Run) (a : option Attempt) :
    result StateError bool :=
  if bool_decide (r_state r = Executing)
  then persisted_profile_allows_recovery b (r_snapshot r) (a ≫= a_attested_profile)
  else Ok false.

Definition owner_column (r : Run) : result StateError string :=
  ok_or (r_lease_owner r) (Scheduler Decode).

Definition reclaim_next_expired_scheduled_run_inner (now : Z) (override_policy : option (Z * Z)) :
    Tx ExpiredRunReclaimOutcome :=
  or_lost_lease (transaction (
    do! row := query (fun d => match next_expired now d with
      | Some (id, r) => Some (id, r, current_attempt d id r)
      | None => None
      end) in
    match row with
    | None => ret (Commit (Some Idle))
    | Some (id, r, a) =>
        do! owner := lift (owner_column r) in
        do! (max_attempts, next_attempt_at) := lift (reclaim_policy override_policy id r now) in
        let b := mkLeaseBinding id (s_job_id (r_snapshot r)) (r_attempt r) (r_fence r) owner in
        do! safe := lift (allows_recovery b r a) in
        let t := expired_reclaim_transition (r_state r) id (r_attempt r) (r_fence r)
          max_attempts safe in
        let retry_at := if bool_decide (x_run_state t = Pending) then Some next_attempt_at
          else None in
        fenced_update
          (update_runs (expired_run b (r_state r) now) (reclaim_run t retry_at now))
          (update_attempts (expired_attempt b (r_state r) now) (reclaim_attempt t now))
          (count_reclaim (bool_decide (r_state r = Executing)) safe (x_outcome t))
    end)).

Definition reclaim_next_expired_scheduled_run (now max_attempts next_attempt_at : Z) :
    Tx ExpiredRunReclaimOutcome :=
  if (max_attempts <=? 0) || (next_attempt_at <=? now)
  then fail (invalid_state "invalid scheduled run reclaim policy")
  else reclaim_next_expired_scheduled_run_inner now (Some (max_attempts, next_attempt_at)).

Definition reclaim_next_expired_scheduled_run_from_snapshot (now : Z) :
    Tx ExpiredRunReclaimOutcome :=
  reclaim_next_expired_scheduled_run_inner now None.

(** ** Reconciling one observed lease *)

(** A stale plan is counted, and the transaction commits. *)
Definition stale_plan : Tx (Ending (result StateError ScheduledRunReconcileOutcome)) :=
  do! _ := increment_scheduler_transition_total "stale_fence_rejected" 1 in
  ret (Commit (Ok Stale)).

(** The lease the caller observed. *)
Definition lease_as_observed (expected_state : ScheduledRunState)
    (expected_attempt expected_fence : Z) (expected_owner : string) (expected_expires_at : Z)
    (r : Run) : bool :=
  bool_decide (r_state r = expected_state) && (r_attempt r =? expected_attempt)
  && (r_fence r =? expected_fence) && is_value (r_lease_owner r) expected_owner
  && is_value (r_lease_expires_at r) expected_expires_at.

(** The part that rewrites the run once the plan is known to be current. *)
Definition reconcile_apply (b : RunLeaseBinding) (r : Run) (expires_at now : Z)
    (policy : Policy.SchedulerOperationalPolicy) (next_attempt_at : option Z) (safe : bool) :
    Tx (Ending (result StateError ScheduledRunReconcileOutcome)) :=
  let max_attempts :=
    match next_attempt_at with
    | Some _ => Policy.run_max_attempts policy
    | None => attempt b
    end in
  let t := expired_reclaim_transition (r_state r) (run_id b) (attempt b) (fence b)
    max_attempts safe in
  let retry_at := if bool_decide (x_run_state t = Pending) then next_attempt_at else None in
  do! run := update_runs
    (fun id r' => expired_run b (r_state r) now id r'
                  && is_value (r_lease_expires_at r') expires_at && (r_updated_at r' <=? now))
    (reclaim_run t retry_at now) in
  if negb (run =? 1) then stale_plan
  else
    do! attempt_updated := update_attempts
      (fun key a => expired_attempt b (r_state r) now key a
                    && (a_lease_expires_at a =? expires_at) && (a_claimed_at a <=? now))
      (reclaim_attempt t now) in
    if negb (attempt_updated =? 1)
    then ret (Rollback (Err (invalid_state
           "exact run reconciliation found inconsistent attempt authority")))
    else
      do! outcome := count_reclaim (bool_decide (r_state r = Executing)) safe
        (Applied (x_outcome t)) in
      ret (Commit (Ok outcome)).

Definition reconcile_expired_scheduled_run (id : string) (expected_state : ScheduledRunState)
    (expected_attempt expected_fence : Z) (expected_owner : string) (expected_expires_at : Z)
    (expected_next_attempt_at : option Z) (now : Z) : Tx ScheduledRunReconcileOutcome :=
  try! map_err invalid_value (validate_text "scheduled run reconciliation id" id) in
  try! map_err invalid_value (validate_text "scheduled run reconciliation owner" expected_owner) in
  if negb (is_live expected_state) || (expected_attempt <=? 0) || (expected_fence <=? 0)
     || (expected_expires_at <? 0) || (now <? 0)
  then fail (invalid_state "invalid exact scheduled run reconciliation authority")
  else
    do! outcome := transaction (
      do! row := query (fun d => match runs d !! id with
        | Some r => Some (r, current_attempt d id r)
        | None => None
        end) in
      match row with
      | None => stale_plan
      | Some (r, a) =>
          if negb (lease_as_observed expected_state expected_attempt expected_fence
                     expected_owner expected_expires_at r)
          then stale_plan
          else if (expected_expires_at >? now) || (r_updated_at r >? now)
          then ret (Commit (Ok NotEligible))
          else
            let b := mkLeaseBinding id (s_job_id (r_snapshot r)) (r_attempt r) (r_fence r)
              expected_owner in
            do! safe := lift (allows_recovery b r a) in
            do! policy := lift (scheduler_policy_from_snapshot
              (s_scheduler_policy_version (r_snapshot r))
              (s_scheduler_policy_json (r_snapshot r))) in
            let next_attempt_at := Policy.run_retry_at policy id (r_attempt r)
              (s_scheduled_for (r_snapshot r)) now in
            if negb (bool_decide (next_attempt_at = expected_next_attempt_at))
            then stale_plan
            else reconcile_apply b r expected_expires_at now policy next_attempt_at safe
      end) in
    lift outcome.

(** ** Cancelling what has not started *)

Definition cancel_run (now : Z) (r : Run) : Run := {|
  r_snapshot := r_snapshot r;
  r_state := Cancelled;
  r_attempt := r_attempt r;
  r_fence := r_fence r;
  r_next_attempt_at := r_next_attempt_at r;
  r_lease_owner := None;
  r_lease_expires_at := None;
  r_overlap_slot := None;
  r_result := r_result r;
  r_error_kind := r_error_kind r;
  r_error_message := r_error_message r;
  r_updated_at := now;
  r_counter_limit_recorded := r_counter_limit_recorded r
|}.

Definition cancel_attempt (now : Z) (a : Attempt) : Attempt := {|
  a_job_id := a_job_id a;
  a_fence := a_fence a;
  a_lease_owner := a_lease_owner a;
  a_state := ACancelled;
  a_claimed_at := a_claimed_at a;
  a_lease_expires_at := a_lease_expires_at a;
  a_preflight_completed_at := a_preflight_completed_at a;
  a_executing_at := a_executing_at a;
  a_completed_at := Some now;
  a_attested_profile := a_attested_profile a;
  a_error_kind := a_error_kind a;
  a_error_message := a_error_message a
|}.

Definition of_generation (job_id : string) (generation : Z) (r : Run) : bool :=
  String.eqb (s_job_id (r_snapshot r)) job_id && (s_job_generation (r_snapshot r) =? generation).

Definition leased_of (job_id : string) (generation : Z) (_ : string) (r : Run) : bool :=
  of_generation job_id generation r && bool_decide (r_state r = Leased).

(** The correlated subquery of the attempt update: the current attempt of a
    leased run of the generation. *)
Definition attempt_of_leased (job_id : string) (generation : Z) (d : Db) (key : string * Z)
    (a : Attempt) : bool :=
  bool_decide (a_state a = ALeased)
  && match runs d !! key.1 with
     | Some r =>
         String.eqb (s_job_id (r_snapshot r)) (a_job_id a) && (r_attempt r =? key.2)
         && (r_fence r =? a_fence a) && is_value (r_lease_owner r) (a_lease_owner a)
         && leased_of job_id generation key.1 r
     | None => false
     end.

Definition cancel_pre_execution_runs (job_id : string) (generation now : Z) : Tx unit :=
  do! leased_runs := query (fun d =>
    Z.of_nat (length (matching (leased_of job_id generation) (runs d)))) in
  do! cancelled_attempts := sql (fun d =>
    attempts_updated (attempt_of_leased job_id generation d) (cancel_attempt now) d) in
  if negb (cancelled_attempts =? leased_runs)
  then fail (invalid_state "leased scheduled run is missing its current attempt authority")
  else
    do! _ := update_runs
      (fun _ r => of_generation job_id generation r
                  && match r_state r with Pending | Leased => true | _ => false end)
      (cancel_run now) in
    ret tt.

End Store.

End Runs.
