(* ===== verification/Completion.v ===== *)
(** * Accepting an execution's result (crates/state/src/scheduler/store.rs)

    [complete_scheduled_run_success]: under a live lease the store writes the
    result artifact, advances the job's execution baseline by compare-and-swap,
    creates one delivery intent per target, and closes the attempt and the run,
    in one transaction; a stale completion can only leave bounded evidence. *)

From stdpp Require Import base tactics list strings numbers pretty gmap.
From Stdlib Require Import ZArith Lia Ascii.
From S2P Require Import Prelude.
From S2P Require Import Policy.
From S2P Require Import Schedule.
From S2P Require Import Json.
From S2P Require Import Digest.
From S2P Require Import Capability.
From S2P Require Import Authority.
From S2P Require Import Tables.
From S2P Require Import Runs.
Import Digest.

Module Completion.
Import Schedule Snapshot Authority Tables Runs.

Definition DELIVERY_POLICY_VERSION_V1 : Z := 1.
Definition MAX_DELIVERY_TARGETS : Z := 32.
Definition MAX_DELIVERY_INTENT_RUN_ID_BYTES : Z := 1050.

Record ScheduledRunResult := mkRunResult {
  summary : string;
  previous_success_context : string
}.

Inductive ScheduledRunSuccessOutcome :=
| Committed
| SuccessLateEvidence (evidence : LateEvidenceAppendOutcome).

Record DeliveryIntentTarget := mkTarget {
  identity_digest : string;
  target_canonical_json : string;
  snapshot_digest : string
}.

Section Completion.
Context `{Serde} `{Sha2} `{Sqlite}.

(** ** Snapshots the completion reads *)

Definition target_text_fields : list string :=
  ["provider"; "connector"; "tenant"; "kind"; "resolver_digest"; "identity_digest"].

Definition target_field (object : list (string * Value)) (field : string) :
    result StateError string :=
  let? value := ok_or (map_get field object ≫= as_str)
    (invalid_state ("materialized delivery target has no " +:+ field)) in
  check? map_err invalid_value (validate_text "materialized delivery target field" value) in
  Ok value.

Fixpoint target_fields (object : list (string * Value)) (fields : list string) :
    result StateError unit :=
  match fields with
  | [] => Ok tt
  | field :: rest =>
      check? target_field object field in
      target_fields object rest
  end.

Definition delivery_intent_target (identities : list string) (target : Value) :
    result StateError DeliveryIntentTarget :=
  let? object := ok_or (as_object target)
    (invalid_state "materialized delivery target must be an object") in
  check? target_fields object target_text_fields in
  bail? match map_get "resolver_version" object ≫= as_u64 with
        | Some version => (version =? 0) || (version >? u32_max)
        | None => true
        end || negb (contains_key "address" object)
    with invalid_state "materialized delivery target has an invalid resolver snapshot" in
  let? identity_digest := target_field object "identity_digest" in
  bail? bool_decide (identity_digest ∈ identities)
    with invalid_state "materialized delivery target identities must be unique" in
  let? json := ok_or (to_vec target) (InvalidSchedulerState OfJson) in
  Ok (mkTarget identity_digest json (sha256_hex json)).

Fixpoint prepare_targets (identities : list string) (targets : list Value) :
    result StateError (list DeliveryIntentTarget) :=
  match targets with
  | [] => Ok []
  | target :: rest =>
      let? prepared := delivery_intent_target identities target in
      let? others := prepare_targets (identity_digest prepared :: identities) rest in
      Ok (prepared :: others)
  end.

Definition delivery_intent_targets (targets_json : string) :
    result StateError (list DeliveryIntentTarget) :=
  let? targets := ok_or (from_slice targets_json ≫= as_array) (InvalidSchedulerState OfJson) in
  bail? Nat.eqb (length targets) 0 || (Z.of_nat (length targets) >? MAX_DELIVERY_TARGETS)
    with invalid_state "materialized delivery targets must contain 1..=32 entries" in
  let? printed := ok_or (to_vec (Arr targets)) (InvalidSchedulerState OfJson) in
  bail? negb (String.eqb printed targets_json)
    with invalid_state "materialized delivery targets must use canonical JSON encoding" in
  prepare_targets [] targets.

Definition execution_baseline_version (snapshot_json : string) : result StateError Z :=
  let? snapshot := ok_or (from_slice snapshot_json) (InvalidSchedulerState OfJson) in
  let? printed := ok_or (to_vec snapshot) (InvalidSchedulerState OfJson) in
  bail? negb (String.eqb printed snapshot_json)
    with invalid_state "materialized execution baseline must use canonical JSON encoding" in
  ok_or (version ← get "baseline_version" snapshot ≫= as_u64;
         if version <=? i64_max then Some version else None)
    (invalid_state "materialized execution baseline has no valid version").

Definition validate_delivery_intent_target_snapshot
    (target_json target_identity_digest digest_algorithm snapshot_digest : string) :
    result StateError unit :=
  bail? negb (String.eqb digest_algorithm "sha256-v1")
    with invalid_state
      "scheduled delivery intent has an unsupported target snapshot digest algorithm" in
  let? target := ok_or (from_slice target_json) (InvalidSchedulerState OfJson) in
  let? printed := ok_or (to_vec target) (InvalidSchedulerState OfJson) in
  bail? negb (String.eqb printed target_json)
        || negb (bool_decide (((as_object target ≫= map_get "identity_digest") ≫= as_str)
                              = Some target_identity_digest))
    with invalid_state "scheduled delivery intent target snapshot identity is invalid" in
  bail? negb (String.eqb (sha256_hex target_json) snapshot_digest)
    with invalid_state "scheduled delivery intent target snapshot digest mismatch" in
  Ok tt.

(** [{byte:02x}] of every byte is [encode_sha256]. *)
Definition delivery_intent_key (id target_identity_digest : string) : result StateError string :=
  bail? is_empty id || (len id >? MAX_DELIVERY_INTENT_RUN_ID_BYTES)
    with invalid_state "scheduled delivery intent run id exceeds its dedicated bound" in
  bail? negb (len target_identity_digest =? 64) || negb (bytes_all is_hex_byte target_identity_digest)
    with invalid_state "scheduled delivery intent target identity must be lowercase sha256" in
  Ok ("v1:" +:+ encode_sha256 id +:+ ":" +:+ target_identity_digest +:+ ":1").

Definition digest_identity (parts : list string) : string :=
  encode_sha256 (sha256_digest (framed_input parts)).

(** ** Statements of the completion *)

(** Is the artifact's run executing under the accepted attempt and fence? *)
Definition artifact_acceptable (d : Db) (f : Artifact) : bool :=
  String.eqb (f_provenance f) "native" && (f_provenance_version f =? 1)
  && (f_schema_version f =? 1)
  && match runs d !! f_run_id f, attempts d !! (f_run_id f, f_accepted_attempt f) with
     | Some r, Some a =>
         String.eqb (s_job_id (r_snapshot r)) (f_job_id f)
         && (r_attempt r =? f_accepted_attempt f) && (r_fence r =? f_accepted_fence f)
         && (a_fence a =? f_accepted_fence f)
         && bool_decide (r_state r = Executing) && bool_decide (a_state a = AExecuting)
     | _, _ => false
     end.

(** INSERT with the acceptance and insert-once triggers, the unique [run_id]
    and the CHECK constraints. *)
Definition insert_artifact (artifact_id : string) (f : Artifact) : Tx unit :=
  sql (fun d =>
    if artifact_acceptable d f
       && negb (is_some (artifacts d !! artifact_id))
       && forallb (fun '(_, g) => negb (String.eqb (f_run_id g) (f_run_id f)))
            (map_to_list (artifacts d))
       && negb (is_empty artifact_id)
       && (0 <? f_accepted_attempt f) && (0 <? f_accepted_fence f)
       && json_valid (f_result_json f) && negb (is_empty (f_hash_algorithm f))
       && negb (is_empty (f_result_hash f))
    then Ok (tt, with_artifacts d (<[artifact_id := f]> (artifacts d)))
    else Err Constraint).

Record UpdateExecutionBaseline := mkUpdateBaseline {
  u_job_id : string;
  u_expected_version : Z;
  u_result : BaselineResult
}.

(** The UPDATE with its version test, its foreign key and the trigger that
    counts an advance by one. *)
Definition compare_and_swap_execution_baseline_in_transaction (u : UpdateExecutionBaseline) :
    Tx bool :=
  let new := u_result u in
  try! map_err invalid_value (validate_text "execution hash algorithm" (b_hash_algorithm new)) in
  try! map_err invalid_value (validate_text "execution result hash" (b_result_hash new)) in
  try! map_err invalid_value (validate_text "source run id" (b_source_run_id new)) in
  if (len (b_previous_success_context new) >? MAX_CONTEXT_BYTES) || (u_expected_version u <? 0)
  then fail (invalid_state "invalid execution baseline CAS")
  else sql (fun d =>
    match baselines d !! u_job_id u with
    | Some b =>
        if (baseline_version b =? u_expected_version u) && (baseline_version b <? i64_max)
        then
          if match runs d !! b_source_run_id new with
             | Some r => String.eqb (s_job_id (r_snapshot r)) (u_job_id u)
             | None => false
             end
          then Ok (true, with_totals
                 (with_baselines d
                   (<[u_job_id u := mkBaseline (baseline_version b + 1) (Some new)]> (baselines d)))
                 (bump "execution_baseline_advanced" 1 (totals d)))
          else Err Constraint
        else Ok (false, d)
    | None => Ok (false, d)
    end).

(** [trg_scheduled_delivery_intent_acceptance]: the intent's artifact was
    accepted for its run, and the target is one the run froze. *)
Definition intent_accepted (d : Db) (i : DeliveryIntent) : bool :=
  match artifacts d !! d_result_artifact_id i, runs d !! d_run_id i with
  | Some f, Some r =>
      String.eqb (f_run_id f) (d_run_id i) && String.eqb (f_job_id f) (d_job_id i)
      && String.eqb (s_job_id (r_snapshot r)) (d_job_id i)
      && (f_accepted_attempt f =? d_result_attempt i) && (f_accepted_fence f =? d_result_fence i)
      && (f_schema_version f =? 1) && String.eqb (f_provenance f) "native"
      && (f_provenance_version f =? 1)
      && bool_decide (json_minify (d_target_json i) = Some (d_target_json i))
      && bool_decide (json_extract_text (d_target_json i) "identity_digest"
                      = Some (d_target_identity_digest i))
      && existsb (String.eqb (d_target_json i)) (json_elements (s_targets_json (r_snapshot r)))
  | _, _ => false
  end.

(** [trg_scheduled_delivery_intent_insert_collision] and the unique indexes. *)
Definition intent_collides (delivery_id : string) (i : DeliveryIntent)
    (existing : string * Delivery) : bool :=
  let x := d_intent existing.2 in
  String.eqb existing.1 delivery_id || String.eqb (d_intent_key x) (d_intent_key i)
  || (String.eqb (d_run_id x) (d_run_id i)
      && String.eqb (d_target_identity_digest x) (d_target_identity_digest i)
      && (d_delivery_policy_version x =? d_delivery_policy_version i)).

(** The CHECK constraints of an [intent_v1] row that is pending and unrendered;
    [json_type(target_json) = 'object'] follows from the [identity_digest] that
    the acceptance trigger extracts. *)
Definition intent_checks (delivery_id : string) (i : DeliveryIntent) : bool :=
  json_valid (d_target_json i)
  && negb (is_empty (d_result_artifact_id i)) && (0 <? d_result_attempt i)
  && (0 <? d_result_fence i) && (d_delivery_policy_version i =? 1)
  && String.eqb (d_target_snapshot_digest_algorithm i) "sha256-v1"
  && (len (d_target_snapshot_digest i) =? 64) && bytes_all is_hex_byte (d_target_snapshot_digest i)
  && (len (d_target_identity_digest i) =? 64) && bytes_all is_hex_byte (d_target_identity_digest i)
  && (72 <=? len (d_intent_key i)) && (len (d_intent_key i) <=? 2170)
  && String.eqb (d_intent_key i)
       ("v1:" +:+ encode_sha256 (d_run_id i) +:+ ":" +:+ d_target_identity_digest i +:+ ":1")
  && String.eqb delivery_id ("intent:" +:+ d_intent_key i)
  && (d_scheduler_policy_version i =? 1) && json_valid (d_scheduler_policy_json i).

(** The row as inserted: pending, never attempted and not rendered. *)
Definition fresh_delivery (i : DeliveryIntent) : Delivery := {|
  d_intent := i;
  d_state := DPending;
  d_attempt := 0;
  d_fence := 0;
  d_next_attempt_at := None;
  d_lease_owner := None;
  d_lease_expires_at := None;
  d_idempotency_key := None;
  d_provider_receipt := None;
  d_provider_outcome := None;
  d_error_kind := None;
  d_error_message := None;
  d_payload := None;
  d_claimed_baseline_version := None;
  d_updated_at := d_created_at i;
  d_counter_limit_recorded := false
|}.

Definition insert_intent (delivery_id : string) (i : DeliveryIntent) : Tx DeliveryIntent :=
  sql (fun d =>
    if intent_accepted d i && intent_checks delivery_id i
       && negb (existsb (intent_collides delivery_id i) (map_to_list (deliveries d)))
    then Ok (i, with_deliveries d (<[delivery_id := fresh_delivery i]> (deliveries d)))
    else Err Constraint).

(** [completion_storage_error]: every constraint code is a conflict, which
    [None] stands for; other failures stay errors. *)
Definition or_conflict {A} (m : Tx A) : Tx (option A) :=
  fun w => match m w with
           | (Ok a, w') => (Ok (Some a), w')
           | (Err (Scheduler Constraint), w') => (Ok None, w')
           | (Err e, w') => (Err e, w')
           end.

(** ** The transaction *)

Definition succeed_attempt (now : Z) (a : Attempt) : Attempt := {|
  a_job_id := a_job_id a;
  a_fence := a_fence a;
  a_lease_owner := a_lease_owner a;
  a_state := ASucceeded;
  a_claimed_at := a_claimed_at a;
  a_lease_expires_at := a_lease_expires_at a;
  a_preflight_completed_at := a_preflight_completed_at a;
  a_executing_at := a_executing_at a;
  a_completed_at := Some now;
  a_attested_profile := a_attested_profile a;
  a_error_kind := a_error_kind a;
  a_error_message := a_error_message a
|}.

Definition succeed_run (accepted : AcceptedResult) (now : Z) (r : Run) : Run := {|
  r_snapshot := r_snapshot r;
  r_state := Succeeded;
  r_attempt := r_attempt r;
  r_fence := r_fence r;
  r_next_attempt_at := r_next_attempt_at r;
  r_lease_owner := None;
  r_lease_expires_at := None;
  r_overlap_slot := None;
  r_result := Some accepted;
  r_error_kind := r_error_kind r;
  r_error_message := r_error_message r;
  r_updated_at := now;
  r_counter_limit_recorded := r_counter_limit_recorded r
|}.

Definition result_value (result : ScheduledRunResult) : Value :=
  json_object [("schema_version", json_u64 1); ("summary", Str (summary result))].

Definition result_artifact (b : RunLeaseBinding) (result : ScheduledRunResult)
    (completed_at : Z) : Artifact :=
  let result_json := display (result_value result) in
  mkArtifact (run_id b) (job_id b) (attempt b) (fence b) 1 result_json "sha256-v1"
    (sha256_hex result_json) (previous_success_context result) completed_at "native" 1.

Definition artifact_id_of (b : RunLeaseBinding) : string :=
  "result:" +:+ digest_identity ["scheduled-result-artifact-v1"; run_id b;
    pretty (attempt b); pretty (fence b)].

(** The checks between the row and the first write: sizes, clocks, and the
    snapshots the writes are derived from. *)
Definition completion_inputs (result : ScheduledRunResult) (result_json : string)
    (completed_at : Z) (r : Run) (a : Attempt) :
    Prelude.result StateError (list DeliveryIntentTarget * Z) :=
  let s := r_snapshot r in
  let? policy := scheduler_policy_from_snapshot (s_scheduler_policy_version s)
    (s_scheduler_policy_json s) in
  bail? len (summary result) >? Policy.max_summary_bytes policy
    with invalid_state "scheduled result summary exceeds max_summary_bytes" in
  bail? len result_json >? Policy.max_result_bytes policy
    with invalid_state "scheduled result exceeds max_result_bytes" in
  let? executing_at := ok_or (a_executing_at a)
    (invalid_state "executing scheduled attempt has no execution timestamp") in
  bail? (completed_at <? a_claimed_at a) || (completed_at <? executing_at)
    with invalid_state "scheduled completion precedes its accepted execution" in
  let? targets := delivery_intent_targets (s_targets_json s) in
  let? baseline_json := ok_or (s_execution_baseline_json s)
    (invalid_state "materialized run has no execution baseline snapshot") in
  let? expected_version := execution_baseline_version baseline_json in
  Ok (targets, expected_version).

Definition intent_of (b : RunLeaseBinding) (s : RunSnapshot) (completed_at : Z) (key : string)
    (target : DeliveryIntentTarget) : DeliveryIntent :=
  mkIntent (run_id b) (job_id b) (identity_digest target) (target_canonical_json target)
    DELIVERY_POLICY_VERSION_V1 (artifact_id_of b) (attempt b) (fence b) "sha256-v1"
    (snapshot_digest target) key (s_scheduler_policy_version s) (s_scheduler_policy_json s)
    completed_at.

(** One intent per target; [false] is a conflict. *)
Fixpoint insert_intents (b : RunLeaseBinding) (s : RunSnapshot) (completed_at : Z)
    (targets : list DeliveryIntentTarget) : Tx bool :=
  match targets with
  | [] => ret true
  | target :: rest =>
      do! key := lift (delivery_intent_key (run_id b) (identity_digest target)) in
      do! inserted := or_conflict (insert_intent ("intent:" +:+ key)
        (intent_of b s completed_at key target)) in
      match inserted with
      | None => ret false
      | Some i =>
          try! validate_delivery_intent_target_snapshot (d_target_json i)
                 (d_target_identity_digest i) (d_target_snapshot_digest_algorithm i)
                 (d_target_snapshot_digest i) in
          insert_intents b s completed_at rest
      end
  end.

(** The writes of an accepted result, in order.  [Rollback None] is a conflict. *)
Definition accept_result (b : RunLeaseBinding) (result : ScheduledRunResult) (completed_at : Z)
    (s : RunSnapshot) (targets : list DeliveryIntentTarget) (expected_version : Z) :
    Tx (Ending (option ScheduledRunSuccessOutcome)) :=
  let f := result_artifact b result completed_at in
  do! artifact := or_conflict (insert_artifact (artifact_id_of b) f) in
  if negb (is_some artifact) then ret (Rollback None)
  else
    do! advanced := compare_and_swap_execution_baseline_in_transaction
      (mkUpdateBaseline (job_id b) expected_version
        (mkBaselineResult "sha256-v1" (f_result_hash f) (previous_success_context result)
          (run_id b) completed_at)) in
    if negb advanced then ret (Rollback None)
    else
      do! delivered := insert_intents b s completed_at targets in
      if negb delivered then ret (Rollback None)
      else
        do! attempt := update_attempts (holds_attempt b AExecuting completed_at)
          (succeed_attempt completed_at) in
        if negb (attempt =? 1) then ret (Rollback None)
        else
          do! run := or_conflict (update_runs (holds_run b Executing completed_at)
            (succeed_run (mkAccepted (artifact_id_of b) (previous_success_context result)
              "sha256-v1" (f_result_hash f)) completed_at)) in
          match run with
          | None => ret (Rollback None)
          | Some n => if negb (n =? 1) then ret (Rollback None) else ret (Commit (Some Committed))
          end.

(** After the rollback: either the binding still stands, and the conflict is
    reported, or the completion was late. *)
Definition resolve_scheduled_run_completion_conflict (b : RunLeaseBinding) (evidence : string)
    (observed_at : Z) (random : string) : Tx ScheduledRunSuccessOutcome :=
  do! outcome := transaction (
    do! remains_current := query (fun d => is_some (select_executing b observed_at d)) in
    if remains_current then ret (Commit (Err ScheduledRunCompletionConflict))
    else
      do! outcome := late_completion b evidence observed_at random in
      ret (Commit (Ok (SuccessLateEvidence outcome)))) in
  lift outcome.

Definition complete_scheduled_run_success (b : RunLeaseBinding) (result : ScheduledRunResult)
    (completed_at : Z) (random : string) : Tx ScheduledRunSuccessOutcome :=
  try! validate_lease_binding b in
  if completed_at <? 0
  then fail (invalid_state "scheduled completion timestamp must be nonnegative")
  else
    try! map_err invalid_value (validate_text "scheduled result summary" (summary result)) in
    if len (previous_success_context result) >? MAX_CONTEXT_BYTES
    then fail (invalid_state
           "scheduled result previous success context exceeds its storage bound")
    else
      let f := result_artifact b result completed_at in
      do! outcome := transaction (
        do! row := query (select_executing b completed_at) in
        match row with
        | None =>
            do! evidence := late_completion b (f_result_hash f) completed_at random in
            ret (Commit (Some (SuccessLateEvidence evidence)))
        | Some (r, a) =>
            do! (targets, expected_version) :=
              lift (completion_inputs result (f_result_json f) completed_at r a) in
            accept_result b result completed_at (r_snapshot r) targets expected_version
        end) in
      match outcome with
      | Some outcome => ret outcome
      | None => resolve_scheduled_run_completion_conflict b (f_result_hash f) completed_at random
      end.

End Completion.

End Completion.
