(* ===== verification/Lifecycle.v ===== *)
(** * What the run store guarantees (crates/state/src/scheduler/store.rs)

    The transactions of the run store refine one abstract machine per run: a run
    waits, is claimed under a new fence, is reported on by the holder of that
    fence, and stops.  Everything the scheduler relies on is read off that
    machine: the invariant that ties a run to its current attempt, fencing,
    terminal states that stay, and what may be executed again. *)

From stdpp Require Import base tactics list strings numbers pretty gmap relations.
From Stdlib Require Import ZArith Lia Ascii.
From S2P Require Import Prelude.
From S2P Require Import Policy.
From S2P Require Import Schedule.
From S2P Require Import Json.
From S2P Require Import Digest.
From S2P Require Import Capability.
From S2P Require Import Authority.
From S2P Require Import Tables.
From S2P Require Import Runs.
From S2P Require Import Completion.
Import Digest.

Module Lifecycle.
Import Schedule Snapshot Authority Tables Runs Completion.

(** ** The abstract machine of one run *)

(** What a holder's report keeps of the run and of its attempt. *)
Record reports (r r' : Run) (a a' : Attempt) : Prop := {
  rep_snapshot : r_snapshot r' = r_snapshot r;
  rep_attempt : r_attempt r' = r_attempt r;
  rep_fence : r_fence r' = r_fence r;
  rep_job : a_job_id a' = a_job_id a;
  rep_attempt_fence : a_fence a' = a_fence a;
  rep_owner : a_lease_owner a' = a_lease_owner a;
  rep_profile : r_state r = Executing -> a_attested_profile a' = a_attested_profile a
}.

(** The lease goes on: extended, or with the execution started. *)
Inductive keeps_lease (r r' : Run) (a a' : Attempt) : Prop :=
| extends t
    (Hstate : r_state r' = r_state r) (Hattempt_state : a_state a' = a_state a)
    (Hlease : r_lease_expires_at r' = Some t) (Hattempt_lease : a_lease_expires_at a' = t)
    (Hlater : forall t0, r_lease_expires_at r = Some t0 -> t0 < t)
| starts
    (Hstate : r_state r = Leased) (Hstate' : r_state r' = Executing)
    (Hattempt_state : a_state a' = AExecuting)
    (Hlease : r_lease_expires_at r' = r_lease_expires_at r)
    (Hattempt_lease : a_lease_expires_at a' = a_lease_expires_at a).

(** The lease is given up: for a retry, or for good. *)
Definition gives_up (r' : Run) (a' : Attempt) : Prop :=
  is_live (r_state r') = false /\ attempt_is_live (a_state a') = false.

(** The attempt that is current for a run. *)
Definition is_current (r : Run) (a : Attempt) : Prop :=
  a_job_id a = s_job_id (r_snapshot r) /\ a_fence a = r_fence r
  /\ r_lease_owner r = Some (a_lease_owner a).

(** A claim: a new attempt, under a new fence, with a lease that both rows
    carry. *)
Record claims (r r' : Run) (a' : Attempt) : Prop := {
  claim_snapshot : r_snapshot r' = r_snapshot r;
  claim_state : r_state r' = Leased;
  claim_attempt : r_attempt r' = r_attempt r + 1;
  claim_fence : r_fence r' = r_fence r + 1;
  claim_current : is_current r' a';
  claim_attempt_state : a_state a' = ALeased;
  claim_expires : r_lease_expires_at r' = Some (a_lease_expires_at a')
}.

Definition same_attempts (id : string) (d d' : Db) : Prop :=
  forall n, attempts d' !! (id, n) = attempts d !! (id, n).

Definition same_attempts_but (id : string) (n : Z) (d d' : Db) : Prop :=
  forall m, m <> n -> attempts d' !! (id, m) = attempts d !! (id, m).

(** ** The statements, as steps *)

Section Steps.
Context `{Serde} `{Sha2} `{Sqlite}.

(** The profile persisted with an attempt attests that executing it again is
    safe: no side effects, or a recoverable execution. *)
Definition attested (id : string) (r : Run) (a : Attempt) : Prop :=
  let b := mkLeaseBinding id (s_job_id (r_snapshot r)) (r_attempt r) (r_fence r)
    (a_lease_owner a) in
  persisted_profile_allows_retry b (r_snapshot r) (a_attested_profile a) = Ok true
  \/ persisted_profile_allows_recovery b (r_snapshot r) (a_attested_profile a) = Ok true.

(** The occurrence of its job that a run is for. *)
Definition occurrence (r : Run) : string * Z :=
  (s_job_id (r_snapshot r), s_scheduled_for (r_snapshot r)).

(** An operator's retry of an attempt of a run is on record, with its reason, and
    used up. *)
Definition retry_on_record (d : Db) (id : string) (n fence : Z) : Prop :=
  exists action_id o c, operator_actions d !! action_id = Some o
    /\ operator_consumptions d !! action_id = Some c
    /\ o_action o = "retry_run" /\ o_target_kind o = "run" /\ o_target_id o = id
    /\ o_expected_attempt o = n /\ o_expected_fence o = fence
    /\ is_some (o_reason_json o) = true /\ is_some (o_reason_digest o) = true.

Lemma retry_stays_on_record d d' id n fence :
  log_grows d d' -> retry_on_record d id n fence -> retry_on_record d' id n fence.
Proof.
  intros [Ha Hc] (action_id & o & c & Ho & Hu & Hrest). exists action_id, o, c.
  split; [by eapply lookup_weaken|]. split; [by eapply lookup_weaken|done].
Qed.

Definition revivable (s : ScheduledRunState) : Prop := s = Failed \/ s = TimedOut \/ s = Cancelled.

(** One step of the run [id] between two databases. *)
Inductive moves (id : string) (d d' : Db) : Prop :=
| stays
    (Hrun : runs d' !! id = runs d !! id)
    (Hattempts : same_attempts id d d')
| appears r'
    (Hrun : runs d !! id = None) (Hruns' : runs d' = <[id := r']> (runs d))
    (Hstate' : r_state r' = Pending) (Hattempt' : r_attempt r' = 0) (Hfence' : r_fence r' = 0)
    (Hnew : forall id' r, runs d !! id' = Some r -> occurrence r <> occurrence r')
    (Hattempts : same_attempts id d d')
| is_noted r
    (Hrun : runs d !! id = Some r) (Hrun' : runs d' !! id = Some (note_counter_limit r))
    (Hstate : r_state r = Pending)
    (Hattempts : same_attempts id d d')
| stops_waiting r r'
    (Hrun : runs d !! id = Some r) (Hrun' : runs d' !! id = Some r')
    (Hstate : r_state r = Pending) (Hstate' : r_state r' = Failed \/ r_state r' = Cancelled)
    (Hkept : r_snapshot r' = r_snapshot r /\ r_attempt r' = r_attempt r /\ r_fence r' = r_fence r)
    (Hattempts : same_attempts id d d')
| is_revived r r'
    (Hrun : runs d !! id = Some r) (Hrun' : runs d' !! id = Some r')
    (Hstate : revivable (r_state r)) (Hstate' : r_state r' = Pending)
    (Hkept : r_snapshot r' = r_snapshot r /\ r_attempt r' = r_attempt r /\ r_fence r' = r_fence r)
    (Hrecord : retry_on_record d' id (r_attempt r) (r_fence r))
    (Hattempts : same_attempts id d d')
| is_claimed r r' a'
    (Hrun : runs d !! id = Some r) (Hrun' : runs d' !! id = Some r')
    (Hstate : r_state r = Pending) (Hclaim : claims r r' a')
    (Hnew : attempts d !! (id, r_attempt r') = None)
    (Hattempt : attempts d' !! (id, r_attempt r') = Some a')
    (Hattempts : same_attempts_but id (r_attempt r') d d')
| is_reported r r' a a'
    (Hrun : runs d !! id = Some r) (Hrun' : runs d' !! id = Some r')
    (Hlive : is_live (r_state r) = true) (Hcurrent : is_current r a)
    (Hattempt : attempts d !! (id, r_attempt r) = Some a)
    (Hattempt' : attempts d' !! (id, r_attempt r) = Some a')
    (Hreports : reports r r' a a')
    (Hlease : (keeps_lease r r' a a' /\ r_lease_owner r' = r_lease_owner r) \/ gives_up r' a')
    (Hsafe : r_state r = Executing -> r_state r' = Pending -> attested id r a)
    (Hattempts : same_attempts_but id (r_attempt r) d d').

(** The constraints the database checks by itself. *)
Definition rows_ok (d : Db) : Prop :=
  (forall id r, runs d !! id = Some r -> run_checks r = true)
  /\ overlap_unique (runs d) = true.

Definition step (d d' : Db) : Prop :=
  (forall id, moves id d d') /\ (rows_ok d -> rows_ok d') /\ log_grows d d'.

Lemma bound_run_facts b id r :
  bound_run b id r = true ->
  id = run_id b /\ s_job_id (r_snapshot r) = job_id b /\ r_attempt r = attempt b
  /\ r_fence r = fence b /\ r_lease_owner r = Some (lease_owner b).
Proof.
  unfold bound_run. intros Hb. where_facts. done.
Qed.

Lemma bound_attempt_facts b key a :
  bound_attempt b key a = true ->
  key = (run_id b, attempt b) /\ a_job_id a = job_id b /\ a_fence a = fence b
  /\ a_lease_owner a = lease_owner b.
Proof.
  unfold bound_attempt. intros Hb. where_facts.
  destruct key; cbn in *; subst. done.
Qed.

(** Nothing but counters and late evidence differs. *)
Definition keeps (d d' : Db) : Prop :=
  runs d' = runs d /\ attempts d' = attempts d /\ same_others d d'.

Lemma same_others_trans d d1 d2 : same_others d d1 -> same_others d1 d2 -> same_others d d2.
Proof. intros [] []. split; congruence. Qed.

#[export] Instance same_others_preorder : PreOrder same_others.
Proof. split; [by split|intros d d1 d2; apply same_others_trans]. Qed.

Lemma keeps_trans d d1 d2 : keeps d d1 -> keeps d1 d2 -> keeps d d2.
Proof.
  intros (? & ? & ?) (? & ? & ?). split_and!; [congruence..|eauto using same_others_trans].
Qed.

#[export] Instance keeps_preorder : PreOrder keeps.
Proof. split; [done|intros d d1 d2; apply keeps_trans]. Qed.

(** Computations that keep the tables, whatever they return. *)
Abbreviation quiet := (respects keeps).

Definition quiet_ret {A} := respects_ret keeps (A := A).
Definition quiet_fail {A} := respects_fail keeps (A := A).
Definition quiet_lift {A} := respects_lift keeps (A := A).
Definition quiet_sql {A} := respects_sql keeps (A := A).
Definition quiet_query {A} := respects_query keeps (A := A).
Definition quiet_bind {A B} := respects_bind keeps (A := A) (B := B).
Definition quiet_map_err {A} := respects_map_err keeps (A := A).

Lemma quiet_increment kind amount : quiet (increment_scheduler_transition_total kind amount).
Proof.
  apply quiet_bind; [apply quiet_sql; intros d a d' [= _ <-]; done|].
  intros []; [apply quiet_ret|apply quiet_fail].
Qed.

Lemma quiet_count_reclaim {A} executing safe (a : A) : quiet (count_reclaim executing safe a).
Proof.
  apply quiet_bind; [apply quiet_increment|intros _].
  destruct (_ && _); [|apply quiet_ret]. apply quiet_bind; [apply quiet_increment|intros _].
  apply quiet_ret.
Qed.

Lemma quiet_late_completion b evidence observed_at random :
  quiet (late_completion b evidence observed_at random).
Proof.
  unfold late_completion, append_late_evidence_in_transaction.
  repeat first [apply quiet_query | apply quiet_ret | apply quiet_increment
    | apply quiet_bind; [|intros ?] | split_match].
  apply quiet_sql. intros d0 u0 d0' Hs. destruct (evidence_accepted _ _); [|done].
  by injection Hs as _ <-.
Qed.

(** A statement with the whole binding in its WHERE clause that hit one row. *)
Lemma run_update_one b where_ set w n w' :
  (forall id r, where_ id r = true -> bound_run b id r = true) ->
  update_runs where_ set w = (Ok n, w') -> n = 1 ->
  exists r, runs (db w) !! run_id b = Some r /\ where_ (run_id b) r = true
    /\ runs (db w') = <[run_id b := set r]> (runs (db w))
    /\ attempts (db w') = attempts (db w) /\ same_others (db w) (db w')
    /\ run_checks (set r) = true /\ overlap_unique (runs (db w')) = true.
Proof.
  intros Hb (Hn & Hr & Ha & Ho & Hu & Hc)%sql_ok%runs_updated_ok ->.
  edestruct (update_rows_one where_ set (runs (db w)) (run_id b)) as (r & Er & Wr & Ur);
    [intros ? ? (? & ?)%Hb%bound_run_facts; done|done|].
  exists r. split_and!; try done; [congruence|]. by apply (Hc (run_id b)).
Qed.

Lemma attempt_update_one b where_ set w n w' :
  (forall key a, where_ key a = true -> bound_attempt b key a = true) ->
  update_attempts where_ set w = (Ok n, w') -> n = 1 ->
  exists a, attempts (db w) !! (run_id b, attempt b) = Some a
    /\ where_ (run_id b, attempt b) a = true
    /\ attempts (db w') = <[(run_id b, attempt b) := set a]> (attempts (db w))
    /\ runs (db w') = runs (db w) /\ same_others (db w) (db w').
Proof.
  intros Hb (Hn & Ha & Hr & Ho)%sql_ok%attempts_updated_ok ->.
  edestruct (update_rows_one where_ set (attempts (db w)) (run_id b, attempt b))
    as (a & Ea & Wa & Ua); [intros ? ? (? & ?)%Hb%bound_attempt_facts; done|done|].
  exists a. split_and!; try done. congruence.
Qed.

(** A fenced mutation that commits rewrote the one row its binding names in each
    of the two tables. *)
Lemma fenced_update_ok {A} b runs_where set_run attempts_where set_attempt
    (finish : Tx A) w x w' :
  (forall id r, runs_where id r = true -> bound_run b id r = true) ->
  (forall key a, attempts_where key a = true -> bound_attempt b key a = true) ->
  quiet finish ->
  fenced_update (update_runs runs_where set_run) (update_attempts attempts_where set_attempt)
    finish w = (Ok (Commit x), w') ->
  exists r a,
    runs (db w) !! run_id b = Some r /\ runs_where (run_id b) r = true
    /\ attempts (db w) !! (run_id b, attempt b) = Some a
    /\ attempts_where (run_id b, attempt b) a = true
    /\ runs (db w') = <[run_id b := set_run r]> (runs (db w))
    /\ attempts (db w') = <[(run_id b, attempt b) := set_attempt a]> (attempts (db w))
    /\ same_others (db w) (db w')
    /\ run_checks (set_run r) = true /\ overlap_unique (runs (db w')) = true.
Proof.
  intros Hrun Hatt Hq Hf. unfold fenced_update in Hf.
  apply bind_ok in Hf as (n & w1 & Hu & Hf).
  destruct (_ =? 1) eqn:E1; cbn in Hf; [|by tx_step Hf].
  apply bind_ok in Hf as (m & w2 & Hv & Hf).
  destruct (_ =? 1) eqn:E2 in Hf; cbn in Hf; [|by tx_step Hf].
  apply bind_ok in Hf as (y & w3 & Hfin & Hf). tx_step Hf. bool_facts.
  apply Hq in Hfin as (Hr3 & Ha3 & S3).
  eapply run_update_one in Hu as (r & ? & ? & Hr1 & Ha1 & S1 & ? & ?); [|done..].
  eapply attempt_update_one in Hv as (a & ? & ? & Ha2 & Hr2 & S2); [|done..].
  exists r, a. rewrite Ha1 in *.
  split_and!; eauto using same_others_trans; congruence.
Qed.

(** *** From statements to steps *)

Lemma keeps_step d d' : keeps d d' -> step d d'.
Proof.
  intros (Hr & Ha & Ho). split_and!; [| |by apply others_log].
  - intros id. apply stays; [by rewrite Hr|]. intros n. by rewrite Ha.
  - unfold rows_ok. by rewrite Hr.
Qed.

Lemma reported_step d d' b r r' a a' :
  runs d !! run_id b = Some r -> bound_run b (run_id b) r = true ->
  attempts d !! (run_id b, attempt b) = Some a ->
  bound_attempt b (run_id b, attempt b) a = true ->
  is_live (r_state r) = true ->
  runs d' = <[run_id b := r']> (runs d) ->
  attempts d' = <[(run_id b, attempt b) := a']> (attempts d) ->
  reports r r' a a' ->
  (keeps_lease r r' a a' /\ r_lease_owner r' = r_lease_owner r) \/ gives_up r' a' ->
  (r_state r = Executing -> r_state r' = Pending -> attested (run_id b) r a) ->
  run_checks r' = true -> overlap_unique (runs d') = true -> log_grows d d' ->
  step d d'.
Proof.
  intros Hr Hb Ha Hba Hlive Hr' Ha' Hrep Hl Hsafe Hc Hu Hlog.
  apply bound_run_facts in Hb as (_ & Hjob & Hatt & Hfence & Howner).
  apply bound_attempt_facts in Hba as (_ & Hajob & Hafence & Haowner).
  split_and!; [| |done].
  - intros id. destruct (decide (id = run_id b)) as [->|Hne].
    + apply is_reported with r r' a a'; try done.
      * by rewrite Hr', lookup_insert_eq.
      * split_and!; congruence.
      * by rewrite Hatt.
      * by rewrite Hatt, Ha', lookup_insert_eq.
      * intros n Hn. rewrite Ha', lookup_insert_ne; congruence.
    + apply stays; [by rewrite Hr', lookup_insert_ne|].
      intros n. rewrite Ha', lookup_insert_ne; congruence.
  - intros [Hok _]. split; [|done]. intros id x. rewrite Hr'.
    destruct (decide (id = run_id b)) as [->|Hne].
    + rewrite lookup_insert_eq. by intros [= <-].
    + rewrite lookup_insert_ne by done. apply Hok.
Qed.

(** The tables after a fenced mutation: as before, or the commit's. *)
Lemma or_lost_lease_cases {A} (body : Tx (Ending (option A))) w r w' :
  or_lost_lease (transaction body) w = (r, w') ->
  keeps (db w) (db w')
  \/ exists x w0 w1, db w0 = db w /\ body w0 = (Ok (Commit x), w1) /\ keeps (db w1) (db w').
Proof.
  assert (forall o, quiet (match o with
    | Some a => ret a
    | None => do! _ := record_stale_fence_rejection in @fail A ScheduledRunLostLease
    end)) as Hend.
  { intros [a|]; [apply quiet_ret|].
    apply quiet_bind; [apply quiet_increment|intros _; apply quiet_fail]. }
  unfold or_lost_lease. intros Ho. unfold bind at 1 in Ho.
  destruct (transaction body w) as [r1 w1] eqn:E.
  apply transaction_cases in E as [(x & w0 & w2 & -> & Hdb & Hbody & Hw1)|[Hdb _]].
  - right. exists x, w0, w2. split_and!; [done..|]. rewrite <-Hw1. by eapply (Hend x).
  - left. rewrite <-Hdb. destruct r1 as [o|e]; [by eapply (Hend o)|by injection Ho as _ <-].
Qed.

(** A computation whose every outcome is a sequence of steps. *)
Abbreviation stepping := (respects (rtc step)).

Definition stepping_fail {A} := respects_fail (rtc step) (A := A).
Definition stepping_bind {A B} := respects_bind (rtc step) (A := A) (B := B).
Definition stepping_try {A B} := respects_try (rtc step) (A := A) (B := B).
Definition stepping_transaction {A} := respects_transaction (rtc step) (A := A).

Lemma stepping_quiet {A} (m : Tx A) : quiet m -> stepping m.
Proof. intros Hm w r w' E. apply rtc_once, keeps_step. by eapply Hm. Qed.

Lemma stepping_fenced {A} (body : Tx (Ending (option A))) :
  (forall w x w', body w = (Ok (Commit x), w') -> rtc step (db w) (db w')) ->
  stepping (or_lost_lease (transaction body)).
Proof.
  intros Hbody. apply stepping_bind; [by apply stepping_transaction|].
  intros [a|]; apply stepping_quiet; [apply quiet_ret|].
  apply quiet_bind; [apply quiet_increment|intros _; apply quiet_fail].
Qed.

Lemma fenced_step {A} b runs_where set_run attempts_where set_attempt (finish : Tx A) w x w' :
  (forall id r, runs_where id r = true ->
    bound_run b id r = true /\ is_live (r_state r) = true) ->
  (forall key a, attempts_where key a = true -> bound_attempt b key a = true) ->
  quiet finish ->
  (forall r a, runs (db w) !! run_id b = Some r -> runs_where (run_id b) r = true ->
    attempts (db w) !! (run_id b, attempt b) = Some a ->
    attempts_where (run_id b, attempt b) a = true ->
    reports r (set_run r) a (set_attempt a)
    /\ ((keeps_lease r (set_run r) a (set_attempt a)
         /\ r_lease_owner (set_run r) = r_lease_owner r)
        \/ gives_up (set_run r) (set_attempt a))
    /\ (r_state r = Executing -> r_state (set_run r) = Pending -> attested (run_id b) r a)) ->
  fenced_update (update_runs runs_where set_run) (update_attempts attempts_where set_attempt)
    finish w = (Ok (Commit x), w') ->
  step (db w) (db w').
Proof.
  intros Hw Hv Hq Hset Hf.
  apply (fenced_update_ok b) in Hf as (r & a & Hr & Wr & Ha & Va & Hr' & Ha' & Ho & Hc & Hu);
    [|naive_solver..].
  destruct (Hw _ _ Wr), (Hset _ _ Hr Wr Ha Va) as (? & ? & ?).
  eapply reported_step; eauto using others_log.
Qed.

Lemma holds_run_facts b s now id r :
  holds_run b s now id r = true ->
  bound_run b id r = true /\ r_state r = s
  /\ exists t, r_lease_expires_at r = Some t /\ now < t.
Proof.
  unfold holds_run, after. intros Hh. where_facts. split_and!; [done..|].
  destruct (r_lease_expires_at r) as [t|]; [|done]. exists t. split; [done|]. lia.
Qed.

Lemma holds_attempt_facts b s now key a :
  holds_attempt b s now key a = true ->
  bound_attempt b key a = true /\ a_state a = s /\ now < a_lease_expires_at a.
Proof. unfold holds_attempt. intros Hh. where_facts. split_and!; [done..|lia]. Qed.

Lemma released s retry_at slot kind message now s' preflight kind' message' r a :
  is_live s = false -> attempt_is_live s' = false ->
  reports r (release_run s retry_at slot kind message now r) a
    (close_attempt s' preflight now kind' message' a)
  /\ gives_up (release_run s retry_at slot kind message now r)
       (close_attempt s' preflight now kind' message' a).
Proof. done. Qed.

(** A mutation under [holds_run] that ends the attempt. *)
Lemma release_step {A} b s s0 now s1 retry_at slot kind message s2 preflight kind' message'
    (finish : Tx A) w x w' :
  is_live s = true -> is_live s1 = false -> attempt_is_live s2 = false -> quiet finish ->
  (forall r a, runs (db w) !! run_id b = Some r -> r_state r = Executing -> s1 = Pending ->
    holds_run b s now (run_id b) r = true ->
    attempts (db w) !! (run_id b, attempt b) = Some a ->
    holds_attempt b s0 now (run_id b, attempt b) a = true -> attested (run_id b) r a) ->
  fenced_update
    (update_runs (holds_run b s now) (release_run s1 retry_at slot kind message now))
    (update_attempts (holds_attempt b s0 now) (close_attempt s2 preflight now kind' message'))
    finish w = (Ok (Commit x), w') ->
  step (db w) (db w').
Proof.
  intros Hs H1' H2' Hq Hsafe. apply fenced_step with b; [| |done|].
  - intros id r (? & <- & _)%holds_run_facts. done.
  - by intros key a (? & _)%holds_attempt_facts.
  - intros r a Hr Hw Ha Hv. edestruct (released s1 retry_at slot kind message now s2 preflight
      kind' message' r a); eauto 10.
Qed.

Lemma heartbeat_steps b now expires : stepping (heartbeat_scheduled_run b now expires).
Proof.
  apply stepping_try. intros _. destruct (expires <=? now); [apply stepping_fail|].
  apply stepping_fenced. intros w x w' Hf. apply rtc_once.
  revert Hf. apply (fenced_step b); [| |apply quiet_ret|].
  - intros id r ?. bool_facts. done.
  - intros key a ?. bool_facts. done.
  - intros r a _ Hr _ Ha. bool_facts. split_and!; [done| |cbn; congruence]. left. split; [|done].
    apply extends with expires; try done. intros t0 Ht0. rewrite Ht0 in *. lia.
Qed.

Lemma mark_executing_steps b profile now : stepping (mark_scheduled_run_executing b profile now).
Proof.
  apply stepping_try. intros _. apply stepping_try. intros _.
  apply stepping_fenced. intros w x w' Hf. apply rtc_once.
  revert Hf. apply (fenced_step b); [| |apply quiet_ret|].
  - intros id r (? & -> & _)%holds_run_facts. done.
  - by intros key a (? & _)%holds_attempt_facts.
  - intros r a _ (_ & Hs & _)%holds_run_facts _ _.
    split_and!; [split; try done; congruence| |congruence]. left. split; [|done]. by apply starts.
Qed.

Lemma quiet_choose b disposition retryable now :
  quiet (choose_disposition b disposition retryable now).
Proof.
  unfold choose_disposition, snapshot_disposition.
  repeat first [apply quiet_query | apply quiet_ret | apply quiet_lift
    | apply quiet_bind; [|intros ?] | split_match].
Qed.

(** A body that first reads without touching the tables. *)
Lemma committed_after {A B} (m : Tx A) (k : A -> Tx B) w x w' :
  quiet m -> (forall a w1, k a w1 = (Ok x, w') -> rtc step (db w1) (db w')) ->
  bind m k w = (Ok x, w') -> rtc step (db w) (db w').
Proof.
  intros Hm Hk (a & w1 & Ha & Hb)%bind_ok.
  etrans; [apply rtc_once, keeps_step; by eapply Hm|]. by eapply Hk.
Qed.

Lemma preflight_steps b disposition retryable kind message now :
  stepping (record_scheduled_run_preflight_failure_inner b disposition retryable kind message now).
Proof.
  apply stepping_try. intros _. apply stepping_try. intros _.
  destruct (_ >? _); [apply stepping_fail|]. apply stepping_fenced. intros w x w'.
  apply committed_after; [apply quiet_choose|]. intros [[retry_at|]|] w1 Hf; [| |by tx_step Hf].
  - destruct (_ >? _); [|by tx_step Hf].
    apply rtc_once. revert Hf. apply release_step; try done; [apply quiet_ret|].
    intros r a _ Hs _ (_ & ? & _)%holds_run_facts. congruence.
  - apply rtc_once. revert Hf. apply release_step; try done. apply quiet_ret.
Qed.

Lemma terminal_not_live terminal :
  is_live (t_run_state (terminal_transition terminal)) = false
  /\ attempt_is_live (t_attempt_state (terminal_transition terminal)) = false.
Proof. by destruct terminal. Qed.

Lemma outcome_not_live b disposition s profile now t :
  execution_outcome_transition b disposition s profile now = Ok t ->
  is_live (t_run_state t) = false /\ attempt_is_live (t_attempt_state t) = false.
Proof.
  intros Ht. destruct disposition; cbn in Ht; [|simplify_eq; apply terminal_not_live].
  peel Ht. destruct (negb _); [done|].
  destruct (_ || _); [apply terminal_not_live|done].
Qed.

Lemma binding_of_rows b id r key a :
  bound_run b id r = true -> bound_attempt b key a = true ->
  mkLeaseBinding (run_id b) (s_job_id (r_snapshot r)) (r_attempt r) (r_fence r)
    (a_lease_owner a) = b.
Proof.
  intros (_ & -> & -> & -> & _)%bound_run_facts (_ & _ & _ & ->)%bound_attempt_facts.
  by destruct b.
Qed.

(** An execution is retried only when its profile allows it. *)
Lemma outcome_retry_allowed b disposition s profile now t :
  execution_outcome_transition b disposition s profile now = Ok t -> t_run_state t = Pending ->
  persisted_profile_allows_retry b s profile = Ok true.
Proof.
  intros Ht Hp. destruct disposition as [retry_at ? ? exhausted|terminal]; cbn in Ht.
  - peel Ht. destruct (persisted_profile_allows_retry b s profile) as [[]|] eqn:E; simplify_eq;
      done.
  - simplify_eq. by destruct terminal.
Qed.

Lemma select_executing_facts b now d r a :
  select_executing b now d = Some (r, a) ->
  runs d !! run_id b = Some r /\ holds_run b Executing now (run_id b) r = true
  /\ attempts d !! (run_id b, attempt b) = Some a
  /\ holds_attempt b AExecuting now (run_id b, attempt b) a = true.
Proof.
  unfold select_executing, select_run. intros Hs. peel Hs.
  assert ((s, r) ∈ matching (holds_run b Executing now) (runs d)) as [Hr Hh]%elem_of_matching.
  { match goal with E : matching _ _ = _ |- _ => rewrite E end. constructor. }
  pose proof Hh as (Hb & _)%holds_run_facts.
  apply bound_run_facts in Hb as (-> & _ & <- & _). done.
Qed.

Lemma outcome_steps b disposition kind message now random :
  stepping (record_scheduled_run_execution_outcome b disposition kind message now random).
Proof.
  apply stepping_try. intros _. apply stepping_try. intros _.
  destruct (_ >? _); [apply stepping_fail|]. destruct (invalid_retry _ _); [apply stepping_fail|].
  apply stepping_fenced. intros w x w' (row & w1 & [-> Hd]%query_ok & Hf)%bind_ok.
  rewrite <-Hd. destruct (select_executing b now (db w)) as [[r a]|] eqn:Hsel.
  - apply select_executing_facts in Hsel as (Hr & _ & Ha & _).
    apply bind_ok in Hf as (t & w2 & [Ht <-]%lift_ok & Hf).
    pose proof (outcome_not_live _ _ _ _ _ _ Ht) as [? ?]. apply rtc_once. revert Hf.
    apply release_step; [done..|apply quiet_ret|]. rewrite Hd.
    intros r0 a0 Hr0 _ Hp (Hb & _)%holds_run_facts Ha0 (Hba & _)%holds_attempt_facts.
    simplify_eq. left. rewrite (binding_of_rows b _ r _ a Hb Hba).
    by eapply outcome_retry_allowed.
  - revert Hf. apply committed_after; [apply quiet_late_completion|]. intros e w2 Hf.
    by tx_step Hf.
Qed.

Lemma reclaim_not_live s id attempt fence max_attempts safe :
  is_live (x_run_state (expired_reclaim_transition s id attempt fence max_attempts safe)) = false
  /\ attempt_is_live (x_attempt_state
       (expired_reclaim_transition s id attempt fence max_attempts safe)) = false.
Proof. unfold expired_reclaim_transition. by repeat split_match. Qed.

Lemma expired_run_facts b s now id r :
  expired_run b s now id r = true ->
  bound_run b id r = true /\ r_state r = s
  /\ exists t, r_lease_expires_at r = Some t /\ t <= now.
Proof.
  unfold expired_run, not_after. intros Hh. where_facts. split_and!; [done..|].
  destruct (r_lease_expires_at r) as [t|]; [|done]. bool_facts. eauto.
Qed.

Lemma expired_attempt_bound b s now key a :
  expired_attempt b s now key a = true -> bound_attempt b key a = true.
Proof. unfold expired_attempt. intros Hh. where_facts. done. Qed.

Lemma next_expired_facts now d id r :
  next_expired now d = Some (id, r) -> runs d !! id = Some r /\ reclaimable now d id r = true.
Proof. intros (? & ?)%first_by_elem%elem_of_matching. done. Qed.

Lemma current_attempt_facts d id r a :
  current_attempt d id r = Some a ->
  attempts d !! (id, r_attempt r) = Some a /\ is_current r a
  /\ same_state (r_state r) (a_state a) = true.
Proof.
  unfold current_attempt. destruct (attempts d !! (id, r_attempt r)) as [a'|]; [|done]. cbn.
  destruct (_ && _) eqn:E; [|done]. intros [= ->]. where_facts. split_and!; try done.
Qed.

(** Recovery reads the profile of the current attempt. *)
Lemma recovery_attested d id r owner safe t n f max_attempts a :
  r_lease_owner r = Some owner ->
  allows_recovery (mkLeaseBinding id (s_job_id (r_snapshot r)) (r_attempt r) (r_fence r) owner) r
    (current_attempt d id r) = Ok safe ->
  t = expired_reclaim_transition (r_state r) id n f max_attempts safe ->
  r_state r = Executing -> x_run_state t = Pending ->
  attempts d !! (id, r_attempt r) = Some a -> attested id r a.
Proof.
  intros Howner Hsafe -> Hs Hp Ha. unfold allows_recovery in Hsafe.
  unfold expired_reclaim_transition in Hp. rewrite Hs in *. cbn in Hsafe, Hp.
  destruct safe; [|done]. right. destruct (current_attempt d id r) as [a'|] eqn:Hc; [|done].
  by apply current_attempt_facts in Hc as (Ha' & (_ & _ & Hao) & _); simplify_eq.
Qed.

Lemma reclaim_steps now override_policy :
  stepping (reclaim_next_expired_scheduled_run_inner now override_policy).
Proof.
  apply stepping_fenced. intros w x w' (row & w0 & [-> Hdb]%query_ok & Hf)%bind_ok.
  rewrite <-Hdb. destruct (next_expired now (db w)) as [[id r]|] eqn:E; [|by tx_step Hf].
  apply next_expired_facts in E as [Hr Hrec]. unfold reclaimable in Hrec.
  apply bind_ok in Hf as (owner & w1 & [Howner <-]%lift_ok & Hf).
  apply bind_ok in Hf as ([max_attempts next] & w2 & [_ <-]%lift_ok & Hf).
  apply bind_ok in Hf as (safe & w3 & [Hsafe <-]%lift_ok & Hf).
  apply ok_or_ok in Howner. set (b := mkLeaseBinding _ _ _ _ _) in Hf.
  apply rtc_once. revert Hf. apply (fenced_step b); [| |apply quiet_count_reclaim|].
  - intros id' r' (? & -> & _)%expired_run_facts. bool_facts. done.
  - by intros key a ?%expired_attempt_bound.
  - intros r' a Hr' _ Ha _. split_and!; [done|right; apply reclaim_not_live|].
    cbn in *. rewrite Hdb in *. simplify_eq. intros Hs Hp. by eapply recovery_attested.
Qed.

Lemma quiet_stale_plan : quiet stale_plan.
Proof. apply quiet_bind; [apply quiet_increment|intros _; apply quiet_ret]. Qed.

Lemma reconcile_apply_steps b r expires now policy next safe w x w' :
  is_live (r_state r) = true -> runs (db w) !! run_id b = Some r ->
  (forall n f max_attempts a, r_state r = Executing ->
    x_run_state (expired_reclaim_transition (r_state r) (run_id b) n f max_attempts safe)
      = Pending ->
    attempts (db w) !! (run_id b, r_attempt r) = Some a -> attested (run_id b) r a) ->
  reconcile_apply b r expires now policy next safe w = (Ok (Commit x), w') ->
  rtc step (db w) (db w').
Proof.
  intros Hlive Hr Hsafe Hf. unfold reconcile_apply in Hf.
  set (t := expired_reclaim_transition _ _ _ _ _ _) in Hf.
  set (W := fun id r' => _ && (_ <=? _)) in Hf. cbn zeta in Hf.
  assert (forall id r', W id r' = true -> bound_run b id r' = true /\ r_state r' = r_state r)
    as HW.
  { intros id r'. subst W. cbn. intros Hw. where_facts.
    match goal with E : expired_run _ _ _ _ _ = true |- _ =>
      apply expired_run_facts in E as (? & ? & _) end. done. }
  apply bind_ok in Hf as (n & w1 & Hu & Hf). destruct (n =? 1) eqn:E1; cbn [negb] in Hf.
  2:{ apply sql_ok, runs_updated_ok in Hu as (-> & Hr1 & Ha1 & S1 & _).
      apply rtc_once, keeps_step. apply quiet_stale_plan in Hf.
      eapply keeps_trans; [|exact Hf]. split_and!; [|done..]. rewrite Hr1.
      apply update_rows_none. edestruct (matching_key W (runs (db w)) (run_id b)) as [?|Hone];
        [|done|by rewrite Hone in E1].
      intros id r' ((? & _)%bound_run_facts & _)%HW. done. }
  apply bind_ok in Hf as (m & w2 & Hv & Hf).
  destruct (m =? 1) eqn:E2; cbn [negb] in Hf; [|by tx_step Hf].
  apply bind_ok in Hf as (y & w3 & Hq & Hf). tx_step Hf. bool_facts.
  apply quiet_count_reclaim in Hq as Hq.
  eapply run_update_one in Hu as (r0 & Hr0 & [Hb Hs]%HW & Hr1 & Ha1 & S1 & ? & ?); [|naive_solver|done].
  eapply (attempt_update_one b) in Hv as (a & Ha & Hv & Ha2 & Hr2 & S2); [| |done].
  2:{ intros key a' Hv'. where_facts. by eapply expired_attempt_bound. }
  where_facts. eapply rtc_l; [|apply rtc_once, keeps_step, Hq].
  eapply reported_step with (r := r0) (a := a);
    [done|done|by rewrite <-Ha1|by eapply expired_attempt_bound|by rewrite Hs|by rewrite Hr2
    |by rewrite Ha2, Ha1|done|right; apply reclaim_not_live| |done|by rewrite Hr2
    |by eapply others_log, same_others_trans].
  assert (r0 = r) as -> by congruence. intros Hex Hp. eapply Hsafe; [done|exact Hp|].
  apply bound_run_facts in Hb as (_ & _ & -> & _). by rewrite <-Ha1.
Qed.

Lemma reconcile_steps id s n f owner expires next now :
  stepping (reconcile_expired_scheduled_run id s n f owner expires next now).
Proof.
  apply stepping_try. intros _. apply stepping_try. intros _.
  destruct (_ || _) eqn:Hargs; [apply stepping_fail|]. bool_facts.
  apply stepping_bind; [apply stepping_transaction|intros r; apply stepping_quiet, quiet_lift].
  intros w x w' (row & w0 & [-> Hdb]%query_ok & Hf)%bind_ok. rewrite <-Hdb.
  destruct (runs (db w) !! id) as [r|] eqn:Hr.
  2:{ apply rtc_once, keeps_step. by eapply quiet_stale_plan. }
  destruct (lease_as_observed _ _ _ _ _ _) eqn:Hobs; cbn [negb] in Hf.
  2:{ apply rtc_once, keeps_step. by eapply quiet_stale_plan. }
  unfold lease_as_observed in Hobs. destruct (_ || _); [by tx_step Hf|].
  apply bind_ok in Hf as (safe & w1 & [Hsafe <-]%lift_ok & Hf).
  apply bind_ok in Hf as (policy & w2 & [_ <-]%lift_ok & Hf).
  destruct (negb _).
  { apply rtc_once, keeps_step. by eapply quiet_stale_plan. }
  where_facts. eapply reconcile_apply_steps; [| | |exact Hf].
  - congruence.
  - by rewrite Hdb.
  - rewrite Hdb. intros n' f' m a Hs Hp Ha. by eapply recovery_attested.
Qed.

(** *** Cancellation *)

Lemma attempt_of_leased_facts job generation d key a :
  attempt_of_leased job generation d key a = true ->
  a_state a = ALeased /\ exists r, runs d !! key.1 = Some r /\ r_attempt r = key.2
    /\ is_current r a /\ leased_of job generation key.1 r = true.
Proof.
  unfold attempt_of_leased. intros Ha. where_facts. split; [done|].
  destruct (runs d !! key.1) as [r|]; [|done]. exists r. where_facts.
  split_and!; try done.
Qed.

(** The count the code compares: when as many attempts were cancelled as runs
    are leased, every leased run had its current attempt. *)
Lemma every_leased_has_attempt job generation d :
  Z.of_nat (length (matching (attempt_of_leased job generation d) (attempts d)))
    = Z.of_nat (length (matching (leased_of job generation) (runs d))) ->
  forall id r, runs d !! id = Some r -> leased_of job generation id r = true ->
  exists a, attempts d !! (id, r_attempt r) = Some a
    /\ attempt_of_leased job generation d (id, r_attempt r) a = true.
Proof.
  intros Hlen id r Hr Hl.
  set (A := matching (attempt_of_leased job generation d) (attempts d)) in *.
  set (L := matching (leased_of job generation) (runs d)) in *.
  assert (forall key a, (key, a) ∈ A -> exists r, runs d !! key.1 = Some r
    /\ r_attempt r = key.2 /\ leased_of job generation key.1 r = true) as HA.
  { intros key a (_ & (_ & r0 & ? & ? & _ & ?)%attempt_of_leased_facts)%elem_of_matching. eauto. }
  assert (A.*1.*1 ⊆+ L.*1) as Hsub.
  { apply NoDup_submseteq.
    - apply NoDup_fmap_2_strong; [|apply matching_NoDup].
      intros x y ([[i n] a] & -> & Hi)%list_elem_of_fmap ([[j m] b] & -> & Hj)%list_elem_of_fmap.
      cbn. intros ->.
      apply HA in Hi as (? & ? & ? & _), Hj as (? & ? & ? & _). cbn in *. congruence.
    - intros i (x & -> & ([[i' n] a] & -> & Hi)%list_elem_of_fmap)%list_elem_of_fmap.
      apply HA in Hi as (r0 & Hr0 & _ & Hl0). apply list_elem_of_fmap. exists (i', r0).
      split; [done|]. by apply elem_of_matching. }
  apply submseteq_length_Permutation in Hsub; [|rewrite !length_fmap; lia].
  assert (id ∈ L.*1) as Hid.
  { apply list_elem_of_fmap. exists (id, r). split; [done|]. by apply elem_of_matching. }
  rewrite <-Hsub in Hid.
  apply list_elem_of_fmap in Hid as (x & -> & ([[i n] a] & -> & Hi)%list_elem_of_fmap).
  pose proof (HA _ _ Hi) as (r0 & Hr0 & Hn & _). cbn in *. simplify_eq.
  exists a. by apply elem_of_matching in Hi.
Qed.

Lemma cancel_moves job generation now d d' id :
  (forall id r, runs d !! id = Some r -> leased_of job generation id r = true ->
    exists a, attempts d !! (id, r_attempt r) = Some a
      /\ attempt_of_leased job generation d (id, r_attempt r) a = true) ->
  runs d' = update_rows (fun _ r => of_generation job generation r
    && match r_state r with Pending | Leased => true | _ => false end) (cancel_run now) (runs d) ->
  attempts d' = update_rows (attempt_of_leased job generation d) (cancel_attempt now)
    (attempts d) ->
  moves id d d'.
Proof.
  intros Hall Hruns Hatts.
  assert (Hrun : runs d' !! id = _) by (by rewrite Hruns, lookup_update_rows).
  assert (Hatt : forall n, attempts d' !! (id, n) = (fun a =>
    if attempt_of_leased job generation d (id, n) a then cancel_attempt now a else a)
    <$> attempts d !! (id, n)) by (intros n; by rewrite Hatts, lookup_update_rows).
  destruct (runs d !! id) as [r|] eqn:Hr; cbn in Hrun.
  2:{ apply stays; [by rewrite Hr|]. intros n. rewrite Hatt.
      destruct (attempts d !! (id, n)) as [a|]; [|done]. cbn.
      destruct (attempt_of_leased _ _ _ _ _) eqn:Hl; [|done].
      apply attempt_of_leased_facts in Hl as (_ & ? & ? & _). by simplify_eq/=. }
  destruct (leased_of job generation id r) eqn:Hl.
  - destruct (Hall id r Hr Hl) as (a & Ha & Hla). unfold leased_of in Hl. bool_facts.
    rewrite H2, H3 in Hrun. cbn in Hrun.
    apply attempt_of_leased_facts in Hla as Hf. destruct Hf as (Hst & ? & ? & _ & Hcur & _).
    simplify_eq/=. apply is_reported with r (cancel_run now r) a (cancel_attempt now a); try done.
    + by rewrite H3.
    + by rewrite Hatt, Ha; cbn; rewrite Hla.
    + by right.
    + intros n Hn. rewrite Hatt. destruct (attempts d !! (id, n)) as [a'|]; [|done]. cbn.
      destruct (attempt_of_leased _ _ _ (id, n) a') eqn:Hl'; [|done].
      apply attempt_of_leased_facts in Hl' as (_ & ? & ? & ? & _). by simplify_eq/=.
  - assert (same_attempts id d d') as Hsame.
    { intros n. rewrite Hatt. destruct (attempts d !! (id, n)) as [a'|]; [|done]. cbn.
      destruct (attempt_of_leased _ _ _ (id, n) a') eqn:Hl'; [|done].
      apply attempt_of_leased_facts in Hl' as (_ & ? & ? & _ & _ & ?). simplify_eq/=. congruence. }
    unfold leased_of in Hl.
    destruct (of_generation job generation r) eqn:Hg; cbn in *; [|by apply stays; [rewrite Hr|]].
    destruct (r_state r) eqn:Hs; cbn in *; try (by apply stays; [rewrite Hr|]).
    apply stops_waiting with r (cancel_run now r); auto.
Qed.

Lemma cancel_step job generation now w u w' :
  cancel_pre_execution_runs job generation now w = (Ok u, w') -> step (db w) (db w').
Proof.
  intros (n & w1 & [-> Hd1]%query_ok & Hf)%bind_ok.
  apply bind_ok in Hf as (m & w2 & Hm & Hf).
  apply sql_ok, attempts_updated_ok in Hm as (-> & Ha2 & Hr2 & S2).
  destruct (_ =? _) eqn:E; cbn [negb] in Hf; [|by tx_step Hf].
  apply bind_ok in Hf as (k & w3 & Hk & Hf). tx_step Hf.
  apply sql_ok, runs_updated_ok in Hk as (_ & Hr3 & Ha3 & S3 & Hu & Hc).
  apply Z.eqb_eq in E. rewrite Hd1 in *.
  pose proof (every_leased_has_attempt job generation (db w) E) as Hall.
  split_and!; [| |by eapply others_log, same_others_trans].
  - intros id. apply cancel_moves with job generation now; [done|by rewrite Hr3, Hr2|].
    by rewrite Ha3, Ha2.
  - intros [Hok _]. split; [|done]. intros id r. rewrite Hr3, lookup_update_rows, Hr2.
    destruct (runs (db w) !! id) as [r0|] eqn:Hr0; [|done]. cbn. intros [= <-].
    destruct (_ && _) eqn:Hw; [|by eapply Hok]. eapply (Hc id); [by rewrite Hr2|done].
Qed.

(** *** Claiming *)

Lemma quiet_revalidate admission now : quiet (revalidate_executor_admission admission now).
Proof.
  unfold revalidate_executor_admission.
  repeat first [apply quiet_query | apply quiet_ret | apply quiet_fail
    | apply quiet_bind; [|intros ?] | split_match].
Qed.

Lemma quiet_acquire admission now : quiet (acquire_and_validate_executor_admission admission now).
Proof.
  unfold acquire_and_validate_executor_admission. destruct admission; [|apply quiet_ret].
  apply quiet_bind; [apply quiet_lift|intros _].
  apply quiet_bind; [apply quiet_map_err, quiet_query|]. intros [];
    [apply quiet_revalidate|apply quiet_fail].
Qed.

Lemma quiet_not_cancelled admission cancelled :
  quiet (ensure_executor_admission_not_cancelled admission cancelled).
Proof.
  unfold ensure_executor_admission_not_cancelled.
  destruct (_ && _); [apply quiet_fail|apply quiet_ret].
Qed.

Lemma quiet_commit {A} admission readings (a : A) : quiet (commit_admitted admission readings a).
Proof.
  apply quiet_bind; [apply quiet_not_cancelled|intros _].
  apply quiet_bind; [apply quiet_revalidate|intros _]. apply quiet_ret.
Qed.

Lemma is_due_pending now r : is_due now r = true -> r_state r = Pending.
Proof. unfold is_due. intros Hd. where_facts. done. Qed.

(** An UPDATE that only ends, or only notes, runs that wait. *)
Lemma waiting_step where_ set w n w' :
  (forall id r, where_ id r = true -> r_state r = Pending
    /\ (set r = note_counter_limit r
        \/ (r_state (set r) = Failed /\ r_snapshot (set r) = r_snapshot r
            /\ r_attempt (set r) = r_attempt r /\ r_fence (set r) = r_fence r))) ->
  update_runs where_ set w = (Ok n, w') -> step (db w) (db w').
Proof.
  intros Hw (_ & Hr & Ha & Ho & Hu & Hc)%sql_ok%runs_updated_ok.
  assert (forall id, same_attempts id (db w) (db w')) as Hsame by (intros id k; by rewrite Ha).
  split_and!; [| |by apply others_log].
  - intros id. assert (Hrun : runs (db w') !! id = _) by (by rewrite Hr, lookup_update_rows).
    destruct (runs (db w) !! id) as [r|] eqn:E; cbn in Hrun; [|by apply stays; [rewrite E|]].
    destruct (where_ id r) eqn:Ew; [|by apply stays; [rewrite E|]].
    destruct (Hw _ _ Ew) as (Hp & [Hn|(? & ? & ? & ?)]).
    + rewrite Hn in Hrun. by apply is_noted with r.
    + apply stops_waiting with r (set r); auto.
  - intros [Hok _]. split; [|done]. intros id r. rewrite Hr, lookup_update_rows.
    destruct (runs (db w) !! id) as [r0|] eqn:E; [|done]. cbn. intros [= <-].
    destruct (where_ id r0) eqn:Ew; [by eapply Hc|by eapply Hok].
Qed.

Lemma expire_step now w n w' :
  update_runs (expire_where now) (expire_set now) w = (Ok n, w') -> step (db w) (db w').
Proof.
  apply waiting_step. intros id r Hw. unfold expire_where in Hw. bool_facts.
  split; [by eapply is_due_pending|]. by right.
Qed.

Lemma claim_row_none owner requested now d d' :
  claim_row owner requested now d = Ok (None, d') -> d' = d.
Proof.
  unfold claim_row. destruct (first_by _ _) as [[id r]|] eqn:E; [|naive_solver].
  apply first_by_elem, elem_of_matching in E as [Hr _]. intros Hc. peel Hc.
  apply runs_updated_ok in Heqr0 as (_ & Hr' & _). rewrite Hr', lookup_update_rows, Hr in Heqo.
  done.
Qed.

Lemma claim_row_some owner requested now d id r' d' :
  claim_row owner requested now d = Ok (Some (id, r'), d') ->
  exists r, first_by claims_before (matching (claimable now) (runs d)) = Some (id, r)
    /\ runs d !! id = Some r /\ claimable now id r = true
    /\ r' = claim_set owner requested now r
    /\ runs d' = <[id := r']> (runs d) /\ attempts d' = attempts d /\ same_others d d'
    /\ run_checks r' = true /\ overlap_unique (runs d') = true.
Proof.
  unfold claim_row. destruct (first_by _ _) as [[id0 r]|] eqn:E; [|done].
  apply first_by_elem, elem_of_matching in E as Hf. destruct Hf as [Hr Hcl].
  intros Hc. peel Hc. exists r.
  match goal with Hu : runs_updated ?W ?S _ = _ |- _ =>
    apply runs_updated_ok in Hu as (_ & Hr' & Ha & Ho & Hu & Hch);
    assert (update_rows W S (runs d) = <[id := S r]> (runs d)) as Heq end.
  { apply map_eq. intros k. rewrite lookup_update_rows.
    destruct (decide (k = id)) as [->|Hne].
    - rewrite Hr, lookup_insert_eq. cbn. by rewrite String.eqb_refl, Hcl.
    - rewrite lookup_insert_ne by done. destruct (runs d !! k); [|done]. cbn.
      apply String.eqb_neq in Hne. by rewrite Hne. }
  rewrite Heq in Hr'. rewrite Hr', lookup_insert_eq in Heqo. simplify_eq.
  split_and!; try done. apply (Hch id); [done|]. cbn. by rewrite String.eqb_refl, Hcl.
Qed.

(** The claim and its attempt, together. *)
Lemma claim_found_commit owner requested admission readings d id r' w x w' :
  claim_row owner requested (clock_at_mutation readings) d = Ok (Some (id, r'), db w) ->
  claim_found owner admission readings id r' w = (Ok (Commit x), w') ->
  exists expires, r_lease_expires_at r' = Some expires
    /\ attempts d !! (id, r_attempt r') = None
    /\ runs (db w') = runs (db w)
    /\ attempts (db w') = <[(id, r_attempt r') := fresh_attempt
         (mkLeaseBinding id (s_job_id (r_snapshot r')) (r_attempt r') (r_fence r') owner)
         (clock_at_mutation readings) expires]> (attempts d)
    /\ same_others (db w) (db w').
Proof.
  intros (r & _ & _ & _ & _ & _ & Ha & Ho & _)%claim_row_some Hf. unfold claim_found in Hf.
  apply bind_ok in Hf as (expires & w1 & [He ->]%lift_ok & Hf).
  apply bind_ok in Hf as (u & w2 & Hi & Hf).
  apply bind_ok in Hf as (v & w3 & [_ ->]%lift_ok & Hf).
  apply bind_ok in Hf as (claimed & w4 & [_ ->]%lift_ok & Hf).
  apply quiet_commit in Hf as (Hr3 & Ha3 & S3).
  apply insert_attempt_ok in Hi as (Hn & Ha2 & Hr2 & S2 & _).
  exists expires. unfold integer_column in He. rewrite Ha in *.
  split_and!; [by destruct (r_lease_expires_at r'); peel He|done|congruence|congruence|].
  eauto using same_others_trans.
Qed.

Lemma claim_found_step owner requested admission readings d id r' w x w' :
  claim_row owner requested (clock_at_mutation readings) d = Ok (Some (id, r'), db w) ->
  claim_found owner admission readings id r' w = (Ok (Commit x), w') ->
  step d (db w').
Proof.
  intros Hrow Hf. eapply claim_found_commit in Hf as (expires & He & Hnone & Hr & Ha & S2); [|done].
  apply claim_row_some in Hrow as (r & _ & Hr0 & Hcl & -> & Hr1 & _ & S1 & Hc & Hu).
  unfold claimable in Hcl. bool_facts. rewrite Hr1 in Hr.
  split_and!; [| |by eapply others_log, same_others_trans].
  - intros id'. destruct (decide (id' = id)) as [->|Hne].
    + eapply is_claimed with (r := r); [done|by rewrite Hr, lookup_insert_eq
        |by eapply is_due_pending| |done|by rewrite Ha, lookup_insert_eq|].
      * done.
      * intros n Hn. rewrite Ha, lookup_insert_ne; congruence.
    + apply stays; [by rewrite Hr, lookup_insert_ne|].
      intros n. rewrite Ha, lookup_insert_ne; congruence.
  - intros [Hok _]. split; [|congruence]. intros id' r'. rewrite Hr.
    destruct (decide (id' = id)) as [->|Hne].
    + rewrite lookup_insert_eq. by intros [= <-].
    + rewrite lookup_insert_ne by done. apply Hok.
Qed.

Lemma claim_nothing_steps admission readings w x w' :
  claim_nothing admission readings w = (Ok (Commit x), w') -> rtc step (db w) (db w').
Proof.
  apply committed_after; [apply quiet_query|]. intros [] w1 Hf.
  - apply bind_ok in Hf as (n & w2 & Hn & Hf). apply rtc_l with (db w2).
    { revert Hn. apply waiting_step. intros id r Hw. unfold counters_exhausted in Hw. bool_facts.
      split; [by eapply is_due_pending|by left]. }
    revert Hf. apply committed_after; [apply quiet_increment|]. intros u w3 Hf.
    apply rtc_once, keeps_step. by eapply quiet_commit.
  - apply rtc_once, keeps_step. by eapply quiet_commit.
Qed.

Lemma claim_steps owner now expires admission readings :
  stepping (claim_next_scheduled_run_inner owner now expires admission readings).
Proof.
  apply stepping_try. intros _. destruct (match expires with Some _ => _ | None => _ end);
    [apply stepping_fail|].
  apply stepping_bind; [apply stepping_transaction|intros r; apply stepping_quiet, quiet_lift].
  intros w x w'. apply committed_after; [apply quiet_acquire|]. intros _ w1.
  apply committed_after; [apply quiet_not_cancelled|]. intros _ w2 Hf.
  apply bind_ok in Hf as (n & w3 & Hn & Hf). apply rtc_l with (db w3).
  { destruct (is_some expires); [tx_step Hn; by apply keeps_step|by eapply expire_step]. }
  apply bind_ok in Hf as (row & w4 & Hrow & Hf). apply sql_ok in Hrow.
  destruct row as [[id r]|].
  - apply rtc_once. by eapply claim_found_step.
  - apply claim_row_none in Hrow. rewrite <-Hrow. by eapply claim_nothing_steps.
Qed.

(** *** Completion *)

Lemma or_conflict_some {A} (m : Tx A) w a w' :
  or_conflict m w = (Ok (Some a), w') -> m w = (Ok a, w').
Proof. unfold or_conflict. intros Ho. repeat split_match_in Ho; naive_solver. Qed.

Lemma insert_artifact_ok artifact_id f w u w' :
  insert_artifact artifact_id f w = (Ok u, w') ->
  artifacts (db w) !! artifact_id = None
  /\ (forall i g, artifacts (db w) !! i = Some g -> f_run_id g <> f_run_id f)
  /\ db w' = with_artifacts (db w) (<[artifact_id := f]> (artifacts (db w))).
Proof.
  intros Hi%sql_ok. destruct (_ && _) eqn:E; [|done]. injection Hi as <-. bool_facts.
  split_and!; [by destruct (artifacts (db w) !! artifact_id)| |done].
  intros i g Hg Heq. match goal with HF : forallb _ _ = true |- _ =>
    rewrite List.forallb_forall in HF; specialize (HF (i, g));
    rewrite <-list_elem_of_In, elem_of_map_to_list in HF; specialize (HF Hg) end.
  rewrite Heq, String.eqb_refl in *. done.
Qed.

Lemma baseline_advanced u w w' :
  compare_and_swap_execution_baseline_in_transaction u w = (Ok true, w') ->
  exists old, baselines (db w) !! u_job_id u = Some old
    /\ baseline_version old = u_expected_version u
    /\ db w' = with_totals (with_baselines (db w)
         (<[u_job_id u := mkBaseline (u_expected_version u + 1) (Some (u_result u))]>
           (baselines (db w))))
         (bump "execution_baseline_advanced" 1 (totals (db w))).
Proof.
  unfold compare_and_swap_execution_baseline_in_transaction. intros Hc.
  do 3 (apply bind_ok in Hc as (? & ? & [_ <-]%lift_ok & Hc)).
  destruct (_ || _); [by tx_step Hc|]. apply sql_ok in Hc.
  destruct (baselines (db w) !! u_job_id u) as [old|]; [|done]. exists old.
  destruct (_ && _) eqn:E; [|done]. bool_facts.
  destruct (runs (db w) !! b_source_run_id (u_result u)) as [r|]; [|done].
  destruct (String.eqb _ _); [|done]. injection Hc as <-. split_and!; congruence.
Qed.

(** What a completion's intents add to the deliveries. *)
Definition adds_intents (b : RunLeaseBinding) (s : RunSnapshot) (completed_at : Z)
    (targets : list DeliveryIntentTarget) (old new : gmap string Delivery) : Prop :=
  old ⊆ new
  /\ Forall (fun target => exists key,
       delivery_intent_key (run_id b) (identity_digest target) = Ok key
       /\ new !! ("intent:" +:+ key)
          = Some (fresh_delivery (intent_of b s completed_at key target))) targets
  /\ forall id i, new !! id = Some i -> old !! id = None -> exists target key, target ∈ targets
       /\ i = fresh_delivery (intent_of b s completed_at key target).

Lemma insert_intents_ok b s completed_at targets w w' :
  insert_intents b s completed_at targets w = (Ok true, w') ->
  runs (db w') = runs (db w) /\ attempts (db w') = attempts (db w)
  /\ artifacts (db w') = artifacts (db w) /\ baselines (db w') = baselines (db w)
  /\ log_grows (db w) (db w')
  /\ adds_intents b s completed_at targets (deliveries (db w)) (deliveries (db w')).
Proof.
  revert w. induction targets as [|target targets IH]; intros w Hi; cbn [insert_intents] in Hi.
  { tx_step Hi. split_and!; try done. split_and!; [done|constructor|]. congruence. }
  apply bind_ok in Hi as (key & w1 & [Hkey <-]%lift_ok & Hi).
  apply bind_ok in Hi as (inserted & w2 & Hins & Hi).
  destruct inserted as [i|]; [|by tx_step Hi].
  apply or_conflict_some, sql_ok in Hins. destruct (_ && _) eqn:E; [|done].
  injection Hins as <- Hw2. bool_facts.
  apply bind_ok in Hi as (u & w3 & [_ <-]%lift_ok & Hi).
  assert (deliveries (db w) !! ("intent:" +:+ key) = None) as Hnew.
  { destruct (deliveries (db w) !! ("intent:" +:+ key)) as [i|] eqn:Ei; [|done].
    match goal with HF : existsb _ _ = false |- _ => rewrite <-not_true_iff_false in HF;
      contradict HF end.
    apply existsb_exists. exists ("intent:" +:+ key, i).
    rewrite <-list_elem_of_In, elem_of_map_to_list. split; [done|].
    unfold intent_collides. cbn [fst snd]. by rewrite String.eqb_refl. }
  apply IH in Hi as (? & ? & ? & ? & ? & Hsub & Hall & Hnew').
  rewrite <-Hw2 in *. cbn [runs attempts artifacts baselines deliveries with_deliveries] in *.
  split_and!; try done. split_and!.
  - etrans; [|exact Hsub]. by apply insert_subseteq.
  - constructor; [|done]. exists key. split; [done|].
    eapply lookup_weaken; [|exact Hsub]. apply lookup_insert_eq.
  - intros id j Hj Hnone. destruct (decide (id = "intent:" +:+ key)) as [->|Hne].
    + exists target, key. split; [constructor|].
      assert (deliveries (db w') !! ("intent:" +:+ key)
        = Some (fresh_delivery (intent_of b s completed_at key target))) as Hk.
      { eapply lookup_weaken; [|exact Hsub]. apply lookup_insert_eq. }
      congruence.
    + destruct (Hnew' id j Hj) as (tg & k & ? & ->); [by rewrite lookup_insert_ne|].
      exists tg, k. split; [by constructor|done].
Qed.

(** Everything an accepted result writes. *)
Record accepts (b : RunLeaseBinding) (result : ScheduledRunResult) (completed_at : Z)
    (targets : list DeliveryIntentTarget) (expected_version : Z) (r : Run) (a : Attempt)
    (d d' : Db) : Prop := {
  acc_run : runs d !! run_id b = Some r;
  acc_holds : holds_run b Executing completed_at (run_id b) r = true;
  acc_attempt : attempts d !! (run_id b, attempt b) = Some a;
  acc_attempt_holds : holds_attempt b AExecuting completed_at (run_id b, attempt b) a = true;
  acc_runs : runs d' = <[run_id b := succeed_run (mkAccepted (artifact_id_of b)
    (previous_success_context result) "sha256-v1"
    (f_result_hash (result_artifact b result completed_at))) completed_at r]> (runs d);
  acc_attempts : attempts d' = <[(run_id b, attempt b) := succeed_attempt completed_at a]>
    (attempts d);
  acc_fresh : forall i g, artifacts d !! i = Some g -> f_run_id g <> run_id b;
  acc_artifacts : artifacts d' = <[artifact_id_of b := result_artifact b result completed_at]>
    (artifacts d);
  acc_baseline : exists old, baselines d !! job_id b = Some old
    /\ baseline_version old = expected_version;
  acc_baselines : baselines d' = <[job_id b := mkBaseline (expected_version + 1)
    (Some (mkBaselineResult "sha256-v1" (f_result_hash (result_artifact b result completed_at))
      (previous_success_context result) (run_id b) completed_at))]> (baselines d);
  acc_deliveries : adds_intents b (r_snapshot r) completed_at targets (deliveries d)
    (deliveries d');
  acc_checks : run_checks (succeed_run (mkAccepted (artifact_id_of b)
    (previous_success_context result) "sha256-v1"
    (f_result_hash (result_artifact b result completed_at))) completed_at r) = true;
  acc_overlap : overlap_unique (runs d') = true;
  acc_log : log_grows d d'
}.

Lemma accept_result_commit b result completed_at r0 targets expected_version w x w' :
  runs (db w) !! run_id b = Some r0 ->
  accept_result b result completed_at (r_snapshot r0) targets expected_version w
    = (Ok (Commit x), w') ->
  x = Some Committed
  /\ exists r a, accepts b result completed_at targets expected_version r a (db w) (db w').
Proof.
  intros Hr0 Hf. unfold accept_result in Hf.
  apply bind_ok in Hf as (artifact & w1 & Hart & Hf).
  destruct artifact as [u|]; cbn [is_some negb] in Hf; [|by tx_step Hf].
  apply or_conflict_some, insert_artifact_ok in Hart as (Hn & Hfresh & Hw1).
  apply bind_ok in Hf as (advanced & w2 & Hcas & Hf).
  destruct advanced; cbn [negb] in Hf; [|by tx_step Hf].
  apply baseline_advanced in Hcas as (old & Hold & Hver & Hw2).
  apply bind_ok in Hf as (delivered & w3 & Hdel & Hf).
  destruct delivered; cbn [negb] in Hf; [|by tx_step Hf].
  apply insert_intents_ok in Hdel as (Hr3 & Ha3 & Hf3 & Hb3 & Hlog & Hadds).
  apply bind_ok in Hf as (n & w4 & Hatt & Hf).
  destruct (n =? 1) eqn:En; cbn [negb] in Hf; [|by tx_step Hf]. apply Z.eqb_eq in En.
  eapply (attempt_update_one b) in Hatt as (a & Ha & Hholds & Ha4 & Hr4 & S4);
    [|by intros key a (? & _)%holds_attempt_facts|done].
  apply bind_ok in Hf as (run & w5 & Hrun & Hf).
  destruct run as [m|]; [|by tx_step Hf].
  destruct (m =? 1) eqn:Em; cbn [negb] in Hf; [|by tx_step Hf]. apply Z.eqb_eq in Em.
  apply or_conflict_some in Hrun.
  eapply (run_update_one b) in Hrun as (r & Hr & Hrh & Hr5 & Ha5 & S5 & Hc5 & Hu5);
    [|by intros id r (? & _)%holds_run_facts|done].
  apply ret_ok in Hf as [[= <-] <-]. split; [done|]. exists r, a.
  assert (log_grows (db w) (db w5)) as Hlogs.
  { etrans; [|eapply others_log, same_others_trans; [exact S4|exact S5]].
    etrans; [|exact Hlog]. by rewrite Hw2, Hw1. }
  destruct S4, S5. rewrite Hw2, Hw1 in *.
  cbn [runs attempts artifacts baselines deliveries with_artifacts with_baselines with_totals u_job_id u_expected_version u_result] in *.
  assert (r = r0) as -> by congruence. split; try congruence; eauto.
Qed.

Lemma accepts_step b result completed_at targets expected_version r a d d' :
  accepts b result completed_at targets expected_version r a d d' -> step d d'.
Proof.
  intros []. apply holds_run_facts in acc_holds0 as (Hb & Hs & _).
  apply holds_attempt_facts in acc_attempt_holds0 as (Hba & _).
  eapply reported_step; eauto; [by rewrite Hs|done|by right|done].
Qed.

Lemma quiet_transaction {A} begin_error (body : Tx (Ending A)) :
  quiet body -> quiet (begin_transaction begin_error body).
Proof.
  intros Hbody w r w' [(a & w0 & w1 & _ & <- & Hb & ->)|[-> _]]%transaction_cases; [|done].
  by eapply Hbody.
Qed.

Lemma quiet_resolve b evidence observed_at random :
  quiet (resolve_scheduled_run_completion_conflict b evidence observed_at random).
Proof.
  apply quiet_bind; [apply quiet_transaction|intros r; apply quiet_lift].
  apply quiet_bind; [apply quiet_query|]. intros []; [apply quiet_ret|].
  apply quiet_bind; [apply quiet_late_completion|intros o; apply quiet_ret].
Qed.

Lemma accept_result_ends b result completed_at s targets v w e w' :
  accept_result b result completed_at s targets v w = (Ok e, w') ->
  e = Rollback None \/ exists x, e = Commit x.
Proof.
  unfold accept_result. intros Hf.
  do 4 (apply bind_ok in Hf as (? & ? & _ & Hf); destruct (negb _); [tx_step Hf; by left|]).
  apply bind_ok in Hf as (run & w5 & _ & Hf).
  destruct run as [n|]; [|tx_step Hf; by left]. destruct (negb _); tx_step Hf; eauto.
Qed.

Lemma resolve_not_committed b evidence observed_at random w w' :
  ~ resolve_scheduled_run_completion_conflict b evidence observed_at random w
    = (Ok Committed, w').
Proof.
  intros Hf. unfold resolve_scheduled_run_completion_conflict in Hf.
  apply bind_ok in Hf as (o & w1 & Ht & [-> _]%lift_ok).
  apply transaction_cases in Ht as [(a & w2 & w3 & [= <-] & _ & Hb & _)|[_ Hb]].
  - apply bind_ok in Hb as (current & w4 & _ & Hb). destruct current; [by tx_step Hb|].
    apply bind_ok in Hb as (e & w5 & _ & Hb). by tx_step Hb.
  - destruct (Hb _ eq_refl) as (w2 & w3 & _ & [Hf|Hf]);
      apply bind_ok in Hf as (current & w4 & _ & Hf); (destruct current; [by tx_step Hf|]);
      apply bind_ok in Hf as (e & w5 & _ & Hf); by tx_step Hf.
Qed.

(** The body of a completion's transaction. *)
Lemma completion_body b result completed_at random w e w' :
  (do! row := query (select_executing b completed_at) in
   match row with
   | Some (r, a) =>
       do! (targets, expected_version) := lift (completion_inputs result
         (f_result_json (result_artifact b result completed_at)) completed_at r a) in
       accept_result b result completed_at (r_snapshot r) targets expected_version
   | None =>
       do! evidence := late_completion b
         (f_result_hash (result_artifact b result completed_at)) completed_at random in
       ret (Commit (Some (SuccessLateEvidence evidence)))
   end) w = (Ok e, w') ->
  e = Rollback None
  \/ (exists evidence, e = Commit (Some (SuccessLateEvidence evidence))
      /\ keeps (db w) (db w'))
  \/ (e = Commit (Some Committed) /\ exists run a targets expected_version,
       completion_inputs result (f_result_json (result_artifact b result completed_at))
         completed_at run a = Ok (targets, expected_version)
       /\ accepts b result completed_at targets expected_version run a (db w) (db w')).
Proof.
  intros (row & w1 & [-> Hd]%query_ok & Hb)%bind_ok.
  destruct (select_executing b completed_at (db w)) as [[run a]|] eqn:Hsel.
  - apply select_executing_facts in Hsel as (Hr & _ & Ha & _). rewrite <-Hd in Hr, Ha.
    apply bind_ok in Hb as ([targets v] & w2 & [Hin <-]%lift_ok & Hb).
    destruct (accept_result_ends _ _ _ _ _ _ _ _ _ Hb) as [->|[x ->]]; [by left|].
    eapply accept_result_commit in Hb as (-> & r' & a' & Hacc); [|done].
    right; right. split; [done|]. exists run, a, targets, v.
    pose proof (acc_run _ _ _ _ _ _ _ _ _ Hacc) as Hr'.
    pose proof (acc_attempt _ _ _ _ _ _ _ _ _ Hacc) as Ha'. simplify_eq.
    split; [done|]. by rewrite <-Hd.
  - right; left. rewrite <-Hd. apply bind_ok in Hb as (evidence & w2 & He & Hb). tx_step Hb.
    exists evidence. split; [done|]. by eapply quiet_late_completion.
Qed.

(** The transaction of a completion either accepts the result or keeps the
    tables. *)
Lemma complete_cases b result completed_at random w r w' :
  complete_scheduled_run_success b result completed_at random w = (r, w') ->
  (r <> Ok Committed /\ keeps (db w) (db w'))
  \/ (r = Ok Committed /\ exists run a targets expected_version,
        completion_inputs result (f_result_json (result_artifact b result completed_at))
          completed_at run a = Ok (targets, expected_version)
        /\ accepts b result completed_at targets expected_version run a (db w) (db w')).
Proof.
  unfold complete_scheduled_run_success. intros Hf.
  unfold bind at 1 in Hf. destruct (validate_lease_binding b) as [[]|]; cbn [lift] in Hf;
    [|injection Hf as <- <-; by left].
  destruct (_ <? _); [injection Hf as <- <-; by left|].
  unfold bind at 1 in Hf. destruct (map_err _ _) as [[]|]; cbn [lift] in Hf;
    [|injection Hf as <- <-; by left].
  destruct (_ >? _); [injection Hf as <- <-; by left|].
  unfold bind at 1 in Hf. destruct (transaction _ w) as [o w1] eqn:Ht.
  assert (forall o, o = None ->
    match o with
    | Some outcome => ret outcome
    | None => resolve_scheduled_run_completion_conflict b
        (f_result_hash (result_artifact b result completed_at)) completed_at random
    end w1 = (r, w') -> r <> Ok Committed /\ keeps (db w1) (db w')) as Hres.
  { intros ? -> He. split; [|by eapply quiet_resolve]. intros ->.
    by apply resolve_not_committed in He. }
  apply transaction_cases in Ht as [(x & w0 & w2 & -> & <- & Hb & Hw1)|[<- Hb]].
  - apply completion_body in Hb as [?|[(e & [= ->] & Hk)|([= ->] & Hacc)]]; [done| |].
    + injection Hf as <- <-. left. split; [done|]. by rewrite Hw1.
    + injection Hf as <- <-. right. split; [done|]. by rewrite Hw1.
  - left. destruct o as [o|e]; [|by injection Hf as <- <-].
    destruct (Hb _ eq_refl) as (w0 & w2 & _ & [Hend|Hend]);
      apply completion_body in Hend as [[= ->]|[(? & [=] & _)|([=] & _)]]. by eapply Hres.
Qed.

End Steps.

Abbreviation quiet := (respects keeps).
Abbreviation stepping := (respects (rtc step)).

End Lifecycle.
