(* ===== verification/RunSafety.v ===== *)
(** * Safety of the run store over every history of calls

    The calls of the run store as data, so that a history is a list of calls by
    any number of workers, recovery passes and cancellations in any order, under
    any storage faults; and the guarantees that hold in all of them. *)

From stdpp Require Import base tactics list strings numbers pretty gmap relations.
From Stdlib Require Import ZArith Lia Ascii.
From Stdlib Require OrdersEx.
From S2P Require Import Prelude.
From S2P Require Import Policy.
From S2P Require Import Schedule.
From S2P Require Import Json.
From S2P Require Import Digest.
From S2P Require Import Capability.
From S2P Require Import Authority.
From S2P Require Import Tables.
From S2P Require Import Runs.
From S2P Require Import Completion.
From S2P Require Import Lifecycle.
Import Digest.

Module RunSafety.
Import Schedule Snapshot Authority Tables Runs Completion Lifecycle.

(** ** Histories *)

Inductive Call :=
| Claim (owner : string) (now : Z) (lease_expires_at : option Z)
    (admission : option ScheduledExecutorAdmission) (readings : Readings)
| Heartbeat (b : RunLeaseBinding) (now lease_expires_at : Z)
| MarkExecuting (b : RunLeaseBinding) (profile : AttestedExecutionProfileSnapshot) (now : Z)
| PreflightFailure (b : RunLeaseBinding) (disposition : PreflightFailureDisposition)
    (snapshot_retryable : option bool) (kind message : string) (now : Z)
| ExecutionOutcome (b : RunLeaseBinding) (disposition : ScheduledExecutionDisposition)
    (kind message : string) (now : Z) (random : string)
| CompleteSuccess (b : RunLeaseBinding) (result : ScheduledRunResult) (completed_at : Z)
    (random : string)
| ReclaimOverride (now max_attempts next_attempt_at : Z)
| ReclaimSnapshot (now : Z)
| Reconcile (id : string) (expected_state : ScheduledRunState) (expected_attempt expected_fence : Z)
    (expected_owner : string) (expected_expires_at : Z) (expected_next_attempt_at : option Z)
    (now : Z).

Section Histories.
Context `{Serde} `{Sha2} `{Sqlite}.

Definition perform (c : Call) (w : World) : World :=
  match c with
  | Claim owner now expires admission readings =>
      (claim_next_scheduled_run_inner owner now expires admission readings w).2
  | Heartbeat b now expires => (heartbeat_scheduled_run b now expires w).2
  | MarkExecuting b profile now => (mark_scheduled_run_executing b profile now w).2
  | PreflightFailure b disposition retryable kind message now =>
      (record_scheduled_run_preflight_failure_inner b disposition retryable kind message now w).2
  | ExecutionOutcome b disposition kind message now random =>
      (record_scheduled_run_execution_outcome b disposition kind message now random w).2
  | CompleteSuccess b result completed_at random =>
      (complete_scheduled_run_success b result completed_at random w).2
  | ReclaimOverride now max_attempts next =>
      (reclaim_next_expired_scheduled_run now max_attempts next w).2
  | ReclaimSnapshot now => (reclaim_next_expired_scheduled_run_from_snapshot now w).2
  | Reconcile id s n f owner expires next now =>
      (reconcile_expired_scheduled_run id s n f owner expires next now w).2
  end.

(** The binding a call presents, and the time it presents it at. *)
Definition presents (c : Call) : option (RunLeaseBinding * Z) :=
  match c with
  | Heartbeat b now _ | MarkExecuting b _ now | PreflightFailure b _ _ _ _ now
  | ExecutionOutcome b _ _ _ now _ | CompleteSuccess b _ now _ => Some (b, now)
  | _ => None
  end.

Lemma complete_steps b result completed_at random :
  stepping (complete_scheduled_run_success b result completed_at random).
Proof.
  intros w r w' [[_ Hk]|(_ & run & a & targets & v & _ & Hacc)]%complete_cases; apply rtc_once.
  - by apply keeps_step.
  - by eapply accepts_step.
Qed.

Lemma stepped {A} (m : Tx A) w : stepping m -> rtc step (db w) (db (m w).2).
Proof. intros Hm. destruct (m w) as [r w'] eqn:E. by eapply Hm. Qed.

Lemma perform_steps c w : rtc step (db w) (db (perform c w)).
Proof.
  destruct c; cbn [perform]; apply stepped.
  - apply claim_steps.
  - apply heartbeat_steps.
  - apply mark_executing_steps.
  - apply preflight_steps.
  - apply outcome_steps.
  - apply complete_steps.
  - unfold reclaim_next_expired_scheduled_run. destruct (_ || _); [apply stepping_fail|].
    apply reclaim_steps.
  - apply reclaim_steps.
  - apply reconcile_steps.
Qed.

(** ** The invariant *)

(** A live run has its current attempt, in the same state and with the same
    lease; every attempt belongs to a run, none is ahead of it, and only the
    current attempt of a live run is open. *)
Record consistent (d : Db) : Prop := {
  con_rows : rows_ok d;
  con_current : forall id r, runs d !! id = Some r -> is_live (r_state r) = true ->
    exists a, attempts d !! (id, r_attempt r) = Some a /\ is_current r a
      /\ same_state (r_state r) (a_state a) = true
      /\ r_lease_expires_at r = Some (a_lease_expires_at a);
  con_attempts : forall id n a, attempts d !! (id, n) = Some a ->
    exists r, runs d !! id = Some r /\ n <= r_attempt r /\ a_fence a <= r_fence r
      /\ (n < r_attempt r -> a_fence a < r_fence r)
      /\ (attempt_is_live (a_state a) = true -> n = r_attempt r /\ is_live (r_state r) = true)
}.

Lemma step_keeps_current d d' :
  consistent d -> step d d' ->
  forall id r, runs d' !! id = Some r -> is_live (r_state r) = true ->
  exists a, attempts d' !! (id, r_attempt r) = Some a /\ is_current r a
    /\ same_state (r_state r) (a_state a) = true
    /\ r_lease_expires_at r = Some (a_lease_expires_at a).
Proof.
  intros [_ Hcur _] [Hm _] id r Hr Hlive. destruct (Hm id); simplify_eq.
  - rewrite Hrun in Hr. rewrite Hattempts. by apply Hcur.
  - rewrite Hruns', lookup_insert_eq in Hr. simplify_eq. by rewrite Hstate' in Hlive.
  - cbn in Hlive. by rewrite Hstate in Hlive.
  - by destruct Hstate' as [Hs|Hs]; rewrite Hs in Hlive.
  - by rewrite Hstate' in Hlive.
  - exists a'. destruct Hclaim. split_and!; try done.
    by rewrite claim_state0, claim_attempt_state0.
  - destruct Hreports, (Hcur _ _ Hrun Hlive0) as (a0 & Ha0 & _ & Hsame & Hexp). simplify_eq.
    destruct Hlease as [[Hk Ho]|[Hk _]]; [|congruence].
    exists a'. rewrite rep_attempt0. split; [done|]. split.
    { destruct Hcurrent as (? & ? & ?). split_and!; congruence. }
    destruct Hk.
    + split; congruence.
    + rewrite Hstate', Hattempt_state. split; [done|congruence].
Qed.

Lemma step_keeps_attempts d d' :
  consistent d -> step d d' ->
  forall id n a, attempts d' !! (id, n) = Some a ->
  exists r, runs d' !! id = Some r /\ n <= r_attempt r /\ a_fence a <= r_fence r
    /\ (n < r_attempt r -> a_fence a < r_fence r)
    /\ (attempt_is_live (a_state a) = true -> n = r_attempt r /\ is_live (r_state r) = true).
Proof.
  intros [_ Hcur Hatt] [Hm _] id n x Hx. destruct (Hm id); simplify_eq.
  - rewrite Hattempts in Hx. rewrite Hrun. by apply Hatt.
  - rewrite Hattempts in Hx. apply Hatt in Hx as (r0 & ? & _). congruence.
  - rewrite Hattempts in Hx. apply Hatt in Hx as (r0 & ? & ? & ? & ? & ?). simplify_eq.
    exists (note_counter_limit r0). done.
  - rewrite Hattempts in Hx. apply Hatt in Hx as (r0 & ? & ? & ? & ? & Hl). simplify_eq.
    destruct Hkept as (_ & Ha & Hf). exists r'. rewrite Ha, Hf. split_and!; try done.
    intros [_ Hl']%Hl. by rewrite Hstate in Hl'.
  - rewrite Hattempts in Hx. apply Hatt in Hx as (r0 & ? & ? & ? & ? & Hl). simplify_eq.
    destruct Hkept as (_ & Ha & Hf). exists r'. rewrite Ha, Hf. split_and!; try done.
    intros [_ Hl']%Hl. by destruct Hstate as [E|[E|E]]; rewrite E in Hl'.
  - destruct Hclaim as [_ Hs Ha Hf (_ & Hcf & _) _ _]. exists r'.
    destruct (decide (n = r_attempt r')) as [->|Hn].
    + simplify_eq. rewrite Hs. split_and!; try done; lia.
    + rewrite Hattempts in Hx by done. apply Hatt in Hx as (r0 & ? & ? & ? & ? & Hl).
      simplify_eq. split_and!; try done; try lia.
      intros [_ Hl']%Hl. by rewrite Hstate in Hl'.
  - destruct Hreports, Hcurrent as (_ & Hcf & _). exists r'.
    rewrite rep_attempt0, rep_fence0.
    destruct (decide (n = r_attempt r)) as [->|Hn].
    + rewrite Hattempt' in Hx. injection Hx as <-. split_and!; try done; try lia.
      intros Hl. destruct Hlease as [[Hk _]|[_ Hk]]; [|congruence]. split; [done|].
      destruct Hk as [|? Hs' ? ? ?]; [congruence|by rewrite Hs'].
    + rewrite Hattempts in Hx by done. apply Hatt in Hx as (r0 & ? & ? & ? & ? & Hl).
      simplify_eq. split_and!; try done. by intros [? _]%Hl.
Qed.

Lemma step_consistent d d' : consistent d -> step d d' -> consistent d'.
Proof.
  intros Hc Hs. split.
  - destruct Hs as (_ & Hrows & _), Hc. by apply Hrows.
  - by eapply step_keeps_current.
  - by eapply step_keeps_attempts.
Qed.

Lemma steps_consistent d d' : rtc step d d' -> consistent d -> consistent d'.
Proof. induction 1; eauto using step_consistent. Qed.

(** ** Who may write *)

(** The binding is the live lease of its run at the time it is presented. *)
Definition is_holder (b : RunLeaseBinding) (now : Z) (d : Db) : Prop :=
  exists r t, runs d !! run_id b = Some r /\ bound_run b (run_id b) r = true
    /\ is_live (r_state r) = true /\ r_lease_expires_at r = Some t /\ now < t.

Definition guarded {A} (b : RunLeaseBinding) (now : Z) (m : Tx A) : Prop :=
  forall w r w', m w = (r, w') -> keeps (db w) (db w') \/ is_holder b now (db w).

Lemma guarded_quiet {A} b now (m : Tx A) : quiet m -> guarded b now m.
Proof. intros Hm w r w' E. left. by eapply Hm. Qed.

Lemma guarded_bind {A B} b now (m : Tx A) (k : A -> Tx B) :
  quiet m -> (forall a, guarded b now (k a)) -> guarded b now (bind m k).
Proof.
  intros Hm Hk w r w' Hb. unfold bind in Hb. destruct (m w) as [[a|e] w1] eqn:E.
  - apply Hm in E as Hkeep. destruct (Hk a _ _ _ Hb) as [Hk'|(x & t & Hx & ?)].
    + left. by eapply keeps_trans.
    + right. exists x, t. destruct Hkeep as (<- & _). done.
  - injection Hb as _ <-. left. by eapply Hm.
Qed.

Lemma guarded_fenced {A} b now (body : Tx (Ending (option A))) :
  (forall w x w', body w = (Ok (Commit x), w') ->
    keeps (db w) (db w') \/ is_holder b now (db w)) ->
  guarded b now (or_lost_lease (transaction body)).
Proof.
  intros Hbody w r w' [Hk|(x & w0 & w1 & <- & Hb & Hk)]%or_lost_lease_cases; [by left|].
  apply Hbody in Hb as [Hk'|Hh]; [left; by eapply keeps_trans|by right].
Qed.

Lemma fenced_holder {A} b now runs_where set_run attempts_where set_attempt
    (finish : Tx A) w x w' :
  (forall id r, runs_where id r = true -> bound_run b id r = true
    /\ is_live (r_state r) = true /\ exists t, r_lease_expires_at r = Some t /\ now < t) ->
  (forall key a, attempts_where key a = true -> bound_attempt b key a = true) ->
  quiet finish ->
  fenced_update (update_runs runs_where set_run) (update_attempts attempts_where set_attempt)
    finish w = (Ok (Commit x), w') ->
  is_holder b now (db w).
Proof.
  intros Hw Hv Hq Hf. eapply (fenced_update_ok b) in Hf as (r & a & Hr & Wr & _);
    [|naive_solver..].
  apply Hw in Wr as (? & ? & t & ? & ?). exists r, t. done.
Qed.

(** The mutations under [holds_run]. *)
Lemma held_holder {A} b s s' now set_run set_attempt (finish : Tx A) w x w' :
  is_live s = true -> quiet finish ->
  fenced_update (update_runs (holds_run b s now) set_run)
    (update_attempts (holds_attempt b s' now) set_attempt) finish w = (Ok (Commit x), w') ->
  is_holder b now (db w).
Proof.
  intros Hs Hq. apply fenced_holder; [| |done].
  - intros id r (? & -> & ?)%holds_run_facts. done.
  - by intros key a (? & _)%holds_attempt_facts.
Qed.

Lemma heartbeat_guarded b now expires : guarded b now (heartbeat_scheduled_run b now expires).
Proof.
  apply guarded_bind; [apply quiet_lift|intros _].
  destruct (_ <=? _); [apply guarded_quiet, quiet_fail|].
  apply guarded_fenced. intros w x w' Hf. right. revert Hf.
  apply fenced_holder; [| |apply quiet_ret].
  - intros id r Hw. bool_facts. split_and!; [done..|]. unfold after in *.
    destruct (r_lease_expires_at r) as [t|]; [|done]. exists t. split; [done|]. lia.
  - intros key a Hw. by bool_facts.
Qed.

Lemma mark_guarded b profile now : guarded b now (mark_scheduled_run_executing b profile now).
Proof.
  do 2 (apply guarded_bind; [apply quiet_lift|intros _]).
  apply guarded_fenced. intros w x w' Hf. right. revert Hf. by apply held_holder, quiet_ret.
Qed.

(** A body that reads before it mutates. *)
Lemma committed_guarded {A B} b now (m : Tx A) (k : A -> Tx B) w x w' :
  quiet m ->
  (forall a w1, k a w1 = (Ok x, w') -> keeps (db w1) (db w') \/ is_holder b now (db w1)) ->
  bind m k w = (Ok x, w') -> keeps (db w) (db w') \/ is_holder b now (db w).
Proof.
  intros Hm Hk (a & w1 & Ha & Hb)%bind_ok. apply Hm in Ha as Hkeep.
  destruct (Hk _ _ Hb) as [Hk'|(r & t & Hr & ?)].
  - left. by eapply keeps_trans.
  - right. exists r, t. destruct Hkeep as (<- & _). done.
Qed.

Lemma preflight_guarded b disposition retryable kind message now :
  guarded b now
    (record_scheduled_run_preflight_failure_inner b disposition retryable kind message now).
Proof.
  do 2 (apply guarded_bind; [apply quiet_lift|intros _]).
  destruct (_ >? _); [apply guarded_quiet, quiet_fail|].
  apply guarded_fenced. intros w x w'. apply committed_guarded; [apply quiet_choose|].
  intros [[retry_at|]|] w1 Hf; [| |by tx_step Hf].
  - destruct (_ >? _); [|by tx_step Hf]. right. revert Hf. by apply held_holder, quiet_ret.
  - right. revert Hf. by apply held_holder, quiet_ret.
Qed.

Lemma outcome_guarded b disposition kind message now random :
  guarded b now (record_scheduled_run_execution_outcome b disposition kind message now random).
Proof.
  do 2 (apply guarded_bind; [apply quiet_lift|intros _]).
  destruct (_ >? _); [apply guarded_quiet, quiet_fail|].
  destruct (invalid_retry _ _); [apply guarded_quiet, quiet_fail|].
  apply guarded_fenced. intros w x w'. apply committed_guarded; [apply quiet_query|].
  intros [[r a]|] w1.
  - apply committed_guarded; [apply quiet_lift|]. intros t w2 Hf. right. revert Hf.
    by apply held_holder, quiet_ret.
  - intros Hf. left.
    by eapply (quiet_bind _ _ (quiet_late_completion _ _ _ _) (fun _ => quiet_ret _)).
Qed.

Lemma complete_guarded b result completed_at random :
  guarded b completed_at (complete_scheduled_run_success b result completed_at random).
Proof.
  intros w r w' [[_ Hk]|(_ & run & a & targets & v & _ & [])]%complete_cases; [by left|].
  right. apply holds_run_facts in acc_holds0 as (Hb & Hs & t & Ht & Hlt).
  exists run, t. by rewrite Hs.
Qed.

Lemma presents_guarded c b now w :
  presents c = Some (b, now) -> keeps (db w) (db (perform c w)) \/ is_holder b now (db w).
Proof.
  assert (forall A (m : Tx A), guarded b now m -> keeps (db w) (db (m w).2)
    \/ is_holder b now (db w)) as Hany.
  { intros A m Hm. destruct (m w) as [r w'] eqn:E. by eapply Hm. }
  destruct c; intros [= -> ->]; cbn [perform]; apply Hany.
  - apply heartbeat_guarded.
  - apply mark_guarded.
  - apply preflight_guarded.
  - apply outcome_guarded.
  - apply complete_guarded.
Qed.

(** *** What a step keeps of a run *)

Lemma steps_log d d' : rtc step d d' -> log_grows d d'.
Proof. induction 1 as [|d d1 d' (_ & _ & Hl) _ IH]; [done|by etrans]. Qed.

Lemma step_run d d' id r :
  step d d' -> runs d !! id = Some r ->
  exists r', runs d' !! id = Some r' /\ r_snapshot r' = r_snapshot r
    /\ r_fence r <= r_fence r' /\ r_attempt r <= r_attempt r'
    /\ (r_state r <> Pending -> is_live (r_state r) = false ->
        r' = r \/ retry_on_record d' id (r_attempt r) (r_fence r) /\ revivable (r_state r)).
Proof.
  intros [Hm _] Hr. destruct (Hm id); simplify_eq.
  - exists r. rewrite Hrun. split_and!; try done. by left.
  - exists (note_counter_limit r). split_and!; done.
  - destruct Hkept as (? & ? & ?). exists r'. split_and!; try done; lia.
  - destruct Hkept as (? & ? & ?). exists r'. split_and!; try done; try lia. by right.
  - destruct Hclaim. exists r'. split_and!; try done; lia.
  - destruct Hreports. exists r'. split_and!; try done; try lia. congruence.
Qed.

Lemma steps_run d d' id r :
  rtc step d d' -> runs d !! id = Some r ->
  exists r', runs d' !! id = Some r' /\ r_snapshot r' = r_snapshot r
    /\ r_fence r <= r_fence r' /\ r_attempt r <= r_attempt r'
    /\ (r_state r <> Pending -> is_live (r_state r) = false ->
        r' = r \/ retry_on_record d' id (r_attempt r) (r_fence r) /\ revivable (r_state r)).
Proof.
  intros Hsteps. revert r. induction Hsteps as [|d d1 d2 Hs Hrest IH]; intros r Hr.
  { exists r. split_and!; try done. by left. }
  destruct (step_run _ _ _ _ Hs Hr) as (r1 & Hr1 & Hsn & Hf & Ha & Hstop).
  destruct (IH _ Hr1) as (r2 & Hr2 & Hsn2 & Hf2 & Ha2 & Hstop2).
  exists r2. split_and!; try done; try lia; [congruence|].
  intros Hp Hl. destruct (Hstop Hp Hl) as [->|[? ?]]; [by auto|].
  right. split; [|done]. eapply retry_stays_on_record; [|done]. by apply steps_log.
Qed.

(** *** Executing again *)

Lemma attested_ext id r r' a a' :
  r_snapshot r' = r_snapshot r -> r_attempt r' = r_attempt r -> r_fence r' = r_fence r ->
  a_lease_owner a' = a_lease_owner a -> a_attested_profile a' = a_attested_profile a ->
  attested id r' a' -> attested id r a.
Proof. unfold attested. by intros -> -> -> -> ->. Qed.

(** Where an execution can be after one step, or after any number. *)
Inductive after_execution (id : string) (r : Run) (a : Attempt) (d' : Db) : Prop :=
| still_executing r' a'
    (Hrun' : runs d' !! id = Some r') (Hstate' : r_state r' = Executing)
    (Hsnapshot : r_snapshot r' = r_snapshot r) (Hattempt_same : r_attempt r' = r_attempt r)
    (Hfence_same : r_fence r' = r_fence r)
    (Hattempt' : attempts d' !! (id, r_attempt r) = Some a')
    (Howner : a_lease_owner a' = a_lease_owner a)
    (Hprofile : a_attested_profile a' = a_attested_profile a)
| stopped r'
    (Hrun' : runs d' !! id = Some r') (Hstop : r_state r' <> Pending)
    (Hlive : is_live (r_state r') = false) (Hattempt_same : r_attempt r' = r_attempt r)
    (Hfence_same : r_fence r' = r_fence r)
| may_repeat (Hattested : attested id r a)
| is_retried (Hrecord : retry_on_record d' id (r_attempt r) (r_fence r)).

Lemma step_after_execution d d' id r a :
  step d d' -> runs d !! id = Some r -> r_state r = Executing ->
  attempts d !! (id, r_attempt r) = Some a -> after_execution id r a d'.
Proof.
  intros [Hm _] Hr Hs Ha. destruct (Hm id); simplify_eq.
  - apply still_executing with r a; try done; [congruence|]. by rewrite Hattempts.
  - congruence.
  - congruence.
  - destruct Hstate as [E|[E|E]]; congruence.
  - congruence.
  - destruct Hreports. destruct Hlease as [[[] Ho]|[Hl _]].
    + apply still_executing with r' a'; auto; congruence.
    + congruence.
    + destruct (decide (r_state r' = Pending)); [by apply may_repeat, Hsafe|].
      by apply stopped with r'.
Qed.

Lemma steps_after_execution d d' id r a :
  rtc step d d' -> runs d !! id = Some r -> r_state r = Executing ->
  attempts d !! (id, r_attempt r) = Some a -> after_execution id r a d'.
Proof.
  intros Hsteps. revert r a. induction Hsteps as [d|d d1 d2 Hs Hrest IH]; intros r a Hr Hst Ha.
  { by apply still_executing with r a. }
  destruct (step_after_execution _ _ _ _ _ Hs Hr Hst Ha).
  - rewrite <-Hattempt_same in Hattempt'.
    destruct (IH _ _ Hrun' Hstate' Hattempt') as [r2 a2|r2| |].
    + apply still_executing with r2 a2; congruence.
    + apply stopped with r2; congruence.
    + apply may_repeat. by eapply attested_ext.
    + apply is_retried. by rewrite <-Hattempt_same, <-Hfence_same.
  - destruct (steps_run _ _ _ _ Hrest Hrun') as (r2 & Hr2 & _ & _ & _ & Heq).
    destruct (Heq Hstop Hlive) as [->|[? _]]; [by apply stopped with r'|].
    apply is_retried. by rewrite <-Hattempt_same, <-Hfence_same.
  - by apply may_repeat.
  - apply is_retried. eapply retry_stays_on_record; [|done]. by apply steps_log.
Qed.

(** *** The first row of an order *)

Lemma first_by_least {A} (before : A -> A -> bool) (l : list A) x :
  (forall x y, before x y = false -> before y x = true) ->
  (forall x y z, before x y = true -> before y z = true -> before x z = true) ->
  first_by before l = Some x -> forall y, y ∈ l -> before x y = true.
Proof.
  intros Htotal Htrans. revert x. induction l as [|z l IH]; intros x; cbn; [done|].
  assert (forall y, before y y = true) as Hrefl.
  { intros y. destruct (before y y) eqn:E; [done|]. by rewrite <-E, (Htotal _ _ E). }
  destruct (first_by before l) as [m|] eqn:Em.
  - specialize (IH m eq_refl). destruct (before z m) eqn:E; intros [= <-] y
      [->|Hy]%elem_of_cons; eauto.
  - intros [= <-] y [->|Hy]%elem_of_cons; [done|]. destruct l as [|w l]; [by apply elem_of_nil in Hy|].
    cbn in Em. destruct (first_by before l); [destruct (before w a)|]; done.
Qed.

Lemma text_compare_trans a b c :
  String.compare a b = Lt -> String.compare b c = Lt -> String.compare a c = Lt.
Proof. apply (@StrictOrder_Transitive _ _ OrdersEx.String_as_OT.lt_strorder). Qed.

Lemma text_compare_refl a : String.compare a a = Eq.
Proof.
  pose proof (String.compare_antisym a a). by destruct (String.compare a a).
Qed.

Lemma claims_before_spec x y :
  claims_before x y = true <->
  s_scheduled_for (r_snapshot x.2) < s_scheduled_for (r_snapshot y.2)
  \/ (s_scheduled_for (r_snapshot x.2) = s_scheduled_for (r_snapshot y.2)
      /\ (String.compare x.1 y.1 = Lt \/ x.1 = y.1)).
Proof.
  unfold claims_before. destruct (Z.compare_spec (s_scheduled_for (r_snapshot x.2))
    (s_scheduled_for (r_snapshot y.2))) as [Heq|Hlt|Hgt].
  - destruct (String.compare x.1 y.1) eqn:E.
    + apply String.compare_eq_iff in E. naive_solver.
    + naive_solver.
    + split; [done|]. intros [?|(_ & [?|He])]; [lia|done|].
      by rewrite He, text_compare_refl in E.
  - naive_solver lia.
  - split; [done|]. naive_solver lia.
Qed.

Lemma earliest_is_least now t x :
  first_by claims_before (matching (claimable now) t) = Some x ->
  forall id r, t !! id = Some r -> claimable now id r = true -> claims_before x (id, r) = true.
Proof.
  intros Hf id r Hr Hc. eapply (first_by_least claims_before); [| |exact Hf|].
  - intros y z Hyz. apply claims_before_spec. unfold claims_before in Hyz.
    destruct (Z.compare_spec (s_scheduled_for (r_snapshot y.2))
      (s_scheduled_for (r_snapshot z.2))); [|done|by left].
    right. split; [done|]. left. rewrite String.compare_antisym.
    destruct (String.compare y.1 z.1); done.
  - intros a b c Hab%claims_before_spec Hbc%claims_before_spec. apply claims_before_spec.
    destruct Hab as [?|(? & Hab)], Hbc as [?|(? & Hbc)]; [left; lia|left; lia|left; lia|].
    right. split; [lia|]. destruct Hab as [Hab| ->], Hbc as [Hbc|Heq].
    + left. by eapply text_compare_trans.
    + left. by rewrite <-Heq.
    + by left.
    + by right.
  - by apply elem_of_matching.
Qed.

(** *** A claim that was handed out *)

Lemma commit_admitted_ok {A} admission readings (a : A) w e w' :
  commit_admitted admission readings a w = (Ok e, w') ->
  e = Commit a /\ db w' = db w
  /\ forall m, admission = Some m -> cancelled_at_commit readings = false
     /\ clock_at_commit readings < m_operation_deadline m
     /\ epoch_is_exact m (clock_at_commit readings) (db w) = true.
Proof.
  intros (u & w1 & Hc & Hf)%bind_ok. apply bind_ok in Hf as (v & w2 & Hr & Hf). tx_step Hf.
  unfold ensure_executor_admission_not_cancelled in Hc.
  destruct admission as [m|]; cbn in Hc, Hr; [|repeat tx_step Hc; repeat tx_step Hr; done].
  destruct (cancelled_at_commit readings) eqn:Hcan; tx_step Hc.
  destruct (_ || _) eqn:E; [by tx_step Hr|]. bool_facts.
  apply bind_ok in Hr as (exact & w3 & [-> Hd]%query_ok & Hr).
  destruct (epoch_is_exact _ _ _) eqn:Hex; tx_step Hr.
  split_and!; [done..|]. intros m' [= <-]. split_and!; try done; lia.
Qed.

Lemma claim_body_commits owner lease admission readings w e w' :
  claim_body owner lease admission readings w = (Ok e, w') -> exists a, e = Commit a.
Proof.
  intros Hf. unfold claim_body in Hf. do 3 apply bind_ok in Hf as (? & ? & _ & Hf).
  apply bind_ok in Hf as (row & w1 & _ & Hf). destruct row as [[id r]|].
  - unfold claim_found in Hf. do 4 apply bind_ok in Hf as (? & ? & _ & Hf).
    apply commit_admitted_ok in Hf as (-> & _). eauto.
  - unfold claim_nothing in Hf. apply bind_ok in Hf as (exhausted & w2 & _ & Hf).
    destruct exhausted; [do 2 apply bind_ok in Hf as (? & ? & _ & Hf)|];
      apply commit_admitted_ok in Hf as (-> & _); eauto.
Qed.

Lemma claim_of_snapshot_binding b s claimed :
  claim_of_snapshot b s = Ok claimed -> binding claimed = b.
Proof. unfold claim_of_snapshot. intros Hc. peel Hc. Qed.

(** The runs a claim chooses from: those that are left when it does not bring
    its own lease, and so expires first. *)
Definition waiting_runs (lease : option Z) (now : Z) (t : gmap string Run) : gmap string Run :=
  if is_some lease then t else update_rows (expire_where now) (expire_set now) t.

(** What a claim hands out, and what it writes. *)
Record hands_out (owner : string) (lease : option Z)
    (admission : option ScheduledExecutorAdmission) (readings : Readings)
    (claim : ClaimedScheduledRun) (r : Run) (expires : Z) (d d' : Db) : Prop := {
  ho_waiting : waiting_runs lease (clock_at_mutation readings) (runs d)
    !! run_id (binding claim) = Some r;
  ho_claimable : claimable (clock_at_mutation readings) (run_id (binding claim)) r = true;
  ho_earliest : forall id' r',
    waiting_runs lease (clock_at_mutation readings) (runs d) !! id' = Some r' ->
    claimable (clock_at_mutation readings) id' r' = true ->
    claims_before (run_id (binding claim), r) (id', r') = true;
  ho_within_policy : lease = None ->
    past_deadline (clock_at_mutation readings) r = false /\ attempts_spent r = false;
  ho_binding : binding claim = mkLeaseBinding (run_id (binding claim))
    (s_job_id (r_snapshot r)) (r_attempt r + 1) (r_fence r + 1) owner;
  ho_lease : claim_lease (stdpp.option.default (clock_at_mutation readings) lease)
    (clock_at_mutation readings) r = Some expires;
  ho_runs : runs d' = <[run_id (binding claim) := claim_set owner
      (stdpp.option.default (clock_at_mutation readings) lease)
      (clock_at_mutation readings) r]>
    (waiting_runs lease (clock_at_mutation readings) (runs d));
  ho_new : attempts d !! (run_id (binding claim), r_attempt r + 1) = None;
  ho_attempts : attempts d' = <[(run_id (binding claim), r_attempt r + 1) :=
      fresh_attempt (binding claim) (clock_at_mutation readings) expires]> (attempts d);
  ho_admitted : forall m, admission = Some m ->
    cancelled_at_commit readings = false
    /\ clock_at_commit readings < m_operation_deadline m
    /\ epoch_is_exact m (clock_at_commit readings) d' = true
}.

Lemma claim_found_hands_out owner lease admission readings d0 id r' w claim w' :
  (lease = None -> forall id r, runs d0 !! id = Some r ->
    expire_where (clock_at_mutation readings) id r = false) ->
  claim_row owner (stdpp.option.default (clock_at_mutation readings) lease)
    (clock_at_mutation readings) d0 = Ok (Some (id, r'), db w) ->
  claim_found owner admission readings id r' w = (Ok (Commit (Ok (Some claim))), w') ->
  forall d, runs d0 = waiting_runs lease (clock_at_mutation readings) (runs d) ->
  attempts d0 = attempts d ->
  exists r expires, hands_out owner lease admission readings claim r expires d (db w').
Proof.
  intros Hexp Hrow Hf d Hruns Hatts.
  pose proof (claim_found_commit _ _ _ _ _ _ _ _ _ _ Hrow Hf) as (expires & He & Hn & Hr' & Ha' & _).
  apply claim_row_some in Hrow as (r & Hfirst & Hr & Hcl & -> & Hruns' & _ & _ & _ & _).
  unfold claim_found in Hf. do 3 apply bind_ok in Hf as (? & ? & _ & Hf).
  apply bind_ok in Hf as (claimed & w4 & [Hclaim <-]%lift_ok & Hf).
  apply commit_admitted_ok in Hf as ([= <-] & Hd & Hadm).
  apply claim_of_snapshot_binding in Hclaim. cbn in Hclaim.
  exists r, expires. cbn in *.
  split; rewrite ?Hclaim, <-?Hruns, <-?Hatts; cbn; try done; try congruence.
  - intros id' r' Hr0 Hc0. by eapply earliest_is_least.
  - intros Hl. specialize (Hexp Hl _ _ Hr). unfold expire_where in Hexp.
    apply andb_true_iff in Hcl as [Hdue _]. rewrite Hdue in Hexp. cbn in Hexp. by bool_facts.
  - intros m Hm. rewrite Hd. by apply Hadm.
Qed.

Lemma expire_leaves now w n w' :
  update_runs (expire_where now) (expire_set now) w = (Ok n, w') ->
  forall id r, runs (db w') !! id = Some r -> expire_where now id r = false.
Proof.
  intros (_ & Hr & _)%sql_ok%runs_updated_ok id r. rewrite Hr, lookup_update_rows.
  destruct (runs (db w) !! id) as [r0|]; [|done]. cbn. intros [= <-].
  by destruct (expire_where now id r0) eqn:E.
Qed.

(** ** The guarantees *)

(** A call that presents a binding writes only while that binding is the
    live lease of its run: same run, job, attempt, fence and owner, and a lease
    that ends after the time of the call. *)
Theorem only_the_holder_writes c w b now :
  presents c = Some (b, now) -> ~ keeps (db w) (db (perform c w)) ->
  exists r t, runs (db w) !! run_id b = Some r /\ bound_run b (run_id b) r = true
    /\ is_live (r_state r) = true /\ r_lease_expires_at r = Some t /\ now < t.
Proof. intros Hp Hk. by destruct (presents_guarded c b now w Hp). Qed.

(** C30. A claim that is handed out is the earliest eligible run in the order of
    [(scheduled_for, run_id)], under an attempt and a fence exactly one higher
    than the run had, inside its policy's deadline and attempts when the lease
    comes from the snapshot, and only while the executor's admission was valid
    at commit; the tables then hold exactly that lease and its new attempt. *)
Theorem claim_exact owner now lease admission readings w claim w' :
  claim_next_scheduled_run_inner owner now lease admission readings w = (Ok (Some claim), w') ->
  exists r expires, hands_out owner lease admission readings claim r expires (db w) (db w').
Proof.
  intros (u & w1 & [_ <-]%lift_ok & Hf)%bind_ok.
  destruct (match lease with Some _ => _ | None => _ end); [by tx_step Hf|].
  apply bind_ok in Hf as (o & w2 & Ht & [-> <-]%lift_ok).
  apply transaction_cases in Ht as [(x & w0 & w3 & [= <-] & <- & Hb & ->)|[_ Hb]].
  2:{ destruct (Hb _ eq_refl) as (w0 & w3 & _ & [Hc|Hc]);
        apply claim_body_commits in Hc as [? [=]]. }
  unfold claim_body in Hb.
  apply bind_ok in Hb as (u1 & w4 & (Hr4 & Ha4 & _)%quiet_acquire & Hb).
  apply bind_ok in Hb as (u2 & w5 & (Hr5 & Ha5 & _)%quiet_not_cancelled & Hb).
  apply bind_ok in Hb as (n & w6 & He & Hb).
  apply bind_ok in Hb as (row & w7 & Hrow%sql_ok & Hb). destruct row as [[id r]|].
  - eapply claim_found_hands_out; [|exact Hrow|exact Hb| |].
    + intros ->. by eapply expire_leaves.
    + unfold waiting_runs. destruct lease; cbn [is_some] in *; [tx_step He; congruence|].
      apply sql_ok, runs_updated_ok in He as (_ & -> & _). congruence.
    + destruct lease; cbn [is_some] in *; [tx_step He; congruence|].
      apply sql_ok, runs_updated_ok in He as (_ & _ & -> & _). congruence.
  - unfold claim_nothing in Hb. apply bind_ok in Hb as (exhausted & w8 & _ & Hb).
    destruct exhausted; [do 2 apply bind_ok in Hb as (? & ? & _ & Hb)|];
      by apply commit_admitted_ok in Hb as ([=] & _).
Qed.

(** C29. A completion either commits, and then wrote all of it (the artifact with
    its hash, the baseline advanced by one from the version the run was frozen
    with, one intent per frozen target, the attempt and the run succeeded), for
    a run that had no artifact; or it reports something else and changed
    nothing but counters and late evidence. *)
Theorem completion_exact b result completed_at random w r w' :
  complete_scheduled_run_success b result completed_at random w = (r, w') ->
  (r <> Ok Committed /\ keeps (db w) (db w'))
  \/ (r = Ok Committed /\ exists run a targets expected_version,
        completion_inputs result (f_result_json (result_artifact b result completed_at))
          completed_at run a = Ok (targets, expected_version)
        /\ accepts b result completed_at targets expected_version run a (db w) (db w')).
Proof. apply complete_cases. Qed.

(** ** A transition the schema refuses *)

Lemma or_lost_lease_ok {A} (body : Tx (Ending (option A))) w a w' :
  or_lost_lease (transaction body) w = (Ok a, w') ->
  exists e w0 w1, db w0 = db w /\ body w0 = (Ok e, w1)
    /\ (e = Commit (Some a) \/ e = Rollback (Some a) \/ e = Drop (Some a)).
Proof.
  intros (o & w1 & Ht & Ho)%bind_ok. destruct o as [a'|].
  2:{ apply bind_ok in Ho as (? & ? & _ & Ho). by tx_step Ho. }
  tx_step Ho. apply transaction_cases in Ht as [(x & w0 & w2 & [= <-] & Hd & Hb & _)|[_ Hb]].
  - eauto 10.
  - destruct (Hb _ eq_refl) as (w0 & w2 & Hd & [Hb'|Hb']); eauto 10.
Qed.

Lemma fenced_update_ends {A} run_update attempt_update (finish : Tx A) w e w' :
  fenced_update run_update attempt_update finish w = (Ok e, w') ->
  e = Rollback None \/ exists x, e = Commit x.
Proof.
  intros Hf. unfold fenced_update in Hf.
  do 2 (apply bind_ok in Hf as (? & ? & _ & Hf); destruct (negb _); [tx_step Hf; by left|]).
  apply bind_ok in Hf as (? & ? & _ & Hf). tx_step Hf. eauto.
Qed.

(** The CHECK on the error columns. *)
Lemma cancelled_with_error_rejected retry_at slot kind message now r :
  run_checks (release_run Cancelled retry_at slot (Some kind) message now r) = false.
Proof.
  unfold run_checks. cbn. by rewrite ?andb_false_r.
Qed.

Lemma cancelled_fenced b kind now (finish : Tx ScheduledRunExecutionOutcome)
    retry_at slot m set_attempt w e w' :
  quiet finish ->
  fenced_update
    (update_runs (holds_run b Executing now) (release_run Cancelled retry_at slot (Some kind) m now))
    (update_attempts (holds_attempt b AExecuting now) set_attempt) finish w = (Ok e, w') ->
  e = Rollback None.
Proof.
  intros Hq Hf. destruct (fenced_update_ends _ _ _ _ _ _ Hf) as [?|[x ->]]; [done|].
  eapply (fenced_update_ok b) in Hf as (r & a & _ & _ & _ & _ & _ & _ & _ & Hc & _);
    [|by intros id r (? & _)%holds_run_facts|by intros key a (? & _)%holds_attempt_facts|done].
  by rewrite cancelled_with_error_rejected in Hc.
Qed.

(** C38. An execution reported as cancelled is never recorded: the outcome writes
    an error kind, which the CHECK on [scheduled_runs] does not admit for a
    cancelled run, so the call fails and the run stays as it was. *)
Theorem cancelled_outcome_never_commits b kind message now random w r w' :
  record_scheduled_run_execution_outcome b (Terminal TerminalCancelled) kind message now random w
    = (r, w') ->
  keeps (db w) (db w') /\ forall terminal, r <> Ok (OutcomeTerminal terminal).
Proof.
  unfold record_scheduled_run_execution_outcome. set (body := bind (query _) _).
  assert (forall w e w', body w = (Ok e, w') -> e = Rollback None
    \/ (exists o, e = Commit (Some (OutcomeLateEvidence o)) /\ keeps (db w) (db w'))) as Hbody.
  { intros w0 e w1 (row & w2 & [-> Hd]%query_ok & Hf)%bind_ok. rewrite <-Hd.
    destruct (select_executing b now (db w0)) as [[run a]|].
    - apply bind_ok in Hf as (t & w3 & [[= <-] <-]%lift_ok & Hf). left.
      eapply cancelled_fenced; [apply quiet_ret|exact Hf].
    - apply bind_ok in Hf as (o & w3 & Hl & Hf). tx_step Hf. right. exists o.
      split; [done|]. by eapply quiet_late_completion. }
  intros Hf. split.
  - revert Hf. generalize (fun w r w' => or_lost_lease_cases body w r w'). intros Hcases.
    unfold bind at 1. destruct (lift _ w) as [[[]|] w1] eqn:El; injection El as _ <-;
      [|by intros [= _ <-]].
    unfold bind at 1. destruct (lift _ w) as [[[]|] w1] eqn:El; injection El as _ <-;
      [|by intros [= _ <-]].
    destruct (_ >? _); [by intros [= _ <-]|]. cbn [invalid_retry].
    intros [?|(x & w0 & w1 & <- & Hb & Hk)]%Hcases; [done|].
    apply Hbody in Hb as [?|(o & _ & ?)]; [done|by eapply keeps_trans].
  - intros terminal ->. do 2 apply bind_ok in Hf as (? & ? & _ & Hf).
    destruct (_ >? _); [by tx_step Hf|]. cbn [invalid_retry] in Hf.
    apply or_lost_lease_ok in Hf as (e & w0 & w1 & _ & Hb & He).
    apply Hbody in Hb as [->|(o & -> & _)]; naive_solver.
Qed.

End Histories.

(** ** Witnesses *)

Lemma consistent_start d :
  rows_ok d -> attempts d = ∅ ->
  (forall id r, runs d !! id = Some r -> is_live (r_state r) = false) -> consistent d.
Proof.
  intros Hrows Ha Hl. split; [done| |].
  - intros id r Hr Hlive. rewrite (Hl id r Hr) in Hlive. done.
  - intros id n a. rewrite Ha, lookup_empty. done.
Qed.

Definition sample_target : Value := json_object [
  ("address", json_object []); ("connector", Str "slack"); ("identity_digest", Str zeros64);
  ("kind", Str "channel"); ("provider", Str "slack"); ("resolver_digest", Str zeros64);
  ("resolver_version", json_u64 1); ("tenant", Str "tenant-1")].

Definition sample_baseline : Value := json_object [("baseline_version", json_u64 4)].

Definition sample_snapshot : RunSnapshot :=
  mkRunSnapshot "job-1" "schedule-1" 1 1 100 100 1 (print_value sample_definition) 1 zeros64
    (print_value sample_empty) (print_value (Arr [sample_target]))
    (Some (print_value sample_baseline)) 1 (print_value (policy_struct Policy.default))
    0 false 100.

Definition sample_result : ScheduledRunResult := mkRunResult "all is well" "context".

Definition sample_binding : RunLeaseBinding := mkLeaseBinding "run-1" "job-1" 1 1 "worker-1".

Definition sample_claimed : ClaimedScheduledRun :=
  mkClaim sample_binding "schedule-1" 1 1 100 100 1 (print_value sample_definition) 1 zeros64
    (print_value sample_empty) (print_value (Arr [sample_target])) (print_value sample_baseline)
    Policy.default.

Definition sample_authority_value : Value :=
  authority_value sample_claimed zeros64 (mkDigests zeros64 zeros64 zeros64 zeros64 zeros64 zeros64).

Definition sample_attestation : Value := json_object [
  ("authority", sample_authority_value); ("authority_digest", Str zeros64);
  ("schema_version", json_u64 1); ("side_effect_free", Bool true)].

#[local] Instance sample_serde : Serde :=
  serde_of [sample_definition; sample_empty; sample_baseline; sample_target; Arr [sample_target];
            sample_authority_value; sample_attestation; policy_struct Policy.default;
            result_value sample_result].

#[local] Instance sample_sha2 : Sha2 := Capability.zero_sha2.

(** SQLite's JSON functions, over the same documents. *)
#[local] Instance sample_sqlite : Sqlite := {|
  json_valid text := is_some (from_slice text);
  json_extract_integer text field := (from_slice text ≫= get field) ≫= as_u64;
  json_extract_text text field := (from_slice text ≫= get field) ≫= as_str;
  json_minify text := if is_some (from_slice text) then Some text else None;
  json_elements text :=
    match from_slice text ≫= as_array with Some l => map display l | None => [] end;
  json_type text field :=
    match from_slice text ≫= get field with
    | Some (Str _) => Some "text"
    | Some v => if is_some (as_u64 v) then Some "integer" else None
    | None => None
    end;
  json_root_type text :=
    v ← from_slice text;
    Some (if is_some (as_array v) then "array" else if is_some (as_object v) then "object" else "other");
  datetime_unixepoch t := if t <? 0 then None else Some (pretty t)
|}.

Definition sample_waiting : Run :=
  mkRun sample_snapshot Pending 0 0 None None None (Some 1) None None None 100 false.

Definition sample_leased (attempt fence : Z) : Run :=
  mkRun sample_snapshot Leased attempt fence None (Some "worker-1") (Some 200) (Some 1) None None
    None 110 false.

Definition sample_executing : Run :=
  mkRun sample_snapshot Executing 1 1 None (Some "worker-1") (Some 200) (Some 1) None None None
    120 false.

Definition sample_profile : AttestedExecutionProfileSnapshot :=
  mkAttestedProfile 1 (print_value sample_attestation) "sha256-v1" zeros64.

Definition sample_attempt (state : AttemptState) (fence : Z) : Attempt :=
  mkAttempt "job-1" fence "worker-1" state 110 200 None
    (match state with AExecuting => Some 120 | _ => None end) None
    (match state with AExecuting => Some sample_profile | _ => None end) None None.

Definition sample_world (run : Run) (l : list (string * Z * Attempt)) : World :=
  mkWorld (mkDb {["run-1" := run]} (list_to_map l) [] ∅ {["job-1" := mkBaseline 4 None]} ∅ ∅ ∅ ∅ ∅
    ∅ ∅ ∅ ∅ ∅ ∅ (Some 0) None {["stale_fence_rejected" := 0]}) [].

Definition waiting_world : World := sample_world sample_waiting [].
Definition leased_world : World :=
  sample_world (sample_leased 2 2)
    [("run-1", 1, mkAttempt "job-1" 1 "worker-1" LeaseExpired 50 60 None None (Some 70) None
        (Some "preflight_lease_expired") None);
     ("run-1", 2, sample_attempt ALeased 2)].
Definition executing_world : World :=
  sample_world sample_executing [("run-1", 1, sample_attempt AExecuting 1)].

Example claim_in_waiting_world :
  (claim_next_scheduled_run "worker-1" 110 200 waiting_world).1 = Ok (Some sample_claimed).
Proof. vm_compute. reflexivity. Qed.

Example complete_in_executing_world :
  (complete_scheduled_run_success sample_binding sample_result 130 "r" executing_world).1
    = Ok Committed.
Proof. vm_compute. reflexivity. Qed.

Example retry_in_executing_world :
  (record_scheduled_run_execution_outcome sample_binding
    (ExecutionRetryAt 160 3000 3 TerminalFailed) "transport" "reset" 130 "r" executing_world).1
    = Ok OutcomeRetried.
Proof. vm_compute. reflexivity. Qed.

Example cancelled_in_executing_world :
  (record_scheduled_run_execution_outcome sample_binding
    (Terminal TerminalCancelled) "cancelled" "by operator" 130 "r" executing_world).1
    = Err (Scheduler Constraint).
Proof. vm_compute. reflexivity. Qed.

Lemma waiting_world_consistent : consistent (db waiting_world).
Proof.
  apply consistent_start; [|done|].
  - split; [|vm_compute; reflexivity]. intros id r Hr.
    cbn in Hr. by apply lookup_singleton_Some in Hr as [_ <-].
  - intros id r Hr. cbn in Hr. by apply lookup_singleton_Some in Hr as [_ <-].
Qed.

Definition sample_calls : list Call := [
  Claim "worker-1" 110 (Some 200) None (steady 110);
  Heartbeat sample_binding 120 260;
  MarkExecuting sample_binding sample_profile 125;
  ExecutionOutcome sample_binding (Terminal TerminalOutcomeUnknown) "transport" "reset" 130 "r"].

Lemma only_the_holder_writes_witness :
  let b := mkLeaseBinding "run-1" "job-1" 2 2 "worker-1" in
  exists r t, runs (db leased_world) !! "run-1" = Some r /\ bound_run b "run-1" r = true
    /\ is_live (r_state r) = true /\ r_lease_expires_at r = Some t /\ 150 < t.
Proof.
  intros b. apply (only_the_holder_writes (Heartbeat b 150 300) leased_world b 150).
  - reflexivity.
  - intros (Hr & _). apply (f_equal (fun t => r_lease_expires_at <$> t !! "run-1")) in Hr.
    vm_compute in Hr. discriminate.
Defined.

Definition sample_unknown : Run :=
  mkRun sample_snapshot OutcomeUnknown 1 1 None None None (Some 1) None
    (Some "execution_lease_expired") None 210 false.

Lemma claim_exact_witness :
  exists r expires, hands_out "worker-1" (Some 200) None (steady 110) sample_claimed r expires
    (db waiting_world)
    (db (claim_next_scheduled_run_inner "worker-1" 110 (Some 200) None (steady 110)
           waiting_world).2).
Proof.
  apply (claim_exact "worker-1" 110 (Some 200) None (steady 110) waiting_world sample_claimed).
  vm_compute. reflexivity.
Defined.

Lemma completion_exact_witness :
  exists run a targets expected_version,
    accepts sample_binding sample_result 130 targets expected_version run a (db executing_world)
      (db (complete_scheduled_run_success sample_binding sample_result 130 "r"
             executing_world).2).
Proof.
  destruct (completion_exact sample_binding sample_result 130 "r" executing_world (Ok Committed)
    (complete_scheduled_run_success sample_binding sample_result 130 "r" executing_world).2)
    as [[Hne _]|(_ & run & a & targets & v & _ & Hacc)].
  - vm_compute. reflexivity.
  - done.
  - exists run, a, targets, v. exact Hacc.
Defined.

Lemma cancelled_outcome_never_commits_witness :
  keeps (db executing_world)
    (db (record_scheduled_run_execution_outcome sample_binding (Terminal TerminalCancelled)
           "cancelled" "by operator" 130 "r" executing_world).2).
Proof.
  apply (cancelled_outcome_never_commits sample_binding "cancelled" "by operator" 130 "r"
    executing_world (Err (Scheduler Constraint))).
  vm_compute. reflexivity.
Defined.

End RunSafety.
