(* ===== verification/DeliveryTables.v ===== *)
(** * The delivery tables (crates/state/migrations, and the statements of
    crates/state/src/scheduler/store.rs that write them)

    The CHECK constraints, unique indexes and triggers that the migrations put
    on [scheduled_run_deliveries], [scheduled_delivery_attempts] and
    [scheduled_delivery_baselines], and the UPDATE, INSERT and upsert statements
    on them.  The row types are those of [Tables]. *)

From stdpp Require Import base tactics list strings numbers pretty gmap.
From Stdlib Require Import ZArith Lia Ascii.
From S2P Require Import Prelude.
From S2P Require Import Policy.
From S2P Require Import Schedule.
From S2P Require Import Json.
From S2P Require Import Digest.
From S2P Require Import Capability.
From S2P Require Import Authority.
From S2P Require Import Tables.
From S2P Require Import Runs.
From S2P Require Import Completion.
Import Digest.

Module DeliveryTables.
Import Schedule Snapshot Authority Tables Runs Completion.

Definition DELIVERY_PAYLOAD_SCHEMA_VERSION : Z := 1.
Definition DELIVERY_PAYLOAD_HASH_ALGORITHM : string := "sha256-utf8-exact-v1".
Definition READINESS_REJECTION_MESSAGE : string :=
  "provider rejected exact delivery target during readiness".

Definition state_as_str (s : ScheduledDeliveryState) : string :=
  match s with
  | DPending => "pending"
  | DSending => "sending"
  | DDelivered => "delivered"
  | DFailedRetryable => "failed_retryable"
  | DFailedTerminal => "failed_terminal"
  | DDeliveryUnknown => "delivery_unknown"
  | DSkippedNone => "skipped_none"
  | DSkippedUnchanged => "skipped_unchanged"
  end.

Definition state_from_str (value : string) : result StateError ScheduledDeliveryState :=
  if String.eqb value "pending" then Ok DPending
  else if String.eqb value "sending" then Ok DSending
  else if String.eqb value "delivered" then Ok DDelivered
  else if String.eqb value "failed_retryable" then Ok DFailedRetryable
  else if String.eqb value "failed_terminal" then Ok DFailedTerminal
  else if String.eqb value "delivery_unknown" then Ok DDeliveryUnknown
  else if String.eqb value "skipped_none" then Ok DSkippedNone
  else if String.eqb value "skipped_unchanged" then Ok DSkippedUnchanged
  else Err (invalid_state ("invalid delivery state " +:+ value)).

(** ** Keys *)

(** The baseline a rendered delivery is compared with. *)
Definition baseline_identity (r : Delivery) : option AcceptedDeliveryBaselineIdentity :=
  p ← d_payload r;
  let i := d_intent r in
  Some (mkBaselineIdentity (d_job_id i) (d_target_identity_digest i)
    (d_target_snapshot_digest_algorithm i) (d_target_snapshot_digest i)
    (d_delivery_policy_version i) (render_version p) (payload_hash_algorithm p)).

Definition accepted_baseline (d : Db) (r : Delivery) : option AcceptedDeliveryBaseline :=
  identity ← baseline_identity r;
  delivery_baselines d !! identity.

(** [exists (select 1 from scheduled_delivery_baselines ... and
    accepted_payload_digest = payload_digest)] *)
Definition unchanged (d : Db) (r : Delivery) : bool :=
  match d_payload r, accepted_baseline d r with
  | Some p, Some b => String.eqb (accepted_payload_digest b) (payload_digest p)
  | _, _ => false
  end.

(** The key of [idx_scheduled_delivery_active_baseline_identity]; a row with a
    NULL in it is not constrained. *)
Definition active_key (r : Delivery) : option (string * string * string * Z * Z * string) :=
  p ← d_payload r;
  let i := d_intent r in
  Some (d_job_id i, d_target_identity_digest i, d_target_snapshot_digest i,
        d_delivery_policy_version i, render_version p, payload_hash_algorithm p).

Definition is_sending (r : Delivery) : bool := bool_decide (d_state r = DSending).

Definition sending_key (r : Delivery) : option (string * string * string * Z * Z * string) :=
  if is_sending r then active_key r else None.

Definition active_unique (t : gmap string Delivery) : bool :=
  bool_decide (NoDup (omap (fun '(_, r) => sending_key r) (map_to_list t))).

(** [exists (select 1 from scheduled_run_deliveries active where active.state =
    'sending' and active.delivery_id <> ...)] *)
Definition blocked (d : Db) (id : string) (r : Delivery) : bool :=
  match active_key r with
  | Some key => existsb (fun '(id', r') => negb (String.eqb id' id)
                                            && bool_decide (sending_key r' = Some key))
                  (map_to_list (deliveries d))
  | None => false
  end.

(** ** Constraints *)

Definition is_failure (s : ScheduledDeliveryState) : bool :=
  match s with DFailedRetryable | DFailedTerminal | DDeliveryUnknown => true | _ => false end.

(** The states that need a payload and a claimed baseline. *)
Definition needs_claim (s : ScheduledDeliveryState) : bool :=
  match s with
  | DSending | DDelivered | DFailedRetryable | DDeliveryUnknown | DSkippedUnchanged => true
  | _ => false
  end.

Definition outcome_of (s : ScheduledDeliveryState) : option string :=
  match s with
  | DPending | DSending => None
  | DDelivered => Some "confirmed_success"
  | DFailedRetryable => Some "confirmed_no_write_retryable"
  | DFailedTerminal => Some "confirmed_no_write_terminal"
  | DDeliveryUnknown => Some "ambiguous_post_write"
  | DSkippedNone => Some "skipped_none"
  | DSkippedUnchanged => Some "skipped_unchanged"
  end.

(** The CHECK on [provider_outcome]: a missing outcome makes it NULL and
    passes. *)
Definition outcome_check (s : ScheduledDeliveryState) (outcome : option string) : bool :=
  match outcome with
  | None => true
  | Some _ => bool_decide (outcome = outcome_of s)
  end.

Definition is_text (o : option string) : bool :=
  match o with Some s => negb (is_empty s) | None => false end.

Definition nonnegative (o : option Z) : bool :=
  match o with Some v => 0 <=? v | None => true end.

Definition payload_checks (i : DeliveryIntent) (p : DeliveryPayload) : bool :=
  negb (is_empty (payload_snapshot p)) && (0 <? render_version p)
  && (payload_schema_version p =? 1) && negb (is_empty (content_type p))
  && String.eqb (payload_hash_algorithm p) "sha256-utf8-exact-v1"
  && (len (payload_digest p) =? 64) && bytes_all is_hex_byte (payload_digest p)
  && (d_created_at i <=? payload_created_at p) && (0 <=? expected_baseline_version p)
  && (0 <? target_snapshot_version p).

Definition lease_checks (r : Delivery) : bool :=
  if is_sending r
  then is_text (d_lease_owner r) && is_some (d_lease_expires_at r) && is_text (d_idempotency_key r)
  else negb (is_some (d_lease_owner r)) && negb (is_some (d_lease_expires_at r)).

Section Statements.
Context `{Sqlite}.

(** The CHECK constraints of an [intent_v1] row of [scheduled_run_deliveries]. *)
Definition delivery_checks (id : string) (r : Delivery) : bool :=
  intent_checks id (d_intent r)
  && (0 <=? d_attempt r) && (0 <=? d_fence r) && (d_created_at (d_intent r) <=? d_updated_at r)
  && match d_payload r with
     | Some p => payload_checks (d_intent r) p
     | None => bool_decide (d_state r = DPending) || bool_decide (d_state r = DFailedTerminal)
     end
  && lease_checks r
  && (negb (is_some (d_next_attempt_at r)) || bool_decide (d_state r = DFailedRetryable))
  && nonnegative (d_claimed_baseline_version r)
  && (negb (needs_claim (d_state r)) || is_some (d_claimed_baseline_version r))
  && (negb (is_some (d_provider_receipt r)) || bool_decide (d_state r = DDelivered))
  && outcome_check (d_state r) (d_provider_outcome r)
  && (if is_failure (d_state r) then is_text (d_error_kind r)
      else negb (is_some (d_error_kind r)) && negb (is_some (d_error_message r))).

(** The states a row of [scheduled_delivery_attempts] may have. *)
Definition attempt_states (s : ScheduledDeliveryState) : bool :=
  match s with
  | DSending | DDelivered | DFailedRetryable | DFailedTerminal | DDeliveryUnknown => true
  | _ => false
  end.

Definition delivery_attempt_checks (n : Z) (a : DeliveryAttempt) : bool :=
  (0 <? n) && (0 <? da_fence a) && (0 <=? da_claimed_baseline_version a)
  && negb (is_empty (da_lease_owner a)) && (da_started_at a <? da_lease_expires_at a)
  && negb (is_empty (da_idempotency_key a)) && attempt_states (da_state a)
  && Bool.eqb (bool_decide (da_state a = DSending)) (negb (is_some (da_completed_at a)))
  && match da_completed_at a with Some t => da_started_at a <=? t | None => true end
  && (negb (is_some (da_provider_receipt a)) || bool_decide (da_state a = DDelivered))
  && outcome_check (da_state a) (da_provider_outcome a).

(** ** Triggers *)

(** [trg_scheduled_delivery_identity_immutable] *)
Definition same_identity (i i' : DeliveryIntent) : bool :=
  String.eqb (d_run_id i') (d_run_id i) && String.eqb (d_job_id i') (d_job_id i)
  && String.eqb (d_target_identity_digest i') (d_target_identity_digest i)
  && String.eqb (d_target_json i') (d_target_json i)
  && (d_delivery_policy_version i' =? d_delivery_policy_version i)
  && String.eqb (d_result_artifact_id i') (d_result_artifact_id i)
  && (d_result_attempt i' =? d_result_attempt i) && (d_result_fence i' =? d_result_fence i)
  && String.eqb (d_target_snapshot_digest_algorithm i') (d_target_snapshot_digest_algorithm i)
  && String.eqb (d_target_snapshot_digest i') (d_target_snapshot_digest i)
  && String.eqb (d_intent_key i') (d_intent_key i) && (d_created_at i' =? d_created_at i).

(** [trg_scheduled_delivery_claimed_baseline_authority], of the last migration
    that redefines it: it runs when the SET clause names the column, and a NULL
    in its condition does not fire it. *)
Definition claim_authority (old new : Delivery) : bool :=
  match d_state old, d_state new with
  | DPending, (DSending | DSkippedUnchanged) =>
      negb (is_some (d_claimed_baseline_version old))
      && nonnegative (d_claimed_baseline_version new)
  | DFailedRetryable, DPending =>
      is_some (d_claimed_baseline_version old) && negb (is_some (d_claimed_baseline_version new))
  | DDeliveryUnknown, (DDelivered | DFailedTerminal) =>
      bool_decide (d_claimed_baseline_version new = d_claimed_baseline_version old)
  | DDeliveryUnknown, DPending =>
      is_some (d_claimed_baseline_version old) && negb (is_some (d_claimed_baseline_version new))
  | _, _ => false
  end.

(** [trg_scheduled_delivery_state_transition], of the last migration that
    redefines it. *)
Definition transition_allowed (s s' : ScheduledDeliveryState) : bool :=
  bool_decide (s = s')
  || match s, s' with
     | DPending, (DSending | DFailedTerminal | DSkippedNone | DSkippedUnchanged) => true
     | DSending, (DDelivered | DFailedRetryable | DFailedTerminal | DDeliveryUnknown) => true
     | DFailedRetryable, (DPending | DFailedTerminal) => true
     | DDeliveryUnknown, (DDelivered | DFailedTerminal | DPending) => true
     | _, _ => false
     end.

(** [trg_scheduled_delivery_skipped_unchanged_acceptance] *)
Definition skip_unchanged_accepted (d : Db) (old new : Delivery) : bool :=
  bool_decide (d_state old = DPending) && is_some (d_payload old)
  && is_value (d_provider_outcome new) "skipped_unchanged"
  && match d_payload new, accepted_baseline d new with
     | Some p, Some b =>
         String.eqb (payload_hash_algorithm p) "sha256-utf8-exact-v1"
         && String.eqb (accepted_payload_digest b) (payload_digest p)
         && is_value (d_claimed_baseline_version new) (delivery_baseline_version b)
     | _, _ => false
     end.

(** [trg_scheduled_delivery_skipped_none_acceptance] *)
Definition skip_none_accepted (old new : Delivery) : bool :=
  bool_decide (d_state old = DPending)
  && bool_decide (json_extract_text (d_target_json (d_intent new)) "kind" = Some "none")
  && (d_delivery_policy_version (d_intent new) =? 1) && is_some (d_payload new)
  && is_value (d_provider_outcome new) "skipped_none"
  && negb (is_some (d_provider_receipt new)) && negb (is_some (d_error_kind new))
  && negb (is_some (d_error_message new)) && negb (is_some (d_next_attempt_at new))
  && negb (is_some (d_lease_owner new)) && negb (is_some (d_lease_expires_at new))
  && negb (is_some (d_claimed_baseline_version new))
  && (d_attempt new =? d_attempt old) && (d_fence new =? d_fence old).

(** [trg_scheduled_delivery_readiness_rejection_acceptance] *)
Definition rejection_accepted (old new : Delivery) : bool :=
  is_some (d_payload new) && is_value (d_provider_outcome new) "confirmed_no_write_terminal"
  && is_text (d_error_kind new) && is_value (d_error_message new) READINESS_REJECTION_MESSAGE
  && negb (is_some (d_provider_receipt new)) && negb (is_some (d_next_attempt_at new))
  && negb (is_some (d_lease_owner new)) && negb (is_some (d_lease_expires_at new))
  && (d_attempt new =? d_attempt old) && (d_fence new =? d_fence old)
  && (d_updated_at old <=? d_updated_at new)
  && (bool_decide (d_state old = DPending) || not_after (d_next_attempt_at old) (d_updated_at new)).

(** The operator actions on a delivery that no update has used up. *)
Definition open_actions (d : Db) (id : string) (old : Delivery)
    (authorizes : OperatorAction -> bool) : list string :=
  (matching (fun action_id o =>
     String.eqb (o_target_kind o) "delivery" && String.eqb (o_target_id o) id
     && (o_expected_attempt o =? d_attempt old) && (o_expected_fence o =? d_fence old)
     && negb (is_some (operator_consumptions d !! action_id)) && authorizes o)
   (operator_actions d)).*1.

(** The action that [trg_scheduler_operator_delivery_retry] looks for. *)
Definition authorizes_retry (new : Delivery) (o : OperatorAction) : bool :=
  String.eqb (o_action o) "retry_delivery" && String.eqb (o_before_state o) "failed_retryable"
  && String.eqb (o_after_state o) "pending" && is_some (o_evidence_digest o)
  && (o_effective_at o =? d_updated_at new) && (o_occurred_at o <=? o_effective_at o).

(** The bounded provider query that the evidence of a resolution reports. *)
Definition query_evidence (evidence : string) : bool :=
  json_valid evidence
  && bool_decide (json_extract_text evidence "provider_query_scope"
                  = Some "canonical_delivery_target")
  && forallb (fun field => bool_decide (json_type evidence field = Some "integer"))
       ["provider_query_started_at"; "provider_query_completed_at";
        "provider_query_window_start"; "provider_query_window_end"]
  && match json_extract_integer evidence "provider_query_started_at",
           json_extract_integer evidence "provider_query_completed_at",
           json_extract_integer evidence "provider_query_window_start",
           json_extract_integer evidence "provider_query_window_end" with
     | Some started, Some completed, Some first, Some last =>
         (0 <=? started) && (started <=? completed) && (0 <=? first) && (first <=? last)
         && (last <=? completed) && (last - first <=? 2678400)
     | _, _, _, _ => false
     end
  && match json_extract_text evidence "provider_query_summary_digest" with
     | Some digest => (len digest =? 64) && bytes_all is_hex_byte digest
     | None => false
     end.

Definition query_result (evidence result : string) : bool :=
  bool_decide (json_extract_text evidence "provider_query_result" = Some result).

(** The action that [trg_scheduler_operator_delivery_resolution] looks for. *)
Definition authorizes_resolution (new : Delivery) (o : OperatorAction) : bool :=
  String.eqb (o_before_state o) "delivery_unknown"
  && String.eqb (o_after_state o) (state_as_str (d_state new))
  && (o_occurred_at o =? d_updated_at new) && (o_effective_at o =? d_updated_at new)
  && is_some (o_evidence_digest o)
  && match o_evidence_json o with
     | Some evidence =>
         query_evidence evidence
         && match d_state new with
            | DDelivered =>
                String.eqb (o_action o) "confirm_delivery_delivered"
                && is_some (o_provider_receipt o)
                && bool_decide (o_provider_receipt o = d_provider_receipt new)
                && query_result evidence "write_confirmed"
            | DFailedTerminal =>
                String.eqb (o_action o) "confirm_delivery_no_write"
                && query_result evidence "no_write_confirmed"
            | DPending =>
                String.eqb (o_action o) "force_delivery_resend" && o_duplicate_risk_acknowledged o
                && is_some (o_reason_json o) && is_some (o_reason_digest o)
                && query_result evidence "no_matching_write_found"
            | _ => false
            end
     | None => false
     end.

(** The actions that an update of a row uses up. *)
Definition consumed (d : Db) (id : string) (old new : Delivery) : list string :=
  match d_state old, d_state new with
  | DFailedRetryable, DPending => open_actions d id old (authorizes_retry new)
  | DDeliveryUnknown, (DDelivered | DFailedTerminal | DPending) =>
      open_actions d id old (authorizes_resolution new)
  | _, _ => []
  end.

(** What those two triggers demand: exactly one action, except for a retry that
    is due. *)
Definition operator_authority (d : Db) (id : string) (old new : Delivery) : bool :=
  match d_state old, d_state new with
  | DFailedRetryable, DPending =>
      match d_next_attempt_at old with
      | Some due => (d_updated_at new =? due) || Nat.eqb (length (consumed d id old new)) 1
      | None => true
      end
  | DDeliveryUnknown, (DDelivered | DFailedTerminal | DPending) =>
      Nat.eqb (length (consumed d id old new)) 1
  | _, _ => true
  end.

(** The triggers of an UPDATE of [scheduled_run_deliveries]. *)
Definition delivery_update_allowed (names_claim : bool) (d : Db) (id : string)
    (old new : Delivery) : bool :=
  same_identity (d_intent old) (d_intent new)
  && negb (existsb (fun x => negb (String.eqb x.1 id) && intent_collides id (d_intent new) x)
       (map_to_list (deliveries d)))
  && (negb names_claim || claim_authority old new)
  && (negb (is_some (d_payload old)) || bool_decide (d_payload new = d_payload old))
  && transition_allowed (d_state old) (d_state new)
  && (negb (bool_decide (d_state new = DSkippedUnchanged)) || skip_unchanged_accepted d old new)
  && (negb (bool_decide (d_state new = DSkippedNone)) || skip_none_accepted old new)
  && (negb (bool_decide (d_state new = DFailedTerminal)
            && (bool_decide (d_state old = DPending) || bool_decide (d_state old = DFailedRetryable)))
      || rejection_accepted old new)
  && operator_authority d id old new.

Definition delivery_kind (s : ScheduledDeliveryState) : string :=
  match s with
  | DSending => "delivery_claimed"
  | DDelivered => "delivery_delivered"
  | DFailedRetryable => "delivery_retry"
  | DFailedTerminal => "delivery_failure"
  | DDeliveryUnknown => "delivery_unknown"
  | DSkippedNone | DSkippedUnchanged => "delivery_skipped"
  | DPending => ""
  end.

Definition is_forced_resend (d : Db) (action_id : string) : bool :=
  match operator_actions d !! action_id with
  | Some o => String.eqb (o_action o) "force_delivery_resend"
  | None => false
  end.

(** [trg_scheduler_metrics_delivery_transition],
    [trg_scheduler_metrics_delivery_policy_limit] and, for the actions used up,
    [trg_scheduler_metrics_forced_unknown_resend]. *)
Definition count_delivery (d : Db) (id : string) (old new : Delivery) (t : gmap string Z) :
    gmap string Z :=
  if bool_decide (d_state old = d_state new) then t
  else
    let t := foldr (fun action_id t =>
      if is_forced_resend d action_id then bump "delivery_forced_unknown_resend" 1 t else t)
      t (consumed d id old new) in
    let t := bump (delivery_kind (d_state new)) 1 t in
    if bool_decide (d_state new = DFailedTerminal)
       && (is_value (d_error_kind new) "delivery_deadline_exceeded"
           || is_value (d_error_kind new) "delivery_retry_exhausted")
    then bump "policy_limit_rejected" 1 t else t.

Definition consume_actions (id : string) (at_ : Z) (actions : list string)
    (t : gmap string OperatorConsumption) : gmap string OperatorConsumption :=
  foldr (fun action_id => <[action_id := mkConsumption "delivery" id at_]>) t actions.

(** ** Statements *)

(** UPDATE of [scheduled_run_deliveries]: the rows affected, unless a constraint
    or a trigger rejects one of them. *)
Definition deliveries_updated (names_claim : bool) (where_ : string -> Delivery -> bool)
    (set : Delivery -> Delivery) (d : Db) : result SqlError (Z * Db) :=
  let hit := matching where_ (deliveries d) in
  let rows := update_rows where_ set (deliveries d) in
  if forallb (fun '(id, r) => delivery_checks id (set r)
                              && delivery_update_allowed names_claim d id r (set r)) hit
     && active_unique rows
  then Ok (Z.of_nat (length hit),
           with_totals
             (with_operator_consumptions (with_deliveries d rows)
               (foldr (fun '(id, r) => consume_actions id (d_updated_at (set r))
                                         (consumed d id r (set r)))
                  (operator_consumptions d) hit))
             (foldr (fun '(id, r) => count_delivery d id r (set r)) (totals d) hit))
  else Err Constraint.

Definition update_deliveries (names_claim : bool) (where_ : Db -> string -> Delivery -> bool)
    (set : Db -> Delivery -> Delivery) : Tx Z :=
  sql (fun d => deliveries_updated names_claim (where_ d) (set d) d).

(** UPDATE ... RETURNING [delivery_id], where the WHERE clause names one row. *)
Definition delivery_returning (names_claim : bool) (where_ : Db -> string -> Delivery -> bool)
    (set : Db -> Delivery -> Delivery) : Tx bool :=
  do! n := update_deliveries names_claim where_ set in ret (negb (n =? 0)).

(** UPDATE of [scheduled_delivery_attempts]. *)
Definition delivery_attempts_updated (where_ : string * Z -> DeliveryAttempt -> bool)
    (set : DeliveryAttempt -> DeliveryAttempt) (d : Db) : result SqlError (Z * Db) :=
  let hit := matching where_ (delivery_attempts d) in
  if forallb (fun '((_, n), a) => delivery_attempt_checks n (set a)) hit
  then Ok (Z.of_nat (length hit),
           with_delivery_attempts d (update_rows where_ set (delivery_attempts d)))
  else Err Constraint.

Definition update_delivery_attempts (where_ : string * Z -> DeliveryAttempt -> bool)
    (set : DeliveryAttempt -> DeliveryAttempt) : Tx Z :=
  sql (delivery_attempts_updated where_ set).

(** [primary key (delivery_id, attempt)], [unique (delivery_id, fence)] and the
    foreign key. *)
Definition delivery_attempt_keys_free (d : Db) (id : string) (n : Z) (a : DeliveryAttempt) : bool :=
  negb (is_some (delivery_attempts d !! (id, n)))
  && forallb (fun '((id', _), a') => negb (String.eqb id id' && (da_fence a =? da_fence a')))
       (map_to_list (delivery_attempts d))
  && is_some (deliveries d !! id).

Definition insert_delivery_attempt (id : string) (n : Z) (a : DeliveryAttempt) : Tx unit :=
  sql (fun d =>
    if delivery_attempt_keys_free d id n a && delivery_attempt_checks n a
    then Ok (tt, with_delivery_attempts d (<[(id, n) := a]> (delivery_attempts d)))
    else Err Constraint).

End Statements.

End DeliveryTables.
