(* ===== verification/Deliveries.v ===== *)
(** * The delivery store (crates/state/src/scheduler/store.rs, delivery.rs)

    A run that succeeded leaves one delivery intent per target.  The store
    freezes the exact payload of an intent, hands it to one sender at a time
    under a lease with a fresh fence, records what the provider confirmed, and
    keeps per target the payload that was last accepted, so that an unchanged
    result is not sent again.  A send whose outcome is not known is never
    repeated by the store on its own.  Every operation is translated whole. *)

From stdpp Require Import base tactics list strings numbers pretty gmap.
From Stdlib Require Import ZArith Lia Ascii.
From S2P Require Import Prelude.
From S2P Require Import Policy.
From S2P Require Import Schedule.
From S2P Require Import Json.
From S2P Require Import Digest.
From S2P Require Import Capability.
From S2P Require Import Authority.
From S2P Require Import Tables.
From S2P Require Import Runs.
From S2P Require Import Completion.
From S2P Require Import DeliveryTables.
Import Digest.

Module Deliveries.
Import Schedule Snapshot Authority Tables Runs Completion DeliveryTables.

Definition MAX_DELIVERY_INTENT_KEY_BYTES : Z := 70 + MAX_DELIVERY_INTENT_RUN_ID_BYTES * 2.
Definition MAX_DELIVERY_INTENT_ID_BYTES : Z := len "intent:" + MAX_DELIVERY_INTENT_KEY_BYTES.
Definition MAX_DELIVERY_ERROR_MESSAGE_BYTES : Z := 4 * 1024.

(** ** Arguments and results *)

Record DeliveryPayloadSnapshot := mkPayloadSnapshot {
  snap_schema_version : Z;
  snap_delivery_id : string;
  snap_run_id : string;
  snap_result_id : string;
  snap_content_type : string;
  snap_body : string;
  snap_digest : string;
  snap_target_identity_digest : string;
  snap_target_snapshot_digest : string;
  snap_target_snapshot_version : Z;
  snap_delivery_policy_version : Z;
  snap_render_version : Z;
  snap_created_at : Z
}.

Fixpoint validate_texts (fields : list (string * string)) : result StateValueError unit :=
  match fields with
  | [] => Ok tt
  | (field, value) :: rest =>
      check? validate_text field value in
      validate_texts rest
  end.

Definition snapshot_validate (s : DeliveryPayloadSnapshot) : result StateValueError unit :=
  check? validate_texts [
    ("delivery id", snap_delivery_id s); ("delivery run id", snap_run_id s);
    ("delivery result id", snap_result_id s); ("delivery content type", snap_content_type s)] in
  check? validate_lowercase_sha256 "delivery payload digest" (snap_digest s) in
  check? validate_lowercase_sha256 "delivery target identity digest"
    (snap_target_identity_digest s) in
  check? validate_lowercase_sha256 "delivery target snapshot digest"
    (snap_target_snapshot_digest s) in
  bail? (snap_schema_version s =? 0) || (snap_target_snapshot_version s =? 0)
        || (snap_delivery_policy_version s =? 0) || (snap_render_version s =? 0)
        || (snap_created_at s <? 0)
    with InvalidVersion in
  Ok tt.

Definition from_durable_parts (delivery_id run_id result_id content_type body digest
    target_identity_digest target_snapshot_digest : string)
    (target_snapshot_version delivery_policy_version render_version created_at : Z) :
    result StateValueError DeliveryPayloadSnapshot :=
  let value := mkPayloadSnapshot DELIVERY_PAYLOAD_SCHEMA_VERSION delivery_id run_id result_id
    content_type body digest target_identity_digest target_snapshot_digest
    target_snapshot_version delivery_policy_version render_version created_at in
  check? snapshot_validate value in
  Ok value.

Record ScheduledDeliveryBinding := mkDeliveryBinding {
  bind_delivery_id : string;
  bind_attempt : Z;
  bind_fence : Z;
  bind_lease_owner : string;
  bind_idempotency_key : string
}.

Record ClaimedScheduledDelivery := mkClaimedDelivery {
  claimed_binding : ScheduledDeliveryBinding;
  claimed_payload : DeliveryPayloadSnapshot;
  claimed_target_json : string;
  claimed_policy : Policy.SchedulerOperationalPolicy
}.

Record ScheduledDeliveryAuthority := mkDeliveryAuthority {
  auth_delivery_id : string;
  auth_source_state : ScheduledDeliveryState;
  auth_target_json : string;
  auth_target_digest : string;
  auth_payload_digest : string;
  auth_binding_digest : string;
  auth_intent_key : string;
  auth_payload_created_at : Z;
  auth_policy : Policy.SchedulerOperationalPolicy
}.

Inductive ScheduledDeliveryWork :=
| WorkIdle
| SkipUnchanged (authority : ScheduledDeliveryAuthority)
| ProviderRequired (authority : ScheduledDeliveryAuthority).

Inductive SkippedNoneBaselinePolicy := DoNotAdvance | Accept.

Inductive PreparedScheduledDelivery :=
| PreparedPending (snapshot : DeliveryPayloadSnapshot)
| PreparedSkippedNone (snapshot : DeliveryPayloadSnapshot)
| PreparedSkippedUnchanged (snapshot : DeliveryPayloadSnapshot).

Record ScheduledDeliveryRenderInput := mkRenderInput {
  input_delivery_id : string;
  input_body : string
}.

Inductive ScheduledDeliveryFailure :=
| ConfirmedNoWriteRetryable (error_kind : string) (redacted_message : option string)
    (next_attempt_at : Z)
| ConfirmedNoWriteTerminal (error_kind : string) (redacted_message : option string)
| AmbiguousPostWrite (error_kind : string) (redacted_message : option string).

Inductive ScheduledDeliveryReconcileOutcome :=
| ReconcileApplied (delivery_id : string) (attempt fence : Z)
| ReconcileStale
| ReconcileNotEligible.

Section Store.
Context `{Serde} `{Sha2} `{Sqlite}.

(** ** Reading a row back *)

Definition delivery_payload_from_row (id : string) (r : Delivery) :
    result StateError DeliveryPayloadSnapshot :=
  let i := d_intent r in
  let? p := ok_or (d_payload r) (Scheduler Decode) in
  bail? negb (utf8_valid (payload_snapshot p))
    with invalid_state "scheduled delivery payload is not valid UTF-8" in
  let body := payload_snapshot p in
  bail? negb (String.eqb (sha256_hex body) (payload_digest p))
    with invalid_state "scheduled delivery payload digest mismatch" in
  let? schema := positive_u32 (payload_schema_version p) in
  bail? negb (schema =? DELIVERY_PAYLOAD_SCHEMA_VERSION)
    with invalid_state "unsupported scheduled delivery payload schema" in
  bail? negb (String.eqb (payload_hash_algorithm p) DELIVERY_PAYLOAD_HASH_ALGORITHM)
    with invalid_state "unsupported scheduled delivery payload hash algorithm" in
  let? target_version := positive_u32 (target_snapshot_version p) in
  let? policy_version := positive_u32 (d_delivery_policy_version i) in
  let? render := positive_u32 (render_version p) in
  map_err invalid_value (from_durable_parts id (d_run_id i) (d_result_artifact_id i)
    (content_type p) body (payload_digest p) (d_target_identity_digest i)
    (d_target_snapshot_digest i) target_version policy_version render (payload_created_at p)).

Definition validate_target_snapshot_of (r : Delivery) : result StateError unit :=
  let i := d_intent r in
  validate_delivery_intent_target_snapshot (d_target_json i) (d_target_identity_digest i)
    (d_target_snapshot_digest_algorithm i) (d_target_snapshot_digest i).

Definition policy_of_row (r : Delivery) : result StateError Policy.SchedulerOperationalPolicy :=
  scheduler_policy_from_snapshot (d_scheduler_policy_version (d_intent r))
    (d_scheduler_policy_json (d_intent r)).

Definition load_scheduled_delivery_intent_target_snapshot (delivery_id : string) : Tx string :=
  if is_empty delivery_id || (len delivery_id >? MAX_DELIVERY_INTENT_ID_BYTES)
  then fail (invalid_state "scheduled delivery intent id exceeds its dedicated bound")
  else
    do! row := query (fun d => deliveries d !! delivery_id) in
    lift (
      let? r := ok_or row (invalid_state "scheduled delivery intent does not exist") in
      let i := d_intent r in
      bail? negb (d_delivery_policy_version i =? DELIVERY_POLICY_VERSION_V1)
        with invalid_state "scheduled delivery intent has an unsupported policy version" in
      let? expected_key := delivery_intent_key (d_run_id i) (d_target_identity_digest i) in
      bail? negb (String.eqb (d_intent_key i) expected_key)
            || negb (String.eqb delivery_id ("intent:" +:+ expected_key))
        with invalid_state "scheduled delivery intent natural identity mismatch" in
      check? validate_target_snapshot_of r in
      Ok (d_target_json i)).

(** ** Rendering *)

Definition delivery_body_from_result_json (result_json : string) : result StateError string :=
  let? value := ok_or (from_slice result_json) (InvalidSchedulerState OfJson) in
  let? object := ok_or (as_object value)
    (invalid_state "scheduled result artifact is not an object") in
  bail? negb (Nat.eqb (length object) 2)
        || negb (bool_decide (map_get "schema_version" object ≫= as_u64 = Some 1))
    with invalid_state "scheduled result artifact has an unsupported schema" in
  let? body := ok_or (map_get "summary" object ≫= as_str)
    (invalid_state "scheduled result artifact has no summary") in
  check? map_err invalid_value (validate_text "scheduled result summary" body) in
  Ok body.

(** [order by created_at, delivery_id] *)
Definition created_before (x y : string * Delivery) : bool :=
  match d_created_at (d_intent x.2) ?= d_created_at (d_intent y.2) with
  | Lt => true
  | Eq => match String.compare x.1 y.1 with Gt => false | _ => true end
  | Gt => false
  end.

(** The artifact a delivery's intent was derived from, by the joined keys. *)
Definition artifact_of (d : Db) (r : Delivery) : option Artifact :=
  let i := d_intent r in
  f ← artifacts d !! d_result_artifact_id i;
  if String.eqb (f_run_id f) (d_run_id i) && String.eqb (f_job_id f) (d_job_id i)
  then Some f else None.

Definition renderable (d : Db) (_ : string) (r : Delivery) : bool :=
  let i := d_intent r in
  bool_decide (d_state r = DPending) && negb (is_some (d_payload r))
  && match runs d !! d_run_id i with
     | Some x => String.eqb (s_job_id (r_snapshot x)) (d_job_id i)
                 && bool_decide (r_state x = Succeeded)
                 && match r_result x with
                    | Some res => String.eqb (result_artifact_id res) (d_result_artifact_id i)
                    | None => false
                    end
     | None => false
     end
  && match artifact_of d r with
     | Some f => (f_accepted_attempt f =? d_result_attempt i)
                 && (f_accepted_fence f =? d_result_fence i)
     | None => false
     end.

Definition next_scheduled_delivery_render_input : Tx (option ScheduledDeliveryRenderInput) :=
  do! row := query (fun d =>
    x ← first_by created_before (matching (renderable d) (deliveries d));
    f ← artifact_of d x.2;
    Some (x.1, f_result_json f)) in
  match row with
  | None => ret None
  | Some (delivery_id, result_json) =>
      do! body := lift (delivery_body_from_result_json result_json) in
      ret (Some (mkRenderInput delivery_id body))
  end.

(** ** Accepted baselines *)

(** The version that the accepted delivery was prepared or claimed against. *)
Definition baseline_expectation (delivery_id : string) (d : Db) : option Z :=
  r ← deliveries d !! delivery_id;
  p ← d_payload r;
  if bool_decide (d_state r = DSkippedNone)
     && bool_decide (json_extract_text (d_target_json (d_intent r)) "kind" = Some "none")
     && negb (is_some (d_claimed_baseline_version r))
  then Some (expected_baseline_version p)
  else
    a ← delivery_attempts d !! (delivery_id, d_attempt r);
    if (da_fence a =? d_fence r) && bool_decide (d_state r = DDelivered)
       && is_value (d_claimed_baseline_version r) (da_claimed_baseline_version a)
       && bool_decide (da_state a = DDelivered)
    then Some (da_claimed_baseline_version a) else None.

Definition baseline_checks (i : AcceptedDeliveryBaselineIdentity) (b : AcceptedDeliveryBaseline) :
    bool :=
  (0 <? i_delivery_policy_version i) && (0 <? i_render_version i)
  && (1 <=? delivery_baseline_version b) && (delivery_baseline_version b <=? i64_max)
  && (0 <=? accepted_at b)
  && negb (is_empty (i_target_identity_digest i))
  && negb (is_empty (i_target_snapshot_digest_algorithm i))
  && negb (is_empty (i_target_snapshot_digest i)) && negb (is_empty (i_hash_algorithm i))
  && negb (is_empty (accepted_payload_digest b)) && negb (is_empty (source_delivery_id b))
  && negb (is_empty (source_run_id b)) && negb (is_empty (source_result_hash b)).

(** The upsert: the row it inserts, or the row it rewrites when the version
    still is the expected one. *)
Definition upsert_baseline (delivery_id : string) (accepted_at expected : Z) (d : Db) :
    result SqlError (bool * Db) :=
  match (r ← deliveries d !! delivery_id;
         p ← d_payload r;
         identity ← baseline_identity r;
         f ← artifact_of d r;
         Some (r, p, identity, f)) with
  | None => Ok (false, d)
  | Some (r, p, identity, f) =>
      let i := d_intent r in
      let existing := delivery_baselines d !! identity in
      let current := match existing with
                     | Some b => (delivery_baseline_version b =? expected)
                                 && (delivery_baseline_version b <? i64_max)
                     | None => false
                     end in
      let row version := mkAcceptedBaseline (payload_digest p) delivery_id (d_run_id i)
        (Some (d_result_artifact_id i)) (f_result_hash f) accepted_at version in
      let write version :=
        if baseline_checks identity (row version) && is_some (jobs d !! d_job_id i)
        then Ok (true, with_totals
               (with_delivery_baselines d (<[identity := row version]> (delivery_baselines d)))
               (bump "accepted_delivery_baseline_advanced" 1 (totals d)))
        else Err Constraint in
      if (bool_decide (d_state r = DDelivered)
          || (bool_decide (d_state r = DSkippedNone)
              && bool_decide (json_extract_text (d_target_json i) "kind" = Some "none")))
         && ((expected =? 0) || ((expected <? i64_max) && current))
      then match existing with
           | None => write 1
           | Some b => if (expected <? i64_max) && current
                       then write (delivery_baseline_version b + 1) else Ok (false, d)
           end
      else Ok (false, d)
  end.

Definition advance_accepted_delivery_baseline_in_transaction (delivery_id : string)
    (accepted_at : Z) : Tx bool :=
  do! expectation := query (baseline_expectation delivery_id) in
  match expectation with
  | None => fail (invalid_state "scheduled delivery is not accepted terminal authority")
  | Some expected => sql (upsert_baseline delivery_id accepted_at expected)
  end.

(** ** Preparing *)

Definition validate_delivery_preparation (delivery_id content_type body : string)
    (render now : Z) : result StateError unit :=
  check? map_err invalid_value (validate_text "scheduled delivery id" delivery_id) in
  check? map_err invalid_value (validate_text "scheduled delivery content type" content_type) in
  bail? is_empty body || (len body >? MAX_SNAPSHOT_BYTES) || (render =? 0) || (now <? 0)
    with invalid_state "invalid scheduled delivery payload preparation" in
  Ok tt.

(** Is the target [none], and the version of its resolver snapshot. *)
Definition delivery_target_metadata (r : Delivery) : result StateError (bool * Z) :=
  let? target := ok_or (from_slice (d_target_json (d_intent r))) (InvalidSchedulerState OfJson) in
  let? kind := ok_or (get "kind" target ≫= as_str)
    (invalid_state "scheduled delivery target has no kind") in
  let? version :=
    match get "resolver_version" target ≫= as_i64 with
    | Some version => positive_u32 version
    | None => Err (invalid_state "scheduled delivery target has no resolver version")
    end in
  Ok (String.eqb kind "none", version).

Definition existing_prepared_delivery (id : string) (r : Delivery) (body content_type : string)
    (render : Z) : result StateError (option PreparedScheduledDelivery) :=
  if negb (is_some (d_payload r)) then Ok None
  else
    let? snapshot := delivery_payload_from_row id r in
    bail? negb (String.eqb (snap_body snapshot) body)
          || negb (String.eqb (snap_content_type snapshot) content_type)
          || negb (snap_render_version snapshot =? render)
      with ScheduledDeliveryPayloadConflict in
    match d_state r with
    | DPending => Ok (Some (PreparedPending snapshot))
    | DSkippedNone => Ok (Some (PreparedSkippedNone snapshot))
    | DSkippedUnchanged => Ok (Some (PreparedSkippedUnchanged snapshot))
    | _ => Err ScheduledDeliveryPayloadConflict
    end.

(** The version of the baseline that the payload will be compared with, and
    whether it is the accepted payload. *)
Definition delivery_baseline_decision (r : Delivery) (render : Z) (digest : string)
    (skipped_none : bool) : Tx (Z * bool) :=
  let i := d_intent r in
  do! baseline := query (fun d => delivery_baselines d !!
    mkBaselineIdentity (d_job_id i) (d_target_identity_digest i)
      (d_target_snapshot_digest_algorithm i) (d_target_snapshot_digest i)
      (d_delivery_policy_version i) render DELIVERY_PAYLOAD_HASH_ALGORITHM) in
  ret (match baseline with
       | Some b => (delivery_baseline_version b,
                    negb skipped_none && String.eqb (accepted_payload_digest b) digest)
       | None => (0, false)
       end).

Definition prepare_set (skipped_none : bool) (p : DeliveryPayload) (now : Z) (r : Delivery) :
    Delivery := {|
  d_intent := d_intent r;
  d_state := if skipped_none then DSkippedNone else DPending;
  d_attempt := d_attempt r;
  d_fence := d_fence r;
  d_next_attempt_at := d_next_attempt_at r;
  d_lease_owner := d_lease_owner r;
  d_lease_expires_at := d_lease_expires_at r;
  d_idempotency_key := d_idempotency_key r;
  d_provider_receipt := d_provider_receipt r;
  d_provider_outcome := if skipped_none then Some "skipped_none" else None;
  d_error_kind := d_error_kind r;
  d_error_message := d_error_message r;
  d_payload := Some p;
  d_claimed_baseline_version := d_claimed_baseline_version r;
  d_updated_at := now;
  d_counter_limit_recorded := d_counter_limit_recorded r
|}.

Definition prepare_where (delivery_id : string) (_ : Db) (id : string) (r : Delivery) : bool :=
  String.eqb id delivery_id && bool_decide (d_state r = DPending) && negb (is_some (d_payload r)).

(** Writes the payload of an intent that has none yet. *)
Definition freeze_payload (delivery_id content_type body : string) (render now : Z)
    (skipped_none_policy : SkippedNoneBaselinePolicy) (skipped_none : bool)
    (target_snapshot_version : Z) (r : Delivery) : Tx (Ending PreparedScheduledDelivery) :=
  let i := d_intent r in
  let payload_digest := sha256_hex body in
  do! decision := delivery_baseline_decision r render payload_digest skipped_none in
  let p := mkPayload render DELIVERY_PAYLOAD_SCHEMA_VERSION content_type
    DELIVERY_PAYLOAD_HASH_ALGORITHM payload_digest body now decision.1 target_snapshot_version in
  do! updated := update_deliveries false (prepare_where delivery_id)
    (fun _ => prepare_set skipped_none p now) in
  if negb (updated =? 1) then fail ScheduledDeliveryPayloadConflict
  else
    do! accepted :=
      (if skipped_none && match skipped_none_policy with Accept => true | _ => false end
       then advance_accepted_delivery_baseline_in_transaction delivery_id now
       else ret true) in
    if negb accepted then fail ScheduledDeliveryBaselineConflict
    else
      do! policy_version := lift (positive_u32 (d_delivery_policy_version i)) in
      do! snapshot := lift (map_err invalid_value (from_durable_parts delivery_id (d_run_id i)
        (d_result_artifact_id i) content_type body payload_digest (d_target_identity_digest i)
        (d_target_snapshot_digest i) target_snapshot_version policy_version render now)) in
      ret (Commit (if skipped_none then PreparedSkippedNone snapshot
                   else PreparedPending snapshot)).

Definition prepare_scheduled_delivery (delivery_id content_type body : string) (render now : Z)
    (skipped_none_policy : SkippedNoneBaselinePolicy) : Tx PreparedScheduledDelivery :=
  try! validate_delivery_preparation delivery_id content_type body render now in
  transaction (
    do! row := query (fun d =>
      r ← deliveries d !! delivery_id;
      _ ← artifact_of d r;
      Some r) in
    match row with
    | None => fail (invalid_state "scheduled delivery intent does not exist")
    | Some r =>
        do! (skipped_none, target_snapshot_version) := lift (delivery_target_metadata r) in
        do! existing := lift (existing_prepared_delivery delivery_id r body content_type render) in
        match existing with
        | Some prepared => ret (Commit prepared)
        | None =>
            if negb (bool_decide (d_state r = DPending)) then fail ScheduledDeliveryPayloadConflict
            else freeze_payload delivery_id content_type body render now skipped_none_policy
                   skipped_none target_snapshot_version r
        end
    end).

(** ** Readiness *)

(** [target_json = ... and target_snapshot_digest = ... and payload_digest = ...
    and intent_key = ...], on a row with a payload. *)
Definition matches_authority (a : ScheduledDeliveryAuthority) (id : string) (r : Delivery) : bool :=
  let i := d_intent r in
  String.eqb id (auth_delivery_id a)
  && String.eqb (d_target_json i) (auth_target_json a)
  && String.eqb (d_target_snapshot_digest i) (auth_target_digest a)
  && match d_payload r with
     | Some p => String.eqb (payload_digest p) (auth_payload_digest a)
     | None => false
     end
  && String.eqb (d_intent_key i) (auth_intent_key a).

Definition delivery_policy_field (r : Delivery) (field : string) : option Z :=
  json_extract_integer (d_scheduler_policy_json (d_intent r)) field.

(** [payload_created_at > max - deadline or now >= payload_created_at + deadline] *)
Definition delivery_overdue (now : Z) (r : Delivery) : bool :=
  match d_payload r, delivery_policy_field r "delivery_deadline_seconds" with
  | Some p, Some seconds => (payload_created_at p >? i64_max - seconds)
                            || (now >=? payload_created_at p + seconds)
  | _, _ => false
  end.

(** [attempt >= delivery_max_attempts] *)
Definition delivery_attempts_spent (r : Delivery) : bool :=
  match delivery_policy_field r "delivery_max_attempts" with
  | Some limit => d_attempt r >=? limit
  | None => false
  end.

Definition scheduled_delivery_authority_from_row (id : string) (r : Delivery) :
    result StateError ScheduledDeliveryAuthority :=
  let i := d_intent r in
  bail? negb (bool_decide (d_state r = DPending) || bool_decide (d_state r = DFailedRetryable))
    with invalid_state "scheduled delivery readiness selected a non-dispatchable state" in
  check? validate_target_snapshot_of r in
  let? p := ok_or (d_payload r) (Scheduler Decode) in
  check? map_err invalid_value (validate_lowercase_sha256
    "scheduled delivery readiness payload digest" (payload_digest p)) in
  let? policy := policy_of_row r in
  Ok (mkDeliveryAuthority id (d_state r) (d_target_json i) (d_target_snapshot_digest i)
        (payload_digest p) (sha256_hex (d_intent_key i)) (d_intent_key i) (payload_created_at p)
        policy).

Definition validate_scheduled_delivery_authority (a : ScheduledDeliveryAuthority) :
    result StateError unit :=
  check? map_err invalid_value (validate_text "scheduled delivery authority id"
    (auth_delivery_id a)) in
  bail? negb (bool_decide (auth_source_state a = DPending)
              || bool_decide (auth_source_state a = DFailedRetryable))
        || negb (String.eqb (sha256_hex (auth_intent_key a)) (auth_binding_digest a))
    with invalid_state "scheduled delivery readiness authority is invalid" in
  bail? (auth_payload_created_at a <? 0)
        || match Policy.validate (auth_policy a) with Ok _ => false | Err _ => true end
    with invalid_state "scheduled delivery readiness policy authority is invalid" in
  check? map_err invalid_value (validate_lowercase_sha256
    "scheduled delivery readiness target digest" (auth_target_digest a)) in
  map_err invalid_value (validate_lowercase_sha256
    "scheduled delivery readiness payload digest" (auth_payload_digest a)).

Definition validate_delivery_error (error_kind : string) (message : option string) :
    result StateError unit :=
  check? map_err invalid_value (validate_text "scheduled delivery error kind" error_kind) in
  bail? match message with
        | Some m => len m >? MAX_DELIVERY_ERROR_MESSAGE_BYTES
        | None => false
        end
    with invalid_state "scheduled delivery error message exceeds its storage bound" in
  Ok tt.

(** A due row with a payload whose baseline identity nobody is sending to. *)
Definition dispatchable (now : Z) (d : Db) (id : string) (r : Delivery) : bool :=
  ((bool_decide (d_state r = DFailedRetryable) && not_after (d_next_attempt_at r) now)
   || (bool_decide (d_state r = DPending) && (d_updated_at r <=? now)))
  && is_some (d_payload r) && negb (blocked d id r).

(** [order by case state when 'failed_retryable' then 0 else 1 end, case state
    when 'failed_retryable' then next_attempt_at else created_at end, delivery_id] *)
Definition dispatch_rank (r : Delivery) : Z * Z :=
  if bool_decide (d_state r = DFailedRetryable)
  then (0, default i64_min (d_next_attempt_at r))
  else (1, d_created_at (d_intent r)).

Definition dispatched_before (x y : string * Delivery) : bool :=
  match (dispatch_rank x.2).1 ?= (dispatch_rank y.2).1 with
  | Lt => true
  | Gt => false
  | Eq => match (dispatch_rank x.2).2 ?= (dispatch_rank y.2).2 with
          | Lt => true
          | Gt => false
          | Eq => match String.compare x.1 y.1 with Gt => false | _ => true end
          end
  end.

(** The SET clause that gives a delivery up before any claim. *)
Definition reject_set (error_kind : Delivery -> string) (message : option string) (now : Z)
    (r : Delivery) : Delivery := {|
  d_intent := d_intent r;
  d_state := DFailedTerminal;
  d_attempt := d_attempt r;
  d_fence := d_fence r;
  d_next_attempt_at := None;
  d_lease_owner := None;
  d_lease_expires_at := None;
  d_idempotency_key := d_idempotency_key r;
  d_provider_receipt := None;
  d_provider_outcome := Some "confirmed_no_write_terminal";
  d_error_kind := Some (error_kind r);
  d_error_message := message;
  d_payload := d_payload r;
  d_claimed_baseline_version := d_claimed_baseline_version r;
  d_updated_at := now;
  d_counter_limit_recorded := d_counter_limit_recorded r
|}.

(** The same without the columns [lease_owner], [lease_expires_at] and
    [provider_receipt]. *)
Definition expire_delivery_set (error_kind : string) (now : Z) (r : Delivery) : Delivery := {|
  d_intent := d_intent r;
  d_state := DFailedTerminal;
  d_attempt := d_attempt r;
  d_fence := d_fence r;
  d_next_attempt_at := None;
  d_lease_owner := d_lease_owner r;
  d_lease_expires_at := d_lease_expires_at r;
  d_idempotency_key := d_idempotency_key r;
  d_provider_receipt := d_provider_receipt r;
  d_provider_outcome := Some "confirmed_no_write_terminal";
  d_error_kind := Some error_kind;
  d_error_message := None;
  d_payload := d_payload r;
  d_claimed_baseline_version := d_claimed_baseline_version r;
  d_updated_at := now;
  d_counter_limit_recorded := d_counter_limit_recorded r
|}.

Definition past_delivery_deadline (policy : Policy.SchedulerOperationalPolicy)
    (payload_created_at now : Z) : bool :=
  match Policy.delivery_deadline_at policy payload_created_at with
  | Some deadline => now >=? deadline
  | None => true
  end.

Definition peek_scheduled_delivery_work (now : Z) : Tx ScheduledDeliveryWork :=
  if now <? 0
  then fail (invalid_state "scheduled delivery readiness time must be nonnegative")
  else
    do! pending := query (fun d =>
      x ← first_by dispatched_before (matching (dispatchable now d) (deliveries d));
      Some (x, unchanged d x.2)) in
    match pending with
    | None => ret WorkIdle
    | Some ((id, r), same) =>
        do! a := lift (scheduled_delivery_authority_from_row id r) in
        if past_delivery_deadline (auth_policy a) (auth_payload_created_at a) now
        then
          do! _ := update_deliveries false
            (fun _ id' r' => String.eqb id' (auth_delivery_id a)
                             && bool_decide (d_state r' = auth_source_state a))
            (fun _ => expire_delivery_set "delivery_deadline_exceeded" now) in
          ret WorkIdle
        else if bool_decide (auth_source_state a = DPending) && same
        then ret (SkipUnchanged a)
        else ret (ProviderRequired a)
    end.

(** The SET clause of a skip: the version of the baseline that was matched. *)
Definition skip_set (now : Z) (d : Db) (r : Delivery) : Delivery := {|
  d_intent := d_intent r;
  d_state := DSkippedUnchanged;
  d_attempt := d_attempt r;
  d_fence := d_fence r;
  d_next_attempt_at := None;
  d_lease_owner := None;
  d_lease_expires_at := None;
  d_idempotency_key := d_idempotency_key r;
  d_provider_receipt := d_provider_receipt r;
  d_provider_outcome := Some "skipped_unchanged";
  d_error_kind := d_error_kind r;
  d_error_message := d_error_message r;
  d_payload := d_payload r;
  d_claimed_baseline_version :=
    if unchanged d r then delivery_baseline_version <$> accepted_baseline d r else None;
  d_updated_at := now;
  d_counter_limit_recorded := d_counter_limit_recorded r
|}.

Definition skip_where (a : ScheduledDeliveryAuthority) (now : Z) (d : Db) (id : string)
    (r : Delivery) : bool :=
  bool_decide (d_state r = DPending) && bool_decide (auth_source_state a = DPending)
  && matches_authority a id r && (d_updated_at r <=? now) && negb (blocked d id r)
  && unchanged d r.

Definition skip_scheduled_delivery_unchanged (a : ScheduledDeliveryAuthority) (now : Z) : Tx bool :=
  try! validate_scheduled_delivery_authority a in
  if now <? 0 then fail (invalid_state "scheduled delivery skip time must be nonnegative")
  else delivery_returning true (skip_where a now) (skip_set now).

Definition reject_where (a : ScheduledDeliveryAuthority) (now : Z) (_ : Db) (id : string)
    (r : Delivery) : bool :=
  bool_decide (d_state r = auth_source_state a) && matches_authority a id r
  && (d_updated_at r <=? now)
  && (bool_decide (auth_source_state a = DPending)
      || (bool_decide (auth_source_state a = DFailedRetryable)
          && not_after (d_next_attempt_at r) now)).

Definition reject_scheduled_delivery_readiness (a : ScheduledDeliveryAuthority)
    (error_kind : string) (now : Z) : Tx bool :=
  try! validate_scheduled_delivery_authority a in
  try! validate_delivery_error error_kind (Some READINESS_REJECTION_MESSAGE) in
  if now <? 0
  then fail (invalid_state "scheduled delivery readiness rejection time must be nonnegative")
  else delivery_returning false (reject_where a now)
         (fun _ => reject_set (fun _ => error_kind) (Some READINESS_REJECTION_MESSAGE) now).

(** ** Claiming *)

(** [coalesce(idempotency_key, 'delivery-v1:' || lower(hex(delivery_id)) || ':' ||
    payload_digest)] *)
Definition idempotency_key_of (id : string) (r : Delivery) : option string :=
  match d_idempotency_key r with
  | Some key => Some key
  | None => p ← d_payload r;
            Some ("delivery-v1:" +:+ encode_sha256 id +:+ ":" +:+ payload_digest p)
  end.

Definition claim_delivery_set (id owner : string) (lease_expires_at now : Z) (d : Db)
    (r : Delivery) : Delivery := {|
  d_intent := d_intent r;
  d_state := DSending;
  d_attempt := d_attempt r + 1;
  d_fence := d_fence r + 1;
  d_next_attempt_at := None;
  d_lease_owner := Some owner;
  d_lease_expires_at := Some lease_expires_at;
  d_idempotency_key := idempotency_key_of id r;
  d_provider_receipt := d_provider_receipt r;
  d_provider_outcome := None;
  d_error_kind := None;
  d_error_message := None;
  d_payload := d_payload r;
  d_claimed_baseline_version :=
    Some (match accepted_baseline d r with Some b => delivery_baseline_version b | None => 0 end);
  d_updated_at := now;
  d_counter_limit_recorded := d_counter_limit_recorded r
|}.

Definition delivery_counters_left (r : Delivery) : bool :=
  (d_attempt r <? i64_max) && (d_fence r <? i64_max).

Definition note_delivery_limit (r : Delivery) : Delivery := {|
  d_intent := d_intent r;
  d_state := d_state r;
  d_attempt := d_attempt r;
  d_fence := d_fence r;
  d_next_attempt_at := d_next_attempt_at r;
  d_lease_owner := d_lease_owner r;
  d_lease_expires_at := d_lease_expires_at r;
  d_idempotency_key := d_idempotency_key r;
  d_provider_receipt := d_provider_receipt r;
  d_provider_outcome := d_provider_outcome r;
  d_error_kind := d_error_kind r;
  d_error_message := d_error_message r;
  d_payload := d_payload r;
  d_claimed_baseline_version := d_claimed_baseline_version r;
  d_updated_at := d_updated_at r;
  d_counter_limit_recorded := true
|}.

(** The counters of a pending row cannot advance: report it once. *)
Definition note_exhausted (where_ : string -> Delivery -> bool) :
    Tx (Ending (result StateError (option ClaimedScheduledDelivery))) :=
  let exhausted id r := where_ id r && bool_decide (d_state r = DPending)
                        && ((d_attempt r =? i64_max) || (d_fence r =? i64_max)) in
  do! any := query (fun d => negb (Nat.eqb (length (matching exhausted (deliveries d))) 0)) in
  if any then
    do! newly_recorded := update_deliveries false
      (fun _ id r => exhausted id r && negb (d_counter_limit_recorded r))
      (fun _ => note_delivery_limit) in
    do! _ := increment_scheduler_transition_total "policy_limit_rejected" newly_recorded in
    ret (Commit (Err ScheduledDeliveryCounterExhausted))
  else ret (Commit (Ok None)).

(** UPDATE ... RETURNING of one row. *)
Definition claim_delivery_row (where_ : Db -> string -> Delivery -> bool) (id owner : string)
    (lease_expires_at now : Z) : Tx (option Delivery) :=
  sql (fun d =>
    let? (n, d') := deliveries_updated true (fun id' r => String.eqb id' id && where_ d id' r)
      (claim_delivery_set id owner lease_expires_at now d) d in
    Ok (if n =? 0 then None else deliveries d' !! id, d')).

(** The binding of a claimed row, and its attempt. *)
Definition delivery_binding (id : string) (r : Delivery) :
    result StateError ScheduledDeliveryBinding :=
  let? owner := ok_or (d_lease_owner r) (Scheduler Decode) in
  let? key := ok_or (d_idempotency_key r) (Scheduler Decode) in
  Ok (mkDeliveryBinding id (d_attempt r) (d_fence r) owner key).

Definition fresh_delivery_attempt (b : ScheduledDeliveryBinding) (lease_expires_at claimed now : Z) :
    DeliveryAttempt := {|
  da_fence := bind_fence b;
  da_lease_owner := bind_lease_owner b;
  da_lease_expires_at := lease_expires_at;
  da_idempotency_key := bind_idempotency_key b;
  da_claimed_baseline_version := claimed;
  da_state := DSending;
  da_provider_receipt := None;
  da_provider_outcome := None;
  da_error_kind := None;
  da_error_message := None;
  da_started_at := now;
  da_completed_at := None
|}.

(** The claimed row's attempt is recorded and its payload and target read back.
    INSERT ... VALUES affects one row or fails. *)
Definition open_attempt (id : string) (r : Delivery) (lease_expires_at now : Z) :
    Tx (ScheduledDeliveryBinding * DeliveryPayloadSnapshot) :=
  do! b := lift (delivery_binding id r) in
  do! claimed := lift (integer_column (d_claimed_baseline_version r)) in
  do! _ := insert_delivery_attempt id (bind_attempt b)
    (fresh_delivery_attempt b lease_expires_at claimed now) in
  do! payload := lift (delivery_payload_from_row id r) in
  try! validate_target_snapshot_of r in
  ret (b, payload).

(** The oldest rendered pending row that is not blocked. *)
Definition candidate (now : Z) (counters : bool) (d : Db) : option string :=
  x ← first_by created_before (matching (fun id r =>
        bool_decide (d_state r = DPending) && is_some (d_payload r)
        && (negb counters || delivery_counters_left r)
        && (d_updated_at r <=? now) && negb (blocked d id r)) (deliveries d));
  Some x.1.

(** The SET clause of the skip that a claim begins with. *)
Definition skip_candidate_set (now : Z) (d : Db) (r : Delivery) : Delivery := {|
  d_intent := d_intent r;
  d_state := DSkippedUnchanged;
  d_attempt := d_attempt r;
  d_fence := d_fence r;
  d_next_attempt_at := d_next_attempt_at r;
  d_lease_owner := d_lease_owner r;
  d_lease_expires_at := d_lease_expires_at r;
  d_idempotency_key := d_idempotency_key r;
  d_provider_receipt := d_provider_receipt r;
  d_provider_outcome := Some "skipped_unchanged";
  d_error_kind := d_error_kind r;
  d_error_message := d_error_message r;
  d_payload := d_payload r;
  d_claimed_baseline_version :=
    if unchanged d r then delivery_baseline_version <$> accepted_baseline d r else None;
  d_updated_at := now;
  d_counter_limit_recorded := d_counter_limit_recorded r
|}.

Definition candidate_where (now : Z) (counters same : bool) (d : Db) (id : string)
    (r : Delivery) : bool :=
  bool_decide (candidate now counters d = Some id) && bool_decide (d_state r = DPending)
  && (d_updated_at r <=? now) && Bool.eqb (unchanged d r) same.

(** The claim's SET clause leaves [next_attempt_at], [provider_outcome] and the
    error columns as they are, which are NULL on a pending row. *)
Definition claim_next_set (id owner : string) (lease_expires_at now : Z) (d : Db)
    (r : Delivery) : Delivery := {|
  d_intent := d_intent r;
  d_state := DSending;
  d_attempt := d_attempt r + 1;
  d_fence := d_fence r + 1;
  d_next_attempt_at := d_next_attempt_at r;
  d_lease_owner := Some owner;
  d_lease_expires_at := Some lease_expires_at;
  d_idempotency_key := idempotency_key_of id r;
  d_provider_receipt := d_provider_receipt r;
  d_provider_outcome := d_provider_outcome r;
  d_error_kind := d_error_kind r;
  d_error_message := d_error_message r;
  d_payload := d_payload r;
  d_claimed_baseline_version :=
    Some (match accepted_baseline d r with Some b => delivery_baseline_version b | None => 0 end);
  d_updated_at := now;
  d_counter_limit_recorded := d_counter_limit_recorded r
|}.

Definition claim_next_row (owner : string) (lease_expires_at now : Z) :
    Tx (option (string * Delivery)) :=
  sql (fun d =>
    match candidate now true d with
    | None => Ok (None, d)
    | Some id =>
        let? (n, d') := deliveries_updated true (candidate_where now true false d)
          (claim_next_set id owner lease_expires_at now d) d in
        Ok (if n =? 0 then None else r ← deliveries d' !! id; Some (id, r), d')
    end).

Definition claim_next_scheduled_delivery (owner : string) (now lease_expires_at : Z) :
    Tx (option ClaimedScheduledDelivery) :=
  try! map_err invalid_value (validate_text "scheduled delivery lease owner" owner) in
  if (now <? 0) || (lease_expires_at <=? now)
  then fail (invalid_state "scheduled delivery lease must expire after claim time")
  else
    do! outcome := transaction (
      do! skipped := delivery_returning true (candidate_where now false true)
        (skip_candidate_set now) in
      if skipped then ret (Commit (Ok None))
      else
        do! row := claim_next_row owner lease_expires_at now in
        match row with
        | None => note_exhausted (fun _ r => is_some (d_payload r))
        | Some (id, r) =>
            do! (b, payload) := open_attempt id r lease_expires_at now in
            ret (Commit (
              let? policy := policy_of_row r in
              Ok (Some (mkClaimedDelivery b payload (d_target_json (d_intent r)) policy))))
        end) in
    lift outcome.

Definition terminalize_where (a : ScheduledDeliveryAuthority) (source_state : ScheduledDeliveryState)
    (now : Z) (_ : Db) (id : string) (r : Delivery) : bool :=
  bool_decide (d_state r = source_state) && matches_authority a id r
  && (bool_decide (source_state = DPending) || not_after (d_next_attempt_at r) now)
  && (delivery_attempts_spent r || delivery_overdue now r).

Definition terminalize_exact_delivery_if_exhausted (a : ScheduledDeliveryAuthority)
    (source_state : ScheduledDeliveryState) (now : Z) : Tx bool :=
  do! n := update_deliveries false (terminalize_where a source_state now)
    (fun _ => reject_set
      (fun r => if delivery_overdue now r then "delivery_deadline_exceeded"
                else "delivery_retry_exhausted")
      (Some READINESS_REJECTION_MESSAGE) now) in
  ret (n =? 1).

(** The SET clause that makes a failed delivery pending again, at the time its
    retry was due. *)
Definition requeue_set (r : Delivery) : Delivery := {|
  d_intent := d_intent r;
  d_state := DPending;
  d_attempt := d_attempt r;
  d_fence := d_fence r;
  d_next_attempt_at := None;
  d_lease_owner := d_lease_owner r;
  d_lease_expires_at := d_lease_expires_at r;
  d_idempotency_key := d_idempotency_key r;
  d_provider_receipt := d_provider_receipt r;
  d_provider_outcome := None;
  d_error_kind := None;
  d_error_message := None;
  d_payload := d_payload r;
  d_claimed_baseline_version := None;
  d_updated_at := default (d_updated_at r) (d_next_attempt_at r);
  d_counter_limit_recorded := d_counter_limit_recorded r
|}.

(** [attempt < delivery_max_attempts] *)
Definition delivery_attempts_left (r : Delivery) : bool :=
  match delivery_policy_field r "delivery_max_attempts" with
  | Some limit => d_attempt r <? limit
  | None => false
  end.

Definition requeue_where (a : ScheduledDeliveryAuthority) (now : Z) (d : Db) (id : string)
    (r : Delivery) : bool :=
  bool_decide (d_state r = DFailedRetryable) && matches_authority a id r
  && not_after (d_next_attempt_at r) now && delivery_attempts_left r && delivery_counters_left r
  && negb (blocked d id r) && negb (unchanged d r).

Definition requeue_exact_retryable_delivery (a : ScheduledDeliveryAuthority) (now : Z) : Tx bool :=
  do! terminal := terminalize_exact_delivery_if_exhausted a DFailedRetryable now in
  if terminal then ret false
  else
    do! requeued := update_deliveries true (requeue_where a now) (fun _ => requeue_set) in
    if requeued =? 1 then ret true
    else
      do! exhausted := query (fun d => negb (Nat.eqb (length (matching (fun id r =>
        bool_decide (d_state r = DFailedRetryable) && matches_authority a id r
        && not_after (d_next_attempt_at r) now
        && ((d_attempt r =? i64_max) || (d_fence r =? i64_max))) (deliveries d))) 0)) in
      if exhausted then fail ScheduledDeliveryCounterExhausted else ret false.

(** [payload_created_at <= max - deadline and now < payload_created_at + deadline] *)
Definition delivery_in_time (now : Z) (r : Delivery) : bool :=
  match d_payload r, delivery_policy_field r "delivery_deadline_seconds" with
  | Some p, Some seconds => (payload_created_at p <=? i64_max - seconds)
                            && (now <? payload_created_at p + seconds)
  | _, _ => false
  end.

Definition claim_where (a : ScheduledDeliveryAuthority) (now : Z) (d : Db) (id : string)
    (r : Delivery) : bool :=
  bool_decide (d_state r = DPending) && matches_authority a id r && delivery_attempts_left r
  && delivery_counters_left r && delivery_in_time now r && (d_updated_at r <=? now)
  && negb (blocked d id r) && negb (unchanged d r).

(** What the caller's [clock] returns at its three call sites in a claim. *)
Record DeliveryReadings := mkDeliveryReadings {
  clock_after_begin : Z;
  clock_before_claim : Z;
  clock_before_commit : Z
}.

(** How the claim's transaction ends: decided, or too late to be of use. *)
Inductive ClaimEnd :=
| ClaimDecided (outcome : result StateError (option ClaimedScheduledDelivery))
| ClaimTooLate (deadline_passed : bool).

Definition map_ending {A B} (f : A -> B) (e : Ending A) : Ending B :=
  match e with
  | Commit a => Commit (f a)
  | Rollback a => Rollback (f a)
  | Drop a => Drop (f a)
  end.

(** The second half of the claim: the row, its attempt and the last look at the
    clock. *)
Definition claim_exact_row (a : ScheduledDeliveryAuthority) (owner : string)
    (claim_now commit_clock : Z) : Tx (Ending ClaimEnd) :=
  match i64_checked_add claim_now (Policy.delivery_lease_seconds (auth_policy a)) with
  | None => fail (invalid_state "scheduled delivery lease overflows")
  | Some lease_expires_at =>
      do! row := claim_delivery_row (claim_where a claim_now) (auth_delivery_id a) owner
        lease_expires_at claim_now in
      match row with
      | None =>
          do! terminal := terminalize_exact_delivery_if_exhausted a DPending claim_now in
          if terminal then ret (Commit (ClaimDecided (Ok None)))
          else
            do! ending := note_exhausted (fun id _ => String.eqb id (auth_delivery_id a)) in
            ret (map_ending ClaimDecided ending)
      | Some r =>
          do! (b, payload) := open_attempt (auth_delivery_id a) r lease_expires_at claim_now in
          do! policy := lift (policy_of_row r) in
          do! p := lift (ok_or (d_payload r) (Scheduler Decode)) in
          let commit_now := Z.max commit_clock claim_now in
          let late := past_delivery_deadline policy (payload_created_at p) commit_now in
          if (lease_expires_at <=? commit_now) || late
          then ret (Rollback (ClaimTooLate late))
          else ret (Commit (ClaimDecided (Ok (Some (
                 mkClaimedDelivery b payload (d_target_json (d_intent r)) policy)))))
      end
  end.

Definition claim_scheduled_delivery_inner (a : ScheduledDeliveryAuthority) (owner : string)
    (now : Z) (readings : DeliveryReadings) : Tx (option ClaimedScheduledDelivery) :=
  try! map_err invalid_value (validate_text "scheduled delivery lease owner" owner) in
  try! validate_scheduled_delivery_authority a in
  if now <? 0 then fail (invalid_state "scheduled delivery claim time must be nonnegative")
  else
    let observed_now := Z.max (clock_after_begin readings) now in
    let claim_now := Z.max (clock_before_claim readings) observed_now in
    let commit_now := Z.max (clock_before_commit readings) claim_now in
    do! outcome := transaction (
      do! terminal := terminalize_exact_delivery_if_exhausted a (auth_source_state a)
        observed_now in
      if terminal then ret (Commit (ClaimDecided (Ok None)))
      else
        do! ready :=
          (if bool_decide (auth_source_state a = DFailedRetryable)
           then requeue_exact_retryable_delivery a observed_now else ret true) in
        if negb ready then ret (Commit (ClaimDecided (Ok None)))
        else claim_exact_row a owner claim_now (clock_before_commit readings)) in
    match outcome with
    | ClaimDecided outcome => lift outcome
    | ClaimTooLate false => ret None
    | ClaimTooLate true =>
        do! _ := transaction (
          do! _ := terminalize_exact_delivery_if_exhausted a (auth_source_state a) commit_now in
          ret (Commit tt)) in
        ret None
    end.

Definition claim_scheduled_delivery_from_snapshot_with_clock (a : ScheduledDeliveryAuthority)
    (owner : string) (now : Z) (readings : DeliveryReadings) :
    Tx (option ClaimedScheduledDelivery) :=
  claim_scheduled_delivery_inner a owner now readings.

(** ** Holding a claim *)

Definition validate_delivery_binding (b : ScheduledDeliveryBinding) : result StateError unit :=
  check? map_err invalid_value (validate_text "scheduled delivery id" (bind_delivery_id b)) in
  check? map_err invalid_value
    (validate_text "scheduled delivery lease owner" (bind_lease_owner b)) in
  check? map_err invalid_value
    (validate_text "scheduled delivery idempotency key" (bind_idempotency_key b)) in
  bail? (bind_attempt b <=? 0) || (bind_fence b <=? 0)
    with invalid_state "invalid scheduled delivery binding counters" in
  Ok tt.

(** [state = 'sending'] and the whole binding, in each of the two tables. *)
Definition holds_delivery (b : ScheduledDeliveryBinding) (id : string) (r : Delivery) : bool :=
  String.eqb id (bind_delivery_id b) && bool_decide (d_state r = DSending)
  && (d_attempt r =? bind_attempt b) && (d_fence r =? bind_fence b)
  && is_value (d_lease_owner r) (bind_lease_owner b)
  && is_value (d_idempotency_key r) (bind_idempotency_key b).

Definition holds_delivery_attempt (b : ScheduledDeliveryBinding) (key : string * Z)
    (a : DeliveryAttempt) : bool :=
  String.eqb key.1 (bind_delivery_id b) && (key.2 =? bind_attempt b)
  && (da_fence a =? bind_fence b) && String.eqb (da_lease_owner a) (bind_lease_owner b)
  && String.eqb (da_idempotency_key a) (bind_idempotency_key b)
  && bool_decide (da_state a = DSending).

(** Both tables are updated, and each update must have hit its one row. *)
Definition update_both (delivery attempt : Tx Z) : Tx bool :=
  do! n := delivery in
  do! m := attempt in
  ret ((n =? 1) && (m =? 1)).

Definition or_delivery_lost_lease {A} (m : Tx (option A)) : Tx A :=
  do! outcome := m in
  match outcome with
  | Some a => ret a
  | None => do! _ := record_stale_fence_rejection in fail ScheduledDeliveryLostLease
  end.

Definition extend_delivery (lease_expires_at now : Z) (r : Delivery) : Delivery := {|
  d_intent := d_intent r;
  d_state := d_state r;
  d_attempt := d_attempt r;
  d_fence := d_fence r;
  d_next_attempt_at := d_next_attempt_at r;
  d_lease_owner := d_lease_owner r;
  d_lease_expires_at := Some lease_expires_at;
  d_idempotency_key := d_idempotency_key r;
  d_provider_receipt := d_provider_receipt r;
  d_provider_outcome := d_provider_outcome r;
  d_error_kind := d_error_kind r;
  d_error_message := d_error_message r;
  d_payload := d_payload r;
  d_claimed_baseline_version := d_claimed_baseline_version r;
  d_updated_at := now;
  d_counter_limit_recorded := d_counter_limit_recorded r
|}.

Definition extend_delivery_attempt (lease_expires_at : Z) (a : DeliveryAttempt) :
    DeliveryAttempt := {|
  da_fence := da_fence a;
  da_lease_owner := da_lease_owner a;
  da_lease_expires_at := lease_expires_at;
  da_idempotency_key := da_idempotency_key a;
  da_claimed_baseline_version := da_claimed_baseline_version a;
  da_state := da_state a;
  da_provider_receipt := da_provider_receipt a;
  da_provider_outcome := da_provider_outcome a;
  da_error_kind := da_error_kind a;
  da_error_message := da_error_message a;
  da_started_at := da_started_at a;
  da_completed_at := da_completed_at a
|}.

Definition before (o : option Z) (t : Z) : bool :=
  match o with Some x => x <? t | None => false end.

Definition heartbeat_scheduled_delivery (b : ScheduledDeliveryBinding)
    (now lease_expires_at : Z) : Tx unit :=
  try! validate_delivery_binding b in
  if lease_expires_at <=? now
  then fail (invalid_state "scheduled delivery heartbeat must extend its lease")
  else or_delivery_lost_lease (transaction (
    do! held := update_both
      (update_deliveries false
        (fun _ id r => holds_delivery b id r && after (d_lease_expires_at r) now
                       && before (d_lease_expires_at r) lease_expires_at
                       && (d_updated_at r <=? now))
        (fun _ => extend_delivery lease_expires_at now))
      (update_delivery_attempts
        (fun key a => holds_delivery_attempt b key a && (da_lease_expires_at a >? now)
                      && (da_lease_expires_at a <? lease_expires_at))
        (extend_delivery_attempt lease_expires_at)) in
    ret (if held then Commit (Some tt) else Rollback None))).

(** ** Ending an attempt *)

(** The SET clauses of the two updates that end an attempt. *)
Definition settle_delivery (state : ScheduledDeliveryState)
    (next_attempt_at : Delivery -> option Z) (receipt : Delivery -> option string) (outcome : string)
    (kind message : option string) (now : Z) (r : Delivery) : Delivery := {|
  d_intent := d_intent r;
  d_state := state;
  d_attempt := d_attempt r;
  d_fence := d_fence r;
  d_next_attempt_at := next_attempt_at r;
  d_lease_owner := None;
  d_lease_expires_at := None;
  d_idempotency_key := d_idempotency_key r;
  d_provider_receipt := receipt r;
  d_provider_outcome := Some outcome;
  d_error_kind := kind;
  d_error_message := message;
  d_payload := d_payload r;
  d_claimed_baseline_version := d_claimed_baseline_version r;
  d_updated_at := now;
  d_counter_limit_recorded := d_counter_limit_recorded r
|}.

Definition settle_delivery_attempt (state : ScheduledDeliveryState)
    (receipt : DeliveryAttempt -> option string) (outcome : string)
    (kind message : option string) (now : Z) (a : DeliveryAttempt) : DeliveryAttempt := {|
  da_fence := da_fence a;
  da_lease_owner := da_lease_owner a;
  da_lease_expires_at := da_lease_expires_at a;
  da_idempotency_key := da_idempotency_key a;
  da_claimed_baseline_version := da_claimed_baseline_version a;
  da_state := state;
  da_provider_receipt := receipt a;
  da_provider_outcome := Some outcome;
  da_error_kind := kind;
  da_error_message := message;
  da_started_at := da_started_at a;
  da_completed_at := Some now
|}.

Definition transition_delivery_terminal (b : ScheduledDeliveryBinding)
    (state : ScheduledDeliveryState) (outcome : string) (receipt kind message : option string)
    (next_attempt_at : option Z) (completed_at : Z) : Tx unit :=
  if completed_at <? 0
  then fail (invalid_state "scheduled delivery completion timestamp must be nonnegative")
  else
    do! settled := update_both
      (update_deliveries false
        (fun _ id r => holds_delivery b id r && after (d_lease_expires_at r) completed_at
                       && (d_updated_at r <=? completed_at))
        (fun _ => settle_delivery state (fun _ => next_attempt_at) (fun _ => receipt) outcome kind
           message completed_at))
      (update_delivery_attempts
        (fun key a => holds_delivery_attempt b key a && (da_lease_expires_at a >? completed_at)
                      && (da_started_at a <=? completed_at))
        (settle_delivery_attempt state (fun _ => receipt) outcome kind message completed_at)) in
    if settled then ret tt else fail ScheduledDeliveryLostLease.

(** [matches!(transition, Err(ScheduledDeliveryLostLease))]: [None] stands for
    the lost lease, other errors pass. *)
Definition catch_lost_lease {A} (m : Tx A) : Tx (option A) :=
  fun w => match m w with
           | (Ok a, w') => (Ok (Some a), w')
           | (Err ScheduledDeliveryLostLease, w') => (Ok None, w')
           | (Err e, w') => (Err e, w')
           end.

Definition complete_scheduled_delivery_delivered (b : ScheduledDeliveryBinding)
    (provider_receipt : string) (completed_at : Z) : Tx unit :=
  try! validate_delivery_binding b in
  try! map_err invalid_value
    (validate_text "scheduled delivery provider receipt" provider_receipt) in
  or_delivery_lost_lease (transaction (
    do! transition := catch_lost_lease (transition_delivery_terminal b DDelivered
      "confirmed_success" (Some provider_receipt) None None None completed_at) in
    match transition with
    | None => ret (Rollback None)
    | Some _ =>
        do! advanced := advance_accepted_delivery_baseline_in_transaction (bind_delivery_id b)
          completed_at in
        if advanced then ret (Commit (Some tt)) else fail ScheduledDeliveryBaselineConflict
    end)).

(** What a failure writes: state, outcome, error kind, message and retry. *)
Record FailureColumns := mkFailureColumns {
  fail_state : ScheduledDeliveryState;
  fail_outcome : string;
  fail_kind : string;
  fail_message : option string;
  fail_next_attempt_at : option Z
}.

Definition failure_columns (failure : ScheduledDeliveryFailure) (completed_at : Z) :
    result StateError FailureColumns :=
  match failure with
  | ConfirmedNoWriteRetryable kind message next =>
      bail? next <=? completed_at
        with invalid_state "scheduled delivery retry must be deferred" in
      Ok (mkFailureColumns DFailedRetryable "confirmed_no_write_retryable" kind message (Some next))
  | ConfirmedNoWriteTerminal kind message =>
      Ok (mkFailureColumns DFailedTerminal "confirmed_no_write_terminal" kind message None)
  | AmbiguousPostWrite kind message =>
      Ok (mkFailureColumns DDeliveryUnknown "ambiguous_post_write" kind message None)
  end.

(** A retry that the policy does not allow any more becomes terminal; [None]
    when the lease is gone. *)
Definition failure_disposition (b : ScheduledDeliveryBinding) (c : FailureColumns)
    (completed_at : Z) : Tx (option FailureColumns) :=
  match fail_next_attempt_at c with
  | None => ret (Some c)
  | Some retry_at =>
      do! row := query (fun d =>
        r ← deliveries d !! bind_delivery_id b;
        if (d_attempt r =? bind_attempt b) && (d_fence r =? bind_fence b)
           && is_value (d_lease_owner r) (bind_lease_owner b) && is_sending r
           && after (d_lease_expires_at r) completed_at
        then Some r else None) in
      match row with
      | None => ret None
      | Some r =>
          do! policy := lift (policy_of_row r) in
          do! p := lift (ok_or (d_payload r) (Scheduler Decode)) in
          ret (Some (
            if Policy.delivery_can_retry_at policy (bind_attempt b) (payload_created_at p) retry_at
            then c
            else mkFailureColumns DFailedTerminal "confirmed_no_write_terminal"
                   "delivery_retry_exhausted" (fail_message c) None))
      end
  end.

Definition complete_scheduled_delivery_failure (b : ScheduledDeliveryBinding)
    (failure : ScheduledDeliveryFailure) (completed_at : Z) : Tx unit :=
  try! validate_delivery_binding b in
  do! columns := lift (failure_columns failure completed_at) in
  try! validate_delivery_error (fail_kind columns) (fail_message columns) in
  or_delivery_lost_lease (transaction (
    do! disposition := failure_disposition b columns completed_at in
    match disposition with
    | None => ret (Rollback None)
    | Some c =>
        do! transition := catch_lost_lease (transition_delivery_terminal b (fail_state c)
          (fail_outcome c) None (Some (fail_kind c)) (fail_message c) (fail_next_attempt_at c)
          completed_at) in
        match transition with
        | None => ret (Rollback None)
        | Some _ => ret (Commit (Some tt))
        end
    end)).

(** ** Recovery *)

(** The SET clauses of both recoveries: an expired send becomes an unknown
    outcome. *)
Definition lose_delivery (now : Z) : Delivery -> Delivery :=
  settle_delivery DDeliveryUnknown d_next_attempt_at d_provider_receipt "ambiguous_post_write"
    (Some "delivery_lease_expired")
    (Some "provider write outcome is unknown after delivery lease expiry") now.

Definition lose_delivery_attempt (now : Z) : DeliveryAttempt -> DeliveryAttempt :=
  settle_delivery_attempt DDeliveryUnknown da_provider_receipt "ambiguous_post_write"
    (Some "delivery_lease_expired")
    (Some "provider write outcome is unknown after delivery lease expiry") now.

Definition expired_delivery (b : ScheduledDeliveryBinding) (lease_expires_at now : Z)
    (_ : Db) (id : string) (r : Delivery) : bool :=
  holds_delivery b id r && is_value (d_lease_expires_at r) lease_expires_at
  && (lease_expires_at <=? now) && (d_updated_at r <=? now).

Definition expired_delivery_attempt (b : ScheduledDeliveryBinding) (lease_expires_at now : Z)
    (key : string * Z) (a : DeliveryAttempt) : bool :=
  holds_delivery_attempt b key a && (da_lease_expires_at a =? lease_expires_at)
  && (lease_expires_at <=? now) && (da_started_at a <=? now).

(** The end of a reconciliation that found other authority than it expected. *)
Definition stale_delivery : Tx (Ending (result StateError ScheduledDeliveryReconcileOutcome)) :=
  do! _ := increment_scheduler_transition_total "stale_fence_rejected" 1 in
  ret (Commit (Ok ReconcileStale)).

Definition reconcile_delivery_apply (b : ScheduledDeliveryBinding) (lease_expires_at now : Z) :
    Tx (Ending (result StateError ScheduledDeliveryReconcileOutcome)) :=
  do! n := update_deliveries false
    (fun d id r => expired_delivery b lease_expires_at now d id r && is_some (d_payload r))
    (fun _ => lose_delivery now) in
  if negb (n =? 1) then stale_delivery
  else
    do! m := update_delivery_attempts (expired_delivery_attempt b lease_expires_at now)
      (lose_delivery_attempt now) in
    if negb (m =? 1)
    then ret (Rollback (Err (invalid_state
           "exact delivery reconciliation found inconsistent attempt authority")))
    else ret (Commit (Ok (ReconcileApplied (bind_delivery_id b) (bind_attempt b) (bind_fence b)))).

Definition reconcile_expired_scheduled_delivery (delivery_id : string)
    (expected_state : ScheduledDeliveryState)
    (expected_attempt expected_fence expected_lease_expires_at now : Z) :
    Tx ScheduledDeliveryReconcileOutcome :=
  try! map_err invalid_value (validate_text "scheduled delivery reconciliation id" delivery_id) in
  if negb (bool_decide (expected_state = DSending)) || (expected_attempt <=? 0)
     || (expected_fence <=? 0) || (expected_lease_expires_at <? 0) || (now <? 0)
  then fail (invalid_state "invalid exact scheduled delivery reconciliation authority")
  else
    do! outcome := transaction (
      do! row := query (fun d =>
        r ← deliveries d !! delivery_id;
        if is_some (d_payload r) then Some r else None) in
      match row with
      | None => stale_delivery
      | Some r =>
          if negb (is_sending r) then stale_delivery
          else if negb (d_attempt r =? expected_attempt) || negb (d_fence r =? expected_fence)
                  || negb (is_value (d_lease_expires_at r) expected_lease_expires_at)
          then stale_delivery
          else if (expected_lease_expires_at >? now) || (d_updated_at r >? now)
          then ret (Commit (Ok ReconcileNotEligible))
          else
            do! b := lift (delivery_binding delivery_id r) in
            reconcile_delivery_apply b expected_lease_expires_at now
      end) in
    lift outcome.

(** [order by lease_expires_at, delivery_id] *)
Definition expires_before (x y : string * Delivery) : bool :=
  match default i64_min (d_lease_expires_at x.2) ?= default i64_min (d_lease_expires_at y.2) with
  | Lt => true
  | Eq => match String.compare x.1 y.1 with Gt => false | _ => true end
  | Gt => false
  end.

Definition delivery_expired (now : Z) (_ : string) (r : Delivery) : bool :=
  is_sending r && not_after (d_lease_expires_at r) now && (d_updated_at r <=? now).

Definition next_expired_delivery (now : Z) (d : Db) : option (string * Delivery) :=
  first_by expires_before (matching (delivery_expired now) (deliveries d)).

(** [for _ in 0..limit]: the number of deliveries taken back, or [None] when an
    update missed its row. *)
Fixpoint reclaim_deliveries (limit : nat) (now reclaimed : Z) : Tx (option Z) :=
  match limit with
  | O => ret (Some reclaimed)
  | S limit =>
      do! row := query (next_expired_delivery now) in
      match row with
      | None => ret (Some reclaimed)
      | Some (id, r) =>
          do! b := lift (delivery_binding id r) in
          do! lease_expires_at := lift (integer_column (d_lease_expires_at r)) in
          do! both := update_both
            (update_deliveries false (expired_delivery b lease_expires_at now)
              (fun _ => lose_delivery now))
            (update_delivery_attempts (expired_delivery_attempt b lease_expires_at now)
              (lose_delivery_attempt now)) in
          if both then reclaim_deliveries limit now (reclaimed + 1) else ret None
      end
  end.

Definition reclaim_expired_scheduled_deliveries (now limit : Z) : Tx Z :=
  if (now <? 0) || (limit =? 0)
  then fail (invalid_state
         "scheduled delivery reclaim requires nonnegative time and positive limit")
  else or_delivery_lost_lease (transaction (
    do! reclaimed := reclaim_deliveries (Z.to_nat limit) now 0 in
    ret (match reclaimed with Some n => Commit (Some n) | None => Rollback None end))).

(** ** Requeueing in bulk *)

(** [order by next_attempt_at, delivery_id] *)
Definition retried_before (x y : string * Delivery) : bool :=
  match default i64_min (d_next_attempt_at x.2) ?= default i64_min (d_next_attempt_at y.2) with
  | Lt => true
  | Eq => match String.compare x.1 y.1 with Gt => false | _ => true end
  | Gt => false
  end.

Fixpoint insert_by {A} (before : A -> A -> bool) (x : A) (l : list A) : list A :=
  match l with
  | [] => [x]
  | y :: l => if before x y then x :: y :: l else y :: insert_by before x l
  end.

Definition sort_by {A} (before : A -> A -> bool) (l : list A) : list A :=
  foldr (insert_by before) [] l.

Definition retry_due (now : Z) (_ : string) (r : Delivery) : bool :=
  bool_decide (d_state r = DFailedRetryable) && not_after (d_next_attempt_at r) now.

(** [payload_created_at > max - deadline or next_attempt_at >= payload_created_at
    + deadline] *)
Definition retry_overdue (r : Delivery) : bool :=
  match d_payload r, delivery_policy_field r "delivery_deadline_seconds" with
  | Some p, Some seconds =>
      (payload_created_at p >? i64_max - seconds)
      || match d_next_attempt_at r with
         | Some next => next >=? payload_created_at p + seconds
         | None => false
         end
  | _, _ => false
  end.

Definition requeue_due_scheduled_deliveries (now limit : Z) : Tx Z :=
  if limit =? 0 then fail (invalid_state "scheduled delivery requeue limit must be positive")
  else transaction (
    do! _ := update_deliveries false
      (fun _ id r => retry_due now id r && (delivery_attempts_spent r || retry_overdue r))
      (fun _ => expire_delivery_set "delivery_retry_exhausted" now) in
    do! n := update_deliveries true
      (fun d id _ => bool_decide (id ∈ (take (Z.to_nat limit)
         (sort_by retried_before (matching (retry_due now) (deliveries d)))).*1))
      (fun _ => requeue_set) in
    ret (Commit n)).

End Store.

End Deliveries.
