(* ===== verification/DeliveryLifecycle.v ===== *)
(** * What the delivery store does to a delivery
    (crates/state/src/scheduler/store.rs)

    The transactions of the delivery store refine one abstract machine per
    delivery: its payload is frozen, it is skipped or rejected, claimed under a
    new fence together with a new attempt, kept alive and settled by the holder
    of that fence, and requeued after a confirmed failure to write.  The other
    tables of the scheduler are not touched. *)

From stdpp Require Import base tactics list strings numbers pretty gmap relations.
From Stdlib Require Import ZArith Lia Ascii.
From S2P Require Import Prelude.
From S2P Require Import Policy.
From S2P Require Import Schedule.
From S2P Require Import Json.
From S2P Require Import Digest.
From S2P Require Import Capability.
From S2P Require Import Authority.
From S2P Require Import Tables.
From S2P Require Import Runs.
From S2P Require Import Completion.
From S2P Require Import DeliveryTables.
From S2P Require Import Deliveries.
Import Digest.

Module DeliveryLifecycle.
Import Schedule Snapshot Authority Tables Runs Completion DeliveryTables Deliveries.

(** ** The abstract machine of one delivery *)

(** What every step after the payload keeps. *)
Record keeps_delivery (r r' : Delivery) : Prop := {
  kept_intent : d_intent r' = d_intent r;
  kept_payload : d_payload r' = d_payload r;
  kept_key : d_idempotency_key r' = d_idempotency_key r;
  kept_attempt : d_attempt r' = d_attempt r;
  kept_fence : d_fence r' = d_fence r
}.

(** A step of a delivery that nobody is sending. *)
Inductive solo (d : Db) (r r' : Delivery) : Prop :=
| is_prepared p
    (Hstate : d_state r = DPending) (Hnone : d_payload r = None)
    (Hstate' : d_state r' = DPending \/ d_state r' = DSkippedNone)
    (Hpayload : d_payload r' = Some p) (Hintent : d_intent r' = d_intent r)
    (Hkey : d_idempotency_key r' = d_idempotency_key r)
    (Hattempt : d_attempt r' = d_attempt r) (Hfence : d_fence r' = d_fence r)
| is_skipped
    (Hstate : d_state r = DPending) (Hstate' : d_state r' = DSkippedUnchanged)
    (Hsame : unchanged d r = true) (Hkeeps : keeps_delivery r r')
| is_rejected
    (Hstate : d_state r = DPending \/ d_state r = DFailedRetryable)
    (Hstate' : d_state r' = DFailedTerminal) (Hkeeps : keeps_delivery r r')
| is_requeued
    (Hstate : d_state r = DFailedRetryable) (Hstate' : d_state r' = DPending)
    (Hkeeps : keeps_delivery r r')
| is_noted
    (Hstate : d_state r = DPending) (Hstate' : d_state r' = DPending)
    (Hkeeps : keeps_delivery r r').

(** The attempt that is current for a delivery being sent. *)
Record sends (r : Delivery) (a : DeliveryAttempt) : Prop := {
  send_fence : da_fence a = d_fence r;
  send_owner : d_lease_owner r = Some (da_lease_owner a);
  send_lease : d_lease_expires_at r = Some (da_lease_expires_at a);
  send_key : d_idempotency_key r = Some (da_idempotency_key a);
  send_claimed : d_claimed_baseline_version r = Some (da_claimed_baseline_version a);
  send_state : da_state a = DSending
}.

(** A claim: a new attempt under a new fence, of a payload that is not the
    accepted one. *)
Record claims_delivery (id : string) (d : Db) (r r' : Delivery) (a' : DeliveryAttempt) : Prop := {
  claimed_from : d_state r = DPending;
  claimed_state : d_state r' = DSending;
  claimed_intent : d_intent r' = d_intent r;
  claimed_payload_kept : d_payload r' = d_payload r;
  claimed_key : d_idempotency_key r' = idempotency_key_of id r;
  claimed_attempt : d_attempt r' = d_attempt r + 1;
  claimed_fence : d_fence r' = d_fence r + 1;
  claimed_changed : unchanged d r = false;
  claimed_version : d_claimed_baseline_version r' =
    Some (match accepted_baseline d r with Some b => delivery_baseline_version b | None => 0 end);
  claimed_sends : sends r' a'
}.

(** What the holder's report keeps of its attempt. *)
Record keeps_attempt (a a' : DeliveryAttempt) : Prop := {
  kept_attempt_fence : da_fence a' = da_fence a;
  kept_attempt_owner : da_lease_owner a' = da_lease_owner a;
  kept_attempt_key : da_idempotency_key a' = da_idempotency_key a;
  kept_attempt_claimed : da_claimed_baseline_version a' = da_claimed_baseline_version a
}.

(** The lease goes on, later than before. *)
Definition extends_send (r r' : Delivery) (a a' : DeliveryAttempt) : Prop :=
  d_state r' = DSending /\ d_lease_owner r' = d_lease_owner r
  /\ d_claimed_baseline_version r' = d_claimed_baseline_version r
  /\ exists t, d_lease_expires_at r' = Some t /\ da_lease_expires_at a' = t
       /\ da_state a' = DSending.

(** The attempt is over, and both rows say how. *)
Definition settles (r r' : Delivery) (a' : DeliveryAttempt) : Prop :=
  d_state r' <> DSending /\ attempt_states (d_state r') = true /\ da_state a' = d_state r'
  /\ d_claimed_baseline_version r' = d_claimed_baseline_version r.

Definition same_sends (id : string) (d d' : Db) : Prop :=
  forall n, delivery_attempts d' !! (id, n) = delivery_attempts d !! (id, n).

Definition same_sends_but (id : string) (n : Z) (d d' : Db) : Prop :=
  forall m, m <> n -> delivery_attempts d' !! (id, m) = delivery_attempts d !! (id, m).

(** One step of the delivery [id] between two databases. *)
Inductive delivery_moves (id : string) (d d' : Db) : Prop :=
| delivery_stays
    (Hrow : deliveries d' !! id = deliveries d !! id) (Hsends : same_sends id d d')
| delivery_alone r r'
    (Hrow : deliveries d !! id = Some r) (Hrow' : deliveries d' !! id = Some r')
    (Hsolo : solo d r r') (Hsends : same_sends id d d')
| delivery_claimed r r' a'
    (Hrow : deliveries d !! id = Some r) (Hrow' : deliveries d' !! id = Some r')
    (Hclaims : claims_delivery id d r r' a')
    (Hnew : delivery_attempts d !! (id, d_attempt r') = None)
    (Hattempt : delivery_attempts d' !! (id, d_attempt r') = Some a')
    (Hsends : same_sends_but id (d_attempt r') d d')
| delivery_reported r r' a a'
    (Hrow : deliveries d !! id = Some r) (Hrow' : deliveries d' !! id = Some r')
    (Hstate : d_state r = DSending)
    (Hholder : da_fence a = d_fence r /\ d_lease_owner r = Some (da_lease_owner a)
               /\ d_idempotency_key r = Some (da_idempotency_key a))
    (Hopen : da_state a = DSending)
    (Hattempt : delivery_attempts d !! (id, d_attempt r) = Some a)
    (Hattempt' : delivery_attempts d' !! (id, d_attempt r) = Some a')
    (Hkeeps : keeps_delivery r r') (Hkeeps' : keeps_attempt a a')
    (Hreport : extends_send r r' a a' \/ settles r r' a')
    (Hsends : same_sends_but id (d_attempt r) d d').

Lemma insert_by_elem {A} (before : A -> A -> bool) y k x :
  x ∈ insert_by before y k -> x = y \/ x ∈ k.
Proof.
  induction k as [|z k IHk]; cbn.
  - intros Hx%list_elem_of_singleton. by left.
  - destruct (before y z); intros [->|Hx]%elem_of_cons; [by left|by right|right; constructor|].
    destruct (IHk Hx) as [->|]; [by left|right; by right].
Qed.

Lemma sort_by_elem {A} (before : A -> A -> bool) l x : x ∈ sort_by before l -> x ∈ l.
Proof.
  induction l as [|y l IH]; [done|]. intros [->|Hx]%insert_by_elem; [constructor|].
  right. by apply IH.
Qed.

(** Nothing was used up. *)
#[export] Hint Extern 0 (is_Some _ \/ is_Some _) => left; assumption : core.

Section Steps.
Context `{Serde} `{Sha2} `{Sqlite}.

(** The constraints the database checks by itself. *)
Definition delivery_rows_ok (d : Db) : Prop :=
  (forall id r, deliveries d !! id = Some r -> delivery_checks id r = true)
  /\ active_unique (deliveries d) = true
  /\ (forall id n a, delivery_attempts d !! (id, n) = Some a -> delivery_attempt_checks n a = true).

(** The tables that the delivery store does not write. *)
Record same_rest (d d' : Db) : Prop := {
  rest_runs : runs d' = runs d;
  rest_attempts : attempts d' = attempts d;
  rest_late_evidence : late_evidence d' = late_evidence d;
  rest_artifacts : artifacts d' = artifacts d;
  rest_baselines : baselines d' = baselines d;
  rest_operator_actions : operator_actions d' = operator_actions d;
  rest_operator_consumptions : operator_consumptions d ⊆ operator_consumptions d';
  rest_used : forall k, is_Some (operator_consumptions d' !! k) ->
    is_Some (operator_consumptions d !! k) \/ is_Some (operator_actions d !! k);
  rest_jobs : jobs d' = jobs d;
  rest_schedules : schedules d' = schedules d;
  rest_job_targets : job_targets d' = job_targets d;
  rest_transition_cursors : transition_cursors d' = transition_cursors d;
  rest_idempotency_keys : idempotency_keys d' = idempotency_keys d;
  rest_mutation_audit : mutation_audit d' = mutation_audit d;
  rest_policy_lock : policy_lock d' = policy_lock d;
  rest_epoch : epoch d' = epoch d
}.

#[export] Instance same_rest_preorder : PreOrder same_rest.
Proof.
  split; [by split|]. intros d d1 d2 [] []. split; try congruence; [by etrans|].
  intros k [Hk|Hk]%rest_used1; [by auto|right]. congruence.
Qed.

Lemma rest_log d d' : same_rest d d' -> log_grows d d'.
Proof. intros []. split; [by rewrite rest_operator_actions0|done]. Qed.

Definition delivery_step (d d' : Db) : Prop :=
  (forall id, delivery_moves id d d') /\ (delivery_rows_ok d -> delivery_rows_ok d')
  /\ same_rest d d'.

(** ** Statements *)

Lemma lookup_insert_all {V} (v : V) (keys : list string) (t : gmap string V) k :
  k ∉ keys -> foldr (fun key => <[key := v]>) t keys !! k = t !! k.
Proof.
  induction keys as [|key keys IH]; [done|]. intros [? ?]%not_elem_of_cons. cbn.
  rewrite lookup_insert_ne by done. by apply IH.
Qed.

Lemma open_actions_unused d id old authorizes action_id :
  action_id ∈ open_actions d id old authorizes -> operator_consumptions d !! action_id = None.
Proof.
  intros ([k o] & -> & [_ Hw]%elem_of_matching)%list_elem_of_fmap. bool_facts. cbn.
  by destruct (operator_consumptions d !! k).
Qed.

Lemma consumed_unused d id old new action_id :
  action_id ∈ consumed d id old new -> operator_consumptions d !! action_id = None.
Proof.
  unfold consumed. destruct (d_state old), (d_state new); try (by intros Hin%not_elem_of_nil);
    apply open_actions_unused.
Qed.

Lemma consumed_recorded d id old new action_id :
  action_id ∈ consumed d id old new -> is_Some (operator_actions d !! action_id).
Proof.
  unfold consumed. destruct (d_state old), (d_state new); try (by intros Hin%not_elem_of_nil);
    intros ([k o] & -> & [Ho _]%elem_of_matching)%list_elem_of_fmap; by exists o.
Qed.

(** An update uses up actions that are on record. *)
Lemma consumptions_recorded d set (hit : list (string * Delivery)) k :
  is_Some (foldr (fun '(id, r) => consume_actions id (d_updated_at (set r))
                    (consumed d id r (set r))) (operator_consumptions d) hit !! k) ->
  is_Some (operator_consumptions d !! k) \/ is_Some (operator_actions d !! k).
Proof.
  induction hit as [|[id r] hit IH]; [by left|]. cbn. unfold consume_actions at 1.
  destruct (decide (k ∈ consumed d id r (set r))) as [Hin|Hout].
  - intros _. right. by eapply consumed_recorded.
  - by rewrite lookup_insert_all.
Qed.

(** An update uses up actions that nothing used before. *)
Lemma consumptions_grow d set (hit : list (string * Delivery)) :
  operator_consumptions d ⊆ foldr (fun '(id, r) => consume_actions id (d_updated_at (set r))
                                     (consumed d id r (set r))) (operator_consumptions d) hit.
Proof.
  apply map_subseteq_spec. intros k c Hk. induction hit as [|[id r] hit IH]; [done|]. cbn.
  unfold consume_actions at 1. rewrite lookup_insert_all; [done|].
  intros Hin%consumed_unused. congruence.
Qed.

Lemma deliveries_updated_ok names_claim where_ set d n d' :
  deliveries_updated names_claim where_ set d = Ok (n, d') ->
  n = Z.of_nat (length (matching where_ (deliveries d)))
  /\ deliveries d' = update_rows where_ set (deliveries d)
  /\ delivery_attempts d' = delivery_attempts d
  /\ delivery_baselines d' = delivery_baselines d /\ same_rest d d'
  /\ active_unique (deliveries d') = true
  /\ (forall id r, deliveries d !! id = Some r -> where_ id r = true ->
        delivery_checks id (set r) = true
        /\ delivery_update_allowed names_claim d id r (set r) = true).
Proof.
  unfold deliveries_updated. intros Hu. destruct (forallb _ _ && _) eqn:E; [|done].
  simplify_eq. bool_facts. split_and!; try done.
  { split; try done; [apply consumptions_grow|apply consumptions_recorded]. }
  intros id r Hr Hw.
  match goal with HF : forallb _ _ = true |- _ => rewrite List.forallb_forall in HF;
    specialize (HF (id, r)); rewrite <-list_elem_of_In, elem_of_matching in HF;
    by apply andb_true_iff, HF end.
Qed.

Lemma delivery_attempts_updated_ok where_ set d n d' :
  delivery_attempts_updated where_ set d = Ok (n, d') ->
  n = Z.of_nat (length (matching where_ (delivery_attempts d)))
  /\ delivery_attempts d' = update_rows where_ set (delivery_attempts d)
  /\ deliveries d' = deliveries d /\ delivery_baselines d' = delivery_baselines d
  /\ same_rest d d'
  /\ (forall id m a, delivery_attempts d !! (id, m) = Some a -> where_ (id, m) a = true ->
        delivery_attempt_checks m (set a) = true).
Proof.
  unfold delivery_attempts_updated. intros Hu. destruct (forallb _ _) eqn:E; [|done].
  simplify_eq. split_and!; try done. intros id m a Ha Hw.
  rewrite List.forallb_forall in E. apply (E ((id, m), a)).
  apply list_elem_of_In. by apply elem_of_matching.
Qed.

Lemma insert_delivery_attempt_ok id n a w u w' :
  insert_delivery_attempt id n a w = (Ok u, w') ->
  delivery_attempts (db w) !! (id, n) = None
  /\ delivery_attempts (db w') = <[(id, n) := a]> (delivery_attempts (db w))
  /\ deliveries (db w') = deliveries (db w)
  /\ delivery_baselines (db w') = delivery_baselines (db w) /\ same_rest (db w) (db w')
  /\ delivery_attempt_checks n a = true.
Proof.
  intros Hi%sql_ok. destruct (_ && _) eqn:E; [|done]. injection Hi as _ <-.
  apply andb_true_iff in E as [Hkeys ?]. unfold delivery_attempt_keys_free in Hkeys. bool_facts.
  split_and!; try done. by destruct (delivery_attempts (db w) !! (id, n)).
Qed.

(** Rewriting rows keeps the table's constraints when the rewritten rows were
    checked. *)
Lemma updated_rows_ok where_ set d d' :
  deliveries d' = update_rows where_ set (deliveries d) ->
  delivery_attempts d' = delivery_attempts d -> active_unique (deliveries d') = true ->
  (forall id r, deliveries d !! id = Some r -> where_ id r = true ->
     delivery_checks id (set r) = true) ->
  delivery_rows_ok d -> delivery_rows_ok d'.
Proof.
  intros Hd Ha Hu Hc (Hok & _ & Hok'). split_and!; [|done|by rewrite Ha].
  intros id r'. rewrite Hd, lookup_update_rows.
  destruct (deliveries d !! id) as [r|] eqn:E; [|done]. cbn.
  destruct (where_ id r) eqn:Ew; intros [= <-]; eauto.
Qed.

(** An update of rows that nobody is sending is a step of each of them. *)
Lemma solo_updated names_claim where_ set d n d' :
  (forall id r, deliveries d !! id = Some r -> where_ id r = true -> solo d r (set r)) ->
  deliveries_updated names_claim where_ set d = Ok (n, d') -> delivery_step d d'.
Proof.
  intros Hsolo (_ & Hd & Ha & _ & Hrest & Hu & Hc)%deliveries_updated_ok. split_and!; [|..|done].
  - intros id. destruct (deliveries d !! id) as [r|] eqn:E.
    + destruct (where_ id r) eqn:Ew.
      * eapply delivery_alone with r (set r); [done| |by eapply Hsolo|intros m; by rewrite Ha].
        by rewrite Hd, lookup_update_rows, E; cbn; rewrite Ew.
      * apply delivery_stays; [|intros m; by rewrite Ha].
        by rewrite Hd, lookup_update_rows, E; cbn; rewrite Ew.
    + apply delivery_stays; [|intros m; by rewrite Ha].
      by rewrite Hd, lookup_update_rows, E.
  - eapply updated_rows_ok; [done..|]. intros id r Hr Hw. by apply (Hc id r).
Qed.

(** The computations that move deliveries by steps. *)
Abbreviation delivering := (respects (rtc delivery_step)).

Definition delivering_ret {A} := respects_ret (rtc delivery_step) (A := A).
Definition delivering_fail {A} := respects_fail (rtc delivery_step) (A := A).
Definition delivering_lift {A} := respects_lift (rtc delivery_step) (A := A).
Definition delivering_sql {A} := respects_sql (rtc delivery_step) (A := A).
Definition delivering_query {A} := respects_query (rtc delivery_step) (A := A).
Definition delivering_bind {A B} := respects_bind (rtc delivery_step) (A := A) (B := B).
Definition delivering_transaction {A} := respects_transaction (rtc delivery_step) (A := A).

Lemma delivering_solo names_claim where_ set :
  (forall d id r, deliveries d !! id = Some r -> where_ d id r = true -> solo d r (set d r)) ->
  delivering (update_deliveries names_claim where_ set).
Proof.
  intros Hsolo. apply delivering_sql. intros d n d' Hu. apply rtc_once.
  eapply solo_updated; [|done]. intros id r. apply Hsolo.
Qed.

(** *** Steps of a delivery that nobody is sending *)

Lemma increment_delivers kind amount : delivering (increment_scheduler_transition_total kind amount).
Proof.
  apply delivering_bind; [apply delivering_sql|].
  - intros d a d' [= _ <-]. apply rtc_once. split_and!; [|done|by split].
    intros id. by apply delivery_stays.
  - intros []; [apply delivering_ret|apply delivering_fail].
Qed.

Lemma returning_delivers names_claim where_ set :
  (forall d id r, deliveries d !! id = Some r -> where_ d id r = true -> solo d r (set d r)) ->
  delivering (delivery_returning names_claim where_ set).
Proof.
  intros Hsolo. apply delivering_bind; [by apply delivering_solo|intros n; apply delivering_ret].
Qed.

Definition waits (s : ScheduledDeliveryState) : Prop := s = DPending \/ s = DFailedRetryable.

Lemma authority_waits a :
  validate_scheduled_delivery_authority a = Ok tt -> waits (auth_source_state a).
Proof.
  unfold validate_scheduled_delivery_authority, waits. intros Hv. ok_facts.
  destruct (_ || negb (String.eqb _ _)) eqn:E; [done|]. bool_cases; auto.
Qed.

Lemma terminalize_delivers a s now :
  waits s -> delivering (terminalize_exact_delivery_if_exhausted a s now).
Proof.
  intros Hs. apply delivering_bind; [|intros n; apply delivering_ret].
  apply delivering_solo. unfold terminalize_where. intros d id r _ Hw. where_facts.
  apply is_rejected; [|done|by split]. subst. exact Hs.
Qed.

Lemma requeue_solo d r : d_state r = DFailedRetryable -> solo d r (requeue_set r).
Proof. intros Hs. apply is_requeued; [done..|]. by split. Qed.

Lemma requeue_exact_delivers a now : delivering (requeue_exact_retryable_delivery a now).
Proof.
  apply delivering_bind; [apply terminalize_delivers; by right|intros []; [apply delivering_ret|]].
  apply delivering_bind.
  - apply delivering_solo. unfold requeue_where. intros d id r _ Hw. where_facts.
    by apply requeue_solo.
  - intros n. destruct (n =? 1); [apply delivering_ret|].
    apply delivering_bind; [apply delivering_query|].
    intros []; [apply delivering_fail|apply delivering_ret].
Qed.

Lemma note_exhausted_delivers where_ : delivering (note_exhausted where_).
Proof.
  apply delivering_bind; [apply delivering_query|intros []; [|apply delivering_ret]].
  apply delivering_bind; [apply delivering_solo|intros n].
  - intros d id r _ Hw. where_facts. apply is_noted; [done..|]. by split.
  - apply delivering_bind; [apply increment_delivers|intros _; apply delivering_ret].
Qed.

Lemma requeue_due_delivers now limit : delivering (requeue_due_scheduled_deliveries now limit).
Proof.
  unfold requeue_due_scheduled_deliveries. destruct (limit =? 0); [apply delivering_fail|].
  apply delivering_transaction. intros w x w' E. revert E.
  match goal with |- ?m w = _ -> _ => enough (delivering m) as Hm by apply Hm end.
  apply delivering_bind; [|intros _; apply delivering_bind; [|intros n; apply delivering_ret]].
  - apply delivering_solo. unfold retry_due. intros d id r _ Hw. where_facts.
    apply is_rejected; [by right|done|by split].
  - apply delivering_solo. intros d id r Hr Hw. apply requeue_solo.
    apply bool_decide_eq_true in Hw. apply list_elem_of_fmap in Hw as ([id' r'] & -> & Hin).
    apply elem_of_take in Hin as (i & Hi%list_elem_of_lookup_2 & _).
    apply sort_by_elem, elem_of_matching in Hi as [Hr' Hdue].
    unfold retry_due in Hdue. where_facts. cbn in Hr. by simplify_eq.
Qed.

Lemma delivering_try {A B} (r : result StateError A) (k : A -> Tx B) :
  (forall a, r = Ok a -> delivering (k a)) -> delivering (bind (lift r) k).
Proof.
  intros Hk w x w' E. unfold bind, lift in E. destruct r as [a|e]; [by eapply Hk|].
  by injection E as _ <-.
Qed.

(** A transaction whose body moves deliveries by steps. *)
Lemma delivering_body {A} (body : Tx (Ending A)) :
  delivering body -> delivering (transaction body).
Proof. intros Hb. apply delivering_transaction. intros w a w'. apply Hb. Qed.

Lemma authority_of_row id r a :
  scheduled_delivery_authority_from_row id r = Ok a ->
  waits (d_state r) /\ auth_source_state a = d_state r /\ auth_delivery_id a = id.
Proof.
  unfold scheduled_delivery_authority_from_row, waits. intros Ha.
  destruct (negb (_ || _)) eqn:E; [done|]. ok_facts. peel Ha. ok_facts. peel Ha.
  simplify_eq. bool_cases; auto.
Qed.

Lemma peek_delivers now : delivering (peek_scheduled_delivery_work now).
Proof.
  unfold peek_scheduled_delivery_work. destruct (now <? 0); [apply delivering_fail|].
  apply delivering_bind; [apply delivering_query|]. intros [[[id r] same]|]; [|apply delivering_ret].
  apply delivering_try. intros a (Hwaits & Hsource & _)%authority_of_row.
  destruct (past_delivery_deadline _ _ _).
  - apply delivering_bind; [|intros _; apply delivering_ret].
    apply delivering_solo. intros d id' r' _ Hw. where_facts.
    apply is_rejected; [|done|by split].
    match goal with E : d_state r' = _ |- _ => by rewrite E, Hsource end.
  - destruct (_ && same); apply delivering_ret.
Qed.

Lemma skip_delivers a now : delivering (skip_scheduled_delivery_unchanged a now).
Proof.
  apply delivering_try. intros [] _. destruct (now <? 0); [apply delivering_fail|].
  apply returning_delivers. unfold skip_where. intros d id r _ Hw. where_facts.
  apply is_skipped; [done..|by split].
Qed.

Lemma reject_delivers a kind now : delivering (reject_scheduled_delivery_readiness a kind now).
Proof.
  apply delivering_try. intros [] Ha%authority_waits. apply delivering_try. intros [] _.
  destruct (now <? 0); [apply delivering_fail|]. apply returning_delivers.
  unfold reject_where. intros d id r _ Hw. bool_facts. apply is_rejected; [|done|by split].
  by match goal with E : d_state r = _ |- _ => rewrite E end.
Qed.

Lemma upsert_baseline_ok id accepted_at expected d x d' :
  upsert_baseline id accepted_at expected d = Ok (x, d') ->
  deliveries d' = deliveries d /\ delivery_attempts d' = delivery_attempts d /\ same_rest d d'.
Proof. unfold upsert_baseline. cbv zeta. intros Hu. peel Hu; done. Qed.

Lemma advance_delivers id accepted_at :
  delivering (advance_accepted_delivery_baseline_in_transaction id accepted_at).
Proof.
  apply delivering_bind; [apply delivering_query|intros [expected|]; [|apply delivering_fail]].
  apply delivering_sql. intros d x d' (Hd & Ha & Hrest)%upsert_baseline_ok. apply rtc_once.
  split_and!; [|unfold delivery_rows_ok; by rewrite Hd, Ha|done].
  intros id'. apply delivery_stays; [by rewrite Hd|]. intros n. by rewrite Ha.
Qed.

Lemma prepare_delivers id content body render now policy :
  delivering (prepare_scheduled_delivery id content body render now policy).
Proof.
  apply delivering_try. intros [] _. apply delivering_body.
  apply delivering_bind; [apply delivering_query|intros [r|]; [|apply delivering_fail]].
  apply delivering_try. intros [none version] _. apply delivering_try. intros [x|] _;
    [apply delivering_ret|]. destruct (negb _); [apply delivering_fail|].
  apply delivering_bind; [|intros decision; apply delivering_bind; [|intros n]].
  - apply delivering_bind; [apply delivering_query|intros b; apply delivering_ret].
  - apply delivering_solo. unfold prepare_where. intros d id' r' _ Hw. where_facts.
    eapply is_prepared; try done; [by destruct (d_payload r')|destruct none; [by right|by left]].
  - destruct (negb _); [apply delivering_fail|]. apply delivering_bind.
    + destruct (_ && _); [apply advance_delivers|apply delivering_ret].
    + intros []; [|apply delivering_fail]. apply delivering_try. intros v _.
      apply delivering_try. intros y _. apply delivering_ret.
Qed.

(** *** Reports of the holder *)

Lemma holds_delivery_facts b id r :
  holds_delivery b id r = true ->
  id = bind_delivery_id b /\ d_state r = DSending /\ d_attempt r = bind_attempt b
  /\ d_fence r = bind_fence b /\ d_lease_owner r = Some (bind_lease_owner b)
  /\ d_idempotency_key r = Some (bind_idempotency_key b).
Proof. unfold holds_delivery. intros Hb. where_facts. done. Qed.

Lemma holds_delivery_attempt_facts b key a :
  holds_delivery_attempt b key a = true ->
  key = (bind_delivery_id b, bind_attempt b) /\ da_fence a = bind_fence b
  /\ da_lease_owner a = bind_lease_owner b /\ da_idempotency_key a = bind_idempotency_key b
  /\ da_state a = DSending.
Proof.
  unfold holds_delivery_attempt. intros Hb. where_facts. destruct key; cbn in *; subst. done.
Qed.

(** The one delivery and the one attempt that a pair of updates rewrote. *)
Record both_rewritten (b : ScheduledDeliveryBinding) (where_ : string -> Delivery -> bool)
    (set : Delivery -> Delivery) (where_attempt : string * Z -> DeliveryAttempt -> bool)
    (set_attempt : DeliveryAttempt -> DeliveryAttempt) (d d' : Db) (r : Delivery)
    (a : DeliveryAttempt) : Prop := {
  both_row : deliveries d !! bind_delivery_id b = Some r;
  both_where : where_ (bind_delivery_id b) r = true;
  both_attempt : delivery_attempts d !! (bind_delivery_id b, bind_attempt b) = Some a;
  both_where_attempt : where_attempt (bind_delivery_id b, bind_attempt b) a = true;
  both_deliveries : deliveries d' = <[bind_delivery_id b := set r]> (deliveries d);
  both_attempts : delivery_attempts d'
    = <[(bind_delivery_id b, bind_attempt b) := set_attempt a]> (delivery_attempts d);
  both_baselines : delivery_baselines d' = delivery_baselines d;
  both_rest : same_rest d d';
  both_checks : delivery_checks (bind_delivery_id b) (set r) = true;
  both_unique : active_unique (deliveries d') = true;
  both_attempt_checks : delivery_attempt_checks (bind_attempt b) (set_attempt a) = true
}.

Lemma delivery_update_one b names_claim where_ set d n d' :
  (forall id r, where_ id r = true -> id = bind_delivery_id b) ->
  deliveries_updated names_claim where_ set d = Ok (n, d') -> n = 1 ->
  exists r, deliveries d !! bind_delivery_id b = Some r /\ where_ (bind_delivery_id b) r = true
    /\ deliveries d' = <[bind_delivery_id b := set r]> (deliveries d)
    /\ delivery_attempts d' = delivery_attempts d
    /\ delivery_baselines d' = delivery_baselines d /\ same_rest d d'
    /\ delivery_checks (bind_delivery_id b) (set r) = true
    /\ delivery_update_allowed names_claim d (bind_delivery_id b) r (set r) = true
    /\ active_unique (deliveries d') = true.
Proof.
  intros Hkey (Hn & Hd & Ha & Hbl & Hrest & Hu & Hc)%deliveries_updated_ok ->.
  edestruct (update_rows_one where_ set (deliveries d) (bind_delivery_id b))
    as (r & Hr & Hw & Hset); [by intros ? ? ?%Hkey|done|].
  exists r. destruct (Hc _ _ Hr Hw). split_and!; try done. congruence.
Qed.

Lemma delivery_attempt_update_one b where_ set d n d' :
  (forall key a, where_ key a = true -> key = (bind_delivery_id b, bind_attempt b)) ->
  delivery_attempts_updated where_ set d = Ok (n, d') -> n = 1 ->
  exists a, delivery_attempts d !! (bind_delivery_id b, bind_attempt b) = Some a
    /\ where_ (bind_delivery_id b, bind_attempt b) a = true
    /\ delivery_attempts d'
         = <[(bind_delivery_id b, bind_attempt b) := set a]> (delivery_attempts d)
    /\ deliveries d' = deliveries d /\ delivery_baselines d' = delivery_baselines d
    /\ same_rest d d' /\ delivery_attempt_checks (bind_attempt b) (set a) = true.
Proof.
  intros Hkey (Hn & Ha & Hd & Hbl & Hrest & Hc)%delivery_attempts_updated_ok ->.
  edestruct (update_rows_one where_ set (delivery_attempts d)
    (bind_delivery_id b, bind_attempt b)) as (a & Ha1 & Hw & Hset);
    [by intros ? ? ?%Hkey|done|].
  exists a. split_and!; try done; [congruence|by eapply Hc].
Qed.

Lemma both_rewrites b where_ set where_attempt set_attempt d n d1 m d2 :
  (forall id r, where_ id r = true -> holds_delivery b id r = true) ->
  (forall key a, where_attempt key a = true -> holds_delivery_attempt b key a = true) ->
  deliveries_updated false where_ set d = Ok (n, d1) -> n = 1 ->
  delivery_attempts_updated where_attempt set_attempt d1 = Ok (m, d2) -> m = 1 ->
  exists r a, both_rewritten b where_ set where_attempt set_attempt d d2 r a.
Proof.
  intros Hb Hba Hu Hn Hv Hm.
  eapply delivery_update_one in Hu as (r & Hr & Hw & Hd & Ha & Hbl & Hrest & Hc & _ & Hu);
    [|by intros id x ?%Hb%holds_delivery_facts; destruct_and!|done].
  eapply delivery_attempt_update_one in Hv as (a & Ha1 & Hw1 & Ha2 & Hd2 & Hbl2 & Hrest2 & Hc2);
    [|by intros key x ?%Hba%holds_delivery_attempt_facts; destruct_and!|done].
  exists r, a. split; try done; [congruence..|by etrans|congruence].
Qed.

Lemma reported_delivery_step b where_ set where_attempt set_attempt d d' r a :
  both_rewritten b where_ set where_attempt set_attempt d d' r a ->
  holds_delivery b (bind_delivery_id b) r = true ->
  holds_delivery_attempt b (bind_delivery_id b, bind_attempt b) a = true ->
  keeps_delivery r (set r) -> keeps_attempt a (set_attempt a) ->
  extends_send r (set r) a (set_attempt a) \/ settles r (set r) (set_attempt a) ->
  delivery_step d d'.
Proof.
  intros [] (_ & Hs & Hatt & Hf & Ho & Hk)%holds_delivery_facts
    (_ & Haf & Hao & Hak & Has)%holds_delivery_attempt_facts Hkeeps Hkeeps' Hrep.
  split_and!; [|..|done].
  - intros id. destruct (decide (id = bind_delivery_id b)) as [->|Hne].
    + eapply delivery_reported with r (set r) a (set_attempt a); try done.
      * by rewrite both_deliveries0, lookup_insert_eq.
      * split_and!; congruence.
      * by rewrite Hatt.
      * by rewrite Hatt, both_attempts0, lookup_insert_eq.
      * intros m Hm. rewrite both_attempts0, lookup_insert_ne; congruence.
    + apply delivery_stays; [by rewrite both_deliveries0, lookup_insert_ne|].
      intros n. rewrite both_attempts0, lookup_insert_ne; congruence.
  - intros (Hok & _ & Hok'). split_and!; [|done|].
    + intros id x. rewrite both_deliveries0.
      destruct (decide (id = bind_delivery_id b)) as [->|Hne].
      * rewrite lookup_insert_eq. by intros [= <-].
      * rewrite lookup_insert_ne by done. apply Hok.
    + intros id n x. rewrite both_attempts0, lookup_insert_Some.
      intros [[[= <- <-] <-]|[_ Hx]]; [done|by eapply Hok'].
Qed.

Lemma update_both_ok b where_ set where_attempt set_attempt w w' :
  (forall d id r, where_ d id r = true -> holds_delivery b id r = true) ->
  (forall key a, where_attempt key a = true -> holds_delivery_attempt b key a = true) ->
  update_both (update_deliveries false where_ set)
    (update_delivery_attempts where_attempt set_attempt) w = (Ok true, w') ->
  exists r a, both_rewritten b (where_ (db w)) (set (db w)) where_attempt set_attempt
    (db w) (db w') r a.
Proof.
  intros Hb Hba Hu. unfold update_both in Hu.
  apply bind_ok in Hu as (n & w1 & Hn%sql_ok & Hu). apply bind_ok in Hu as (m & w2 & Hm%sql_ok & Hu).
  apply ret_ok in Hu as [E <-]. bool_facts. eapply both_rewrites; eauto.
Qed.

Lemma holder_of_both b where_ set where_attempt set_attempt d d' r a :
  (forall id r, where_ id r = true -> holds_delivery b id r = true) ->
  (forall key a, where_attempt key a = true -> holds_delivery_attempt b key a = true) ->
  both_rewritten b where_ set where_attempt set_attempt d d' r a ->
  holds_delivery b (bind_delivery_id b) r = true
  /\ holds_delivery_attempt b (bind_delivery_id b, bind_attempt b) a = true.
Proof. intros Hb Hba []. eauto. Qed.

(** The tables after a report: as before, or the commit's. *)
Lemma lost_lease_delivers {A} (body : Tx (Ending (option A))) :
  (forall w x w', body w = (Ok (Commit x), w') -> rtc delivery_step (db w) (db w')) ->
  delivering (or_delivery_lost_lease (transaction body)).
Proof.
  intros Hb. apply delivering_bind; [by apply delivering_transaction|].
  intros [x|]; [apply delivering_ret|].
  apply delivering_bind; [apply increment_delivers|intros _; apply delivering_fail].
Qed.

Lemma heartbeat_both b now expires w w' :
  update_both
    (update_deliveries false
      (fun _ id r => holds_delivery b id r && after (d_lease_expires_at r) now
                     && before (d_lease_expires_at r) expires && (d_updated_at r <=? now))
      (fun _ => extend_delivery expires now))
    (update_delivery_attempts
      (fun key a => holds_delivery_attempt b key a && (da_lease_expires_at a >? now)
                    && (da_lease_expires_at a <? expires))
      (extend_delivery_attempt expires)) w = (Ok true, w') ->
  delivery_step (db w) (db w').
Proof.
  intros Hu.
  eapply (update_both_ok b) in Hu as (r & a & Hboth); [|intros; by bool_facts..].
  eapply (holder_of_both b) in Hboth as Hh; [|intros; by bool_facts..].
  destruct Hh as [Hr Ha]. eapply reported_delivery_step; [done..|by split|by split|].
  left. apply holds_delivery_facts in Hr as (_ & Hs & _).
  apply holds_delivery_attempt_facts in Ha as (_ & _ & _ & _ & Has).
  split_and!; [done..|]. by exists expires.
Qed.

Lemma heartbeat_delivers b now expires : delivering (heartbeat_scheduled_delivery b now expires).
Proof.
  apply delivering_try. intros [] _. destruct (_ <=? _); [apply delivering_fail|].
  apply lost_lease_delivers. intros w x w' Hc. tx_step Hc.
  match type of Hc with ret (if ?h then _ else _) _ = _ => destruct h end; tx_step Hc; simplify_eq.
  apply rtc_once. eapply heartbeat_both; eauto.
Qed.

(** The updates of [transition_delivery_terminal]. *)
Lemma transition_ok b state outcome receipt kind message next now w u w' :
  transition_delivery_terminal b state outcome receipt kind message next now w = (Ok u, w') ->
  exists r a, both_rewritten b
    (fun id r => holds_delivery b id r && after (d_lease_expires_at r) now
                 && (d_updated_at r <=? now))
    (settle_delivery state (fun _ => next) (fun _ => receipt) outcome kind message now)
    (fun key a => holds_delivery_attempt b key a && (da_lease_expires_at a >? now)
                  && (da_started_at a <=? now))
    (settle_delivery_attempt state (fun _ => receipt) outcome kind message now)
    (db w) (db w') r a
  /\ holds_delivery b (bind_delivery_id b) r = true
  /\ holds_delivery_attempt b (bind_delivery_id b, bind_attempt b) a = true.
Proof.
  unfold transition_delivery_terminal. intros Ht. destruct (now <? 0); [by tx_step Ht|].
  apply bind_ok in Ht as (both & w1 & Hu & Ht). destruct both; tx_step Ht.
  eapply (update_both_ok b) in Hu as (r & a & Hboth); [|intros; by bool_facts..].
  exists r, a. split; [exact Hboth|].
  eapply (holder_of_both b) in Hboth; [done|intros; by bool_facts..].
Qed.

Lemma settled_step b where_ where_attempt state next receipt receipt' outcome kind message now
    d d' r a :
  both_rewritten b where_ (settle_delivery state next receipt outcome kind message now)
    where_attempt (settle_delivery_attempt state receipt' outcome kind message now) d d' r a ->
  holds_delivery b (bind_delivery_id b) r = true ->
  holds_delivery_attempt b (bind_delivery_id b, bind_attempt b) a = true ->
  state <> DSending -> attempt_states state = true -> delivery_step d d'.
Proof.
  intros Hboth Hr Ha Hs Hst. eapply reported_delivery_step; [done..|by split|by split|].
  by right.
Qed.

Lemma catch_lost_lease_some {A} (m : Tx A) w a w' :
  catch_lost_lease m w = (Ok (Some a), w') -> m w = (Ok a, w').
Proof.
  unfold catch_lost_lease. destruct (m w) as [[x|e] w1]; [by intros [= -> ->]|].
  by destruct e.
Qed.

Lemma delivered_delivers b receipt now :
  delivering (complete_scheduled_delivery_delivered b receipt now).
Proof.
  do 2 (apply delivering_try; intros [] _). apply lost_lease_delivers. intros w x w' Hc.
  apply bind_ok in Hc as ([[]|] & w1 & Ht & Hc); [|by tx_step Hc].
  apply catch_lost_lease_some, transition_ok in Ht as (r & a & Hboth & Hr & Ha).
  apply bind_ok in Hc as ([] & w2 & Hadv & Hc); tx_step Hc.
  etrans; [apply rtc_once; by eapply settled_step|by eapply advance_delivers].
Qed.

Lemma failure_state failure now c :
  failure_columns failure now = Ok c ->
  fail_state c <> DSending /\ attempt_states (fail_state c) = true.
Proof. unfold failure_columns. intros Hf. peel Hf; simplify_eq; done. Qed.

Lemma disposition_state b c now w c' w' :
  failure_disposition b c now w = (Ok (Some c'), w') ->
  fail_state c <> DSending /\ attempt_states (fail_state c) = true ->
  db w' = db w /\ fail_state c' <> DSending /\ attempt_states (fail_state c') = true.
Proof.
  unfold failure_disposition. intros Hf Hc. destruct (fail_next_attempt_at c); [|by tx_step Hf; simplify_eq].
  apply bind_ok in Hf as (row & w1 & Hq & Hf). apply query_ok in Hq as [_ Hdb].
  destruct row as [r|]; [|by tx_step Hf]. do 3 tx_step Hf. simplify_eq.
  repeat match goal with E : lift _ _ = _ |- _ => tx_step E end.
  destruct (Policy.delivery_can_retry_at _ _ _ _); split_and!; by (done || apply Hc).
Qed.

Lemma failure_delivers b failure now :
  delivering (complete_scheduled_delivery_failure b failure now).
Proof.
  apply delivering_try. intros [] _. apply delivering_try. intros c Hc%failure_state.
  apply delivering_try. intros [] _. apply lost_lease_delivers. intros w x w' Hf.
  apply bind_ok in Hf as ([c'|] & w1 & Hd & Hf); [|by tx_step Hf].
  apply disposition_state in Hd as (<- & Hs & Hst); [|done].
  apply bind_ok in Hf as ([[]|] & w2 & Ht & Hf); tx_step Hf; [|done].
  apply catch_lost_lease_some, transition_ok in Ht as (r & a & Hboth & Hr & Ha).
  apply rtc_once. by eapply settled_step.
Qed.

(** *** Claims *)

(** The row that a claim's UPDATE returned. *)
Record row_claimed (id : string) (set : Delivery -> Delivery) (where_ : string -> Delivery -> bool)
    (d d' : Db) (r : Delivery) : Prop := {
  rc_row : deliveries d !! id = Some r;
  rc_where : where_ id r = true;
  rc_deliveries : deliveries d' = <[id := set r]> (deliveries d);
  rc_attempts : delivery_attempts d' = delivery_attempts d;
  rc_baselines : delivery_baselines d' = delivery_baselines d;
  rc_rest : same_rest d d';
  rc_checks : delivery_checks id (set r) = true;
  rc_unique : active_unique (deliveries d') = true
}.

Lemma updated_returning id where_ set d n d' :
  (forall id' r, where_ id' r = true -> id' = id) ->
  deliveries_updated true where_ set d = Ok (n, d') ->
  (n = 0 /\ delivery_step d d')
  \/ (n <> 0 /\ exists r, row_claimed id set where_ d d' r).
Proof.
  intros Hid Hu. destruct (matching_key where_ (deliveries d) id Hid) as [Hnil|Hone].
  - left. split; [apply deliveries_updated_ok in Hu as (-> & _); by rewrite Hnil|].
    eapply solo_updated; [|done]. intros id' r Hr Hw.
    assert ((id', r) ∈ matching where_ (deliveries d)) as Hin by by apply elem_of_matching.
    rewrite Hnil in Hin. by apply elem_of_nil in Hin.
  - right. apply deliveries_updated_ok in Hu as (Hn & Hd & Ha & Hbl & Hrest & Hu & Hc).
    split; [lia|]. edestruct (update_rows_one where_ set (deliveries d) id) as (r & Hr & Hw & Hset);
      [done..|]. exists r. destruct (Hc _ _ Hr Hw). split; try done. congruence.
Qed.

Lemma open_attempt_ok id r expires now w b p w' :
  open_attempt id r expires now w = (Ok (b, p), w') ->
  exists version, d_claimed_baseline_version r = Some version
  /\ delivery_binding id r = Ok b /\ delivery_payload_from_row id r = Ok p
  /\ validate_target_snapshot_of r = Ok tt
  /\ delivery_attempts (db w) !! (id, bind_attempt b) = None
  /\ delivery_attempts (db w')
       = <[(id, bind_attempt b) := fresh_delivery_attempt b expires version now]>
           (delivery_attempts (db w))
  /\ deliveries (db w') = deliveries (db w)
  /\ delivery_baselines (db w') = delivery_baselines (db w) /\ same_rest (db w) (db w')
  /\ delivery_attempt_checks (bind_attempt b) (fresh_delivery_attempt b expires version now) = true.
Proof.
  unfold open_attempt. intros Ho.
  apply bind_ok in Ho as (b' & w1 & Hb & Ho). apply lift_ok in Hb as [Hb <-].
  apply bind_ok in Ho as (version & w2 & Hv & Ho). apply lift_ok in Hv as [Hv <-].
  apply bind_ok in Ho as ([] & w3 & Hi%insert_delivery_attempt_ok & Ho).
  apply bind_ok in Ho as (p' & w4 & Hp & Ho). apply lift_ok in Hp as [Hp <-].
  apply bind_ok in Ho as ([] & w5 & Ht & Ho). apply lift_ok in Ht as [Ht <-].
  apply ret_ok in Ho as [[= -> ->] <-]. destruct_and! Hi. exists version.
  split_and!; try done. unfold integer_column in Hv.
  destruct (d_claimed_baseline_version r) as [v|]; [|done]. destruct (in_i64 v); by simplify_eq.
Qed.

(** The parts that a claim's SET clause shares in both of its forms. *)
Record claim_form (id owner : string) (expires now : Z) (d : Db) (r r' : Delivery) : Prop := {
  form_state : d_state r' = DSending;
  form_intent : d_intent r' = d_intent r;
  form_payload : d_payload r' = d_payload r;
  form_key : d_idempotency_key r' = idempotency_key_of id r;
  form_attempt : d_attempt r' = d_attempt r + 1;
  form_fence : d_fence r' = d_fence r + 1;
  form_owner : d_lease_owner r' = Some owner;
  form_expires : d_lease_expires_at r' = Some expires;
  form_version : d_claimed_baseline_version r' =
    Some (match accepted_baseline d r with Some b => delivery_baseline_version b | None => 0 end)
}.

Lemma binding_of_claim id owner expires now d r r' b :
  claim_form id owner expires now d r r' -> delivery_binding id r' = Ok b ->
  bind_delivery_id b = id /\ bind_attempt b = d_attempt r' /\ bind_fence b = d_fence r'
  /\ bind_lease_owner b = owner /\ d_idempotency_key r' = Some (bind_idempotency_key b).
Proof.
  intros []. unfold delivery_binding. rewrite form_owner0. cbn.
  destruct (d_idempotency_key r') as [key|]; cbn; [|done]. by intros [= <-].
Qed.

Lemma claimed_step id owner expires now set where_ r w w1 w2 b p :
  row_claimed id set where_ (db w) (db w1) r ->
  claim_form id owner expires now (db w) r (set r) ->
  d_state r = DPending -> unchanged (db w) r = false ->
  open_attempt id (set r) expires now w1 = (Ok (b, p), w2) ->
  delivery_step (db w) (db w2)
  /\ exists a, claims_delivery id (db w) r (set r) a
       /\ deliveries (db w2) !! id = Some (set r)
       /\ delivery_attempts (db w2) !! (id, d_attempt (set r)) = Some a.
Proof.
  intros [] Hform Hs Hch (version & Hv & Hb & _ & _ & Hnew & Ha & Hd & _ & Hrest & Hc)%open_attempt_ok.
  edestruct binding_of_claim as (_ & Hn & Hf & Howner & Hkey); [done..|].
  rewrite Hn in *. destruct Hform.
  set (a := fresh_delivery_attempt b expires version now) in *.
  assert (claims_delivery id (db w) r (set r) a) as Hclaims.
  { split; try done. split; try done; cbn; congruence. }
  assert (deliveries (db w2) !! id = Some (set r)) as Hrow'.
  { by rewrite Hd, rc_deliveries0, lookup_insert_eq. }
  assert (delivery_attempts (db w2) !! (id, d_attempt (set r)) = Some a) as Hatt'.
  { by rewrite Ha, lookup_insert_eq. }
  split; [|eauto]. split_and!; [|..|by etrans].
  - intros id'. destruct (decide (id' = id)) as [->|Hne].
    + eapply delivery_claimed with r (set r) a; try done.
      * congruence.
      * intros m Hm. rewrite Ha, lookup_insert_ne; congruence.
    + apply delivery_stays; [by rewrite Hd, rc_deliveries0, lookup_insert_ne|].
      intros n. rewrite Ha, lookup_insert_ne; congruence.
  - intros (Hok & _ & Hok'). rewrite <-Hd in rc_unique0. split_and!; [|done|].
    + intros id' x. rewrite Hd, rc_deliveries0. destruct (decide (id' = id)) as [->|Hne].
      * rewrite lookup_insert_eq. by intros [= <-].
      * rewrite lookup_insert_ne by done. apply Hok.
    + intros id' n x. rewrite Ha, lookup_insert_Some, rc_attempts0.
      intros [[[= <- <-] <-]|[_ Hx]]; [done|by eapply Hok'].
Qed.

Lemma claim_set_form id owner expires now d r :
  claim_form id owner expires now d r (claim_delivery_set id owner expires now d r).
Proof. by split. Qed.

Lemma claim_next_set_form id owner expires now d r :
  claim_form id owner expires now d r (claim_next_set id owner expires now d r).
Proof. by split. Qed.

Lemma claim_row_ok where_ id owner expires now w o w' :
  claim_delivery_row where_ id owner expires now w = (Ok o, w') ->
  (o = None /\ delivery_step (db w) (db w'))
  \/ exists r, o = Some (claim_delivery_set id owner expires now (db w) r)
       /\ row_claimed id (claim_delivery_set id owner expires now (db w))
            (fun id' r => String.eqb id' id && where_ (db w) id' r) (db w) (db w') r.
Proof.
  intros Hc%sql_ok. destruct (deliveries_updated _ _ _ _) as [[n d']|e] eqn:Hu; [|done].
  injection Hc as <- <-. eapply updated_returning in Hu; [|intros; by where_facts].
  destruct Hu as [[-> Hstep]|(Hn & r & Hrow)]; [by left|right].
  apply Z.eqb_neq in Hn as ->. exists r. split; [|done].
  destruct Hrow as [_ _ -> _ _ _ _ _]. by rewrite lookup_insert_eq.
Qed.

Lemma claim_exact_row_delivers a owner now commit_clock w e w' :
  claim_exact_row a owner now commit_clock w = (Ok (Commit e), w') ->
  rtc delivery_step (db w) (db w').
Proof.
  unfold claim_exact_row. destruct (i64_checked_add _ _) as [expires|]; intros Hc; [|by tx_step Hc].
  apply bind_ok in Hc as (o & w1 & Hrow & Hc).
  apply claim_row_ok in Hrow as [[-> Hstep]|(r & -> & Hrow)].
  - etrans; [by apply rtc_once|]. revert Hc.
    match goal with |- ?m w1 = _ -> _ => enough (delivering m) as Hm by apply Hm end.
    apply delivering_bind; [apply terminalize_delivers; by left|].
    intros []; [apply delivering_ret|].
    apply delivering_bind; [apply note_exhausted_delivers|intros x; apply delivering_ret].
  - apply bind_ok in Hc as ([b p] & w2 & Ho & Hc).
    apply bind_ok in Hc as (policy & w3 & Hp & Hc). apply lift_ok in Hp as [_ <-].
    apply bind_ok in Hc as (q & w4 & Hq & Hc). apply lift_ok in Hq as [_ <-].
    assert (w' = w2) as ->.
    { destruct (_ || _); by apply ret_ok in Hc as [? ->]. }
    pose proof (rc_where _ _ _ _ _ _ Hrow) as Hw. unfold claim_where in Hw. where_facts.
    apply rtc_once. eapply claimed_step; eauto using claim_set_form.
Qed.

Lemma claim_inner_delivers a owner now readings :
  delivering (claim_scheduled_delivery_inner a owner now readings).
Proof.
  apply delivering_try. intros [] _. apply delivering_try. intros [] Ha%authority_waits.
  destruct (now <? 0); [apply delivering_fail|]. apply delivering_bind.
  - apply delivering_transaction. intros w x w' Hc.
    apply bind_ok in Hc as (t & w1 & Ht & Hc).
    apply terminalize_delivers in Ht; [|done]. etrans; [exact Ht|].
    destruct t; [by tx_step Hc|]. apply bind_ok in Hc as (ready & w2 & Hr & Hc).
    assert (rtc delivery_step (db w1) (db w2)) as Hr'.
    { destruct (bool_decide _); [by eapply requeue_exact_delivers|by apply ret_ok in Hr as [_ ->]]. }
    etrans; [exact Hr'|]. destruct ready; cbn in Hc; [|by tx_step Hc].
    by eapply claim_exact_row_delivers.
  - intros [r|[]]; [apply delivering_lift| |apply delivering_ret].
    apply delivering_bind; [apply delivering_body|intros _; apply delivering_ret].
    apply delivering_bind; [by apply terminalize_delivers|intros t; apply delivering_ret].
Qed.

Lemma claim_next_row_ok owner expires now w o w' :
  claim_next_row owner expires now w = (Ok o, w') ->
  (o = None /\ rtc delivery_step (db w) (db w'))
  \/ exists id r, o = Some (id, claim_next_set id owner expires now (db w) r)
       /\ row_claimed id (claim_next_set id owner expires now (db w))
            (candidate_where now true false (db w)) (db w) (db w') r.
Proof.
  intros Hc%sql_ok. destruct (candidate now true (db w)) as [id|] eqn:Hid;
    [|injection Hc as <- <-; by left].
  destruct (deliveries_updated _ _ _ _) as [[n d']|e] eqn:Hu; [|done].
  injection Hc as <- <-. eapply (updated_returning id) in Hu.
  2:{ intros id' r. unfold candidate_where. intros Hw. where_facts. congruence. }
  destruct Hu as [[-> Hstep]|(Hn & r & Hrow)]; [left; by split; [|apply rtc_once]|right].
  apply Z.eqb_neq in Hn as ->. exists id, r. split; [|done].
  destruct Hrow as [_ _ -> _ _ _ _ _]. by rewrite lookup_insert_eq.
Qed.

Lemma claim_next_delivers owner now expires :
  delivering (claim_next_scheduled_delivery owner now expires).
Proof.
  apply delivering_try. intros [] _. destruct (_ || _); [apply delivering_fail|].
  apply delivering_bind; [|intros x; apply delivering_lift].
  apply delivering_transaction. intros w x w' Hc.
  apply bind_ok in Hc as (skipped & w1 & Hs & Hc).
  assert (rtc delivery_step (db w) (db w1)) as Hs'.
  { revert Hs. apply returning_delivers. unfold candidate_where. intros d id r _ Hw. where_facts.
    apply is_skipped; [done..| |by split]. by apply Bool.eqb_prop. }
  etrans; [exact Hs'|]. destruct skipped; [by tx_step Hc|].
  apply bind_ok in Hc as (o & w2 & Hrow & Hc).
  apply claim_next_row_ok in Hrow as [[-> Hstep]|(id & r & -> & Hrow)].
  - etrans; [exact Hstep|]. by eapply note_exhausted_delivers.
  - apply bind_ok in Hc as ([b p] & w3 & Ho & Hc). apply ret_ok in Hc as [_ <-].
    pose proof (rc_where _ _ _ _ _ _ Hrow) as Hw. unfold candidate_where in Hw. where_facts.
    apply rtc_once. eapply claimed_step; eauto using claim_next_set_form.
    by apply Bool.eqb_prop.
Qed.

(** *** Recovery *)

Lemma lost_both b expires now where_ d n d1 m d2 :
  (forall id r, where_ id r = true -> expired_delivery b expires now d id r = true) ->
  deliveries_updated false where_ (lose_delivery now) d = Ok (n, d1) -> n = 1 ->
  delivery_attempts_updated (expired_delivery_attempt b expires now) (lose_delivery_attempt now) d1
    = Ok (m, d2) -> m = 1 ->
  delivery_step d d2.
Proof.
  intros Hw Hu Hn Hv Hm. unfold expired_delivery, expired_delivery_attempt in *.
  edestruct (both_rewrites b) as (r & a & Hboth); [| |exact Hu|done|exact Hv|done|];
    [intros id r ?%Hw; by bool_facts|cbn beta; intros; by bool_facts|].
  edestruct (holder_of_both b) as [Hr Ha]; [| |exact Hboth|];
    [intros id x ?%Hw; by bool_facts|cbn beta; intros; by bool_facts|].
  by eapply settled_step.
Qed.

Lemma stale_delivers : delivering stale_delivery.
Proof. apply delivering_bind; [apply increment_delivers|intros _; apply delivering_ret]. Qed.

Lemma reconcile_delivers id state attempt fence expires now :
  delivering (reconcile_expired_scheduled_delivery id state attempt fence expires now).
Proof.
  apply delivering_try. intros [] _. destruct (_ || _); [apply delivering_fail|].
  apply delivering_bind; [|intros x; apply delivering_lift].
  apply delivering_transaction. intros w x w' Hc.
  apply bind_ok in Hc as (row & w1 & Hq & Hc). apply query_ok in Hq as [_ <-].
  destruct row as [r|]; [|by eapply stale_delivers].
  destruct (negb _); [by eapply stale_delivers|].
  destruct (_ || _); [by eapply stale_delivers|]. destruct (_ || _); [by tx_step Hc|].
  apply bind_ok in Hc as (b & w2 & Hb & Hc). apply lift_ok in Hb as [_ <-].
  apply bind_ok in Hc as (n & w3 & Hu%sql_ok & Hc). destruct (n =? 1) eqn:En; cbn in Hc; bool_facts.
  - apply bind_ok in Hc as (m & w4 & Hv%sql_ok & Hc). destruct (m =? 1) eqn:Em; cbn in Hc; tx_step Hc; [|done].
    bool_facts. apply rtc_once. eapply (lost_both b expires now); [|done..].
    cbn beta; intros; by bool_facts.
  - etrans; [|by eapply stale_delivers]. apply rtc_once. eapply solo_updated; [|exact Hu].
    intros id' r' Hr' Hw. exfalso. apply En. apply deliveries_updated_ok in Hu as (-> & _).
    destruct (matching_key (fun id r => expired_delivery b expires now (db w1) id r
      && is_some (d_payload r)) (deliveries (db w1)) (bind_delivery_id b)) as [Hnil|Hone]; [| |done].
    + unfold expired_delivery. intros k z Hz. bool_facts. by eapply holds_delivery_facts.
    + assert ((id', r') ∈ ([] : list (string * Delivery))) as Hin
        by (rewrite <-Hnil; by apply elem_of_matching). by apply elem_of_nil in Hin.
Qed.

Lemma reclaim_loop_delivers limit now reclaimed w n w' :
  reclaim_deliveries limit now reclaimed w = (Ok (Some n), w') ->
  rtc delivery_step (db w) (db w').
Proof.
  revert reclaimed w. induction limit as [|limit IH]; intros reclaimed w Hl;
    cbn [reclaim_deliveries] in Hl; [by tx_step Hl|].
  apply bind_ok in Hl as (row & w1 & Hq & Hl). apply query_ok in Hq as [_ <-].
  destruct row as [[id r]|]; [|by tx_step Hl].
  apply bind_ok in Hl as (b & w2 & Hb & Hl). apply lift_ok in Hb as [_ <-].
  apply bind_ok in Hl as (expires & w3 & He & Hl). apply lift_ok in He as [_ <-].
  apply bind_ok in Hl as (both & w4 & Hu & Hl). destruct both; [|by tx_step Hl].
  etrans; [apply rtc_once|by eapply IH]. unfold update_both in Hu.
  apply bind_ok in Hu as (n1 & w5 & Hn1%sql_ok & Hu).
  apply bind_ok in Hu as (n2 & w6 & Hn2%sql_ok & Hu). apply ret_ok in Hu as [E <-]. bool_facts.
  by eapply (lost_both b expires now).
Qed.

Lemma reclaim_delivers now limit : delivering (reclaim_expired_scheduled_deliveries now limit).
Proof.
  unfold reclaim_expired_scheduled_deliveries. destruct (_ || _); [apply delivering_fail|].
  apply lost_lease_delivers. intros w x w' Hc.
  apply bind_ok in Hc as ([n|] & w1 & Hl & Hc); tx_step Hc; [|done].
  by eapply reclaim_loop_delivers.
Qed.

End Steps.

End DeliveryLifecycle.
