(* ===== verification/DeliveryInvariants.v ===== *)
(** * What the delivery store guarantees (crates/state/src/scheduler/store.rs)

    Read off the abstract machine of [DeliveryLifecycle], for every history of
    calls: the invariant that ties a delivery to its attempts, what may be sent
    again, deliveries that stay as they ended, fencing of senders, one sender
    per target at a time, and baselines that advance one accepted payload at a
    time; and, per operation, what it does on each of its branches. *)

From stdpp Require Import base tactics list strings numbers pretty gmap relations.
From Stdlib Require Import ZArith Lia Ascii.
From S2P Require Import Prelude.
From S2P Require Import Policy.
From S2P Require Import Schedule.
From S2P Require Import Json.
From S2P Require Import Digest.
From S2P Require Import Capability.
From S2P Require Import Authority.
From S2P Require Import Tables.
From S2P Require Import Runs.
From S2P Require Import Completion.
From S2P Require Import Lifecycle.
From S2P Require Import DeliveryTables.
From S2P Require Import Deliveries.
From S2P Require Import DeliveryLifecycle.
Import Digest.

Module DeliveryInvariants.
Import Schedule Snapshot Authority Tables Runs Completion DeliveryTables Deliveries
  DeliveryLifecycle.

(** ** Histories *)

Inductive DeliveryCall :=
| Prepare (delivery_id content_type body : string) (render now : Z)
    (skipped_none_policy : SkippedNoneBaselinePolicy)
| Peek (now : Z)
| Skip (a : ScheduledDeliveryAuthority) (now : Z)
| Reject (a : ScheduledDeliveryAuthority) (error_kind : string) (now : Z)
| ClaimNext (owner : string) (now lease_expires_at : Z)
| ClaimExact (a : ScheduledDeliveryAuthority) (owner : string) (now : Z)
    (readings : DeliveryReadings)
| HeartbeatDelivery (b : ScheduledDeliveryBinding) (now lease_expires_at : Z)
| CompleteDelivered (b : ScheduledDeliveryBinding) (provider_receipt : string) (completed_at : Z)
| CompleteFailure (b : ScheduledDeliveryBinding) (failure : ScheduledDeliveryFailure)
    (completed_at : Z)
| ReconcileDelivery (delivery_id : string) (expected_state : ScheduledDeliveryState)
    (expected_attempt expected_fence expected_lease_expires_at now : Z)
| ReclaimDeliveries (now limit : Z)
| RequeueDue (now limit : Z).

(** What an operator decided about an unknown outcome, and how it is recorded. *)
Definition resolution_name (s : ScheduledDeliveryState) : option string :=
  match s with
  | DDelivered => Some "confirm_delivery_delivered"
  | DFailedTerminal => Some "confirm_delivery_no_write"
  | DPending => Some "force_delivery_resend"
  | _ => None
  end.

(** An operator's resolution of an attempt is on record, with its evidence, and
    used up; a resend with its reason and the acknowledged risk of a duplicate. *)
Definition resolved_on_record (d : Db) (id : string) (n fence : Z) (s : ScheduledDeliveryState) :
    Prop :=
  exists action_id o c, operator_actions d !! action_id = Some o
    /\ operator_consumptions d !! action_id = Some c
    /\ resolution_name s = Some (o_action o) /\ o_target_kind o = "delivery" /\ o_target_id o = id
    /\ o_expected_attempt o = n /\ o_expected_fence o = fence
    /\ is_some (o_evidence_json o) = true /\ is_some (o_evidence_digest o) = true
    /\ (s = DPending -> o_duplicate_risk_acknowledged o = true
          /\ is_some (o_reason_json o) = true /\ is_some (o_reason_digest o) = true).

Lemma resolved_stays_on_record d d' id n fence s :
  log_grows d d' -> resolved_on_record d id n fence s -> resolved_on_record d' id n fence s.
Proof.
  intros [Ha Hc] (action_id & o & c & Ho & Hu & Hrest). exists action_id, o, c.
  split; [by eapply lookup_weaken|]. split; [by eapply lookup_weaken|done].
Qed.

(** An attempt after which the message may be sent again: the provider confirmed
    that it wrote nothing, or an operator took the risk of a duplicate. *)
Definition unwritten (d : Db) (id : string) (n : Z) (a : DeliveryAttempt) : Prop :=
  da_state a = DFailedRetryable
  \/ (da_state a = DDeliveryUnknown /\ resolved_on_record d id n (da_fence a) DPending).

Lemma unwritten_stays d d' id n a : log_grows d d' -> unwritten d id n a -> unwritten d' id n a.
Proof. intros Hl [?|[? ?]]; [by left|right]. eauto using resolved_stays_on_record. Qed.

(** The attempt that a delivery and its state leave behind. *)
Definition current_agrees (d : Db) (id : string) (r : Delivery) (a : DeliveryAttempt) : Prop :=
  match d_state r with
  | DSending => sends r a
  | DDelivered | DFailedRetryable | DDeliveryUnknown =>
      da_state a = d_state r
      /\ d_claimed_baseline_version r = Some (da_claimed_baseline_version a)
  | DFailedTerminal => da_state a = DFailedTerminal \/ unwritten d id (d_attempt r) a
  | DPending | DSkippedNone | DSkippedUnchanged => unwritten d id (d_attempt r) a
  end.

(** Every attempt carries the delivery's one idempotency key and its own fence;
    the ones before the current attempt ended without a write, as far as the
    provider or an operator says. *)
Definition attempt_agrees (d : Db) (id : string) (r : Delivery) (n : Z) (a : DeliveryAttempt) :
    Prop :=
  da_fence a = n /\ d_idempotency_key r = Some (da_idempotency_key a)
  /\ (n < d_attempt r -> unwritten d id n a)
  /\ (n = d_attempt r -> current_agrees d id r a).

Lemma current_stays d d' id r a :
  log_grows d d' -> current_agrees d id r a -> current_agrees d' id r a.
Proof.
  intros Hl. unfold current_agrees.
  destruct (d_state r); try done; try (by apply unwritten_stays).
  intros [?|?]; [by left|right]. by eapply unwritten_stays.
Qed.

Lemma attempt_stays d d' id r n a :
  log_grows d d' -> attempt_agrees d id r n a -> attempt_agrees d' id r n a.
Proof. intros Hl (? & ? & ? & ?). split_and!; eauto using unwritten_stays, current_stays. Qed.

(** A state that only a claim leads to. *)
Definition was_claimed (s : ScheduledDeliveryState) : bool :=
  match s with DSending | DDelivered | DFailedRetryable | DDeliveryUnknown => true | _ => false end.

Record delivery_agrees (id : string) (d : Db) (r : Delivery) : Prop := {
  agree_counts : d_fence r = d_attempt r /\ 0 <= d_attempt r;
  agree_claimed : was_claimed (d_state r) = true -> 0 < d_attempt r;
  agree_attempts : forall n, 0 < n <= d_attempt r ->
    exists a, delivery_attempts d !! (id, n) = Some a /\ attempt_agrees d id r n a;
  agree_no_more : forall n, ~ 0 < n <= d_attempt r -> delivery_attempts d !! (id, n) = None
}.

Section Histories.
Context `{Serde} `{Sha2} `{Sqlite}.

Definition deliver (c : DeliveryCall) (w : World) : World :=
  match c with
  | Prepare id content body render now policy =>
      (prepare_scheduled_delivery id content body render now policy w).2
  | Peek now => (peek_scheduled_delivery_work now w).2
  | Skip a now => (skip_scheduled_delivery_unchanged a now w).2
  | Reject a kind now => (reject_scheduled_delivery_readiness a kind now w).2
  | ClaimNext owner now expires => (claim_next_scheduled_delivery owner now expires w).2
  | ClaimExact a owner now readings =>
      (claim_scheduled_delivery_from_snapshot_with_clock a owner now readings w).2
  | HeartbeatDelivery b now expires => (heartbeat_scheduled_delivery b now expires w).2
  | CompleteDelivered b receipt now => (complete_scheduled_delivery_delivered b receipt now w).2
  | CompleteFailure b failure now => (complete_scheduled_delivery_failure b failure now w).2
  | ReconcileDelivery id s n f expires now =>
      (reconcile_expired_scheduled_delivery id s n f expires now w).2
  | ReclaimDeliveries now limit => (reclaim_expired_scheduled_deliveries now limit w).2
  | RequeueDue now limit => (requeue_due_scheduled_deliveries now limit w).2
  end.

Definition deliver_all (calls : list DeliveryCall) (w : World) : World :=
  foldl (fun w c => deliver c w) w calls.

Lemma delivered_by {A} (m : Tx A) w :
  respects (rtc delivery_step) m -> rtc delivery_step (db w) (db (m w).2).
Proof. intros Hm. destruct (m w) as [r w'] eqn:E. by eapply Hm. Qed.

Lemma deliver_steps c w : rtc delivery_step (db w) (db (deliver c w)).
Proof.
  destruct c; cbn [deliver]; apply delivered_by;
    eauto using prepare_delivers, peek_delivers, skip_delivers, reject_delivers,
      claim_next_delivers, claim_inner_delivers, heartbeat_delivers, delivered_delivers,
      failure_delivers, reconcile_delivers, reclaim_delivers, requeue_due_delivers.
Qed.

Lemma deliver_all_steps calls w : rtc delivery_step (db w) (db (deliver_all calls w)).
Proof.
  revert w. induction calls as [|c calls IH]; intros w; [done|]. cbn.
  etrans; [apply deliver_steps|apply IH].
Qed.

(** ** The invariant *)

Record deliveries_consistent (d : Db) : Prop := {
  dcon_rows : delivery_rows_ok d;
  dcon_agrees : forall id r, deliveries d !! id = Some r -> delivery_agrees id d r;
  dcon_owned : forall id n a, delivery_attempts d !! (id, n) = Some a ->
    exists r, deliveries d !! id = Some r;
  dcon_distinct : forall id id' r r', deliveries d !! id = Some r -> deliveries d !! id' = Some r' ->
    id <> id' -> intent_collides id (d_intent r) (id', r') = false
}.

Lemma agrees_ext id d d' r :
  same_sends id d d' -> log_grows d d' -> delivery_agrees id d r -> delivery_agrees id d' r.
Proof.
  intros Hs Hl []. split; try done; intros n Hn; rewrite Hs; [|by auto].
  destruct (agree_attempts0 n Hn) as (a & Ha & Hag). exists a. eauto using attempt_stays.
Qed.

(** A step that keeps the counters keeps the attempts' agreement, if it does so
    for the current attempt. *)
Lemma agrees_kept id d r r' :
  keeps_delivery r r' ->
  (was_claimed (d_state r') = true -> was_claimed (d_state r) = true) ->
  (forall a, da_fence a = d_fence r -> current_agrees d id r a -> current_agrees d id r' a) ->
  delivery_agrees id d r -> delivery_agrees id d r'.
Proof.
  intros [] Hcl Hcur []. destruct agree_counts0 as [Hcount ?]. split; rewrite ?kept_attempt0, ?kept_fence0; auto.
  intros n Hn. destruct (agree_attempts0 n Hn) as (a & Ha & Hf & Hk & Hp & Hc).
  exists a. split; [done|]. unfold attempt_agrees. rewrite kept_key0, kept_attempt0.
  split_and!; auto. intros E. apply Hcur; [congruence|auto].
Qed.

Lemma solo_agrees id d d' r r' :
  solo d r r' -> same_sends id d d' -> log_grows d d' -> delivery_agrees id d r ->
  delivery_agrees id d' r'.
Proof.
  intros Hsolo Hs Hl Hagree. apply (agrees_ext id d); [done..|]. destruct Hsolo.
  - (* the payload: nothing the attempts mention changes *)
    destruct Hagree. split; rewrite ?Hattempt, ?Hfence; try done.
    + intros Hcl. destruct Hstate' as [E|E]; by rewrite E in Hcl.
    + intros n Hn. destruct (agree_attempts0 n Hn) as (a & Ha & Hf & Hk & Hp & Hc).
      exists a. split; [done|]. unfold attempt_agrees, current_agrees in *.
      rewrite Hkey, Hattempt. rewrite Hstate in Hc. destruct Hstate' as [->| ->]; split_and!; auto.
  - apply (agrees_kept id d r); [done|by rewrite Hstate'| |done]. intros a _.
    unfold current_agrees. by rewrite Hstate, Hstate', (kept_attempt _ _ Hkeeps).
  - apply (agrees_kept id d r); [done|by rewrite Hstate'| |done]. intros a _.
    unfold current_agrees. rewrite Hstate', (kept_attempt _ _ Hkeeps).
    destruct Hstate as [-> | ->]; [by right|]. intros [? _]. right. by left.
  - apply (agrees_kept id d r); [done|by rewrite Hstate'| |done]. intros a _.
    unfold current_agrees. rewrite Hstate, Hstate'. intros [? _]. by left.
  - apply (agrees_kept id d r); [done|by rewrite Hstate'| |done]. intros a _.
    unfold current_agrees. by rewrite Hstate, Hstate', (kept_attempt _ _ Hkeeps).
Qed.

Lemma claim_agrees id d d' r r' a' :
  claims_delivery id d r r' a' -> delivery_attempts d' !! (id, d_attempt r') = Some a' ->
  same_sends_but id (d_attempt r') d d' -> log_grows d d' -> delivery_agrees id d r ->
  delivery_agrees id d' r'.
Proof.
  intros [] Ha Hs Hl []. destruct claimed_sends0.
  assert (d_fence r' = d_attempt r') as Hfence by lia. split.
  - lia.
  - lia.
  - intros n Hn. destruct (decide (n = d_attempt r')) as [->|Hne].
    + exists a'. split; [done|]. split_and!; [congruence|done|lia|]. intros _.
      unfold current_agrees. by rewrite claimed_state0.
    + destruct (agree_attempts0 n) as (a & Ha0 & Hf & Hk & Hp & Hc); [lia|].
      exists a. rewrite Hs by done. split; [done|]. split_and!; [done| | |done].
      * rewrite claimed_key0. unfold idempotency_key_of. by rewrite Hk.
      * intros _. eapply unwritten_stays; [done|].
        destruct (decide (n = d_attempt r)) as [E|]; [|apply Hp; lia].
        specialize (Hc E). unfold current_agrees in Hc. by rewrite claimed_from0, <-E in Hc.
  - intros n Hn. rewrite Hs by lia. apply agree_no_more0. lia.
Qed.

(** Both rows of the current attempt are rewritten. *)
Lemma rewritten_agrees id d d' r r' a a' :
  was_claimed (d_state r) = true -> delivery_attempts d !! (id, d_attempt r) = Some a ->
  delivery_attempts d' !! (id, d_attempt r) = Some a' ->
  keeps_delivery r r' -> keeps_attempt a a' ->
  (current_agrees d id r a -> current_agrees d' id r' a') ->
  same_sends_but id (d_attempt r) d d' -> log_grows d d' ->
  delivery_agrees id d r -> delivery_agrees id d' r'.
Proof.
  intros Hs Ha Ha' [] [] Hcur Hsame Hl []. specialize (agree_claimed0 Hs).
  split; rewrite ?kept_attempt0, ?kept_fence0; auto.
  - intros n Hn. destruct (agree_attempts0 n Hn) as (a1 & Ha1 & Hf & Hk & Hp & Hc).
    unfold attempt_agrees. rewrite kept_key0, kept_attempt0.
    destruct (decide (n = d_attempt r)) as [->|Hne].
    + rewrite Ha in Ha1. injection Ha1 as <-. exists a'.
      split_and!; [done|congruence..|lia|by auto].
    + exists a1. rewrite Hsame by done. split_and!; [done..| |done].
      eauto using unwritten_stays.
  - intros n Hn. rewrite Hsame by lia. auto.
Qed.

Lemma current_claimed d id r a :
  was_claimed (d_state r) = true -> current_agrees d id r a ->
  d_claimed_baseline_version r = Some (da_claimed_baseline_version a).
Proof. unfold current_agrees. destruct (d_state r); try done; by intros _ []. Qed.

Lemma settled_current d d' id r r' a a' :
  was_claimed (d_state r) = true -> keeps_attempt a a' -> settles r r' a' ->
  current_agrees d id r a -> current_agrees d' id r' a'.
Proof.
  intros Hs [] (Hne & Hst & Heq & Hv) Hc%current_claimed; [|done]. unfold current_agrees.
  destruct (d_state r'); try done; (split; congruence) || by left.
Qed.

Lemma report_agrees id d d' r r' a a' :
  d_state r = DSending -> delivery_attempts d !! (id, d_attempt r) = Some a ->
  delivery_attempts d' !! (id, d_attempt r) = Some a' ->
  keeps_delivery r r' -> keeps_attempt a a' ->
  extends_send r r' a a' \/ settles r r' a' ->
  same_sends_but id (d_attempt r) d d' -> log_grows d d' ->
  delivery_agrees id d r -> delivery_agrees id d' r'.
Proof.
  intros Hs Ha Ha' Hk Hk' Hrep. apply (rewritten_agrees id d d' r r' a a'); try done.
  { by rewrite Hs. }
  destruct Hrep as [(Hs' & ? & ? & t & ? & ? & ?)|Hset].
  - unfold current_agrees. rewrite Hs, Hs'. destruct Hk, Hk'. intros []. split; congruence.
  - apply settled_current; [by rewrite Hs|done..].
Qed.

Lemma delivery_moves_agree id d d' r' :
  delivery_moves id d d' -> log_grows d d' ->
  (forall r, deliveries d !! id = Some r -> delivery_agrees id d r) ->
  deliveries d' !! id = Some r' -> delivery_agrees id d' r'.
Proof.
  intros Hm Hl Hd Hr'. destruct Hm.
  - apply (agrees_ext id d); [done..|]. apply Hd. by rewrite <-Hrow.
  - simplify_eq. eapply solo_agrees; eauto.
  - simplify_eq. eapply claim_agrees; eauto.
  - rewrite Hr' in Hrow'. injection Hrow' as <-.
    apply (report_agrees id d d' r r' a a'); auto.
Qed.

Lemma delivery_moves_owned id d d' n a' :
  delivery_moves id d d' -> delivery_attempts d' !! (id, n) = Some a' ->
  (exists r', deliveries d' !! id = Some r')
  \/ (delivery_attempts d !! (id, n) = Some a' /\ deliveries d' !! id = deliveries d !! id).
Proof.
  intros [] Ha'; eauto. right. by rewrite <-Hsends.
Qed.

Lemma delivery_moves_back id d d' r' :
  delivery_moves id d d' -> deliveries d' !! id = Some r' ->
  exists r, deliveries d !! id = Some r /\ d_intent r' = d_intent r.
Proof.
  intros [] Hr'; simplify_eq.
  - exists r'. by rewrite <-Hrow.
  - exists r. split; [done|]. destruct Hsolo; try done; by apply kept_intent.
  - exists r. split; [done|]. by destruct Hclaims.
  - exists r. split; [done|]. by apply kept_intent.
Qed.

Lemma delivery_step_consistent d d' :
  deliveries_consistent d -> delivery_step d d' -> deliveries_consistent d'.
Proof.
  intros [] (Hm & Hrows & Hrest). split; [by auto|..].
  - intros id r' Hr'. eapply delivery_moves_agree; eauto using rest_log.
  - intros id n a' Ha'. destruct (delivery_moves_owned id d d' n a') as [|[Ha ->]]; eauto.
  - intros id id' r r' Hr Hr' Hne.
    destruct (delivery_moves_back id d d' r) as (r0 & Hr0 & ->); [done..|].
    destruct (delivery_moves_back id' d d' r') as (r0' & Hr0' & Hi); [done..|].
    unfold intent_collides. cbn. rewrite Hi. by apply (dcon_distinct0 id id' r0 r0').
Qed.

Lemma delivery_steps_consistent d d' :
  rtc delivery_step d d' -> deliveries_consistent d -> deliveries_consistent d'.
Proof. induction 1; eauto using delivery_step_consistent. Qed.

(** *** One delivery along a history *)

Lemma step_delivery d d' id r :
  delivery_step d d' -> deliveries d !! id = Some r ->
  exists r', deliveries d' !! id = Some r'
    /\ (r' = r \/ solo d r r'
        \/ (exists a', claims_delivery id d r r' a')
        \/ (d_state r = DSending /\ keeps_delivery r r' /\ attempt_states (d_state r') = true)).
Proof.
  intros [Hm _] Hr. destruct (Hm id); simplify_eq.
  - exists r. rewrite Hrow. auto.
  - eauto 10.
  - eauto 10.
  - exists r'. split; [done|]. do 3 right. split_and!; [done..|].
    destruct Hreport as [(-> & _)|(_ & ? & _)]; done.
Qed.

(** What ended stays as it is. *)
Definition is_settled (s : ScheduledDeliveryState) : bool :=
  match s with
  | DDelivered | DFailedTerminal | DDeliveryUnknown | DSkippedNone | DSkippedUnchanged => true
  | _ => false
  end.

Lemma settled_step_stays d d' id r :
  delivery_step d d' -> deliveries d !! id = Some r -> is_settled (d_state r) = true ->
  deliveries d' !! id = Some r.
Proof.
  intros Hstep Hr Hs. destruct (step_delivery d d' id r) as (r' & Hr' & Hcase); [done..|].
  destruct Hcase as [->|[Hsolo|[[a' []]|[E _]]]]; [done|exfalso..].
  - destruct Hsolo; try by rewrite Hstate in Hs. by destruct Hstate as [E|E]; rewrite E in Hs.
  - by rewrite claimed_from0 in Hs.
  - by rewrite E in Hs.
Qed.

(** The fence and the attempt never go back, the frozen payload and the key
    never change. *)
Record delivery_grows (r r' : Delivery) : Prop := {
  grows_intent : d_intent r' = d_intent r;
  grows_attempt : d_attempt r <= d_attempt r';
  grows_fence : d_fence r <= d_fence r';
  grows_payload : forall p, d_payload r = Some p -> d_payload r' = Some p;
  grows_key : forall k, d_idempotency_key r = Some k -> d_idempotency_key r' = Some k
}.

#[export] Instance delivery_grows_preorder : PreOrder delivery_grows.
Proof.
  split; [by split|]. intros r1 r2 r3 [] []. split; try lia; [congruence|by auto..].
Qed.

Lemma kept_grows r r' : keeps_delivery r r' -> delivery_grows r r'.
Proof. intros []. split; try lia; [done|by rewrite kept_payload0|by rewrite kept_key0]. Qed.

Lemma step_grows d d' id r :
  delivery_step d d' -> deliveries d !! id = Some r ->
  exists r', deliveries d' !! id = Some r' /\ delivery_grows r r'.
Proof.
  intros Hstep Hr. destruct (step_delivery d d' id r) as (r' & Hr' & Hcase); [done..|].
  exists r'. split; [done|]. destruct Hcase as [->|[Hsolo|[[a' []]|(_ & Hk & _)]]];
    [done| | |by apply kept_grows].
  - destruct Hsolo; try by apply kept_grows. split; try lia; [done| |by rewrite Hkey].
    intros p'. by rewrite Hnone.
  - split; try lia; [done|by rewrite claimed_payload_kept0|]. intros k Hk. rewrite claimed_key0. unfold idempotency_key_of.
    by rewrite Hk.
Qed.

Lemma steps_grow d d' id r :
  rtc delivery_step d d' -> deliveries d !! id = Some r ->
  exists r', deliveries d' !! id = Some r' /\ delivery_grows r r'.
Proof.
  intros Hsteps. revert r. induction Hsteps as [d|d d1 d' Hstep Hsteps IH]; intros r Hr; [by exists r|].
  destruct (step_grows d d1 id r Hstep Hr) as (r1 & Hr1 & Hg).
  destruct (IH r1 Hr1) as (r' & Hr' & Hg'). exists r'. split; [done|by etrans].
Qed.

Lemma settled_steps_stay d d' id r :
  rtc delivery_step d d' -> deliveries d !! id = Some r -> is_settled (d_state r) = true ->
  deliveries d' !! id = Some r.
Proof. induction 1; eauto using settled_step_stays. Qed.

(** ** Fencing *)

(** Nothing but counters differs. *)
Record delivery_keeps (d d' : Db) : Prop := {
  dk_deliveries : deliveries d' = deliveries d;
  dk_attempts : delivery_attempts d' = delivery_attempts d;
  dk_baselines : delivery_baselines d' = delivery_baselines d;
  dk_consumptions : operator_consumptions d' = operator_consumptions d;
  dk_rest : same_rest d d'
}.

#[export] Instance delivery_keeps_preorder : PreOrder delivery_keeps.
Proof.
  split; [by split|]. intros d d1 d2 [] []. split; [congruence..|]. by etrans.
Qed.

Lemma increment_keeps kind amount :
  respects delivery_keeps (increment_scheduler_transition_total kind amount).
Proof.
  apply (respects_bind delivery_keeps).
  - apply (respects_sql delivery_keeps). intros d a d' [= _ <-]. by split.
  - intros []; [apply (respects_ret delivery_keeps)|apply (respects_fail delivery_keeps)].
Qed.

(** The tables after a report, and what it returned: as before, or the commit's. *)
Lemma lost_lease_cases {A} (body : Tx (Ending (option A))) w r w' :
  (forall w e w', body w = (Ok e, w') -> e = Rollback None \/ exists x, e = Commit (Some x)) ->
  or_delivery_lost_lease (transaction body) w = (r, w') ->
  ((forall x, r <> Ok x) /\ delivery_keeps (db w) (db w'))
  \/ exists x w0 w1, r = Ok x /\ db w0 = db w /\ body w0 = (Ok (Commit (Some x)), w1)
       /\ db w' = db w1.
Proof.
  intros Hends Ho. unfold or_delivery_lost_lease in Ho. unfold bind at 1 in Ho.
  destruct (transaction body w) as [[o|e] w1] eqn:E; apply transaction_cases in E.
  - destruct E as [(x & w0 & w2 & [= <-] & Hdb & Hb & Hw1)|[Hdb Hno]].
    + destruct (Hends _ _ _ Hb) as [[=]|[x [= ->]]]. right. exists x, w0, w2.
      injection Ho as <- <-. done.
    + destruct (Hno o eq_refl) as (w0 & w2 & _ & [Hb|Hb]);
        destruct (Hends _ _ _ Hb) as [[= ->]|[x [=]]].
      left. split.
      * intros x ->. apply bind_ok in Ho as (? & ? & _ & Ho). by tx_step Ho.
      * rewrite <-Hdb. revert Ho.
        match goal with |- ?m w1 = _ -> _ =>
          enough (respects delivery_keeps m) as Hm by apply Hm end.
        apply (respects_bind delivery_keeps); [apply increment_keeps|intros _].
        apply (respects_fail delivery_keeps).
  - injection Ho as <- <-. left. split; [done|].
    destruct E as [(x & _ & _ & [=] & _)|[-> _]]. done.
Qed.

(** The binding is the one that is sending, and its lease has not ended. *)
Definition delivery_held (b : ScheduledDeliveryBinding) (now : Z) (d : Db) : Prop :=
  exists r t, deliveries d !! bind_delivery_id b = Some r
    /\ holds_delivery b (bind_delivery_id b) r = true
    /\ d_lease_expires_at r = Some t /\ now < t.

Lemma after_some o t : after o t = true -> exists x, o = Some x /\ t < x.
Proof. unfold after. destruct o as [x|]; [|done]. intros Hx. exists x. split; [done|]. lia. Qed.

Lemma heartbeat_cases b now expires w r w' :
  heartbeat_scheduled_delivery b now expires w = (r, w') ->
  (r <> Ok tt /\ delivery_keeps (db w) (db w'))
  \/ (r = Ok tt /\ delivery_held b now (db w)).
Proof.
  unfold heartbeat_scheduled_delivery. intros Hh.
  unfold bind at 1, lift in Hh. destruct (validate_delivery_binding b) as [[]|e];
    [|injection Hh as <- <-; by left].
  destruct (expires <=? now); [injection Hh as <- <-; by left|].
  apply lost_lease_cases in Hh as [[Hr Hk]|([] & w0 & w1 & -> & <- & Hb & _)].
  - left. split; [apply Hr|done].
  - right. split; [done|]. apply bind_ok in Hb as (held & w2 & Hu & Hb).
    destruct held; [|by tx_step Hb].
    eapply (update_both_ok b) in Hu as (x & a & []); [|intros; by bool_facts..].
    bool_facts. match goal with E : after _ _ = true |- _ =>
      apply after_some in E as (t & ? & ?) end. by exists x, t.
  - intros w1 e w2 Hb. apply bind_ok in Hb as ([] & w3 & _ & Hb); apply ret_ok in Hb as [<- _]; eauto.
Qed.

(** What a settled report wrote. *)
Record settled_exactly (b : ScheduledDeliveryBinding) (state : ScheduledDeliveryState)
    (next : option Z) (receipt : option string) (outcome : string) (kind message : option string)
    (now : Z) (d d' : Db) (r : Delivery) (a : DeliveryAttempt) : Prop := {
  se_held : delivery_held b now d;
  se_row : deliveries d !! bind_delivery_id b = Some r;
  se_attempt : delivery_attempts d !! (bind_delivery_id b, bind_attempt b) = Some a;
  se_holds : holds_delivery b (bind_delivery_id b) r = true;
  se_holds_attempt : holds_delivery_attempt b (bind_delivery_id b, bind_attempt b) a = true;
  se_deliveries : deliveries d' = <[bind_delivery_id b :=
    settle_delivery state (fun _ => next) (fun _ => receipt) outcome kind message now r]> (deliveries d);
  se_attempts : delivery_attempts d' = <[(bind_delivery_id b, bind_attempt b) :=
    settle_delivery_attempt state (fun _ => receipt) outcome kind message now a]>
      (delivery_attempts d)
}.

Lemma transition_exact b state outcome receipt kind message next now w u w' :
  transition_delivery_terminal b state outcome receipt kind message next now w = (Ok u, w') ->
  exists r a, settled_exactly b state next receipt outcome kind message now (db w) (db w') r a
    /\ delivery_baselines (db w') = delivery_baselines (db w) /\ same_rest (db w) (db w').
Proof.
  intros (r & a & [] & Hr & Ha)%transition_ok. exists r, a. split; [|done]. split; try done.
  bool_facts. match goal with E : after _ _ = true |- _ =>
    apply after_some in E as (t & ? & ?) end. by exists r, t.
Qed.

Lemma upsert_advances id at_ expected d d' :
  upsert_baseline id at_ expected d = Ok (true, d') ->
  exists r p identity f, deliveries d !! id = Some r /\ d_payload r = Some p
    /\ baseline_identity r = Some identity /\ artifact_of d r = Some f
    /\ expected = match delivery_baselines d !! identity with
                  | Some b => delivery_baseline_version b | None => 0 end
    /\ expected < i64_max
    /\ delivery_baselines d' = <[identity := mkAcceptedBaseline (payload_digest p) id
         (d_run_id (d_intent r)) (Some (d_result_artifact_id (d_intent r))) (f_result_hash f) at_
         (expected + 1)]> (delivery_baselines d).
Proof.
  unfold upsert_baseline. cbv zeta. intros Hu.
  destruct (deliveries d !! id) as [r|] eqn:Hr; cbn in Hu; [|done].
  destruct (d_payload r) as [p|] eqn:Hp; cbn in Hu; [|done].
  destruct (baseline_identity r) as [identity|] eqn:Hi; cbn in Hu; [|done].
  destruct (artifact_of d r) as [f|] eqn:Hf; cbn in Hu; [|done].
  exists r, p, identity, f. destruct (delivery_baselines d !! identity) as [b|] eqn:Hb.
  - peel Hu. bool_facts. split_and!; try done. by subst.
  - rewrite andb_false_r, orb_false_r in Hu. peel Hu. bool_facts. subst. by split_and!.
Qed.

(** What a delivered completion wrote: the baseline of its target advanced by
    one, from the version the payload was claimed against, to this payload. *)
Record accepts_delivery (b : ScheduledDeliveryBinding) (receipt : string) (now : Z) (d d' : Db)
    (r : Delivery) (p : DeliveryPayload) (identity : AcceptedDeliveryBaselineIdentity)
    (version : Z) (hash : string) : Prop := {
  ad_settled : exists a, settled_exactly b DDelivered None (Some receipt) "confirmed_success"
    None None now d d' r a;
  ad_payload : d_payload r = Some p;
  ad_identity : baseline_identity r = Some identity;
  ad_claimed : d_claimed_baseline_version r = Some version;
  ad_version : version = match delivery_baselines d !! identity with
                         | Some b => delivery_baseline_version b | None => 0 end;
  ad_baselines : delivery_baselines d' = <[identity := mkAcceptedBaseline (payload_digest p)
    (bind_delivery_id b) (d_run_id (d_intent r)) (Some (d_result_artifact_id (d_intent r))) hash
    now (version + 1)]> (delivery_baselines d);
  ad_rest : same_rest d d'
}.

Lemma expectation_delivered b state next receipt outcome kind message now d d' r a version :
  settled_exactly b state next receipt outcome kind message now d d' r a -> state = DDelivered ->
  baseline_expectation (bind_delivery_id b) d' = Some version ->
  d_claimed_baseline_version r = Some version.
Proof.
  intros [] -> He. unfold baseline_expectation in He.
  rewrite se_deliveries0, lookup_insert_eq in He. cbn in He.
  destruct (d_payload r); cbn in He; [|done]. rewrite se_attempts0 in He.
  apply holds_delivery_facts in se_holds0 as (_ & _ & Hn & _). rewrite Hn, lookup_insert_eq in He.
  rewrite (bool_decide_eq_false_2 (DDelivered = DSkippedNone)) in He by done. cbn in He.
  destruct (_ && _) eqn:E in He; [|done]. injection He as <-. where_facts. done.
Qed.

Lemma delivered_cases b receipt now w r w' :
  complete_scheduled_delivery_delivered b receipt now w = (r, w') ->
  (r <> Ok tt /\ delivery_keeps (db w) (db w'))
  \/ (r = Ok tt /\ exists row p identity version hash,
        accepts_delivery b receipt now (db w) (db w') row p identity version hash).
Proof.
  unfold complete_scheduled_delivery_delivered. intros Hh.
  unfold bind at 1, lift at 1 in Hh. destruct (validate_delivery_binding b) as [[]|e];
    [|injection Hh as <- <-; by left].
  unfold bind at 1, lift at 1 in Hh. destruct (map_err _ _) as [[]|e];
    [|injection Hh as <- <-; by left].
  apply lost_lease_cases in Hh as [[Hr Hk]|([] & w0 & w1 & -> & <- & Hb & ->)].
  - left. split; [apply Hr|done].
  - right. split; [done|]. apply bind_ok in Hb as ([[]|] & w2 & Ht & Hb); [|by tx_step Hb].
    apply catch_lost_lease_some, transition_exact in Ht as (row & a & Hs & Hbl & Hrest).
    apply bind_ok in Hb as ([] & w3 & Hadv & Hb); tx_step Hb.
    apply bind_ok in Hadv as ([version|] & w4 & Hq & Hadv); [|by tx_step Hadv].
    apply query_ok in Hq as [Hv Hdb]. symmetry in Hv. rewrite <-Hdb in Hv.
    apply sql_ok in Hadv. pose proof (upsert_baseline_ok _ _ _ _ _ _ Hadv) as (Hd3 & Ha3 & Hrest3).
    apply upsert_advances in Hadv as (row' & p & identity & f & Hr' & Hp & Hi & Hf & Hver & Hlt & Hbl3).
    rewrite Hdb in Hv. pose proof (expectation_delivered _ _ _ _ _ _ _ _ _ _ _ _ _ Hs eq_refl Hv) as Hcl.
    rewrite Hdb, (se_deliveries _ _ _ _ _ _ _ _ _ _ _ _ Hs), lookup_insert_eq in Hr'.
    injection Hr' as <-. cbn in Hp, Hi, Hbl3.
    exists row, p, identity, version, (f_result_hash f). rewrite Hdb, Hbl in Hver, Hbl3.
    split; try done; [|etrans; [done|by rewrite <-Hdb]].
    exists a. destruct Hs. split; try done; congruence.
  - intros w1 e w2 Hb. apply bind_ok in Hb as ([[]|] & w3 & _ & Hb); [|by apply ret_ok in Hb as [<- _]; left].
    apply bind_ok in Hb as ([] & w4 & _ & Hb); tx_step Hb. eauto.
Qed.

(** How a reported failure is classified: an ambiguous write is unknown, a
    confirmed one is retried only while the policy allows. *)
Definition failure_decided (b : ScheduledDeliveryBinding) (failure : ScheduledDeliveryFailure)
    (now : Z) (r : Delivery) (c : FailureColumns) : Prop :=
  match failure with
  | ConfirmedNoWriteRetryable kind message next =>
      now < next /\ exists policy p, policy_of_row r = Ok policy /\ d_payload r = Some p
      /\ c = if Policy.delivery_can_retry_at policy (bind_attempt b) (payload_created_at p) next
             then mkFailureColumns DFailedRetryable "confirmed_no_write_retryable" kind message
                    (Some next)
             else mkFailureColumns DFailedTerminal "confirmed_no_write_terminal"
                    "delivery_retry_exhausted" message None
  | ConfirmedNoWriteTerminal kind message =>
      c = mkFailureColumns DFailedTerminal "confirmed_no_write_terminal" kind message None
  | AmbiguousPostWrite kind message =>
      c = mkFailureColumns DDeliveryUnknown "ambiguous_post_write" kind message None
  end.

Lemma disposition_decided b failure c0 now w c w' :
  failure_columns failure now = Ok c0 ->
  failure_disposition b c0 now w = (Ok (Some c), w') ->
  db w' = db w
  /\ forall r, deliveries (db w) !! bind_delivery_id b = Some r -> failure_decided b failure now r c.
Proof.
  intros Hc Hd. unfold failure_disposition in Hd. destruct failure as [kind message next|kind message|kind message];
    cbn in Hc; [|by simplify_eq; apply ret_ok in Hd as [[= <-] <-]..].
  destruct (next <=? now) eqn:E; [done|]. simplify_eq. cbn in Hd.
  apply bind_ok in Hd as (row & w1 & Hq & Hd). apply query_ok in Hq as [Hrow Hdb].
  destruct row as [r|]; [|by tx_step Hd].
  apply bind_ok in Hd as (policy & w2 & Hp & Hd). apply lift_ok in Hp as [Hp <-].
  apply bind_ok in Hd as (p & w3 & Hpay & Hd). apply lift_ok in Hpay as [Hpay <-].
  apply ret_ok in Hd as [[= <-] <-]. split; [done|]. intros r' Hr'. rewrite Hr' in Hrow.
  cbn in Hrow. destruct (_ && _); [|done]. injection Hrow as ->. ok_facts.
  split; [lia|]. exists policy, p. by destruct (Policy.delivery_can_retry_at _ _ _ _).
Qed.

Lemma failure_cases b failure now w r w' :
  complete_scheduled_delivery_failure b failure now w = (r, w') ->
  (r <> Ok tt /\ delivery_keeps (db w) (db w'))
  \/ (r = Ok tt /\ exists row a c, failure_decided b failure now row c
       /\ settled_exactly b (fail_state c) (fail_next_attempt_at c) None (fail_outcome c)
            (Some (fail_kind c)) (fail_message c) now (db w) (db w') row a
       /\ delivery_baselines (db w') = delivery_baselines (db w)).
Proof.
  unfold complete_scheduled_delivery_failure. intros Hh.
  unfold bind at 1, lift at 1 in Hh. destruct (validate_delivery_binding b) as [[]|e];
    [|injection Hh as <- <-; by left].
  unfold bind at 1, lift at 1 in Hh. destruct (failure_columns failure now) as [c0|e] eqn:Hc0;
    [|injection Hh as <- <-; by left].
  unfold bind at 1, lift at 1 in Hh. destruct (validate_delivery_error _ _) as [[]|e];
    [|injection Hh as <- <-; by left].
  apply lost_lease_cases in Hh as [[Hr Hk]|([] & w0 & w1 & -> & <- & Hb & ->)].
  - left. split; [apply Hr|done].
  - right. split; [done|]. apply bind_ok in Hb as ([c|] & w2 & Hd & Hb); [|by tx_step Hb].
    eapply disposition_decided in Hd as [Hdb Hdec]; [|done].
    apply bind_ok in Hb as ([[]|] & w3 & Ht & Hb); tx_step Hb; [|done].
    apply catch_lost_lease_some, transition_exact in Ht as (row & a & Hs & Hbl & _).
    rewrite Hdb in Hs, Hbl. exists row, a, c. split_and!; [|done..]. apply Hdec, Hs.
  - intros w1 e w2 Hb. apply bind_ok in Hb as ([c|] & w3 & _ & Hb);
      [|by apply ret_ok in Hb as [<- _]; left].
    apply bind_ok in Hb as ([[]|] & w4 & _ & Hb); apply ret_ok in Hb as [<- _]; eauto.
Qed.

(** The binding that a report presents, and the time it presents it at. *)
Definition delivery_presents (c : DeliveryCall) : option (ScheduledDeliveryBinding * Z) :=
  match c with
  | HeartbeatDelivery b now _ | CompleteDelivered b _ now | CompleteFailure b _ now => Some (b, now)
  | _ => None
  end.

Lemma delivery_presents_guarded c b now w :
  delivery_presents c = Some (b, now) ->
  delivery_keeps (db w) (db (deliver c w)) \/ delivery_held b now (db w).
Proof.
  destruct c; cbn [delivery_presents]; intros [= <- <-]; cbn [deliver].
  - destruct (heartbeat_scheduled_delivery _ _ _ w) as [r w'] eqn:E.
    apply heartbeat_cases in E as [[_ ?]|[_ ?]]; [by left|by right].
  - destruct (complete_scheduled_delivery_delivered _ _ _ w) as [r w'] eqn:E.
    apply delivered_cases in E as [[_ ?]|(_ & row & p & i & v & h & [[a []]])]; [by left|by right].
  - destruct (complete_scheduled_delivery_failure _ _ _ w) as [r w'] eqn:E.
    apply failure_cases in E as [[_ ?]|(_ & row & a & x & _ & [] & _)]; [by left|by right].
Qed.

(** ** One sender per target *)

Lemma omap_inj {A B} (f : A -> option B) (l : list A) x y b :
  NoDup (omap f l) -> x ∈ l -> y ∈ l -> f x = Some b -> f y = Some b -> x = y.
Proof.
  induction l as [|z l IH]; intros Hnd Hx Hy Hfx Hfy; [by apply elem_of_nil in Hx|].
  cbn in Hnd. apply elem_of_cons in Hx, Hy.
  assert (forall v, v ∈ l -> f v = Some b -> b ∈ omap f l) as Hin.
  { intros v Hv Hfv. apply list_elem_of_omap. eauto. }
  destruct Hx as [->|Hx], Hy as [->|Hy]; [done| | |].
  - rewrite Hfx in Hnd. apply NoDup_cons in Hnd as [[] _]. eauto.
  - rewrite Hfy in Hnd. apply NoDup_cons in Hnd as [[] _]. eauto.
  - apply IH; try done. destruct (f z); [by apply NoDup_cons in Hnd as [_ ?]|done].
Qed.

Lemma active_unique_inj t id id' r r' key :
  active_unique t = true -> t !! id = Some r -> t !! id' = Some r' ->
  sending_key r = Some key -> sending_key r' = Some key -> id = id'.
Proof.
  intros Hu%bool_decide_eq_true Hr Hr' Hk Hk'.
  enough ((id, r) = (id', r')) by congruence.
  by eapply (omap_inj (fun '(_, r) => sending_key r)); eauto; apply elem_of_map_to_list.
Qed.

(** ** A claim *)

(** An update that names one row and did not hit it changes nothing. *)
Lemma missed_update names_claim where_ set w n w' id :
  (forall d id' r, where_ d id' r = true -> id' = id) ->
  update_deliveries names_claim where_ set w = (Ok n, w') -> n <> 1 ->
  delivery_keeps (db w) (db w').
Proof.
  intros Hid Hu%sql_ok Hn. unfold deliveries_updated in Hu.
  destruct (_ && _); [|done]. injection Hu as Hn' <-.
  destruct (matching_key (where_ (db w)) (deliveries (db w)) id (Hid (db w))) as [Hnil|]; [|lia].
  rewrite Hnil. split; [|done..|by split]. cbn. by apply update_rows_none.
Qed.

Lemma terminalize_missed a s now w w' :
  terminalize_exact_delivery_if_exhausted a s now w = (Ok false, w') ->
  delivery_keeps (db w) (db w').
Proof.
  intros (n & w1 & Hu & Hr)%bind_ok. apply ret_ok in Hr as [E <-]. bool_facts.
  eapply missed_update; [|exact Hu|done].
  unfold terminalize_where, matches_authority. intros. where_facts. done.
Qed.

Definition ready_row (a : ScheduledDeliveryAuthority) (r : Delivery) : Delivery :=
  if bool_decide (auth_source_state a = DFailedRetryable) then requeue_set r else r.

(** The row is pending: it was, or the claim requeued it. *)
Lemma ready_ok a now w w' :
  waits (auth_source_state a) ->
  (if bool_decide (auth_source_state a = DFailedRetryable)
   then requeue_exact_retryable_delivery a now else ret true) w = (Ok true, w') ->
  delivery_baselines (db w') = delivery_baselines (db w)
  /\ delivery_attempts (db w') = delivery_attempts (db w)
  /\ (forall id, id <> auth_delivery_id a ->
       deliveries (db w') !! id = deliveries (db w) !! id)
  /\ forall r1, deliveries (db w') !! auth_delivery_id a = Some r1 -> d_state r1 = DPending ->
       exists r0, deliveries (db w) !! auth_delivery_id a = Some r0 /\ r1 = ready_row a r0
         /\ d_state r0 = auth_source_state a
         /\ deliveries (db w') = <[auth_delivery_id a := r1]> (deliveries (db w))
         /\ (auth_source_state a = DFailedRetryable -> not_after (d_next_attempt_at r0) now = true).
Proof.
  intros Hwaits. unfold ready_row. destruct (bool_decide _) eqn:E; bool_facts.
  - intros (t & w1 & Ht & Hr)%bind_ok. destruct t; [by tx_step Hr|].
    apply terminalize_missed in Ht as [Hd1 Ha1 Hb1 _ _].
    apply bind_ok in Hr as (n & w2 & Hu%sql_ok & Hr). destruct (n =? 1) eqn:En; bool_facts.
    2:{ apply bind_ok in Hr as ([] & w3 & _ & Hr); tx_step Hr. done. }
    apply ret_ok in Hr as [_ <-].
    pose (b := mkDeliveryBinding (auth_delivery_id a) 0 0 "" "").
    eapply (delivery_update_one b) in Hu as (r0 & Hr0 & Hw & Hd & Ha & Hbl & _); [|..|done].
    2:{ unfold requeue_where, matches_authority. intros. where_facts. done. }
    cbn [b bind_delivery_id] in *. unfold requeue_where in Hw. where_facts.
    rewrite Hd1 in *. split_and!; [congruence..| |].
    + intros id Hid. by rewrite Hd, lookup_insert_ne.
    + intros r1 Hr1 _. exists r0. rewrite Hd, lookup_insert_eq in Hr1. injection Hr1 as <-.
      split_and!; try done; congruence.
  - intros [_ <-]%ret_ok. split_and!; try done. intros r1 Hr1 Hs. exists r1.
    destruct Hwaits as [Hp|]; [|done]. split_and!; try done; [congruence|].
    symmetry. by apply insert_id.
Qed.

Record delivery_handed_out (a : ScheduledDeliveryAuthority) (owner : string) (now : Z)
    (readings : DeliveryReadings) (claim : ClaimedScheduledDelivery) (d d' : Db) (r : Delivery)
    (p : DeliveryPayload) (expires : Z) : Prop := {
  dh_row : deliveries d !! auth_delivery_id a = Some r;
  dh_state : d_state r = auth_source_state a;
  dh_authority : matches_authority a (auth_delivery_id a) r = true;
  dh_payload : d_payload r = Some p;
  dh_attempts_left : delivery_attempts_left r = true;
  dh_counters_left : delivery_counters_left r = true;
  dh_changed : unchanged d r = false;
  dh_alone : forall id' r', id' <> auth_delivery_id a -> deliveries d !! id' = Some r' ->
    sending_key r' <> active_key r;
  dh_expires : expires = Z.max (clock_before_claim readings)
      (Z.max (clock_after_begin readings) now) + Policy.delivery_lease_seconds (auth_policy a);
  dh_in_time : past_delivery_deadline (claimed_policy claim) (payload_created_at p)
      (Z.max (clock_before_commit readings) (Z.max (clock_before_claim readings)
        (Z.max (clock_after_begin readings) now))) = false;
  dh_lease_left : clock_before_commit readings < expires;
  dh_policy : policy_of_row r = Ok (claimed_policy claim);
  dh_snapshot : delivery_payload_from_row (auth_delivery_id a) r = Ok (claimed_payload claim);
  dh_target : claimed_target_json claim = d_target_json (d_intent r);
  dh_claims : exists r' a', deliveries d' = <[auth_delivery_id a := r']> (deliveries d)
    /\ delivery_attempts d'
         = <[(auth_delivery_id a, d_attempt r + 1) := a']> (delivery_attempts d)
    /\ claims_delivery (auth_delivery_id a) d (ready_row a r) r' a'
    /\ d_lease_expires_at r' = Some expires
    /\ claimed_binding claim = mkDeliveryBinding (auth_delivery_id a) (d_attempt r + 1)
         (d_fence r + 1) owner (da_idempotency_key a')
}.

Lemma blocked_false d id r key id' r' :
  blocked d id r = false -> active_key r = Some key -> deliveries d !! id' = Some r' -> id' <> id ->
  sending_key r' <> Some key.
Proof.
  unfold blocked. intros Hb Hk Hr' Hne Hs. rewrite Hk in Hb.
  assert (existsb (fun '(id', r') => negb (String.eqb id' id)
    && bool_decide (sending_key r' = Some key)) (map_to_list (deliveries d)) = true) as Hx.
  { apply existsb_exists. exists (id', r'). split.
    - apply list_elem_of_In. by apply elem_of_map_to_list.
    - apply andb_true_iff. split; [|by apply bool_decide_eq_true_2].
      apply negb_true_iff. by apply String.eqb_neq. }
  congruence.
Qed.

(** The second half of a claim, on the row it found pending. *)
Lemma claim_exact_row_hands_out a owner claim_now commit_clock w claim w' :
  claim_exact_row a owner claim_now commit_clock w
    = (Ok (Commit (ClaimDecided (Ok (Some claim)))), w') ->
  exists r p expires r' a',
    deliveries (db w) !! auth_delivery_id a = Some r /\ claim_where a claim_now (db w)
      (auth_delivery_id a) r = true /\ d_payload r = Some p
    /\ expires = claim_now + Policy.delivery_lease_seconds (auth_policy a)
    /\ Z.max commit_clock claim_now < expires
    /\ past_delivery_deadline (claimed_policy claim) (payload_created_at p)
         (Z.max commit_clock claim_now) = false
    /\ policy_of_row r = Ok (claimed_policy claim)
    /\ delivery_payload_from_row (auth_delivery_id a) r = Ok (claimed_payload claim)
    /\ claimed_target_json claim = d_target_json (d_intent r)
    /\ deliveries (db w') = <[auth_delivery_id a := r']> (deliveries (db w))
    /\ delivery_attempts (db w')
         = <[(auth_delivery_id a, d_attempt r + 1) := a']> (delivery_attempts (db w))
    /\ claims_delivery (auth_delivery_id a) (db w) r r' a'
    /\ d_lease_expires_at r' = Some expires
    /\ claimed_binding claim = mkDeliveryBinding (auth_delivery_id a) (d_attempt r + 1)
         (d_fence r + 1) owner (da_idempotency_key a').
Proof.
  unfold claim_exact_row. destruct (i64_checked_add _ _) as [expires|] eqn:Hex; intros Hc;
    [|by tx_step Hc].
  apply bind_ok in Hc as (o & w1 & Hrow & Hc).
  apply claim_row_ok in Hrow as [[-> _]|(r & -> & Hrow)].
  { apply bind_ok in Hc as ([] & w2 & _ & Hc); [by tx_step Hc|].
    apply bind_ok in Hc as (e & w3 & Hn & Hc). apply ret_ok in Hc as [Hc _].
    apply bind_ok in Hn as ([] & w4 & _ & Hn);
      [do 2 apply bind_ok in Hn as (? & ? & _ & Hn)|]; apply ret_ok in Hn as [<- _]; done. }
  apply bind_ok in Hc as ([b p] & w2 & Ho & Hc).
  apply bind_ok in Hc as (policy & w3 & Hp & Hc). apply lift_ok in Hp as [Hp <-].
  apply bind_ok in Hc as (q & w4 & Hq & Hc). apply lift_ok in Hq as [Hq <-]. ok_facts.
  destruct (_ || _) eqn:Elate; apply ret_ok in Hc as [[= <-] <-]; cbn [claimed_policy
    claimed_payload claimed_target_json claimed_binding]. bool_facts.
  pose proof (rc_where _ _ _ _ _ _ Hrow) as Hw. where_facts.
  assert (claim_where a claim_now (db w) (auth_delivery_id a) r = true) as Hwhere by done.
  unfold claim_where in Hwhere. where_facts.
  pose proof (claim_set_form (auth_delivery_id a) owner expires claim_now (db w) r) as Hform.
  edestruct claimed_step as (_ & a' & Hclaims & _ & Ha'); [exact Hrow|exact Hform|done|done|exact Ho|].
  apply open_attempt_ok in Ho as (version & Hv & Hb & Hpay & _ & _ & Ha & Hd & _).
  edestruct binding_of_claim as (Hid & Hn & Hf & Howner & Hkey); [exact Hform|exact Hb|].
  exists r, q, expires, (claim_delivery_set (auth_delivery_id a) owner expires claim_now (db w) r), a'.
  destruct Hrow. rewrite Hd, rc_deliveries0, Ha, rc_attempts0, Hn.
  rewrite Ha, Hn, lookup_insert_eq in Ha'. injection Ha' as <-.
  apply fits_some in Hex as [_ <-].
  split_and!; try done; try lia. destruct b; cbn in *. congruence.
Qed.

Lemma baselines_ext d d' r :
  delivery_baselines d' = delivery_baselines d ->
  accepted_baseline d' r = accepted_baseline d r /\ unchanged d' r = unchanged d r.
Proof. unfold unchanged, accepted_baseline. by intros ->. Qed.

Lemma claims_ext id d d' r r' a' :
  delivery_baselines d' = delivery_baselines d ->
  claims_delivery id d' r r' a' -> claims_delivery id d r r' a'.
Proof.
  intros Hb []. destruct (baselines_ext d d' r Hb) as [Ha Hu].
  split; try done; [by rewrite <-Hu|by rewrite <-Ha].
Qed.

(** Requeueing changes nothing that a claim reads. *)
Lemma ready_row_same a d r :
  let r1 := ready_row a r in
  d_attempt r1 = d_attempt r /\ d_fence r1 = d_fence r /\ d_payload r1 = d_payload r
  /\ d_intent r1 = d_intent r /\ active_key r1 = active_key r
  /\ (forall id, matches_authority a id r1 = matches_authority a id r)
  /\ delivery_attempts_left r1 = delivery_attempts_left r
  /\ delivery_counters_left r1 = delivery_counters_left r
  /\ unchanged d r1 = unchanged d r /\ policy_of_row r1 = policy_of_row r
  /\ (forall id, delivery_payload_from_row id r1 = delivery_payload_from_row id r).
Proof. unfold ready_row. by destruct (bool_decide _). Qed.

(** A decided claim commits. *)
Lemma claim_exact_row_ends a owner claim_now commit_clock w e w' :
  claim_exact_row a owner claim_now commit_clock w = (Ok e, w') ->
  (exists o, e = Commit (ClaimDecided o)) \/ exists late, e = Rollback (ClaimTooLate late).
Proof.
  unfold claim_exact_row. destruct (i64_checked_add _ _) as [expires|]; intros Hc; [|by tx_step Hc].
  apply bind_ok in Hc as ([r|] & w1 & _ & Hc).
  - apply bind_ok in Hc as ([b p] & w2 & _ & Hc). do 2 apply bind_ok in Hc as (? & ? & _ & Hc).
    destruct (_ || _); apply ret_ok in Hc as [<- _]; eauto.
  - apply bind_ok in Hc as ([] & w2 & _ & Hc); [apply ret_ok in Hc as [<- _]; eauto|].
    apply bind_ok in Hc as (x & w3 & Hn & Hc). apply ret_ok in Hc as [<- _].
    apply bind_ok in Hn as ([] & w4 & _ & Hn);
      [do 2 apply bind_ok in Hn as (? & ? & _ & Hn)|]; apply ret_ok in Hn as [<- _]; eauto.
Qed.

Lemma claim_hands_out a owner now readings w claim w' :
  claim_scheduled_delivery_inner a owner now readings w = (Ok (Some claim), w') ->
  exists r p expires, delivery_handed_out a owner now readings claim (db w) (db w') r p expires.
Proof.
  intros (u & w1 & [_ <-]%lift_ok & Hc)%bind_ok.
  apply bind_ok in Hc as ([] & w2 & Ha & Hc). apply lift_ok in Ha as [Ha%authority_waits <-].
  destruct (now <? 0); [by tx_step Hc|]. apply bind_ok in Hc as (o & w3 & Ht & Hc).
  destruct o as [o|[]]; [|by apply bind_ok in Hc as (? & ? & _ & Hc); tx_step Hc|by tx_step Hc].
  apply lift_ok in Hc as [-> <-].
  apply transaction_cases in Ht as [(x & w0 & w4 & [= <-] & <- & Hb & ->)|[_ Hb]].
  2:{ destruct (Hb _ eq_refl) as (w0 & w4 & _ & Hc).
      assert (exists e, (e = Rollback (ClaimDecided (Ok (Some claim)))
        \/ e = Drop (ClaimDecided (Ok (Some claim)))) /\ _ w0 = (Ok e, w4)) as (e & He & Hbody)
        by (destruct Hc; eauto). clear Hc.
      apply bind_ok in Hbody as ([] & w5 & _ & Hbody);
        [apply ret_ok in Hbody as [<- _]; naive_solver|].
      apply bind_ok in Hbody as ([] & w6 & _ & Hbody); cbn [negb] in Hbody;
        [|apply ret_ok in Hbody as [<- _]; naive_solver].
      apply claim_exact_row_ends in Hbody. naive_solver. }
  apply bind_ok in Hb as ([] & w5 & Ht & Hb); [by tx_step Hb|].
  apply terminalize_missed in Ht as [Hd5 Ha5 Hb5 _ _].
  apply bind_ok in Hb as ([] & w6 & Hready & Hb); cbn [negb] in Hb; [|by tx_step Hb].
  apply ready_ok in Hready as (Hbl & Hatt & Hothers & Hready); [|done].
  apply claim_exact_row_hands_out in Hb as (r1 & p & expires & r' & a' & Hr1 & Hw & Hp & -> & Hlt
    & Hdead & Hpol & Hpay & Htgt & Hd & Hda & Hclaims & Hexp & Hbind).
  assert (d_state r1 = DPending) as Hs1 by (unfold claim_where in Hw; by where_facts).
  destruct (Hready r1 Hr1 Hs1) as (r0 & Hr0 & -> & Hs0 & Hins & _).
  assert (delivery_baselines (db w6) = delivery_baselines (db w0)) as Hbl' by congruence.
  destruct (ready_row_same a (db w0) r0)
    as (Hat & Hfe & Hpl & Hi & Hkey & Hm & Hleft & Hcount & Hun & Hpolr & Hpayr).
  destruct (baselines_ext (db w0) (db w6) (ready_row a r0) Hbl') as [_ Hun'].
  rewrite Hd5 in *. unfold claim_where in Hw. where_facts.
  exists r0, p, (Z.max (clock_before_claim readings) (Z.max (clock_after_begin readings) now)
    + Policy.delivery_lease_seconds (auth_policy a)).
  split; try congruence; [|lia|].
  - intros id' r2 Hne Hr2. rewrite <-Hkey. destruct (active_key (ready_row a r0)) as [key|] eqn:Ek.
    + eapply blocked_false; [done..| |done]. by rewrite Hothers.
    + exfalso. unfold active_key in Ek. by rewrite Hp in Ek.
  - exists r', a'. rewrite <-Hat, <-Hfe. split_and!; try done.
    + by rewrite Hd, Hins, insert_insert_eq.
    + by rewrite Hda, Hatt, Ha5.
    + by eapply claims_ext.
Qed.

(** ** Recovery makes progress *)

Lemma settle_keeps_unique t id r r' :
  t !! id = Some r -> sending_key r' = None -> active_unique t = true ->
  active_unique (<[id := r']> t) = true.
Proof.
  intros Hr Hk Hu%bool_decide_eq_true. apply bool_decide_eq_true_2.
  assert (t = <[id := r]> (delete id t)) as Ht by (by rewrite insert_delete_id).
  assert (<[id := r']> t = <[id := r']> (delete id t)) as -> by (by rewrite insert_delete_eq).
  rewrite Ht in Hu.
  assert (delete id t !! id = None) as Hnone by apply lookup_delete_eq.
  rewrite (map_to_list_insert _ id r' Hnone). cbn. rewrite Hk.
  rewrite (map_to_list_insert _ id r Hnone) in Hu. cbn in Hu.
  destruct (sending_key r); [by apply NoDup_cons in Hu as [_ ?]|done].
Qed.

Lemma matching_one {K Row} `{Countable K} (where_ : K -> Row -> bool) (t : gmap K Row) k r :
  (forall k' r', where_ k' r' = true -> k' = k) -> t !! k = Some r -> where_ k r = true ->
  matching where_ t = [(k, r)].
Proof.
  intros Hkey Hr Hw.
  assert ((k, r) ∈ matching where_ t) as Hin by by apply elem_of_matching.
  destruct (matching_key where_ t k Hkey) as [Hnil|Hlen].
  - rewrite Hnil in Hin. by apply elem_of_nil in Hin.
  - destruct (matching where_ t) as [|x [|y l]]; [done| |cbn in Hlen; lia].
    apply list_elem_of_singleton in Hin. by subst.
Qed.

Lemma lose_checks id now r :
  delivery_checks id r = true -> d_state r = DSending -> d_updated_at r <= now ->
  delivery_checks id (lose_delivery now r) = true.
Proof.
  unfold delivery_checks, lease_checks, is_sending. intros Hc Hs Ht. rewrite Hs in Hc. cbn in *.
  bool_facts. rewrite !andb_true_iff. split_and!; try done; try (apply Z.leb_le; lia).
Qed.

Lemma same_identity_refl i : same_identity i i = true.
Proof. unfold same_identity. rewrite !andb_true_iff, !String.eqb_eq, !Z.eqb_eq. done. Qed.

Lemma lose_allowed d id now r :
  (forall id' r', deliveries d !! id' = Some r' -> id <> id' ->
     intent_collides id (d_intent r) (id', r') = false) ->
  d_state r = DSending -> delivery_update_allowed false d id r (lose_delivery now r) = true.
Proof.
  intros Hdist Hs. unfold delivery_update_allowed, operator_authority. cbn. rewrite Hs.
  rewrite same_identity_refl. cbn.
  rewrite bool_decide_eq_true_2, orb_true_r by done. rewrite !andb_true_r.
  apply negb_true_iff, not_true_iff_false. intros (x & Hx & Hc)%existsb_exists.
  apply list_elem_of_In in Hx. destruct x as [id' r']. apply elem_of_map_to_list in Hx.
  cbn in Hc. bool_facts. apply String.eqb_neq in H2. rewrite Hdist in H3; done.
Qed.

(** Every lease is an [i64]. *)
Definition leases_typed (d : Db) : Prop :=
  forall id r t, deliveries d !! id = Some r -> d_lease_expires_at r = Some t -> in_i64 t = true.

(** The attempt of a delivery that is being sent. *)
Lemma sending_attempt d id r :
  deliveries_consistent d -> deliveries d !! id = Some r -> d_state r = DSending ->
  exists a, delivery_attempts d !! (id, d_attempt r) = Some a /\ sends r a
    /\ delivery_attempt_checks (d_attempt r) a = true.
Proof.
  intros [(_ & _ & Hok) Hag _ _] Hr Hs. destruct (Hag id r Hr) as [_ Hclaimed Hatt _].
  destruct (Hatt (d_attempt r)) as (a & Ha & _ & _ & _ & Hcur);
    [split; [apply Hclaimed; by rewrite Hs|done]|].
  specialize (Hcur eq_refl). unfold current_agrees in Hcur. rewrite Hs in Hcur. eauto.
Qed.

Definition binding_of_attempt (id : string) (r : Delivery) (a : DeliveryAttempt) :
    ScheduledDeliveryBinding :=
  mkDeliveryBinding id (d_attempt r) (d_fence r) (da_lease_owner a) (da_idempotency_key a).

Lemma sends_holds id r a :
  d_state r = DSending -> sends r a ->
  delivery_binding id r = Ok (binding_of_attempt id r a)
  /\ holds_delivery (binding_of_attempt id r a) id r = true
  /\ holds_delivery_attempt (binding_of_attempt id r a) (id, d_attempt r) a = true.
Proof.
  intros Hs []. unfold delivery_binding, holds_delivery, holds_delivery_attempt, is_value. cbn.
  rewrite send_owner0, send_key0, send_fence0, send_state0, Hs, !String.eqb_refl, !Z.eqb_refl,
    !bool_decide_eq_true_2; done.
Qed.

Lemma lose_attempt_checks n now a :
  delivery_attempt_checks n a = true -> da_state a = DSending -> da_started_at a <= now ->
  delivery_attempt_checks n (lose_delivery_attempt now a) = true.
Proof.
  unfold delivery_attempt_checks. intros Hc Hs Ht. rewrite Hs in Hc. cbn in *. bool_facts.
  rewrite !andb_true_iff. split_and!; try done;
    first [apply Z.ltb_lt; lia | apply Z.leb_le; lia | by apply negb_true_iff].
Qed.

(** An expired send can always be taken back. *)
Lemma lose_one d id r a now :
  deliveries_consistent d -> deliveries d !! id = Some r ->
  delivery_attempts d !! (id, d_attempt r) = Some a -> d_state r = DSending -> sends r a ->
  delivery_attempt_checks (d_attempt r) a = true ->
  d_updated_at r <= now -> da_lease_expires_at a <= now ->
  exists d', update_both
      (update_deliveries false
        (expired_delivery (binding_of_attempt id r a) (da_lease_expires_at a) now)
        (fun _ => lose_delivery now))
      (update_delivery_attempts
        (expired_delivery_attempt (binding_of_attempt id r a) (da_lease_expires_at a) now)
        (lose_delivery_attempt now))
      (mkWorld d []) = (Ok true, mkWorld d' [])
    /\ deliveries d' = <[id := lose_delivery now r]> (deliveries d).
Proof.
  intros [(Hok & Hu & _) _ _ Hdist] Hr Ha Hs Hsends Hca Hupd Hexp.
  destruct (sends_holds id r a Hs Hsends) as (_ & Hh & Hha).
  assert (da_started_at a <= now) as Hstart
    by (unfold delivery_attempt_checks in Hca; bool_facts; lia).
  pose proof (send_state _ _ Hsends) as Hopen.
  set (b := binding_of_attempt id r a) in *.
  assert (expired_delivery b (da_lease_expires_at a) now d id r = true) as Hw.
  { unfold expired_delivery, is_value. rewrite Hh, (send_lease _ _ Hsends), bool_decide_eq_true_2;
      [cbn|done]. rewrite andb_true_iff, !Z.leb_le. done. }
  assert (expired_delivery_attempt b (da_lease_expires_at a) now (id, d_attempt r) a = true) as Hwa.
  { unfold expired_delivery_attempt. rewrite Hha, Z.eqb_refl. cbn.
    rewrite andb_true_iff, !Z.leb_le. done. }
  assert (matching (expired_delivery b (da_lease_expires_at a) now d) (deliveries d) = [(id, r)])
    as Hm.
  { apply matching_one; try done. unfold expired_delivery. intros k x Hx. bool_facts.
    by apply holds_delivery_facts in H2 as [-> _]. }
  assert (matching (expired_delivery_attempt b (da_lease_expires_at a) now) (delivery_attempts d)
    = [((id, d_attempt r), a)]) as Hma.
  { apply matching_one; try done. unfold expired_delivery_attempt. intros k x Hx.
    bool_facts. by apply holds_delivery_attempt_facts in H2 as [-> _]. }
  assert (update_rows (expired_delivery b (da_lease_expires_at a) now d) (lose_delivery now)
    (deliveries d) = <[id := lose_delivery now r]> (deliveries d)) as Hrows.
  { edestruct (update_rows_one (expired_delivery b (da_lease_expires_at a) now d)
      (lose_delivery now) (deliveries d) id) as (r1 & Hr1 & _ & ->); [|by rewrite Hm|congruence].
    unfold expired_delivery. intros k x Hx. bool_facts.
    by apply holds_delivery_facts in H2 as [-> _]. }
  eexists. split.
  - unfold update_both, update_deliveries, update_delivery_attempts.
    unfold bind at 1. erewrite sql_no_faults.
    2:{ unfold deliveries_updated. rewrite Hm, Hrows. cbn [forallb].
        rewrite (lose_checks id now r (Hok id r Hr) Hs Hupd).
        rewrite (lose_allowed d id now r) by eauto.
        rewrite (settle_keeps_unique _ id r) by done. cbn [andb]. reflexivity. }
    unfold bind. erewrite sql_no_faults.
    2:{ unfold delivery_attempts_updated. cbn [delivery_attempts with_totals
          with_operator_consumptions with_deliveries]. rewrite Hma. cbn [forallb].
        rewrite (lose_attempt_checks (d_attempt r) now a) by done. cbn [andb]. reflexivity. }
    reflexivity.
  - reflexivity.
Qed.

Lemma update_rows_again {K Row} `{Countable K} (where_ : K -> Row -> bool) set (t : gmap K Row) k r :
  t !! k = Some r -> where_ k r = true -> where_ k (set r) = false ->
  update_rows where_ set (<[k := set r]> t) = update_rows where_ set t.
Proof.
  intros Hr Hw Hw'. apply map_eq. intros k'. rewrite !lookup_update_rows.
  destruct (decide (k' = k)) as [->|Hne].
  - rewrite lookup_insert_eq, Hr. cbn. by rewrite Hw, Hw'.
  - by rewrite lookup_insert_ne.
Qed.

Lemma lost_not_expired now id r : delivery_expired now id (lose_delivery now r) = false.
Proof. done. Qed.

(** A round of the loop takes one expired send back. *)
Lemma reclaim_round limit now n d :
  deliveries_consistent d -> leases_typed d ->
  matching (delivery_expired now) (deliveries d) <> [] ->
  exists id r d1, deliveries d !! id = Some r /\ delivery_expired now id r = true
    /\ delivery_step d d1 /\ deliveries d1 = <[id := lose_delivery now r]> (deliveries d)
    /\ reclaim_deliveries (S limit) now n (mkWorld d [])
       = reclaim_deliveries limit now (n + 1) (mkWorld d1 []).
Proof.
  intros Hcon Htyped Hne. cbn [reclaim_deliveries]. unfold bind at 1, query.
  erewrite sql_no_faults by reflexivity.
  destruct (first_by_some expires_before _ Hne) as ([id r] & Hfirst & Hin).
  unfold next_expired_delivery. rewrite Hfirst. apply elem_of_matching in Hin as [Hr He].
  pose proof He as He'. unfold delivery_expired, is_sending in He'. where_facts.
  destruct (sending_attempt d id r) as (a & Ha & Hsends & Hca); [done..|].
  destruct (sends_holds id r a) as (Hb & _); [done..|].
  assert (da_lease_expires_at a <= now) as Hexp.
  { rewrite (send_lease _ _ Hsends) in *. unfold not_after in *. by bool_facts. }
  destruct (lose_one d id r a now) as (d1 & Hboth & Hd1); [done..|].
  exists id, r, d1. split_and!; [done..| |done|].
  - unfold update_both in Hboth. apply bind_ok in Hboth as (n1 & w1 & Hu%sql_ok & Hboth).
    apply bind_ok in Hboth as (n2 & w2 & Hv%sql_ok & Hboth). apply ret_ok in Hboth as [E ->].
    bool_facts. by eapply lost_both.
  - unfold bind at 1, lift at 1. rewrite Hb.
    assert (integer_column (d_lease_expires_at r) = Ok (da_lease_expires_at a)) as ->.
    { rewrite (send_lease _ _ Hsends). unfold integer_column.
      by rewrite (Htyped id r _ Hr (send_lease _ _ Hsends)). }
    unfold bind at 1, lift at 1. unfold bind at 1. by rewrite Hboth.
Qed.

(** With no faults and a limit that covers them, the loop takes back exactly the
    expired sends. *)
Lemma reclaim_loop_progress limit now n d :
  deliveries_consistent d -> leases_typed d ->
  (length (matching (delivery_expired now) (deliveries d)) <= limit)%nat ->
  exists d', reclaim_deliveries limit now n (mkWorld d [])
      = (Ok (Some (n + Z.of_nat (length (matching (delivery_expired now) (deliveries d))))),
         mkWorld d' [])
    /\ deliveries d' = update_rows (delivery_expired now) (lose_delivery now) (deliveries d).
Proof.
  revert n d. induction limit as [|limit IH]; intros n d Hcon Htyped Hlen;
    (destruct (decide (matching (delivery_expired now) (deliveries d) = [])) as [Hnil|Hne];
     [exists d; rewrite update_rows_none by done|]).
  - rewrite Hnil. cbn. by rewrite Z.add_0_r.
  - by destruct (matching _ _); cbn in Hlen; [|lia].
  - cbn [reclaim_deliveries]. unfold bind at 1, query. erewrite sql_no_faults by reflexivity.
    unfold next_expired_delivery. rewrite Hnil. cbn. by rewrite Z.add_0_r.
  - destruct (reclaim_round limit now n d) as (id & r & d1 & Hr & He & Hstep & Hd1 & ->); [done..|].
    assert (length (matching (delivery_expired now) (deliveries d))
      = S (length (matching (delivery_expired now) (deliveries d1)))) as Hcount
      by (rewrite Hd1; by eapply matching_dropped).
    destruct (IH (n + 1) d1) as (d' & -> & Hd').
    + by eapply delivery_step_consistent.
    + intros id' r' t. rewrite Hd1, lookup_insert_Some. intros [[_ <-]|[_ Hr']] Ht; [done|eauto].
    + lia.
    + exists d'. rewrite Hd', Hcount, Hd1. split; [|by apply update_rows_again].
      do 3 f_equal. lia.
Qed.

(** ** Preparing once *)

Lemma positive_u32_ok v x : positive_u32 v = Ok x -> x = v /\ in_u32 v = true /\ 0 < v.
Proof. unfold positive_u32. intros Hp. destruct (_ && _) eqn:E; [|done]. simplify_eq. by bool_facts. Qed.

Lemma positive_u32_ret v : in_u32 v = true -> 0 < v -> positive_u32 v = Ok v.
Proof. intros Hu Hv. unfold positive_u32. by rewrite Hu, (proj2 (Z.ltb_lt 0 v) Hv). Qed.

(** A frozen payload is read back as it was written. *)
Lemma payload_reads_back none content body render now version target_version policy_version
    r id snapshot :
  utf8_valid body = true -> in_u32 render = true -> 0 < render ->
  positive_u32 target_version = Ok target_version ->
  positive_u32 (d_delivery_policy_version (d_intent r)) = Ok policy_version ->
  from_durable_parts id (d_run_id (d_intent r)) (d_result_artifact_id (d_intent r)) content body
    (sha256_hex body) (d_target_identity_digest (d_intent r))
    (d_target_snapshot_digest (d_intent r)) target_version policy_version render now
    = Ok snapshot ->
  delivery_payload_from_row id (prepare_set none
    (mkPayload render DELIVERY_PAYLOAD_SCHEMA_VERSION content DELIVERY_PAYLOAD_HASH_ALGORITHM
      (sha256_hex body) body now version target_version) now r) = Ok snapshot.
Proof.
  intros Hutf Hr Hr0 Ht Hp Hs. unfold delivery_payload_from_row. cbn [prepare_set d_payload d_intent
    ok_or payload_snapshot payload_digest payload_schema_version payload_hash_algorithm
    target_snapshot_version render_version content_type payload_created_at].
  rewrite Hutf, String.eqb_refl, Ht, Hp, (positive_u32_ret render), Hs by done. done.
Qed.

(** The row of a delivery that is prepared. *)
Definition reads_prepared (id content body : string) (render : Z) (x : PreparedScheduledDelivery)
    (d : Db) : Prop :=
  exists r f none, deliveries d !! id = Some r /\ artifact_of d r = Some f
    /\ delivery_target_metadata r = Ok none
    /\ existing_prepared_delivery id r body content render = Ok (Some x).

Lemma metadata_version r none version :
  delivery_target_metadata r = Ok (none, version) -> positive_u32 version = Ok version.
Proof.
  unfold delivery_target_metadata. intros Hm. peel Hm.
  match goal with E : positive_u32 _ = Ok _ |- _ =>
    destruct (positive_u32_ok _ _ E) as (-> & _); exact E end.
Qed.

Lemma snapshot_fields id run result content body digest target target_snapshot tv pv render at_ s :
  from_durable_parts id run result content body digest target target_snapshot tv pv render at_ = Ok s ->
  snap_body s = body /\ snap_content_type s = content /\ snap_render_version s = render.
Proof. unfold from_durable_parts. intros Hf. peel Hf. Qed.

Lemma freeze_reads id content body render now policy none version r w x w' :
  deliveries (db w) !! id = Some r -> d_payload r = None -> is_some (artifact_of (db w) r) = true ->
  delivery_target_metadata r = Ok (none, version) ->
  utf8_valid body = true -> in_u32 render = true -> 0 < render ->
  freeze_payload id content body render now policy none version r w = (Ok (Commit x), w') ->
  reads_prepared id content body render x (db w').
Proof.
  intros Hr Hp Hf Hm Hutf Hu Hpos Hz. unfold freeze_payload in Hz.
  apply bind_ok in Hz as (decision & w1 & Hd & Hz).
  assert (db w1 = db w) as Hw1.
  { apply bind_ok in Hd as (b & w2 & Hq & Hd). apply query_ok in Hq as [_ Hq].
    by apply ret_ok in Hd as [_ <-]. }
  apply bind_ok in Hz as (n & w2 & Hu2%sql_ok & Hz).
  destruct (n =? 1) eqn:En; cbn [negb] in Hz; [|by tx_step Hz]. bool_facts.
  pose (b := mkDeliveryBinding id 0 0 "" ""). rewrite Hw1 in Hu2.
  eapply (delivery_update_one b) in Hu2 as (r0 & Hr0 & _ & Hd2 & _ & _ & Hrest & _);
    [|unfold prepare_where; intros; by where_facts|done].
  cbn [b bind_delivery_id] in *. rewrite Hr in Hr0. injection Hr0 as <-.
  apply bind_ok in Hz as (accepted & w3 & Ha & Hz).
  assert (deliveries (db w3) = deliveries (db w2) /\ artifacts (db w3) = artifacts (db w2))
    as [Hd3 Hf3].
  { destruct (none && _); [|by apply ret_ok in Ha as [_ <-]].
    apply bind_ok in Ha as ([e|] & w4 & Hq & Ha); [|by tx_step Ha]. apply query_ok in Hq as [_ Hq].
    apply sql_ok, upsert_baseline_ok in Ha as (Hd4 & _ & []). split; congruence. }
  destruct accepted; cbn [negb] in Hz; [|by tx_step Hz].
  apply bind_ok in Hz as (pv & w4 & Hpv & Hz). apply lift_ok in Hpv as [Hpv <-].
  apply bind_ok in Hz as (s0 & w5 & Hs & Hz). apply lift_ok in Hs as [Hs%map_err_ok <-].
  apply ret_ok in Hz as [[= <-] <-].
  destruct (artifact_of (db w) r) as [f|] eqn:Ef; [|done].
  eexists _, f, (none, version). split_and!.
  - by rewrite Hd3, Hd2, lookup_insert_eq.
  - unfold artifact_of in *. cbn [prepare_set d_intent]. by rewrite Hf3, (rest_artifacts _ _ Hrest).
  - done.
  - unfold existing_prepared_delivery. cbn [prepare_set d_payload is_some negb].
    erewrite payload_reads_back by (try done; by eapply metadata_version).
    apply snapshot_fields in Hs as (-> & -> & ->).
    rewrite !String.eqb_refl, Z.eqb_refl. by destruct none.
Qed.

Lemma prepare_reads id content body render now policy w x w' :
  utf8_valid body = true -> in_u32 render = true ->
  prepare_scheduled_delivery id content body render now policy w = (Ok x, w') ->
  reads_prepared id content body render x (db w').
Proof.
  intros Hutf Hu (u & w1 & [Hv <-]%lift_ok & Hp)%bind_ok.
  assert (0 < render) as Hpos.
  { unfold validate_delivery_preparation in Hv. ok_facts. peel Hv. bool_facts. widths. lia. }
  apply transaction_cases in Hp as [(y & w0 & w2 & [= <-] & Hdb & Hb & ->)|[_ Hb]].
  - apply bind_ok in Hb as (row & w3 & Hq & Hb). apply query_ok in Hq as [Hrow Hw3].
    destruct row as [r|]; [|by tx_step Hb]. rewrite <-Hw3 in Hrow.
    destruct (deliveries (db w3) !! id) as [r0|] eqn:Hr; cbn in Hrow; [|done].
    destruct (artifact_of (db w3) r0) as [f|] eqn:Hf; cbn in Hrow; [|done]. injection Hrow as <-.
    apply bind_ok in Hb as ([none version] & w4 & Hm & Hb). apply lift_ok in Hm as [Hm <-].
    apply bind_ok in Hb as (existing & w5 & He & Hb). apply lift_ok in He as [He <-].
    destruct existing as [y|].
    + apply ret_ok in Hb as [[= <-] <-]. by exists r, f, (none, version).
    + destruct (negb _); [by tx_step Hb|]. eapply freeze_reads; try done; [|by rewrite Hf].
      unfold existing_prepared_delivery in He. destruct (d_payload r); [|done]. cbn in He. by peel He.
  - destruct (Hb x eq_refl) as (w0 & w2 & _ & Hbody). exfalso.
    assert (exists e, (e = Rollback x \/ e = Drop x) /\ _ w0 = (Ok e, w2)) as (e & Hend & Hr)
      by (destruct Hbody; eauto). clear Hbody.
    apply bind_ok in Hr as ([r|] & w3 & _ & Hr); [|by tx_step Hr].
    apply bind_ok in Hr as ([none version] & w4 & _ & Hr).
    apply bind_ok in Hr as ([y|] & w5 & _ & Hr); [apply ret_ok in Hr as [<- _]; naive_solver|].
    destruct (negb _); [by tx_step Hr|]. unfold freeze_payload in Hr.
    apply bind_ok in Hr as (? & ? & _ & Hr). apply bind_ok in Hr as (? & ? & _ & Hr).
    destruct (negb _); [by tx_step Hr|]. apply bind_ok in Hr as (? & ? & _ & Hr).
    destruct (negb _); [by tx_step Hr|]. do 2 apply bind_ok in Hr as (? & ? & _ & Hr).
    apply ret_ok in Hr as [<- _]. naive_solver.
Qed.

End Histories.

End DeliveryInvariants.
