(* ===== verification/JobTables.v ===== *)
(** * The job tables and their constraints (crates/state/migrations)

    [scheduled_jobs], [schedules], [scheduled_job_delivery_targets],
    [scheduler_transition_cursors], [idempotency_keys] and
    [schedule_mutation_audit] with the CHECK constraints, keys and triggers that
    can reject or count what the job transactions write, and the insert of a
    run into [scheduled_runs]. *)

From stdpp Require Import base tactics list strings numbers pretty gmap.
From Stdlib Require Import ZArith Lia Ascii.
From S2P Require Import Prelude.
From S2P Require Import Schedule.
From S2P Require Import Json.
From S2P Require Import Digest.
From S2P Require Import Authority.
From S2P Require Import Tables.
Import Digest.

Module JobTables.
Import Schedule Snapshot Authority Tables.

(** SQLite's [length] of a text: its characters before the first NUL. *)
Fixpoint sql_length (s : string) : Z :=
  match s with
  | EmptyString => 0
  | String b rest =>
      if Ascii.eqb b "000" then 0
      else (if byte_in "128" "191" b then 0 else 1) + sql_length rest
  end.

Definition key_length (s : string) : bool := (1 <=? sql_length s) && (sql_length s <=? 255).
Definition filled (s : string) : bool := 0 <? sql_length s.

Definition principal_filled (p : PrincipalKey) : bool :=
  filled (pk_kind p) && filled (pk_provider p) && filled (pk_tenant p) && filled (pk_subject p).

Definition has_digest_shape (s : string) : bool := (len s =? 64) && bytes_all is_hex_byte s.

Section Statements.
Context `{Sqlite}.

(** ** Constraints *)

Definition job_checks (id : string) (j : Job) : bool :=
  key_length id
  && (0 <? j_definition_version j) && json_valid (j_definition_json j)
  && principal_filled (j_creator j) && principal_filled (j_owner j)
  && (0 <=? j_generation j)
  && (0 <? j_capability_schema_version j) && filled (j_capability_digest j)
  && json_valid (j_capability_json j)
  && Bool.eqb (bool_decide (j_status j = Deleted)) (is_some (j_deleted_at j))
  && (j_scheduler_policy_version j =? 1) && json_valid (j_scheduler_policy_json j).

(** The columns of each kind; a NULL interval makes the comparison NULL, which
    passes. *)
Definition schedule_shape (h : ScheduleRow) : bool :=
  if String.eqb (h_kind h) "once"
  then is_some (h_once_at h) && negb (is_some (h_anchor_at h))
       && negb (is_some (h_interval_seconds h)) && negb (is_some (h_timezone h))
  else if String.eqb (h_kind h) "fixed_interval"
  then negb (is_some (h_once_at h)) && is_some (h_anchor_at h)
       && match h_interval_seconds h with Some v => 0 <? v | None => true end
       && negb (is_some (h_timezone h))
  else if String.eqb (h_kind h) "cron"
  then negb (is_some (h_once_at h)) && negb (is_some (h_anchor_at h))
       && negb (is_some (h_interval_seconds h)) && is_some (h_timezone h)
  else false.

Definition schedule_checks (h : ScheduleRow) : bool :=
  key_length (h_schedule_id h) && (0 <=? h_generation h) && schedule_shape h
  && json_valid (h_cadence_proof_json h).

(** The CHECK constraints and the trigger on the identity. *)
Definition target_checks (t : JobTarget) : bool :=
  (0 <=? t_ordinal t)
  && filled (t_provider t) && filled (t_connector t) && filled (t_tenant t) && filled (t_kind t)
  && json_valid (t_address_json t) && (0 <? t_resolver_version t) && filled (t_resolver_digest t)
  && has_digest_shape (t_identity_digest t).

Definition target_collides (id : string) (t : JobTarget) (x : string * JobTarget) : bool :=
  String.eqb x.1 id
  || (String.eqb (t_job_id x.2) (t_job_id t)
      && ((t_ordinal x.2 =? t_ordinal t)
          || String.eqb (t_identity_digest x.2) (t_identity_digest t))).

Definition cursor_checks (id : string) (c : TransitionCursor) : bool :=
  key_length id && (0 <=? cursor_generation c) && (0 <=? cursor_value c)
  && (0 <=? cursor_created_at c) && (cursor_created_at c <=? cursor_updated_at c).

(** [trg_scheduled_run_target_identities_insert]: an array of objects, each with
    the digest of its identity. *)
Definition run_targets_accepted (targets_json : string) : bool :=
  is_value (json_root_type targets_json) "array"
  && negb (Nat.eqb (length (json_elements targets_json)) 0)
  && forallb (fun target =>
       is_value (json_root_type target) "object"
       && is_value (json_type target "identity_digest") "text"
       && match json_extract_text target "identity_digest" with
          | Some digest => has_digest_shape digest
          | None => false
          end) (json_elements targets_json).

(** The CHECK constraints of [scheduled_runs] on the columns of the snapshot. *)
Definition snapshot_checks (s : RunSnapshot) : bool :=
  (0 <=? s_job_generation s) && (0 <=? s_schedule_generation s)
  && (s_scheduled_for s <=? s_coalesced_through s) && (0 <=? s_skipped_count s)
  && (0 <? s_definition_version s) && json_valid (s_definition_json s)
  && (0 <? s_capability_schema_version s) && filled (s_capability_digest s)
  && json_valid (s_capability_json s) && json_valid (s_targets_json s)
  && match s_execution_baseline_json s with Some text => json_valid text | None => true end
  && (s_scheduler_policy_version s =? 1) && json_valid (s_scheduler_policy_json s).

Definition audit_operations : list string :=
  ["create"; "get"; "list"; "update"; "pause"; "resume"; "delete"].

Definition audit_outcomes : list string :=
  ["applied"; "replay"; "conflict"; "in_progress"; "denied"; "not_visible"; "validation";
   "resolver_unavailable"; "resolver_not_allowed"; "resolver_timeout"; "capability_unavailable";
   "capability_invalid"; "stale_generation"; "expired_not_resumable"; "storage_busy";
   "storage_internal"].

Definition audit_decisions : list string := ["allow"; "deny"; "error"].

Definition one_of (l : list string) (s : string) : bool := existsb (String.eqb s) l.

Definition audit_checks (a : ScheduleMutationAudit) : bool :=
  key_length (au_audit_id a)
  && match au_principal a with Some p => principal_filled p | None => true end
  && one_of audit_operations (au_operation a) && key_length (au_request_id a)
  && one_of audit_outcomes (au_outcome a) && one_of audit_decisions (au_decision a)
  && (0 <=? au_latency_ms a) && key_length (au_correlation_id a).

(** [trg_scheduler_metrics_unauthorized_mutation] and
    [trg_scheduler_metrics_request_policy_limit] *)
Definition count_audit (a : ScheduleMutationAudit) (t : gmap string Z) : gmap string Z :=
  let t := if one_of ["denied"; "resolver_not_allowed"] (au_outcome a)
           then bump "unauthorized_scheduler_mutation" 1 t else t in
  match au_error_code a with
  | Some code => if one_of ["active_job_limit_exceeded"; "policy_limit_rejected"] code
                 then bump "policy_limit_rejected" 1 t else t
  | None => t
  end.

(** [trg_scheduler_metrics_run_materialized] *)
Definition count_materialized (s : RunSnapshot) (t : gmap string Z) : gmap string Z :=
  bump "misfire_coalesced_skipped" (s_skipped_count s) (bump "occurrences_materialized" 1 t).

(** ** Statements *)

Definition insert_job (id : string) (j : Job) : Tx unit :=
  sql (fun d =>
    if job_checks id j && negb (is_some (jobs d !! id))
    then Ok (tt, with_jobs d (<[id := j]> (jobs d)))
    else Err Constraint).

Definition update_jobs (where_ : string -> Job -> bool) (set : Job -> Job) : Tx Z :=
  sql (fun d =>
    let hit := matching where_ (jobs d) in
    if forallb (fun '(id, j) => job_checks id (set j)) hit
    then Ok (Z.of_nat (length hit), with_jobs d (update_rows where_ set (jobs d)))
    else Err Constraint).

(** The rows are kept under their unique [job_id]; [schedule_id] is the primary
    key. *)
Definition insert_schedule (job_id : string) (h : ScheduleRow) : Tx unit :=
  sql (fun d =>
    if schedule_checks h && is_some (jobs d !! job_id) && negb (is_some (schedules d !! job_id))
       && forallb (fun '(_, h') => negb (String.eqb (h_schedule_id h') (h_schedule_id h)))
            (map_to_list (schedules d))
    then Ok (tt, with_schedules d (<[job_id := h]> (schedules d)))
    else Err Constraint).

Definition update_schedules (where_ : Db -> string -> ScheduleRow -> bool)
    (set : ScheduleRow -> ScheduleRow) : Tx Z :=
  sql (fun d =>
    let hit := matching (where_ d) (schedules d) in
    if forallb (fun '(_, h) => schedule_checks (set h)) hit
    then Ok (Z.of_nat (length hit), with_schedules d (update_rows (where_ d) set (schedules d)))
    else Err Constraint).

Definition delete_targets (job_id : string) : Tx unit :=
  sql (fun d => Ok (tt, with_job_targets d
    (filter (fun x => t_job_id x.2 <> job_id) (job_targets d)))).

Definition insert_target (id : string) (t : JobTarget) : Tx unit :=
  sql (fun d =>
    if target_checks t && is_some (jobs d !! t_job_id t)
       && negb (existsb (target_collides id t) (map_to_list (job_targets d)))
    then Ok (tt, with_job_targets d (<[id := t]> (job_targets d)))
    else Err Constraint).

Definition insert_baseline (job_id : string) : Tx unit :=
  sql (fun d =>
    if is_some (jobs d !! job_id) && negb (is_some (baselines d !! job_id))
    then Ok (tt, with_baselines d (<[job_id := mkBaseline 0 None]> (baselines d)))
    else Err Constraint).

Definition delete_cursors (job_id : string) : Tx unit :=
  sql (fun d => Ok (tt, with_transition_cursors d (delete job_id (transition_cursors d)))).

(** INSERT ... ON CONFLICT DO UPDATE ... WHERE the new generation or value is
    larger; whether a row was written. *)
Definition upsert_cursor (job_id : string) (c : TransitionCursor) : Tx bool :=
  sql (fun d =>
    if negb (cursor_checks job_id c) then Err Constraint
    else match transition_cursors d !! job_id with
    | None =>
        if is_some (jobs d !! job_id)
        then Ok (true, with_transition_cursors d (<[job_id := c]> (transition_cursors d)))
        else Err Constraint
    | Some old =>
        if (cursor_generation c >? cursor_generation old)
           || ((cursor_generation c =? cursor_generation old) && (cursor_value c >? cursor_value old))
        then
          let new := mkCursor (cursor_generation c) (cursor_value c)
            (if cursor_generation c =? cursor_generation old then cursor_created_at old
             else cursor_created_at c) (cursor_updated_at c) in
          if cursor_checks job_id new
          then Ok (true, with_transition_cursors d (<[job_id := new]> (transition_cursors d)))
          else Err Constraint
        else Ok (false, d)
    end).

Definition same_occurrence (s : RunSnapshot) (x : string * Run) : bool :=
  String.eqb (s_job_id (r_snapshot x.2)) (s_job_id s)
  && (s_scheduled_for (r_snapshot x.2) =? s_scheduled_for s).

(** INSERT ... ON CONFLICT (job_id, scheduled_for) DO NOTHING of a run; whether
    a row was written.  That conflict is looked for before the other keys. *)
Definition insert_run (id : string) (r : Run) : Tx bool :=
  sql (fun d =>
    let s := r_snapshot r in
    if negb (run_targets_accepted (s_targets_json s) && negb (is_some (r_result r))
             && negb (bool_decide (r_state r = Succeeded))
             && snapshot_checks s && run_checks r)
    then Err Constraint
    else if existsb (same_occurrence s) (map_to_list (runs d)) then Ok (false, d)
    else if negb (is_some (runs d !! id)) && is_some (jobs d !! s_job_id s)
            && match schedules d !! s_job_id s with
               | Some h => String.eqb (h_schedule_id h) (s_schedule_id s)
               | None => false
               end
            && overlap_unique (<[id := r]> (runs d))
    then Ok (true, with_totals (with_runs d (<[id := r]> (runs d))) (count_materialized s (totals d)))
    else Err Constraint).

(** INSERT ... ON CONFLICT DO NOTHING of a claimed key; whether it was written. *)
Definition insert_idempotency (scope key algorithm digest : string) (now : Z) : Tx bool :=
  sql (fun d =>
    match datetime_unixepoch now with
    | None => Err Constraint
    | Some at_ =>
        if negb (filled scope && filled key) then Err Constraint
        else if is_some (idempotency_keys d !! (scope, key)) then Ok (false, d)
        else Ok (true, with_idempotency_keys d
          (<[(scope, key) := mkIdempotencyKey "claimed" None (Some digest) (Some algorithm) None
                               at_ at_]> (idempotency_keys d)))
    end).

Definition complete_key (response at_ : string) (k : IdempotencyKey) : IdempotencyKey :=
  mkIdempotencyKey "completed" None (k_request_digest k) (k_digest_algorithm k) (Some response)
    (k_created_at k) at_.

(** UPDATE of the claimed key; the rows affected. *)
Definition update_idempotency (scope key algorithm digest response : string) (now : Z) : Tx Z :=
  sql (fun d =>
    match idempotency_keys d !! (scope, key) with
    | Some k =>
        if String.eqb (k_status k) "claimed" && is_value (k_digest_algorithm k) algorithm
           && is_value (k_request_digest k) digest
        then match datetime_unixepoch now with
             | Some at_ => Ok (1, with_idempotency_keys d
                 (<[(scope, key) := complete_key response at_ k]> (idempotency_keys d)))
             | None => Err Constraint
             end
        else Ok (0, d)
    | None => Ok (0, d)
    end).

Definition insert_audit (a : ScheduleMutationAudit) : Tx unit :=
  sql (fun d =>
    if audit_checks a && negb (is_some (mutation_audit d !! au_audit_id a))
    then Ok (tt, with_totals (with_mutation_audit d (<[au_audit_id a := a]> (mutation_audit d)))
                   (count_audit a (totals d)))
    else Err Constraint).

End Statements.

End JobTables.
