(* ===== verification/Jobs.v ===== *)
(** * Jobs: mutations, idempotent requests and due occurrences
    (crates/state/src/scheduler.rs and scheduler/store.rs)

    Creating, updating, pausing, resuming and deleting scheduled jobs under a
    generation compare-and-swap, with the cadence proof, the limits on active
    jobs, the idempotency record and the audit in one transaction; and turning
    a due occurrence into a pending run with its frozen snapshots. *)

From stdpp Require Import base tactics list strings numbers pretty gmap.
From Stdlib Require Import ZArith Lia Ascii.
From S2P Require Import Prelude.
From S2P Require Import Policy.
From S2P Require Import Schedule.
From S2P Require Import Json.
From S2P Require Import Digest.
From S2P Require Import Authority.
From S2P Require Import Tables.
From S2P Require Import Runs.
From S2P Require Import Completion.
From S2P Require Import DeliveryTables.
From S2P Require Import Deliveries.
From S2P Require Import JobTables.
Import Digest.

Module Jobs.
Import Schedule Snapshot Authority Tables Runs Completion JobTables.

(** ** Requests *)

Record ScheduledJobDefinition := mkDefinition {
  def_version : Z;
  def_canonical_json : string
}.

Record CapabilityProfileSnapshot := mkCapability {
  cap_schema_version : Z;
  cap_digest : string;
  cap_canonical_json : string
}.

Record DeliveryTargetSnapshot := mkTargetSnapshot {
  dt_target_id : string;
  dt_provider : string;
  dt_connector : string;
  dt_tenant : string;
  dt_kind : string;
  dt_address_json : string;
  dt_resolver_version : Z;
  dt_resolver_digest : string;
  dt_identity_digest : string
}.

Record CreateScheduledJob := mkCreate {
  cr_job_id : string;
  cr_schedule_id : string;
  cr_definition : ScheduledJobDefinition;
  cr_creator : PrincipalKey;
  cr_owner : PrincipalKey;
  cr_capability : CapabilityProfileSnapshot;
  cr_targets : list DeliveryTargetSnapshot;
  cr_schedule : ScheduleSpec;
  cr_now : Z
}.

Record UpdateScheduledJob := mkUpdate {
  up_job_id : string;
  up_expected_generation : Z;
  up_definition : ScheduledJobDefinition;
  up_capability : CapabilityProfileSnapshot;
  up_targets : list DeliveryTargetSnapshot;
  up_schedule : ScheduleSpec;
  up_now : Z
}.

Inductive ScheduledJobMutation :=
| MutCreate (request : CreateScheduledJob)
| MutUpdate (request : UpdateScheduledJob)
| MutPause (job_id : string) (expected_generation now : Z)
| MutResume (job_id : string) (expected_generation now : Z)
| MutDelete (job_id : string) (expected_generation now : Z).

Definition operation (m : ScheduledJobMutation) : string :=
  match m with
  | MutCreate _ => "create"
  | MutUpdate _ => "update"
  | MutPause _ _ _ => "pause"
  | MutResume _ _ _ => "resume"
  | MutDelete _ _ _ => "delete"
  end.

Definition mutation_now (m : ScheduledJobMutation) : Z :=
  match m with
  | MutCreate request => cr_now request
  | MutUpdate request => up_now request
  | MutPause _ _ now | MutResume _ _ now | MutDelete _ _ now => now
  end.

Definition mutation_job (m : ScheduledJobMutation) : string :=
  match m with
  | MutCreate request => cr_job_id request
  | MutUpdate request => up_job_id request
  | MutPause job_id _ _ | MutResume job_id _ _ | MutDelete job_id _ _ => job_id
  end.

Record ScheduleMutationIdempotency := mkIdempotency {
  id_principal : PrincipalKey;
  id_request_id : string;
  id_digest_algorithm : string;
  id_request_digest : string;
  id_response_json : string
}.

Inductive IdempotencyDecision :=
| Claimed
| ReplayDecision (response : string)
| InProgressDecision
| ConflictDecision.

Inductive TransactionalMutationOutcome :=
| Applied (response : string)
| Replay (response : string)
| InProgress
| Conflict.

Record ScheduledJob := mkScheduledJob {
  sj_job_id : string;
  sj_definition : ScheduledJobDefinition;
  sj_creator : PrincipalKey;
  sj_owner : PrincipalKey;
  sj_capability : CapabilityProfileSnapshot;
  sj_status : ScheduledJobStatus;
  sj_generation : Z;
  sj_schedule_id : string;
  sj_schedule_generation : Z;
  sj_schedule : ScheduleSpec;
  sj_next_run_at : option Z
}.

Record ScheduledRun := mkScheduledRun {
  sr_run_id : string;
  sr_job_id : string;
  sr_scheduled_for : Z;
  sr_coalesced_through : Z;
  sr_skipped_count : Z;
  sr_skipped_count_saturated : bool;
  sr_state : ScheduledRunState
}.

Inductive MaterializationOutcome :=
| Created (run : ScheduledRun)
| NotDue
| Blocked
| AlreadyMaterialized.

Record CadenceProofArtifact := mkCadenceProof {
  proof_json : string;
  proof_schedule_digest : string;
  proof_policy_digest : string
}.

(** [invalid_occurrence] and [invalid_json] *)
Definition invalid_occurrence (e : OccurrenceError) : StateError :=
  InvalidSchedulerState (OfOccurrence e).
Definition invalid_json : StateError := InvalidSchedulerState OfJson.

Section Store.
Context `{Calendar} `{Serde} `{Sha2} `{Sqlite}.

(** ** Validation *)

Definition principal_validate (p : PrincipalKey) : result StateValueError unit :=
  check? validate_text "principal.kind" (pk_kind p) in
  check? validate_text "principal.provider" (pk_provider p) in
  check? validate_text "principal.tenant" (pk_tenant p) in
  validate_text "principal.subject" (pk_subject p).

Definition principal_new (kind provider tenant subject : string) :
    result StateValueError PrincipalKey :=
  let p := mkPrincipal kind provider tenant subject in
  check? principal_validate p in
  Ok p.

Definition definition_new (version : Z) (json : string) :
    result StateValueError ScheduledJobDefinition :=
  let? canonical := canonicalize_snapshot version "definition" json in
  Ok (mkDefinition version canonical).

Definition definition_validate (x : ScheduledJobDefinition) : result StateValueError unit :=
  validate_canonical_snapshot (def_version x) "definition" (def_canonical_json x).

Definition capability_new (schema_version : Z) (digest json : string) :
    result StateValueError CapabilityProfileSnapshot :=
  let? canonical := canonicalize_snapshot schema_version "capability profile" json in
  check? validate_text "capability profile digest" digest in
  Ok (mkCapability schema_version digest canonical).

Definition capability_validate (x : CapabilityProfileSnapshot) : result StateValueError unit :=
  check? validate_text "capability profile digest" (cap_digest x) in
  validate_canonical_snapshot (cap_schema_version x) "capability profile" (cap_canonical_json x).

Definition target_validate (t : DeliveryTargetSnapshot) : result StateValueError unit :=
  check? Deliveries.validate_texts
    [("target id", dt_target_id t); ("target provider", dt_provider t);
     ("target connector", dt_connector t); ("target tenant", dt_tenant t);
     ("target kind", dt_kind t); ("resolver digest", dt_resolver_digest t)] in
  check? validate_lowercase_sha256 "target identity digest" (dt_identity_digest t) in
  validate_canonical_snapshot (dt_resolver_version t) "target address" (dt_address_json t).

Definition target_new (id provider connector tenant kind address : string) (resolver_version : Z)
    (resolver_digest identity_digest : string) : result StateValueError DeliveryTargetSnapshot :=
  let? address_json := canonicalize_snapshot resolver_version "target address" address in
  let t := mkTargetSnapshot id provider connector tenant kind address_json resolver_version
             resolver_digest identity_digest in
  check? target_validate t in
  Ok t.

Definition serialize_targets (targets : list Value) : result StateError string :=
  let? serialized := ok_or (to_vec (Arr targets)) invalid_json in
  bail? len serialized >? MAX_SNAPSHOT_BYTES
    with invalid_state "serialized delivery targets exceed the durable snapshot bound" in
  Ok serialized.

Definition target_count_ok {A} (targets : list A) : bool :=
  negb (Z.of_nat (length targets) =? 0) && (Z.of_nat (length targets) <=? MAX_DELIVERY_TARGETS).

Definition target_count_error : StateError :=
  invalid_state "resolved delivery targets must contain 1..=32 entries".

Definition validate_serialized_targets (targets : list Value) : result StateError unit :=
  bail? negb (target_count_ok targets) with target_count_error in
  let? _ := serialize_targets targets in
  Ok tt.

(** The [json!] object of a resolved target. *)
Definition target_value (provider connector tenant kind : string) (address : Value)
    (resolver_version : Value) (resolver_digest identity_digest : string) : Value :=
  json_object [
    ("provider", Str provider); ("connector", Str connector); ("tenant", Str tenant);
    ("kind", Str kind); ("address", address); ("resolver_version", resolver_version);
    ("resolver_digest", Str resolver_digest); ("identity_digest", Str identity_digest)].

Definition target_snapshot_value (t : DeliveryTargetSnapshot) : result StateError Value :=
  check? map_err invalid_value (target_validate t) in
  let? address := ok_or (from_slice (dt_address_json t)) invalid_json in
  Ok (target_value (dt_provider t) (dt_connector t) (dt_tenant t) (dt_kind t) address
        (json_u64 (dt_resolver_version t)) (dt_resolver_digest t) (dt_identity_digest t)).

(** [iter().map(f).collect::<Result<Vec<_>, _>>()] *)
Fixpoint collect {A B} (f : A -> result StateError B) (l : list A) : result StateError (list B) :=
  match l with
  | [] => Ok []
  | a :: rest =>
      let? b := f a in
      let? bs := collect f rest in
      Ok (b :: bs)
  end.

Definition validate_delivery_targets (targets : list DeliveryTargetSnapshot) :
    result StateError unit :=
  bail? negb (target_count_ok targets) with target_count_error in
  let? values := collect target_snapshot_value targets in
  validate_serialized_targets values.

Definition validate_definition_policy (x : ScheduledJobDefinition)
    (policy : Policy.SchedulerOperationalPolicy) : result StateError unit :=
  let? value := ok_or (from_slice (def_canonical_json x)) invalid_json in
  match get "instruction" value ≫= as_str with
  | None => Ok tt
  | Some instruction =>
      bail? len instruction >? Policy.max_prompt_bytes policy
        with invalid_state "scheduled instruction exceeds max_prompt_bytes" in
      Ok tt
  end.

(** ** The cadence proof *)

Definition schedule_identity (s : ScheduleSpec) : Value * string :=
  match s with
  | Once at_ => (json_object [("at", json_i64 at_); ("kind", Str "once")], "once")
  | FixedInterval anchor every_seconds =>
      (json_object [("anchor", json_i64 anchor); ("every_seconds", json_i64 every_seconds);
                    ("kind", Str "fixed_interval")], "fixed_interval")
  | Cron expression timezone =>
      (json_object [("expression", Str expression); ("kind", Str "cron");
                    ("timezone", Str timezone)], "bounded_cron_cycle")
  end.

Definition cadence_proof_identity (s : ScheduleSpec) (policy : Policy.SchedulerOperationalPolicy) :
    result StateError (string * string * string) :=
  let '(schedule_json, kind) := schedule_identity s in
  let? policy_json := scheduler_policy_json policy in
  Ok (sha256_hex (display schedule_json), sha256_hex policy_json, kind).

Definition generate_cadence_proof (s : ScheduleSpec) (now : Z)
    (policy : Policy.SchedulerOperationalPolicy) : result StateError CadenceProofArtifact :=
  check? map_err invalid_value (validate_minimum_cadence s now
    (Policy.minimum_schedule_cadence_seconds policy) (Policy.occurrence_search_limit policy)) in
  let? identity := cadence_proof_identity s policy in
  let '(schedule_digest, policy_digest, kind) := identity in
  Ok (mkCadenceProof (display (json_object [
        ("kind", Str kind);
        ("minimum_seconds", json_u64 (Policy.minimum_schedule_cadence_seconds policy));
        ("occurrence_limit", json_u64 (Policy.occurrence_search_limit policy));
        ("policy_digest", Str policy_digest); ("result", Str "valid");
        ("schedule_digest", Str schedule_digest); ("schema_version", json_u64 1)]))
      schedule_digest policy_digest).

(** [CadenceProofArtifact::verify] *)
Definition proof_verify (proof : CadenceProofArtifact) (s : ScheduleSpec)
    (policy : Policy.SchedulerOperationalPolicy) : result StateError unit :=
  let? identity := cadence_proof_identity s policy in
  let '(schedule_digest, policy_digest, _) := identity in
  bail? negb (String.eqb (proof_schedule_digest proof) schedule_digest)
        || negb (String.eqb (proof_policy_digest proof) policy_digest)
    with invalid_state "cadence proof authority does not match schedule and policy" in
  Ok tt.

(** Both callers pass [validate_cadence = false]. *)
Definition validate_create_request (request : CreateScheduledJob)
    (policy : Policy.SchedulerOperationalPolicy) (validate_cadence : bool) : result StateError Z :=
  check? map_err invalid_value (validate_text "job id" (cr_job_id request)) in
  check? map_err invalid_value (validate_text "schedule id" (cr_schedule_id request)) in
  check? map_err invalid_value (principal_validate (cr_creator request)) in
  check? map_err invalid_value (principal_validate (cr_owner request)) in
  check? map_err invalid_value (definition_validate (cr_definition request)) in
  check? map_err invalid_value (capability_validate (cr_capability request)) in
  check? map_err invalid_value (validate_for_create (cr_schedule request) (cr_now request)) in
  check? (if validate_cadence
          then let? _ := generate_cadence_proof (cr_schedule request) (cr_now request) policy in Ok tt
          else Ok tt) in
  check? validate_definition_policy (cr_definition request) policy in
  check? validate_delivery_targets (cr_targets request) in
  map_err invalid_occurrence (first_after_create (cr_schedule request) (cr_now request)).

Definition validate_update_request (request : UpdateScheduledJob)
    (policy : Policy.SchedulerOperationalPolicy) (validate_cadence : bool) : result StateError unit :=
  check? map_err invalid_value (validate_text "job id" (up_job_id request)) in
  check? map_err invalid_value (validate_for_create (up_schedule request) (up_now request)) in
  check? (if validate_cadence
          then let? _ := generate_cadence_proof (up_schedule request) (up_now request) policy in Ok tt
          else Ok tt) in
  check? map_err invalid_value (definition_validate (up_definition request)) in
  check? validate_definition_policy (up_definition request) policy in
  check? map_err invalid_value (capability_validate (up_capability request)) in
  bail? up_expected_generation request <? 0 with invalid_state "invalid update generation" in
  validate_delivery_targets (up_targets request).

Definition validate_lifecycle_mutation (job_id : string) (expected_generation : Z) :
    result StateError unit :=
  check? map_err invalid_value (validate_text "job id" job_id) in
  bail? expected_generation <? 0
    with invalid_state "expected generation must not be negative" in
  Ok tt.

Definition validate_idempotency_request (operation request_id algorithm digest : string) :
    result StateError unit :=
  map_err invalid_value (Deliveries.validate_texts
    [("schedule operation", operation); ("schedule request id", request_id);
     ("request digest algorithm", algorithm); ("request digest", digest)]).

Definition validate_mutation_idempotency (m : ScheduledJobMutation)
    (i : ScheduleMutationIdempotency) : result StateError unit :=
  check? validate_idempotency_request (operation m) (id_request_id i) (id_digest_algorithm i)
    (id_request_digest i) in
  bail? (len (id_response_json i) >? MAX_SNAPSHOT_BYTES)
        || negb (is_some (from_slice (id_response_json i)))
    with invalid_state "idempotency response must be bounded valid JSON" in
  Ok tt.

(** The fields that are present, in the order they are validated. *)
Definition audit_texts (a : ScheduleMutationAudit) : list (string * string) :=
  [("audit id", au_audit_id a); ("audit operation", au_operation a);
   ("audit request id", au_request_id a); ("audit outcome", au_outcome a);
   ("audit decision", au_decision a); ("audit correlation id", au_correlation_id a)]
  ++ match au_job_id a with Some v => [("audit job id", v)] | None => [] end
  ++ match au_reason a with Some v => [("audit reason", v)] | None => [] end
  ++ match au_error_code a with Some v => [("audit error code", v)] | None => [] end.

Definition validate_schedule_audit (a : ScheduleMutationAudit) : result StateError unit :=
  check? map_err invalid_value (Deliveries.validate_texts (audit_texts a)) in
  check? match au_principal a with
         | Some p => map_err invalid_value (principal_validate p)
         | None => Ok tt
         end in
  bail? (au_latency_ms a <? 0) || negb (one_of audit_decisions (au_decision a))
        || negb (one_of audit_outcomes (au_outcome a))
    with invalid_state "invalid schedule audit outcome" in
  Ok tt.

Definition validate_mutation_audit (m : ScheduledJobMutation) (i : ScheduleMutationIdempotency)
    (a : ScheduleMutationAudit) : result StateError unit :=
  check? validate_schedule_audit a in
  bail? negb (bool_decide (au_principal a = Some (id_principal i)))
        || negb (String.eqb (au_operation a) (operation m))
        || negb (bool_decide (au_job_id a = Some (mutation_job m)))
        || negb (String.eqb (au_request_id a) (id_request_id i))
        || negb (String.eqb (au_outcome a) "applied") || negb (String.eqb (au_decision a) "allow")
        || negb (au_occurred_at a =? mutation_now m)
    with invalid_state "schedule mutation audit does not match the authorized mutation" in
  Ok tt.

(** ** The parts of a mutation *)

Definition acquire_scheduler_policy_lock (now : Z) : Tx unit :=
  do! locked := sql (fun d =>
    match policy_lock d with
    | Some _ => Ok (true, with_policy_lock d (Some now))
    | None => Ok (false, d)
    end) in
  if locked then ret tt
  else fail (invalid_state "scheduler operational policy lock is unavailable").

(** [excluded is null or job_id <> excluded] *)
Definition counted (excluded : option string) (id : string) (j : Job) : bool :=
  bool_decide (j_status j = Active)
  && match excluded with Some x => negb (String.eqb id x) | None => true end.

Definition active_jobs (excluded : option string) (d : Db) : Z :=
  Z.of_nat (length (matching (counted excluded) (jobs d))).

Definition active_jobs_of (owner : PrincipalKey) (excluded : option string) (d : Db) : Z :=
  Z.of_nat (length (matching
    (fun id j => counted excluded id j && bool_decide (j_owner j = owner)) (jobs d))).

Definition enforce_active_job_limits (policy : Policy.SchedulerOperationalPolicy)
    (owner : PrincipalKey) (excluded : option string) : Tx unit :=
  do! global := query (active_jobs excluded) in
  if global >=? Policy.max_active_jobs policy
  then fail (ScheduledActiveJobLimitExceeded "global")
  else
    do! owned := query (active_jobs_of owner excluded) in
    if owned >=? Policy.max_active_jobs_per_owner policy
    then fail (ScheduledActiveJobLimitExceeded "owner")
    else ret tt.

Definition owner_from_row (j : Job) : result StateError PrincipalKey :=
  map_err invalid_value (principal_new (pk_kind (j_owner j)) (pk_provider (j_owner j))
    (pk_tenant (j_owner j)) (pk_subject (j_owner j))).

Definition target_row (job_id : string) (ordinal : Z) (t : DeliveryTargetSnapshot) : JobTarget :=
  mkJobTarget job_id ordinal (dt_provider t) (dt_connector t) (dt_tenant t) (dt_kind t)
    (dt_address_json t) (dt_resolver_version t) (dt_resolver_digest t) (dt_identity_digest t).

Fixpoint insert_targets (job_id : string) (ordinal : Z) (targets : list DeliveryTargetSnapshot) :
    Tx unit :=
  match targets with
  | [] => ret tt
  | t :: rest =>
      do! _ := insert_target (dt_target_id t) (target_row job_id ordinal t) in
      insert_targets job_id (ordinal + 1) rest
  end.

Definition replace_delivery_targets (job_id : string) (targets : list DeliveryTargetSnapshot) :
    Tx unit :=
  do! _ := delete_targets job_id in
  insert_targets job_id 0 targets.

Definition created_job (request : CreateScheduledJob) (policy_json : string) : Job :=
  mkJob (def_version (cr_definition request)) (def_canonical_json (cr_definition request))
    (cr_creator request) (cr_owner request) Active 0 (cap_schema_version (cr_capability request))
    (cap_digest (cr_capability request)) (cap_canonical_json (cr_capability request)) 1 policy_json
    (cr_now request) (cr_now request) None.

Definition schedule_row (schedule_id : string) (s : ScheduleSpec) (generation : Z)
    (next : option Z) (proof : CadenceProofArtifact) (created_at updated_at : Z) : ScheduleRow :=
  let p := storage_parts s in
  mkScheduleRow schedule_id (part_kind p) (part_spec p) (part_timezone p) (part_once_at p)
    (part_anchor_at p) (part_interval_seconds p) generation next (proof_json proof) created_at
    updated_at.

Definition insert_scheduled_job (request : CreateScheduledJob) (next : Z) (policy_json : string)
    (proof : CadenceProofArtifact) : Tx unit :=
  do! policy := lift (scheduler_policy_from_snapshot 1 policy_json) in
  try! proof_verify proof (cr_schedule request) policy in
  do! _ := insert_job (cr_job_id request) (created_job request policy_json) in
  do! _ := insert_schedule (cr_job_id request)
    (schedule_row (cr_schedule_id request) (cr_schedule request) 0 (Some next) proof
       (cr_now request) (cr_now request)) in
  do! _ := replace_delivery_targets (cr_job_id request) (cr_targets request) in
  insert_baseline (cr_job_id request).

Definition updated_job (request : UpdateScheduledJob) (policy_json : string) (j : Job) : Job := {|
  j_definition_version := def_version (up_definition request);
  j_definition_json := def_canonical_json (up_definition request);
  j_creator := j_creator j;
  j_owner := j_owner j;
  j_status := j_status j;
  j_generation := j_generation j + 1;
  j_capability_schema_version := cap_schema_version (up_capability request);
  j_capability_digest := cap_digest (up_capability request);
  j_capability_json := cap_canonical_json (up_capability request);
  j_scheduler_policy_version := 1;
  j_scheduler_policy_json := policy_json;
  j_created_at := j_created_at j;
  j_updated_at := up_now request;
  j_deleted_at := j_deleted_at j
|}.

Definition at_generation (job_id : string) (generation : Z) (id : string) (j : Job) : bool :=
  String.eqb id job_id && (j_generation j =? generation).

Definition is_open (s : ScheduledJobStatus) : bool :=
  match s with Active | Paused => true | _ => false end.

Definition apply_update (request : UpdateScheduledJob) (policy : Policy.SchedulerOperationalPolicy)
    (policy_json : string) (proof : CadenceProofArtifact) : Tx unit :=
  let job_id := up_job_id request in
  let generation := up_expected_generation request in
  try! proof_verify proof (up_schedule request) policy in
  do! _ := acquire_scheduler_policy_lock (up_now request) in
  do! row := query (fun d =>
    j ← jobs d !! job_id;
    if (j_generation j =? generation) && is_open (j_status j) then Some j else None) in
  match row with
  | None => fail SchedulerGenerationConflict
  | Some j =>
      do! owner := lift (owner_from_row j) in
      do! next :=
        (if bool_decide (j_status j = Active)
         then
           do! _ := enforce_active_job_limits policy owner (Some job_id) in
           do! next := lift (map_err invalid_occurrence
             (first_after_create (up_schedule request) (up_now request))) in
           ret (Some next)
         else ret None) in
      do! updated := update_jobs
        (fun id j' => at_generation job_id generation id j'
                      && bool_decide (j_status j' = j_status j))
        (updated_job request policy_json) in
      if negb (updated =? 1) then fail SchedulerGenerationConflict
      else
        do! _ := cancel_pre_execution_runs job_id generation (up_now request) in
        do! _ := delete_cursors job_id in
        do! _ := update_schedules (fun _ id _ => String.eqb id job_id)
          (fun h => schedule_row (h_schedule_id h) (up_schedule request) (h_generation h + 1) next
                      proof (h_created_at h) (up_now request)) in
        replace_delivery_targets job_id (up_targets request)
  end.

Definition with_status (status : ScheduledJobStatus) (deleted_at : option Z) (policy : option string)
    (now : Z) (j : Job) : Job := {|
  j_definition_version := j_definition_version j;
  j_definition_json := j_definition_json j;
  j_creator := j_creator j;
  j_owner := j_owner j;
  j_status := status;
  j_generation := j_generation j + 1;
  j_capability_schema_version := j_capability_schema_version j;
  j_capability_digest := j_capability_digest j;
  j_capability_json := j_capability_json j;
  j_scheduler_policy_version := match policy with Some _ => 1 | None => j_scheduler_policy_version j end;
  j_scheduler_policy_json := default (j_scheduler_policy_json j) policy;
  j_created_at := j_created_at j;
  j_updated_at := now;
  j_deleted_at := deleted_at
|}.

Definition next_schedule_generation (now : Z) (h : ScheduleRow) : ScheduleRow := {|
  h_schedule_id := h_schedule_id h;
  h_kind := h_kind h;
  h_canonical_spec := h_canonical_spec h;
  h_timezone := h_timezone h;
  h_once_at := h_once_at h;
  h_anchor_at := h_anchor_at h;
  h_interval_seconds := h_interval_seconds h;
  h_generation := h_generation h + 1;
  h_next_run_at := h_next_run_at h;
  h_cadence_proof_json := h_cadence_proof_json h;
  h_created_at := h_created_at h;
  h_updated_at := now
|}.

(** [status] is [Paused] or [Deleted]. *)
Definition apply_inactive (job_id : string) (expected_generation : Z)
    (status : ScheduledJobStatus) (now : Z) : Tx unit :=
  let deleted_at := if bool_decide (status = Deleted) then Some now else None in
  do! updated := update_jobs
    (fun id j => at_generation job_id expected_generation id j
                 && (is_open (j_status j)
                     || (bool_decide (status = Deleted) && bool_decide (j_status j = Completed))))
    (with_status status deleted_at None now) in
  if negb (updated =? 1) then fail SchedulerGenerationConflict
  else
    do! _ := cancel_pre_execution_runs job_id expected_generation now in
    do! _ := update_schedules (fun _ id _ => String.eqb id job_id) (next_schedule_generation now) in
    ret tt.

Definition parts_of_row (h : ScheduleRow) : StorageParts :=
  mkParts (h_kind h) (h_canonical_spec h) (h_timezone h) (h_once_at h) (h_anchor_at h)
    (h_interval_seconds h).

Definition schedule_from_row (h : ScheduleRow) : result StateError ScheduleSpec :=
  map_err (fun _ => invalid_state "invalid persisted schedule") (from_storage (parts_of_row h)).

(** [... where j.status = 'paused' and j.generation = ...] *)
Definition paused_schedule (job_id : string) (generation : Z) (d : Db) :
    option (Job * ScheduleRow) :=
  j ← jobs d !! job_id;
  h ← schedules d !! job_id;
  if bool_decide (j_status j = Paused) && (j_generation j =? generation) then Some (j, h) else None.

Definition resumed_schedule (next : Z) (proof : CadenceProofArtifact) (now : Z) (h : ScheduleRow) :
    ScheduleRow := {|
  h_schedule_id := h_schedule_id h;
  h_kind := h_kind h;
  h_canonical_spec := h_canonical_spec h;
  h_timezone := h_timezone h;
  h_once_at := h_once_at h;
  h_anchor_at := h_anchor_at h;
  h_interval_seconds := h_interval_seconds h;
  h_generation := h_generation h + 1;
  h_next_run_at := Some next;
  h_cadence_proof_json := proof_json proof;
  h_created_at := h_created_at h;
  h_updated_at := now
|}.

Definition apply_resume (job_id : string) (expected_generation now : Z)
    (policy : Policy.SchedulerOperationalPolicy) (policy_json : string)
    (proof : CadenceProofArtifact) : Tx unit :=
  do! _ := acquire_scheduler_policy_lock now in
  do! row := query (paused_schedule job_id expected_generation) in
  match row with
  | None => fail SchedulerGenerationConflict
  | Some (j, h) =>
      do! schedule := lift (schedule_from_row h) in
      try! proof_verify proof schedule policy in
      do! owner := lift (owner_from_row j) in
      do! _ := enforce_active_job_limits policy owner None in
      do! next := lift (map_err (fun e => match schedule with
                                          | Once _ => ScheduledOnceExpired
                                          | _ => invalid_occurrence e
                                          end) (next_after schedule now)) in
      do! _ := update_jobs
        (fun id j' => at_generation job_id expected_generation id j'
                      && bool_decide (j_status j' = Paused))
        (fun j' => with_status Active (j_deleted_at j') (Some policy_json) now j') in
      do! _ := update_schedules (fun _ id _ => String.eqb id job_id)
        (resumed_schedule next proof now) in
      ret tt
  end.

Definition apply_typed_mutation (m : ScheduledJobMutation)
    (policy : Policy.SchedulerOperationalPolicy) (proof : option CadenceProofArtifact) : Tx unit :=
  do! policy_json := lift (scheduler_policy_json policy) in
  match m with
  | MutCreate request =>
      do! next := lift (validate_create_request request policy false) in
      do! proof := lift (ok_or proof
        (invalid_state "create mutation is missing cadence proof authority")) in
      do! _ := acquire_scheduler_policy_lock (cr_now request) in
      do! _ := enforce_active_job_limits policy (cr_owner request) None in
      insert_scheduled_job request next policy_json proof
  | MutUpdate request =>
      try! validate_update_request request policy false in
      do! proof := lift (ok_or proof
        (invalid_state "update mutation is missing cadence proof authority")) in
      apply_update request policy policy_json proof
  | MutPause job_id generation now =>
      try! validate_lifecycle_mutation job_id generation in
      apply_inactive job_id generation Paused now
  | MutResume job_id generation now =>
      try! validate_lifecycle_mutation job_id generation in
      do! proof := lift (ok_or proof
        (invalid_state "resume mutation is missing cadence proof authority")) in
      apply_resume job_id generation now policy policy_json proof
  | MutDelete job_id generation now =>
      try! validate_lifecycle_mutation job_id generation in
      apply_inactive job_id generation Deleted now
  end.

(** ** Idempotency *)

Definition canonical_idempotency_scope (p : PrincipalKey) (operation : string) : string :=
  display (json_object [
    ("kind", Str (pk_kind p)); ("operation", Str operation); ("provider", Str (pk_provider p));
    ("subject", Str (pk_subject p)); ("tenant", Str (pk_tenant p))]).

Definition decide_replay (algorithm digest : string) (k : IdempotencyKey) :
    result StateError IdempotencyDecision :=
  if negb (is_value (k_request_digest k) digest) || negb (is_value (k_digest_algorithm k) algorithm)
  then Ok ConflictDecision
  else if negb (String.eqb (k_status k) "completed") then Ok InProgressDecision
  else let? response := ok_or (k_response_json k)
         (invalid_state "completed idempotency record has no response") in
       Ok (ReplayDecision response).

(** [fetch_one] on no row is an error of the storage layer. *)
Definition read_idempotency_decision (scope request_id algorithm digest : string) :
    Tx IdempotencyDecision :=
  do! row := query (fun d => idempotency_keys d !! (scope, request_id)) in
  match row with
  | None => fail (Scheduler Unavailable)
  | Some k => lift (decide_replay algorithm digest k)
  end.

Definition claim_idempotency_in_transaction (p : PrincipalKey)
    (operation request_id algorithm digest : string) (now : Z) : Tx IdempotencyDecision :=
  let scope := canonical_idempotency_scope p operation in
  do! inserted := insert_idempotency scope request_id algorithm digest now in
  if inserted then ret Claimed
  else read_idempotency_decision scope request_id algorithm digest.

Definition complete_idempotency_in_transaction (p : PrincipalKey) (operation : string)
    (i : ScheduleMutationIdempotency) (now : Z) : Tx unit :=
  do! n := update_idempotency (canonical_idempotency_scope p operation) (id_request_id i)
    (id_digest_algorithm i) (id_request_digest i) (id_response_json i) now in
  if negb (n =? 1) then fail (invalid_state "idempotency claim changed before completion")
  else ret tt.

(** ** Public operations *)

(** The store's own policy is an argument of its operations. *)
Definition create_scheduled_job (policy : Policy.SchedulerOperationalPolicy)
    (request : CreateScheduledJob) : Tx unit :=
  do! next := lift (validate_create_request request policy false) in
  do! proof := lift (generate_cadence_proof (cr_schedule request) (cr_now request) policy) in
  do! policy_json := lift (scheduler_policy_json policy) in
  transaction (
    do! _ := acquire_scheduler_policy_lock (cr_now request) in
    do! _ := enforce_active_job_limits policy (cr_owner request) None in
    do! _ := insert_scheduled_job request next policy_json proof in
    ret (Commit tt)).

Definition update_scheduled_job (policy : Policy.SchedulerOperationalPolicy)
    (request : UpdateScheduledJob) : Tx Z :=
  try! validate_update_request request policy false in
  do! proof := lift (generate_cadence_proof (up_schedule request) (up_now request) policy) in
  do! policy_json := lift (scheduler_policy_json policy) in
  do! _ := transaction (
    do! _ := apply_update request policy policy_json proof in
    ret (Commit tt)) in
  ret (up_expected_generation request + 1).

Definition set_job_inactive (job_id : string) (expected_generation : Z)
    (status : ScheduledJobStatus) (now : Z) : Tx Z :=
  do! _ := transaction (
    do! _ := apply_inactive job_id expected_generation status now in
    ret (Commit tt)) in
  ret (expected_generation + 1).

Definition pause_scheduled_job (job_id : string) (expected_generation now : Z) : Tx Z :=
  set_job_inactive job_id expected_generation Paused now.

Definition delete_scheduled_job (job_id : string) (expected_generation now : Z) : Tx Z :=
  set_job_inactive job_id expected_generation Deleted now.

Definition validate_resume_cadence (policy : Policy.SchedulerOperationalPolicy) (job_id : string)
    (expected_generation now : Z) : Tx CadenceProofArtifact :=
  do! row := query (paused_schedule job_id expected_generation) in
  match row with
  | None => fail SchedulerGenerationConflict
  | Some (_, h) =>
      do! schedule := lift (schedule_from_row h) in
      lift (generate_cadence_proof schedule now policy)
  end.

Definition resume_scheduled_job (policy : Policy.SchedulerOperationalPolicy) (job_id : string)
    (expected_generation now : Z) : Tx Z :=
  do! proof := validate_resume_cadence policy job_id expected_generation now in
  do! policy_json := lift (scheduler_policy_json policy) in
  do! _ := transaction (
    do! _ := apply_resume job_id expected_generation now policy policy_json proof in
    ret (Commit tt)) in
  ret (expected_generation + 1).

Definition prevalidate_schedule_mutation (policy : Policy.SchedulerOperationalPolicy)
    (m : ScheduledJobMutation) : Tx (option CadenceProofArtifact) :=
  match m with
  | MutCreate request =>
      do! _ := lift (validate_create_request request policy false) in
      do! proof := lift (generate_cadence_proof (cr_schedule request) (cr_now request) policy) in
      ret (Some proof)
  | MutUpdate request =>
      try! validate_update_request request policy false in
      do! proof := lift (generate_cadence_proof (up_schedule request) (up_now request) policy) in
      ret (Some proof)
  | MutResume job_id generation now =>
      try! validate_lifecycle_mutation job_id generation in
      do! proof := validate_resume_cadence policy job_id generation now in
      ret (Some proof)
  | MutPause job_id generation _ | MutDelete job_id generation _ =>
      try! validate_lifecycle_mutation job_id generation in
      ret None
  end.

(** The transaction of an idempotent mutation. *)
Definition mutate_once (policy : Policy.SchedulerOperationalPolicy) (m : ScheduledJobMutation)
    (i : ScheduleMutationIdempotency) (audit : option ScheduleMutationAudit)
    (proof : option CadenceProofArtifact) : Tx (Ending TransactionalMutationOutcome) :=
  do! decision := claim_idempotency_in_transaction (id_principal i) (operation m) (id_request_id i)
    (id_digest_algorithm i) (id_request_digest i) (mutation_now m) in
  match decision with
  | Claimed =>
      do! _ := apply_typed_mutation m policy proof in
      do! _ := match audit with Some a => insert_audit a | None => ret tt end in
      do! _ := complete_idempotency_in_transaction (id_principal i) (operation m) i
        (mutation_now m) in
      ret (Commit (Applied (id_response_json i)))
  | ReplayDecision response => ret (Commit (Replay response))
  | InProgressDecision => ret (Commit InProgress)
  | ConflictDecision => ret (Commit Conflict)
  end.

Definition apply_idempotent_schedule_mutation_with_audit
    (policy : Policy.SchedulerOperationalPolicy) (m : ScheduledJobMutation)
    (i : ScheduleMutationIdempotency) (audit : option ScheduleMutationAudit) :
    Tx TransactionalMutationOutcome :=
  try! validate_mutation_idempotency m i in
  try! match audit with Some a => validate_mutation_audit m i a | None => Ok tt end in
  do! proof := prevalidate_schedule_mutation policy m in
  transaction (mutate_once policy m i audit proof).

Definition apply_idempotent_schedule_mutation (policy : Policy.SchedulerOperationalPolicy)
    (m : ScheduledJobMutation) (i : ScheduleMutationIdempotency) : Tx TransactionalMutationOutcome :=
  apply_idempotent_schedule_mutation_with_audit policy m i None.

Definition append_schedule_audit (a : ScheduleMutationAudit) : Tx unit :=
  try! validate_schedule_audit a in
  transaction (do! _ := insert_audit a in ret (Commit tt)).

(** ** Reading *)

Definition scheduled_job_from_row (id : string) (j : Job) (h : ScheduleRow) :
    result StateError ScheduledJob :=
  let? definition_version := positive_u32 (j_definition_version j) in
  let? capability_schema_version := positive_u32 (j_capability_schema_version j) in
  let? definition := map_err invalid_value
    (definition_new definition_version (j_definition_json j)) in
  let? creator := map_err invalid_value (principal_new (pk_kind (j_creator j))
    (pk_provider (j_creator j)) (pk_tenant (j_creator j)) (pk_subject (j_creator j))) in
  let? owner := owner_from_row j in
  let? capability := map_err invalid_value (capability_new capability_schema_version
    (j_capability_digest j) (j_capability_json j)) in
  let? schedule := schedule_from_row h in
  Ok (mkScheduledJob id definition creator owner capability (j_status j) (j_generation j)
        (h_schedule_id h) (h_generation h) schedule (h_next_run_at h)).

Definition joined (job_id : string) (d : Db) : option (Job * ScheduleRow) :=
  j ← jobs d !! job_id;
  h ← schedules d !! job_id;
  Some (j, h).

Definition get_scheduled_job (job_id : string) : Tx (option ScheduledJob) :=
  do! row := query (joined job_id) in
  match row with
  | None => ret None
  | Some (j, h) =>
      do! job := lift (scheduled_job_from_row job_id j h) in
      ret (Some job)
  end.

Definition get_scheduled_job_by_owner (owner : PrincipalKey) (job_id : string) :
    Tx (option ScheduledJob) :=
  try! map_err invalid_value (principal_validate owner) in
  try! map_err invalid_value (validate_text "job id" job_id) in
  do! row := query (fun d =>
    x ← joined job_id d;
    if bool_decide (j_owner x.1 = owner) then Some x else None) in
  match row with
  | None => ret None
  | Some (j, h) =>
      do! job := lift (scheduled_job_from_row job_id j h) in
      ret (Some job)
  end.

(** ** Materialization *)

Definition target_snapshot_json (t : JobTarget) : result StateError Value :=
  let? address := ok_or (from_slice (t_address_json t)) invalid_json in
  Ok (target_value (t_provider t) (t_connector t) (t_tenant t) (t_kind t) address
        (json_i64 (t_resolver_version t)) (t_resolver_digest t) (t_identity_digest t)).

(** [order by ordinal] *)
Definition job_targets_in_order (job_id : string) (d : Db) : list JobTarget :=
  Deliveries.sort_by (fun x y => t_ordinal x <=? t_ordinal y)
    (map snd (matching (fun _ t => String.eqb (t_job_id t) job_id) (job_targets d))).

(** A column that is NULL until the first success. *)
Definition baseline_field {A} (f : A -> Value) (g : BaselineResult -> A) (b : Baseline) : Value :=
  match b_result b with Some x => f (g x) | None => Null end.

Definition baseline_value (b : Baseline) : Value :=
  json_object [
    ("baseline_version", json_i64 (baseline_version b));
    ("hash_algorithm", baseline_field Str b_hash_algorithm b);
    ("result_hash", baseline_field Str b_result_hash b);
    ("previous_success_context", baseline_field Str b_previous_success_context b);
    ("source_run_id", baseline_field Str b_source_run_id b);
    ("completed_at", baseline_field json_i64 b_completed_at b)].

(** The targets and the baseline, serialized.  [fetch_one] on no baseline row is
    an error of the storage layer. *)
Definition load_materialization_snapshots (job_id : string) : Tx (string * string) :=
  do! target_rows := query (job_targets_in_order job_id) in
  do! targets := lift (collect target_snapshot_json target_rows) in
  try! validate_serialized_targets targets in
  do! baseline := query (fun d => baselines d !! job_id) in
  match baseline with
  | None => fail (Scheduler Unavailable)
  | Some b =>
      do! targets_json := lift (serialize_targets targets) in
      ret (targets_json, display (baseline_value b))
  end.

Definition materialized_id (job_id : string) (at_ : Z) : string :=
  "scheduled:" +:+ job_id +:+ ":" +:+ pretty at_.

Definition materialized_snapshot (job_id : string) (j : Job) (h : ScheduleRow)
    (window : OccurrenceWindow) (targets_json baseline_json : string) (now : Z) : RunSnapshot :=
  mkRunSnapshot job_id (h_schedule_id h) (j_generation j) (h_generation h) (Schedule.scheduled_for window)
    (Schedule.coalesced_through window) (j_definition_version j) (j_definition_json j)
    (j_capability_schema_version j) (j_capability_digest j) (j_capability_json j) targets_json
    (Some baseline_json) (j_scheduler_policy_version j) (j_scheduler_policy_json j)
    (Schedule.skipped_count window) (Schedule.skipped_count_saturated window) now.

Definition materialized_row (s : RunSnapshot) (now : Z) : Run :=
  mkRun s Pending 0 0 None None None (Some 1) None None None now false.

Definition materialized_run (run_id job_id : string) (window : OccurrenceWindow) :
    MaterializationOutcome :=
  Created (mkScheduledRun run_id job_id (Schedule.scheduled_for window) (Schedule.coalesced_through window)
    (Schedule.skipped_count window) (Schedule.skipped_count_saturated window) Pending).

Definition with_next_run (next : option Z) (now : Z) (h : ScheduleRow) : ScheduleRow := {|
  h_schedule_id := h_schedule_id h;
  h_kind := h_kind h;
  h_canonical_spec := h_canonical_spec h;
  h_timezone := h_timezone h;
  h_once_at := h_once_at h;
  h_anchor_at := h_anchor_at h;
  h_interval_seconds := h_interval_seconds h;
  h_generation := h_generation h;
  h_next_run_at := next;
  h_cadence_proof_json := h_cadence_proof_json h;
  h_created_at := h_created_at h;
  h_updated_at := now
|}.

Definition completed_job (now : Z) (j : Job) : Job := {|
  j_definition_version := j_definition_version j;
  j_definition_json := j_definition_json j;
  j_creator := j_creator j;
  j_owner := j_owner j;
  j_status := Completed;
  j_generation := j_generation j;
  j_capability_schema_version := j_capability_schema_version j;
  j_capability_digest := j_capability_digest j;
  j_capability_json := j_capability_json j;
  j_scheduler_policy_version := j_scheduler_policy_version j;
  j_scheduler_policy_json := j_scheduler_policy_json j;
  j_created_at := j_created_at j;
  j_updated_at := now;
  j_deleted_at := j_deleted_at j
|}.

Definition active_at (job_id : string) (generation : Z) (d : Db) : bool :=
  match jobs d !! job_id with
  | Some j => bool_decide (j_status j = Active) && (j_generation j =? generation)
  | None => false
  end.

(** The schedule moves on to the next occurrence, or the job is complete. *)
Definition advance_schedule (job_id : string) (generation : Z) (window : OccurrenceWindow)
    (now : Z) : Tx unit :=
  match Schedule.next_run_at window with
  | Some next =>
      do! updated := update_schedules
        (fun d id h => String.eqb id job_id
                       && bool_decide (h_next_run_at h = Some (Schedule.scheduled_for window))
                       && active_at job_id generation d)
        (with_next_run (Some next) now) in
      if negb (updated =? 1) then fail SchedulerGenerationConflict else ret tt
  | None =>
      do! _ := update_schedules (fun _ id _ => String.eqb id job_id) (with_next_run None now) in
      do! _ := update_jobs
        (fun id j => at_generation job_id generation id j && bool_decide (j_status j = Active))
        (completed_job now) in
      ret tt
  end.

(** The job has a run in its overlap slot: note the occurrence, once. *)
Definition suppress_overlap (job_id : string) (generation due now : Z) :
    Tx (Ending MaterializationOutcome) :=
  do! recorded := upsert_cursor job_id (mkCursor generation due now now) in
  do! _ := (if recorded then increment_scheduler_transition_total "overlap_suppressed" 1
            else ret tt) in
  ret (Commit Blocked).

Definition create_run (job_id : string) (j : Job) (h : ScheduleRow) (due now : Z)
    (admission : option ScheduledExecutorAdmission) (readings : Readings) :
    Tx (Ending MaterializationOutcome) :=
  do! schedule := lift (schedule_from_row h) in
  do! policy := lift (scheduler_policy_from_snapshot (j_scheduler_policy_version j)
    (j_scheduler_policy_json j)) in
  do! window := lift (map_err invalid_occurrence
    (coalesce schedule due now (Policy.occurrence_search_limit policy))) in
  do! (targets_json, baseline_json) := load_materialization_snapshots job_id in
  let run_id := materialized_id job_id (Schedule.scheduled_for window) in
  do! inserted := insert_run run_id (materialized_row
    (materialized_snapshot job_id j h window targets_json baseline_json now) now) in
  if negb inserted then ret (Drop AlreadyMaterialized)
  else
    do! _ := advance_schedule job_id (j_generation j) window now in
    commit_admitted admission readings (materialized_run run_id job_id window).

Definition materialize_body (job_id : string) (expected_generation now : Z)
    (admission : option ScheduledExecutorAdmission) (readings : Readings) :
    Tx (Ending MaterializationOutcome) :=
  do! _ := acquire_and_validate_executor_admission admission (clock_at_admission readings) in
  do! _ := ensure_executor_admission_not_cancelled admission (cancelled_at_admission readings) in
  do! row := query (joined job_id) in
  match row with
  | None => ret (Drop NotDue)
  | Some (j, h) =>
      match h_next_run_at h with
      | Some due =>
          if negb (bool_decide (j_status j = Active)) || negb (j_generation j =? expected_generation)
             || (due >? now)
          then ret (Drop NotDue)
          else
            do! blocked := query (fun d => existsb (fun '(_, r) =>
              String.eqb (s_job_id (r_snapshot r)) job_id
              && bool_decide (r_overlap_slot r = Some 1)) (map_to_list (runs d))) in
            if blocked then suppress_overlap job_id (j_generation j) due now
            else create_run job_id j h due now admission readings
      | None => ret (Drop NotDue)
      end
  end.

Definition materialize_due_schedule_inner (job_id : string) (expected_generation now : Z)
    (admission : option ScheduledExecutorAdmission) (readings : Readings) :
    Tx MaterializationOutcome :=
  begin_transaction (fun e => executor_admission_storage_error admission (Scheduler e))
    (materialize_body job_id expected_generation now admission readings).

Definition materialize_due_schedule (job_id : string) (expected_generation now : Z) :
    Tx MaterializationOutcome :=
  materialize_due_schedule_inner job_id expected_generation now None (steady now).

Definition materialize_due_schedule_with_admission (job_id : string) (expected_generation now : Z)
    (admission : ScheduledExecutorAdmission) (readings : Readings) : Tx MaterializationOutcome :=
  materialize_due_schedule_inner job_id expected_generation now (Some admission) readings.

End Store.

End Jobs.
