(* ===== verification/Routes.v ===== *)
(** * Delivery routes (crates/state/src/scheduler.rs, [DeliveryTargetRoute])

    The envelope a channel resolver produces for a delivery target, and the
    provider-neutral coordinates read from it: exact keys at every level,
    canonical text, and an identity digest that is recomputed from the parts of
    the address it covers. *)

From stdpp Require Import base tactics list strings numbers pretty sorting.
From Stdlib Require Import ZArith Lia Ascii.
From S2P Require Import Prelude.
From S2P Require Import Policy.
From S2P Require Import Schedule.
From S2P Require Import Json.
From S2P Require Import Digest.
From S2P Require Import Authority.
From S2P Require Import Deliveries.
From S2P Require Import Jobs.
Import Digest.

Module Routes.
Import Schedule Snapshot Deliveries Jobs.

Record DeliveryTargetRoute := mkRoute {
  rt_provider : string;
  rt_tenant : string;
  rt_kind : string;
  rt_conversation_id : string;
  rt_thread_id : option string;
  rt_requested_identity_digest : string
}.

#[export] Instance route_eq_dec : EqDecision DeliveryTargetRoute.
Proof. solve_decision. Defined.

(** [object.len() != keys.len() || keys.iter().any(|key| !object.contains_key(key))],
    negated. *)
Definition has_exact_keys (keys : list string) (object : list (string * Value)) : bool :=
  Nat.eqb (length object) (length keys) && forallb (fun key => contains_key key object) keys.

Definition route_error : StateValueError := InvalidJson "delivery target route".

Definition required_delivery_route_text (object : list (string * Value)) (key : string) :
    result StateValueError string :=
  ok_or (map_get key object ≫= as_str) route_error.

(** A text, or an explicit [null]: [if let Some(text) = .. { .. } else if !is_null]. *)
Definition text_or_null (field : string) (error : StateValueError) (value : option Value) :
    result StateValueError unit :=
  match value ≫= as_str with
  | Some text => validate_text field text
  | None => bail? negb (match value with Some v => is_null v | None => false end) with error in Ok tt
  end.

Definition validate_delivery_route_authority (authority : Value) (tenant : string) :
    result StateValueError Value :=
  let error := InvalidJson "delivery target route authority" in
  let? object := ok_or (as_object authority) error in
  bail? negb (has_exact_keys
                ["context_team_id"; "conversation_host_id"; "enterprise_id"; "team_id"] object)
        || negb (bool_decide ((map_get "team_id" object ≫= as_str) = Some tenant))
        || negb (bool_decide ((map_get "context_team_id" object ≫= as_str) = Some tenant))
  with error in
  let? host := required_delivery_route_text object "conversation_host_id" in
  check? validate_text "delivery target conversation host" host in
  check? text_or_null "delivery target enterprise" error (map_get "enterprise_id" object) in
  Ok (Obj object).

Definition validate_delivery_route_evidence (evidence : Value) : result StateValueError unit :=
  let error := InvalidJson "delivery target route evidence" in
  let? object := ok_or (as_object evidence) error in
  bail? negb (has_exact_keys ["digest"; "version"] object)
        || match map_get "version" object ≫= as_u64 with Some v => v =? 0 | None => true end
  with error in
  let? digest := ok_or (map_get "digest" object ≫= as_str) error in
  validate_lowercase_sha256 "delivery target authorization evidence digest" digest.

Definition address_keys : list string :=
  ["authorization_evidence"; "coordinates"; "created_at"; "requested_identity_digest";
   "routing_authority"; "schema_version"; "workspace_id"].

(** The coordinates of the kinds: a channel, and for a thread its timestamp. *)
Definition coordinates_ok (kind : string) (coordinates : list (string * Value)) : bool :=
  Nat.eqb (length coordinates) ((if String.eqb kind "thread" then 1 else 0) + 1)
  && contains_key "channel_id" coordinates
  && Bool.eqb (String.eqb kind "thread") (contains_key "thread_ts" coordinates).

Definition parse_delivery_target_route_address (address : Value) (tenant kind : string) :
    result StateValueError (string * option string * string * Value) :=
  let? address := ok_or (as_object address) route_error in
  bail? negb (has_exact_keys address_keys address)
        || negb (bool_decide ((map_get "schema_version" address ≫= as_u64) = Some 1))
        || negb (bool_decide ((map_get "workspace_id" address ≫= as_str) = Some tenant))
        || match map_get "created_at" address ≫= as_i64 with Some t => t <? 0 | None => true end
  with route_error in
  let? requested := ok_or (map_get "requested_identity_digest" address ≫= as_str) route_error in
  check? validate_lowercase_sha256 "delivery target requested identity digest" requested in
  let? authority := ok_or (map_get "routing_authority" address) route_error in
  let? routing_authority := validate_delivery_route_authority authority tenant in
  let? evidence := ok_or (map_get "authorization_evidence" address) route_error in
  check? validate_delivery_route_evidence evidence in
  let? coordinates := ok_or (map_get "coordinates" address ≫= as_object) route_error in
  bail? negb (coordinates_ok kind coordinates) with route_error in
  let? conversation_id := ok_or (map_get "channel_id" coordinates ≫= as_str) route_error in
  check? validate_text "delivery target route conversation" conversation_id in
  let? thread_id :=
    match map_get "thread_ts" coordinates with
    | Some value => let? text := ok_or (as_str value) route_error in Ok (Some text)
    | None => Ok None
    end in
  check? match thread_id with
         | Some thread => validate_text "delivery target route thread" thread
         | None => Ok tt
         end in
  Ok (conversation_id, thread_id, requested,
      json_object [("coordinates", Obj coordinates); ("routing_authority", routing_authority);
                   ("workspace_id", Str tenant)]).

Definition target_keys : list string :=
  ["address"; "connector"; "identity_digest"; "kind"; "provider"; "resolver_digest";
   "resolver_version"; "tenant"].

(** What the identity digest covers. *)
Definition identity_value (identity_address : Value) (connector kind provider tenant : string) :
    Value :=
  json_object [("address", identity_address); ("connector", Str connector); ("kind", Str kind);
               ("provider", Str provider); ("tenant", Str tenant)].

Section Routes.
Context `{Serde} `{Sha2}.

Definition from_canonical_target_json (target_json : string) :
    result StateValueError DeliveryTargetRoute :=
  let? target := ok_or (from_slice target_json) route_error in
  let? printed := ok_or (to_vec target) route_error in
  bail? negb (String.eqb printed target_json) with NonCanonicalJson "delivery target route" in
  let? target := ok_or (as_object target) route_error in
  bail? negb (has_exact_keys target_keys target)
        || match map_get "resolver_version" target ≫= as_u64 with
           | Some version => (version =? 0) || (version >? u32_max)
           | None => true
           end
  with route_error in
  let? provider := required_delivery_route_text target "provider" in
  let? connector := required_delivery_route_text target "connector" in
  let? tenant := required_delivery_route_text target "tenant" in
  let? kind := ok_or (map_get "kind" target ≫= as_str) route_error in
  let? resolver_digest := required_delivery_route_text target "resolver_digest" in
  check? validate_texts (map (pair "delivery target route identity")
    [provider; connector; tenant; kind; resolver_digest]) in
  let? identity_digest := ok_or (map_get "identity_digest" target ≫= as_str) route_error in
  check? validate_lowercase_sha256 "delivery target identity digest" identity_digest in
  bail? negb (existsb (String.eqb kind) ["channel"; "direct_message"; "thread"])
  with route_error in
  let? address := ok_or (map_get "address" target) route_error in
  let? (conversation_id, thread_id, requested, identity_address) :=
    parse_delivery_target_route_address address tenant kind in
  bail? negb (String.eqb (sha256_hex (display (identity_value identity_address connector kind
                                                  provider tenant))) identity_digest)
  with InvalidSha256 "delivery target identity digest" in
  Ok (mkRoute provider tenant kind conversation_id thread_id requested).

(** [DeliveryTargetSnapshot::delivery_route] *)
Definition delivery_route (t : DeliveryTargetSnapshot) : result StateValueError DeliveryTargetRoute :=
  let? address := ok_or (from_slice (dt_address_json t)) route_error in
  from_canonical_target_json (display
    (json_object [("address", address); ("connector", Str (dt_connector t));
       ("identity_digest", Str (dt_identity_digest t)); ("kind", Str (dt_kind t));
       ("provider", Str (dt_provider t)); ("resolver_digest", Str (dt_resolver_digest t));
       ("resolver_version", json_u64 (dt_resolver_version t)); ("tenant", Str (dt_tenant t))])).

End Routes.

End Routes.
