(* ===== verification/Operators.v ===== *)
(** * Operator requests (crates/state/src/scheduler.rs and scheduler/store.rs)

    What a trusted operator may do by hand: requeue a run that conclusively
    stopped, requeue a delivery that was conclusively not written, and resolve,
    resend or acknowledge a delivery whose outcome is unknown.  Every request is
    bound by its digest to one exact action on one attempt and fence, is recorded
    once in an append-only table, and the triggers of the tables let the row move
    only by using that record up. *)

From stdpp Require Import base tactics list strings numbers pretty gmap.
From Stdlib Require Import ZArith Lia Ascii.
From S2P Require Import Prelude.
From S2P Require Import Policy.
From S2P Require Import Schedule.
From S2P Require Import Json.
From S2P Require Import Digest.
From S2P Require Import Authority.
From S2P Require Import Tables.
From S2P Require Import Runs.
From S2P Require Import Completion.
From S2P Require Import DeliveryTables.
From S2P Require Import Deliveries.
From S2P Require Import JobTables.
From S2P Require Import Jobs.
From S2P Require Import Routes.
Import Digest.

Module Operators.
Import Schedule Snapshot Authority Tables Runs Completion DeliveryTables Deliveries Jobs Routes.

(** ** Requests *)

Record SchedulerOperatorRequest := mkOperatorRequest {
  oq_principal : PrincipalKey;
  oq_request_id : string;
  oq_request_digest : string;
  oq_occurred_at : Z
}.

Record SchedulerOperatorReplayTiming := mkReplayTiming {
  ot_effective_at : Z;
  ot_occurred_at : Z
}.

Inductive SchedulerOperatorMutationOutcome := OperatorApplied | OperatorReplay | OperatorConflict.

#[export] Instance operator_outcome_eq_dec : EqDecision SchedulerOperatorMutationOutcome.
Proof. solve_decision. Defined.

Inductive ScheduledDeliveryUnknownAction :=
| ConfirmDelivered (provider_receipt evidence_json evidence_digest : string)
| ConfirmNoWriteTerminal (evidence_json evidence_digest : string)
| ForceResend (evidence_json evidence_digest reason_json reason_digest : string)
    (duplicate_risk_acknowledged : bool)
| AcknowledgeUnknown (evidence_json evidence_digest : string).

(** [DeliveryUnknownAuthorityParts] *)
Record AuthorityParts := mkParts {
  part_action : string;
  part_after_state : string;
  part_evidence_json : string;
  part_evidence_digest : string;
  part_receipt : option string;
  part_reason_json : option string;
  part_reason_digest : option string;
  part_duplicate_ack : bool
}.

Record OperatorActionInsert := mkActionInsert {
  oa_action : string;
  oa_target_kind : string;
  oa_target_id : string;
  oa_expected_attempt : Z;
  oa_expected_fence : Z;
  oa_before_state : string;
  oa_after_state : string;
  oa_evidence_json : option string;
  oa_evidence_digest : option string;
  oa_reason_json : option string;
  oa_reason_digest : option string;
  oa_provider_receipt : option string;
  oa_duplicate_risk_acknowledged : bool;
  oa_effective_at : Z
}.

#[export] Instance action_insert_eq_dec : EqDecision OperatorActionInsert.
Proof. solve_decision. Defined.

Inductive OperatorActionInsertOutcome := ActionInserted | ActionReplay | ActionConflict.

(** [ScheduledRunState::as_str] *)
Definition run_state_as_str (s : ScheduledRunState) : string :=
  match s with
  | Pending => "pending"
  | Leased => "leased"
  | Executing => "executing"
  | Succeeded => "succeeded"
  | Failed => "failed"
  | TimedOut => "timed_out"
  | Cancelled => "cancelled"
  | OutcomeUnknown => "outcome_unknown"
  end.

(** The states that an operator may retry. *)
Definition is_retryable (s : ScheduledRunState) : bool :=
  match s with Failed | TimedOut | Cancelled => true | _ => false end.

Section Requests.
Context `{Serde} `{Sha2}.

(** The [json!] object that a request digest covers. *)
Definition action_value (x : OperatorActionInsert) : Value :=
  json_object [
    ("action", Str (oa_action x)); ("after_state", Str (oa_after_state x));
    ("before_state", Str (oa_before_state x));
    ("duplicate_risk_acknowledged", Bool (oa_duplicate_risk_acknowledged x));
    ("effective_at", json_i64 (oa_effective_at x));
    ("evidence_json", json_option Str (oa_evidence_json x));
    ("evidence_digest", json_option Str (oa_evidence_digest x));
    ("expected_attempt", json_i64 (oa_expected_attempt x));
    ("expected_fence", json_i64 (oa_expected_fence x));
    ("provider_receipt", json_option Str (oa_provider_receipt x));
    ("reason_digest", json_option Str (oa_reason_digest x));
    ("reason_json", json_option Str (oa_reason_json x));
    ("target_id", Str (oa_target_id x)); ("target_kind", Str (oa_target_kind x))].

(** [operator_action_request_digest] and [operator_action_digest] *)
Definition operator_action_request_digest (x : OperatorActionInsert) : string :=
  sha256_hex (display (action_value x)).

Definition receipt_error : StateValueError := InvalidJson "operator provider receipt".

Definition receipt_keys : list string :=
  ["conversation_id"; "message_id"; "provider"; "receipt_version"; "target_kind"; "tenant";
   "thread_id"].

(** [object.get(key).and_then(Value::as_str)] followed by [validate_text], for
    every key in turn. *)
Fixpoint validate_text_fields (error : StateValueError) (field : string) (keys : list string)
    (object : list (string * Value)) : result StateValueError unit :=
  match keys with
  | [] => Ok tt
  | key :: rest =>
      let? value := ok_or (map_get key object ≫= as_str) error in
      check? validate_text field value in
      validate_text_fields error field rest object
  end.

Definition validate_operator_provider_receipt (provider_receipt : string) :
    result StateValueError unit :=
  let? receipt := ok_or (from_slice provider_receipt) receipt_error in
  let? object := ok_or (as_object receipt) receipt_error in
  bail? negb (has_exact_keys receipt_keys object) with receipt_error in
  bail? negb (bool_decide ((map_get "receipt_version" object ≫= as_u64) = Some 1))
  with InvalidVersion in
  check? validate_text_fields receipt_error "operator provider receipt identity"
    ["provider"; "tenant"; "target_kind"; "conversation_id"; "message_id"] object in
  check? text_or_null "operator provider receipt thread id" receipt_error
    (map_get "thread_id" object) in
  let? printed := ok_or (to_vec receipt) receipt_error in
  bail? negb (String.eqb printed provider_receipt)
  with NonCanonicalJson "operator provider receipt" in
  Ok tt.

Definition evidence_error : StateValueError := InvalidJson "operator delivery evidence".

Definition evidence_keys : list string :=
  ["evidence_id"; "evidence_version"; "kind"; "provider"; "target_kind"; "tenant"].

Definition query_keys : list string :=
  ["provider_query_completed_at"; "provider_query_result"; "provider_query_scope";
   "provider_query_started_at"; "provider_query_summary_digest"; "provider_query_window_end";
   "provider_query_window_start"].

Definition expected_query_result (kind : string) : result StateValueError (option string) :=
  if String.eqb kind "provider_confirmed_delivered" then Ok (Some "write_confirmed")
  else if String.eqb kind "provider_confirmed_no_write" then Ok (Some "no_write_confirmed")
  else if String.eqb kind "operator_force_resend" then Ok (Some "no_matching_write_found")
  else if String.eqb kind "operator_acknowledged_unknown" then Ok None
  else Err InvalidVersion.

(** The provider query that the evidence reports. *)
Definition validate_query (expected : string) (object : list (string * Value)) :
    result StateValueError unit :=
  let integer key := ok_or (map_get key object ≫= as_i64) evidence_error in
  let? started_at := integer "provider_query_started_at" in
  let? completed_at := integer "provider_query_completed_at" in
  let? window_start := integer "provider_query_window_start" in
  let? window_end := integer "provider_query_window_end" in
  bail? (started_at <? 0) || (completed_at <? started_at) || (window_start <? 0)
        || (window_end <? window_start) || (window_end >? completed_at)
        || (window_end - window_start >? 31 * 24 * 60 * 60)
        || negb (bool_decide ((map_get "provider_query_scope" object ≫= as_str)
                              = Some "canonical_delivery_target"))
        || negb (bool_decide ((map_get "provider_query_result" object ≫= as_str) = Some expected))
  with evidence_error in
  let? summary := ok_or (map_get "provider_query_summary_digest" object ≫= as_str) evidence_error in
  validate_lowercase_sha256 "operator query summary digest" summary.

Definition validate_operator_delivery_evidence (evidence_json evidence_digest expected_kind : string)
    (provider_receipt : option string) : result StateValueError unit :=
  check? validate_lowercase_sha256 "operator evidence digest" evidence_digest in
  let? evidence := ok_or (from_slice evidence_json) evidence_error in
  let? object := ok_or (as_object evidence) evidence_error in
  let? query := expected_query_result expected_kind in
  let exact_keys := evidence_keys ++ (if is_some query then query_keys else [])
                    ++ (if is_some provider_receipt then ["receipt_digest"] else []) in
  bail? negb (has_exact_keys exact_keys object) with evidence_error in
  bail? negb (bool_decide ((map_get "evidence_version" object ≫= as_u64) = Some 1))
        || negb (bool_decide ((map_get "kind" object ≫= as_str) = Some expected_kind))
  with InvalidVersion in
  check? validate_text_fields evidence_error "operator delivery evidence identity"
    ["evidence_id"; "provider"; "tenant"; "target_kind"] object in
  check? match query with Some expected => validate_query expected object | None => Ok tt end in
  check? match provider_receipt with
         | Some receipt =>
             let? digest := ok_or (map_get "receipt_digest" object ≫= as_str) evidence_error in
             check? validate_lowercase_sha256 "operator receipt digest" digest in
             bail? negb (String.eqb (sha256_hex receipt) digest)
             with InvalidSha256 "operator receipt digest" in
             Ok tt
         | None => Ok tt
         end in
  let? printed := ok_or (to_vec evidence) evidence_error in
  bail? negb (String.eqb printed evidence_json) with NonCanonicalJson "operator delivery evidence" in
  bail? negb (String.eqb (sha256_hex evidence_json) evidence_digest)
  with InvalidSha256 "operator evidence digest" in
  Ok tt.

Definition authority_parts (a : ScheduledDeliveryUnknownAction) :
    result StateValueError AuthorityParts :=
  match a with
  | ConfirmDelivered receipt evidence digest =>
      check? validate_operator_provider_receipt receipt in
      check? validate_operator_delivery_evidence evidence digest "provider_confirmed_delivered"
               (Some receipt) in
      Ok (mkParts "confirm_delivery_delivered" "delivered" evidence digest (Some receipt) None None
            false)
  | ConfirmNoWriteTerminal evidence digest =>
      check? validate_operator_delivery_evidence evidence digest "provider_confirmed_no_write"
               None in
      Ok (mkParts "confirm_delivery_no_write" "failed_terminal" evidence digest None None None
            false)
  | ForceResend evidence digest reason reason_digest acknowledged =>
      bail? negb acknowledged with InvalidVersion in
      check? validate_operator_reason reason reason_digest in
      check? validate_operator_delivery_evidence evidence digest "operator_force_resend" None in
      Ok (mkParts "force_delivery_resend" "pending" evidence digest None (Some reason)
            (Some reason_digest) true)
  | AcknowledgeUnknown evidence digest =>
      check? validate_operator_delivery_evidence evidence digest "operator_acknowledged_unknown"
               None in
      Ok (mkParts "acknowledge_delivery_unknown" "delivery_unknown" evidence digest None None None
            false)
  end.

Definition operator_delivery_evidence_binding (a : ScheduledDeliveryUnknownAction) :
    result StateValueError (string * string * string) :=
  let? parts := authority_parts a in
  let? evidence := ok_or (from_slice (part_evidence_json parts)) evidence_error in
  let? object := ok_or (as_object evidence) evidence_error in
  let? provider := ok_or (map_get "provider" object ≫= as_str) evidence_error in
  let? tenant := ok_or (map_get "tenant" object ≫= as_str) evidence_error in
  let? target_kind := ok_or (map_get "target_kind" object ≫= as_str) evidence_error in
  Ok (provider, tenant, target_kind).

(** The actions that requests are bound to. *)
Definition run_retry_action (run_id : string) (attempt fence : Z) (state : string)
    (reason_json reason_digest : string) (next_attempt_at : Z) : OperatorActionInsert :=
  mkActionInsert "retry_run" "run" run_id attempt fence state "pending" None None
    (Some reason_json) (Some reason_digest) None false next_attempt_at.

Definition delivery_retry_action (delivery_id : string) (attempt fence : Z)
    (reason_json reason_digest : string) (effective_at : Z) : OperatorActionInsert :=
  mkActionInsert "retry_delivery" "delivery" delivery_id attempt fence "failed_retryable" "pending"
    (Some reason_json) (Some reason_digest) None None None false effective_at.

Definition unknown_action (delivery_id : string) (attempt fence : Z) (parts : AuthorityParts)
    (occurred_at : Z) : OperatorActionInsert :=
  mkActionInsert (part_action parts) "delivery" delivery_id attempt fence "delivery_unknown"
    (part_after_state parts) (Some (part_evidence_json parts)) (Some (part_evidence_digest parts))
    (part_reason_json parts) (part_reason_digest parts) (part_receipt parts)
    (part_duplicate_ack parts) occurred_at.

Definition for_run_retry (principal : PrincipalKey) (request_id run_id : string)
    (expected_attempt expected_fence : Z) (expected_state : ScheduledRunState)
    (reason_json reason_digest : string) (next_attempt_at occurred_at : Z) :
    result StateValueError SchedulerOperatorRequest :=
  check? principal_validate principal in
  check? validate_text "operator request id" request_id in
  check? validate_text "operator run id" run_id in
  check? validate_operator_reason reason_json reason_digest in
  bail? (expected_attempt <=? 0) || (expected_fence <=? 0) || (next_attempt_at <? occurred_at)
        || negb (is_retryable expected_state)
  with InvalidVersion in
  Ok (mkOperatorRequest principal request_id
        (operator_action_request_digest (run_retry_action run_id expected_attempt expected_fence
           (run_state_as_str expected_state) reason_json reason_digest next_attempt_at))
        occurred_at).

Definition for_delivery_retry (principal : PrincipalKey) (request_id delivery_id : string)
    (expected_attempt expected_fence : Z) (reason_json reason_digest : string)
    (effective_at occurred_at : Z) : result StateValueError SchedulerOperatorRequest :=
  check? principal_validate principal in
  check? validate_text "operator request id" request_id in
  check? validate_text "operator delivery id" delivery_id in
  check? validate_operator_reason reason_json reason_digest in
  bail? (expected_attempt <=? 0) || (expected_fence <=? 0) || (occurred_at <? 0)
        || (effective_at <? occurred_at)
  with InvalidVersion in
  Ok (mkOperatorRequest principal request_id
        (operator_action_request_digest (delivery_retry_action delivery_id expected_attempt
           expected_fence reason_json reason_digest effective_at))
        occurred_at).

Definition for_delivery_action (principal : PrincipalKey) (request_id delivery_id : string)
    (expected_attempt expected_fence : Z) (action : ScheduledDeliveryUnknownAction)
    (occurred_at : Z) : result StateValueError SchedulerOperatorRequest :=
  check? principal_validate principal in
  check? validate_text "operator request id" request_id in
  check? validate_text "operator delivery id" delivery_id in
  bail? (expected_attempt <=? 0) || (expected_fence <=? 0) with InvalidVersion in
  let? parts := authority_parts action in
  Ok (mkOperatorRequest principal request_id
        (operator_action_request_digest (unknown_action delivery_id expected_attempt expected_fence
           parts occurred_at))
        occurred_at).

End Requests.

(** ** The tables of actions *)

Section Store.
Context `{Serde} `{Sha2} `{Sqlite}.

Definition action_names : list string :=
  ["retry_run"; "retry_delivery"; "confirm_delivery_delivered"; "confirm_delivery_no_write";
   "force_delivery_resend"; "acknowledge_delivery_unknown"].

Definition within (low high n : Z) : bool := (low <=? n) && (n <=? high).

(** The CHECK on the evidence columns; a NULL among them makes it NULL unless
    another part is false. *)
Definition evidence_check (json digest : option string) : bool :=
  match json, digest with
  | None, None => true
  | _, _ =>
      match json with Some j => within 1 65536 (len j) && json_valid j | None => true end
      && match digest with Some g => JobTables.has_digest_shape g | None => true end
  end.

(** The CHECK constraints of [scheduler_operator_actions]. *)
Definition action_checks (action_id : string) (o : OperatorAction) : bool :=
  let run := String.eqb (o_target_kind o) "run" in
  let delivery := String.eqb (o_target_kind o) "delivery" in
  let named name := String.eqb (o_action o) name in
  within 1 128 (JobTables.sql_length action_id) && within 1 256 (JobTables.sql_length (o_request_id o))
  && JobTables.has_digest_shape (o_request_digest o) && existsb named action_names && (run || delivery)
  && ((run && within 1 1050 (JobTables.sql_length (o_target_id o)))
      || (delivery && within 1 2177 (JobTables.sql_length (o_target_id o))))
  && (0 <? o_expected_attempt o) && (0 <? o_expected_fence o)
  && evidence_check (o_evidence_json o) (o_evidence_digest o)
  && match o_provider_receipt o with Some r => within 1 65536 (len r) | None => true end
  && ((run && negb (is_some (o_evidence_json o)) && negb (is_some (o_provider_receipt o)))
      || (delivery && is_some (o_evidence_json o)))
  && Bool.eqb (named "retry_run") run && Bool.eqb (negb (named "retry_run")) delivery
  && (if named "confirm_delivery_delivered"
      then match o_provider_receipt o with Some r => json_valid r | None => false end
      else negb (is_some (o_provider_receipt o)))
  && Bool.eqb (named "force_delivery_resend") (o_duplicate_risk_acknowledged o)
  && (0 <=? o_effective_at o) && (0 <=? o_occurred_at o).

(** SQLite's [trim(x) = x]: no space at either end. *)
Definition sql_trimmed (s : string) : bool :=
  match s with
  | EmptyString => true
  | String b _ => negb (Ascii.eqb b " ") && negb (ends_with_str " " s)
  end.

(** [trg_scheduler_operator_reason_insert_authority], of the last migration that
    redefines it. *)
Definition reason_authority (o : OperatorAction) : bool :=
  if String.eqb (o_action o) "retry_run" || String.eqb (o_action o) "force_delivery_resend"
  then match o_reason_json o, o_reason_digest o with
       | Some json, Some digest =>
           within 1 65536 (len json) && json_valid json
           && bool_decide (json_extract_integer json "schema_version" = Some 1)
           && bool_decide (json_type json "reason_code" = Some "text")
           && match json_extract_text json "reason_code" with
              | Some code => within 1 64 (JobTables.sql_length code)
                             && bytes_all is_reason_code_byte code
              | None => false
              end
           && bool_decide (json_type json "reason" = Some "text")
           && match json_extract_text json "reason" with
              | Some reason => within 1 4096 (len reason) && sql_trimmed reason
              | None => false
              end
           && Nat.eqb (length (json_elements json)) 3 && JobTables.has_digest_shape digest
       | _, _ => false
       end
  else negb (is_some (o_reason_json o)) && negb (is_some (o_reason_digest o)).

(** The rows of one principal's request. *)
Definition of_request (request : SchedulerOperatorRequest) (_ : string) (o : OperatorAction) : bool :=
  bool_decide (o_principal o = oq_principal request)
  && String.eqb (o_request_id o) (oq_request_id request).

Definition request_row (request : SchedulerOperatorRequest) (d : Db) : option OperatorAction :=
  (hd_error (matching (of_request request) (operator_actions d)) : option (string * OperatorAction))
    ≫= fun x => Some x.2.

(** INSERT OR IGNORE: a row that violates a constraint is not written, a
    trigger's [raise(abort)] fails the statement; whether it was written. *)
Definition insert_action (request : SchedulerOperatorRequest) (action_id : string)
    (o : OperatorAction) : Tx bool :=
  sql (fun d =>
    if negb (reason_authority o) then Err Constraint
    else if action_checks action_id o && negb (is_some (operator_actions d !! action_id))
            && negb (is_some (request_row request d))
    then Ok (true, with_operator_actions d (<[action_id := o]> (operator_actions d)))
    else Ok (false, d)).

(** The action that [trg_scheduler_operator_run_retry] looks for. *)
Definition authorizes_run_retry (d : Db) (id : string) (old new : Run) (action_id : string)
    (o : OperatorAction) : bool :=
  String.eqb (o_target_kind o) "run" && String.eqb (o_target_id o) id
  && String.eqb (o_action o) "retry_run"
  && (o_expected_attempt o =? r_attempt old) && (o_expected_fence o =? r_fence old)
  && String.eqb (o_before_state o) (run_state_as_str (r_state old))
  && String.eqb (o_after_state o) "pending"
  && is_value (r_next_attempt_at new) (o_effective_at o) && (o_occurred_at o =? r_updated_at new)
  && is_some (o_reason_json o) && is_some (o_reason_digest o)
  && negb (is_some (operator_consumptions d !! action_id)).

Definition run_retry_actions (d : Db) (id : string) (old new : Run) : list string :=
  if is_retryable (r_state old) && bool_decide (r_state new = Pending)
  then (matching (authorizes_run_retry d id old new) (operator_actions d)).*1
  else [].

(** UPDATE of [scheduled_runs] with that trigger, which runs after the row was
    rewritten: it demands exactly one such action and uses it up. *)
Definition runs_retried (where_ : string -> Run -> bool) (set : Run -> Run) (d : Db) :
    result SqlError (Z * Db) :=
  let hit := matching where_ (runs d) in
  match runs_updated where_ set d with
  | Err e => Err e
  | Ok (n, d') =>
      if forallb (fun '(id, r) =>
           negb (is_retryable (r_state r) && bool_decide (r_state (set r) = Pending))
           || Nat.eqb (length (run_retry_actions d id r (set r))) 1) hit
      then Ok (n, with_operator_consumptions d'
             (foldr (fun '(id, r) t =>
                foldr (fun action_id => <[action_id := mkConsumption "run" id (r_updated_at (set r))]>)
                  t (run_retry_actions d id r (set r)))
              (operator_consumptions d) hit))
      else Err Constraint
  end.

Definition retry_runs (where_ : string -> Run -> bool) (set : Run -> Run) : Tx Z :=
  sql (runs_retried where_ set).

(** ** Operations *)

Definition validate_operator_request (request : SchedulerOperatorRequest) : result StateError unit :=
  check? map_err invalid_value (principal_validate (oq_principal request)) in
  check? map_err invalid_value (validate_text "operator request id" (oq_request_id request)) in
  check? map_err invalid_value
    (validate_lowercase_sha256 "operator request digest" (oq_request_digest request)) in
  bail? oq_occurred_at request <? 0
    with invalid_state "operator request timestamp must be nonnegative" in
  Ok tt.

Definition validate_operator_action_request (request : SchedulerOperatorRequest)
    (x : OperatorActionInsert) : result StateError unit :=
  bail? negb (String.eqb (oq_request_digest request) (operator_action_request_digest x))
    with invalid_state "operator request digest does not bind the exact action" in
  Ok tt.

Definition newline : string := String (ascii_of_nat 10) "".

Definition operator_action_id (request : SchedulerOperatorRequest) : string :=
  let p := oq_principal request in
  sha256_hex ("scheduler-operator-action-v1" +:+ newline +:+ pk_kind p +:+ newline
    +:+ pk_provider p +:+ newline +:+ pk_tenant p +:+ newline +:+ pk_subject p +:+ newline
    +:+ oq_request_id request).

(** The row that [insert_operator_action] binds. *)
Definition action_row (request : SchedulerOperatorRequest) (x : OperatorActionInsert) :
    OperatorAction := {|
  o_principal := oq_principal request;
  o_request_id := oq_request_id request;
  o_request_digest := oq_request_digest request;
  o_action := oa_action x;
  o_target_kind := oa_target_kind x;
  o_target_id := oa_target_id x;
  o_expected_attempt := oa_expected_attempt x;
  o_expected_fence := oa_expected_fence x;
  o_before_state := oa_before_state x;
  o_after_state := oa_after_state x;
  o_evidence_json := oa_evidence_json x;
  o_evidence_digest := oa_evidence_digest x;
  o_provider_receipt := oa_provider_receipt x;
  o_duplicate_risk_acknowledged := oa_duplicate_risk_acknowledged x;
  o_effective_at := oa_effective_at x;
  o_occurred_at := oq_occurred_at request;
  o_reason_json := oa_reason_json x;
  o_reason_digest := oa_reason_digest x
|}.

Definition insert_operator_action (request : SchedulerOperatorRequest) (x : OperatorActionInsert) :
    Tx OperatorActionInsertOutcome :=
  try! validate_operator_action_request request x in
  do! inserted := insert_action request (operator_action_id request) (action_row request x) in
  if inserted then ret ActionInserted
  else
    do! persisted := query (fun d => option_map o_request_digest (request_row request d)) in
    ret (if is_value persisted (oq_request_digest request) then ActionReplay else ActionConflict).

Definition existing_operator_request (request : SchedulerOperatorRequest) :
    Tx (option SchedulerOperatorMutationOutcome) :=
  query (fun d => option_map (fun o =>
    if String.eqb (o_request_digest o) (oq_request_digest request)
       && (o_occurred_at o =? oq_occurred_at request)
    then OperatorReplay else OperatorConflict) (request_row request d)).

Definition existing_delivery_retry_request (request : SchedulerOperatorRequest) :
    Tx (option (string * Z * Z)) :=
  query (fun d => option_map (fun o => (o_request_digest o, o_effective_at o, o_occurred_at o))
                    (request_row request d)).

(** *** Runs *)

Definition run_at (run_id : string) (attempt fence : Z) (d : Db) : option Run :=
  r ← runs d !! run_id;
  if (r_attempt r =? attempt) && (r_fence r =? fence) then Some r else None.

Definition scheduled_run_operator_retry_at (run_id : string)
    (expected_attempt expected_fence now : Z) : Tx (option Z) :=
  do! row := query (fun d => r ← run_at run_id expected_attempt expected_fence d;
                             if is_some (r_result r) then None else Some r) in
  match row with
  | None => ret None
  | Some r =>
      if negb (is_retryable (r_state r)) then ret None
      else
        do! policy := lift (scheduler_policy_from_snapshot
          (s_scheduler_policy_version (r_snapshot r)) (s_scheduler_policy_json (r_snapshot r))) in
        ret (Policy.run_retry_at policy run_id expected_attempt
               (s_scheduled_for (r_snapshot r)) now)
  end.

Definition retry_run_set (next_attempt_at now : Z) : Run -> Run :=
  release_run Pending (Some next_attempt_at) (Some 1) None None now.

Definition retry_run_where (run_id : string) (attempt fence : Z) (state : ScheduledRunState)
    (id : string) (r : Run) : bool :=
  String.eqb id run_id && (r_attempt r =? attempt) && (r_fence r =? fence)
  && bool_decide (r_state r = state) && negb (is_some (r_result r)).

(** After the action is on record, what a retry does to the run. *)
Definition record_and_retry_run (request : SchedulerOperatorRequest) (run_id : string)
    (expected_attempt expected_fence : Z) (reason_json reason_digest : string)
    (next_attempt_at : Z) (r : Run) : Tx (Ending SchedulerOperatorMutationOutcome) :=
  do! outcome := insert_operator_action request
    (run_retry_action run_id expected_attempt expected_fence (run_state_as_str (r_state r))
       reason_json reason_digest next_attempt_at) in
  match outcome with
  | ActionReplay => ret (Commit OperatorReplay)
  | ActionConflict => ret (Drop OperatorConflict)
  | ActionInserted =>
      do! n := retry_runs (retry_run_where run_id expected_attempt expected_fence (r_state r))
        (retry_run_set next_attempt_at (oq_occurred_at request)) in
      ret (if n =? 1 then Commit OperatorApplied else Drop OperatorConflict)
  end.

Definition operator_retry_scheduled_run (request : SchedulerOperatorRequest) (run_id : string)
    (expected_attempt expected_fence : Z) (reason_json reason_digest : string)
    (next_attempt_at : Z) : Tx SchedulerOperatorMutationOutcome :=
  try! validate_operator_request request in
  try! map_err invalid_value (validate_text "operator run id" run_id) in
  try! map_err invalid_value (validate_operator_reason reason_json reason_digest) in
  if (expected_attempt <=? 0) || (expected_fence <=? 0) || (next_attempt_at <? oq_occurred_at request)
  then fail (invalid_state "invalid operator run retry authority")
  else if negb (existsb (fun state => String.eqb (oq_request_digest request)
            (operator_action_request_digest (run_retry_action run_id expected_attempt
               expected_fence state reason_json reason_digest next_attempt_at)))
          ["failed"; "timed_out"; "cancelled"])
  then fail (invalid_state "operator request digest does not bind the exact run retry invocation")
  else transaction (
    do! existing := existing_operator_request request in
    match existing with
    | Some outcome => ret (Commit outcome)
    | None =>
        do! row := query (run_at run_id expected_attempt expected_fence) in
        match row with
        | None => ret (Drop OperatorConflict)
        | Some r =>
            if negb (is_retryable (r_state r)) || is_some (r_result r)
            then ret (Drop OperatorConflict)
            else
              do! policy := lift (scheduler_policy_from_snapshot
                (s_scheduler_policy_version (r_snapshot r))
                (s_scheduler_policy_json (r_snapshot r))) in
              if negb (bool_decide (Policy.run_retry_at policy run_id expected_attempt
                   (s_scheduled_for (r_snapshot r)) (oq_occurred_at request)
                   = Some next_attempt_at))
              then ret (Drop OperatorConflict)
              else record_and_retry_run request run_id expected_attempt expected_fence reason_json
                     reason_digest next_attempt_at r
        end
    end).

(** *** Replay timing *)

Definition operator_retry_replay_timing (action target_kind request_id target_id : string)
    (expected_attempt expected_fence : Z) : Tx (option SchedulerOperatorReplayTiming) :=
  try! map_err invalid_value (validate_text "operator replay request id" request_id) in
  try! map_err invalid_value (validate_text "operator replay target id" target_id) in
  if (expected_attempt <=? 0) || (expected_fence <=? 0)
  then fail (invalid_state "invalid operator replay authority")
  else
    do! rows := query (fun d => take 2 (matching (fun _ o =>
      String.eqb (o_action o) action && String.eqb (o_target_kind o) target_kind
      && String.eqb (o_request_id o) request_id && String.eqb (o_target_id o) target_id
      && (o_expected_attempt o =? expected_attempt) && (o_expected_fence o =? expected_fence))
      (operator_actions d))) in
    ret (match rows with
         | [(_, o)] => Some (mkReplayTiming (o_effective_at o) (o_occurred_at o))
         | _ => None
         end).

Definition scheduled_run_operator_retry_replay_timing (request_id run_id : string)
    (expected_attempt expected_fence : Z) : Tx (option SchedulerOperatorReplayTiming) :=
  operator_retry_replay_timing "retry_run" "run" request_id run_id expected_attempt expected_fence.

Definition scheduled_delivery_operator_retry_replay_timing (request_id delivery_id : string)
    (expected_attempt expected_fence : Z) : Tx (option SchedulerOperatorReplayTiming) :=
  operator_retry_replay_timing "retry_delivery" "delivery" request_id delivery_id expected_attempt
    expected_fence.

(** *** Deliveries *)

(** The prepared row at one attempt and fence. *)
Definition delivery_at (delivery_id : string) (attempt fence : Z) (d : Db) : option Delivery :=
  r ← deliveries d !! delivery_id;
  if (d_attempt r =? attempt) && (d_fence r =? fence) && is_some (d_payload r)
  then Some r else None.

(** ... that failed without a write, with its policy and the payload's age. *)
Definition retryable_delivery_at (delivery_id : string) (attempt fence : Z) (d : Db) :
    option (Delivery * DeliveryPayload) :=
  r ← delivery_at delivery_id attempt fence d;
  p ← d_payload r;
  if bool_decide (d_state r = DFailedRetryable) then Some (r, p) else None.

Definition scheduled_delivery_operator_retry_at (delivery_id : string)
    (expected_attempt expected_fence now : Z) : Tx (option Z) :=
  do! row := query (retryable_delivery_at delivery_id expected_attempt expected_fence) in
  match row with
  | None => ret None
  | Some (r, p) =>
      do! policy := lift (policy_of_row r) in
      ret (Policy.delivery_retry_at policy delivery_id expected_attempt (payload_created_at p) now
             None)
  end.

Definition retry_delivery_set (at_ : Z) (r : Delivery) : Delivery := {|
  d_intent := d_intent r;
  d_state := DPending;
  d_attempt := d_attempt r;
  d_fence := d_fence r;
  d_next_attempt_at := None;
  d_lease_owner := d_lease_owner r;
  d_lease_expires_at := d_lease_expires_at r;
  d_idempotency_key := d_idempotency_key r;
  d_provider_receipt := d_provider_receipt r;
  d_provider_outcome := None;
  d_error_kind := None;
  d_error_message := None;
  d_payload := d_payload r;
  d_claimed_baseline_version := None;
  d_updated_at := at_;
  d_counter_limit_recorded := d_counter_limit_recorded r
|}.

Definition at_attempt (delivery_id : string) (attempt fence : Z) (state : ScheduledDeliveryState)
    (_ : Db) (id : string) (r : Delivery) : bool :=
  String.eqb id delivery_id && (d_attempt r =? attempt) && (d_fence r =? fence)
  && bool_decide (d_state r = state) && is_some (d_payload r).

Definition validate_delivery_retry_reason (reason_json reason_digest : string) :
    result StateError unit :=
  bail? len reason_json >? MAX_CONTEXT_BYTES
    with invalid_state "operator delivery retry reason exceeds its storage bound" in
  check? map_err invalid_value
    (validate_canonical_json "operator delivery retry reason" reason_json) in
  check? map_err invalid_value
    (validate_lowercase_sha256 "operator delivery retry reason digest" reason_digest) in
  bail? negb (String.eqb (sha256_hex reason_json) reason_digest)
    with invalid_state
      "operator delivery retry reason digest does not match its canonical evidence" in
  Ok tt.

(** A request that is on record already. *)
Definition replay_delivery_retry (request : SchedulerOperatorRequest) (delivery_id : string)
    (expected_attempt expected_fence : Z) (reason_json reason_digest : string)
    (digest : string) (effective_at occurred_at : Z) :
    Tx (Ending SchedulerOperatorMutationOutcome) :=
  if negb (String.eqb digest (oq_request_digest request))
     || negb (occurred_at =? oq_occurred_at request)
  then ret (Drop OperatorConflict)
  else
    try! validate_operator_action_request request (delivery_retry_action delivery_id
      expected_attempt expected_fence reason_json reason_digest effective_at) in
    ret (Commit OperatorReplay).

Definition record_and_retry_delivery (request : SchedulerOperatorRequest) (delivery_id : string)
    (expected_attempt expected_fence : Z) (reason_json reason_digest : string)
    (next_attempt_at : Z) : Tx (Ending SchedulerOperatorMutationOutcome) :=
  let action := delivery_retry_action delivery_id expected_attempt expected_fence reason_json
    reason_digest next_attempt_at in
  try! validate_operator_action_request request action in
  do! outcome := insert_operator_action request action in
  match outcome with
  | ActionReplay => ret (Commit OperatorReplay)
  | ActionConflict => ret (Drop OperatorConflict)
  | ActionInserted =>
      do! n := update_deliveries true
        (at_attempt delivery_id expected_attempt expected_fence DFailedRetryable)
        (fun _ => retry_delivery_set next_attempt_at) in
      ret (if n =? 1 then Commit OperatorApplied else Rollback OperatorConflict)
  end.

Definition operator_retry_scheduled_delivery (request : SchedulerOperatorRequest)
    (delivery_id : string) (expected_attempt expected_fence : Z)
    (reason_json reason_digest : string) : Tx SchedulerOperatorMutationOutcome :=
  try! validate_operator_request request in
  try! map_err invalid_value (validate_text "operator delivery id" delivery_id) in
  try! validate_delivery_retry_reason reason_json reason_digest in
  if (expected_attempt <=? 0) || (expected_fence <=? 0)
  then fail (invalid_state "invalid operator delivery retry authority")
  else transaction (
    do! existing := existing_delivery_retry_request request in
    match existing with
    | Some (digest, effective_at, occurred_at) =>
        replay_delivery_retry request delivery_id expected_attempt expected_fence reason_json
          reason_digest digest effective_at occurred_at
    | None =>
        do! row := query (retryable_delivery_at delivery_id expected_attempt expected_fence) in
        match row with
        | None => ret (Drop OperatorConflict)
        | Some (r, p) =>
            do! policy := lift (policy_of_row r) in
            match Policy.delivery_retry_at policy delivery_id expected_attempt
                    (payload_created_at p) (oq_occurred_at request) None with
            | None => ret (Drop OperatorConflict)
            | Some next_attempt_at =>
                record_and_retry_delivery request delivery_id expected_attempt expected_fence
                  reason_json reason_digest next_attempt_at
            end
        end
    end).

(** *** Deliveries with an unknown outcome *)

(** What the receipt of a confirmed delivery has to say of its route. *)
Definition validate_receipt_route (route : DeliveryTargetRoute) (provider_receipt : string) :
    result StateError unit :=
  let? receipt := ok_or (from_slice provider_receipt) invalid_json in
  let? receipt := ok_or (as_object receipt)
    (invalid_state "operator provider receipt must be an object") in
  let text key := map_get key receipt ≫= as_str in
  bail? negb (bool_decide (text "provider" = Some (rt_provider route)))
        || negb (bool_decide (text "tenant" = Some (rt_tenant route)))
        || negb (bool_decide (text "target_kind" = Some (rt_kind route)))
    with invalid_state "operator provider receipt does not bind the immutable target snapshot" in
  bail? negb (bool_decide (text "conversation_id" = Some (rt_conversation_id route)))
    with invalid_state
      "operator provider receipt conversation does not bind the target address" in
  bail? negb (bool_decide (text "thread_id" = rt_thread_id route))
    with invalid_state "operator provider receipt thread does not bind the target address" in
  Ok tt.

Definition validate_operator_delivery_target_binding (target_json : string)
    (action : ScheduledDeliveryUnknownAction) : result StateError unit :=
  let? route := map_err invalid_value (from_canonical_target_json target_json) in
  let? (provider, tenant, target_kind) :=
    map_err invalid_value (operator_delivery_evidence_binding action) in
  bail? negb (String.eqb provider (rt_provider route)) || negb (String.eqb tenant (rt_tenant route))
        || negb (String.eqb target_kind (rt_kind route))
    with invalid_state
      "operator delivery evidence does not bind the immutable target snapshot" in
  match action with
  | ConfirmDelivered provider_receipt _ _ => validate_receipt_route route provider_receipt
  | _ => Ok tt
  end.

(** What a resolution writes: state, outcome, receipt, error kind and message.
    An acknowledgement never gets here ([unreachable!]). *)
Record ResolutionColumns := mkResolution {
  res_state : ScheduledDeliveryState;
  res_outcome : option string;
  res_receipt : option string;
  res_kind : option string;
  res_message : option string
}.

Definition resolution_columns (action : ScheduledDeliveryUnknownAction) : option ResolutionColumns :=
  match action with
  | ConfirmDelivered receipt _ _ =>
      Some (mkResolution DDelivered (Some "confirmed_success") (Some receipt) None None)
  | ConfirmNoWriteTerminal _ _ =>
      Some (mkResolution DFailedTerminal (Some "confirmed_no_write_terminal") None
        (Some "operator_confirmed_no_write") (Some "operator confirmed provider did not write"))
  | ForceResend _ _ _ _ _ => Some (mkResolution DPending None None None None)
  | AcknowledgeUnknown _ _ => None
  end.

Definition resolve_attempt (c : ResolutionColumns) (a : DeliveryAttempt) : DeliveryAttempt := {|
  da_fence := da_fence a;
  da_lease_owner := da_lease_owner a;
  da_lease_expires_at := da_lease_expires_at a;
  da_idempotency_key := da_idempotency_key a;
  da_claimed_baseline_version := da_claimed_baseline_version a;
  da_state := res_state c;
  da_provider_receipt := res_receipt c;
  da_provider_outcome := res_outcome c;
  da_error_kind := res_kind c;
  da_error_message := res_message c;
  da_started_at := da_started_at a;
  da_completed_at := da_completed_at a
|}.

Definition resolve_delivery (c : ResolutionColumns) (occurred_at : Z) (r : Delivery) : Delivery := {|
  d_intent := d_intent r;
  d_state := res_state c;
  d_attempt := d_attempt r;
  d_fence := d_fence r;
  d_next_attempt_at := None;
  d_lease_owner := None;
  d_lease_expires_at := None;
  d_idempotency_key := d_idempotency_key r;
  d_provider_receipt := res_receipt c;
  d_provider_outcome := res_outcome c;
  d_error_kind := res_kind c;
  d_error_message := res_message c;
  d_payload := d_payload r;
  d_claimed_baseline_version :=
    if bool_decide (res_state c = DPending) then None else d_claimed_baseline_version r;
  d_updated_at := occurred_at;
  d_counter_limit_recorded := d_counter_limit_recorded r
|}.

Definition unknown_attempt (delivery_id : string) (attempt fence : Z) (key : string * Z)
    (a : DeliveryAttempt) : bool :=
  bool_decide (key = (delivery_id, attempt)) && (da_fence a =? fence)
  && bool_decide (da_state a = DDeliveryUnknown).

Definition apply_unknown_delivery_operator_action (delivery_id : string)
    (expected_attempt expected_fence : Z) (c : ResolutionColumns) (occurred_at : Z) : Tx unit :=
  do! attempt_ok :=
    if bool_decide (res_state c = DPending) then ret true
    else
      do! n := update_delivery_attempts (unknown_attempt delivery_id expected_attempt expected_fence)
        (resolve_attempt c) in
      ret (n =? 1) in
  if negb attempt_ok then fail ScheduledDeliveryLostLease
  else
    do! n := update_deliveries true
      (at_attempt delivery_id expected_attempt expected_fence DDeliveryUnknown)
      (fun _ => resolve_delivery c occurred_at) in
    if negb (n =? 1) then fail ScheduledDeliveryLostLease
    else if bool_decide (res_state c = DDelivered)
    then
      do! advanced := advance_accepted_delivery_baseline_in_transaction delivery_id occurred_at in
      if advanced then ret tt else fail ScheduledDeliveryBaselineConflict
    else ret tt.

Definition record_and_resolve (request : SchedulerOperatorRequest) (delivery_id : string)
    (expected_attempt expected_fence : Z) (action : ScheduledDeliveryUnknownAction)
    (insert : OperatorActionInsert) : Tx (Ending (option SchedulerOperatorMutationOutcome)) :=
  do! outcome := insert_operator_action request insert in
  match outcome with
  | ActionReplay => ret (Commit (Some OperatorReplay))
  | ActionConflict => ret (Drop (Some OperatorConflict))
  | ActionInserted =>
      match resolution_columns action with
      | None => ret (Commit (Some OperatorApplied))
      | Some c =>
          do! transition := catch_lost_lease (apply_unknown_delivery_operator_action delivery_id
            expected_attempt expected_fence c (oq_occurred_at request)) in
          match transition with
          | None => ret (Rollback None)
          | Some _ => ret (Commit (Some OperatorApplied))
          end
      end
  end.

Definition operator_act_on_unknown_delivery (request : SchedulerOperatorRequest)
    (delivery_id : string) (expected_attempt expected_fence : Z)
    (action : ScheduledDeliveryUnknownAction) : Tx SchedulerOperatorMutationOutcome :=
  try! validate_operator_request request in
  try! map_err invalid_value (validate_text "operator delivery id" delivery_id) in
  if (expected_attempt <=? 0) || (expected_fence <=? 0)
  then fail (invalid_state "invalid operator delivery authority")
  else
    do! parts := lift (map_err invalid_value (authority_parts action)) in
    let insert := unknown_action delivery_id expected_attempt expected_fence parts
      (oq_occurred_at request) in
    try! validate_operator_action_request request insert in
    or_delivery_lost_lease (transaction (
      do! target := query (delivery_at delivery_id expected_attempt expected_fence) in
      match target with
      | None => ret (Drop (Some OperatorConflict))
      | Some r =>
          try! validate_operator_delivery_target_binding (d_target_json (d_intent r)) action in
          do! existing := existing_operator_request request in
          match existing with
          | Some outcome => ret (Commit (Some outcome))
          | None =>
              if negb (bool_decide (d_state r = DDeliveryUnknown))
              then ret (Drop (Some OperatorConflict))
              else record_and_resolve request delivery_id expected_attempt expected_fence action
                     insert
          end
      end)).

End Store.

End Operators.
