(* ===== verification/OperatorLifecycle.v ===== *)
(** * What operator requests do (crates/state/src/scheduler/store.rs)

    The effect of each operator transaction on the tables: the action it records
    and uses up, and the one row it moves.  In terms of the abstract machines, a
    run that stopped is revived and a delivery with an unknown outcome is resolved
    or sent again, each only with its record. *)

From stdpp Require Import base tactics list strings numbers pretty gmap relations.
From Stdlib Require Import ZArith Lia Ascii.
From S2P Require Import Prelude.
From S2P Require Import Policy.
From S2P Require Import Schedule.
From S2P Require Import Json.
From S2P Require Import Digest.
From S2P Require Import Capability.
From S2P Require Import Authority.
From S2P Require Import Tables.
From S2P Require Import Runs.
From S2P Require Import Completion.
From S2P Require Import Lifecycle.
From S2P Require Import DeliveryTables.
From S2P Require Import Deliveries.
From S2P Require Import DeliveryLifecycle.
From S2P Require Import DeliveryInvariants.
From S2P Require Import JobTables.
From S2P Require Import Jobs.
From S2P Require Import Routes.
From S2P Require Import Operators.
Import Digest.

Module OperatorLifecycle.
Import Schedule Snapshot Authority Tables Runs Completion Lifecycle DeliveryTables Deliveries
  DeliveryLifecycle DeliveryInvariants Jobs Routes Operators.

Inductive OperatorCall :=
| RetryRun (request : SchedulerOperatorRequest) (run_id : string) (attempt fence : Z)
    (reason_json reason_digest : string) (next_attempt_at : Z)
| RetryDelivery (request : SchedulerOperatorRequest) (delivery_id : string) (attempt fence : Z)
    (reason_json reason_digest : string)
| ActOnUnknown (request : SchedulerOperatorRequest) (delivery_id : string) (attempt fence : Z)
    (action : ScheduledDeliveryUnknownAction).

(** The log: what was used up is on record, every action on record was used up
    when it was recorded, but for acknowledgements, which move nothing, and a
    principal's request is on record at most once. *)
Record log_ok (d : Db) : Prop := {
  log_recorded : forall k, is_Some (operator_consumptions d !! k) -> is_Some (operator_actions d !! k);
  log_used : forall k o, operator_actions d !! k = Some o ->
    o_action o <> "acknowledge_delivery_unknown" -> is_Some (operator_consumptions d !! k);
  log_distinct : forall k k' o o', operator_actions d !! k = Some o ->
    operator_actions d !! k' = Some o' -> o_principal o = o_principal o' ->
    o_request_id o = o_request_id o' -> k = k'
}.

(** What no operator transaction touches. *)
Record operator_rest (d d' : Db) : Prop := {
  or_late_evidence : late_evidence d' = late_evidence d;
  or_artifacts : artifacts d' = artifacts d;
  or_baselines : baselines d' = baselines d;
  or_attempts : attempts d' = attempts d;
  or_jobs : jobs d' = jobs d;
  or_schedules : schedules d' = schedules d;
  or_job_targets : job_targets d' = job_targets d;
  or_transition_cursors : transition_cursors d' = transition_cursors d;
  or_idempotency_keys : idempotency_keys d' = idempotency_keys d;
  or_mutation_audit : mutation_audit d' = mutation_audit d;
  or_policy_lock : policy_lock d' = policy_lock d;
  or_epoch : epoch d' = epoch d
}.

#[export] Instance operator_rest_preorder : PreOrder operator_rest.
Proof. split; [by split|]. intros d d1 d2 [] []. split; congruence. Qed.

Lemma rest_operator_rest `{Serde, Sha2, Sqlite} d d' : same_rest d d' -> operator_rest d d'.
Proof. by intros []. Qed.

Lemma list_one {A} (l : list A) x : length l = 1%nat -> x ∈ l -> l = [x].
Proof.
  destruct l as [|y [|]]; try done. intros _ Hx%list_elem_of_singleton. by subst.
Qed.

Lemma only_key {V} (where_ : string -> V -> bool) k v (t : gmap string V) :
  t !! k = Some v -> where_ k v = true ->
  (forall k' v', t !! k' = Some v' -> where_ k' v' = true -> k' = k) ->
  (matching where_ t).*1 = [k].
Proof.
  intros Hv Hw Honly. assert ((k, v) ∈ matching where_ t) as Hin by by apply elem_of_matching.
  pose proof (matching_NoDup where_ t) as Hnd.
  assert (forall x, x ∈ matching where_ t -> x.1 = k) as Hall
    by (intros [k' v'] [Hv' Hw']%elem_of_matching; by eapply Honly).
  destruct (matching where_ t) as [|x [|y l]]; [by apply elem_of_nil in Hin| |].
  - cbn. f_equal. apply Hall. constructor.
  - apply NoDup_cons in Hnd as [Hx _]. contradict Hx. cbn.
    rewrite (Hall x), (Hall y) by (repeat constructor). constructor.
Qed.

Section Effects.
Context `{Serde} `{Sha2} `{Sqlite}.

Definition operate (c : OperatorCall) (w : World) : World :=
  match c with
  | RetryRun request id n fence reason digest next =>
      (operator_retry_scheduled_run request id n fence reason digest next w).2
  | RetryDelivery request id n fence reason digest =>
      (operator_retry_scheduled_delivery request id n fence reason digest w).2
  | ActOnUnknown request id n fence action =>
      (operator_act_on_unknown_delivery request id n fence action w).2
  end.

(** ** The record *)

(** A request that was not on record, bound to exactly this action. *)
Record recorded (request : SchedulerOperatorRequest) (x : OperatorActionInsert) (d : Db) : Prop := {
  rec_digest : oq_request_digest request = operator_action_request_digest x;
  rec_reason : reason_authority (action_row request x) = true;
  rec_checks : action_checks (operator_action_id request) (action_row request x) = true;
  rec_fresh : operator_actions d !! operator_action_id request = None;
  rec_new : request_row request d = None
}.

Definition record_action (request : SchedulerOperatorRequest) (x : OperatorActionInsert) (d : Db) :
    Db :=
  with_operator_actions d
    (<[operator_action_id request := action_row request x]> (operator_actions d)).

Lemma insert_operator_action_ok request x w outcome w' :
  insert_operator_action request x w = (Ok outcome, w') ->
  (outcome = ActionInserted /\ recorded request x (db w) /\ db w' = record_action request x (db w))
  \/ (outcome <> ActionInserted /\ db w' = db w).
Proof.
  intros ([] & w1 & [Hv <-]%lift_ok & Hi)%bind_ok.
  apply bind_ok in Hi as (inserted & w2 & Hins%sql_ok & Hi).
  destruct (reason_authority _) eqn:Er; cbn in Hins; [|done].
  destruct (_ && _) eqn:E in Hins; injection Hins as <- Hw2.
  - left. apply ret_ok in Hi as [<- <-]. bool_facts. rewrite <-Hw2. split_and!; try done. split; try done.
    + unfold validate_operator_action_request in Hv. peel Hv. where_facts. done.
    + by destruct (operator_actions (db w) !! operator_action_id request).
    + by destruct (request_row request (db w)).
  - right. apply bind_ok in Hi as (persisted & w3 & [_ Hw3]%query_ok & Hi).
    apply ret_ok in Hi as [<- <-]. split; [by destruct (is_value _ _)|congruence].
Qed.

Lemma record_grows request x d : recorded request x d -> log_grows d (record_action request x d).
Proof. intros []. split; [by apply insert_subseteq|done]. Qed.

(** In a log where everything but acknowledgements was used up, the action just
    recorded is the only one still open. *)
Lemma open_is_new request x d k o :
  log_ok d -> operator_actions (record_action request x d) !! k = Some o ->
  operator_consumptions d !! k = None -> o_action o <> "acknowledge_delivery_unknown" ->
  k = operator_action_id request /\ o = action_row request x.
Proof.
  intros [_ Hused _] Ho Hc Hne. cbn in Ho. apply lookup_insert_Some in Ho as [[<- <-]|[_ Ho]]; [done|].
  destruct (Hused _ _ Ho Hne). congruence.
Qed.

Lemma of_request_spec request k o :
  of_request request k o = true <->
  o_principal o = oq_principal request /\ o_request_id o = oq_request_id request.
Proof.
  unfold of_request. rewrite andb_true_iff, bool_decide_eq_true, String.eqb_eq. done.
Qed.

Lemma request_row_none request d k o :
  request_row request d = None -> operator_actions d !! k = Some o -> of_request request k o = false.
Proof.
  unfold request_row. intros Hnone Ho. destruct (of_request request k o) eqn:E; [|done].
  assert ((k, o) ∈ matching (of_request request) (operator_actions d)) as Hin by by apply elem_of_matching.
  destruct (matching _ _) as [|x l]; [by apply elem_of_nil in Hin|done].
Qed.

(** Recording an action, and using it up unless it acknowledges, keeps the log. *)
Lemma log_entry_ok request x c d d' :
  recorded request x d -> log_ok d ->
  operator_actions d' = operator_actions (record_action request x d) ->
  operator_consumptions d' = <[operator_action_id request := c]> (operator_consumptions d)
  \/ operator_consumptions d' = operator_consumptions d
     /\ oa_action x = "acknowledge_delivery_unknown" ->
  log_ok d'.
Proof.
  intros [_ _ _ _ Hnew] [Hr Hu Hdis] Ha Hc. cbn in Ha.
  split; [intros k|intros k o|intros k k' o o']; rewrite Ha.
  - destruct (decide (k = operator_action_id request)) as [->|Hne];
      [rewrite lookup_insert_eq; by eauto|]. rewrite lookup_insert_ne by done.
    destruct Hc as [->|[-> _]]; [|by eauto]. rewrite lookup_insert_ne by done. apply Hr.
  - rewrite lookup_insert_Some. intros [[<- <-]|[Hne Ho]] Hack.
    + destruct Hc as [->|[_ E]]; [rewrite lookup_insert_eq; by eauto|by contradict Hack].
    + destruct Hc as [->|[-> _]]; [rewrite lookup_insert_ne by done|]; by eapply Hu.
  - rewrite !lookup_insert_Some. intros [[<- <-]|[_ Ho]] [[<- <-]|[_ Ho']] Hp Hq; [done| | |by eauto].
    + apply (request_row_none _ _ _ _ Hnew), not_true_iff_false in Ho'. contradict Ho'.
      by apply of_request_spec.
    + apply (request_row_none _ _ _ _ Hnew), not_true_iff_false in Ho. contradict Ho.
      by apply of_request_spec.
Qed.

(** ** Retrying a run *)

Record run_retried (request : SchedulerOperatorRequest) (run_id : string) (n fence : Z)
    (reason_json reason_digest : string) (next : Z) (d d' : Db) (r : Run) (used : string) : Prop := {
  rr_run : runs d !! run_id = Some r;
  rr_at : r_attempt r = n /\ r_fence r = fence;
  rr_stopped : is_retryable (r_state r) = true;
  rr_result : r_result r = None;
  rr_time : exists policy, scheduler_policy_from_snapshot
      (s_scheduler_policy_version (r_snapshot r)) (s_scheduler_policy_json (r_snapshot r))
      = Ok policy
    /\ Policy.run_retry_at policy run_id n (s_scheduled_for (r_snapshot r))
         (oq_occurred_at request) = Some next;
  rr_recorded : recorded request (run_retry_action run_id n fence (run_state_as_str (r_state r))
    reason_json reason_digest next) d;
  rr_actions : operator_actions d' = operator_actions (record_action request (run_retry_action run_id n
    fence (run_state_as_str (r_state r)) reason_json reason_digest next) d);
  rr_runs : runs d' = <[run_id := retry_run_set next (oq_occurred_at request) r]> (runs d);
  rr_used : run_retry_actions (record_action request (run_retry_action run_id n fence
    (run_state_as_str (r_state r)) reason_json reason_digest next) d) run_id r
    (retry_run_set next (oq_occurred_at request) r) = [used];
  rr_consumptions : operator_consumptions d' = <[used := mkConsumption "run" run_id
    (oq_occurred_at request)]> (operator_consumptions d);
  rr_deliveries : deliveries d' = deliveries d /\ delivery_attempts d' = delivery_attempts d
    /\ delivery_baselines d' = delivery_baselines d;
  rr_rest : operator_rest d d';
  rr_checks : run_checks (retry_run_set next (oq_occurred_at request) r) = true;
  rr_overlap : overlap_unique (runs d') = true
}.

Lemma retry_runs_one run_id n fence s next now w m w' :
  is_retryable s = true ->
  retry_runs (retry_run_where run_id n fence s) (retry_run_set next now) w = (Ok m, w') -> m = 1 ->
  exists r used, runs (db w) !! run_id = Some r /\ r_result r = None
    /\ r_attempt r = n /\ r_fence r = fence /\ r_state r = s
    /\ run_retry_actions (db w) run_id r (retry_run_set next now r) = [used]
    /\ run_checks (retry_run_set next now r) = true
    /\ runs (db w') = <[run_id := retry_run_set next now r]> (runs (db w))
    /\ overlap_unique (runs (db w')) = true
    /\ exists t, db w' = with_totals (with_operator_consumptions (with_runs (db w) (runs (db w')))
         (<[used := mkConsumption "run" run_id now]> (operator_consumptions (db w)))) t.
Proof.
  intros Hs Hr%sql_ok Hm. unfold runs_retried in Hr.
  destruct (runs_updated _ _ _) as [[k d1]|e] eqn:Hu; [|done].
  destruct (forallb _ _) eqn:Ef in Hr; [|done]. injection Hr as -> Hw'. subst m.
  pose proof Hu as (Hk & Hr1 & _ & _ & Hov & Hc)%runs_updated_ok. symmetry in Hk.
  assert (forall id r, retry_run_where run_id n fence s id r = true -> id = run_id) as Hkey
    by (intros id r Hw; unfold retry_run_where in Hw; by where_facts).
  destruct (update_rows_one _ (retry_run_set next now) (runs (db w)) run_id Hkey Hk)
    as (r & Hr & Hw & Hset).
  assert (matching (retry_run_where run_id n fence s) (runs (db w)) = [(run_id, r)]) as Hhit.
  { apply list_one; [lia|]. by apply elem_of_matching. }
  rewrite Hhit in Ef, Hw'. cbn in Ef, Hw'. destruct (Hc run_id r Hr Hw) as [Hck _].
  assert (r_result r = None /\ r_attempt r = n /\ r_fence r = fence /\ r_state r = s)
    as (Hres & Hn & Hf & <-).
  { unfold retry_run_where in Hw. where_facts. by destruct (r_result r). }
  rewrite Hs in Ef. cbn in Ef.
  destruct (run_retry_actions _ _ _ _) as [|used [|]] eqn:Eu; try done.
  exists r, used. rewrite <-Hw'. cbn. rewrite <-Hset, Hr1.
  split_and!; try done; [by rewrite <-Hr1|].
  unfold runs_updated in Hu. destruct (_ && _) in Hu; [|done]. injection Hu as _ <-.
  by eexists.
Qed.

(** What the body of a retry ends with. *)
Definition retry_run_ends (request : SchedulerOperatorRequest) (run_id : string) (n fence : Z)
    (reason_json reason_digest : string) (next : Z) (d d' : Db)
    (e : Ending SchedulerOperatorMutationOutcome) : Prop :=
  match e with
  | Commit OperatorApplied =>
      exists r used, run_retried request run_id n fence reason_json reason_digest next d d' r used
  | Commit _ => d' = d
  | Drop x | Rollback x => x = OperatorConflict
  end.

Lemma record_and_retry_run_ends request run_id n fence reason_json reason_digest next r policy w e w' :
  runs (db w) !! run_id = Some r -> is_retryable (r_state r) = true ->
  scheduler_policy_from_snapshot (s_scheduler_policy_version (r_snapshot r))
    (s_scheduler_policy_json (r_snapshot r)) = Ok policy ->
  Policy.run_retry_at policy run_id n (s_scheduled_for (r_snapshot r)) (oq_occurred_at request)
    = Some next ->
  record_and_retry_run request run_id n fence reason_json reason_digest next r w = (Ok e, w') ->
  retry_run_ends request run_id n fence reason_json reason_digest next (db w) (db w') e.
Proof.
  intros Hr Hs Hp Hnext (outcome & w1 & Hins & Hb)%bind_ok.
  apply insert_operator_action_ok in Hins as [(-> & Hrec & Hw1)|[Hout Hw1]].
  - apply bind_ok in Hb as (m & w2 & Hm & Hb). apply ret_ok in Hb as [<- <-].
    destruct (m =? 1) eqn:Em; [|done]. apply Z.eqb_eq in Em.
    apply retry_runs_one in Hm as (r' & used & Hr' & Hres & Hn & Hf & _ & Hu & Hck & Hruns & Hov & t & Hw2);
      [|done..].
    rewrite Hw1 in *. cbn in Hr', Hruns. rewrite Hr in Hr'. injection Hr' as <-.
    exists r, used. rewrite Hw2. cbn. by split; eauto.
  - destruct outcome; [done|by apply ret_ok in Hb as [<- <-]|by apply ret_ok in Hb as [<- _]].
Qed.

Lemma existing_not_applied request w o w' :
  existing_operator_request request w = (Ok (Some o), w') -> o <> OperatorApplied /\ db w' = db w.
Proof.
  intros [Ho Hw]%query_ok. split; [|done].
  destruct (request_row request (db w)) as [x|]; [|done]. cbn in Ho.
  injection Ho as ->. by destruct (_ && _).
Qed.

Lemma retry_run_cases request run_id n fence reason_json reason_digest next w x w' :
  operator_retry_scheduled_run request run_id n fence reason_json reason_digest next w = (x, w') ->
  (x <> Ok OperatorApplied /\ db w' = db w)
  \/ (x = Ok OperatorApplied /\ exists r used,
        run_retried request run_id n fence reason_json reason_digest next (db w) (db w') r used).
Proof.
  intros Ho. unfold operator_retry_scheduled_run in Ho.
  do 3 (apply try_cases in Ho as [(? & _ & -> & ->)|([] & _ & Ho)]; [by left|]).
  destruct (_ || _) in Ho; [injection Ho as <- <-; by left|].
  destruct (negb _) in Ho; [injection Ho as <- <-; by left|].
  match type of Ho with transaction ?body _ = _ => assert (forall w0 e w1, body w0 = (Ok e, w1) ->
    retry_run_ends request run_id n fence reason_json reason_digest next (db w0) (db w1) e) as Hend end.
  { clear. intros w e w' (existing & w1 & Hex & Hb)%bind_ok. destruct existing as [o|].
    { apply existing_not_applied in Hex as [Ho Hw]. apply ret_ok in Hb as [<- <-]. by destruct o. }
    apply query_ok in Hex as [_ Hw1]. rewrite <-Hw1.
    apply bind_ok in Hb as (row & w2 & [Hrow Hw2]%query_ok & Hb). rewrite <-Hw2 in *.
    destruct row as [r|]; [|by apply ret_ok in Hb as [<- _]].
    destruct (_ || _) eqn:E in Hb; [by apply ret_ok in Hb as [<- _]|].
    apply bind_ok in Hb as (policy & w3 & [Hp <-]%lift_ok & Hb).
    destruct (negb _) eqn:En in Hb; [by apply ret_ok in Hb as [<- _]|]. bool_facts.
    eapply record_and_retry_run_ends; [|done..]. unfold run_at in Hrow.
    destruct (runs (db w2) !! run_id) as [r'|]; [|done]. cbn in Hrow.
    destruct (_ && _) in Hrow; congruence. }
  apply transaction_cases in Ho as [(a & w0 & w1 & -> & <- & Hb%Hend & ->)|[Hw Hb]].
  - destruct a; [by right|by left..].
  - left. split; [|done]. intros ->. destruct (Hb _ eq_refl) as (w0 & w1 & _ & [Hd|Hd]); by apply Hend in Hd.
Qed.

Lemma run_retry_unused d id r r' k :
  run_retry_actions d id r r' = [k] ->
  exists o, operator_actions d !! k = Some o /\ authorizes_run_retry d id r r' k o = true
    /\ operator_consumptions d !! k = None.
Proof.
  intros Hone. assert (k ∈ run_retry_actions d id r r') as Hin by (rewrite Hone; constructor).
  revert Hin. unfold run_retry_actions. destruct (_ && _); [|by intros Hin%not_elem_of_nil].
  intros ([k' o] & -> & [Ho Hw]%elem_of_matching)%list_elem_of_fmap. exists o. cbn in *.
  split_and!; [done..|]. unfold authorizes_run_retry in Hw. bool_facts.
  by destruct (operator_consumptions d !! k').
Qed.

Lemma retryable_revivable s : is_retryable s = true -> revivable s.
Proof. unfold revivable. destruct s; try done; auto. Qed.

Lemma run_retried_step request run_id n fence reason_json reason_digest next d d' r used :
  run_retried request run_id n fence reason_json reason_digest next d d' r used -> step d d'.
Proof.
  intros []. destruct rr_at0 as [Hn Hf], rr_rest0.
  destruct (run_retry_unused _ _ _ _ _ rr_used0) as (o & Ho & Hw & Hnone).
  split_and!.
  - intros id. destruct (decide (id = run_id)) as [->|Hne].
    + eapply is_revived; [done|by rewrite rr_runs0, lookup_insert_eq|by apply retryable_revivable
        |done|done| |by intros m; rewrite or_attempts0].
      unfold authorizes_run_retry in Hw. where_facts. eexists used, o, _. rewrite rr_actions0, rr_consumptions0.
      split; [done|]. split; [by rewrite lookup_insert_eq|]. by split_and!.
    + apply stays; [by rewrite rr_runs0, lookup_insert_ne|]. intros m. by rewrite or_attempts0.
  - intros [Hok _]. split; [|done]. intros id r'. rewrite rr_runs0, lookup_insert_Some.
    intros [[<- <-]|[_ Hr]]; eauto.
  - split; [rewrite rr_actions0; by apply (record_grows _ _ _ rr_recorded0)|].
    rewrite rr_consumptions0. by apply insert_subseteq.
Qed.

(** ** Moving a delivery *)

(** A prepared row at the attempt and fence that the request names, moved with the
    actions its triggers use up. *)
Record delivery_moved (delivery_id : string) (n fence : Z) (s : ScheduledDeliveryState)
    (set : Delivery -> Delivery) (d d' : Db) (r : Delivery) : Prop := {
  dm_row : deliveries d !! delivery_id = Some r;
  dm_at : d_attempt r = n /\ d_fence r = fence /\ d_state r = s;
  dm_payload : is_some (d_payload r) = true;
  dm_checks : delivery_checks delivery_id (set r) = true;
  dm_allowed : delivery_update_allowed true d delivery_id r (set r) = true;
  dm_unique : active_unique (deliveries d') = true;
  dm_deliveries : deliveries d' = <[delivery_id := set r]> (deliveries d);
  dm_db : exists t, d' = with_totals (with_operator_consumptions (with_deliveries d (deliveries d'))
    (consume_actions delivery_id (d_updated_at (set r)) (consumed d delivery_id r (set r))
       (operator_consumptions d))) t
}.

Lemma move_delivery_one delivery_id n fence s set w m w' :
  update_deliveries true (at_attempt delivery_id n fence s) (fun _ => set) w = (Ok m, w') -> m = 1 ->
  exists r, delivery_moved delivery_id n fence s set (db w) (db w') r.
Proof.
  intros Hu%sql_ok ->. pose proof Hu as (Hm & Hd & _ & _ & _ & Hun & Hc)%deliveries_updated_ok.
  symmetry in Hm.
  assert (forall id r, at_attempt delivery_id n fence s (db w) id r = true -> id = delivery_id) as Hkey
    by (intros id r Hw; unfold at_attempt in Hw; by where_facts).
  destruct (update_rows_one _ set (deliveries (db w)) delivery_id Hkey Hm) as (r & Hr & Hw & Hset).
  assert (matching (at_attempt delivery_id n fence s (db w)) (deliveries (db w)) = [(delivery_id, r)])
    as Hhit by (apply list_one; [lia|by apply elem_of_matching]).
  destruct (Hc delivery_id r Hr Hw) as [Hck Hal].
  unfold deliveries_updated in Hu. destruct (_ && _) in Hu; [|done]. rewrite Hhit, Hset in Hu.
  cbn [foldr] in Hu. injection Hu as Hw'. exists r.
  assert (deliveries (db w') = <[delivery_id := set r]> (deliveries (db w))) as Hd' by by rewrite <-Hw'.
  unfold at_attempt in Hw. where_facts.
  split; try done. rewrite Hd'. rewrite <-Hw'. by eexists.
Qed.

Record delivery_retried (request : SchedulerOperatorRequest) (delivery_id : string) (n fence : Z)
    (reason_json reason_digest : string) (next : Z) (d d' : Db) (r : Delivery) : Prop := {
  dr_recorded : recorded request (delivery_retry_action delivery_id n fence reason_json
    reason_digest next) d;
  dr_time : exists policy p, d_payload r = Some p /\ policy_of_row r = Ok policy
    /\ Policy.delivery_retry_at policy delivery_id n (payload_created_at p)
         (oq_occurred_at request) None = Some next;
  dr_moved : delivery_moved delivery_id n fence DFailedRetryable (retry_delivery_set next)
    (record_action request (delivery_retry_action delivery_id n fence reason_json reason_digest next)
       d) d' r
}.

(** What the body of a retry ends with. *)
Definition retry_delivery_ends (request : SchedulerOperatorRequest) (delivery_id : string)
    (n fence : Z) (reason_json reason_digest : string) (d d' : Db)
    (e : Ending SchedulerOperatorMutationOutcome) : Prop :=
  match e with
  | Commit OperatorApplied =>
      exists next r, delivery_retried request delivery_id n fence reason_json reason_digest next d d' r
  | Commit _ => d' = d
  | Drop x | Rollback x => x = OperatorConflict
  end.

Lemma record_and_retry_delivery_ends request delivery_id n fence reason_json reason_digest next r p
    policy w e w' :
  retryable_delivery_at delivery_id n fence (db w) = Some (r, p) -> policy_of_row r = Ok policy ->
  Policy.delivery_retry_at policy delivery_id n (payload_created_at p) (oq_occurred_at request) None
    = Some next ->
  record_and_retry_delivery request delivery_id n fence reason_json reason_digest next w = (Ok e, w') ->
  retry_delivery_ends request delivery_id n fence reason_json reason_digest (db w) (db w') e.
Proof.
  intros Hrow Hp Hnext ([] & w1 & [_ <-]%lift_ok & Hb)%bind_ok.
  apply bind_ok in Hb as (outcome & w1 & Hins & Hb).
  apply insert_operator_action_ok in Hins as [(-> & Hrec & Hw1)|[Hout Hw1]].
  - apply bind_ok in Hb as (m & w2 & Hm & Hb). apply ret_ok in Hb as [<- <-].
    destruct (m =? 1) eqn:Em; [|done]. apply Z.eqb_eq in Em.
    apply move_delivery_one in Hm as [r' Hm]; [|done]. rewrite Hw1 in Hm. exists next, r'.
    split; [done| |done]. exists policy, p.
    unfold retryable_delivery_at, delivery_at in Hrow.
    pose proof (dm_row _ _ _ _ _ _ _ _ Hm) as Hr'. cbn in Hr'. rewrite Hr' in Hrow. cbn in Hrow.
    destruct (_ && _) in Hrow; [|done]. cbn in Hrow. destruct (d_payload r') as [p'|] eqn:Ep; [|done].
    cbn in Hrow. destruct (bool_decide _) in Hrow; [|done]. by injection Hrow as <- <-.
  - destruct outcome; [done|by apply ret_ok in Hb as [<- <-]|by apply ret_ok in Hb as [<- _]].
Qed.

Lemma retry_delivery_cases request delivery_id n fence reason_json reason_digest w x w' :
  operator_retry_scheduled_delivery request delivery_id n fence reason_json reason_digest w = (x, w') ->
  (x <> Ok OperatorApplied /\ db w' = db w)
  \/ (x = Ok OperatorApplied /\ exists next r, delivery_retried request delivery_id n fence
        reason_json reason_digest next (db w) (db w') r).
Proof.
  intros Ho. unfold operator_retry_scheduled_delivery in Ho.
  do 3 (apply try_cases in Ho as [(? & _ & -> & ->)|([] & _ & Ho)]; [by left|]).
  destruct (_ || _) in Ho; [injection Ho as <- <-; by left|].
  match type of Ho with transaction ?body _ = _ => assert (forall w0 e w1, body w0 = (Ok e, w1) ->
    retry_delivery_ends request delivery_id n fence reason_json reason_digest (db w0) (db w1) e)
    as Hend end.
  { clear. intros w e w' (existing & w1 & [_ Hw1]%query_ok & Hb)%bind_ok. rewrite <-Hw1.
    destruct existing as [[[digest effective] occurred]|].
    { unfold replay_delivery_retry in Hb. destruct (_ || _); [by apply ret_ok in Hb as [<- _]|].
      apply bind_ok in Hb as ([] & w2 & [_ <-]%lift_ok & Hb). by apply ret_ok in Hb as [<- <-]. }
    apply bind_ok in Hb as (row & w2 & [Hrow Hw2]%query_ok & Hb). rewrite <-Hw2 in *.
    destruct row as [[r p]|]; [|by apply ret_ok in Hb as [<- _]].
    apply bind_ok in Hb as (policy & w3 & [Hp <-]%lift_ok & Hb).
    destruct (Policy.delivery_retry_at _ _ _ _ _ _) as [next|] eqn:En;
      [|by apply ret_ok in Hb as [<- _]].
    by eapply record_and_retry_delivery_ends. }
  apply transaction_cases in Ho as [(a & w0 & w1 & -> & <- & Hb%Hend & ->)|[Hw Hb]].
  - destruct a; [by right|by left..].
  - left. split; [|done]. intros ->. destruct (Hb _ eq_refl) as (w0 & w1 & _ & [Hd|Hd]); by apply Hend in Hd.
Qed.

(** ** Resolving an unknown outcome *)

Definition attempt_resolved (c : ResolutionColumns) (delivery_id : string) (n fence : Z)
    (d d' : Db) : Prop :=
  if bool_decide (res_state c = DPending) then d' = d
  else exists a, delivery_attempts d !! (delivery_id, n) = Some a /\ da_fence a = fence
    /\ da_state a = DDeliveryUnknown /\ delivery_attempt_checks n (resolve_attempt c a) = true
    /\ d' = with_delivery_attempts d
              (<[(delivery_id, n) := resolve_attempt c a]> (delivery_attempts d)).

(** The baseline of its target advances by one, from the version that the payload
    was claimed against, to this payload. *)
Definition baseline_advanced (c : ResolutionColumns) (delivery_id : string) (now : Z) (r : Delivery)
    (d d' : Db) : Prop :=
  if bool_decide (res_state c = DDelivered)
  then exists p identity version f t, d_payload r = Some p /\ baseline_identity r = Some identity
    /\ d_claimed_baseline_version r = Some version
    /\ version = match delivery_baselines d !! identity with
                 | Some b => delivery_baseline_version b | None => 0 end
    /\ artifact_of d r = Some f
    /\ d' = with_totals (with_delivery_baselines d (<[identity := mkAcceptedBaseline
         (payload_digest p) delivery_id (d_run_id (d_intent r))
         (Some (d_result_artifact_id (d_intent r))) (f_result_hash f) now (version + 1)]>
         (delivery_baselines d))) t
  else d' = d.

Lemma upsert_writes id at_ expected d d' :
  upsert_baseline id at_ expected d = Ok (true, d') ->
  exists t, d' = with_totals (with_delivery_baselines d (delivery_baselines d')) t.
Proof.
  unfold upsert_baseline. cbv zeta. intros Hu.
  destruct (_ ≫= _) as [[[[r p] identity] f]|]; [|done]. peel Hu; by eexists.
Qed.

Lemma advance_after c delivery_id now r w w' :
  res_state c = DDelivered -> deliveries (db w) !! delivery_id = Some (resolve_delivery c now r) ->
  advance_accepted_delivery_baseline_in_transaction delivery_id now w = (Ok true, w') ->
  baseline_advanced c delivery_id now r (db w) (db w').
Proof.
  intros Hc Hr (expected & w1 & [Hexp Hw1]%query_ok & Hu)%bind_ok.
  destruct expected as [expected|]; [|by tx_step Hu]. apply sql_ok in Hu. rewrite Hw1 in Hu.
  pose proof (upsert_writes _ _ _ _ _ Hu) as [t Ht].
  apply upsert_advances in Hu as (r' & p & identity & f & Hr' & Hp & Hi & Hf & Hver & _ & Hb).
  rewrite Hr in Hr'. injection Hr' as <-. unfold baseline_advanced.
  rewrite bool_decide_eq_true_2 by done. exists p, identity, expected, f, t. cbn in *.
  split_and!; try done; [|by rewrite <-Hb].
  unfold baseline_expectation in Hexp. rewrite Hr in Hexp. cbn in Hexp. rewrite Hp in Hexp. cbn in Hexp.
  rewrite Hc in Hexp. cbn in Hexp.
  destruct (delivery_attempts (db w) !! _) as [a|]; [|done]. cbn in Hexp.
  rewrite (bool_decide_eq_false_2 (DDelivered = DPending)),
    (bool_decide_eq_false_2 (DDelivered = DSkippedNone)) in Hexp by done. cbn in Hexp.
  destruct (_ && _) eqn:E in Hexp; [|done]. injection Hexp as ->. where_facts. done.
Qed.

Lemma apply_unknown_ok delivery_id n fence c now w u w' :
  apply_unknown_delivery_operator_action delivery_id n fence c now w = (Ok u, w') ->
  exists d1 d2 r, attempt_resolved c delivery_id n fence (db w) d1
    /\ delivery_moved delivery_id n fence DDeliveryUnknown (resolve_delivery c now) d1 d2 r
    /\ baseline_advanced c delivery_id now r d2 (db w').
Proof.
  intros (attempt_ok & w1 & Ha & Hb)%bind_ok. destruct attempt_ok; cbn [negb] in Hb; [|by tx_step Hb].
  apply bind_ok in Hb as (m & w2 & Hm & Hb). destruct (m =? 1) eqn:Em; cbn [negb] in Hb; [|by tx_step Hb].
  apply Z.eqb_eq in Em. apply move_delivery_one in Hm as [r Hm]; [|done].
  exists (db w1), (db w2), r. split_and!; [|done|].
  - unfold attempt_resolved. destruct (bool_decide _); [by apply ret_ok in Ha as [_ <-]|].
    apply bind_ok in Ha as (k & w3 & Hk & Ha). apply ret_ok in Ha as [Ek <-]. apply Z.eqb_eq in Ek.
    apply sql_ok in Hk. pose (b := mkDeliveryBinding delivery_id n fence "" "").
    pose proof Hk as Hk'. apply (delivery_attempt_update_one b) in Hk' as (a & Ha & Hw & Hset & _ & _ & _ & Hck);
      [|intros key a; unfold unknown_attempt; intros; by where_facts|done].
    unfold unknown_attempt in Hw. where_facts. exists a. split_and!; try done.
    unfold delivery_attempts_updated in Hk. destruct (forallb _ _) in Hk; [|done].
    injection Hk as _ Hk. rewrite <-Hk in Hset |- *. cbn in Hset. by rewrite Hset.
  - destruct (bool_decide _) eqn:Ed in Hb.
    + apply bool_decide_eq_true in Ed. apply bind_ok in Hb as ([] & w3 & Hadv & Hb); tx_step Hb.
      eapply advance_after; [done| |done]. by rewrite (dm_deliveries _ _ _ _ _ _ _ _ Hm), lookup_insert_eq.
    + unfold baseline_advanced. rewrite Ed. by apply ret_ok in Hb as [_ <-].
Qed.

(** What an applied action on an unknown outcome did: an acknowledgement is only
    recorded. *)
Record delivery_resolved (request : SchedulerOperatorRequest) (delivery_id : string) (n fence : Z)
    (action : ScheduledDeliveryUnknownAction) (parts : AuthorityParts) (d d' : Db) (r : Delivery) :
    Prop := {
  ur_parts : authority_parts action = Ok parts;
  ur_row : delivery_at delivery_id n fence d = Some r;
  ur_unknown : d_state r = DDeliveryUnknown;
  ur_binding : validate_operator_delivery_target_binding (d_target_json (d_intent r)) action = Ok tt;
  ur_recorded : recorded request (unknown_action delivery_id n fence parts (oq_occurred_at request)) d;
  ur_effect :
    let d0 := record_action request
      (unknown_action delivery_id n fence parts (oq_occurred_at request)) d in
    match resolution_columns action with
    | None => d' = d0
    | Some c => exists d1 d2, attempt_resolved c delivery_id n fence d0 d1
        /\ delivery_moved delivery_id n fence DDeliveryUnknown
             (resolve_delivery c (oq_occurred_at request)) d1 d2 r
        /\ baseline_advanced c delivery_id (oq_occurred_at request) r d2 d'
    end
}.

Definition act_ends (request : SchedulerOperatorRequest) (delivery_id : string) (n fence : Z)
    (action : ScheduledDeliveryUnknownAction) (parts : AuthorityParts) (d d' : Db)
    (e : Ending (option SchedulerOperatorMutationOutcome)) : Prop :=
  match e with
  | Commit (Some OperatorApplied) =>
      exists r, delivery_resolved request delivery_id n fence action parts d d' r
  | Commit (Some _) => d' = d
  | Commit None => False
  | Drop x | Rollback x => x <> Some OperatorApplied
  end.

Lemma attempt_resolved_deliveries c delivery_id n fence d d' :
  attempt_resolved c delivery_id n fence d d' -> deliveries d' = deliveries d.
Proof.
  unfold attempt_resolved. destruct (bool_decide _); [by intros ->|]. by intros (a & _ & _ & _ & _ & ->).
Qed.

Lemma record_and_resolve_ends request delivery_id n fence action parts r w e w' :
  authority_parts action = Ok parts -> delivery_at delivery_id n fence (db w) = Some r ->
  d_state r = DDeliveryUnknown ->
  validate_operator_delivery_target_binding (d_target_json (d_intent r)) action = Ok tt ->
  record_and_resolve request delivery_id n fence action
    (unknown_action delivery_id n fence parts (oq_occurred_at request)) w = (Ok e, w') ->
  act_ends request delivery_id n fence action parts (db w) (db w') e.
Proof.
  intros Hparts Hrow Hs Hbind (outcome & w1 & Hins & Hb)%bind_ok.
  apply insert_operator_action_ok in Hins as [(-> & Hrec & Hw1)|[Hout Hw1]].
  - destruct (resolution_columns action) as [c|] eqn:Ec.
    + apply bind_ok in Hb as ([[]|] & w2 & Ha & Hb); apply ret_ok in Hb as [<- <-]; [|done].
      apply catch_lost_lease_some, apply_unknown_ok in Ha as (d1 & d2 & r' & Hat & Hm & Hadv).
      assert (r' = r) as ->.
      { pose proof (dm_row _ _ _ _ _ _ _ _ Hm) as Hr'.
        rewrite (attempt_resolved_deliveries _ _ _ _ _ _ Hat), Hw1 in Hr'. cbn in Hr'.
        unfold delivery_at in Hrow. rewrite Hr' in Hrow. cbn in Hrow. destruct (_ && _) in Hrow; congruence. }
      exists r. split; try done. cbn. rewrite Ec, <-Hw1. eauto.
    + apply ret_ok in Hb as [<- <-]. exists r. split; try done. cbn. by rewrite Ec.
  - destruct outcome; [done|by apply ret_ok in Hb as [<- <-]|by apply ret_ok in Hb as [<- _]].
Qed.

Lemma act_cases request delivery_id n fence action w x w' :
  operator_act_on_unknown_delivery request delivery_id n fence action w = (x, w') ->
  (x <> Ok OperatorApplied /\ delivery_keeps (db w) (db w'))
  \/ (x = Ok OperatorApplied /\ exists parts r,
        delivery_resolved request delivery_id n fence action parts (db w) (db w') r).
Proof.
  intros Ho. unfold operator_act_on_unknown_delivery in Ho.
  do 2 (apply try_cases in Ho as [(? & _ & -> & ->)|([] & _ & Ho)]; [by left|]).
  destruct (_ || _) in Ho; [injection Ho as <- <-; by left|].
  apply try_cases in Ho as [(? & _ & -> & ->)|(parts & Hparts%map_err_ok & Ho)]; [by left|].
  apply try_cases in Ho as [(? & _ & -> & ->)|([] & _ & Ho)]; [by left|].
  match type of Ho with or_delivery_lost_lease (transaction ?body) _ = _ =>
    assert (forall w0 e w1, body w0 = (Ok e, w1) ->
      act_ends request delivery_id n fence action parts (db w0) (db w1) e) as Hend end.
  { clear -Hparts. intros w e w' (target & w1 & [Ht Hw1]%query_ok & Hb)%bind_ok. rewrite <-Hw1 in *.
    destruct target as [r|]; [|by apply ret_ok in Hb as [<- _]].
    apply bind_ok in Hb as ([] & w2 & [Hbind <-]%lift_ok & Hb).
    apply bind_ok in Hb as (existing & w2 & Hex & Hb). destruct existing as [o|].
    { apply existing_not_applied in Hex as [Ho Hw]. apply ret_ok in Hb as [<- <-]. by destruct o. }
    apply query_ok in Hex as [_ Hw2]. rewrite <-Hw2 in *.
    destruct (bool_decide _) eqn:Es; cbn [negb] in Hb; [|by apply ret_ok in Hb as [<- _]].
    apply bool_decide_eq_true in Es. by eapply record_and_resolve_ends. }
  unfold or_delivery_lost_lease in Ho. apply bind_cases in Ho as [(e & -> & Ho)|(o & w1 & Ho & Hx)].
  { apply transaction_cases in Ho as [(a & _ & _ & [=] & _)|[-> _]]. by left. }
  apply transaction_cases in Ho as [(a & w0 & w2 & [= <-] & <- & Hb%Hend & Hw1)|[Hw Hb]].
  - destruct o as [o|]; [|done]. injection Hx as <- <-. rewrite Hw1.
    destruct o; [right; by eauto|left; by rewrite Hb..].
  - destruct o as [o|].
    + injection Hx as <- <-. left. rewrite Hw. split; [|done]. intros [= ->].
      destruct (Hb _ eq_refl) as (w0 & w2 & _ & [Hd|Hd]); by apply Hend in Hd.
    + left. split; [intros ->; by apply bind_ok in Hx as (? & ? & _ & Hx); tx_step Hx|].
      rewrite <-Hw. revert Hx. match goal with |- ?m w1 = _ -> _ =>
        enough (respects delivery_keeps m) as Hm by apply Hm end.
      apply (respects_bind delivery_keeps); [apply increment_keeps|intros _].
      apply (respects_fail delivery_keeps).
Qed.

(** ** The steps *)

(** One step of the delivery [id] by an operator. *)
Inductive operator_moves (id : string) (d d' : Db) : Prop :=
| operator_leaves
    (Hrow : deliveries d' !! id = deliveries d !! id) (Hsends : same_sends id d d')
| operator_requeues r r'
    (Hrow : deliveries d !! id = Some r) (Hrow' : deliveries d' !! id = Some r')
    (Hstate : d_state r = DFailedRetryable) (Hstate' : d_state r' = DPending)
    (Hkeeps : keeps_delivery r r') (Hsends : same_sends id d d')
| operator_resends r r'
    (Hrow : deliveries d !! id = Some r) (Hrow' : deliveries d' !! id = Some r')
    (Hstate : d_state r = DDeliveryUnknown) (Hstate' : d_state r' = DPending)
    (Hkeeps : keeps_delivery r r')
    (Hrecord : resolved_on_record d' id (d_attempt r) (d_fence r) DPending)
    (Hsends : same_sends id d d')
| operator_settles r r' a a'
    (Hrow : deliveries d !! id = Some r) (Hrow' : deliveries d' !! id = Some r')
    (Hstate : d_state r = DDeliveryUnknown)
    (Hstate' : d_state r' = DDelivered \/ d_state r' = DFailedTerminal)
    (Hattempt : delivery_attempts d !! (id, d_attempt r) = Some a)
    (Hattempt' : delivery_attempts d' !! (id, d_attempt r) = Some a')
    (Hopen : da_state a = DDeliveryUnknown)
    (Hkeeps : keeps_delivery r r') (Hkeeps' : keeps_attempt a a') (Hsettles : settles r r' a')
    (Hrecord : resolved_on_record d' id (d_attempt r) (d_fence r) (d_state r'))
    (Hsends : same_sends_but id (d_attempt r) d d').

Record operator_step (d d' : Db) : Prop := {
  os_moves : forall id, operator_moves id d d';
  os_rows : delivery_rows_ok d -> delivery_rows_ok d';
  os_runs : step d d';
  os_rest : operator_rest d d';
  os_no_new : forall id, runs d !! id = None -> runs d' !! id = None
}.

Lemma same_runs_step d d' :
  runs d' = runs d -> attempts d' = attempts d -> log_grows d d' -> step d d'.
Proof.
  intros Hr Ha Hl. split_and!; [|unfold rows_ok; by rewrite Hr|done].
  intros id. apply stays; [by rewrite Hr|]. intros n. by rewrite Ha.
Qed.

Lemma kept_operator_step d d' : delivery_keeps d d' -> operator_step d d'.
Proof.
  intros [Hd Ha _ _ Hrest]. pose proof (rest_log _ _ Hrest). pose proof (rest_operator_rest _ _ Hrest).
  destruct Hrest. split; [| |by apply same_runs_step|done|by rewrite rest_runs0].
  - intros id. apply operator_leaves; [by rewrite Hd|]. intros n. by rewrite Ha.
  - unfold delivery_rows_ok. by rewrite Hd, Ha.
Qed.

Lemma run_retried_operator_step request run_id n fence reason_json reason_digest next d d' r used :
  run_retried request run_id n fence reason_json reason_digest next d d' r used -> operator_step d d'.
Proof.
  intros Hr. pose proof (run_retried_step _ _ _ _ _ _ _ _ _ _ _ Hr). destruct Hr.
  destruct rr_deliveries0 as (Hd & Ha & _). split; [| |done..|].
  - intros id. apply operator_leaves; [by rewrite Hd|]. intros m. by rewrite Ha.
  - unfold delivery_rows_ok. by rewrite Hd, Ha.
  - intros id Hnone. rewrite rr_runs0, lookup_insert_ne; [done|congruence].
Qed.

Lemma moved_log delivery_id n fence s set d d' r :
  delivery_moved delivery_id n fence s set d d' r ->
  operator_actions d' = operator_actions d /\ log_grows d d'.
Proof.
  intros []. destruct dm_db0 as [t ->]. split; [done|]. split; [done|]. cbn.
  apply map_subseteq_spec. intros k c Hk. unfold consume_actions. rewrite lookup_insert_all; [done|].
  intros Hin%consumed_unused. congruence.
Qed.

Lemma moved_rows_ok delivery_id n fence s set d d' r :
  delivery_moved delivery_id n fence s set d d' r -> delivery_rows_ok d -> delivery_rows_ok d'.
Proof.
  intros [] (Hok & _ & Hoka). split_and!; [|done|].
  - intros id r'. rewrite dm_deliveries0, lookup_insert_Some. intros [[<- <-]|[_ Hr]]; eauto.
  - destruct dm_db0 as [t ->]. done.
Qed.

(** A move away from an unknown outcome used up the one action that says so. *)
Lemma moved_resolution delivery_id n fence set d d' r :
  delivery_moved delivery_id n fence DDeliveryUnknown set d d' r ->
  d_state (set r) <> DDeliveryUnknown ->
  resolved_on_record d' delivery_id n fence (d_state (set r))
  /\ exists used o, consumed d delivery_id r (set r) = [used]
       /\ operator_actions d !! used = Some o /\ authorizes_resolution (set r) o = true
       /\ operator_consumptions d !! used = None.
Proof.
  intros Hm Hne. pose proof (moved_log _ _ _ _ _ _ _ _ Hm) as [Ha _]. destruct Hm.
  destruct dm_at0 as (Hn & Hf & Hs). unfold delivery_update_allowed in dm_allowed0.
  apply andb_true_iff in dm_allowed0 as [Hrest Hauth].
  assert (transition_allowed (d_state r) (d_state (set r)) = true) as Htr.
  { repeat apply andb_true_iff in Hrest as [Hrest ?]. done. }
  assert (length (consumed d delivery_id r (set r)) = 1%nat) as Hone.
  { unfold operator_authority in Hauth. rewrite Hs in Hauth, Htr.
    destruct (d_state (set r)); try done; by apply Nat.eqb_eq in Hauth. }
  destruct (consumed d delivery_id r (set r)) as [|used [|]] eqn:Eu; try done.
  assert (used ∈ open_actions d delivery_id r (authorizes_resolution (set r))) as Hin.
  { unfold consumed in Eu. rewrite Hs in Eu, Htr. destruct (d_state (set r)); try done; rewrite Eu; constructor. }
  pose proof (open_actions_unused _ _ _ _ _ Hin) as Hunused.
  apply list_elem_of_fmap in Hin as ([k o] & -> & [Ho Hw]%elem_of_matching). cbn in Ho, Hw, Hunused.
  apply andb_true_iff in Hw as [Hw Hres]. where_facts.
  split; [|by eauto 10]. eexists k, o, _. split; [by rewrite Ha|].
  split; [destruct dm_db0 as [t ->]; cbn; by rewrite lookup_insert_eq|].
  unfold authorizes_resolution in Hres. destruct (o_evidence_json o) as [evidence|] eqn:Ee;
    [|by rewrite andb_false_r in Hres]. rewrite Hs in Htr. cbn [is_some].
  destruct (d_state (set r)); try done; where_facts; split_and!; try done; cbn; congruence.
Qed.

(** A move of one row, after steps that touch neither deliveries nor runs, is a
    step of that row only. *)
Lemma moved_runs delivery_id n fence s set d d' r :
  delivery_moved delivery_id n fence s set d d' r ->
  runs d' = runs d /\ attempts d' = attempts d /\ delivery_attempts d' = delivery_attempts d
  /\ delivery_baselines d' = delivery_baselines d /\ operator_rest d d'.
Proof. intros []. by destruct dm_db0 as [t ->]. Qed.

Lemma moved_other delivery_id n fence s set d d' r id :
  delivery_moved delivery_id n fence s set d d' r -> id <> delivery_id ->
  deliveries d' !! id = deliveries d !! id.
Proof. intros [] Hne. by rewrite dm_deliveries0, lookup_insert_ne. Qed.

Lemma moved_this delivery_id n fence s set d d' r :
  delivery_moved delivery_id n fence s set d d' r -> deliveries d' !! delivery_id = Some (set r).
Proof. intros []. by rewrite dm_deliveries0, lookup_insert_eq. Qed.

Lemma delivery_retried_operator_step request delivery_id n fence reason_json reason_digest next d d' r :
  delivery_retried request delivery_id n fence reason_json reason_digest next d d' r ->
  operator_step d d'.
Proof.
  intros [Hrec _ Hm]. pose proof (record_grows _ _ _ Hrec) as Hl.
  destruct (moved_log _ _ _ _ _ _ _ _ Hm) as [_ Hl'].
  destruct (moved_runs _ _ _ _ _ _ _ _ Hm) as (Hr & Ha & Hda & _ & Hrest).
  split; [|by apply (moved_rows_ok _ _ _ _ _ _ _ _ Hm)|apply same_runs_step; [done..|by etrans]
         |by destruct Hrest|by rewrite Hr].
  intros id. destruct (decide (id = delivery_id)) as [->|Hne].
  - pose proof (moved_this _ _ _ _ _ _ _ _ Hm). destruct Hm, dm_at0 as (? & ? & ?).
    eapply operator_requeues; [done|done|done|done|by split|]. intros m. by rewrite Hda.
  - apply operator_leaves; [by rewrite (moved_other _ _ _ _ _ _ _ _ id Hm)|]. intros m. by rewrite Hda.
Qed.

Lemma attempt_resolved_rest c delivery_id n fence d d' :
  attempt_resolved c delivery_id n fence d d' ->
  same_rest d d' /\ deliveries d' = deliveries d
  /\ (delivery_rows_ok d -> delivery_rows_ok d')
  /\ (forall key, key <> (delivery_id, n) -> delivery_attempts d' !! key = delivery_attempts d !! key)
  /\ operator_consumptions d' = operator_consumptions d.
Proof.
  unfold attempt_resolved. destruct (bool_decide _); [intros ->; by split_and!|].
  intros (a & Ha & Hf & Hs & Hck & ->). split_and!; try done.
  - intros (Hok & Hu & Hoka). split_and!; try done. intros id m a'. cbn.
    rewrite lookup_insert_Some. intros [[[= <- <-] <-]|[_ Ha']]; eauto.
  - intros key Hne. cbn. by rewrite lookup_insert_ne.
Qed.

Lemma baseline_advanced_rest c delivery_id now r d d' :
  baseline_advanced c delivery_id now r d d' ->
  same_rest d d' /\ deliveries d' = deliveries d /\ delivery_attempts d' = delivery_attempts d
  /\ operator_consumptions d' = operator_consumptions d.
Proof.
  unfold baseline_advanced. destruct (bool_decide _); [|by intros ->].
  by intros (p & identity & version & f & t & _ & _ & _ & _ & _ & ->).
Qed.

Lemma resolution_states action c :
  resolution_columns action = Some c ->
  res_state c = DPending \/ res_state c = DDelivered \/ res_state c = DFailedTerminal.
Proof. destruct action; cbn; intros [= <-]; auto. Qed.

(** The move of the resolved row, and of its attempt unless it is sent again. *)
Lemma resolved_moves request delivery_id n fence action parts d d' r c :
  delivery_resolved request delivery_id n fence action parts d d' r ->
  resolution_columns action = Some c -> operator_moves delivery_id d d'.
Proof.
  intros [] Hc. cbn zeta in ur_effect0. rewrite Hc in ur_effect0.
  destruct ur_effect0 as (d1 & d2 & Hat & Hm & Hadv).
  pose proof (moved_this _ _ _ _ _ _ _ _ Hm) as Hthis.
  destruct (moved_runs _ _ _ _ _ _ _ _ Hm) as (_ & _ & Hda2 & _).
  apply baseline_advanced_rest in Hadv as (Hrest3 & Hd3 & Ha3 & _).
  apply resolution_states in Hc as Hst.
  destruct (moved_resolution _ _ _ _ _ _ _ Hm) as [Hrecord _]; [by cbn; destruct Hst as [-> |[-> | ->]]|].
  apply (resolved_stays_on_record _ d') in Hrecord; [|by apply rest_log].
  rewrite <-Hd3 in Hthis. pose proof (dm_at _ _ _ _ _ _ _ _ Hm) as (Hn & Hf & Hs).
  pose proof (dm_row _ _ _ _ _ _ _ _ Hm) as Hrow1.
  pose proof (dm_allowed _ _ _ _ _ _ _ _ Hm) as Hal. subst n fence.
  pose proof (attempt_resolved_rest _ _ _ _ _ _ Hat) as (_ & Hd1 & _ & Hother & _).
  rewrite Hd1 in Hrow1. cbn in Hrow1. unfold attempt_resolved in Hat.
  destruct (bool_decide _) eqn:E in Hat.
  - apply bool_decide_eq_true in E. subst d1.
    eapply operator_resends; [done|done|done|done|by split|by rewrite <-E|].
    intros m. by rewrite Ha3, Hda2.
  - apply bool_decide_eq_false in E. destruct Hst as [?|Hst]; [done|].
    destruct Hat as (a & Ha & Haf & Has & Hck & ->).
    eapply (operator_settles _ _ _ r _ a (resolve_attempt c a)); try done.
    + by rewrite Ha3, Hda2; cbn; rewrite lookup_insert_eq.
    + unfold settles. cbn. rewrite bool_decide_eq_false_2 by done.
      split_and!; [|by destruct Hst as [-> | ->]|done|done]. by destruct Hst as [-> | ->].
    + intros m Hne. rewrite Ha3, Hda2, Hother; [done|congruence].
Qed.

Lemma delivery_resolved_operator_step request delivery_id n fence action parts d d' r :
  delivery_resolved request delivery_id n fence action parts d d' r -> operator_step d d'.
Proof.
  intros Hres. pose proof (record_grows _ _ _ (ur_recorded _ _ _ _ _ _ _ _ _ Hres)) as Hl.
  pose proof (ur_effect _ _ _ _ _ _ _ _ _ Hres) as He. cbn zeta in He.
  destruct (resolution_columns action) as [c|] eqn:Ec.
  - pose proof (resolved_moves _ _ _ _ _ _ _ _ _ _ Hres Ec) as Hmove.
    destruct He as (d1 & d2 & Hat & Hm & Hadv).
    apply attempt_resolved_rest in Hat as (Hrest1 & Hd1 & Hok1 & Ha1 & _).
    destruct (moved_runs _ _ _ _ _ _ _ _ Hm) as (Hr2 & Hat2 & Ha2 & _ & Hrest2).
    apply baseline_advanced_rest in Hadv as (Hrest3 & Hd3 & Ha3 & _).
    pose proof (rest_runs _ _ Hrest1). pose proof (rest_runs _ _ Hrest3).
    pose proof (rest_attempts _ _ Hrest1). pose proof (rest_attempts _ _ Hrest3).
    assert (runs d' = runs d /\ attempts d' = attempts d) as [Hruns Hatt]
      by (split; (etrans; [done|]; by etrans)).
    split; [| | | |by rewrite Hruns].
    + intros id. destruct (decide (id = delivery_id)) as [->|Hne]; [done|].
      apply operator_leaves.
      * by rewrite Hd3, (moved_other _ _ _ _ _ _ _ _ id Hm), Hd1.
      * intros m. by rewrite Ha3, Ha2, Ha1 by congruence.
    + intros Hok. unfold delivery_rows_ok. rewrite Hd3, Ha3. by eapply moved_rows_ok, Hok1.
    + apply same_runs_step; [done..|]. etrans; [exact Hl|]. etrans; [by apply rest_log|].
      etrans; [by eapply moved_log|by apply rest_log].
    + etrans; [|by apply rest_operator_rest]. etrans; [|done]. by apply rest_operator_rest in Hrest1 as [].
  - rewrite He. split; [intros id; by apply operator_leaves|done|by apply same_runs_step|done..].
Qed.

Lemma operate_step c w : operator_step (db w) (db (operate c w)).
Proof.
  destruct c as [request id n f reason digest next|request id n f reason digest|request id n f action];
    cbn [operate].
  - destruct (operator_retry_scheduled_run _ _ _ _ _ _ _ w) as [x w'] eqn:E.
    apply retry_run_cases in E as [[_ Hw]|(_ & r & used & Hr)]; cbn [snd]; [rewrite Hw|];
      [by apply kept_operator_step|by eapply run_retried_operator_step].
  - destruct (operator_retry_scheduled_delivery _ _ _ _ _ _ w) as [x w'] eqn:E.
    apply retry_delivery_cases in E as [[_ Hw]|(_ & next & r & Hr)]; cbn [snd]; [rewrite Hw|];
      [by apply kept_operator_step|by eapply delivery_retried_operator_step].
  - destruct (operator_act_on_unknown_delivery _ _ _ _ _ w) as [x w'] eqn:E.
    apply act_cases in E as [[_ Hk]|(_ & parts & r & Hr)]; cbn [snd];
      [by apply kept_operator_step|by eapply delivery_resolved_operator_step].
Qed.

(** ** The log *)

Lemma run_retried_used request run_id n fence reason_json reason_digest next d d' r used :
  log_ok d ->
  run_retried request run_id n fence reason_json reason_digest next d d' r used ->
  used = operator_action_id request.
Proof.
  intros Hlog []. destruct (run_retry_unused _ _ _ _ _ rr_used0) as (o & Ho & Hw & Hnone).
  eapply open_is_new in Ho as [-> _]; [done..|]. unfold authorizes_run_retry in Hw. where_facts. congruence.
Qed.

(** The retry's own record authorizes it. *)
Lemma delivery_retried_used request delivery_id n fence reason_json reason_digest next d d' r :
  log_ok d ->
  delivery_retried request delivery_id n fence reason_json reason_digest next d d' r ->
  consumed (record_action request (delivery_retry_action delivery_id n fence reason_json
    reason_digest next) d) delivery_id r (retry_delivery_set next r) = [operator_action_id request].
Proof.
  intros Hlog [[] (policy & p & _ & _ & Hnext) []]. destruct dm_at0 as (Hn & Hf & Hs).
  unfold consumed. rewrite Hs. cbn [retry_delivery_set d_state].
  apply (only_key _ _ (action_row request
    (delivery_retry_action delivery_id n fence reason_json reason_digest next))).
  - cbn. by rewrite lookup_insert_eq.
  - cbn. assert (oq_occurred_at request <= next) as Hle.
    { unfold Policy.delivery_retry_at, i64_checked_add, fits in Hnext. cbn in Hnext. peel Hnext. lia. }
    unfold authorizes_retry. cbn.
    rewrite String.eqb_refl, Hn, Hf, !Z.eqb_refl, (proj2 (Z.leb_le _ _) Hle), andb_true_r.
    destruct (operator_consumptions d !! operator_action_id request) as [c|] eqn:E; [|done].
    destruct (log_recorded _ Hlog (operator_action_id request)) as [o Ho]; [by rewrite E|congruence].
  - intros k o Ho Hw. eapply open_is_new in Ho as [-> _]; [done|done|..]; where_facts.
    + cbn in *. by destruct (operator_consumptions d !! k).
    + unfold authorizes_retry in *. where_facts. congruence.
Qed.

Lemma delivery_resolved_used request x delivery_id n fence set d d0 d1 d2 r :
  log_ok d -> d0 = record_action request x d -> operator_actions d1 = operator_actions d0 ->
  operator_consumptions d1 = operator_consumptions d0 ->
  delivery_moved delivery_id n fence DDeliveryUnknown set d1 d2 r ->
  d_state (set r) <> DDeliveryUnknown ->
  consumed d1 delivery_id r (set r) = [operator_action_id request].
Proof.
  intros Hlog -> Ha Hc Hm Hne.
  destruct (moved_resolution _ _ _ _ _ _ _ Hm Hne) as [_ (used & o & -> & Ho & Hw & Hnone)].
  rewrite Ha in Ho. rewrite Hc in Hnone. f_equal. eapply open_is_new in Ho as [-> _]; [done..|].
  intros E. unfold authorizes_resolution in Hw. rewrite E in Hw.
  destruct (o_evidence_json o), (d_state (set r)); where_facts; done.
Qed.

Lemma moved_consumptions delivery_id n fence s set d d' r used :
  delivery_moved delivery_id n fence s set d d' r -> consumed d delivery_id r (set r) = [used] ->
  operator_consumptions d' = <[used := mkConsumption "delivery" delivery_id (d_updated_at (set r))]>
    (operator_consumptions d).
Proof. intros [] Hu. destruct dm_db0 as [t ->]. cbn. by rewrite Hu. Qed.

Lemma delivery_resolved_actions request delivery_id n fence action parts d d' r :
  delivery_resolved request delivery_id n fence action parts d d' r ->
  operator_actions d' = operator_actions (record_action request
    (unknown_action delivery_id n fence parts (oq_occurred_at request)) d).
Proof.
  intros []. cbn zeta in ur_effect0.
  destruct (resolution_columns action) as [c|] eqn:Ec; [|by rewrite ur_effect0].
  destruct ur_effect0 as (d1 & d2 & Hat & Hm & Hadv).
  apply attempt_resolved_rest in Hat as (Hrest1 & _). apply baseline_advanced_rest in Hadv as (Hrest3 & _).
  pose proof (moved_log _ _ _ _ _ _ _ _ Hm) as [Ha2 _].
  by rewrite (rest_operator_actions _ _ Hrest3), Ha2, (rest_operator_actions _ _ Hrest1).
Qed.

Lemma delivery_resolved_log request delivery_id n fence action parts d d' r :
  log_ok d -> delivery_resolved request delivery_id n fence action parts d d' r ->
  operator_consumptions d' = match resolution_columns action with
      | Some _ => <[operator_action_id request := mkConsumption "delivery" delivery_id
          (oq_occurred_at request)]> (operator_consumptions d)
      | None => operator_consumptions d
      end.
Proof.
  intros Hlog []. cbn zeta in ur_effect0.
  destruct (resolution_columns action) as [c|] eqn:Ec; [|by rewrite ur_effect0].
  destruct ur_effect0 as (d1 & d2 & Hat & Hm & Hadv). apply resolution_states in Ec as Hst.
  apply attempt_resolved_rest in Hat as (Hrest1 & _ & _ & _ & Hc1).
  apply baseline_advanced_rest in Hadv as (Hrest3 & _ & _ & Hc3).
  pose proof (rest_operator_actions _ _ Hrest1) as Ha1.
  assert (consumed d1 delivery_id r (resolve_delivery c (oq_occurred_at request) r)
    = [operator_action_id request]) as Hu.
  { eapply delivery_resolved_used; [done|done|done|done|done|].
    cbn. by destruct Hst as [-> |[-> | ->]]. }
  by rewrite Hc3, (moved_consumptions _ _ _ _ _ _ _ _ _ Hm Hu), Hc1.
Qed.

Lemma acknowledged_name action parts :
  authority_parts action = Ok parts -> resolution_columns action = None ->
  part_action parts = "acknowledge_delivery_unknown".
Proof. destruct action; cbn; intros Hp Hc; try done. ok_facts. by injection Hp as <-. Qed.

Lemma operate_log c w : log_ok (db w) -> log_ok (db (operate c w)).
Proof.
  intros Hlog.
  destruct c as [request id n f reason digest next|request id n f reason digest|request id n f action];
    cbn [operate].
  - destruct (operator_retry_scheduled_run _ _ _ _ _ _ _ w) as [x w'] eqn:E.
    apply retry_run_cases in E as [[_ Hw]|(_ & r & used & Hr)]; cbn [snd]; [by rewrite Hw|].
    pose proof (run_retried_used _ _ _ _ _ _ _ _ _ _ _ Hlog Hr) as ->. destruct Hr.
    eapply log_entry_ok; [done..|by left].
  - destruct (operator_retry_scheduled_delivery _ _ _ _ _ _ w) as [x w'] eqn:E.
    apply retry_delivery_cases in E as [[_ Hw]|(_ & next & r & Hr)]; cbn [snd]; [by rewrite Hw|].
    pose proof (delivery_retried_used _ _ _ _ _ _ _ _ _ _ Hlog Hr) as Hu. destruct Hr as [Hrec _ Hm].
    eapply log_entry_ok; [done|done|by eapply moved_log|left].
    by rewrite (moved_consumptions _ _ _ _ _ _ _ _ _ Hm Hu).
  - destruct (operator_act_on_unknown_delivery _ _ _ _ _ w) as [x w'] eqn:E.
    apply act_cases in E as [[_ Hk]|(_ & parts & r & Hr)]; cbn [snd].
    + destruct Hk as [_ _ _ Hc []], Hlog. by split; rewrite ?Hc, ?rest_operator_actions0.
    + pose proof (delivery_resolved_log _ _ _ _ _ _ _ _ _ Hlog Hr) as Hc.
      pose proof (delivery_resolved_actions _ _ _ _ _ _ _ _ _ Hr) as Ha.
      eapply log_entry_ok; [by destruct Hr|done..|].
      destruct (resolution_columns action) eqn:Ec; [by left|right].
      split; [done|]. by apply (acknowledged_name action), Ec; destruct Hr.
Qed.

(** ** Consistency *)

Lemma operator_moves_agree id d d' r' :
  operator_moves id d d' -> log_grows d d' ->
  (forall r, deliveries d !! id = Some r -> delivery_agrees id d r) ->
  deliveries d' !! id = Some r' -> delivery_agrees id d' r'.
Proof.
  intros Hm Hl Hd Hr'. destruct Hm; try (rewrite Hr' in Hrow'; injection Hrow' as <-).
  - apply (agrees_ext id d); [done..|]. apply Hd. by rewrite <-Hrow.
  - apply (agrees_kept id d' r); [done|by rewrite Hstate'| |by apply (agrees_ext id d); auto].
    intros a _. unfold current_agrees. rewrite Hstate, Hstate'. intros [? _]. by left.
  - apply (agrees_kept id d' r); [done|by rewrite Hstate'| |by apply (agrees_ext id d); auto].
    intros a Hf. unfold current_agrees. rewrite Hstate, Hstate'. intros [? _]. right.
    split; [done|]. by rewrite Hf, (kept_attempt _ _ Hkeeps).
  - apply (rewritten_agrees id d d' r r' a a'); auto; [by rewrite Hstate|].
    apply settled_current; [by rewrite Hstate|done..].
Qed.

Lemma operator_moves_back id d d' r' :
  operator_moves id d d' -> deliveries d' !! id = Some r' ->
  exists r, deliveries d !! id = Some r /\ d_intent r' = d_intent r.
Proof.
  intros [] Hr'; simplify_eq; [|eexists; split; [done|by apply kept_intent]..].
  exists r'. by rewrite <-Hrow.
Qed.

Lemma operator_step_consistent d d' :
  deliveries_consistent d -> operator_step d d' -> deliveries_consistent d'.
Proof.
  intros [] [Hm Hrows (_ & _ & Hl) _ _]. split; [by auto|..].
  - intros id r' Hr'. eapply operator_moves_agree; eauto.
  - intros id n a' Ha'. destruct (Hm id); eauto. rewrite Hrow. eapply dcon_owned0. by rewrite <-Hsends.
  - intros id id' r r' Hr Hr' Hne.
    destruct (operator_moves_back id d d' r) as (r0 & Hr0 & ->); [by auto..|].
    destruct (operator_moves_back id' d d' r') as (r0' & Hr0' & Hi); [by auto..|].
    unfold intent_collides. cbn. rewrite Hi. by apply (dcon_distinct0 id id' r0 r0').
Qed.

Lemma operator_step_delivery d d' id r :
  operator_step d d' -> deliveries d !! id = Some r ->
  exists r', deliveries d' !! id = Some r'
    /\ (r' = r
        \/ keeps_delivery r r'
           /\ (d_state r = DFailedRetryable
               \/ d_state r = DDeliveryUnknown
                  /\ resolved_on_record d' id (d_attempt r) (d_fence r) (d_state r'))).
Proof.
  intros [Hm _ _ _ _] Hr. destruct (Hm id); simplify_eq; [exists r; rewrite Hrow; auto|..];
    (exists r'; split; [done|]; right; split; [done|]); auto. right. by rewrite Hstate'.
Qed.

End Effects.

End OperatorLifecycle.
