(* ===== verification/JobLifecycle.v ===== *)
(** * What the job transactions do (crates/state/src/scheduler/store.rs)

    The exact effect of every job mutation and of a materialization, and the
    abstract machine of one job they are steps of: a job appears active at
    generation zero, every mutation moves it and its schedule to the next
    generation, due occurrences advance its schedule or complete it, and a
    deleted job stays deleted. *)

From stdpp Require Import base tactics list strings numbers pretty gmap relations.
From Stdlib Require Import ZArith Lia Ascii.
From S2P Require Import Prelude.
From S2P Require Import Policy.
From S2P Require Import Schedule.
From S2P Require Import Json.
From S2P Require Import Digest.
From S2P Require Import Capability.
From S2P Require Import Authority.
From S2P Require Import Tables.
From S2P Require Import Runs.
From S2P Require Import Completion.
From S2P Require Import Lifecycle.
From S2P Require Import RunSafety.
From S2P Require Import DeliveryTables.
From S2P Require Import Deliveries.
From S2P Require Import JobTables.
From S2P Require Import Jobs.
Import Digest.

Module JobLifecycle.
Import Schedule Snapshot Authority Tables Runs Completion Lifecycle RunSafety JobTables Jobs.

(** ** The abstract machine of one job *)

(** The statuses a mutation moves a job between. *)
Definition may_become (s s' : ScheduledJobStatus) : Prop :=
  (is_open s = true /\ is_open s' = true) \/ (s <> Deleted /\ s' = Deleted).

Record keeps_identity (j j' : Job) : Prop := {
  kept_creator : j_creator j' = j_creator j;
  kept_owner : j_owner j' = j_owner j;
  kept_created_at : j_created_at j' = j_created_at j
}.

(** What a mutation does to the schedule of a job whose new status is [s']. *)
Record mutated_schedule (s' : ScheduledJobStatus) (h h' : ScheduleRow) : Prop := {
  ms_schedule_id : h_schedule_id h' = h_schedule_id h;
  ms_generation : h_generation h' = h_generation h + 1;
  ms_next : s' = Active -> is_Some (h_next_run_at h')
}.

Inductive job_moves (id : string) (d d' : Db) : Prop :=
| job_stays
    (Hjob : jobs d' !! id = jobs d !! id) (Hschedule : schedules d' !! id = schedules d !! id)
| job_appears j h
    (Hjob : jobs d !! id = None) (Hschedule : schedules d !! id = None)
    (Hjob' : jobs d' !! id = Some j) (Hschedule' : schedules d' !! id = Some h)
    (Hstatus : j_status j = Active) (Hgeneration : j_generation j = 0)
    (Hschedule_generation : h_generation h = 0) (Hnext : is_Some (h_next_run_at h))
| job_mutates j j' f
    (Hjob : jobs d !! id = Some j) (Hjob' : jobs d' !! id = Some j')
    (Hschedule : schedules d' !! id = f <$> schedules d !! id)
    (Hidentity : keeps_identity j j') (Hgeneration : j_generation j' = j_generation j + 1)
    (Hstatus : may_become (j_status j) (j_status j'))
    (Hf : forall h, mutated_schedule (j_status j') h (f h))
| job_advances j h next now
    (Hjob : jobs d !! id = Some j) (Hjob' : jobs d' !! id = Some j) (Hstatus : j_status j = Active)
    (Hschedule : schedules d !! id = Some h)
    (Hschedule' : schedules d' !! id = Some (with_next_run (Some next) now h))
| job_completes j h now
    (Hjob : jobs d !! id = Some j) (Hstatus : j_status j = Active)
    (Hjob' : jobs d' !! id = Some (completed_job now j))
    (Hschedule : schedules d !! id = Some h)
    (Hschedule' : schedules d' !! id = Some (with_next_run None now h)).

(** What a run that appears was frozen from: its job was active, and the
    occurrence was the next one of its schedule. *)
Record frozen_from (r : Run) (j : Job) (h : ScheduleRow) : Prop := {
  fz_active : j_status j = Active;
  fz_due : h_next_run_at h = Some (s_scheduled_for (r_snapshot r));
  fz_schedule : s_schedule_id (r_snapshot r) = h_schedule_id h;
  fz_generation : s_job_generation (r_snapshot r) = j_generation j;
  fz_schedule_generation : s_schedule_generation (r_snapshot r) = h_generation h;
  fz_definition : s_definition_json (r_snapshot r) = j_definition_json j;
  fz_capability : s_capability_json (r_snapshot r) = j_capability_json j;
  fz_capability_digest : s_capability_digest (r_snapshot r) = j_capability_digest j;
  fz_policy : s_scheduler_policy_json (r_snapshot r) = j_scheduler_policy_json j
}.

(** What no job transaction touches. *)
Record job_rest (d d' : Db) : Prop := {
  jr_late_evidence : late_evidence d' = late_evidence d;
  jr_artifacts : artifacts d' = artifacts d;
  jr_deliveries : deliveries d' = deliveries d;
  jr_delivery_attempts : delivery_attempts d' = delivery_attempts d;
  jr_delivery_baselines : delivery_baselines d' = delivery_baselines d;
  jr_operator_actions : operator_actions d' = operator_actions d;
  jr_operator_consumptions : operator_consumptions d' = operator_consumptions d;
  jr_epoch : epoch d' = epoch d
}.

(** No operator action was recorded or used. *)
Definition same_log (d d' : Db) : Prop :=
  operator_actions d' = operator_actions d /\ operator_consumptions d' = operator_consumptions d.

Lemma same_log_grows d d' : same_log d d' -> log_grows d d'.
Proof. intros [Ha Hc]. unfold log_grows. by rewrite Ha, Hc. Qed.

#[export] Instance job_rest_preorder : PreOrder job_rest.
Proof. split; [by split|]. intros d d1 d2 [] []. split; congruence. Qed.

(** The tables that carry authority are the same: counters, cursors,
    idempotency records and the audit may differ. *)
Record same_tables (d d' : Db) : Prop := {
  st_rest : job_rest d d';
  st_runs : runs d' = runs d;
  st_attempts : attempts d' = attempts d;
  st_jobs : jobs d' = jobs d;
  st_schedules : schedules d' = schedules d;
  st_targets : job_targets d' = job_targets d;
  st_baselines : baselines d' = baselines d
}.

#[export] Instance same_tables_preorder : PreOrder same_tables.
Proof.
  split; [by split|]. intros d d1 d2 [] []. split; [by etrans|congruence..].
Qed.

(** An idempotency record that was completed is never written again. *)
Definition records_stay (d d' : Db) : Prop :=
  forall key k, idempotency_keys d !! key = Some k -> k_status k = "completed" ->
    idempotency_keys d' !! key = Some k.

#[export] Instance records_stay_preorder : PreOrder records_stay.
Proof. split; [by intros ? ? ?|]. intros d d1 d2 H1 H2 key k Hk Hs. eauto. Qed.

Section Steps.
Context `{Calendar} `{Serde} `{Sha2} `{Sqlite}.

(** The constraints the database checks by itself. *)
Definition job_rows_ok (d : Db) : Prop :=
  (forall id j, jobs d !! id = Some j -> job_checks id j = true)
  /\ (forall id h, schedules d !! id = Some h -> schedule_checks h = true).

Record job_step (d d' : Db) : Prop := {
  js_moves : forall id, job_moves id d d';
  js_rows : job_rows_ok d -> job_rows_ok d';
  js_runs : forall id r, runs d' !! id = Some r -> runs d !! id = None ->
    exists j h, jobs d !! s_job_id (r_snapshot r) = Some j
      /\ schedules d !! s_job_id (r_snapshot r) = Some h /\ frozen_from r j h;
  js_steps : rtc step d d'
}.

(** ** Statements *)

Lemma alter_rows job (set : ScheduleRow -> ScheduleRow) (t : gmap string ScheduleRow) :
  update_rows (fun id _ => String.eqb id job) set t = alter set job t.
Proof.
  apply map_eq. intros id. rewrite lookup_update_rows.
  destruct (String.eqb_spec id job) as [->|Hne].
  - by rewrite lookup_alter_eq.
  - rewrite lookup_alter_ne by done. by destruct (t !! id).
Qed.

Lemma insert_job_ok id j w u w' :
  insert_job id j w = (Ok u, w') ->
  jobs (db w) !! id = None /\ job_checks id j = true
  /\ db w' = with_jobs (db w) (<[id := j]> (jobs (db w))).
Proof.
  intros Hi%sql_ok. destruct (_ && _) eqn:E; [|done]. injection Hi as <-. bool_facts.
  split_and!; try done. by destruct (jobs (db w) !! id).
Qed.

Lemma insert_schedule_ok id h w u w' :
  insert_schedule id h w = (Ok u, w') ->
  schedules (db w) !! id = None /\ schedule_checks h = true
  /\ db w' = with_schedules (db w) (<[id := h]> (schedules (db w))).
Proof.
  intros Hi%sql_ok. destruct (_ && _) eqn:E; [|done]. injection Hi as <-. bool_facts.
  split_and!; try done. by destruct (schedules (db w) !! id).
Qed.

Lemma insert_baseline_ok id w u w' :
  insert_baseline id w = (Ok u, w') ->
  baselines (db w) !! id = None
  /\ db w' = with_baselines (db w) (<[id := mkBaseline 0 None]> (baselines (db w))).
Proof.
  intros Hi%sql_ok. destruct (_ && _) eqn:E; [|done]. injection Hi as <-. bool_facts.
  split; [|done]. by destruct (baselines (db w) !! id).
Qed.

(** An update of a job by its key rewrites that row, or none. *)
Lemma update_jobs_ok job where_ set w n w' :
  (forall id j, where_ id j = true -> id = job) ->
  update_jobs where_ set w = (Ok n, w') ->
  (n = 0 /\ db w' = db w /\ forall j, jobs (db w) !! job = Some j -> where_ job j = false)
  \/ exists j, n = 1 /\ jobs (db w) !! job = Some j /\ where_ job j = true
       /\ job_checks job (set j) = true
       /\ db w' = with_jobs (db w) (<[job := set j]> (jobs (db w))).
Proof.
  intros Hkey Hu%sql_ok. cbn zeta in Hu. destruct (forallb _ _) eqn:E; [|done]. injection Hu as <- Hw'.
  destruct (matching_key where_ (jobs (db w)) job Hkey) as [Hnil|Hone].
  - left. rewrite Hnil. split_and!; [done| |].
    + rewrite <-Hw', (update_rows_none _ _ _ Hnil). by destruct (db w).
    + intros j Hj. destruct (where_ job j) eqn:Hw; [|done].
      assert ((job, j) ∈ matching where_ (jobs (db w))) as Hin by by apply elem_of_matching.
      rewrite Hnil in Hin. by apply elem_of_nil in Hin.
  - right. destruct (update_rows_one where_ set _ _ Hkey Hone) as (j & Hj & Hw & Hup).
    exists j. rewrite Hup in Hw'. split_and!; try done.
    rewrite List.forallb_forall in E. specialize (E (job, j)).
    rewrite <-list_elem_of_In, elem_of_matching in E. by apply E.
Qed.

Lemma update_schedules_ok job set w n w' :
  update_schedules (fun _ id _ => String.eqb id job) set w = (Ok n, w') ->
  db w' = with_schedules (db w) (alter set job (schedules (db w)))
  /\ forall h, schedules (db w) !! job = Some h -> schedule_checks (set h) = true.
Proof.
  intros Hu%sql_ok. cbn zeta in Hu. destruct (forallb _ _) eqn:E; [|done]. injection Hu as _ <-.
  split; [by rewrite alter_rows|]. intros h Hh. rewrite List.forallb_forall in E.
  specialize (E (job, h)). rewrite <-list_elem_of_In, elem_of_matching in E. apply E.
  by rewrite String.eqb_refl.
Qed.

(** The targets of [job] are the ones given, in their order; all others stay. *)
Definition targets_replaced (job : string) (targets : list DeliveryTargetSnapshot)
    (old new : gmap string JobTarget) : Prop :=
  forall id t, new !! id = Some t <->
    (old !! id = Some t /\ t_job_id t <> job)
    \/ exists n s, targets !! n = Some s /\ id = dt_target_id s
         /\ t = target_row job (Z.of_nat n) s.

Lemma insert_target_ok id t w u w' :
  insert_target id t w = (Ok u, w') ->
  job_targets (db w) !! id = None
  /\ db w' = with_job_targets (db w) (<[id := t]> (job_targets (db w))).
Proof.
  intros Hi%sql_ok. destruct (_ && _) eqn:E; [|done]. injection Hi as <-. bool_facts.
  split; [|done]. destruct (job_targets (db w) !! id) as [t'|] eqn:Ht; [|done].
  match goal with HF : existsb _ _ = false |- _ => rewrite <-not_true_iff_false in HF;
    contradict HF end.
  apply existsb_exists. exists (id, t'). rewrite <-list_elem_of_In, elem_of_map_to_list.
  split; [done|]. unfold target_collides. cbn [fst snd]. by rewrite String.eqb_refl.
Qed.

Lemma insert_targets_ok job targets : forall m w u w',
  insert_targets job (Z.of_nat m) targets w = (Ok u, w') ->
  exists new, db w' = with_job_targets (db w) new
    /\ forall id t, new !! id = Some t <->
         job_targets (db w) !! id = Some t
         \/ exists n s, targets !! n = Some s /\ id = dt_target_id s
              /\ t = target_row job (Z.of_nat (m + n)) s.
Proof.
  induction targets as [|s targets IH]; intros m w u w' Hi; cbn [insert_targets] in Hi.
  { tx_step Hi. exists (job_targets (db w')). split; [by destruct (db w')|].
    intros id t. split; [by left|]. intros [?|(n & s & Hn & _)]; [done|]. by rewrite lookup_nil in Hn. }
  apply bind_ok in Hi as (u1 & w1 & (Hnew & Hw1)%insert_target_ok & Hi).
  replace (Z.of_nat m + 1) with (Z.of_nat (S m)) in Hi by lia.
  apply IH in Hi as (new & Hw' & Hspec). exists new. split; [by rewrite Hw', Hw1|].
  intros id t. rewrite Hspec, Hw1. cbn [job_targets with_job_targets]. split.
  - intros [Ht|(n & s' & Hn & -> & ->)].
    + apply lookup_insert_Some in Ht as [[<- <-]|[_ Ht]]; [|by left].
      right. exists 0%nat, s. rewrite Nat.add_0_r. done.
    + right. exists (S n), s'. rewrite Nat.add_succ_r. done.
  - intros [Ht|([|n] & s' & Hn & -> & ->)].
    + left. rewrite lookup_insert_ne; [done|]. congruence.
    + injection Hn as ->. left. rewrite Nat.add_0_r. by rewrite lookup_insert_eq.
    + right. exists n, s'. rewrite Nat.add_succ_r. done.
Qed.

Lemma replace_targets_ok job targets w u w' :
  replace_delivery_targets job targets w = (Ok u, w') ->
  exists new, db w' = with_job_targets (db w) new
    /\ targets_replaced job targets (job_targets (db w)) new.
Proof.
  intros (u1 & w1 & Hd%sql_ok & Hi)%bind_ok. injection Hd as _ Hw1.
  apply (insert_targets_ok _ _ 0) in Hi as (new & Hw' & Hspec).
  exists new. rewrite <-Hw1 in *. split; [done|]. intros id t. rewrite Hspec. cbn.
  rewrite map_lookup_filter_Some. done.
Qed.

Lemma lock_ok now w u w' :
  acquire_scheduler_policy_lock now w = (Ok u, w') ->
  db w' = with_policy_lock (db w) (Some now).
Proof.
  intros (b & w1 & Hl%sql_ok & Hf)%bind_ok. destruct b; tx_step Hf.
  destruct (policy_lock (db w)); [|done]. by injection Hl.
Qed.

Lemma limits_ok policy owner excluded w u w' :
  enforce_active_job_limits policy owner excluded w = (Ok u, w') ->
  db w' = db w
  /\ active_jobs excluded (db w) < Policy.max_active_jobs policy
  /\ active_jobs_of owner excluded (db w) < Policy.max_active_jobs_per_owner policy.
Proof.
  intros (n & w1 & [-> Hw1]%query_ok & Hf)%bind_ok. destruct (_ >=? _) eqn:E1; [by tx_step Hf|].
  apply bind_ok in Hf as (m & w2 & [-> Hw2]%query_ok & Hf).
  destruct (_ >=? Policy.max_active_jobs_per_owner _) eqn:E2; tx_step Hf. rewrite Hw1 in *. split; [done|]. lia.
Qed.

Lemma owner_row_ok j owner : owner_from_row j = Ok owner -> owner = j_owner j.
Proof.
  unfold owner_from_row, principal_new. destruct (j_owner j) as [k p t u]. cbn [pk_kind pk_provider pk_tenant pk_subject].
  destruct (principal_validate _); [|done]. by intros [= <-].
Qed.

(** ** What a mutation does *)

(** Runs of the superseded generation that have not started are cancelled. *)
Record cancelled (job : string) (generation now : Z) (d d' : Db) : Prop := {
  can_runs : runs d' = update_rows (fun _ r => of_generation job generation r
      && match r_state r with Pending | Leased => true | _ => false end) (cancel_run now) (runs d);
  can_checks : forall id r, runs d !! id = Some r -> of_generation job generation r = true ->
    r_state r = Pending \/ r_state r = Leased -> run_checks (cancel_run now r) = true;
  can_step : step d d'
}.

Lemma cancel_ok job generation now w u w' :
  cancel_pre_execution_runs job generation now w = (Ok u, w') ->
  cancelled job generation now (db w) (db w') /\ same_others (db w) (db w').
Proof.
  intros Hc. pose proof (cancel_step _ _ _ _ _ _ Hc) as Hstep.
  apply bind_ok in Hc as (n & w1 & [-> Hd1]%query_ok & Hf).
  apply bind_ok in Hf as (m & w2 & Hm & Hf).
  apply sql_ok, attempts_updated_ok in Hm as (-> & Ha2 & Hr2 & Ho2).
  destruct (_ =? _) eqn:E; cbn [negb] in Hf; [|by tx_step Hf].
  apply bind_ok in Hf as (k & w3 & Hk & Hf). tx_step Hf.
  apply sql_ok, runs_updated_ok in Hk as (_ & Hr3 & _ & Ho3 & _ & Hc). rewrite Hd1 in *.
  split; [split; [by rewrite Hr3, Hr2| |done]|by etrans].
  intros id r Hr Hof Hst. apply (Hc id); [by rewrite Hr2|]. rewrite Hof. by destruct Hst as [->| ->].
Qed.

Record created (request : CreateScheduledJob) (policy : Policy.SchedulerOperationalPolicy)
    (d d' : Db) (next : Z) (policy_json : string) (proof : CadenceProofArtifact) : Prop := {
  cre_valid : validate_create_request request policy false = Ok next;
  cre_policy : scheduler_policy_json policy = Ok policy_json;
  cre_verified : exists p, scheduler_policy_from_snapshot 1 policy_json = Ok p
    /\ proof_verify proof (cr_schedule request) p = Ok tt;
  cre_global : active_jobs None d < Policy.max_active_jobs policy;
  cre_owned : active_jobs_of (cr_owner request) None d < Policy.max_active_jobs_per_owner policy;
  cre_fresh : jobs d !! cr_job_id request = None /\ schedules d !! cr_job_id request = None
    /\ baselines d !! cr_job_id request = None;
  cre_jobs : jobs d' = <[cr_job_id request := created_job request policy_json]> (jobs d);
  cre_schedules : schedules d' = <[cr_job_id request := schedule_row (cr_schedule_id request)
    (cr_schedule request) 0 (Some next) proof (cr_now request) (cr_now request)]> (schedules d);
  cre_targets : targets_replaced (cr_job_id request) (cr_targets request) (job_targets d)
    (job_targets d');
  cre_baselines : baselines d' = <[cr_job_id request := mkBaseline 0 None]> (baselines d);
  cre_runs : runs d' = runs d /\ attempts d' = attempts d /\ same_log d d';
  cre_job_checks : job_checks (cr_job_id request) (created_job request policy_json) = true;
  cre_schedule_checks : schedule_checks (schedule_row (cr_schedule_id request)
    (cr_schedule request) 0 (Some next) proof (cr_now request) (cr_now request)) = true
}.

(** The schedule row an update writes. *)
Definition updated_schedule (request : UpdateScheduledJob) (next : option Z)
    (proof : CadenceProofArtifact) (h : ScheduleRow) : ScheduleRow :=
  schedule_row (h_schedule_id h) (up_schedule request) (h_generation h + 1) next proof
    (h_created_at h) (up_now request).

Record updated (request : UpdateScheduledJob) (policy : Policy.SchedulerOperationalPolicy)
    (d d' : Db) (j : Job) (next : option Z) (policy_json : string) (proof : CadenceProofArtifact) :
    Prop := {
  upd_policy : scheduler_policy_json policy = Ok policy_json;
  upd_verified : proof_verify proof (up_schedule request) policy = Ok tt;
  upd_job : jobs d !! up_job_id request = Some j;
  upd_generation : j_generation j = up_expected_generation request;
  upd_open : is_open (j_status j) = true;
  upd_next : match next with
    | Some n => j_status j = Active
        /\ first_after_create (up_schedule request) (up_now request) = Ok n
        /\ active_jobs (Some (up_job_id request)) d < Policy.max_active_jobs policy
        /\ active_jobs_of (j_owner j) (Some (up_job_id request)) d
           < Policy.max_active_jobs_per_owner policy
    | None => j_status j = Paused
    end;
  upd_jobs : jobs d' = <[up_job_id request := updated_job request policy_json j]> (jobs d);
  upd_schedules : schedules d'
    = alter (updated_schedule request next proof) (up_job_id request) (schedules d);
  upd_targets : targets_replaced (up_job_id request) (up_targets request) (job_targets d)
    (job_targets d');
  upd_baselines : baselines d' = baselines d;
  upd_cursors : transition_cursors d' = delete (up_job_id request) (transition_cursors d);
  upd_cancelled : cancelled (up_job_id request) (up_expected_generation request) (up_now request)
    d d';
  upd_job_checks : job_checks (up_job_id request) (updated_job request policy_json j) = true;
  upd_schedule_checks : forall h, schedules d !! up_job_id request = Some h ->
    schedule_checks (updated_schedule request next proof h) = true
}.

(** The time a job that becomes [status] is deleted at. *)
Definition deletion_time (status : ScheduledJobStatus) (now : Z) : option Z :=
  if bool_decide (status = Deleted) then Some now else None.

Record inactivated (job : string) (generation : Z) (status : ScheduledJobStatus) (now : Z)
    (d d' : Db) (j : Job) : Prop := {
  ina_job : jobs d !! job = Some j;
  ina_generation : j_generation j = generation;
  ina_status : is_open (j_status j) = true \/ (status = Deleted /\ j_status j = Completed);
  ina_jobs : jobs d' = <[job := with_status status (deletion_time status now) None now j]> (jobs d);
  ina_schedules : schedules d' = alter (next_schedule_generation now) job (schedules d);
  ina_targets : job_targets d' = job_targets d;
  ina_baselines : baselines d' = baselines d;
  ina_cancelled : cancelled job generation now d d';
  ina_job_checks : job_checks job (with_status status (deletion_time status now) None now j) = true;
  ina_schedule_checks : forall h, schedules d !! job = Some h ->
    schedule_checks (next_schedule_generation now h) = true
}.

Record resumed (job : string) (generation now : Z) (policy : Policy.SchedulerOperationalPolicy)
    (d d' : Db) (j : Job) (h : ScheduleRow) (schedule : ScheduleSpec) (next : Z)
    (policy_json : string) (proof : CadenceProofArtifact) : Prop := {
  res_policy : scheduler_policy_json policy = Ok policy_json;
  res_job : jobs d !! job = Some j;
  res_schedule : schedules d !! job = Some h;
  res_generation : j_generation j = generation;
  res_paused : j_status j = Paused;
  res_spec : schedule_from_row h = Ok schedule;
  res_verified : proof_verify proof schedule policy = Ok tt;
  res_next : next_after schedule now = Ok next;
  res_global : active_jobs None d < Policy.max_active_jobs policy;
  res_owned : active_jobs_of (j_owner j) None d < Policy.max_active_jobs_per_owner policy;
  res_jobs : jobs d' = <[job := with_status Active (j_deleted_at j) (Some policy_json) now j]>
    (jobs d);
  res_schedules : schedules d' = <[job := resumed_schedule next proof now h]> (schedules d);
  res_targets : job_targets d' = job_targets d;
  res_baselines : baselines d' = baselines d;
  res_runs : runs d' = runs d /\ attempts d' = attempts d /\ same_log d d';
  res_job_checks : job_checks job (with_status Active (j_deleted_at j) (Some policy_json) now j)
    = true;
  res_schedule_checks : schedule_checks (resumed_schedule next proof now h) = true
}.

(** What each mutation, once committed, did to the tables. *)
Inductive mutated (policy : Policy.SchedulerOperationalPolicy) (d d' : Db) :
    ScheduledJobMutation -> Prop :=
| did_create request next policy_json proof
    (Hdid : created request policy d d' next policy_json proof) :
    mutated policy d d' (MutCreate request)
| did_update request j next policy_json proof
    (Hdid : updated request policy d d' j next policy_json proof) :
    mutated policy d d' (MutUpdate request)
| did_pause job generation now j (Hdid : inactivated job generation Paused now d d' j) :
    mutated policy d d' (MutPause job generation now)
| did_resume job generation now j h schedule next policy_json proof
    (Hdid : resumed job generation now policy d d' j h schedule next policy_json proof) :
    mutated policy d d' (MutResume job generation now)
| did_delete job generation now j (Hdid : inactivated job generation Deleted now d d' j) :
    mutated policy d d' (MutDelete job generation now).

Lemma insert_scheduled_job_ok request policy next policy_json proof w w1 w2 u1 u2 u w' :
  validate_create_request request policy false = Ok next ->
  scheduler_policy_json policy = Ok policy_json ->
  acquire_scheduler_policy_lock (cr_now request) w = (Ok u1, w1) ->
  enforce_active_job_limits policy (cr_owner request) None w1 = (Ok u2, w2) ->
  insert_scheduled_job request next policy_json proof w2 = (Ok u, w') ->
  created request policy (db w) (db w') next policy_json proof.
Proof.
  intros Hv Hp Hw1%lock_ok (Hw2 & Hg & Ho)%limits_ok Hi.
  apply bind_ok in Hi as (p & w3 & [Hsnap <-]%lift_ok & Hi).
  apply bind_ok in Hi as ([] & w3 & [Hver <-]%lift_ok & Hi).
  apply bind_ok in Hi as (u3 & w3 & (Hj & Hjc & Hw3)%insert_job_ok & Hi).
  apply bind_ok in Hi as (u4 & w4 & (Hs & Hsc & Hw4)%insert_schedule_ok & Hi).
  apply bind_ok in Hi as (u5 & w5 & (new & Hw5 & Hnew)%replace_targets_ok & Hi).
  apply insert_baseline_ok in Hi as (Hb & Hw6).
  rewrite Hw2, Hw1 in *. rewrite Hw6, Hw5, Hw4, Hw3 in *. cbn in *.
  split; cbn; try done; by eauto.
Qed.

Lemma at_generation_facts job generation id j :
  at_generation job generation id j = true -> id = job /\ j_generation j = generation.
Proof. unfold at_generation. intros Ha. where_facts. done. Qed.

(** A guarded update of a job, whose count the code checks. *)
Lemma update_one_ok job generation (guard : Job -> bool) set w n w' :
  update_jobs (fun id j => at_generation job generation id j && guard j) set w = (Ok n, w') ->
  n = 1 ->
  exists j, jobs (db w) !! job = Some j /\ j_generation j = generation /\ guard j = true
    /\ job_checks job (set j) = true
    /\ db w' = with_jobs (db w) (<[job := set j]> (jobs (db w))).
Proof.
  intros Hu Hn.
  apply (update_jobs_ok job) in Hu as [(-> & _)|(j & _ & Hj & Hw & Hc & Hd)]; [done| |].
  - apply andb_true_iff in Hw as [(_ & ?)%at_generation_facts ?]. eauto 10.
  - intros id j [(? & _)%at_generation_facts _]%andb_true_iff. done.
Qed.

(** One that was selected in the same transaction. *)
Lemma update_selected_ok job generation (guard : Job -> bool) set w n w' j :
  update_jobs (fun id j => at_generation job generation id j && guard j) set w = (Ok n, w') ->
  jobs (db w) !! job = Some j -> j_generation j = generation -> guard j = true ->
  job_checks job (set j) = true
  /\ db w' = with_jobs (db w) (<[job := set j]> (jobs (db w))).
Proof.
  intros Hu Hj Hg Hguard.
  apply (update_jobs_ok job) in Hu as [(_ & _ & Hno)|(j' & _ & Hj' & _ & Hc & Hd)].
  - specialize (Hno j Hj). unfold at_generation in Hno.
    by rewrite String.eqb_refl, Hg, Z.eqb_refl, Hguard in Hno.
  - by simplify_eq.
  - intros id j0 [(? & _)%at_generation_facts _]%andb_true_iff. done.
Qed.

(** The rows a mutation of a job changes besides the job, as the cancellation
    leaves them. *)
Lemma same_others_jobs d d1 t : same_others (with_jobs d t) d1 ->
  jobs d1 = t /\ schedules d1 = schedules d /\ job_targets d1 = job_targets d
  /\ baselines d1 = baselines d /\ transition_cursors d1 = transition_cursors d.
Proof. by intros []. Qed.

Lemma moves_ext id d d' d1 d1' :
  runs d1 = runs d -> attempts d1 = attempts d -> runs d1' = runs d' -> attempts d1' = attempts d' ->
  same_log d' d1' -> moves id d d' -> moves id d1 d1'.
Proof.
  intros Hr Ha Hr' Ha' Hlog%same_log_grows Hm.
  assert (forall n, attempts d1 !! (id, n) = attempts d !! (id, n)) as E by (intros; by rewrite Ha).
  assert (forall n, attempts d1' !! (id, n) = attempts d' !! (id, n)) as E' by (intros; by rewrite Ha').
  destruct Hm;
    [eapply stays | eapply appears | eapply is_noted | eapply stops_waiting | eapply is_revived
    | eapply is_claimed | eapply is_reported]; unfold same_attempts, same_attempts_but in *;
    rewrite ?Hr, ?Hr', ?Ha, ?Ha'; eauto using retry_stays_on_record.
Qed.

Lemma step_ext d d' d1 d1' :
  runs d1 = runs d -> attempts d1 = attempts d -> runs d1' = runs d' -> attempts d1' = attempts d' ->
  same_log d d1 -> same_log d' d1' -> step d d' -> step d1 d1'.
Proof.
  intros Hr Ha Hr' Ha' [Hl Hl'] Hlog (Hm & Hrows & Hgrows).
  split_and!; [intros id; by eapply moves_ext| |].
  - unfold rows_ok in *. by rewrite Hr, Hr'.
  - etrans; [|by apply same_log_grows]. etrans; [|exact Hgrows]. by apply same_log_grows.
Qed.

Lemma cancelled_ext job generation now d d' d1 d1' :
  runs d1 = runs d -> attempts d1 = attempts d -> runs d1' = runs d' -> attempts d1' = attempts d' ->
  same_log d d1 -> same_log d' d1' ->
  cancelled job generation now d d' -> cancelled job generation now d1 d1'.
Proof.
  intros Hr Ha Hr' Ha' Hl Hl' [Hc Hk Hs].
  split; [by rewrite Hr', Hr|by rewrite Hr|by eapply step_ext].
Qed.

Lemma apply_inactive_ok job generation status now w u w' :
  apply_inactive job generation status now w = (Ok u, w') ->
  exists j, inactivated job generation status now (db w) (db w') j.
Proof.
  intros (n & w1 & Hu & Hf)%bind_ok. destruct (n =? 1) eqn:En; cbn [negb] in Hf; [|by tx_step Hf].
  apply Z.eqb_eq in En.
  eapply update_one_ok in Hu as (j & Hj & Hg & Hst & Hc & Hw1); [|done].
  apply bind_ok in Hf as (u1 & w2 & (Hcan & Ho)%cancel_ok & Hf).
  apply bind_ok in Hf as (m & w3 & (Hw3 & Hsc)%update_schedules_ok & Hf). tx_step Hf.
  rewrite Hw1 in Ho. apply same_others_jobs in Ho as (Hj2 & Hs2 & Ht2 & Hb2 & _).
  exists j. rewrite Hw3. rewrite Hs2 in *.
  split; cbn; try done; try congruence.
  - apply orb_true_iff in Hst as [?|Hst]; [by left|right]. by where_facts.
  - eapply cancelled_ext; [..|exact Hcan]; rewrite ?Hw1; done.
Qed.

Lemma apply_update_ok request policy policy_json proof w u w' :
  scheduler_policy_json policy = Ok policy_json ->
  apply_update request policy policy_json proof w = (Ok u, w') ->
  exists j next, updated request policy (db w) (db w') j next policy_json proof.
Proof.
  intros Hp (v & w0 & [Hver <-]%lift_ok & Hf)%bind_ok. destruct v.
  apply bind_ok in Hf as (u1 & w1 & Hw1%lock_ok & Hf).
  apply bind_ok in Hf as (row & w2 & [-> Hw2]%query_ok & Hf). rewrite Hw1 in Hf. cbn in Hf.
  destruct (jobs (db w) !! up_job_id request) as [j|] eqn:Hj; cbn in Hf; [|by tx_step Hf].
  destruct (_ && _) eqn:E in Hf; [|by tx_step Hf]. where_facts.
  apply bind_ok in Hf as (owner & w3 & [Howner%owner_row_ok <-]%lift_ok & Hf). subst owner.
  apply bind_ok in Hf as (next & w3 & Hnext & Hf).
  apply bind_ok in Hf as (n & w4 & Hu & Hf). destruct (n =? 1) eqn:En; cbn [negb] in Hf; [|by tx_step Hf].
  apply Z.eqb_eq in En. eapply update_one_ok in Hu as (j' & Hj' & Hg & Hst & Hc & Hw4); [|done].
  apply bind_ok in Hf as (u2 & w5 & (Hcan & Ho)%cancel_ok & Hf).
  apply bind_ok in Hf as (u3 & w6 & Hw6%sql_ok & Hf). injection Hw6 as _ Hw6.
  apply bind_ok in Hf as (m & w7 & (Hw7 & Hsc)%update_schedules_ok & Hf).
  apply replace_targets_ok in Hf as (new & Hw' & Hnew).
  assert (db w3 = db w1 /\ match next with
    | Some n => j_status j = Active
        /\ first_after_create (up_schedule request) (up_now request) = Ok n
        /\ active_jobs (Some (up_job_id request)) (db w) < Policy.max_active_jobs policy
        /\ active_jobs_of (j_owner j) (Some (up_job_id request)) (db w)
           < Policy.max_active_jobs_per_owner policy
    | None => j_status j = Paused
    end) as [Hw3 Hdecided].
  { destruct (bool_decide _) eqn:Ea in Hnext; bool_facts.
    - apply bind_ok in Hnext as (u4 & w8 & (Hw8 & Hgl & Hol)%limits_ok & Hnext).
      apply bind_ok in Hnext as (n' & w9 & [Hn <-]%lift_ok & Hnext). tx_step Hnext.
      rewrite Hw2, Hw1 in Hgl, Hol. split; [congruence|]. split_and!; try done.
      by destruct (first_after_create _ _); [injection Hn as ->|].
    - tx_step Hnext. split; [done|]. by destruct (j_status j). }
  rewrite Hw3, Hw1 in *. cbn in Hj'. simplify_eq.
  rewrite Hw4 in Ho. apply same_others_jobs in Ho as (Hj5 & Hs5 & Ht5 & Hb5 & Hc5).
  exists j, next. rewrite Hw', Hw7, <-Hw6 in *. cbn in *. rewrite Hs5, Ht5 in *.
  split; cbn; try done; try congruence.
  eapply cancelled_ext; [..|exact Hcan]; rewrite ?Hw4; done.
Qed.

Lemma apply_resume_ok job generation now policy policy_json proof w u w' :
  scheduler_policy_json policy = Ok policy_json ->
  apply_resume job generation now policy policy_json proof w = (Ok u, w') ->
  exists j h schedule next,
    resumed job generation now policy (db w) (db w') j h schedule next policy_json proof.
Proof.
  intros Hp (u1 & w1 & Hw1%lock_ok & Hf)%bind_ok.
  apply bind_ok in Hf as (row & w2 & [-> Hw2]%query_ok & Hf). rewrite Hw1 in Hf.
  unfold paused_schedule in Hf. cbn in Hf.
  destruct (jobs (db w) !! job) as [j|] eqn:Hj; cbn in Hf; [|by tx_step Hf].
  destruct (schedules (db w) !! job) as [h|] eqn:Hh; cbn in Hf; [|by tx_step Hf].
  destruct (_ && _) eqn:E in Hf; [|by tx_step Hf]. where_facts.
  apply bind_ok in Hf as (schedule & w3 & [Hspec <-]%lift_ok & Hf).
  apply bind_ok in Hf as ([] & w3 & [Hver <-]%lift_ok & Hf).
  apply bind_ok in Hf as (owner & w3 & [Howner%owner_row_ok <-]%lift_ok & Hf). subst owner.
  apply bind_ok in Hf as (u2 & w3 & (Hw3 & Hgl & Hol)%limits_ok & Hf).
  apply bind_ok in Hf as (next & w4 & [Hnext <-]%lift_ok & Hf).
  apply bind_ok in Hf as (n & w4 & Hu & Hf).
  apply bind_ok in Hf as (m & w5 & (Hw5 & Hsc)%update_schedules_ok & Hf). tx_step Hf.
  assert (db w3 = with_policy_lock (db w) (Some now)) as Hd3 by congruence.
  eapply update_selected_ok in Hu as (Hc & Hw4);
    [|rewrite Hd3; exact Hj|done|by apply bool_decide_eq_true_2].
  rewrite Hd3 in Hw4. rewrite Hw2, Hw1 in Hgl, Hol. rewrite Hw5, Hw4 in *. cbn in *.
  exists j, h, schedule, next. split; cbn; try done; [| |by apply Hsc].
  - by destruct (next_after _ _); [injection Hnext as ->|].
  - apply map_eq. intros id. destruct (decide (id = job)) as [->|].
    + by rewrite lookup_alter_eq, lookup_insert_eq, Hh.
    + by rewrite lookup_alter_ne, lookup_insert_ne.
Qed.

Lemma apply_typed_mutation_ok m policy proof w u w' :
  apply_typed_mutation m policy proof w = (Ok u, w') -> mutated policy (db w) (db w') m.
Proof.
  intros (policy_json & w0 & [Hp <-]%lift_ok & Hf)%bind_ok. destruct m.
  - apply bind_ok in Hf as (next & w0 & [Hv <-]%lift_ok & Hf).
    apply bind_ok in Hf as (proof' & w0 & [_ <-]%lift_ok & Hf).
    apply bind_ok in Hf as (u1 & w1 & Hlock & Hf). apply bind_ok in Hf as (u2 & w2 & Hlim & Hf).
    eapply did_create, insert_scheduled_job_ok; eauto.
  - apply bind_ok in Hf as (u0 & w0 & [_ <-]%lift_ok & Hf).
    apply bind_ok in Hf as (proof' & w0 & [_ <-]%lift_ok & Hf).
    apply apply_update_ok in Hf as (j & next & Hdid); [|done]. by eapply did_update.
  - apply bind_ok in Hf as (u0 & w0 & [_ <-]%lift_ok & Hf).
    apply apply_inactive_ok in Hf as (j & Hdid). by eapply did_pause.
  - apply bind_ok in Hf as (u0 & w0 & [_ <-]%lift_ok & Hf).
    apply bind_ok in Hf as (proof' & w0 & [_ <-]%lift_ok & Hf).
    apply apply_resume_ok in Hf as (j & h & sc & next & Hdid); [|done]. by eapply did_resume.
  - apply bind_ok in Hf as (u0 & w0 & [_ <-]%lift_ok & Hf).
    apply apply_inactive_ok in Hf as (j & Hdid). by eapply did_delete.
Qed.

(** ** What a materialization does *)

Definition slot_taken (job : string) (d : Db) : bool :=
  existsb (fun '(_, r) => String.eqb (s_job_id (r_snapshot r)) job
    && bool_decide (r_overlap_slot r = Some 1)) (map_to_list (runs d)).

(** The frozen inputs of an occurrence. *)
Record frozen_inputs (job : string) (d : Db) (targets_json baseline_json : string) : Prop := {
  in_targets : exists values, collect target_snapshot_json (job_targets_in_order job d) = Ok values
    /\ validate_serialized_targets values = Ok tt /\ serialize_targets values = Ok targets_json;
  in_baseline : exists b, baselines d !! job = Some b /\ baseline_json = display (baseline_value b)
}.

Record materialized (job : string) (generation now : Z)
    (admission : option ScheduledExecutorAdmission) (readings : Readings) (d d' : Db)
    (j : Job) (h : ScheduleRow) (due : Z) (schedule : ScheduleSpec)
    (policy : Policy.SchedulerOperationalPolicy) (window : OccurrenceWindow)
    (targets_json baseline_json : string) : Prop := {
  mat_job : jobs d !! job = Some j;
  mat_schedule : schedules d !! job = Some h;
  mat_active : j_status j = Active;
  mat_generation : j_generation j = generation;
  mat_due : h_next_run_at h = Some due /\ due <= now;
  mat_slot : slot_taken job d = false;
  mat_spec : schedule_from_row h = Ok schedule;
  mat_policy : scheduler_policy_from_snapshot (j_scheduler_policy_version j)
    (j_scheduler_policy_json j) = Ok policy;
  mat_window : coalesce schedule due now (Policy.occurrence_search_limit policy) = Ok window;
  mat_inputs : frozen_inputs job d targets_json baseline_json;
  mat_fresh : runs d !! materialized_id job (Schedule.scheduled_for window) = None;
  mat_new : forall id r, runs d !! id = Some r ->
    occurrence r <> (job, Schedule.scheduled_for window);
  mat_runs : runs d' = <[materialized_id job (Schedule.scheduled_for window) :=
    materialized_row (materialized_snapshot job j h window targets_json baseline_json now) now]>
    (runs d);
  mat_attempts : attempts d' = attempts d;
  mat_log : same_log d d';
  mat_jobs : jobs d' = match Schedule.next_run_at window with
    | Some _ => jobs d
    | None => <[job := completed_job now j]> (jobs d)
    end;
  mat_schedules : schedules d'
    = <[job := with_next_run (Schedule.next_run_at window) now h]> (schedules d);
  mat_targets : job_targets d' = job_targets d;
  mat_baselines : baselines d' = baselines d;
  mat_cursors : transition_cursors d' = transition_cursors d;
  mat_admitted : forall m, admission = Some m ->
    cancelled_at_commit readings = false
    /\ clock_at_commit readings < m_operation_deadline m
    /\ epoch_is_exact m (clock_at_commit readings) d' = true;
  mat_checks : run_checks
    (materialized_row (materialized_snapshot job j h window targets_json baseline_json now) now)
    = true;
  mat_overlap : overlap_unique (runs d') = true;
  mat_job_checks : Schedule.next_run_at window = None ->
    job_checks job (completed_job now j) = true;
  mat_schedule_checks : schedule_checks (with_next_run (Schedule.next_run_at window) now h) = true
}.


Lemma insert_run_ok id r w w' :
  insert_run id r w = (Ok true, w') ->
  runs (db w) !! id = None
  /\ (forall id' r', runs (db w) !! id' = Some r' -> occurrence r' <> occurrence r)
  /\ run_checks r = true /\ overlap_unique (<[id := r]> (runs (db w))) = true
  /\ db w' = with_totals (with_runs (db w) (<[id := r]> (runs (db w))))
       (count_materialized (r_snapshot r) (totals (db w))).
Proof.
  intros Hi%sql_ok. cbn zeta in Hi. destruct (negb _) eqn:E in Hi; [done|].
  destruct (existsb _ _) eqn:Ex; [done|].
  destruct (_ && overlap_unique _) eqn:Eu in Hi; [|done]. injection Hi as <-. bool_facts.
  split_and!; try done.
  - by destruct (runs (db w) !! id).
  - intros id' r' Hr' [= Hjob Hfor]. rewrite <-not_true_iff_false in Ex. contradict Ex.
    apply existsb_exists. exists (id', r'). rewrite <-list_elem_of_In, elem_of_map_to_list.
    split; [done|]. unfold same_occurrence. cbn. by rewrite Hjob, Hfor, String.eqb_refl, Z.eqb_refl.
Qed.

Lemma load_snapshots_ok job w t b w' :
  load_materialization_snapshots job w = (Ok (t, b), w') ->
  db w' = db w /\ frozen_inputs job (db w) t b.
Proof.
  intros (rows & w1 & [-> Hw1]%query_ok & Hf)%bind_ok.
  apply bind_ok in Hf as (values & w2 & [Hv <-]%lift_ok & Hf).
  apply bind_ok in Hf as ([] & w2 & [Hval <-]%lift_ok & Hf).
  apply bind_ok in Hf as (base & w2 & [-> Hw2]%query_ok & Hf). rewrite Hw1 in *.
  destruct (baselines (db w) !! job) as [x|] eqn:Hx; [|by tx_step Hf].
  apply bind_ok in Hf as (tj & w3 & [Htj <-]%lift_ok & Hf). apply ret_ok in Hf as [[= <- <-] <-].
  split; [done|]. split; eauto.
Qed.

Lemma coalesce_loop_due s due now steps : forall current skipped w,
  coalesce_loop s due now steps current skipped = Ok w ->
  Schedule.scheduled_for w = due
  /\ forall n, Schedule.next_run_at w = Some n -> now < n.
Proof.
  induction steps as [|steps IH]; intros current skipped w Hl; cbn [coalesce_loop] in Hl; [done|].
  destruct (next_after s current) as [n|[]] eqn:E; try done.
  - destruct (n >? now) eqn:En; [|by eapply IH]. injection Hl as <-. split; [done|].
    intros n' [= <-]. lia.
  - by injection Hl as <-.
Qed.

(** The window starts at the due occurrence and the next one is in the future. *)
Lemma coalesce_due h schedule due now limit w :
  schedule_from_row h = Ok schedule -> coalesce schedule due now limit = Ok w -> due <= now ->
  Schedule.scheduled_for w = due /\ forall n, Schedule.next_run_at w = Some n -> now < n.
Proof.
  intros Hs Hc Hle. unfold coalesce in Hc. destruct (due >? now) eqn:E; [lia|].
  destruct schedule as [at_|anchor every|expression timezone].
  - by injection Hc as <-.
  - assert (0 < every) as He.
    { unfold schedule_from_row, from_storage in Hs. destruct (parts_of_row h).
      unfold fixed_interval, cron, ok in Hs. cbn in Hs. peel Hs; bool_facts; cbn in Hs; simplify_eq; lia. }
    apply coalesce_fixed_interval_ok in Hc as [-> _]; [|done..]. cbn. split; [done|].
    intros n [= <-]. by apply skipped_bounds.
  - by eapply coalesce_loop_due.
Qed.

(** An update of the schedule of a job whose count the code checks. *)
Lemma update_schedule_one job where_ set w n w' h :
  (forall id x, where_ (db w) id x = true -> id = job) ->
  update_schedules where_ set w = (Ok n, w') -> n = 1 -> schedules (db w) !! job = Some h ->
  where_ (db w) job h = true /\ schedule_checks (set h) = true
  /\ db w' = with_schedules (db w) (<[job := set h]> (schedules (db w))).
Proof.
  intros Hkey Hu%sql_ok Hn Hh. cbn zeta in Hu. destruct (forallb _ _) eqn:E; [|done].
  injection Hu as <- <-.
  destruct (update_rows_one (where_ (db w)) set _ _ Hkey Hn) as (h' & Hh' & Hw & Hup).
  simplify_eq. rewrite Hup. split_and!; try done. rewrite List.forallb_forall in E.
  specialize (E (job, h)). rewrite <-list_elem_of_In, elem_of_matching in E. by apply E.
Qed.

Lemma alter_is_insert {A} (f : A -> A) (t : gmap string A) k a :
  t !! k = Some a -> alter f k t = <[k := f a]> t.
Proof.
  intros Ha. apply map_eq. intros i. destruct (decide (i = k)) as [->|].
  - by rewrite lookup_alter_eq, lookup_insert_eq, Ha.
  - by rewrite lookup_alter_ne, lookup_insert_ne.
Qed.

Lemma advance_ok job window now w u w' j h :
  jobs (db w) !! job = Some j -> j_status j = Active -> schedules (db w) !! job = Some h ->
  advance_schedule job (j_generation j) window now w = (Ok u, w') ->
  schedule_checks (with_next_run (Schedule.next_run_at window) now h) = true
  /\ (Schedule.next_run_at window = None -> job_checks job (completed_job now j) = true)
  /\ db w' = with_jobs (with_schedules (db w)
       (<[job := with_next_run (Schedule.next_run_at window) now h]> (schedules (db w))))
       match Schedule.next_run_at window with
       | Some _ => jobs (db w)
       | None => <[job := completed_job now j]> (jobs (db w))
       end.
Proof.
  intros Hj Hs Hh Ha. unfold advance_schedule in Ha.
  destruct (Schedule.next_run_at window) as [next|].
  - apply bind_ok in Ha as (n & w1 & Hu & Ha). destruct (n =? 1) eqn:En; cbn [negb] in Ha; tx_step Ha.
    apply Z.eqb_eq in En. eapply update_schedule_one in Hu as (_ & Hc & Hw); [|..|done|exact Hh];
      [|intros id x Hx; where_facts; done].
    done.
  - apply bind_ok in Ha as (n & w1 & (Hw1 & Hc)%update_schedules_ok & Ha).
    apply bind_ok in Ha as (m & w2 & Hu & Ha). tx_step Ha.
    eapply update_selected_ok in Hu as (Hjc & Hw2);
      [|rewrite Hw1; exact Hj|done|by apply bool_decide_eq_true_2].
    split_and!; try done; [by apply Hc|].
    rewrite Hw2, Hw1. cbn. by rewrite (alter_is_insert _ _ _ _ Hh).
Qed.

Lemma create_run_ok job j h due now admission readings w e w' :
  jobs (db w) !! job = Some j -> j_status j = Active -> schedules (db w) !! job = Some h ->
  h_next_run_at h = Some due -> due <= now -> slot_taken job (db w) = false ->
  create_run job j h due now admission readings w = (Ok e, w') ->
  e = Drop AlreadyMaterialized
  \/ exists schedule policy window targets_json baseline_json,
       e = Commit (materialized_run (materialized_id job due) job window)
       /\ materialized job (j_generation j) now admission readings (db w) (db w') j h due schedule
            policy window targets_json baseline_json.
Proof.
  intros Hj Hst Hh Hdue Hle Hslot Hf. unfold create_run in Hf.
  apply bind_ok in Hf as (schedule & w1 & [Hspec <-]%lift_ok & Hf).
  apply bind_ok in Hf as (policy & w1 & [Hpol <-]%lift_ok & Hf).
  apply bind_ok in Hf as (window & w1 & [Hwin <-]%lift_ok & Hf).
  assert (coalesce schedule due now (Policy.occurrence_search_limit policy) = Ok window) as Hco.
  { by destruct (coalesce _ _ _ _); [injection Hwin as ->|]. }
  apply bind_ok in Hf as ([t b] & w1 & (Hw1 & Hin)%load_snapshots_ok & Hf).
  apply bind_ok in Hf as (inserted & w2 & Hins & Hf).
  destruct inserted; cbn [negb] in Hf; [|tx_step Hf; by left]. right.
  apply insert_run_ok in Hins as (Hfresh & Hnew & Hck & Hov & Hw2).
  apply bind_ok in Hf as (u & w3 & Hadv & Hf).
  apply commit_admitted_ok in Hf as (-> & Hw' & Hadm).
  rewrite Hw1 in *. eapply (advance_ok _ _ _ _ _ _ j h) in Hadv as (Hsc & Hjc & Hw3);
    [|by rewrite Hw2|done|by rewrite Hw2].
  destruct (coalesce_due _ _ _ _ _ _ Hspec Hco Hle) as [Hfor _].
  exists schedule, policy, window, t, b. rewrite Hw', Hw3, Hw2 in *. rewrite Hfor in *.
  split; [done|]. split; cbn; rewrite ?Hfor; try done.
  intros id r Hr. rewrite <-Hfor. by eapply Hnew.
Qed.

Lemma suppress_ok job generation due now w e w' :
  suppress_overlap job generation due now w = (Ok e, w') ->
  e = Commit Blocked /\ same_tables (db w) (db w').
Proof.
  intros (recorded & w1 & Hu%sql_ok & Hf)%bind_ok.
  apply bind_ok in Hf as (u & w2 & Hinc & Hf). tx_step Hf. split; [done|].
  assert (same_tables (db w) (db w1)) as [[] ? ? ? ? ? ?].
  { cbn zeta in Hu. repeat split_match_in Hu; try done; injection Hu as _ <-; by repeat split. }
  assert (keeps (db w1) (db w') /\ late_evidence (db w') = late_evidence (db w1)) as [(? & ? & []) ?].
  { destruct recorded; [|by tx_step Hinc]. split; [by eapply quiet_increment|].
    apply bind_ok in Hinc as (b & w3 & Hs%sql_ok & Hinc). injection Hs as _ Hs.
    destruct b; tx_step Hinc. by rewrite <-Hs. }
  split; [split|..]; congruence.
Qed.

(** Computations that only read. *)
Abbreviation reads := (respects eq).

Lemma acquire_reads admission now : reads (acquire_and_validate_executor_admission admission now).
Proof.
  unfold acquire_and_validate_executor_admission, revalidate_executor_admission.
  repeat first [apply (respects_ret eq) | apply (respects_fail eq) | apply (respects_lift eq)
    | apply (respects_query eq) | apply (respects_map_err eq)
    | apply (respects_bind eq); [|intros ?] | split_match].
Qed.

Lemma not_cancelled_reads admission c : reads (ensure_executor_admission_not_cancelled admission c).
Proof.
  unfold ensure_executor_admission_not_cancelled.
  destruct (_ && _); [apply (respects_fail eq)|apply (respects_ret eq)].
Qed.

Lemma commit_reads {A} admission readings (a : A) : reads (commit_admitted admission readings a).
Proof.
  unfold commit_admitted, revalidate_executor_admission.
  repeat first [apply not_cancelled_reads | apply (respects_ret eq) | apply (respects_fail eq)
    | apply (respects_query eq) | apply (respects_bind eq); [|intros ?] | split_match].
Qed.

Lemma materialize_body_ok job generation now admission readings w e w' :
  materialize_body job generation now admission readings w = (Ok e, w') ->
  (exists a, e = Drop a /\ (a = NotDue \/ a = AlreadyMaterialized))
  \/ (e = Commit Blocked /\ slot_taken job (db w) = true /\ same_tables (db w) (db w'))
  \/ exists j h due schedule policy window targets_json baseline_json,
       e = Commit (materialized_run (materialized_id job due) job window)
       /\ materialized job generation now admission readings (db w) (db w') j h due schedule
            policy window targets_json baseline_json.
Proof.
  intros (u & w1 & Hw1%acquire_reads & Hf)%bind_ok.
  apply bind_ok in Hf as (u2 & w2 & Hw2%not_cancelled_reads & Hf).
  apply bind_ok in Hf as (row & w3 & [-> Hw3]%query_ok & Hf).
  rewrite <-Hw2, <-Hw1 in *. clear Hw1 Hw2. unfold joined in Hf.
  destruct (jobs (db w) !! job) as [j|] eqn:Hj; cbn in Hf; [|tx_step Hf; left; eauto].
  destruct (schedules (db w) !! job) as [h|] eqn:Hh; cbn in Hf; [|tx_step Hf; left; eauto].
  destruct (h_next_run_at h) as [due|] eqn:Hdue; [|tx_step Hf; left; eauto].
  destruct (negb _ || _ || _) eqn:E; [tx_step Hf; left; eauto|]. bool_facts. subst generation.
  apply bind_ok in Hf as (blocked & w4 & [-> Hw4]%query_ok & Hf). rewrite Hw3 in *.
  destruct (existsb _ _) eqn:Hslot.
  - apply suppress_ok in Hf as [-> Hs]. right; left. rewrite Hw4 in Hs. done.
  - apply create_run_ok in Hf; rewrite ?Hw4; try done; [|lia].
    destruct Hf as [->|(schedule & policy & window & t & b & -> & Hm)]; [left; eauto|].
    right; right. rewrite Hw4 in Hm. eauto 10.
Qed.

(** The outcomes of a materialization. *)
Lemma materialize_cases job generation now admission readings w x w' :
  materialize_due_schedule_inner job generation now admission readings w = (x, w') ->
  (db w' = db w /\ ((exists e, x = Err e) \/ x = Ok NotDue \/ x = Ok AlreadyMaterialized))
  \/ (x = Ok Blocked /\ slot_taken job (db w) = true /\ same_tables (db w) (db w'))
  \/ exists j h due schedule policy window targets_json baseline_json,
       x = Ok (materialized_run (materialized_id job due) job window)
       /\ materialized job generation now admission readings (db w) (db w') j h due schedule
            policy window targets_json baseline_json.
Proof.
  intros [(a & w0 & w1 & -> & <- & Hb & ->)|[Hw Hb]]%transaction_cases.
  - apply materialize_body_ok in Hb as [(? & [=] & _)|[([= ->] & Hb)|Hb]]; right; [by left|right].
    destruct Hb as (j & h & due & schedule & policy & window & t & b & [= ->] & Hm). eauto 12.
  - left. split; [done|]. destruct x as [a|e]; [right|left; eauto].
    destruct (Hb _ eq_refl) as (w0 & w1 & _ & [Hend|Hend]);
      apply materialize_body_ok in Hend as [(? & [=] & ?)|[([=] & _)|Hm]];
      try (by destruct Hm as (? & ? & ? & ? & ? & ? & ? & ? & [=] & _)). naive_solver.
Qed.

(** ** The steps *)

Lemma same_tables_step d d' : same_tables d d' -> step d d'.
Proof.
  intros [[]]. split_and!; [|unfold rows_ok; by rewrite st_runs0|by apply same_log_grows].
  intros id. apply stays; [by rewrite st_runs0|]. intros n. by rewrite st_attempts0.
Qed.

Lemma same_tables_job_step d d' : same_tables d d' -> job_step d d'.
Proof.
  intros Hsame. pose proof (same_tables_step _ _ Hsame). destruct Hsame. split.
  - intros id. apply job_stays; congruence.
  - unfold job_rows_ok. by rewrite st_jobs0, st_schedules0.
  - intros id r. rewrite st_runs0. congruence.
  - by apply rtc_once.
Qed.

(** No run appears where all runs are there before. *)
Lemma step_no_new d d' id r :
  (forall id, runs d !! id = None -> runs d' !! id = None) ->
  runs d' !! id = Some r -> runs d !! id = None ->
  exists j h, jobs d !! s_job_id (r_snapshot r) = Some j
    /\ schedules d !! s_job_id (r_snapshot r) = Some h /\ frozen_from r j h.
Proof. intros Hno Hr Hnone%Hno. congruence. Qed.

Lemma cancelled_no_new job generation now d d' :
  cancelled job generation now d d' -> forall id, runs d !! id = None -> runs d' !! id = None.
Proof. intros [Hr _ _] id Hn. by rewrite Hr, lookup_update_rows, Hn. Qed.

(** Rewriting the row of one job and altering its schedule. *)
Lemma rewritten_rows job j f d d' :
  jobs d' = <[job := j]> (jobs d) -> schedules d' = alter f job (schedules d) ->
  job_checks job j = true -> (forall h, schedules d !! job = Some h -> schedule_checks (f h) = true) ->
  job_rows_ok d -> job_rows_ok d'.
Proof.
  intros Hj Hs Hjc Hsc [Hok Hok']. split; intros id x.
  - rewrite Hj, lookup_insert_Some. intros [[<- <-]|[_ Hx]]; eauto.
  - rewrite Hs. destruct (decide (id = job)) as [->|].
    + rewrite lookup_alter_eq. intros (h & Hh & ->)%fmap_Some. by apply Hsc.
    + rewrite lookup_alter_ne by done. apply Hok'.
Qed.

Lemma mutated_step policy d d' m : mutated policy d d' m -> step d d'.
Proof.
  assert (forall d d', runs d' = runs d /\ attempts d' = attempts d /\ same_log d d' -> step d d')
    as Hsame.
  { intros d0 d0' (Hr & Ha & Hl%same_log_grows). split_and!; [|unfold rows_ok; by rewrite Hr|done].
    intros id. apply stays; [by rewrite Hr|]. intros n. by rewrite Ha. }
  destruct 1 as [? ? ? ? []|? ? ? ? ? []|? ? ? ? []|? ? ? ? ? ? ? ? ? []|? ? ? ? []]; eauto using can_step.
Qed.

Lemma rewritten_job_step job j j' f d d' :
  jobs d !! job = Some j -> jobs d' = <[job := j']> (jobs d) ->
  schedules d' = alter f job (schedules d) ->
  keeps_identity j j' -> j_generation j' = j_generation j + 1 ->
  may_become (j_status j) (j_status j') -> (forall h, mutated_schedule (j_status j') h (f h)) ->
  job_checks job j' = true ->
  (forall h, schedules d !! job = Some h -> schedule_checks (f h) = true) ->
  (forall id, runs d !! id = None -> runs d' !! id = None) -> step d d' -> job_step d d'.
Proof.
  intros Hj Hj' Hs Hk Hg Hm Hf Hjc Hsc Hno Hstep. split; [..|by apply rtc_once].
  - intros id. destruct (decide (id = job)) as [->|Hne].
    + apply job_mutates with j j' f; try done; [by rewrite Hj', lookup_insert_eq|].
      by rewrite Hs, lookup_alter_eq.
    + apply job_stays; [by rewrite Hj', lookup_insert_ne|by rewrite Hs, lookup_alter_ne].
  - by eapply rewritten_rows.
  - intros id r. by apply step_no_new.
Qed.

Lemma created_job_step request policy d d' next policy_json proof :
  created request policy d d' next policy_json proof -> job_step d d'.
Proof.
  intros Hc. pose proof (mutated_step _ _ _ _ (did_create _ _ _ _ _ _ _ Hc)) as Hstep.
  destruct Hc, cre_fresh0 as (Hj & Hs & _), cre_runs0 as [Hr _]. split; [..|by apply rtc_once].
  - intros id. destruct (decide (id = cr_job_id request)) as [->|Hne].
    + eapply job_appears; [done|done|by rewrite cre_jobs0, lookup_insert_eq
        |by rewrite cre_schedules0, lookup_insert_eq|done..].
    + apply job_stays; [by rewrite cre_jobs0, lookup_insert_ne|by rewrite cre_schedules0, lookup_insert_ne].
  - intros [Hok Hok']. split; intros id x.
    + rewrite cre_jobs0, lookup_insert_Some. intros [[<- <-]|[_ Hx]]; eauto.
    + rewrite cre_schedules0, lookup_insert_Some. intros [[<- <-]|[_ Hx]]; eauto.
  - intros id r. apply step_no_new. intros ?. by rewrite Hr.
Qed.

Lemma updated_job_step request policy d d' j next policy_json proof :
  updated request policy d d' j next policy_json proof -> job_step d d'.
Proof.
  intros []. eapply rewritten_job_step; eauto using cancelled_no_new, can_step; [done|left; done|].
  intros h. split; try done. cbn. intros Hs. destruct next; [done|congruence].
Qed.

Lemma inactivated_job_step job generation status now d d' j :
  status <> Active -> (status = Paused \/ status = Deleted) ->
  inactivated job generation status now d d' j -> job_step d d'.
Proof.
  intros Hna Hst []. eapply rewritten_job_step; eauto using cancelled_no_new, can_step; [done| |].
  - cbn. destruct Hst as [->| ->].
    + left. by destruct ina_status0 as [|[[=] _]].
    + right. split; [|done]. intros E. rewrite E in ina_status0. by destruct ina_status0 as [|[_ [=]]].
  - intros h. by split.
Qed.

Lemma resumed_job_step job generation now policy d d' j h schedule next policy_json proof :
  resumed job generation now policy d d' j h schedule next policy_json proof -> job_step d d'.
Proof.
  intros Hres. pose proof (mutated_step _ _ _ _ (did_resume _ _ _ _ _ _ _ _ _ _ _ _ Hres)) as Hstep.
  destruct Hres, res_runs0 as [Hr _].
  eapply (rewritten_job_step job j _ (resumed_schedule next proof now)); eauto.
  - by rewrite res_schedules0, (alter_is_insert _ _ _ _ res_schedule0).
  - done.
  - left. by rewrite res_paused0.
  - intros h'. split; try done.
  - intros h' Hh'. by simplify_eq.
  - intros id. by rewrite Hr.
Qed.

Lemma mutated_job_step policy d d' m : mutated policy d d' m -> job_step d d'.
Proof.
  destruct 1; [by eapply created_job_step|by eapply updated_job_step| |by eapply resumed_job_step|];
    (eapply inactivated_job_step; [..|done]); auto; done.
Qed.

Lemma materialized_frozen job generation now admission readings d d' j h due schedule policy window
    targets_json baseline_json :
  materialized job generation now admission readings d d' j h due schedule policy window
    targets_json baseline_json ->
  frozen_from (materialized_row (materialized_snapshot job j h window targets_json baseline_json now)
    now) j h.
Proof.
  intros []. destruct mat_due0 as [Hdue Hle]. split; try done.
  destruct (coalesce_due _ _ _ _ _ _ mat_spec0 mat_window0 Hle) as [Hfor _]. cbn. by rewrite Hfor.
Qed.

Lemma materialized_step job generation now admission readings d d' j h due schedule policy window
    targets_json baseline_json :
  materialized job generation now admission readings d d' j h due schedule policy window
    targets_json baseline_json -> step d d'.
Proof.
  intros []. split_and!; [..|by apply same_log_grows].
  - intros id. destruct (decide (id = materialized_id job (Schedule.scheduled_for window))) as [->|Hne].
    + eapply appears; [done|exact mat_runs0|done..|by intros n; rewrite mat_attempts0].
    + apply stays; [by rewrite mat_runs0, lookup_insert_ne|]. intros n. by rewrite mat_attempts0.
  - intros [Hok _]. split; [|done]. intros id r. rewrite mat_runs0, lookup_insert_Some.
    intros [[<- <-]|[_ Hr]]; eauto.
Qed.

Lemma materialized_job_step job generation now admission readings d d' j h due schedule policy
    window targets_json baseline_json :
  materialized job generation now admission readings d d' j h due schedule policy window
    targets_json baseline_json -> job_step d d'.
Proof.
  intros Hm. pose proof (materialized_frozen _ _ _ _ _ _ _ _ _ _ _ _ _ _ _ Hm) as Hz.
  pose proof (materialized_step _ _ _ _ _ _ _ _ _ _ _ _ _ _ _ Hm) as Hstep.
  destruct Hm. split; [..|by apply rtc_once].
  - intros id. destruct (decide (id = job)) as [->|Hne].
    + destruct (Schedule.next_run_at window) as [next|].
      * apply job_advances with j h next now; try done; [by rewrite mat_jobs0|].
        by rewrite mat_schedules0, lookup_insert_eq.
      * apply job_completes with j h now; try done; [by rewrite mat_jobs0, lookup_insert_eq|].
        by rewrite mat_schedules0, lookup_insert_eq.
    + apply job_stays; [|by rewrite mat_schedules0, lookup_insert_ne].
      rewrite mat_jobs0. destruct (Schedule.next_run_at window); [done|]. by rewrite lookup_insert_ne.
  - intros [Hok Hok']. split; intros id x.
    + rewrite mat_jobs0. destruct (Schedule.next_run_at window); [by eauto|].
      rewrite lookup_insert_Some. intros [[<- <-]|[_ Hx]]; eauto.
    + rewrite mat_schedules0, lookup_insert_Some. intros [[<- <-]|[_ Hx]]; eauto.
  - intros id r. rewrite mat_runs0, lookup_insert_Some. intros [[<- <-]|[_ Hx]] Hn; [|congruence].
    cbn. eauto.
Qed.

(** ** Calls *)

Inductive JobCall :=
| CreateJob (policy : Policy.SchedulerOperationalPolicy) (request : CreateScheduledJob)
| UpdateJob (policy : Policy.SchedulerOperationalPolicy) (request : UpdateScheduledJob)
| PauseJob (job : string) (generation now : Z)
| ResumeJob (policy : Policy.SchedulerOperationalPolicy) (job : string) (generation now : Z)
| DeleteJob (job : string) (generation now : Z)
| MutateJob (policy : Policy.SchedulerOperationalPolicy) (m : ScheduledJobMutation)
    (i : ScheduleMutationIdempotency) (audit : option ScheduleMutationAudit)
| AppendAudit (a : ScheduleMutationAudit)
| Materialize (job : string) (generation now : Z) (admission : option ScheduledExecutorAdmission)
    (readings : Readings).

Definition manage (c : JobCall) (w : World) : World :=
  match c with
  | CreateJob policy request => (create_scheduled_job policy request w).2
  | UpdateJob policy request => (update_scheduled_job policy request w).2
  | PauseJob job generation now => (pause_scheduled_job job generation now w).2
  | ResumeJob policy job generation now => (resume_scheduled_job policy job generation now w).2
  | DeleteJob job generation now => (delete_scheduled_job job generation now w).2
  | MutateJob policy m i audit =>
      (apply_idempotent_schedule_mutation_with_audit policy m i audit w).2
  | AppendAudit a => (append_schedule_audit a w).2
  | Materialize job generation now admission readings =>
      (materialize_due_schedule_inner job generation now admission readings w).2
  end.

(** The mutation a call asks for, and the policy it asks for it under. *)
Definition asks_for (c : JobCall) (policy : Policy.SchedulerOperationalPolicy)
    (m : ScheduledJobMutation) : Prop :=
  match c with
  | CreateJob p request => policy = p /\ m = MutCreate request
  | UpdateJob p request => policy = p /\ m = MutUpdate request
  | PauseJob job generation now => m = MutPause job generation now
  | ResumeJob p job generation now => policy = p /\ m = MutResume job generation now
  | DeleteJob job generation now => m = MutDelete job generation now
  | MutateJob p m' _ _ => policy = p /\ m = m'
  | AppendAudit _ | Materialize _ _ _ _ _ => False
  end.

(** What a call did: nothing of authority, its mutation, or one occurrence. *)
Inductive does (c : JobCall) (d d' : Db) : Prop :=
| does_nothing (Hsame : same_tables d d')
| does_mutate policy m d1 d2 (Hasked : asks_for c policy m)
    (Hbefore : same_tables d d1) (Hmutated : mutated policy d1 d2 m) (Hafter : same_tables d2 d')
| does_materialize job generation now admission readings j h due schedule policy window
    targets_json baseline_json (Hcall : c = Materialize job generation now admission readings)
    (Hdid : materialized job generation now admission readings d d' j h due schedule policy window
      targets_json baseline_json).

Definition done_by {A} c (m : Tx A) : Prop :=
  forall w r w', m w = (r, w') -> does c (db w) (db w').

(** A transaction around one mutation. *)
Lemma transaction_does {A} c policy m (body : Tx (Ending A)) :
  asks_for c policy m ->
  (forall w a w', body w = (Ok (Commit a), w') ->
    same_tables (db w) (db w')
    \/ exists d1 d2, same_tables (db w) d1 /\ mutated policy d1 d2 m /\ same_tables d2 (db w')) ->
  done_by c (transaction body).
Proof.
  intros Hl Hbody w r w' [(a & w0 & w1 & _ & <- & Hb & ->)|[-> _]]%transaction_cases;
    [|by apply does_nothing].
  apply Hbody in Hb as [?|(d1 & d2 & ? & ? & ?)]; [by apply does_nothing|by eapply does_mutate].
Qed.

(** A prefix that only reads. *)
Lemma after_reading {A B} c (m : Tx A) (k : A -> Tx B) :
  reads m -> (forall a, done_by c (k a)) -> done_by c (bind m k).
Proof.
  intros Hm Hk w r w' [(e & -> & Hr%Hm)|(a & w1 & Hr%Hm & Hf)]%bind_cases; rewrite Hr;
    [by apply does_nothing|by eapply Hk].
Qed.

Lemma before_returning {A B} c (m : Tx A) (b : B) :
  done_by c m -> done_by c (do! _ := m in ret b).
Proof.
  intros Hm w r w' [(e & -> & Hr%Hm)|(a & w1 & Hr%Hm & [= _ <-])]%bind_cases; done.
Qed.

Definition reads_lift {A} := respects_lift eq (A := A).

Lemma resume_cadence_reads policy job generation now :
  reads (validate_resume_cadence policy job generation now).
Proof.
  apply (respects_bind eq); [apply (respects_query eq)|]. intros [[j h]|]; [|apply (respects_fail eq)].
  apply (respects_bind eq); [apply reads_lift|intros ?; apply reads_lift].
Qed.

Lemma prevalidate_reads policy m : reads (prevalidate_schedule_mutation policy m).
Proof.
  destruct m; cbn [prevalidate_schedule_mutation];
    repeat first [apply resume_cadence_reads | apply reads_lift | apply (respects_ret eq)
      | apply (respects_bind eq); [|intros ?]].
Qed.

Abbreviation sparing := (respects same_tables).

Lemma insert_idempotency_spares scope key algorithm digest now :
  sparing (insert_idempotency scope key algorithm digest now).
Proof.
  apply (respects_sql same_tables). intros d x d' Hs.
  repeat split_match_in Hs; try done; injection Hs as _ <-; by repeat split.
Qed.

Lemma update_idempotency_spares scope key algorithm digest response now :
  sparing (update_idempotency scope key algorithm digest response now).
Proof.
  apply (respects_sql same_tables). intros d x d' Hs.
  repeat split_match_in Hs; try done; injection Hs as _ <-; by repeat split.
Qed.

Lemma insert_audit_spares a : sparing (insert_audit a).
Proof.
  apply (respects_sql same_tables). intros d x d' Hs. destruct (_ && _); [|done].
  injection Hs as _ <-. by repeat split.
Qed.

Lemma claim_spares p operation request_id algorithm digest now :
  sparing (claim_idempotency_in_transaction p operation request_id algorithm digest now).
Proof.
  unfold claim_idempotency_in_transaction, read_idempotency_decision.
  repeat first [apply insert_idempotency_spares | apply (respects_query same_tables)
    | apply (respects_ret same_tables) | apply (respects_fail same_tables)
    | apply (respects_lift same_tables) | apply (respects_bind same_tables); [|intros ?]
    | split_match].
Qed.

Lemma complete_spares p operation i now :
  sparing (complete_idempotency_in_transaction p operation i now).
Proof.
  apply (respects_bind same_tables); [apply update_idempotency_spares|]. intros n.
  destruct (negb _); [apply (respects_fail same_tables)|apply (respects_ret same_tables)].
Qed.

(** The body of an idempotent mutation that commits. *)
Lemma mutate_once_ok policy m i audit proof w a w' :
  mutate_once policy m i audit proof w = (Ok (Commit a), w') ->
  same_tables (db w) (db w')
  \/ exists d1 d2, same_tables (db w) d1 /\ mutated policy d1 d2 m /\ same_tables d2 (db w').
Proof.
  intros (decision & w1 & Hc%claim_spares & Hf)%bind_ok.
  destruct decision; [right|tx_step Hf; by left..].
  apply bind_ok in Hf as (u & w2 & Hm%apply_typed_mutation_ok & Hf).
  apply bind_ok in Hf as (u2 & w3 & Ha & Hf).
  apply bind_ok in Hf as (u3 & w4 & Hk%complete_spares & Hf). tx_step Hf.
  exists (db w1), (db w2). split_and!; try done. etrans; [|done].
  destruct audit as [x|]; [by apply insert_audit_spares in Ha|by tx_step Ha].
Qed.

Lemma create_does policy request :
  done_by (CreateJob policy request) (create_scheduled_job policy request).
Proof.
  intros w r w' Hc.
  unfold create_scheduled_job, bind at 1, lift at 1 in Hc.
  destruct (validate_create_request request policy false) as [next|] eqn:Hv;
    [|injection Hc as _ <-; by apply does_nothing].
  revert w r w' Hc. apply after_reading; [apply reads_lift|]. intros proof w r w' Hc.
  unfold bind at 1, lift at 1 in Hc.
  destruct (scheduler_policy_json policy) as [policy_json|] eqn:Hp;
    [|injection Hc as _ <-; by apply does_nothing].
  revert Hc. apply (transaction_does _ policy (MutCreate request)); [done|].
  clear w r w'. intros w a w' (u1 & w1 & Hlock & Hf)%bind_ok.
  apply bind_ok in Hf as (u2 & w2 & Hlim & Hf). apply bind_ok in Hf as (u3 & w3 & Hins & Hf).
  tx_step Hf. right. exists (db w), (db w'). split_and!; [done| |done].
  eapply did_create, insert_scheduled_job_ok; eauto.
Qed.

Lemma update_does policy request :
  done_by (UpdateJob policy request) (update_scheduled_job policy request).
Proof.
  apply after_reading; [apply reads_lift|intros _].
  apply after_reading; [apply reads_lift|]. intros proof w r w' Hc.
  unfold bind at 1, lift at 1 in Hc.
  destruct (scheduler_policy_json policy) as [policy_json|] eqn:Hp;
    [|injection Hc as _ <-; by apply does_nothing].
  revert Hc. apply before_returning. apply (transaction_does _ policy (MutUpdate request)); [done|].
  clear w r w'. intros w a w' (u & w1 & Hu & Hf)%bind_ok. tx_step Hf.
  apply apply_update_ok in Hu as (j & next & Hdid); [|done].
  right. exists (db w), (db w'). split_and!; [done|by eapply did_update|done].
Qed.

Lemma resume_does policy job generation now :
  done_by (ResumeJob policy job generation now) (resume_scheduled_job policy job generation now).
Proof.
  apply after_reading; [apply resume_cadence_reads|]. intros proof w r w' Hc.
  unfold bind at 1, lift at 1 in Hc.
  destruct (scheduler_policy_json policy) as [policy_json|] eqn:Hp;
    [|injection Hc as _ <-; by apply does_nothing].
  revert Hc. apply before_returning.
  apply (transaction_does _ policy (MutResume job generation now)); [done|].
  clear w r w'. intros w a w' (u & w1 & Hu & Hf)%bind_ok. tx_step Hf.
  apply apply_resume_ok in Hu as (j & h & sc & next & Hdid); [|done].
  right. exists (db w), (db w'). split_and!; [done|by eapply did_resume|done].
Qed.

(** A status and the mutation that sets it. *)
Lemma inactive_does c job generation status now :
  (status = Paused /\ c = PauseJob job generation now)
  \/ (status = Deleted /\ c = DeleteJob job generation now) ->
  done_by c (set_job_inactive job generation status now).
Proof.
  intros Hc. apply before_returning.
  apply (transaction_does c Policy.default (match c with PauseJob _ _ _ =>
    MutPause job generation now | _ => MutDelete job generation now end)).
  { by destruct Hc as [[_ ->]|[_ ->]]. }
  intros w a w' (u & w1 & Hu & Hf)%bind_ok. tx_step Hf. apply apply_inactive_ok in Hu as [j Hdid].
  right. exists (db w), (db w'). split_and!; [done| |done].
  destruct Hc as [[-> ->]|[-> ->]]; [by eapply did_pause|by eapply did_delete].
Qed.

Lemma idempotent_does policy m i audit :
  done_by (MutateJob policy m i audit)
    (apply_idempotent_schedule_mutation_with_audit policy m i audit).
Proof.
  do 2 (apply after_reading; [apply reads_lift|intros _]).
  apply after_reading; [apply prevalidate_reads|]. intros proof.
  apply (transaction_does _ policy m); [done|]. apply mutate_once_ok.
Qed.

Lemma audit_does c a : done_by c (append_schedule_audit a).
Proof.
  apply after_reading; [apply reads_lift|intros _]. intros w r w' Ht.
  apply does_nothing. revert Ht. apply (respects_transaction same_tables).
  clear w r w'. intros w x w' (u & w1 & Hi%insert_audit_spares & Hf)%bind_ok. by tx_step Hf.
Qed.

Lemma materialize_does job generation now admission readings :
  done_by (Materialize job generation now admission readings)
    (materialize_due_schedule_inner job generation now admission readings).
Proof.
  intros w r w' [[Hd _]|[(_ & _ & Hs)|Hm]]%materialize_cases.
  - apply does_nothing. by rewrite Hd.
  - by apply does_nothing.
  - destruct Hm as (j & h & due & schedule & policy & window & t & b & _ & Hm).
    by eapply does_materialize.
Qed.

Lemma manage_does c w : does c (db w) (db (manage c w)).
Proof.
  assert (forall A (m : Tx A), done_by c m -> does c (db w) (db (m w).2)) as Hany.
  { intros A m Hm. destruct (m w) as [r w'] eqn:E. by eapply Hm. }
  destruct c; cbn [manage]; apply Hany.
  - apply create_does.
  - apply update_does.
  - apply inactive_does. by left.
  - apply resume_does.
  - apply inactive_does. by right.
  - apply idempotent_does.
  - apply audit_does.
  - apply materialize_does.
Qed.

Lemma manage_steps c w : rtc job_step (db w) (db (manage c w)).
Proof.
  destruct (manage_does c w) as [Hs|policy m d1 d2 _ H1' Hm H2'|? ? ? ? ? ? ? ? ? ? ? ? ? _ Hm].
  - by apply rtc_once, same_tables_job_step.
  - eapply rtc_l; [by apply same_tables_job_step|]. eapply rtc_l; [by eapply mutated_job_step|].
    by apply rtc_once, same_tables_job_step.
  - by eapply rtc_once, materialized_job_step.
Qed.

(** ** What no call touches *)

(** Reduces a relation on a call to its statements, and closes those. *)
Tactic Notation "sweep" constr(R) "with" tactic3(close) :=
  repeat first
    [ apply (respects_ret R) | apply (respects_fail R) | apply (respects_lift R)
    | apply (respects_query R) | apply (respects_map_err R) | apply (respects_body R)
    | apply (respects_bind R); [|intros ?]
    | apply (respects_sql R); intros ? ? ? ?; close
    | match goal with IH : context [respects R] |- _ => apply IH end
    | progress unfold insert_job, update_jobs, insert_schedule, update_schedules, delete_targets,
        insert_target, insert_baseline, delete_cursors, upsert_cursor, insert_run,
        insert_idempotency, update_idempotency, insert_audit, update_runs, update_attempts,
        increment_scheduler_transition_total
    | split_match ].

(** A statement that computes its table. *)
Ltac by_statement :=
  idtac; match goal with E : _ = Ok (_, _) |- _ =>
    unfold runs_updated, attempts_updated in E; cbn zeta in E;
    repeat first [match type of E with (if ?b then _ else _) = _ => destruct b end
      | split_match_in E]; try done; injection E as _ <-;
    first [by split | by intros ? ? ?] end.

Lemma targets_respect (R : relation Db) `{!PreOrder R} job targets :
  (forall id t, respects R (insert_target id t)) ->
  forall ordinal, respects R (insert_targets job ordinal targets).
Proof.
  intros Ht. induction targets as [|t targets IH]; intros ordinal; cbn [insert_targets];
    [apply (respects_ret R)|].
  apply (respects_bind R); [apply Ht|intros _; apply IH].
Qed.

(** Every statement of a job transaction respects [R]. *)
Record statements_respect (R : relation Db) : Prop := {
  sr_insert_job : forall id j, respects R (insert_job id j);
  sr_update_jobs : forall where_ set, respects R (update_jobs where_ set);
  sr_insert_schedule : forall id h, respects R (insert_schedule id h);
  sr_update_schedules : forall where_ set, respects R (update_schedules where_ set);
  sr_delete_targets : forall job, respects R (delete_targets job);
  sr_insert_target : forall id t, respects R (insert_target id t);
  sr_insert_baseline : forall job, respects R (insert_baseline job);
  sr_delete_cursors : forall job, respects R (delete_cursors job);
  sr_upsert_cursor : forall job c, respects R (upsert_cursor job c);
  sr_insert_run : forall id r, respects R (insert_run id r);
  sr_update_runs : forall where_ set, respects R (update_runs where_ set);
  sr_update_attempts : forall where_ set, respects R (sql (fun d => attempts_updated (where_ d) set d));
  sr_insert_idempotency : forall scope key algorithm digest now,
    respects R (insert_idempotency scope key algorithm digest now);
  sr_update_idempotency : forall scope key algorithm digest response now,
    respects R (update_idempotency scope key algorithm digest response now);
  sr_insert_audit : forall a, respects R (insert_audit a);
  sr_lock : forall now, respects R (acquire_scheduler_policy_lock now);
  sr_increment : forall kind n, respects R (increment_scheduler_transition_total kind n)
}.

Lemma rest_statements : statements_respect job_rest.
Proof.
  split; intros; unfold acquire_scheduler_policy_lock; sweep job_rest with by_statement.
Qed.

Lemma records_statements : statements_respect records_stay.
Proof.
  split; intros;
    try (unfold acquire_scheduler_policy_lock; solve [sweep records_stay with by_statement]).
  - apply (respects_sql records_stay). intros d x d' Hs. destruct (datetime_unixepoch now); [|done].
    destruct (negb _); [done|]. destruct (is_some _) eqn:E; injection Hs as _ <-; [done|].
    intros k0 k Hk Hst. cbn. rewrite lookup_insert_ne; [done|]. intros <-. by rewrite Hk in E.
  - apply (respects_sql records_stay). intros d x d' Hs.
    destruct (idempotency_keys d !! (scope, key)) as [k1|] eqn:Hk1; [|by injection Hs as _ <-].
    destruct (_ && _) eqn:E; [|by injection Hs as _ <-].
    destruct (datetime_unixepoch now); [|done]. injection Hs as _ <-.
    intros k0 k Hk Hst. cbn. rewrite lookup_insert_ne; [done|]. intros <-. simplify_eq.
    where_facts. congruence.
Qed.

Section Respected.
Context (R : relation Db) `{!PreOrder R} (HR : statements_respect R).

(** Reduces a call to its statements. *)
Ltac to_statements :=
  destruct HR;
  repeat first
    [ apply (respects_ret R) | apply (respects_fail R) | apply (respects_lift R)
    | apply (respects_query R) | match goal with IH : forall _, _ |- _ => apply IH end
    | apply (respects_weaken eq); [by intros ? ? ->|];
      solve [apply acquire_reads | apply not_cancelled_reads | apply resume_cadence_reads
            | apply prevalidate_reads]
    | apply (respects_map_err R) | apply (respects_body R) | apply (respects_bind R); [|intros ?]
    | split_match ].

Lemma targets_respected job targets ordinal : respects R (insert_targets job ordinal targets).
Proof using All. destruct HR. by apply targets_respect. Qed.

Lemma mutation_parts_respect :
  (forall request next policy_json proof,
    respects R (insert_scheduled_job request next policy_json proof))
  /\ (forall request policy policy_json proof,
    respects R (apply_update request policy policy_json proof))
  /\ (forall job generation status now, respects R (apply_inactive job generation status now))
  /\ (forall job generation now policy policy_json proof,
    respects R (apply_resume job generation now policy policy_json proof)).
Proof using All.
  pose proof targets_respected.
  split_and!; intros; unfold insert_scheduled_job, apply_update, apply_inactive, apply_resume,
    enforce_active_job_limits, replace_delivery_targets, cancel_pre_execution_runs; to_statements.
Qed.

Lemma manage_respects c w : R (db w) (db (manage c w)).
Proof using All.
  destruct mutation_parts_respect as (? & ? & ? & ?).
  assert (forall A (m : Tx A), respects R m -> R (db w) (db (m w).2)) as Hany.
  { intros A m Hm. destruct (m w) as [r w'] eqn:E. by eapply Hm. }
  assert (forall A admission readings (a : A), respects R (commit_admitted admission readings a)).
  { intros A admission readings a. apply (respects_weaken eq); [by intros ? ? ->|].
    apply commit_reads. }
  destruct c; cbn [manage]; apply Hany; clear Hany;
    unfold create_scheduled_job, update_scheduled_job, pause_scheduled_job, delete_scheduled_job,
      set_job_inactive, resume_scheduled_job, enforce_active_job_limits,
      apply_idempotent_schedule_mutation_with_audit, mutate_once, apply_typed_mutation,
      claim_idempotency_in_transaction, read_idempotency_decision,
      complete_idempotency_in_transaction, append_schedule_audit, materialize_due_schedule_inner,
      materialize_body, suppress_overlap, create_run, load_materialization_snapshots,
      advance_schedule, enforce_active_job_limits; to_statements.
Qed.

End Respected.

End Steps.

Abbreviation reads := (respects eq).

End JobLifecycle.
