(* ===== verification/JobInvariants.v ===== *)
(** * Invariants of the job tables

    What every sequence of job steps keeps: a job and its schedule move from
    generation to generation together, an active job always has its next
    occurrence, runs are frozen from generations their job has had, occurrences
    are materialized once, deleted jobs stay deleted, and the limits on active
    jobs hold. *)

From stdpp Require Import base tactics list strings numbers pretty gmap relations.
From Stdlib Require Import ZArith Lia Ascii.
From S2P Require Import Prelude.
From S2P Require Import Policy.
From S2P Require Import Schedule.
From S2P Require Import Json.
From S2P Require Import Digest.
From S2P Require Import Authority.
From S2P Require Import Tables.
From S2P Require Import Runs.
From S2P Require Import Completion.
From S2P Require Import Lifecycle.
From S2P Require Import RunSafety.
From S2P Require Import JobTables.
From S2P Require Import Jobs.
From S2P Require Import JobLifecycle.
Import Digest.

Module JobInvariants.
Import Schedule Snapshot Authority Tables Runs Completion Lifecycle RunSafety JobTables Jobs
  JobLifecycle.

(** ** The limits on active jobs *)

Definition within_limits (global owned : Z) (d : Db) : Prop :=
  active_jobs None d <= global /\ forall owner, active_jobs_of owner None d <= owned.

(** A job that is rewritten without being activated. *)
Lemma within_rewritten global owned job j j' d d' :
  jobs d !! job = Some j -> jobs d' = <[job := j']> (jobs d) -> j_owner j' = j_owner j ->
  (j_status j' = Active -> j_status j = Active) ->
  within_limits global owned d -> within_limits global owned d'.
Proof.
  intros Hj Hj' Ho Hs [Hg Hown]. unfold within_limits, active_jobs, active_jobs_of in *.
  rewrite Hj'. split; [|intros owner; specialize (Hown owner)]; rewrite matching_insert.
  - rewrite (matching_split _ _ _ _ Hj) in Hg. unfold counted in *.
    destruct (bool_decide (j_status j' = Active)) eqn:E'; bool_facts;
      [rewrite (bool_decide_eq_true_2 _ (Hs E')) in Hg|];
      destruct (bool_decide (j_status j = Active)); cbn in *; lia.
  - rewrite (matching_split _ _ _ _ Hj) in Hown. unfold counted in *. rewrite Ho.
    destruct (bool_decide (j_status j' = Active)) eqn:E'; bool_facts;
      [rewrite (bool_decide_eq_true_2 _ (Hs E')) in Hown|];
      destruct (bool_decide (j_status j = Active)), (bool_decide (j_owner j = owner)); cbn in *; lia.
Qed.

(** A job that was not active becomes active, below the limits. *)
Lemma within_activated global owned job j' d d' :
  (forall j, jobs d !! job = Some j -> j_status j <> Active) ->
  jobs d' = <[job := j']> (jobs d) ->
  active_jobs None d < global -> active_jobs_of (j_owner j') None d < owned ->
  within_limits global owned d -> within_limits global owned d'.
Proof.
  intros Hnew Hj' Hg Ho [_ Hown].
  assert (forall where_ : string -> Job -> bool,
    (forall j, where_ job j = true -> j_status j = Active) ->
    length (matching where_ (delete job (jobs d))) = length (matching where_ (jobs d))) as Hsame.
  { intros where_ Hw. destruct (jobs d !! job) as [j|] eqn:Hj; [|by rewrite delete_id].
    rewrite (matching_split _ _ _ _ Hj). destruct (where_ job j) eqn:E; [|lia].
    apply Hw in E. by specialize (Hnew j eq_refl). }
  unfold within_limits, active_jobs, active_jobs_of in *. rewrite Hj'.
  split; [|intros owner; specialize (Hown owner)]; rewrite matching_insert, Hsame.
  - destruct (counted None job j'); lia.
  - unfold counted. intros j Hc. by bool_facts.
  - destruct (decide (j_owner j' = owner)) as [<-|Hne].
    + destruct (_ && _); lia.
    + rewrite (bool_decide_eq_false_2 (j_owner j' = owner)), andb_false_r by done. lia.
  - unfold counted. intros j Hc. by bool_facts.
Qed.

Lemma same_tables_within global owned d d' :
  same_tables d d' -> within_limits global owned d -> within_limits global owned d'.
Proof. intros []. unfold within_limits, active_jobs, active_jobs_of. by rewrite st_jobs0. Qed.

Section Invariants.
Context `{Calendar} `{Serde} `{Sha2} `{Sqlite}.

Lemma mutated_within global owned policy d d' m :
  match m with
  | MutPause _ _ _ | MutDelete _ _ _ => True
  | _ => Policy.max_active_jobs policy <= global
         /\ Policy.max_active_jobs_per_owner policy <= owned
  end ->
  mutated policy d d' m -> within_limits global owned d -> within_limits global owned d'.
Proof.
  intros Hl Hm. destruct Hm as [? ? ? ? []|? ? ? ? ? []|? ? ? ? []|? ? ? ? ? ? ? ? ? []|? ? ? ? []].
  - destruct cre_fresh0 as [Hnone _]. eapply within_activated; [|exact cre_jobs0|lia|cbn; lia].
    intros j. congruence.
  - by eapply within_rewritten.
  - by eapply within_rewritten.
  - eapply within_activated; [|exact res_jobs0|lia|cbn; lia]. intros j0 Hj0. simplify_eq. congruence.
  - by eapply within_rewritten.
Qed.

Lemma materialized_within global owned job generation now admission readings d d' j h due schedule
    policy window targets_json baseline_json :
  materialized job generation now admission readings d d' j h due schedule policy window
    targets_json baseline_json ->
  within_limits global owned d -> within_limits global owned d'.
Proof.
  intros []. destruct (Schedule.next_run_at window).
  - unfold within_limits, active_jobs, active_jobs_of. by rewrite mat_jobs0.
  - by eapply within_rewritten.
Qed.

(** The limits a call is held to are at most these. *)
Definition call_within (global owned : Z) (c : JobCall) : Prop :=
  match c with
  | CreateJob policy _ | UpdateJob policy _ | ResumeJob policy _ _ _ | MutateJob policy _ _ _ =>
      Policy.max_active_jobs policy <= global /\ Policy.max_active_jobs_per_owner policy <= owned
  | _ => True
  end.

Lemma manage_within global owned c w :
  call_within global owned c -> within_limits global owned (db w) ->
  within_limits global owned (db (manage c w)).
Proof.
  intros Hc Hin.
  destruct (manage_does c w) as [Hs|policy m d1 d2 Hask H1' Hm H2'|? ? ? ? ? ? ? ? ? ? ? ? ? _ Hm].
  - by eapply same_tables_within.
  - eapply same_tables_within; [done|]. eapply mutated_within; [|done|by eapply same_tables_within].
    destruct c; cbn in Hask, Hc; try done; [..|destruct Hask as [-> ->]; by destruct m0].
    all: try (destruct Hask as [-> ->]; done). all: by rewrite Hask.
  - by eapply materialized_within.
Qed.

(** ** Consistency *)

(** A job and its schedule. *)
Record job_agrees (j : Job) (h : ScheduleRow) : Prop := {
  ja_generation : h_generation h = j_generation j;
  ja_active : j_status j = Active -> is_Some (h_next_run_at h);
  ja_completed : j_status j = Completed -> h_next_run_at h = None
}.

(** A run and the job it is an occurrence of. *)
Definition run_of (r : Run) (j : Job) : Prop :=
  s_job_generation (r_snapshot r) <= j_generation j
  /\ s_schedule_generation (r_snapshot r) = s_job_generation (r_snapshot r).

Record jobs_consistent (d : Db) : Prop := {
  jc_rows : job_rows_ok d;
  jc_schedule : forall id j, jobs d !! id = Some j ->
    exists h, schedules d !! id = Some h /\ job_agrees j h;
  jc_job : forall id h, schedules d !! id = Some h -> is_Some (jobs d !! id);
  jc_runs : forall id r, runs d !! id = Some r ->
    exists j, jobs d !! s_job_id (r_snapshot r) = Some j /\ run_of r j
}.

Lemma job_moves_forward id d d' j :
  job_moves id d d' -> jobs d !! id = Some j ->
  exists j', jobs d' !! id = Some j' /\ keeps_identity j j' /\ j_generation j <= j_generation j'
    /\ (j_status j = Deleted -> j' = j /\ schedules d' !! id = schedules d !! id).
Proof.
  intros Hm Hj. destruct Hm; simplify_eq.
  - exists j. rewrite Hjob. split_and!; [done|by split|lia|done].
  - exists j'. split_and!; try done; [lia|]. intros Hs.
    destruct Hstatus as [[Hopen _]|[Hne _]]; [by rewrite Hs in Hopen|done].
  - eexists. split_and!; [done|by split|lia|congruence].
  - eexists. split_and!; [done|by split|done|congruence].
Qed.

Lemma job_step_schedule d d' :
  job_step d d' -> jobs_consistent d ->
  forall id j, jobs d' !! id = Some j -> exists h, schedules d' !! id = Some h /\ job_agrees j h.
Proof.
  intros [Hm _ _ _] [_ Hsch _ _] id j Hj. destruct (Hm id); simplify_eq.
  - rewrite Hjob in Hj. rewrite Hschedule. by apply Hsch.
  - exists h. split; [done|]. split; congruence.
  - destruct (Hsch _ _ Hjob) as (h & Hh & [Hg _ _]). exists (f h).
    rewrite Hschedule, Hh. split; [done|]. destruct (Hf h). split; [congruence|done|].
    intros Hc. destruct Hstatus as [[_ Ho]|[_ Ho]]; [by rewrite Hc in Ho|congruence].
  - destruct (Hsch _ _ Hjob) as (h' & Hh & [Hg _ _]). simplify_eq.
    eexists. split; [done|]. split; [done|done|congruence].
  - destruct (Hsch _ _ Hjob) as (h' & Hh & [Hg _ _]). simplify_eq.
    eexists. split; [done|]. by split.
Qed.

Lemma job_step_consistent d d' : job_step d d' -> jobs_consistent d -> jobs_consistent d'.
Proof.
  intros Hstep Hc. pose proof (job_step_schedule d d' Hstep Hc) as Hsch'.
  destruct Hstep as [Hm Hrows Hnew Hrun], Hc as [Hok Hsch Hjob Hruns].
  split; [by apply Hrows|done| |].
  - intros id h Hh. destruct (Hm id); simplify_eq; try done.
    + rewrite Hjob0. apply (Hjob _ h). by rewrite <-Hschedule.
  - intros id r Hr. destruct (runs d !! id) as [r0|] eqn:Hr0.
    + destruct (steps_run _ _ _ _ Hrun Hr0) as (r1 & Hr1 & Hsnap & _). simplify_eq.
      destruct (Hruns _ _ Hr0) as (j & Hj & Hg & Hs).
      destruct (job_moves_forward _ _ _ _ (Hm _) Hj) as (j' & Hj' & _ & Hle & _).
      exists j'. unfold run_of. rewrite Hsnap. split_and!; [done|lia|done].
    + destruct (Hnew _ _ Hr Hr0) as (j & h & Hj & Hh & Hz).
      destruct (job_moves_forward _ _ _ _ (Hm _) Hj) as (j' & Hj' & _ & Hle & _).
      exists j'. split; [done|]. destruct Hz. destruct (Hsch _ _ Hj) as (h' & Hh' & [Hg _ _]).
      simplify_eq. split; lia.
Qed.

Lemma job_steps_consistent d d' : rtc job_step d d' -> jobs_consistent d -> jobs_consistent d'.
Proof. induction 1; eauto using job_step_consistent. Qed.

Lemma job_steps_forward id d d' j :
  rtc job_step d d' -> jobs d !! id = Some j ->
  exists j', jobs d' !! id = Some j' /\ keeps_identity j j' /\ j_generation j <= j_generation j'
    /\ (j_status j = Deleted -> j' = j /\ schedules d' !! id = schedules d !! id).
Proof.
  intros Hs. revert j. induction Hs as [d|d d1 d' Hstep _ IH]; intros j Hj.
  { exists j. split_and!; [done|by split|lia|done]. }
  destruct (job_moves_forward _ _ _ _ (js_moves _ _ Hstep id) Hj) as (j1 & Hj1 & [] & Hg & Hd).
  destruct (IH _ Hj1) as (j2 & Hj2 & [] & Hg2 & Hd2). exists j2.
  split_and!; [done|split; congruence|lia|]. intros Hdel. destruct (Hd Hdel) as [-> E].
  destruct (Hd2 Hdel) as [-> E2]. split; [done|congruence].
Qed.

(** ** Occurrences *)

(** No two runs are for the same occurrence of a job. *)
Definition occurrences_distinct (d : Db) : Prop :=
  forall id id' r r', runs d !! id = Some r -> runs d !! id' = Some r' ->
    occurrence r = occurrence r' -> id = id'.

(** A run after a step: it is new, or was there for the same occurrence. *)
Lemma step_back d d' id r' :
  step d d' -> runs d' !! id = Some r' ->
  (runs d' = <[id := r']> (runs d)
   /\ forall id0 r, runs d !! id0 = Some r -> occurrence r <> occurrence r')
  \/ exists r, runs d !! id = Some r /\ occurrence r' = occurrence r.
Proof.
  intros Hs Hr'. destruct (runs d !! id) as [r|] eqn:Hr.
  - right. exists r. split; [done|]. destruct (step_run _ _ _ _ Hs Hr) as (r1 & Hr1 & Hsnap & _).
    simplify_eq. unfold occurrence. by rewrite Hsnap.
  - left. destruct Hs as [Hm _]. destruct (Hm id); try congruence.
    rewrite Hruns', lookup_insert_eq in Hr'. by simplify_eq.
Qed.

Lemma step_occurrences d d' : step d d' -> occurrences_distinct d -> occurrences_distinct d'.
Proof.
  intros Hs Hd id id' r r' Hr Hr' Ho.
  destruct (step_back _ _ _ _ Hs Hr) as [[E Hnew]|(r0 & Hr0 & Hsame)],
    (step_back _ _ _ _ Hs Hr') as [[E' Hnew']|(r0' & Hr0' & Hsame')].
  - destruct (decide (id = id')); [done|]. rewrite E, lookup_insert_ne in Hr' by done.
    by apply Hnew in Hr'.
  - destruct (decide (id = id')); [done|]. by apply Hnew in Hr0'; rewrite Hsame' in Ho.
  - destruct (decide (id = id')); [done|]. by apply Hnew' in Hr0; rewrite Hsame in Ho.
  - eapply Hd; [done..|]. congruence.
Qed.

Lemma steps_occurrences d d' : rtc step d d' -> occurrences_distinct d -> occurrences_distinct d'.
Proof. induction 1; eauto using step_occurrences. Qed.

End Invariants.

End JobInvariants.
