(* ===== verification/System.v ===== *)
(** * The parts of the scheduler store together

    A history of the scheduler interleaves calls on jobs, runs and deliveries and
    requests of operators on the same database.  Runs reach the delivery tables in one way only: the
    completion of a run inserts fresh intents; jobs reach the run tables in two:
    an occurrence inserts a fresh run, and a mutation cancels what has not
    started.  So what each part guarantees holds over every interleaving. *)

From stdpp Require Import base tactics list strings numbers pretty gmap relations.
From Stdlib Require Import ZArith Lia Ascii.
From S2P Require Import Prelude.
From S2P Require Import Policy.
From S2P Require Import Schedule.
From S2P Require Import Json.
From S2P Require Import Digest.
From S2P Require Import Capability.
From S2P Require Import Authority.
From S2P Require Import Tables.
From S2P Require Import Runs.
From S2P Require Import Completion.
From S2P Require Import Lifecycle.
From S2P Require Import RunSafety.
From S2P Require Import DeliveryTables.
From S2P Require Import Deliveries.
From S2P Require Import DeliveryLifecycle.
From S2P Require Import DeliveryInvariants.
From S2P Require Import JobTables.
From S2P Require Import Jobs.
From S2P Require Import JobLifecycle.
From S2P Require Import JobInvariants.
From S2P Require Import Routes.
From S2P Require Import Operators.
From S2P Require Import OperatorLifecycle.
Import Digest.

Module System.
Import Schedule Snapshot Authority Tables Runs Completion Lifecycle RunSafety DeliveryTables
  Deliveries DeliveryLifecycle DeliveryInvariants Jobs JobLifecycle JobInvariants
  Routes Operators OperatorLifecycle.

(** No two deliveries share an id, a key, or a run and target. *)
Definition intents_distinct (d : Db) : Prop :=
  forall id id' r r', deliveries d !! id = Some r -> deliveries d !! id' = Some r' ->
    id <> id' -> intent_collides id (d_intent r) (id', r') = false.

Lemma intent_collides_sym id i id' r' r :
  d_intent r = i -> intent_collides id i (id', r') = intent_collides id' (d_intent r') (id, r).
Proof.
  intros <-. unfold intent_collides. cbn.
  rewrite (String.eqb_sym id' id), (String.eqb_sym (d_intent_key (d_intent r'))),
    (String.eqb_sym (d_run_id (d_intent r'))),
    (String.eqb_sym (d_target_identity_digest (d_intent r'))),
    (Z.eqb_sym (d_delivery_policy_version (d_intent r'))). done.
Qed.

(** ** What a call of the run store leaves alone *)

Definition is_completion (c : Call) : bool :=
  match c with CompleteSuccess _ _ _ _ => true | _ => false end.

(** What the statements on runs and attempts leave alone. *)
Record run_frame (d d' : Db) : Prop := {
  rf_others : same_others d d';
  rf_no_new : forall id, runs d !! id = None -> runs d' !! id = None
}.

Lemma updated_frame where_ set d d' :
  runs d' = update_rows where_ set (runs d) -> same_others d d' -> run_frame d d'.
Proof. intros Hr Ho. split; [done|]. intros id Hn. by rewrite Hr, lookup_update_rows, Hn. Qed.

Lemma unchanged_frame d d' : runs d' = runs d -> same_others d d' -> run_frame d d'.
Proof. intros Hr Ho. split; [done|]. intros id. by rewrite Hr. Qed.

(** Whatever holds of a call that only rewrites runs and attempts holds of every
    call, given the same of the three inserts of a completion. *)
Section Frame.
Context `{Serde} `{Sha2} `{Sqlite}.
Context (R : Db -> Db -> Prop) `{!PreOrder R}.
Hypothesis HR : forall d d', run_frame d d' -> R d d'.

#[local] Abbreviation framed := (respects R).

Definition framed_ret {A} := respects_ret R (A := A).
Definition framed_fail {A} := respects_fail R (A := A).
Definition framed_lift {A} := respects_lift R (A := A).
Definition framed_query {A} := respects_query R (A := A).
Definition framed_sql {A} := respects_sql R (A := A).
Definition framed_bind {A B} := respects_bind R (A := A) (B := B).
Definition framed_map_err {A} := respects_map_err R (A := A).
Definition framed_body {A} := respects_body R (A := A).

Lemma framed_update_runs where_ set : framed (update_runs where_ set).
Proof. apply framed_sql. intros d n d' (_ & Hr & _ & Ho & _)%runs_updated_ok. by eapply HR, updated_frame. Qed.

Lemma framed_update_attempts where_ set : framed (update_attempts where_ set).
Proof. apply framed_sql. intros d n d' (_ & _ & Hr & Ho)%attempts_updated_ok. by apply HR, unchanged_frame. Qed.

Lemma framed_insert_attempt id n a : framed (insert_attempt id n a).
Proof.
  intros w [u|e] w' Hi; [|by apply sql_err in Hi as ->].
  apply insert_attempt_ok in Hi as (_ & _ & Hr & Ho & _). by apply HR, unchanged_frame.
Qed.

Lemma framed_quiet {A} (m : Tx A) : respects keeps m -> framed m.
Proof. apply respects_weaken. intros d d' (Hr & _ & Ho). by apply HR, unchanged_frame. Qed.

Lemma framed_or_conflict {A} (m : Tx A) : framed m -> framed (or_conflict m).
Proof.
  intros Hm w r w' E. unfold or_conflict in E. destruct (m w) as [[a|e] w1] eqn:Em.
  - injection E as _ <-. by eapply Hm.
  - destruct e as [reason|[]| | | | |scope| | | | | |]; injection E as _ <-; by eapply Hm.
Qed.

Lemma framed_claim_row owner requested now : framed (sql (claim_row owner requested now)).
Proof.
  apply framed_sql. intros d o d' Hc. unfold claim_row in Hc.
  destruct (first_by _ _) as [[id r]|]; [|by injection Hc as _ <-].
  destruct (runs_updated _ _ _) as [[n d1]|e] eqn:Hu; [|done]. injection Hc as _ <-.
  apply runs_updated_ok in Hu as (_ & Hr & _ & Ho & _). by eapply HR, updated_frame.
Qed.

Ltac framing_step :=
  first
    [ apply framed_ret | apply framed_fail | apply framed_lift | apply framed_query
    | apply framed_update_runs | apply framed_update_attempts | apply framed_insert_attempt
    | apply framed_claim_row | apply framed_or_conflict | apply framed_map_err
    | apply framed_quiet, quiet_increment | apply framed_quiet, quiet_count_reclaim
    | apply framed_quiet, quiet_late_completion | apply framed_quiet, quiet_acquire
    | apply framed_quiet, quiet_not_cancelled | apply framed_quiet, quiet_commit
    | apply framed_quiet, quiet_choose | apply framed_quiet, quiet_stale_plan
    | apply framed_body | apply framed_bind; [|intros ?] | split_match ].

Ltac framing := repeat framing_step.

Lemma framed_by {A} (m : Tx A) w : framed m -> R (db w) (db (m w).2).
Proof. intros Hm. destruct (m w) as [r w'] eqn:E. by eapply Hm. Qed.

Lemma perform_frame c w : is_completion c = false -> R (db w) (db (perform c w)).
Proof.
  destruct c; cbn [perform is_completion]; intros Hc; try done; apply framed_by;
    unfold claim_next_scheduled_run_inner, claim_body, claim_found, claim_nothing,
      heartbeat_scheduled_run, mark_scheduled_run_executing,
      record_scheduled_run_preflight_failure_inner, record_scheduled_run_execution_outcome,
      reclaim_next_expired_scheduled_run, reclaim_next_expired_scheduled_run_from_snapshot,
      reclaim_next_expired_scheduled_run_inner, reconcile_expired_scheduled_run, reconcile_apply,
      or_lost_lease, fenced_update; framing.
Qed.

Hypothesis frame_artifact : forall id f, framed (insert_artifact id f).
Hypothesis frame_baseline : forall u, framed (compare_and_swap_execution_baseline_in_transaction u).
Hypothesis frame_intent : forall id i, framed (insert_intent id i).

Lemma framed_intents b s now targets : framed (insert_intents b s now targets).
Proof.
  induction targets; cbn [insert_intents]; repeat first [apply frame_intent | framing_step]. done.
Qed.

Lemma complete_frame b result completed_at random :
  framed (complete_scheduled_run_success b result completed_at random).
Proof.
  unfold complete_scheduled_run_success, accept_result, resolve_scheduled_run_completion_conflict.
  repeat first [apply frame_artifact | apply frame_baseline | apply framed_intents | framing_step].
Qed.

End Frame.

Section Histories.
Context `{Calendar} `{Serde} `{Sha2} `{Sqlite}.

(** What the run store may do to the delivery tables. *)
Record intents_added (d d' : Db) : Prop := {
  ia_artifacts : artifacts d ⊆ artifacts d';
  ia_attempts : delivery_attempts d' = delivery_attempts d;
  ia_baselines : delivery_baselines d' = delivery_baselines d;
  ia_kept : forall id r, deliveries d !! id = Some r -> deliveries d' !! id = Some r;
  ia_fresh : forall id r, deliveries d' !! id = Some r -> deliveries d !! id = None ->
    exists i, r = fresh_delivery i /\ intent_checks id i = true;
  ia_distinct : intents_distinct d -> intents_distinct d';
  ia_log : same_log d d'
}.

#[export] Instance intents_added_preorder : PreOrder intents_added.
Proof.
  split.
  - intros d. split; try done. congruence.
  - intros d d1 d2 [] []. split; [by etrans|congruence..|by auto| |by auto|].
    2: { destruct ia_log0, ia_log1. split; congruence. }
    intros id r Hr Hnone. destruct (deliveries d1 !! id) as [r1|] eqn:E; [|by eauto].
    apply ia_kept1 in E as Hr1. simplify_eq. by eauto.
Qed.

Lemma run_frame_added d d' : run_frame d d' -> intents_added d d'.
Proof.
  intros [[] _]. split; try done; unfold intents_distinct; rewrite ?same_deliveries0; try done;
    [by rewrite same_artifacts0|congruence].
Qed.

Lemma added_intent id i : respects intents_added (insert_intent id i).
Proof.
  apply (respects_sql intents_added). intros d x d'. destruct (_ && _) eqn:E; [|done].
  intros [= _ <-]. apply andb_true_iff in E as [E Hnew]. bool_facts.
  assert (forall id' r', deliveries d !! id' = Some r' -> intent_collides id i (id', r') = false)
    as Hfree.
  { intros id' r' Hr'. apply not_true_iff_false. intros Hc.
    apply not_true_iff_false in Hnew. apply Hnew, existsb_exists. exists (id', r').
    split; [|done]. apply list_elem_of_In. by apply elem_of_map_to_list. }
  assert (deliveries d !! id = None) as Hnone.
  { destruct (deliveries d !! id) as [r|] eqn:Hr; [|done]. apply Hfree in Hr.
    unfold intent_collides in Hr. cbn in Hr. by rewrite String.eqb_refl in Hr. }
  split; try done; cbn.
  - intros id' r' Hr'. rewrite lookup_insert_ne; [done|congruence].
  - intros id' r'. rewrite lookup_insert_Some. intros [[<- <-]|[_ Hr']]; [by eauto|congruence].
  - intros Hd id1 id2 r1 r2. cbn. rewrite !lookup_insert_Some.
    intros [[<- <-]|[_ H1']] [[<- <-]|[_ H2']] Hne; [done| | |by eapply Hd].
    + by apply Hfree.
    + by rewrite (intent_collides_sym id1 _ id _ r1), Hfree.
Qed.

Lemma added_artifact id f : respects intents_added (insert_artifact id f).
Proof.
  intros w [u|e] w' Hi; [|by apply sql_err in Hi as ->].
  apply insert_artifact_ok in Hi as (Hn & _ & Hw). rewrite Hw.
  split; try done; [by apply insert_subseteq|cbn; congruence].
Qed.

Lemma added_baseline u :
  respects intents_added (compare_and_swap_execution_baseline_in_transaction u).
Proof.
  unfold compare_and_swap_execution_baseline_in_transaction.
  repeat first [apply (respects_fail intents_added) | apply (respects_lift intents_added)
               | apply (respects_bind intents_added); [|intros ?] | split_match].
  apply (respects_sql intents_added). intros d x d' Hs. peel Hs; by split; try done; cbn; congruence.
Qed.

Lemma perform_added c w : intents_added (db w) (db (perform c w)).
Proof.
  destruct (is_completion c) eqn:E.
  - destruct c; try done. cbn [perform]. apply (framed_by intents_added).
    apply complete_frame; eauto using run_frame_added, added_artifact, added_baseline, added_intent.
    all: apply _.
  - apply perform_frame; [apply _|apply run_frame_added|done].
Qed.

(** What the job transactions do to the delivery tables: nothing. *)
Lemma job_rest_added d d' : job_rest d d' -> intents_added d d'.
Proof.
  intros []. split; try done; unfold intents_distinct; rewrite ?jr_deliveries0; try done;
    [by rewrite jr_artifacts0|congruence].
Qed.

Lemma manage_rest c w : job_rest (db w) (db (manage c w)).
Proof. apply manage_respects; [apply _|apply rest_statements]. Qed.

(** ** Histories *)

Inductive Event :=
| OfJob (c : JobCall)
| OfRun (c : Call)
| OfDelivery (c : DeliveryCall)
| OfOperator (c : OperatorCall).

Definition happen (e : Event) (w : World) : World :=
  match e with
  | OfJob c => manage c w
  | OfRun c => perform c w
  | OfDelivery c => deliver c w
  | OfOperator c => operate c w
  end.

Definition history (events : list Event) (w : World) : World :=
  foldl (fun w e => happen e w) w events.

(** A step of any part, as the deliveries see it. *)
Definition system_step (d d' : Db) : Prop :=
  delivery_step d d' \/ intents_added d d' \/ operator_step d d'.

Lemma system_step_log d d' : system_step d d' -> log_grows d d'.
Proof.
  intros [(_ & _ & Hs)|[Hs|[_ _ (_ & _ & Hs) _ _]]]; [by apply rest_log| |done].
  apply same_log_grows, Hs.
Qed.

Lemma system_steps_log d d' : rtc system_step d d' -> log_grows d d'.
Proof. induction 1 as [|d d1 d' Hs _ IH]; [done|]. etrans; [by apply system_step_log|done]. Qed.

Lemma happen_steps e w : rtc system_step (db w) (db (happen e w)).
Proof.
  destruct e as [c|c|c|c]; cbn [happen].
  - apply rtc_once. right. left. apply job_rest_added, manage_rest.
  - apply rtc_once. right. left. apply perform_added.
  - eapply (rtc_congruence id); [|apply deliver_steps]. intros d d' Hs. by left.
  - apply rtc_once. do 2 right. apply operate_step.
Qed.

Lemma history_steps events w : rtc system_step (db w) (db (history events w)).
Proof.
  revert w. induction events as [|e events IH]; intros w; [done|]. cbn.
  etrans; [apply happen_steps|apply IH].
Qed.

(** Deliveries do not move runs. *)
Lemma delivery_steps_keep_rest d d' : rtc delivery_step d d' -> same_rest d d'.
Proof. induction 1 as [|d d1 d' (_ & _ & Hr) _ IH]; [done|by etrans]. Qed.

Lemma job_steps_steps d d' : rtc job_step d d' -> rtc step d d'.
Proof. induction 1 as [|d d1 d' [_ _ _ Hs] _ IH]; [done|by etrans]. Qed.

Lemma happen_runs e w : rtc step (db w) (db (happen e w)).
Proof.
  destruct e as [c|c|c|c]; cbn [happen];
    [apply job_steps_steps, manage_steps|apply perform_steps| |apply rtc_once, operate_step].
  pose proof (delivery_steps_keep_rest _ _ (deliver_steps c w)) as Hrest.
  apply rtc_once, same_runs_step; [apply Hrest..|by apply rest_log].
Qed.

Lemma history_runs events w : rtc step (db w) (db (history events w)).
Proof.
  revert w. induction events as [|e events IH]; intros w; [done|]. cbn.
  etrans; [apply happen_runs|apply IH].
Qed.

Lemma fresh_checks id i : intent_checks id i = true -> delivery_checks id (fresh_delivery i) = true.
Proof.
  intros Hc. unfold delivery_checks. cbn. rewrite Hc, Z.leb_refl. done.
Qed.

Lemma fresh_not_sending i : sending_key (fresh_delivery i) = None.
Proof. done. Qed.

Lemma NoDup_omap_inj {A B} (f : A -> option B) (l : list A) :
  (forall x y b, x ∈ l -> y ∈ l -> f x = Some b -> f y = Some b -> x = y) ->
  NoDup l -> NoDup (omap f l).
Proof.
  induction l as [|z l IH]; intros Hinj Hnd; [constructor|].
  apply NoDup_cons in Hnd as [Hz Hnd]. cbn.
  assert (NoDup (omap f l)) as Hl.
  { apply IH; [|done]. intros x y b Hx Hy. apply Hinj; by constructor. }
  destruct (f z) as [b|] eqn:E; [|done]. apply NoDup_cons. split; [|done].
  intros (x & Hx & Hfx)%list_elem_of_omap. apply Hz.
  rewrite (Hinj z x b); [done|by constructor..|done|done].
Qed.

(** Fresh intents keep the constraint on active sends. *)
Lemma added_unique d d' :
  intents_added d d' -> active_unique (deliveries d) = true -> active_unique (deliveries d') = true.
Proof.
  intros [_ _ _ Hkept Hfresh _ _] Hu. apply bool_decide_eq_true_2.
  assert (forall id r key, deliveries d' !! id = Some r -> sending_key r = Some key ->
    deliveries d !! id = Some r) as Hold.
  { intros id r key Hr Hk. destruct (deliveries d !! id) as [r0|] eqn:E.
    - apply Hkept in E. congruence.
    - destruct (Hfresh id r Hr E) as (i & -> & _). done. }
  apply NoDup_omap_inj; [|apply NoDup_map_to_list].
  intros [id r] [id' r'] key Hx%elem_of_map_to_list Hy%elem_of_map_to_list Hk Hk'.
  assert (id = id') as <-; [|by simplify_eq].
  eapply active_unique_inj; [exact Hu|by eapply Hold|by eapply Hold|exact Hk|exact Hk'].
Qed.

Lemma added_consistent d d' :
  intents_added d d' -> deliveries_consistent d -> deliveries_consistent d'.
Proof.
  intros Hadd [(Hok & Hu & Hoka) Hag Hown Hdist]. pose proof (added_unique d d' Hadd Hu).
  destruct Hadd as [_ Ha _ Hkept Hfresh Hd Hlog%same_log_grows].
  assert (forall id r, deliveries d' !! id = Some r ->
    deliveries d !! id = Some r
    \/ (deliveries d !! id = None /\ exists i, r = fresh_delivery i /\ intent_checks id i = true))
    as Hcase.
  { intros id r Hr. destruct (deliveries d !! id) as [r0|] eqn:E; [left|right; by eauto].
    apply Hkept in E. congruence. }
  split; [split_and!| | |by apply Hd].
  - intros id r [Hr|(_ & i & -> & Hi)]%Hcase; [by eauto|by apply fresh_checks].
  - done.
  - intros id n a. rewrite Ha. apply Hoka.
  - intros id r [Hr|(Hnone & i & -> & Hi)]%Hcase.
    + apply (agrees_ext id d); [|done|by auto]. intros n. by rewrite Ha.
    + split; cbn; [done|done|lia|]. intros n _. rewrite Ha.
      destruct (delivery_attempts d !! (id, n)) as [a|] eqn:E; [|done].
      apply Hown in E as [r Hr]. congruence.
  - intros id n a. rewrite Ha. intros [r Hr]%Hown. exists r. by apply Hkept.
Qed.

Lemma system_steps_consistent d d' :
  rtc system_step d d' -> deliveries_consistent d -> deliveries_consistent d'.
Proof.
  induction 1 as [|d d1 d' [Hs|[Hs|Hs]] _ IH];
    eauto using delivery_step_consistent, added_consistent, operator_step_consistent.
Qed.

Lemma system_steps_grow d d' id r :
  rtc system_step d d' -> deliveries d !! id = Some r ->
  exists r', deliveries d' !! id = Some r' /\ delivery_grows r r'.
Proof.
  intros Hsteps. revert r. induction Hsteps as [d|d d1 d' Hstep _ IH]; intros r Hr;
    [exists r; by split|].
  assert (exists r1, deliveries d1 !! id = Some r1 /\ delivery_grows r r1) as (r1 & Hr1 & Hg).
  { destruct Hstep as [Hs|[[_ _ _ Hkept _ _ _]|Hs]]; [by eapply step_grows|exists r; split; [by eauto|done]|].
    destruct (operator_step_delivery _ _ _ _ Hs Hr) as (r1 & Hr1 & [->|[Hk _]]); [by exists r|eauto using kept_grows]. }
  destruct (IH r1 Hr1) as (r' & Hr' & Hg'). exists r'. split; [done|by etrans].
Qed.

(** What ended for good, and what ended with an outcome nobody knows. *)
Definition is_final (s : ScheduledDeliveryState) : bool :=
  is_settled s && negb (bool_decide (s = DDeliveryUnknown)).

Lemma final_step_stays d d' id r :
  system_step d d' -> deliveries d !! id = Some r -> is_final (d_state r) = true ->
  deliveries d' !! id = Some r.
Proof.
  intros Hstep Hr Hf. apply andb_true_iff in Hf as [Hs Hne]. bool_facts.
  destruct Hstep as [?|[?|Hop]]; [by eapply settled_step_stays|by eapply ia_kept|].
  destruct (operator_step_delivery _ _ _ _ Hop Hr) as (r' & Hr' & [->|[_ [E|[E _]]]]); [done|..].
  - by rewrite E in Hs.
  - done.
Qed.

Lemma final_system_stays d d' id r :
  rtc system_step d d' -> deliveries d !! id = Some r -> is_final (d_state r) = true ->
  deliveries d' !! id = Some r.
Proof. induction 1; eauto using final_step_stays. Qed.

(** An unknown outcome stays, unless an operator's resolution is on record. *)
Lemma unknown_system_stays d d' id r :
  rtc system_step d d' -> deliveries d !! id = Some r -> d_state r = DDeliveryUnknown ->
  deliveries d' !! id = Some r \/ exists s, resolved_on_record d' id (d_attempt r) (d_fence r) s.
Proof.
  induction 1 as [|d d1 d' Hstep Hsteps IH]; [by left|]. intros Hr Hs.
  pose proof (system_steps_log _ _ Hsteps) as Hl.
  assert (deliveries d1 !! id = Some r \/ exists s, resolved_on_record d1 id (d_attempt r) (d_fence r) s)
    as [?|[s Hrec]]; [|by auto|right; eauto using resolved_stays_on_record].
  destruct Hstep as [?|[?|Hop]]; [left..|].
  - eapply settled_step_stays; [done..|by rewrite Hs].
  - by eapply ia_kept.
  - destruct (operator_step_delivery _ _ _ _ Hop Hr) as (r' & Hr' & [->|[_ [E|[_ E]]]]);
      [by left|congruence|right; by eauto].
Qed.

(** ** Deliveries come from runs that succeeded *)

(** Every delivery carries the accepted result of a run that succeeded. *)
Definition backed (d : Db) : Prop :=
  forall id r, deliveries d !! id = Some r ->
    (exists run, runs d !! d_run_id (d_intent r) = Some run /\ r_state run = Succeeded)
    /\ exists f, artifacts d !! d_result_artifact_id (d_intent r) = Some f
         /\ f_run_id f = d_run_id (d_intent r).

Lemma succeeded_stays d d' id run :
  rtc step d d' -> runs d !! id = Some run -> r_state run = Succeeded -> runs d' !! id = Some run.
Proof.
  intros Hs Hr E. destruct (steps_run _ _ _ _ Hs Hr) as (r' & Hr' & _ & _ & _ & Heq).
  destruct Heq as [->|[_ [?|[?|?]]]]; [by rewrite E|by rewrite E|done|congruence|congruence|congruence].
Qed.

(** A delivery that was there before, with the same intent, stays backed. *)
Lemma backed_stays d d' i :
  rtc step d d' -> artifacts d ⊆ artifacts d' ->
  (exists run, runs d !! d_run_id i = Some run /\ r_state run = Succeeded)
  /\ (exists f, artifacts d !! d_result_artifact_id i = Some f /\ f_run_id f = d_run_id i) ->
  (exists run, runs d' !! d_run_id i = Some run /\ r_state run = Succeeded)
  /\ (exists f, artifacts d' !! d_result_artifact_id i = Some f /\ f_run_id f = d_run_id i).
Proof.
  intros Hs Ha [(run & Hr & E) (f & Hf & Hid)]. split.
  - exists run. split; [by eapply succeeded_stays|done].
  - exists f. split; [by eapply lookup_weaken|done].
Qed.

Lemma complete_backed b result completed_at random w :
  backed (db w) -> backed (db (complete_scheduled_run_success b result completed_at random w).2).
Proof.
  intros Hb. destruct (complete_scheduled_run_success _ _ _ _ w) as [x w'] eqn:E. cbn [snd].
  pose proof (perform_added (CompleteSuccess b result completed_at random) w) as Hadd.
  pose proof (perform_steps (CompleteSuccess b result completed_at random) w) as Hs.
  cbn [perform] in Hadd, Hs. rewrite E in Hadd, Hs. cbn [snd] in Hadd, Hs.
  intros id r Hr. destruct (deliveries (db w) !! id) as [r0|] eqn:Hr0.
  - apply (ia_kept _ _ Hadd) in Hr0 as Hr0'. simplify_eq.
    eapply backed_stays; [done|by apply Hadd|by eapply Hb].
  - apply complete_cases in E as [[_ (_ & _ & Ho)]|(_ & run & a & targets & v & _ & [])].
    + rewrite (same_deliveries _ _ Ho) in Hr. congruence.
    + destruct acc_deliveries0 as (_ & _ & Hnew). destruct (Hnew id r Hr Hr0) as (tg & key & _ & ->).
      cbn. rewrite acc_runs0, acc_artifacts0, !lookup_insert_eq. split; by eexists.
Qed.

Lemma steps_back d d' id r' :
  rtc delivery_step d d' -> deliveries d' !! id = Some r' ->
  exists r, deliveries d !! id = Some r /\ d_intent r' = d_intent r.
Proof.
  intros Hs. induction Hs as [d|d d1 d' Hstep _ IH]; intros Hr'; [by exists r'|].
  destruct (IH Hr') as (r1 & Hr1 & ->). destruct Hstep as [Hm _].
  by apply (delivery_moves_back id d d1 r1).
Qed.

Lemma happen_backed e w : backed (db w) -> backed (db (happen e w)).
Proof.
  intros Hb. pose proof (happen_runs e w) as Hs. destruct e as [c|c|c|c]; cbn [happen] in *.
  - destruct (manage_rest c w). intros id r. rewrite jr_deliveries0. intros Hr.
    eapply backed_stays; [done|by rewrite jr_artifacts0|by eapply Hb].
  - destruct (is_completion c) eqn:E; [destruct c; try done; by apply complete_backed|].
    pose proof (perform_frame same_others (rf_others) c w E) as Ho.
    intros id r. rewrite (same_deliveries _ _ Ho). intros Hr.
    eapply backed_stays; [done|by rewrite (same_artifacts _ _ Ho)|by eapply Hb].
  - pose proof (deliver_steps c w) as Hd. pose proof (delivery_steps_keep_rest _ _ Hd) as [].
    intros id r' Hr'. destruct (steps_back _ _ _ _ Hd Hr') as (r & Hr & ->).
    eapply backed_stays; [done|by rewrite rest_artifacts0|by eapply Hb].
  - destruct (operate_step c w) as [Hm _ _ [] _]. intros id r' Hr'.
    destruct (operator_moves_back id _ _ r' (Hm id) Hr') as (r & Hr & ->).
    eapply backed_stays; [done|by rewrite or_artifacts0|by eapply Hb].
Qed.

Lemma history_backed events w : backed (db w) -> backed (db (history events w)).
Proof.
  revert w. induction events as [|e events IH]; intros w Hb; [done|]. cbn. by apply IH, happen_backed.
Qed.

(** ** Jobs over histories *)

(** What the other parts leave of the job tables: all of it, and they add no
    run. *)
Record jobs_alone (d d' : Db) : Prop := {
  al_jobs : jobs d' = jobs d;
  al_schedules : schedules d' = schedules d;
  al_targets : job_targets d' = job_targets d;
  al_keys : idempotency_keys d' = idempotency_keys d;
  al_audit : mutation_audit d' = mutation_audit d;
  al_no_new : forall id, runs d !! id = None -> runs d' !! id = None
}.

#[export] Instance jobs_alone_preorder : PreOrder jobs_alone.
Proof. split; [by split|]. intros d d1 d2 [] []. split; [congruence..|by eauto]. Qed.

Lemma run_frame_alone d d' : run_frame d d' -> jobs_alone d d'.
Proof. by intros [[] ?]. Qed.

Lemma perform_alone c w : jobs_alone (db w) (db (perform c w)).
Proof.
  destruct (is_completion c) eqn:E;
    [|apply perform_frame; [apply _|apply run_frame_alone|done]].
  destruct c; try done. cbn [perform]. apply (framed_by jobs_alone).
  apply complete_frame; [apply _|apply run_frame_alone|..]; intros.
  - apply (respects_sql jobs_alone). intros d x d' Hs. destruct (_ && _); [|done].
    injection Hs as _ <-. by split.
  - unfold compare_and_swap_execution_baseline_in_transaction.
    repeat first [apply (respects_fail jobs_alone) | apply (respects_lift jobs_alone)
                 | apply (respects_bind jobs_alone); [|intros ?] | split_match].
    apply (respects_sql jobs_alone). intros d x d' Hs. peel Hs; by split.
  - apply (respects_sql jobs_alone). intros d x d' Hs. destruct (_ && _); [|done].
    injection Hs as _ <-. by split.
Qed.

Lemma deliver_alone c w : jobs_alone (db w) (db (deliver c w)).
Proof.
  destruct (delivery_steps_keep_rest _ _ (deliver_steps c w)). split; try done.
  intros id. by rewrite rest_runs0.
Qed.

Lemma operate_alone c w : jobs_alone (db w) (db (operate c w)).
Proof. destruct (operate_step c w) as [_ _ _ [] Hno]. by split. Qed.

Lemma alone_job_step d d' : jobs_alone d d' -> rtc step d d' -> job_step d d'.
Proof.
  intros [] Hs. split; [| | |done].
  - intros id. apply job_stays; congruence.
  - unfold job_rows_ok. by rewrite al_jobs0, al_schedules0.
  - intros id r Hr Hn%al_no_new0. congruence.
Qed.

Lemma happen_jobs e w : rtc job_step (db w) (db (happen e w)).
Proof.
  pose proof (happen_runs e w). destruct e as [c|c|c|c]; cbn [happen] in *; [apply manage_steps|..];
    apply rtc_once, alone_job_step; auto using perform_alone, deliver_alone, operate_alone.
Qed.

Lemma history_jobs events w : rtc job_step (db w) (db (history events w)).
Proof.
  revert w. induction events as [|e events IH]; intros w; [done|]. cbn.
  etrans; [apply happen_jobs|apply IH].
Qed.

(** A completed idempotency record stays. *)
Lemma happen_records e w : records_stay (db w) (db (happen e w)).
Proof.
  destruct e as [c|c|c|c]; cbn [happen].
  - apply manage_respects; [apply _|apply records_statements].
  - intros key k. by rewrite (al_keys _ _ (perform_alone c w)).
  - intros key k. by rewrite (al_keys _ _ (deliver_alone c w)).
  - intros key k. by rewrite (al_keys _ _ (operate_alone c w)).
Qed.

Lemma history_records events w : records_stay (db w) (db (history events w)).
Proof.
  revert w. induction events as [|e events IH]; intros w; [done|]. cbn.
  etrans; [apply happen_records|apply IH].
Qed.

(** The limits every call of the history is held to. *)
Definition event_within (global owned : Z) (e : Event) : Prop :=
  match e with OfJob c => call_within global owned c | _ => True end.

Lemma happen_within global owned e w :
  event_within global owned e -> within_limits global owned (db w) ->
  within_limits global owned (db (happen e w)).
Proof.
  assert (forall d d', jobs_alone d d' -> within_limits global owned d -> within_limits global owned d')
    as Halone.
  { intros d d' []. unfold within_limits, active_jobs, active_jobs_of. by rewrite al_jobs0. }
  destruct e as [c|c|c|c]; cbn [happen]; intros Hc Hin.
  - by apply manage_within.
  - by eapply Halone, Hin; apply perform_alone.
  - by eapply Halone, Hin; apply deliver_alone.
  - by eapply Halone, Hin; apply operate_alone.
Qed.

Lemma history_within global owned events w :
  Forall (event_within global owned) events -> within_limits global owned (db w) ->
  within_limits global owned (db (history events w)).
Proof.
  intros Hall. revert w. induction Hall as [|e events He _ IH]; intros w Hin; [done|]. cbn.
  by apply IH, happen_within.
Qed.

(** ** The log over histories *)

Lemma same_log_ok d d' : same_log d d' -> log_ok d -> log_ok d'.
Proof. intros [Ha Hc] []. by split; rewrite ?Ha, ?Hc. Qed.

Lemma rest_log_ok d d' : same_rest d d' -> log_ok d -> log_ok d'.
Proof.
  intros [] []. split; rewrite ?rest_operator_actions0; [| |done].
  - intros k [?|?]%rest_used0; auto.
  - intros k o Ho Hne. destruct (log_used0 _ _ Ho Hne) as [c Hc]. exists c. by eapply lookup_weaken.
Qed.

Lemma happen_log e w : log_ok (db w) -> log_ok (db (happen e w)).
Proof.
  destruct e as [c|c|c|c]; cbn [happen]; [..|apply operate_log].
  - apply same_log_ok, job_rest_added, manage_rest.
  - apply same_log_ok, perform_added.
  - apply rest_log_ok, delivery_steps_keep_rest, deliver_steps.
Qed.

Lemma history_log events w : log_ok (db w) -> log_ok (db (history events w)).
Proof.
  revert w. induction events as [|e events IH]; intros w Hl; [done|]. cbn. by apply IH, happen_log.
Qed.

End Histories.

End System.
