(* ===== verification/SystemSafety.v ===== *)
(** * What the scheduler guarantees about its runs

    The theorems about runs over every interleaving of calls on jobs, runs and
    deliveries, with storage faults anywhere. *)

From stdpp Require Import base tactics list strings numbers pretty gmap relations.
From Stdlib Require Import ZArith Lia Ascii.
From S2P Require Import Prelude.
From S2P Require Import Policy.
From S2P Require Import Schedule.
From S2P Require Import Json.
From S2P Require Import Digest.
From S2P Require Import Capability.
From S2P Require Import Authority.
From S2P Require Import Tables.
From S2P Require Import Runs.
From S2P Require Import Completion.
From S2P Require Import Lifecycle.
From S2P Require Import RunSafety.
From S2P Require Import Jobs.
From S2P Require Import JobLifecycle.
From S2P Require Import JobInvariants.
From S2P Require Import System.
Import Digest.

Module SystemSafety.
Import Schedule Snapshot Authority Tables Runs Completion Lifecycle RunSafety Jobs JobLifecycle
  JobInvariants System.

Section Properties.
Context `{Calendar} `{Serde} `{Sha2} `{Sqlite}.

(** C31. The run and attempt tables stay consistent over every history: a live
    run has its current attempt with the same owner, fence, state and lease, no
    attempt is ahead of its run, only the current attempt of a live run is
    open, every row satisfies its CHECK constraints and no job has two active
    runs. *)
Theorem store_stays_consistent events w :
  consistent (db w) -> consistent (db (history events w)).
Proof. apply steps_consistent, history_runs. Qed.

(** C1. Fencing: once a run has been claimed under a higher fence, a caller that
    still presents an older binding changes nothing but counters and late
    evidence, at any later time, whatever happened in between. *)
Theorem fenced_out_forever events w c b now r :
  runs (db w) !! run_id b = Some r -> fence b < r_fence r -> presents c = Some (b, now) ->
  keeps (db (history events w)) (db (perform c (history events w))).
Proof.
  intros Hr Hf Hp.
  destruct (presents_guarded c b now (history events w) Hp) as [?|(r' & t & Hr' & Hb & _)]; [done|].
  destruct (steps_run _ _ _ _ (history_runs events w) Hr) as (r2 & Hr2 & _ & Hmono & _).
  apply bound_run_facts in Hb as (_ & _ & _ & Hfence & _). simplify_eq. lia.
Qed.

(** A run that stopped (succeeded, failed, timed out, cancelled or with an
    unknown outcome) keeps its row unchanged through every history: no claim,
    report, recovery or cancellation revives it, only an operator whose retry of
    a failed, timed out or cancelled run is on record and used up. *)
Theorem stopped_runs_stay events w id r :
  runs (db w) !! id = Some r -> r_state r <> Pending -> is_live (r_state r) = false ->
  runs (db (history events w)) !! id = Some r
  \/ revivable (r_state r)
     /\ retry_on_record (db (history events w)) id (r_attempt r) (r_fence r).
Proof.
  intros Hr Hp Hl.
  destruct (steps_run _ _ _ _ (history_runs events w) Hr) as (r' & Hr' & _ & _ & _ & Heq).
  destruct (Heq Hp Hl) as [->|[? ?]]; auto.
Qed.

(** C2. An execution that started is repeated (its run waits again, or is on a
    later attempt) only if the profile persisted when it started attests it to
    be free of side effects or recoverable, or an operator's retry of exactly
    that attempt is on record with its reason; otherwise it ends with its outcome
    unknown or for good. *)
Theorem executions_repeat_only_if_attested events w id r a r' :
  runs (db w) !! id = Some r -> r_state r = Executing ->
  attempts (db w) !! (id, r_attempt r) = Some a ->
  runs (db (history events w)) !! id = Some r' ->
  r_state r' = Pending \/ r_attempt r < r_attempt r' ->
  attested id r a \/ retry_on_record (db (history events w)) id (r_attempt r) (r_fence r).
Proof.
  intros Hr Hs Ha Hr' Hagain.
  destruct (steps_after_execution _ _ _ _ _ (history_runs events w) Hr Hs Ha); [| |by left|by right];
    simplify_eq; destruct Hagain; first [congruence | lia].
Qed.

End Properties.

(** ** Instances *)

#[local] Existing Instance sample_serde.
#[local] Existing Instance sample_sha2.
#[local] Existing Instance sample_sqlite.
#[local] Existing Instance Schedule.decade_calendar.

Definition sample_events : list Event := OfRun <$> sample_calls.

Lemma store_stays_consistent_witness : consistent (db (history sample_events waiting_world)).
Proof. apply (store_stays_consistent sample_events waiting_world), waiting_world_consistent. Defined.

Lemma fenced_out_forever_witness :
  let w := history [OfRun (Heartbeat (mkLeaseBinding "run-1" "job-1" 2 2 "worker-1") 150 300);
                    OfJob (PauseJob "job-1" 1 155)] leased_world in
  keeps (db w) (db (perform (Heartbeat sample_binding 160 400) w)).
Proof.
  apply (fenced_out_forever _ leased_world (Heartbeat sample_binding 160 400) sample_binding 160
    (sample_leased 2 2)); [reflexivity|cbn; lia|reflexivity].
Defined.

Lemma stopped_runs_stay_witness :
  runs (db (history (sample_events ++ [OfRun (ReclaimSnapshot 500); OfJob (DeleteJob "job-1" 1 600)])
              (sample_world sample_unknown []))) !! "run-1" = Some sample_unknown.
Proof.
  destruct (stopped_runs_stay
    (sample_events ++ [OfRun (ReclaimSnapshot 500); OfJob (DeleteJob "job-1" 1 600)])
    (sample_world sample_unknown []) "run-1" sample_unknown) as [Hr|[[E|[E|E]] _]];
    [reflexivity|discriminate|reflexivity|exact Hr|discriminate..].
Defined.

Definition repeating_events : list Event :=
  [OfRun (ExecutionOutcome sample_binding (ExecutionRetryAt 160 3000 3 TerminalFailed)
     "transport" "reset" 130 "r")].

Lemma executions_repeat_only_if_attested_witness :
  attested "run-1" sample_executing (sample_attempt AExecuting 1)
  \/ retry_on_record (db (history repeating_events executing_world)) "run-1" 1 1.
Proof.
  refine (executions_repeat_only_if_attested repeating_events
    executing_world "run-1" sample_executing (sample_attempt AExecuting 1)
    (release_run Pending (Some 160) (Some 1) None None 130 sample_executing) _ _ _ _ _).
  - reflexivity.
  - reflexivity.
  - vm_compute. reflexivity.
  - vm_compute. reflexivity.
  - left. reflexivity.
Defined.

End SystemSafety.
