(* ===== verification/DeliverySafety.v ===== *)
(** * What the delivery store promises (crates/state/src/scheduler/store.rs)

    The theorems about deliveries, over every interleaving of calls on jobs,
    runs and deliveries on one database, with storage faults anywhere, and their instances on a sample run that is completed, prepared,
    claimed and sent. *)

From stdpp Require Import base tactics list strings numbers pretty gmap relations.
From Stdlib Require Import ZArith Lia Ascii.
From S2P Require Import Prelude.
From S2P Require Import Policy.
From S2P Require Import Schedule.
From S2P Require Import Json.
From S2P Require Import Digest.
From S2P Require Import Capability.
From S2P Require Import Authority.
From S2P Require Import Tables.
From S2P Require Import Runs.
From S2P Require Import Completion.
From S2P Require Import Lifecycle.
From S2P Require Import RunSafety.
From S2P Require Import DeliveryTables.
From S2P Require Import Deliveries.
From S2P Require Import DeliveryLifecycle.
From S2P Require Import DeliveryInvariants.
From S2P Require Import System.
Import Digest.

Module DeliverySafety.
Import Schedule Snapshot Authority Tables Runs Completion Lifecycle RunSafety DeliveryTables
  Deliveries DeliveryLifecycle DeliveryInvariants System.

Section Properties.
Context `{Calendar} `{Serde} `{Sha2} `{Sqlite}.

(** ** Over every history *)

(** C23. Whatever calls the stores serve, in whatever order and with whatever
    storage faults, the deliveries take only steps of the abstract delivery
    machine (a claim opens the next attempt, a report closes the open one, the
    rest moves a waiting delivery), apart from fresh intents that a completed
    run adds and the recorded steps of operators, and the runs take only steps
    of the run lifecycle. *)
Theorem history_refines_machines events w :
  rtc system_step (db w) (db (history events w)) /\ rtc step (db w) (db (history events w)).
Proof. split; [apply history_steps|apply history_runs]. Qed.

(** C22. Every interleaving keeps the delivery tables consistent: every row and
    attempt passes its CHECK constraints, a delivery on attempt [n] has exactly
    the attempts [1..n], each with its own fence and the one idempotency key,
    every one before the last a confirmed failure to write or an unknown outcome
    that an operator resent on record, the last agreeing with the delivery's
    state; and no two deliveries share an id, a key, or a
    run and target. *)
Theorem deliveries_stay_consistent events w :
  deliveries_consistent (db w) -> deliveries_consistent (db (history events w)).
Proof. apply system_steps_consistent, history_steps. Qed.

(** A delivery that ended for good (delivered, failed for good, skipped) keeps
    its row unchanged through every interleaving: no call of the stores and no
    operator sends it again. *)
Theorem settled_deliveries_stay events w id r :
  deliveries (db w) !! id = Some r -> is_final (d_state r) = true ->
  deliveries (db (history events w)) !! id = Some r.
Proof. apply final_system_stays, history_steps. Qed.

Lemma attempt_in_row d id n a :
  deliveries_consistent d -> delivery_attempts d !! (id, n) = Some a ->
  exists r, deliveries d !! id = Some r /\ 0 < n <= d_attempt r /\ attempt_agrees d id r n a.
Proof.
  intros [_ Hag Hown _] Ha. destruct (Hown id n a Ha) as [r Hr]. exists r.
  destruct (Hag id r Hr) as [_ _ Hatt Hno].
  destruct (decide (0 < n <= d_attempt r)) as [Hn|Hn]; [|by rewrite Hno in Ha].
  destruct (Hatt n Hn) as (a' & Ha' & Hagree). by simplify_eq.
Qed.

(** C20. A message is sent again only after the provider confirmed that the
    earlier send wrote nothing, or an operator took the risk of a duplicate: of
    two attempts of a delivery, the earlier one ended as a confirmed retryable
    failure, or with its outcome unknown and a forced resend of exactly that
    attempt on record, with evidence, reason and acknowledgement; and both
    present the same idempotency key under their own fences. *)
Theorem sent_again_only_after_confirmed_failure events w id m n a b :
  deliveries_consistent (db w) ->
  delivery_attempts (db (history events w)) !! (id, m) = Some a ->
  delivery_attempts (db (history events w)) !! (id, n) = Some b -> m < n ->
  unwritten (db (history events w)) id m a /\ da_idempotency_key a = da_idempotency_key b
  /\ da_fence a < da_fence b.
Proof.
  intros Hc%(system_steps_consistent _ _ (history_steps events w)) Ha Hb Hmn.
  destruct (attempt_in_row _ _ _ _ Hc Ha) as (r & Hr & Hm & Hfa & Hka & Hearlier & _).
  destruct (attempt_in_row _ _ _ _ Hc Hb) as (r' & Hr' & Hn & Hfb & Hkb & _).
  simplify_eq. split_and!; [apply Hearlier; lia|congruence|lia].
Qed.

(** An unknown attempt is the current one of an unknown delivery, unless it was
    resolved. *)
Lemma unknown_is_current d id r n a :
  0 < n <= d_attempt r -> attempt_agrees d id r n a -> da_state a = DDeliveryUnknown ->
  d_attempt r = n /\ d_state r = DDeliveryUnknown \/ resolved_on_record d id n (da_fence a) DPending.
Proof.
  assert (unwritten d id n a -> da_state a = DDeliveryUnknown ->
    resolved_on_record d id n (da_fence a) DPending) as Hun by (intros [E|[_ ?]]; congruence).
  intros Hn (_ & _ & Hearlier & Hcur) Hs.
  destruct (decide (n < d_attempt r)); [by right; auto|]. assert (n = d_attempt r) as E by lia.
  specialize (Hcur E). unfold current_agrees in Hcur. rewrite <-E in Hcur.
  destruct (d_state r); try (by right; auto); try (by left); destruct Hcur as [Hcur|Hcur] || destruct Hcur;
    try congruence. by right; auto.
Qed.

(** C21. After a send whose outcome is unknown, no interleaving opens another
    attempt: the delivery stays unknown with that attempt as its last, unless an
    operator's resolution of exactly that attempt is on record and used up. *)
Theorem unknown_send_is_the_last events w id n a :
  deliveries_consistent (db w) -> delivery_attempts (db w) !! (id, n) = Some a ->
  da_state a = DDeliveryUnknown ->
  ((exists r, deliveries (db (history events w)) !! id = Some r /\ d_state r = DDeliveryUnknown
      /\ d_attempt r = n)
   /\ forall m, n < m -> delivery_attempts (db (history events w)) !! (id, m) = None)
  \/ exists s, resolved_on_record (db (history events w)) id n (da_fence a) s.
Proof.
  intros Hc Ha Hs. destruct (attempt_in_row _ _ _ _ Hc Ha) as (r & Hr & Hn & Hagree).
  pose proof (system_steps_log _ _ (history_steps events w)) as Hlog.
  destruct (unknown_is_current _ _ _ _ _ Hn Hagree Hs) as [[Hlast Hstate]|Hres];
    [|right; eauto using resolved_stays_on_record]. destruct Hagree as [Hf _].
  destruct (dcon_agrees _ Hc id r Hr) as [[Hfence _] _ _ _].
  destruct (unknown_system_stays _ _ _ _ (history_steps events w) Hr Hstate) as [Hr'|[s Hres]].
  - left. split; [by exists r|]. intros m Hm.
    apply (system_steps_consistent _ _ (history_steps events w)) in Hc as [_ Hag _ _].
    apply (Hag id r Hr'). lia.
  - right. exists s. by rewrite Hfence, Hlast in Hres; rewrite Hf.
Qed.

(** What a delivery says and whom it is for never changes: through every
    interleaving its intent (run, target, artifact, policy), its frozen payload
    and its idempotency key stay, and its attempt and fence never go back. *)
Theorem payload_stays_frozen events w id r :
  deliveries (db w) !! id = Some r ->
  exists r', deliveries (db (history events w)) !! id = Some r' /\ delivery_grows r r'.
Proof. apply system_steps_grow, history_steps. Qed.

(** At most one delivery to a target of a job is being sent at any time:
    the keys (job, target identity, target snapshot, policy version, render
    version, hash algorithm) of the deliveries in flight are pairwise distinct. *)
Theorem one_sender_per_target events w :
  deliveries_consistent (db w) ->
  NoDup (omap (fun '(_, r) => sending_key r)
    (map_to_list (deliveries (db (history events w))))).
Proof.
  intros Hc%(system_steps_consistent _ _ (history_steps events w)).
  destruct Hc as [(_ & Hu & _) _ _ _]. by apply bool_decide_eq_true in Hu.
Qed.

(** Once a delivery was claimed under a higher fence, a sender that presents
    an older binding changes no row, at any later time and after any
    interleaving of calls: its heartbeat, receipt or failure report is refused. *)
Theorem stale_sender_stays_out events w c b now r :
  deliveries (db w) !! bind_delivery_id b = Some r -> bind_fence b < d_fence r ->
  delivery_presents c = Some (b, now) ->
  delivery_keeps (db (history events w)) (db (deliver c (history events w))).
Proof.
  intros Hr Hf Hp.
  destruct (system_steps_grow _ _ _ _ (history_steps events w) Hr) as (r' & Hr' & Hg).
  destruct (delivery_presents_guarded c b now (history events w) Hp) as [|(x & t & Hx & Hh & _)];
    [done|exfalso].
  apply holds_delivery_facts in Hh as (_ & _ & _ & Hfence & _).
  rewrite Hr' in Hx. injection Hx as <-. pose proof (grows_fence _ _ Hg). lia.
Qed.

(** A sender writes only while its binding is the live, unexpired lease of
    the delivery. *)
Theorem only_the_sender_reports c w b now :
  delivery_presents c = Some (b, now) -> ~ delivery_held b now (db w) ->
  delivery_keeps (db w) (db (deliver c w)).
Proof. intros Hp Hn. by destruct (delivery_presents_guarded c b now w Hp). Qed.

(** Every delivery carries the accepted result of a run that succeeded:
    through every interleaving its run stays succeeded and its artifact stays
    the one of that run. *)
Theorem deliveries_stay_backed events w : backed (db w) -> backed (db (history events w)).
Proof. apply history_backed. Qed.

(** ** Operation by operation *)

(** A claim that is handed out is the authority's own delivery, in the state
    and with the target, payload and policy the authority froze, with attempts
    left, not past its deadline at commit, not already accepted by its target
    and with no other sender for that target; the tables then hold exactly the
    new lease, under an attempt and a fence one higher. *)
Theorem delivery_claim_exact a owner now readings w claim w' :
  claim_scheduled_delivery_from_snapshot_with_clock a owner now readings w = (Ok (Some claim), w') ->
  exists r p expires, delivery_handed_out a owner now readings claim (db w) (db w') r p expires.
Proof. apply claim_hands_out. Qed.

(** A delivered report either writes nothing, or closes the attempt and the
    delivery with the receipt and advances the accepted baseline of its target
    by exactly one, from the version the payload was claimed against, to this
    payload. *)
Theorem delivered_exact b receipt now w r w' :
  complete_scheduled_delivery_delivered b receipt now w = (r, w') ->
  (r <> Ok tt /\ delivery_keeps (db w) (db w'))
  \/ (r = Ok tt /\ exists row p identity version hash,
        accepts_delivery b receipt now (db w) (db w') row p identity version hash).
Proof. apply delivered_cases. Qed.

(** A failure report either writes nothing, or closes the delivery as its
    kind says: an ambiguous write becomes unknown, a terminal one fails, and a
    retryable one waits for its time only while the policy leaves attempts and
    time, and otherwise fails for good; the accepted baseline does not move. *)
Theorem failure_exact b failure now w r w' :
  complete_scheduled_delivery_failure b failure now w = (r, w') ->
  (r <> Ok tt /\ delivery_keeps (db w) (db w'))
  \/ (r = Ok tt /\ exists row a c, failure_decided b failure now row c
       /\ settled_exactly b (fail_state c) (fail_next_attempt_at c) None (fail_outcome c)
            (Some (fail_kind c)) (fail_message c) now (db w) (db w') row a
       /\ delivery_baselines (db w') = delivery_baselines (db w)).
Proof. apply failure_cases. Qed.

Lemma matching_nil {K Row} `{Countable K} (where_ : K -> Row -> bool) (t : gmap K Row) :
  (forall k r, t !! k = Some r -> where_ k r = false) -> matching where_ t = [].
Proof.
  intros Hno. destruct (matching where_ t) as [|[k r] l] eqn:E; [done|].
  assert ((k, r) ∈ matching where_ t) as [Hr Hw]%elem_of_matching by (rewrite E; constructor).
  by rewrite (Hno k r Hr) in Hw.
Qed.

(** C24. A sender that dies does not hold its delivery for ever: with no storage
    fault and a limit that covers them, one reclaim ends every send whose lease
    has run out as unknown, reports their number, and leaves every other
    delivery as it was. *)
Theorem reclaim_recovers_every_expired_send now limit d :
  deliveries_consistent d -> leases_typed d -> 0 <= now ->
  Z.of_nat (length (matching (delivery_expired now) (deliveries d))) <= limit -> 0 < limit ->
  exists d', reclaim_expired_scheduled_deliveries now limit (mkWorld d [])
      = (Ok (Z.of_nat (length (matching (delivery_expired now) (deliveries d)))), mkWorld d' [])
    /\ deliveries d' = update_rows (delivery_expired now) (lose_delivery now) (deliveries d)
    /\ matching (delivery_expired now) (deliveries d') = [].
Proof.
  intros Hc Ht Hnow Hlen Hlimit. unfold reclaim_expired_scheduled_deliveries.
  destruct (reclaim_loop_progress (Z.to_nat limit) now 0 d) as (d' & Hrec & Hd'); [done..|lia|].
  exists d'. rewrite (proj2 (Z.ltb_ge now 0)), (proj2 (Z.eqb_neq limit 0)) by lia. cbn [orb].
  split_and!; [|done|].
  - unfold or_delivery_lost_lease, bind at 1, transaction, begin_transaction. cbn.
    unfold bind at 1. cbn in Hrec. rewrite Hrec. reflexivity.
  - apply matching_nil. intros id r. rewrite Hd', lookup_update_rows.
    intros (r0 & Hr0 & ->)%fmap_Some. destruct (delivery_expired now id r0) eqn:E; [|done].
    apply lost_not_expired.
Qed.

(** Preparing again reads the frozen payload: the same request is answered as
    before, any other one is a conflict. *)
Lemma existing_again id r content body render x content' body' render' :
  existing_prepared_delivery id r body content render = Ok (Some x) ->
  existing_prepared_delivery id r body' content' render'
  = if String.eqb body body' && String.eqb content content' && (render =? render')
    then Ok (Some x) else Err ScheduledDeliveryPayloadConflict.
Proof.
  unfold existing_prepared_delivery. destruct (negb _); [done|].
  destruct (delivery_payload_from_row id r) as [snapshot|e]; [|done]. cbn.
  destruct (String.eqb_spec (snap_body snapshot) body) as [->|]; [|done].
  destruct (String.eqb_spec (snap_content_type snapshot) content) as [->|]; [|done].
  destruct (Z.eqb_spec (snap_render_version snapshot) render) as [->|]; [|done]. cbn.
  intros Hx. destruct (String.eqb body body'), (String.eqb content content'), (render =? render');
    done.
Qed.

(** A prepared payload is final: preparing the same delivery again, at any
    time and under either policy, returns the first answer for the same body,
    content type and render version and a conflict for any other, and changes
    nothing. *)
Theorem prepared_payload_is_final id content body render now policy w x w'
    content' body' render' now' policy' :
  utf8_valid body = true -> in_u32 render = true ->
  prepare_scheduled_delivery id content body render now policy w = (Ok x, w') ->
  validate_delivery_preparation id content' body' render' now' = Ok tt ->
  prepare_scheduled_delivery id content' body' render' now' policy' (mkWorld (db w') [])
  = (if String.eqb body body' && String.eqb content content' && (render =? render')
     then Ok x else Err ScheduledDeliveryPayloadConflict, mkWorld (db w') []).
Proof.
  intros Hutf Hu Hp Hv. apply prepare_reads in Hp as (r & f & [none version] & Hr & Hf & Hm & He);
    [|done..].
  unfold prepare_scheduled_delivery, bind at 1, lift at 1. rewrite Hv.
  unfold transaction, begin_transaction. cbn [take_fault faults db].
  unfold bind at 1, query. erewrite sql_no_faults by reflexivity. rewrite Hr. cbn [mbind option_bind].
  rewrite Hf. cbn [mbind option_bind]. unfold bind at 1, lift at 1. rewrite Hm.
  unfold bind at 1, lift at 1. rewrite (existing_again _ _ _ _ _ _ content' body' render' He).
  by destruct (_ && _).
Qed.

Lemma authority_row_waits id r a :
  scheduled_delivery_authority_from_row id r = Ok a -> waits (d_state r).
Proof.
  unfold scheduled_delivery_authority_from_row, waits. intros Ha.
  destruct (negb _) eqn:E in Ha; [done|]. bool_cases; auto.
Qed.

(** C25. An overdue delivery stops the dispatcher: when the delivery that the
    readiness scan selects is past its deadline, the scan fails and changes
    nothing, because the row it writes has no error message and the trigger on
    readiness rejections requires one. *)
Theorem overdue_delivery_blocks_peek now w id r a :
  first_by dispatched_before (matching (dispatchable now (db w)) (deliveries (db w)))
    = Some (id, r) ->
  scheduled_delivery_authority_from_row id r = Ok a ->
  past_delivery_deadline (auth_policy a) (auth_payload_created_at a) now = true ->
  exists e, (peek_scheduled_delivery_work now w).1 = Err e
    /\ db (peek_scheduled_delivery_work now w).2 = db w.
Proof.
  intros Hfirst Ha Hpast. destruct (peek_scheduled_delivery_work now w) as [x w'] eqn:Hx. cbn.
  pose proof (first_by_elem _ _ _ Hfirst) as [Hr _]%elem_of_matching.
  unfold peek_scheduled_delivery_work in Hx. destruct (now <? 0); [injection Hx as <- <-; eauto|].
  apply bind_cases in Hx as [(e & -> & Hq%sql_err)|(o & w1 & [-> Hw1]%query_ok & Hx)]; [eauto|].
  rewrite Hfirst in Hx. cbn [mbind option_bind fst snd] in Hx.
  unfold bind at 1, lift at 1 in Hx. rewrite Ha, Hpast in Hx.
  assert (auth_delivery_id a = id /\ auth_source_state a = d_state r) as [Hid Hs].
  { unfold scheduled_delivery_authority_from_row in Ha. peel Ha. }
  rewrite Hid, Hs in Hx.
  apply bind_cases in Hx as [(e & -> & Hu%sql_err)|(n & w2 & Hu%sql_ok & _)];
    [exists e; split; [done|congruence]|exfalso].
  unfold deliveries_updated in Hu. destruct (_ && _) eqn:E; [|done].
  apply andb_true_iff in E as [E _]. rewrite forallb_forall in E.
  specialize (E (id, r)). rewrite <-list_elem_of_In, elem_of_matching, Hw1 in E.
  apply andb_true_iff in E as [_ E]; [|by rewrite String.eqb_refl, bool_decide_eq_true_2].
  unfold delivery_update_allowed, rejection_accepted in E. cbn in E.
  destruct (authority_row_waits id r a Ha) as [Hw|Hw]; rewrite Hw in E; cbn in E;
    by rewrite !andb_false_r in E.
Qed.

End Properties.

(** ** A run that is completed, prepared, claimed and sent *)

#[local] Existing Instance sample_serde.
#[local] Existing Instance sample_sha2.
#[local] Existing Instance sample_sqlite.
#[local] Existing Instance Schedule.decade_calendar.

Definition sample_principal : PrincipalKey := mkPrincipal "user" "slack" "tenant-1" "U1".

Definition sample_job : Job :=
  mkJob 1 (print_value sample_definition) sample_principal sample_principal Active 1 1 zeros64
    (print_value sample_empty) 1 (print_value (policy_struct Policy.default)) 50 50 None.

Definition start_world : World :=
  mkWorld (with_jobs (db executing_world) {["job-1" := sample_job]}) [].

Definition sample_key : string := "v1:72756e2d31:" +:+ zeros64 +:+ ":1".
Definition sample_id : string := "intent:" +:+ sample_key.

Definition sample_authority (state : ScheduledDeliveryState) : ScheduledDeliveryAuthority :=
  mkDeliveryAuthority sample_id state (print_value sample_target) zeros64 zeros64 zeros64 sample_key
    140 Policy.default.

Definition sample_sender (attempt fence : Z) : ScheduledDeliveryBinding :=
  mkDeliveryBinding sample_id attempt fence "sender-1"
    ("delivery-v1:" +:+ encode_sha256 sample_id +:+ ":" +:+ zeros64).

Definition prepare_sample : DeliveryCall :=
  Prepare sample_id "text/plain" "all is well" 1 140 DoNotAdvance.

Definition claim_sample (state : ScheduledDeliveryState) (now : Z) : DeliveryCall :=
  ClaimExact (sample_authority state) "sender-1" now (mkDeliveryReadings now now now).

Definition complete_sample : Event := OfRun (CompleteSuccess sample_binding sample_result 130 "r").

(** The delivery is in flight. *)
Definition sending_events : list Event :=
  [complete_sample; OfDelivery prepare_sample; OfDelivery (claim_sample DPending 150)].

(** The provider confirmed that it wrote nothing, and the delivery was sent again. *)
Definition resending_events : list Event :=
  sending_events
  ++ [OfDelivery (CompleteFailure (sample_sender 1 1)
        (ConfirmedNoWriteRetryable "rate_limited" None 170) 160);
      OfDelivery (claim_sample DFailedRetryable 171)].

(** The provider's answer was lost. *)
Definition unknown_events : list Event :=
  sending_events
  ++ [OfDelivery (CompleteFailure (sample_sender 1 1) (AmbiguousPostWrite "timeout" None) 160)].

Definition sending_world : World := history sending_events start_world.
Definition resending_world : World := history resending_events start_world.
Definition unknown_world : World := history unknown_events start_world.
Definition delivered_world : World :=
  deliver (CompleteDelivered (sample_sender 2 2) "receipt-1" 180) resending_world.

Example states_of_the_sample :
  (fun w : World => d_state <$> deliveries (db w) !! sample_id)
    <$> [start_world; sending_world; resending_world; unknown_world; delivered_world]
  = [None; Some DSending; Some DSending; Some DDeliveryUnknown; Some DDelivered].
Proof. vm_compute. reflexivity. Qed.

(** Before any run completed there are no deliveries. *)
Lemma no_deliveries_consistent d :
  deliveries d = ∅ -> delivery_attempts d = ∅ -> deliveries_consistent d.
Proof.
  intros Hd Ha. split; [split_and!| | |]; rewrite ?Hd, ?Ha; try done;
    intros *; rewrite lookup_empty; done.
Qed.

Lemma start_consistent : deliveries_consistent (db start_world).
Proof. by apply no_deliveries_consistent. Qed.

(** The row of the sample delivery. *)
Definition sample_row (w : World) : Delivery :=
  default (fresh_delivery (mkIntent "" "" "" "" 1 "" 1 1 "" "" "" 1 "" 1))
    (deliveries (db w) !! sample_id).

Definition sample_send (w : World) (n : Z) : DeliveryAttempt :=
  default (mkDeliveryAttempt 0 "" 0 "" 0 DPending None None None None 0 None)
    (delivery_attempts (db w) !! (sample_id, n)).

Lemma deliveries_stay_consistent_witness : deliveries_consistent (db resending_world).
Proof. apply (deliveries_stay_consistent resending_events start_world), start_consistent. Defined.

Lemma settled_deliveries_stay_witness :
  deliveries (db (history (resending_events ++ [OfDelivery (ReclaimDeliveries 900 10)])
                    delivered_world)) !! sample_id = Some (sample_row delivered_world).
Proof.
  apply (settled_deliveries_stay _ delivered_world sample_id (sample_row delivered_world));
    vm_compute; reflexivity.
Defined.

Lemma sent_again_only_after_confirmed_failure_witness :
  unwritten (db resending_world) sample_id 1 (sample_send resending_world 1)
  /\ da_idempotency_key (sample_send resending_world 1)
     = da_idempotency_key (sample_send resending_world 2)
  /\ da_fence (sample_send resending_world 1) < da_fence (sample_send resending_world 2).
Proof.
  apply (sent_again_only_after_confirmed_failure resending_events start_world sample_id 1 2);
    [apply start_consistent|vm_compute; reflexivity..|done].
Defined.

Lemma unknown_send_is_the_last_witness :
  delivery_attempts (db (history [OfDelivery (claim_sample DFailedRetryable 171)] unknown_world))
    !! (sample_id, 2) = None.
Proof.
  destruct (unknown_send_is_the_last [OfDelivery (claim_sample DFailedRetryable 171)] unknown_world
    sample_id 1 (sample_send unknown_world 1)) as [[_ Hno]|(s & k & o & c & Ho & _)];
    [|vm_compute; reflexivity..|by apply Hno|vm_compute in Ho; discriminate].
  apply (system_steps_consistent (db start_world)); [apply history_steps|apply start_consistent].
Defined.

Lemma payload_stays_frozen_witness :
  exists r', deliveries (db (history [OfDelivery (ReclaimDeliveries 900 10)] sending_world))
    !! sample_id = Some r' /\ delivery_grows (sample_row sending_world) r'.
Proof.
  apply (payload_stays_frozen [OfDelivery (ReclaimDeliveries 900 10)] sending_world sample_id).
  vm_compute. reflexivity.
Defined.

Lemma one_sender_per_target_witness :
  NoDup (omap (fun '(_, r) => sending_key r) (map_to_list (deliveries (db sending_world)))).
Proof. apply (one_sender_per_target sending_events start_world), start_consistent. Defined.

Lemma stale_sender_stays_out_witness :
  let w := history [OfDelivery (Peek 175)] resending_world in
  delivery_keeps (db w) (db (deliver (CompleteDelivered (sample_sender 1 1) "late" 180) w)).
Proof.
  apply (stale_sender_stays_out _ resending_world
    (CompleteDelivered (sample_sender 1 1) "late" 180) (sample_sender 1 1) 180
    (sample_row resending_world)); vm_compute; reflexivity.
Defined.

Lemma only_the_sender_reports_witness :
  delivery_keeps (db unknown_world)
    (db (deliver (HeartbeatDelivery (sample_sender 1 1) 170 230) unknown_world)).
Proof.
  apply (only_the_sender_reports (HeartbeatDelivery (sample_sender 1 1) 170 230) unknown_world
    (sample_sender 1 1) 170); [reflexivity|].
  intros (r & t & Hr & Hh & _). vm_compute in Hr. injection Hr as <-. vm_compute in Hh. discriminate.
Defined.

Lemma deliveries_stay_backed_witness : backed (db sending_world).
Proof.
  apply (deliveries_stay_backed sending_events start_world).
  intros id r Hr. exfalso. cbn in Hr. by rewrite lookup_empty in Hr.
Defined.

Lemma fst_is {A B} (p : A * B) a : p.1 = a -> p = (a, p.2).
Proof. by destruct p; intros <-. Qed.

Definition sample_payload : DeliveryPayloadSnapshot :=
  mkPayloadSnapshot 1 sample_id "run-1" ("result:" +:+ zeros64) "text/plain" "all is well" zeros64
    zeros64 zeros64 1 1 1 140.

Lemma delivery_claim_exact_witness :
  let w := history [complete_sample; OfDelivery prepare_sample] start_world in
  exists r p expires,
    delivery_handed_out (sample_authority DPending) "sender-1" 150 (mkDeliveryReadings 150 150 150)
      (mkClaimedDelivery (sample_sender 1 1) sample_payload (print_value sample_target)
         Policy.default) (db w) (db (deliver (claim_sample DPending 150) w)) r p expires.
Proof.
  intros w. assert ((claim_scheduled_delivery_from_snapshot_with_clock (sample_authority DPending)
    "sender-1" 150 (mkDeliveryReadings 150 150 150) w).1
    = Ok (Some (mkClaimedDelivery (sample_sender 1 1) sample_payload (print_value sample_target)
        Policy.default))) as E by (vm_compute; reflexivity).
  apply fst_is, delivery_claim_exact in E. exact E.
Defined.

Lemma delivered_exact_witness :
  exists row p identity version hash,
    accepts_delivery (sample_sender 2 2) "receipt-1" 180 (db resending_world)
      (db (deliver (CompleteDelivered (sample_sender 2 2) "receipt-1" 180) resending_world))
      row p identity version hash.
Proof.
  assert ((complete_scheduled_delivery_delivered (sample_sender 2 2) "receipt-1" 180
    resending_world).1 = Ok tt) as E by (vm_compute; reflexivity).
  apply fst_is, delivered_exact in E as [[[] _]|[_ Ha]]; [reflexivity|exact Ha].
Defined.

Lemma failure_exact_witness :
  let w' := deliver (CompleteFailure (sample_sender 1 1) (AmbiguousPostWrite "timeout" None) 160)
              sending_world in
  exists row a c,
    failure_decided (sample_sender 1 1) (AmbiguousPostWrite "timeout" None) 160 row c
    /\ settled_exactly (sample_sender 1 1) (fail_state c) (fail_next_attempt_at c) None
         (fail_outcome c) (Some (fail_kind c)) (fail_message c) 160 (db sending_world) (db w') row a
    /\ delivery_baselines (db w') = delivery_baselines (db sending_world).
Proof.
  intros w'.
  assert ((complete_scheduled_delivery_failure (sample_sender 1 1) (AmbiguousPostWrite "timeout" None)
    160 sending_world).1 = Ok tt) as E by (vm_compute; reflexivity).
  apply fst_is, failure_exact in E as [[[] _]|[_ Ha]]; [reflexivity|exact Ha].
Defined.

Lemma leases_typed_check d :
  forallb (fun x => match d_lease_expires_at x.2 with Some t => in_i64 t | None => true end)
    (map_to_list (deliveries d)) = true -> leases_typed d.
Proof.
  rewrite forallb_forall. intros Hall id r t Hr Ht. specialize (Hall (id, r)).
  cbn in Hall. rewrite Ht in Hall. apply Hall, list_elem_of_In. by apply elem_of_map_to_list.
Qed.

Lemma reclaim_recovers_every_expired_send_witness :
  exists d', reclaim_expired_scheduled_deliveries 900 10 (mkWorld (db sending_world) [])
      = (Ok 1, mkWorld d' [])
    /\ deliveries d' = update_rows (delivery_expired 900) (lose_delivery 900)
                         (deliveries (db sending_world))
    /\ matching (delivery_expired 900) (deliveries d') = [].
Proof.
  apply (reclaim_recovers_every_expired_send 900 10 (db sending_world)); [| |lia|vm_compute; done|lia].
  - apply (system_steps_consistent (db start_world)); [apply history_steps|apply start_consistent].
  - apply leases_typed_check. vm_compute. reflexivity.
Defined.

Lemma prepared_payload_is_final_witness :
  let w' := history [complete_sample; OfDelivery prepare_sample] start_world in
  prepare_scheduled_delivery sample_id "text/plain" "something else" 1 145 Accept
    (mkWorld (db w') []) = (Err ScheduledDeliveryPayloadConflict, mkWorld (db w') []).
Proof.
  intros w'.
  apply (prepared_payload_is_final sample_id "text/plain" "all is well" 1 140 DoNotAdvance
    (history [complete_sample] start_world) (PreparedPending sample_payload) w'
    "text/plain" "something else" 1 145 Accept); vm_compute; reflexivity.
Defined.

Lemma overdue_delivery_blocks_peek_witness :
  let w := history [complete_sample; OfDelivery prepare_sample] start_world in
  exists e, (peek_scheduled_delivery_work 3740 w).1 = Err e
    /\ db (peek_scheduled_delivery_work 3740 w).2 = db w.
Proof.
  intros w. apply (overdue_delivery_blocks_peek 3740 w sample_id (sample_row w)
    (sample_authority DPending)); vm_compute; reflexivity.
Defined.

End DeliverySafety.
