(* ===== verification/JobSafety.v ===== *)
(** * What the scheduler guarantees about its jobs

    The theorems about jobs, their mutations and their occurrences, over every
    interleaving of calls on jobs, runs and deliveries, with storage faults
    anywhere, and their instances on a sample job that is created, comes due,
    is paused and resumed. *)

From stdpp Require Import base tactics list strings numbers pretty gmap relations.
From Stdlib Require Import ZArith Lia Ascii.
From S2P Require Import Prelude.
From S2P Require Import Policy.
From S2P Require Import Schedule.
From S2P Require Import Json.
From S2P Require Import Digest.
From S2P Require Import Capability.
From S2P Require Import Authority.
From S2P Require Import Tables.
From S2P Require Import Runs.
From S2P Require Import Completion.
From S2P Require Import Lifecycle.
From S2P Require Import RunSafety.
From S2P Require Import Deliveries.
From S2P Require Import JobTables.
From S2P Require Import Jobs.
From S2P Require Import JobLifecycle.
From S2P Require Import JobInvariants.
From S2P Require Import System.
From S2P Require Import DeliverySafety.
Import Digest.

Module JobSafety.
Import Schedule Snapshot Authority Tables Runs Completion Lifecycle RunSafety JobTables Jobs
  JobLifecycle JobInvariants System DeliverySafety.

(** The job and the generation a call names. *)
Definition expects (c : JobCall) : option (string * Z) :=
  let of_mutation m := match m with
    | MutCreate _ => None
    | MutUpdate request => Some (up_job_id request, up_expected_generation request)
    | MutPause job generation _ | MutResume job generation _ | MutDelete job generation _ =>
        Some (job, generation)
    end in
  match c with
  | CreateJob _ _ | AppendAudit _ => None
  | UpdateJob _ request => of_mutation (MutUpdate request)
  | PauseJob job generation _ | ResumeJob _ job generation _ | DeleteJob job generation _
  | Materialize job generation _ _ _ => Some (job, generation)
  | MutateJob _ m _ _ => of_mutation m
  end.

Section Properties.
Context `{Calendar} `{Serde} `{Sha2} `{Sqlite}.

(** ** Over every history *)

(** C19. Every interleaving keeps the job tables consistent: every job and
    schedule passes its CHECK constraints, a job and its schedule are at the
    same generation, an active job has its next occurrence and a completed one
    has none, and every run belongs to a job and was frozen from a generation
    that job has had. *)
Theorem jobs_stay_consistent events w :
  jobs_consistent (db w) -> jobs_consistent (db (history events w)).
Proof. apply job_steps_consistent, history_jobs. Qed.

(** While no call is held to a higher limit, no interleaving makes more than
    [global] jobs active, nor more than [owned] of one owner. *)
Theorem active_jobs_stay_bounded global owned events w :
  Forall (event_within global owned) events -> within_limits global owned (db w) ->
  within_limits global owned (db (history events w)).
Proof. apply history_within. Qed.

(** An occurrence is materialized at most once: after every interleaving two
    runs of one job for the same scheduled time are the same run. *)
Theorem one_run_per_occurrence events w id id' r r' :
  occurrences_distinct (db w) ->
  runs (db (history events w)) !! id = Some r -> runs (db (history events w)) !! id' = Some r' ->
  s_job_id (r_snapshot r) = s_job_id (r_snapshot r') ->
  s_scheduled_for (r_snapshot r) = s_scheduled_for (r_snapshot r') -> id = id'.
Proof.
  intros Hd%(steps_occurrences _ _ (history_runs events w)) Hr Hr' Hj Hs.
  eapply Hd; [done..|]. unfold occurrence. congruence.
Qed.

(** Replaces the mutation by the one the call asks for. *)
Ltac asked H :=
  lazymatch type of H with
  | _ /\ _ => let E := fresh in destruct H as [E ->]; try subst
  | _ = _ => subst
  end.

(** A mutation names the generation it takes the job from. *)
Lemma mutated_expects c policy m d d' job generation :
  asks_for c policy m -> expects c = Some (job, generation) -> mutated policy d d' m ->
  exists j, jobs d !! job = Some j /\ j_generation j = generation.
Proof.
  intros Hask He Hm. assert (expects (MutateJob policy m (mkIdempotency (mkPrincipal "" "" "" "")
    "" "" "" "") None) = Some (job, generation)) as E.
  { destruct c; cbn in Hask, He |- *; try done; by asked Hask. }
  destruct Hm as [|? ? ? ? ? []|? ? ? ? []|? ? ? ? ? ? ? ? ? []|? ? ? ? []]; cbn in E; simplify_eq;
    eauto.
Qed.

(** C16. Optimistic concurrency: once a job has reached a higher generation, every
    update, pause, resume, delete or materialization that names an older one
    changes no job, schedule, target, run, attempt or delivery, at any later
    time and after any interleaving. *)
Theorem superseded_mutation_refused events w c job generation j :
  jobs (db w) !! job = Some j -> generation < j_generation j ->
  expects c = Some (job, generation) ->
  same_tables (db (history events w)) (db (manage c (history events w))).
Proof.
  intros Hj Hlt He.
  destruct (job_steps_forward _ _ _ _ (history_jobs events w) Hj) as (j' & Hj' & _ & Hle & _).
  destruct (manage_does c (history events w))
    as [Hs|policy m d1 d2 Hask [] Hm _|? ? ? ? ? ? ? ? ? ? ? ? ? -> []]; [done|exfalso..].
  - destruct (mutated_expects _ _ _ _ _ _ _ Hask He Hm) as (j1 & Hj1 & Hg).
    rewrite st_jobs0 in Hj1. simplify_eq. lia.
  - injection He as -> ->. simplify_eq. lia.
Qed.

(** A deleted job stays deleted: through every interleaving its row and its
    schedule stay as they are and no run is materialized for it. *)
Theorem deleted_jobs_stay events w job j :
  jobs (db w) !! job = Some j -> j_status j = Deleted ->
  jobs (db (history events w)) !! job = Some j
  /\ schedules (db (history events w)) !! job = schedules (db w) !! job
  /\ forall id r, runs (db (history events w)) !! id = Some r -> s_job_id (r_snapshot r) = job ->
       is_Some (runs (db w) !! id).
Proof.
  intros Hj Hdel. generalize (history_jobs events w). generalize (db (history events w)). intros d' Hs.
  destruct (job_steps_forward _ _ _ _ Hs Hj) as (j' & Hj' & _ & _ & Hstay).
  destruct (Hstay Hdel) as [-> Hsch]. split_and!; [done..|]. clear Hj' Hstay Hsch.
  induction Hs as [d|d d1 d' Hstep Hrest IH]; [by eauto|]. intros id r Hr Hjob.
  destruct (job_moves_forward _ _ _ _ (js_moves _ _ Hstep job) Hj) as (j1 & Hj1 & _ & _ & Hstay).
  destruct (Hstay Hdel) as [-> _]. destruct (IH Hj1 _ _ Hr Hjob) as [r1 Hr1].
  destruct (runs d !! id) as [r0|] eqn:Hr0; [done|].
  destruct (js_runs _ _ Hstep _ _ Hr1 Hr0) as (j2 & h & Hj2 & _ & Hz).
  assert (s_job_id (r_snapshot r1) = job) as E.
  { destruct (steps_run _ _ _ _ (job_steps_steps _ _ Hrest) Hr1) as (r2 & Hr2 & Hsnap & _). simplify_eq. congruence. }
  rewrite E, Hj in Hj2. injection Hj2 as <-. destruct Hz. congruence.
Qed.

(** ** Idempotent requests *)

(** The record of a request that was applied. *)
Record recorded (i : ScheduleMutationIdempotency) (operation : string) (d : Db) (k : IdempotencyKey) :
    Prop := {
  rec_key : idempotency_keys d
    !! (canonical_idempotency_scope (id_principal i) operation, id_request_id i) = Some k;
  rec_status : k_status k = "completed";
  rec_digest : k_request_digest k = Some (id_request_digest i);
  rec_algorithm : k_digest_algorithm k = Some (id_digest_algorithm i);
  rec_response : k_response_json k = Some (id_response_json i);
  rec_filled : filled (canonical_idempotency_scope (id_principal i) operation)
    && filled (id_request_id i) = true
}.

Lemma claimed_filled p operation request_id algorithm digest now w w' :
  claim_idempotency_in_transaction p operation request_id algorithm digest now w = (Ok Claimed, w') ->
  filled (canonical_idempotency_scope p operation) && filled request_id = true.
Proof.
  intros (inserted & w1 & Hi%sql_ok & Hf)%bind_ok. destruct inserted.
  - destruct (datetime_unixepoch now); [|done]. destruct (negb _) eqn:E; [done|].
    by apply negb_false_iff in E.
  - apply bind_ok in Hf as (row & w2 & _ & Hf). destruct row as [k|]; [|by tx_step Hf].
    apply lift_ok in Hf as [Hd _]. unfold decide_replay in Hd. peel Hd.
Qed.

Lemma completed_record p operation i now w u w' :
  complete_idempotency_in_transaction p operation i now w = (Ok u, w') ->
  exists k, idempotency_keys (db w') !! (canonical_idempotency_scope p operation, id_request_id i)
      = Some k
    /\ k_status k = "completed" /\ k_request_digest k = Some (id_request_digest i)
    /\ k_digest_algorithm k = Some (id_digest_algorithm i)
    /\ k_response_json k = Some (id_response_json i).
Proof.
  intros (n & w1 & Hu%sql_ok & Hf)%bind_ok. destruct (n =? 1) eqn:En; cbn [negb] in Hf; tx_step Hf.
  destruct (idempotency_keys (db w) !! _) as [k|] eqn:Hk; [|by injection Hu as <- _].
  destruct (_ && _) eqn:E; [|by injection Hu as <- _]. where_facts.
  destruct (datetime_unixepoch now); [|done]. injection Hu as _ <-.
  eexists. cbn. rewrite lookup_insert_eq. by split_and!.
Qed.

(** A mutation that was applied left its record. *)
Lemma applied_recorded policy m i audit w response w' :
  apply_idempotent_schedule_mutation_with_audit policy m i audit w = (Ok (Applied response), w') ->
  response = id_response_json i
  /\ exists d1 d2 k, mutated policy d1 d2 m /\ same_tables d2 (db w')
       /\ recorded i (operation m) (db w') k.
Proof.
  intros (u & w1 & [_ <-]%lift_ok & Hf)%bind_ok.
  apply bind_ok in Hf as (u1 & w1 & [_ <-]%lift_ok & Hf).
  apply bind_ok in Hf as (proof & w1 & _ & Hf).
  apply transaction_cases in Hf as [(x & w0 & w2 & [= <-] & _ & Hb & ->)|[_ Hb]].
  2:{ destruct (Hb _ eq_refl) as (w0 & w2 & _ & [Hend|Hend]);
        apply bind_ok in Hend as (decision & w3 & _ & Hend);
        (destruct decision; [|by tx_step Hend..]);
        do 3 apply bind_ok in Hend as (? & ? & _ & Hend); by tx_step Hend. }
  apply bind_ok in Hb as (decision & w3 & Hclaim & Hb). destruct decision; [|by tx_step Hb..].
  apply claimed_filled in Hclaim as Hfilled.
  apply bind_ok in Hb as (u3 & w4 & Hm%apply_typed_mutation_ok & Hb).
  apply bind_ok in Hb as (u4 & w5 & Ha & Hb). apply bind_ok in Hb as (u5 & w6 & Hc & Hb).
  apply ret_ok in Hb as [[= <-] <-]. split; [done|].
  apply complete_spares in Hc as Hsame.
  apply completed_record in Hc as (k & Hk & Hst & Hdig & Halg & Hresp).
  exists (db w3), (db w4), k. split_and!; [done| |by split].
  etrans; [|done]. destruct audit as [x|]; [by apply insert_audit_spares in Ha|by tx_step Ha].
Qed.

Lemma recorded_stays i operation d d' k :
  records_stay d d' -> recorded i operation d k -> recorded i operation d' k.
Proof. intros Hs []. by split; [apply Hs|..]. Qed.

(** What a request is answered from the record of an earlier one. *)
Definition answer (i i' : ScheduleMutationIdempotency) : TransactionalMutationOutcome :=
  if String.eqb (id_request_digest i) (id_request_digest i')
     && String.eqb (id_digest_algorithm i) (id_digest_algorithm i')
  then Replay (id_response_json i) else Conflict.

Lemma is_value_string a b : is_value (Some a) b = String.eqb a b.
Proof.
  unfold is_value. destruct (String.eqb_spec a b) as [->|Hne];
    [by apply bool_decide_eq_true_2|apply bool_decide_eq_false_2; congruence].
Qed.

Lemma mutate_answered policy m' i i' audit proof d k at_ :
  recorded i (operation m') d k -> id_principal i' = id_principal i ->
  id_request_id i' = id_request_id i -> datetime_unixepoch (mutation_now m') = Some at_ ->
  transaction (mutate_once policy m' i' audit proof) (mkWorld d []) = (Ok (answer i i'), mkWorld d []).
Proof.
  intros [Hk Hst Hd Ha Hr Hf] Hp Hid Hat.
  assert (mutate_once policy m' i' audit proof (mkWorld d []) = (Ok (Commit (answer i i')), mkWorld d []))
    as E.
  { unfold mutate_once, bind at 1, claim_idempotency_in_transaction, bind at 1, insert_idempotency.
    erewrite sql_no_faults; [|by rewrite Hat, Hp, Hid, Hf, Hk]. cbn [negb is_some].
    unfold read_idempotency_decision, bind at 1, query. erewrite sql_no_faults by reflexivity.
    rewrite Hp, Hid, Hk. unfold lift, decide_replay. rewrite Hd, Ha, Hst, Hr, !is_value_string.
    unfold answer. destruct (String.eqb (id_request_digest i) _); cbn; [|done].
    by destruct (String.eqb (id_digest_algorithm i) _). }
  unfold transaction, begin_transaction. cbn [take_fault faults]. by rewrite E.
Qed.

(** A transaction whose first statement is refused leaves everything as it was. *)
Lemma mutate_without_time policy m i audit proof d :
  datetime_unixepoch (mutation_now m) = None ->
  transaction (mutate_once policy m i audit proof) (mkWorld d [])
  = (Err (Scheduler Constraint), mkWorld d []).
Proof.
  intros Hat. unfold transaction, begin_transaction. cbn [take_fault faults].
  unfold mutate_once, bind at 1, claim_idempotency_in_transaction, bind at 1, insert_idempotency, sql.
  cbn [take_fault faults db]. by rewrite Hat.
Qed.

(** The checks a request passes before its record is looked up: its own, those of
    its audit entry, the prevalidation (which reads the paused job for a
    resumption), and a time the database can print. *)
Definition own_checks (policy : Policy.SchedulerOperationalPolicy) (m : ScheduledJobMutation)
    (i : ScheduleMutationIdempotency) (audit : option ScheduleMutationAudit) (d : Db) :
    result StateError unit :=
  check? validate_mutation_idempotency m i in
  check? match audit with Some a => validate_mutation_audit m i a | None => Ok tt end in
  let? _ := (prevalidate_schedule_mutation policy m (mkWorld d [])).1 in
  match datetime_unixepoch (mutation_now m) with
  | Some _ => Ok tt
  | None => Err (Scheduler Constraint)
  end.

Lemma prevalidation_only_reads policy m d :
  (prevalidate_schedule_mutation policy m (mkWorld d [])).2 = mkWorld d [].
Proof.
  unfold prevalidate_schedule_mutation, validate_resume_cadence, query, sql, bind, lift, ret, fail.
  destruct m; cbn [take_fault faults db]; by repeat case_match; simplify_eq.
Qed.

Lemma mutation_answered policy m i i' audit d k :
  recorded i (operation m) d k -> id_principal i' = id_principal i ->
  id_request_id i' = id_request_id i ->
  apply_idempotent_schedule_mutation_with_audit policy m i' audit (mkWorld d [])
  = (let? _ := own_checks policy m i' audit d in Ok (answer i i'), mkWorld d []).
Proof.
  intros Hrec Hp Hid. unfold apply_idempotent_schedule_mutation_with_audit, own_checks.
  unfold bind at 1, lift at 1. destruct (validate_mutation_idempotency m i') as [[]|]; [|done].
  unfold bind at 1, lift at 1. destruct (match audit with Some _ => _ | None => _ end) as [[]|]; [|done].
  unfold bind at 1. pose proof (prevalidation_only_reads policy m d) as Hw.
  destruct (prevalidate_schedule_mutation policy m (mkWorld d [])) as [[proof|e] w]; cbn in Hw;
    subst w; [|done]. cbn.
  destruct (datetime_unixepoch (mutation_now m)) as [t|] eqn:Hat.
  - by eapply mutate_answered.
  - by apply mutate_without_time.
Qed.

(** C18. An idempotent request is applied once: after it was applied, any request
    of the same principal, operation and request id, at any later time, after any
    interleaving and with a store that answers, changes nothing.  Where its own
    checks refuse it (a resumption's look for the paused job among them) it gets
    their error; otherwise it is answered from the record, with the first response
    when its digest is the same and with a conflict when it is another. *)
Theorem applied_request_is_recorded events policy m i audit w response w' policy' m' i' audit' :
  apply_idempotent_schedule_mutation_with_audit policy m i audit w = (Ok (Applied response), w') ->
  operation m' = operation m -> id_principal i' = id_principal i ->
  id_request_id i' = id_request_id i ->
  let d := db (history events w') in
  apply_idempotent_schedule_mutation_with_audit policy' m' i' audit' (mkWorld d [])
  = (let? _ := own_checks policy' m' i' audit' d in Ok (answer i i'), mkWorld d []).
Proof.
  intros (_ & d1 & d2 & k & _ & _ & Hrec)%applied_recorded Hop Hp Hid d.
  eapply mutation_answered; [|done|done]. rewrite Hop.
  by eapply recorded_stays, Hrec; apply history_records.
Qed.

(** C39. A resumption that was applied is never replayed: its repetition, at any
    later time and after any interleaving, is refused with a generation
    conflict, because the paused generation is looked for before the record of
    the request. *)
Theorem resume_replay_refused events policy job generation now i audit w response w' :
  apply_idempotent_schedule_mutation_with_audit policy (MutResume job generation now) i audit w
    = (Ok (Applied response), w') ->
  apply_idempotent_schedule_mutation_with_audit policy (MutResume job generation now) i audit
    (mkWorld (db (history events w')) [])
  = (Err SchedulerGenerationConflict, mkWorld (db (history events w')) []).
Proof.
  intros Happ. pose proof (applied_recorded _ _ _ _ _ _ _ Happ) as (_ & d1 & d2 & k & Hm & [] & _).
  inversion Hm; subst. destruct Hdid.
  assert (jobs (db w') !! job = Some (with_status Active (j_deleted_at j) (Some policy_json) now j))
    as Hj by by rewrite st_jobs0, res_jobs0, lookup_insert_eq.
  destruct (job_steps_forward _ _ _ _ (history_jobs events w') Hj) as (j' & Hj' & _ & Hle & _).
  cbn in Hle. set (d := db (history events w')) in *.
  assert (paused_schedule job generation d = None) as Hnone.
  { unfold paused_schedule. rewrite Hj'. cbn. destruct (schedules d !! job); [|done]. cbn.
    destruct (_ && _) eqn:E; [|done]. bool_facts. lia. }
  apply bind_ok in Happ as ([] & w1 & [Hv <-]%lift_ok & Happ).
  apply bind_ok in Happ as ([] & w1 & [Ha <-]%lift_ok & Happ).
  apply bind_ok in Happ as (proof' & w1 & Hpre & _).
  apply bind_ok in Hpre as ([] & w2 & [Hl <-]%lift_ok & _).
  unfold apply_idempotent_schedule_mutation_with_audit, bind at 1, lift at 1. rewrite Hv.
  unfold bind at 1, lift at 1. rewrite Ha. unfold bind at 1. cbn [prevalidate_schedule_mutation].
  unfold bind at 1, lift at 1. rewrite Hl. unfold bind at 1, validate_resume_cadence, bind at 1, query.
  erewrite sql_no_faults by reflexivity. by rewrite Hnone.
Qed.

(** ** Operation by operation *)

(** A job call writes all of its mutation or nothing of it: a create inserts
    the job, its schedule with the first occurrence, its targets and an empty
    baseline below the limits; an update, pause or delete of the expected
    generation rewrites the job, moves its schedule to the next generation and
    cancels the runs of the old one that have not started; a resume of the
    expected paused generation computes the next occurrence; every table not
    named stays. *)
Theorem job_call_exact c w : does c (db w) (db (manage c w)).
Proof. apply manage_does. Qed.

(** C17. A materialization that creates a run creates exactly one, for the next
    occurrence of an active job at the expected generation that is due and has
    no other active run, frozen from the job, its targets, its baseline and its
    policy as they are; it moves the schedule to an occurrence after now, or
    completes the job.  A blocked one writes a cursor at most, and every other
    outcome writes nothing. *)
Theorem materialize_exact job generation now admission readings w x w' :
  materialize_due_schedule_inner job generation now admission readings w = (x, w') ->
  (db w' = db w /\ ((exists e, x = Err e) \/ x = Ok NotDue \/ x = Ok AlreadyMaterialized))
  \/ (x = Ok Blocked /\ slot_taken job (db w) = true /\ same_tables (db w) (db w'))
  \/ exists j h due schedule policy window targets_json baseline_json,
       x = Ok (materialized_run (materialized_id job due) job window)
       /\ materialized job generation now admission readings (db w) (db w') j h due schedule
            policy window targets_json baseline_json
       /\ forall next, Schedule.next_run_at window = Some next -> now < next.
Proof.
  intros [?|[?|(j & h & due & sc & p & win & t & b & -> & Hm)]]%materialize_cases; [by left| |];
    right; [by left|right].
  exists j, h, due, sc, p, win, t, b. split_and!; [done..|]. destruct Hm, mat_due0 as [_ Hle].
  by destruct (coalesce_due _ _ _ _ _ _ mat_spec0 mat_window0 Hle).
Qed.

(** The calls that cancel the runs of the generation they replace. *)
Definition cancels (c : JobCall) : bool :=
  match c with
  | UpdateJob _ _ | PauseJob _ _ _ | DeleteJob _ _ _ => true
  | MutateJob _ (MutUpdate _ | MutPause _ _ _ | MutDelete _ _ _) _ _ => true
  | _ => false
  end.

Lemma retry_not_cancellable now r t :
  r_next_attempt_at r = Some t -> run_checks (cancel_run now r) = false.
Proof. intros Hn. unfold run_checks. cbn. rewrite Hn. cbn. by rewrite ?andb_false_r. Qed.

(** C40. A job cannot be updated, paused or deleted while a run of its current
    generation waits for a retry: the cancellation keeps the run's
    [next_attempt_at], which the CHECK on [scheduled_runs] admits only for a
    pending run, so the transaction is rolled back. *)
Theorem pending_retry_blocks_mutation c w job generation id run t :
  runs (db w) !! id = Some run -> of_generation job generation run = true ->
  r_state run = Pending -> r_next_attempt_at run = Some t ->
  expects c = Some (job, generation) -> cancels c = true ->
  same_tables (db w) (db (manage c w)).
Proof.
  intros Hr Hof Hs Ht He Hcan.
  assert (forall now d d', runs d = runs (db w) -> ~ cancelled job generation now d d') as Hno.
  { intros now d d' E [_ Hck _]. specialize (Hck id run). rewrite E in Hck.
    specialize (Hck Hr Hof (or_introl Hs)). by rewrite (retry_not_cancellable now run t Ht) in Hck. }
  destruct (manage_does c w) as [|policy m d1 d2 Hask [] Hm _|? ? ? ? ? ? ? ? ? ? ? ? ? -> _];
    [done|exfalso|done].
  destruct c as [| | | | | ? m' ? ?| |]; cbn in Hask, He, Hcan; try done;
    asked Hask; [..|destruct m'; try done];
    injection He as <- <-; inversion Hm; subst; destruct Hdid; eapply Hno; eassumption.
Qed.

(** What a created job reads back as. *)
Definition read_back (request : CreateScheduledJob) (next : Z) : ScheduledJob :=
  mkScheduledJob (cr_job_id request) (cr_definition request) (cr_creator request)
    (cr_owner request) (cr_capability request) Active 0 (cr_schedule_id request) 0
    (cr_schedule request) (Some next).

Lemma canonical_snapshot_stays version field json :
  validate_canonical_snapshot version field json = Ok tt ->
  canonicalize_snapshot version field json = Ok json.
Proof.
  unfold validate_canonical_snapshot. intros Hv. peel Hv. bool_facts. where_facts. by subst.
Qed.

Lemma principal_valid_new p :
  principal_validate p = Ok tt ->
  principal_new (pk_kind p) (pk_provider p) (pk_tenant p) (pk_subject p) = Ok p.
Proof.
  intros Hv. unfold principal_new. by destruct p; cbn [pk_kind pk_provider pk_tenant pk_subject]; rewrite Hv.
Qed.

Lemma version_positive version field json :
  validate_canonical_snapshot version field json = Ok tt -> in_u32 version = true ->
  positive_u32 version = Ok version.
Proof.
  unfold validate_canonical_snapshot, canonicalize_snapshot, positive_u32. intros Hv Hu. rewrite Hu.
  destruct (version =? 0) eqn:E; [done|]. unfold in_u32 in Hu. bool_facts.
  by destruct (Z.ltb_spec 0 version); [|lia].
Qed.

(** The parts of a valid request. *)
Lemma valid_create request policy next :
  validate_create_request request policy false = Ok next ->
  principal_validate (cr_creator request) = Ok tt /\ principal_validate (cr_owner request) = Ok tt
  /\ definition_validate (cr_definition request) = Ok tt
  /\ capability_validate (cr_capability request) = Ok tt
  /\ first_after_create (cr_schedule request) (cr_now request) = Ok next.
Proof.
  unfold validate_create_request. intros Hv.
  repeat match type of Hv with
  | context [match map_err _ ?r with _ => _ end] => destruct r as [[]|] eqn:?; [|done]; cbn [map_err] in Hv
  | context [match ?r with _ => _ end] => destruct r as [[]|] eqn:?; [|done]
  end.
  destruct (first_after_create _ _); [injection Hv as ->|]; done.
Qed.

(** A job that was created reads back as it was requested: its definition,
    principals, capability and schedule, active at generation zero, with the
    first occurrence of its schedule. *)
Theorem created_job_reads_back policy request w w' :
  zone_names_canonical -> built (cr_schedule request) ->
  in_u32 (def_version (cr_definition request)) = true ->
  in_u32 (cap_schema_version (cr_capability request)) = true ->
  create_scheduled_job policy request w = (Ok tt, w') ->
  exists next, first_after_create (cr_schedule request) (cr_now request) = Ok next
    /\ get_scheduled_job (cr_job_id request) (mkWorld (db w') [])
       = (Ok (Some (read_back request next)), mkWorld (db w') []).
Proof.
  intros Hz Hbuilt Hdv Hcv Hc.
  apply bind_ok in Hc as (next & w1 & [Hv <-]%lift_ok & Hc).
  apply bind_ok in Hc as (proof & w1 & _ & Hc).
  apply bind_ok in Hc as (policy_json & w2 & [Hp <-]%lift_ok & Hc).
  apply transaction_cases in Hc as [(x & w0 & w3 & _ & _ & Hb & ->)|[_ Hb]].
  2:{ destruct (Hb _ eq_refl) as (w0 & w3 & _ & [Hend|Hend]);
        do 3 apply bind_ok in Hend as (? & ? & _ & Hend); by tx_step Hend. }
  apply bind_ok in Hb as (u1 & w4 & Hlock & Hb). apply bind_ok in Hb as (u2 & w5 & Hlim & Hb).
  apply bind_ok in Hb as (u3 & w6 & Hins & Hb). tx_step Hb.
  pose proof (insert_scheduled_job_ok _ _ _ _ _ _ _ _ _ _ _ _ Hv Hp Hlock Hlim Hins) as [].
  apply valid_create in Hv as (Hcr & How & Hdef & Hcap & Hfirst).
  exists next. split; [done|]. unfold get_scheduled_job, bind at 1, query.
  erewrite sql_no_faults by reflexivity. unfold joined.
  rewrite cre_jobs0, cre_schedules0, !lookup_insert_eq. cbn [mbind option_bind].
  unfold bind at 1, lift at 1, scheduled_job_from_row, schedule_row, created_job, owner_from_row,
    definition_new, capability_new, schedule_from_row, parts_of_row. cbn.
  unfold definition_validate in Hdef. unfold capability_validate in Hcap.
  destruct (validate_text _ (cap_digest _)) as [[]|] eqn:Hdig; [|done].
  rewrite (version_positive _ _ _ Hdef Hdv), (version_positive _ _ _ Hcap Hcv).
  rewrite (canonical_snapshot_stays _ _ _ Hdef), (canonical_snapshot_stays _ _ _ Hcap). cbn.
  rewrite !principal_valid_new by done. cbn.
  match goal with |- context [from_storage ?p] =>
    replace p with (storage_parts (cr_schedule request)) by (by destruct (storage_parts _)) end.
  rewrite storage_roundtrip by done. cbn. unfold read_back.
  by destruct (cr_definition request), (cr_capability request).
Qed.

(** A database without jobs and runs. *)
Lemma no_jobs_consistent d :
  jobs d = ∅ -> schedules d = ∅ -> runs d = ∅ -> jobs_consistent d.
Proof.
  intros Hj Hs Hr. split; [split| | |]; rewrite ?Hj, ?Hs, ?Hr; intros *; by rewrite lookup_empty.
Qed.

End Properties.

(** ** A job that is created, comes due, is paused and resumed *)

Definition sample_schedule : ScheduleSpec := FixedInterval 100 60.

Definition sample_resolved : Value :=
  target_value "slack" "slack" "tenant-1" "channel" (json_object []) (json_u64 1) zeros64 zeros64.

#[local] Instance job_serde : Serde :=
  serde_of [sample_definition; sample_empty; json_object []; sample_resolved; Arr [sample_resolved];
            policy_struct Policy.default; baseline_value (mkBaseline 0 None); Str "ok";
            (schedule_identity sample_schedule).1].

#[local] Existing Instance sample_sha2.
#[local] Existing Instance Schedule.decade_calendar.

(** SQLite, with every text a JSON document. *)
#[local] Instance job_sqlite : Sqlite := {|
  json_valid text := true;
  json_extract_integer text field := (from_slice text ≫= get field) ≫= as_u64;
  json_extract_text text field := (from_slice text ≫= get field) ≫= as_str;
  json_minify text := if is_some (from_slice text) then Some text else None;
  json_elements text :=
    match from_slice text ≫= as_array with Some l => map display l | None => [] end;
  json_type text field :=
    match from_slice text ≫= get field with
    | Some (Str _) => Some "text"
    | Some v => if is_some (as_u64 v) then Some "integer" else None
    | None => None
    end;
  json_root_type text :=
    v ← from_slice text;
    Some (if is_some (as_array v) then "array"
          else if is_some (as_object v) then "object" else "other");
  datetime_unixepoch t := if t <? 0 then None else Some (pretty t)
|}.

Definition sample_request : CreateScheduledJob :=
  mkCreate "job-2" "schedule-2" (mkDefinition 1 (print_value sample_definition)) sample_principal
    sample_principal (mkCapability 1 zeros64 (print_value sample_empty))
    [mkTargetSnapshot "target-1" "slack" "slack" "tenant-1" "channel" (print_value (json_object [])) 1
       zeros64 zeros64] sample_schedule 50.

Definition empty_world : World :=
  mkWorld (mkDb ∅ ∅ [] ∅ ∅ ∅ ∅ ∅ ∅ ∅ ∅ ∅ ∅ ∅ ∅ ∅ (Some 0) None ∅) [].

Definition sample_idempotency (request_id digest : string) : ScheduleMutationIdempotency :=
  mkIdempotency sample_principal request_id "sha256-v1" digest (print_value (Str "ok")).

Definition create_sample : Event := OfJob (CreateJob Policy.default sample_request).
Definition due_sample : Event := OfJob (Materialize "job-2" 0 250 None (steady 250)).
Definition pause_sample : Event :=
  OfJob (MutateJob Policy.default (MutPause "job-2" 0 300) (sample_idempotency "pause-1" "d1") None).

Definition created_world : World := history [create_sample] empty_world.
Definition due_world : World := history [create_sample; due_sample] empty_world.
Definition paused_world : World := history [create_sample; due_sample; pause_sample] empty_world.

Definition sample_run_id : string := "scheduled:job-2:100".

Definition sample_job_row (w : World) : Job :=
  default (created_job sample_request "") (jobs (db w) !! "job-2").

Definition sample_run_row (w : World) : Run := default sample_waiting (runs (db w) !! sample_run_id).

Example statuses_of_the_sample :
  (fun w : World => (j_status <$> jobs (db w) !! "job-2", j_generation <$> jobs (db w) !! "job-2",
     r_state <$> runs (db w) !! sample_run_id, h_next_run_at <$> schedules (db w) !! "job-2"))
    <$> [created_world; due_world; paused_world]
  = [(Some Active, Some 0, None, Some (Some 100));
     (Some Active, Some 0, Some Pending, Some (Some 280));
     (Some Paused, Some 1, Some Cancelled, Some (Some 280))].
Proof. vm_compute. reflexivity. Qed.

Lemma jobs_stay_consistent_witness : jobs_consistent (db paused_world).
Proof.
  apply (jobs_stay_consistent [create_sample; due_sample; pause_sample] empty_world).
  by apply no_jobs_consistent.
Defined.

Lemma active_jobs_stay_bounded_witness :
  within_limits (Policy.max_active_jobs Policy.default)
    (Policy.max_active_jobs_per_owner Policy.default) (db due_world).
Proof.
  apply (active_jobs_stay_bounded _ _ [create_sample; due_sample] empty_world).
  - repeat constructor; cbn; lia.
  - split; [vm_compute; discriminate|]. intros owner. vm_compute. discriminate.
Defined.

Lemma one_run_per_occurrence_witness : sample_run_id = materialized_id "job-2" 100.
Proof.
  apply (one_run_per_occurrence [create_sample; due_sample; due_sample] empty_world sample_run_id
    (materialized_id "job-2" 100) (sample_run_row due_world) (sample_run_row due_world));
    [|vm_compute; reflexivity..].
  intros id id' r r' Hr. exfalso. cbn in Hr. by rewrite lookup_empty in Hr.
Defined.

Lemma superseded_mutation_refused_witness :
  let w := history [OfJob (ResumeJob Policy.default "job-2" 1 310)] paused_world in
  same_tables (db w) (db (manage (DeleteJob "job-2" 0 320) w)).
Proof.
  apply (superseded_mutation_refused _ paused_world (DeleteJob "job-2" 0 320) "job-2" 0
    (sample_job_row paused_world)); vm_compute; reflexivity.
Defined.

Lemma deleted_jobs_stay_witness :
  let w := history [OfJob (DeleteJob "job-2" 1 400)] paused_world in
  jobs (db (history [due_sample; create_sample] w)) !! "job-2" = Some (sample_job_row w).
Proof.
  intros w. apply (deleted_jobs_stay [due_sample; create_sample] w "job-2" (sample_job_row w));
    vm_compute; reflexivity.
Defined.

Lemma materialize_exact_witness :
  exists j h due schedule policy window targets_json baseline_json,
    materialized "job-2" 0 250 None (steady 250) (db created_world) (db due_world) j h due schedule
      policy window targets_json baseline_json.
Proof.
  assert (materialize_due_schedule_inner "job-2" 0 250 None (steady 250) created_world
    = (Ok (materialized_run sample_run_id "job-2" (mkWindow 100 220 2 false (Some 280))), due_world))
    as E by (vm_compute; reflexivity).
  apply materialize_exact in E
    as [[_ [[e E]|[E|E]]]|[[E _]|(j & h & due & sc & p & win & t & b & _ & Hm & _)]];
    [discriminate E..|]. exists j, h, due, sc, p, win, t, b. exact Hm.
Defined.

(** The sample's worlds, evaluated. *)
Definition due_state : World := Eval vm_compute in due_world.
Definition paused_state : World := Eval vm_compute in paused_world.

Lemma paused_state_reached :
  apply_idempotent_schedule_mutation_with_audit Policy.default (MutPause "job-2" 0 300)
    (sample_idempotency "pause-1" "d1") None due_state
  = (Ok (Applied (print_value (Str "ok"))), paused_state).
Proof.
  vm_cast_no_check (eq_refl (@Ok StateError _ (Applied (print_value (Str "ok"))), paused_state)).
Qed.

Lemma applied_request_is_recorded_witness :
  apply_idempotent_schedule_mutation_with_audit Policy.default (MutPause "job-2" 5 390)
    (sample_idempotency "pause-1" "d2") None (mkWorld (db (history [due_sample] paused_state)) [])
  = (Ok (answer (sample_idempotency "pause-1" "d1") (sample_idempotency "pause-1" "d2")),
     mkWorld (db (history [due_sample] paused_state)) []).
Proof.
  assert (own_checks Policy.default (MutPause "job-2" 5 390) (sample_idempotency "pause-1" "d2")
    None (db (history [due_sample] paused_state)) = Ok tt) as Hc by (vm_compute; reflexivity).
  pose proof (applied_request_is_recorded [due_sample] Policy.default (MutPause "job-2" 0 300)
    (sample_idempotency "pause-1" "d1") None due_state (print_value (Str "ok")) paused_state
    Policy.default (MutPause "job-2" 5 390) (sample_idempotency "pause-1" "d2") None
    paused_state_reached eq_refl eq_refl eq_refl) as Ha.
  cbv zeta in Ha. rewrite Hc in Ha. exact Ha.
Defined.

Example other_digest_conflicts :
  answer (sample_idempotency "pause-1" "d1") (sample_idempotency "pause-1" "d2") = Conflict.
Proof. reflexivity. Qed.

Definition resumed_state : World :=
  Eval vm_compute in manage (MutateJob Policy.default (MutResume "job-2" 1 310) (sample_idempotency "resume-1" "d3") None)
    paused_state.

Lemma resumed_state_reached :
  apply_idempotent_schedule_mutation_with_audit Policy.default (MutResume "job-2" 1 310)
    (sample_idempotency "resume-1" "d3") None paused_state
  = (Ok (Applied (print_value (Str "ok"))), resumed_state).
Proof.
  vm_cast_no_check (eq_refl (@Ok StateError _ (Applied (print_value (Str "ok"))), resumed_state)).
Qed.

Lemma resume_replay_refused_witness :
  apply_idempotent_schedule_mutation_with_audit Policy.default (MutResume "job-2" 1 310)
    (sample_idempotency "resume-1" "d3") None (mkWorld (db (history [due_sample] resumed_state)) [])
  = (Err SchedulerGenerationConflict, mkWorld (db (history [due_sample] resumed_state)) []).
Proof.
  refine (resume_replay_refused [due_sample] Policy.default "job-2" 1 310
    (sample_idempotency "resume-1" "d3") None paused_state (print_value (Str "ok")) resumed_state _).
  exact resumed_state_reached.
Defined.

Definition retrying_world : World :=
  mkWorld (with_runs (db due_world) {[sample_run_id :=
    release_run Pending (Some 400) (Some 1) None None 260 (sample_run_row due_world)]}) [].

Lemma pending_retry_blocks_mutation_witness :
  same_tables (db retrying_world) (db (manage (DeleteJob "job-2" 0 300) retrying_world)).
Proof.
  apply (pending_retry_blocks_mutation (DeleteJob "job-2" 0 300) retrying_world "job-2" 0
    sample_run_id (release_run Pending (Some 400) (Some 1) None None 260 (sample_run_row due_world))
    400); vm_compute; reflexivity.
Defined.

Lemma created_job_reads_back_witness :
  exists next, first_after_create sample_schedule 50 = Ok next
    /\ get_scheduled_job "job-2" (mkWorld (db created_world) [])
       = (Ok (Some (read_back sample_request next)), mkWorld (db created_world) []).
Proof.
  apply (created_job_reads_back Policy.default sample_request empty_world created_world).
  - intros name z n Hz [= <-]. exists tt. split; reflexivity.
  - apply (built_fixed 100 60). reflexivity.
  - reflexivity.
  - reflexivity.
  - vm_compute. reflexivity.
Defined.

End JobSafety.
