(* ===== verification/OperatorSafety.v ===== *)
(** * What operators can do (crates/state/src/scheduler/store.rs)

    The effect of an operator's request is exact, recorded once and bound to what
    was asked: these are the theorems about the three operator transactions and
    about the log they write, over every history of the stores. *)

From stdpp Require Import base tactics list strings numbers pretty gmap relations.
From Stdlib Require Import ZArith Lia Ascii.
From S2P Require Import Prelude.
From S2P Require Import Policy.
From S2P Require Import Schedule.
From S2P Require Import Json.
From S2P Require Import Digest.
From S2P Require Import Capability.
From S2P Require Import Authority.
From S2P Require Import Tables.
From S2P Require Import Runs.
From S2P Require Import Completion.
From S2P Require Import Lifecycle.
From S2P Require Import RunSafety.
From S2P Require Import DeliveryTables.
From S2P Require Import Deliveries.
From S2P Require Import DeliveryLifecycle.
From S2P Require Import DeliveryInvariants.
From S2P Require Import JobTables.
From S2P Require Import Jobs.
From S2P Require Import JobLifecycle.
From S2P Require Import Routes.
From S2P Require Import Operators.
From S2P Require Import OperatorLifecycle.
From S2P Require Import System.
From S2P Require Import DeliverySafety.
Import Digest.

Module OperatorSafety.
Import Schedule Snapshot Authority Tables Runs Completion Lifecycle RunSafety DeliveryTables
  Deliveries DeliveryLifecycle DeliveryInvariants Jobs JobLifecycle Routes Operators OperatorLifecycle
  System DeliverySafety.

Definition operator_request (c : OperatorCall) : SchedulerOperatorRequest :=
  match c with
  | RetryRun request _ _ _ _ _ _ | RetryDelivery request _ _ _ _ _ | ActOnUnknown request _ _ _ _ =>
      request
  end.

Section Properties.
Context `{Calendar} `{Serde} `{Sha2} `{Sqlite}.

(** What a call answers. *)
Definition operator_answer (c : OperatorCall) (w : World) :
    result StateError SchedulerOperatorMutationOutcome :=
  match c with
  | RetryRun request id n fence reason digest next =>
      (operator_retry_scheduled_run request id n fence reason digest next w).1
  | RetryDelivery request id n fence reason digest =>
      (operator_retry_scheduled_delivery request id n fence reason digest w).1
  | ActOnUnknown request id n fence action =>
      (operator_act_on_unknown_delivery request id n fence action w).1
  end.

(** The log of operator actions is exact over every history: what a row moved
    on is on record, every action on record other than an acknowledgement moved
    its row and is used up, and a principal's request is on record at most
    once. *)
Theorem log_stays_exact events w : log_ok (db w) -> log_ok (db (history events w)).
Proof. apply history_log. Qed.

(** C5. A retry of a run by an operator either writes nothing, or puts exactly
    that run (stopped without a result, at the attempt and fence the request
    names, within the retry policy frozen with it) back to waiting until the
    requested time, records the action with its reason and uses it up; attempts,
    deliveries, jobs and all other runs stay. *)
Theorem run_retry_exact request run_id n fence reason_json reason_digest next w x w' :
  log_ok (db w) ->
  operator_retry_scheduled_run request run_id n fence reason_json reason_digest next w = (x, w') ->
  (x <> Ok OperatorApplied /\ db w' = db w)
  \/ (x = Ok OperatorApplied /\ exists r, run_retried request run_id n fence reason_json
        reason_digest next (db w) (db w') r (operator_action_id request)).
Proof.
  intros Hlog [?|(-> & r & used & Hr)]%retry_run_cases; [by left|right]. split; [done|].
  exists r. by rewrite <-(run_retried_used _ _ _ _ _ _ _ _ _ _ _ Hlog Hr).
Qed.

(** A retry of a delivery by an operator either writes nothing, or puts
    exactly that delivery (prepared, failed without a write, at the attempt and
    fence the request names, within its retry policy) back to waiting, records
    the action and uses exactly it up; runs, attempts and baselines stay. *)
Theorem delivery_retry_exact request id n fence reason_json reason_digest w x w' :
  log_ok (db w) ->
  operator_retry_scheduled_delivery request id n fence reason_json reason_digest w = (x, w') ->
  (x <> Ok OperatorApplied /\ db w' = db w)
  \/ (x = Ok OperatorApplied /\ exists next r,
        delivery_retried request id n fence reason_json reason_digest next (db w) (db w') r
        /\ operator_consumptions (db w') = <[operator_action_id request :=
             mkConsumption "delivery" id next]> (operator_consumptions (db w))
        /\ runs (db w') = runs (db w) /\ delivery_attempts (db w') = delivery_attempts (db w)
        /\ delivery_baselines (db w') = delivery_baselines (db w)).
Proof.
  intros Hlog [?|(-> & next & r & Hr)]%retry_delivery_cases; [by left|right]. split; [done|].
  exists next, r. pose proof (delivery_retried_used _ _ _ _ _ _ _ _ _ _ Hlog Hr) as Hu.
  split; [done|]. destruct Hr as [_ _ Hm]. rewrite (moved_consumptions _ _ _ _ _ _ _ _ _ Hm Hu).
  by destruct (moved_runs _ _ _ _ _ _ _ _ Hm) as (-> & _ & -> & -> & _).
Qed.

(** C3. An action on a delivery with an unknown outcome either moves no row, or
    applies to exactly that unknown delivery, at the attempt and fence the
    request names, with evidence that binds its target: a confirmation closes
    delivery and attempt (and advances the accepted baseline by one if it was
    delivered), a forced resend puts the delivery back to waiting, and an
    acknowledgement is only recorded; what moves a row is used up, and nothing
    else is. *)
Theorem unknown_action_exact request id n fence action w x w' :
  log_ok (db w) ->
  operator_act_on_unknown_delivery request id n fence action w = (x, w') ->
  (x <> Ok OperatorApplied /\ delivery_keeps (db w) (db w'))
  \/ (x = Ok OperatorApplied /\ exists parts r,
        delivery_resolved request id n fence action parts (db w) (db w') r
        /\ operator_consumptions (db w') = match resolution_columns action with
             | Some _ => <[operator_action_id request := mkConsumption "delivery" id
                 (oq_occurred_at request)]> (operator_consumptions (db w))
             | None => operator_consumptions (db w)
             end).
Proof.
  intros Hlog [?|(-> & parts & r & Hr)]%act_cases; [by left|right]. split; [done|].
  exists parts, r. split; [done|]. by eapply delivery_resolved_log.
Qed.

(** *** A request is applied once *)

Lemma applied_was_recorded c w :
  operator_answer c w = Ok OperatorApplied ->
  exists x, recorded (operator_request c) x (db w)
    /\ operator_actions (db (operate c w))
       = operator_actions (record_action (operator_request c) x (db w)).
Proof.
  destruct c as [request id n f reason digest next|request id n f reason digest|request id n f action];
    cbn [operate operator_answer operator_request].
  - destruct (operator_retry_scheduled_run _ _ _ _ _ _ _ w) as [x w'] eqn:E. cbn [fst snd]. intros ->.
    apply retry_run_cases in E as [[? _]|(_ & r & used & [])]; [done|by eauto].
  - destruct (operator_retry_scheduled_delivery _ _ _ _ _ _ w) as [x w'] eqn:E. cbn [fst snd].
    intros ->. apply retry_delivery_cases in E as [[? _]|(_ & next & r & [Hrec _ Hm])]; [done|].
    apply moved_log in Hm as [Ha _]. eauto.
  - destruct (operator_act_on_unknown_delivery _ _ _ _ _ w) as [x w'] eqn:E. cbn [fst snd].
    intros ->. apply act_cases in E as [[? _]|(_ & parts & r & Hr)]; [done|].
    exists (unknown_action id n f parts (oq_occurred_at request)).
    split; [by destruct Hr|]. by eapply delivery_resolved_actions.
Qed.

(** C4. A request is applied at most once: after a request of a principal was
    applied, no later request with its id, of any kind and for any target, is
    applied, whatever happened in between. *)
Theorem request_applies_once events c c' w :
  operator_answer c w = Ok OperatorApplied ->
  oq_principal (operator_request c') = oq_principal (operator_request c) ->
  oq_request_id (operator_request c') = oq_request_id (operator_request c) ->
  operator_answer c' (history events (operate c w)) <> Ok OperatorApplied.
Proof.
  intros (x & Hrec & Ha)%applied_was_recorded Hp Hq (y & [_ _ _ _ Hnew] & _)%applied_was_recorded.
  assert (operator_actions (db (operate c w)) !! operator_action_id (operator_request c)
    = Some (action_row (operator_request c) x)) as Ho by (rewrite Ha; apply lookup_insert_eq).
  pose proof (system_steps_log _ _ (history_steps events (operate c w))) as [Hsub _].
  eapply lookup_weaken in Ho; [|exact Hsub].
  apply (request_row_none _ _ _ _ Hnew), not_true_iff_false in Ho. contradict Ho.
  by apply of_request_spec.
Qed.

(** *** Replays *)

Lemma request_row_found request d k o :
  log_ok d -> operator_actions d !! k = Some o -> of_request request k o = true ->
  request_row request d = Some o.
Proof.
  intros [_ _ Hdis] Ho Hof. unfold request_row.
  assert ((matching (of_request request) (operator_actions d)).*1 = [k]) as Hone.
  { apply (only_key _ _ o); [done..|]. intros k' o' Ho' Hof'.
    apply of_request_spec in Hof as [Hp Hq], Hof' as [Hp' Hq'].
    apply (Hdis k' k o' o); congruence. }
  destruct (matching _ _) as [|[k' o'] [|]] eqn:E in Hone |- *; try done. injection Hone as ->.
  assert ((k, o') ∈ matching (of_request request) (operator_actions d)) as [Ho' _]%elem_of_matching
    by (rewrite E; constructor). cbn. congruence.
Qed.

(** The row of an applied request, at any later time. *)
Lemma applied_row_stays events c w :
  log_ok (db w) -> operator_answer c w = Ok OperatorApplied ->
  exists x, recorded (operator_request c) x (db w)
    /\ operator_actions (db (operate c w))
       = operator_actions (record_action (operator_request c) x (db w))
    /\ request_row (operator_request c) (db (history events (operate c w)))
       = Some (action_row (operator_request c) x).
Proof.
  intros Hlog (x & Hrec & Ha)%applied_was_recorded. exists x. split_and!; [done..|].
  apply request_row_found with (operator_action_id (operator_request c));
    [by apply history_log, operate_log| |by apply of_request_spec].
  pose proof (system_steps_log _ _ (history_steps events (operate c w))) as [Hsub _].
  eapply lookup_weaken; [|exact Hsub]. rewrite Ha. apply lookup_insert_eq.
Qed.

Lemma run_retry_replays request id n fence reason_json reason_digest next w w' d o :
  operator_retry_scheduled_run request id n fence reason_json reason_digest next w
    = (Ok OperatorApplied, w') ->
  request_row request d = Some o -> o_request_digest o = oq_request_digest request ->
  o_occurred_at o = oq_occurred_at request ->
  operator_retry_scheduled_run request id n fence reason_json reason_digest next (mkWorld d [])
    = (Ok OperatorReplay, mkWorld d []).
Proof.
  unfold operator_retry_scheduled_run. intros Ha Hrow Hdigest Hat.
  do 3 (apply try_cases in Ha as [(? & _ & [=] & _)|([] & Hv & Ha)]; unfold bind at 1, lift at 1;
        rewrite Hv; clear Hv).
  destruct (_ || _) in Ha |- *; [done|]. destruct (negb _) in Ha |- *; [done|].
  unfold transaction, begin_transaction. cbn [take_fault faults db].
  unfold bind at 1, existing_operator_request, query. erewrite sql_no_faults by reflexivity.
  rewrite Hrow. cbn [option_map]. rewrite Hdigest, Hat, String.eqb_refl, Z.eqb_refl. reflexivity.
Qed.

Lemma delivery_retry_replays request id n fence reason_json reason_digest next w w' d r :
  operator_retry_scheduled_delivery request id n fence reason_json reason_digest w
    = (Ok OperatorApplied, w') ->
  delivery_retried request id n fence reason_json reason_digest next (db w) (db w') r ->
  request_row request d = Some (action_row request
    (delivery_retry_action id n fence reason_json reason_digest next)) ->
  operator_retry_scheduled_delivery request id n fence reason_json reason_digest (mkWorld d [])
    = (Ok OperatorReplay, mkWorld d []).
Proof.
  unfold operator_retry_scheduled_delivery. intros Ha [[] _ _] Hrow.
  do 3 (apply try_cases in Ha as [(? & _ & [=] & _)|([] & Hv & Ha)]; unfold bind at 1, lift at 1;
        rewrite Hv; clear Hv).
  destruct (_ || _) in Ha |- *; [done|].
  unfold transaction, begin_transaction. cbn [take_fault faults db].
  unfold bind at 1, existing_delivery_retry_request, query. erewrite sql_no_faults by reflexivity.
  rewrite Hrow. cbn [option_map action_row o_request_digest o_effective_at o_occurred_at].
  unfold replay_delivery_retry. rewrite String.eqb_refl, Z.eqb_refl. cbn [negb orb].
  unfold bind at 1, lift at 1, validate_operator_action_request.
  cbn [delivery_retry_action oa_effective_at]. unfold delivery_retry_action in rec_digest0.
  rewrite rec_digest0, String.eqb_refl. reflexivity.
Qed.

Definition is_retry (c : OperatorCall) : bool :=
  match c with ActOnUnknown _ _ _ _ _ => false | _ => true end.

(** A retry that was applied is answered as a replay for ever: the same
    request, repeated at any later time, changes nothing and says so. *)
Theorem applied_retry_is_replayed events c w :
  log_ok (db w) -> is_retry c = true -> operator_answer c w = Ok OperatorApplied ->
  let d := db (history events (operate c w)) in
  operator_answer c (mkWorld d []) = Ok OperatorReplay /\ db (operate c (mkWorld d [])) = d.
Proof.
  intros Hlog Hretry Happlied.
  destruct (applied_row_stays events c w Hlog Happlied) as (x & Hrec & Hx & Hrow).
  destruct c as [request id n f reason digest next|request id n f reason digest|]; [..|done];
    cbn [operate operator_answer operator_request] in *.
  - destruct (operator_retry_scheduled_run _ _ _ _ _ _ _ w) as [y w'] eqn:E. cbn [fst snd] in *.
    subst y. by erewrite run_retry_replays.
  - destruct (operator_retry_scheduled_delivery _ _ _ _ _ _ w) as [y w'] eqn:E. cbn [fst snd] in *.
    subst y. apply retry_delivery_cases in E as Hc; destruct Hc as [[? _]|(_ & next & r & Hr)]; [done|].
    pose proof Hr as [Hrec' _ Hm]. apply moved_log in Hm as [Ha _]. rewrite Ha in Hx. cbn in Hx.
    apply (f_equal (fun t => t !! operator_action_id request)) in Hx.
    rewrite !lookup_insert_eq in Hx. apply (inj Some) in Hx. rewrite <-Hx in Hrow.
    by erewrite delivery_retry_replays.
Qed.

(** An action on an unknown outcome that was applied is answered, whenever it
    is repeated, as a replay while the delivery is still at that attempt, and as
    a conflict once the delivery was sent again; neither changes anything. *)
Theorem applied_action_is_not_repeated events request id n fence action w w' :
  log_ok (db w) ->
  operator_act_on_unknown_delivery request id n fence action w = (Ok OperatorApplied, w') ->
  let d := db (history events w') in
  operator_act_on_unknown_delivery request id n fence action (mkWorld d [])
  = (Ok (if is_some (delivery_at id n fence d) then OperatorReplay else OperatorConflict),
     mkWorld d []).
Proof.
  intros Hlog Ha d.
  pose proof (applied_row_stays events (ActOnUnknown request id n fence action) w Hlog) as Hrow.
  cbn [operator_answer operate operator_request] in Hrow. rewrite Ha in Hrow. cbn [fst snd] in Hrow.
  destruct (Hrow eq_refl) as (x & [Hdigest _ _ _ _] & _ & Hfound). fold d in Hfound. clear Hrow.
  pose proof (history_steps (OfOperator (ActOnUnknown request id n fence action) :: events) w) as Hs.
  cbn [history foldl happen operate] in Hs. rewrite Ha in Hs. cbn [snd] in Hs. fold (history events w') in Hs.
  fold d in Hs. apply act_cases in Ha as Hc. destruct Hc as [[? _]|(_ & parts & r & Hr)]; [done|].
  assert (forall r', delivery_at id n fence d = Some r' -> d_intent r' = d_intent r) as Hintent.
  { intros r' Hr'. pose proof (ur_row _ _ _ _ _ _ _ _ _ Hr) as Hat. unfold delivery_at in Hat, Hr'.
    destruct (deliveries (db w) !! id) as [r0|] eqn:E; [|done]. cbn in Hat.
    destruct (_ && _) in Hat; [|done]. injection Hat as <-.
    destruct (system_steps_grow _ _ _ _ Hs E) as (r1 & Hr1 & Hg). rewrite Hr1 in Hr'. cbn in Hr'.
    destruct (_ && _) in Hr'; [|done]. injection Hr' as <-. apply Hg. }
  unfold operator_act_on_unknown_delivery in Ha |- *.
  do 2 (apply try_cases in Ha as [(? & _ & [=] & _)|([] & Hv & Ha)]; unfold bind at 1, lift at 1;
        rewrite Hv; clear Hv).
  destruct (_ || _) in Ha |- *; [done|].
  do 2 (apply try_cases in Ha as [(? & _ & [=] & _)|(? & Hv & Ha)]; unfold bind at 1, lift at 1;
        rewrite Hv; clear Hv).
  unfold or_delivery_lost_lease, bind at 1, transaction, begin_transaction. cbn [take_fault faults db].
  unfold bind at 1, query. erewrite sql_no_faults by reflexivity.
  destruct (delivery_at id n fence d) as [r'|]; [|reflexivity].
  unfold bind at 1, lift at 1. rewrite (Hintent r' eq_refl), (ur_binding _ _ _ _ _ _ _ _ _ Hr).
  unfold bind at 1, existing_operator_request, query. erewrite sql_no_faults by reflexivity.
  rewrite Hfound. cbn [option_map action_row o_request_digest o_occurred_at].
  rewrite String.eqb_refl, Z.eqb_refl. reflexivity.
Qed.


(** *** What a request is bound to *)

Lemma json_i64_inj a b : json_i64 a = json_i64 b -> a = b.
Proof. unfold json_i64. destruct (a <? 0), (b <? 0); congruence. Qed.

Lemma json_text_inj a b : json_option Str a = json_option Str b -> a = b.
Proof. destruct a, b; cbn; congruence. Qed.

Lemma action_value_inj x y : action_value x = action_value y -> x = y.
Proof.
  intros Heq. destruct x, y. cbn in Heq. injection Heq. intros.
  repeat match goal with
    | E : (if _ then NegInt _ else _) = _ |- _ => apply (f_equal Num), json_i64_inj in E
    | E : json_option Str _ = json_option Str _ |- _ => apply json_text_inj in E
    end. congruence.
Qed.

Lemma digest_pins_action x y :
  faithful (action_value x) -> faithful (action_value y) ->
  (sha256_digest (display (action_value x)) = sha256_digest (display (action_value y)) ->
   display (action_value x) = display (action_value y)) ->
  operator_action_request_digest x = operator_action_request_digest y -> x = y.
Proof.
  intros Hx Hy Hcollision Heq. unfold operator_action_request_digest, sha256_hex in Heq.
  apply encode_sha256_inj, Hcollision, faithful_inj in Heq; [|done..]. by apply action_value_inj.
Qed.

(** A request does only what it was made for: a request built for one action
    on one delivery, attempt and fence is applied to no other delivery, attempt
    or fence and with no other decision, evidence, receipt or reason, as long as
    the hash does not collide on the two actions. *)
Theorem request_does_only_its_action principal request_id id n fence action parts at_ request
    id' n' fence' action' parts' w w' :
  for_delivery_action principal request_id id n fence action at_ = Ok request ->
  authority_parts action = Ok parts -> authority_parts action' = Ok parts' ->
  (let x := unknown_action id n fence parts at_ in
   let y := unknown_action id' n' fence' parts' at_ in
   faithful (action_value x) /\ faithful (action_value y)
   /\ (sha256_digest (display (action_value x)) = sha256_digest (display (action_value y)) ->
       display (action_value x) = display (action_value y))) ->
  operator_act_on_unknown_delivery request id' n' fence' action' w = (Ok OperatorApplied, w') ->
  id' = id /\ n' = n /\ fence' = fence /\ parts' = parts.
Proof.
  intros Hfor Hparts Hparts' (Hx & Hy & Hcollision) Ha.
  apply act_cases in Ha as [[? _]|(_ & parts2 & r & [])]; [done|].
  rewrite Hparts' in ur_parts0. injection ur_parts0 as <-.
  unfold for_delivery_action in Hfor. ok_facts. rewrite Hparts in Hfor. peel Hfor.
  destruct ur_recorded0. cbn in rec_digest0.
  apply digest_pins_action in rec_digest0; [|done..].
  destruct parts, parts'. injection rec_digest0. intros. subst. by split_and!.
Qed.

End Properties.

(** ** A run that failed, a delivery that was not written and one nobody knows of *)

Definition op_reason : Value := json_object [
  ("reason", Str "the outage is over"); ("reason_code", Str "outage"); ("schema_version", json_u64 1)].

Definition op_target : Value := json_object [
  ("address", json_object [
    ("authorization_evidence", json_object [("digest", Str zeros64); ("version", json_u64 1)]);
    ("coordinates", json_object [("channel_id", Str "C1")]); ("created_at", json_u64 90);
    ("requested_identity_digest", Str zeros64);
    ("routing_authority", json_object [("context_team_id", Str "tenant-1");
       ("conversation_host_id", Str "tenant-1"); ("enterprise_id", Null); ("team_id", Str "tenant-1")]);
    ("schema_version", json_u64 1); ("workspace_id", Str "tenant-1")]);
  ("connector", Str "slack"); ("identity_digest", Str zeros64); ("kind", Str "channel");
  ("provider", Str "slack"); ("resolver_digest", Str zeros64); ("resolver_version", json_u64 1);
  ("tenant", Str "tenant-1")].

Definition op_evidence (kind result : string) : Value := json_object [
  ("evidence_id", Str "e-1"); ("evidence_version", json_u64 1); ("kind", Str kind);
  ("provider", Str "slack"); ("provider_query_completed_at", json_u64 190);
  ("provider_query_result", Str result); ("provider_query_scope", Str "canonical_delivery_target");
  ("provider_query_started_at", json_u64 180); ("provider_query_summary_digest", Str zeros64);
  ("provider_query_window_end", json_u64 185); ("provider_query_window_start", json_u64 150);
  ("target_kind", Str "channel"); ("tenant", Str "tenant-1")].

Definition no_match : Value := op_evidence "operator_force_resend" "no_matching_write_found".

Definition op_principal : PrincipalKey := mkPrincipal "user" "slack" "tenant-1" "OP".

Definition op_intent (run : string) : DeliveryIntent :=
  mkIntent run "job-1" zeros64 (print_value op_target) 1 "result-1" 1 1 "sha256-v1" zeros64
    ("v1:" +:+ encode_sha256 run +:+ ":" +:+ zeros64 +:+ ":1") 1
    (print_value (policy_struct Policy.default)) 130.

Definition op_delivery (run : string) : string :=
  "intent:v1:" +:+ encode_sha256 run +:+ ":" +:+ zeros64 +:+ ":1".

Definition op_payload : DeliveryPayload :=
  mkPayload 1 1 "text/plain" "sha256-utf8-exact-v1" zeros64 "all is well" 140 0 1.

Definition op_row (run : string) (s : ScheduledDeliveryState) (next : option Z) (outcome : string) :
    Delivery :=
  mkDelivery (op_intent run) s 1 1 next None None (Some "key-1") None (Some outcome)
    (Some "timeout") None (Some op_payload) (Some 0) 160 false.

Definition op_send (s : ScheduledDeliveryState) (outcome : string) : DeliveryAttempt :=
  mkDeliveryAttempt 1 "sender-1" 200 "key-1" 0 s None (Some outcome) (Some "timeout") None 150
    (Some 160).

Definition force_resend : ScheduledDeliveryUnknownAction :=
  ForceResend (print_value no_match) zeros64 (print_value op_reason) zeros64 true.

Definition op_parts : AuthorityParts :=
  mkParts "force_delivery_resend" "pending" (print_value no_match) zeros64 None
    (Some (print_value op_reason)) (Some zeros64) true.

Definition resend_action : OperatorActionInsert :=
  unknown_action (op_delivery "run-3") 1 1 op_parts 200.

#[local] Instance op_serde : Serde :=
  serde_of [op_reason; op_target; no_match; policy_struct Policy.default; action_value resend_action].

#[local] Existing Instance sample_sha2.
#[local] Existing Instance Schedule.decade_calendar.

#[local] Instance op_sqlite : Sqlite := {|
  json_valid text := is_some (from_slice text);
  json_extract_integer text field := (from_slice text ≫= get field) ≫= as_u64;
  json_extract_text text field := (from_slice text ≫= get field) ≫= as_str;
  json_minify text := if is_some (from_slice text) then Some text else None;
  json_elements text :=
    match from_slice text with
    | Some (Arr l) => map display l
    | Some (Obj l) => map (fun x => display x.2) l
    | _ => []
    end;
  json_type text field :=
    match from_slice text ≫= get field with
    | Some (Str _) => Some "text"
    | Some v => if is_some (as_u64 v) then Some "integer" else None
    | None => None
    end;
  json_root_type text :=
    v ← from_slice text;
    Some (if is_some (as_array v) then "array" else if is_some (as_object v) then "object" else "other");
  datetime_unixepoch t := if t <? 0 then None else Some (pretty t)
|}.

Definition failed_run : Run :=
  mkRun sample_snapshot Failed 1 1 None None None None None (Some "transport") None 130 false.

Definition op_world : World :=
  mkWorld (mkDb {["run-1" := failed_run]} ∅ [] ∅ ∅
    (list_to_map [(op_delivery "run-2", op_row "run-2" DFailedRetryable (Some 170)
                     "confirmed_no_write_retryable");
                  (op_delivery "run-3", op_row "run-3" DDeliveryUnknown None "ambiguous_post_write")])
    (list_to_map [((op_delivery "run-2", 1), op_send DFailedRetryable "confirmed_no_write_retryable");
                  ((op_delivery "run-3", 1), op_send DDeliveryUnknown "ambiguous_post_write")])
    ∅ ∅ ∅ ∅ ∅ ∅ ∅ ∅ ∅ (Some 0) None ∅) [].

Definition op_request (id : string) : SchedulerOperatorRequest :=
  mkOperatorRequest op_principal id zeros64 200.

Definition retry_the_run (id : string) (next : Z) : OperatorCall :=
  RetryRun (op_request id) "run-1" 1 1 (print_value op_reason) zeros64 next.

Definition retry_the_delivery (id : string) : OperatorCall :=
  RetryDelivery (op_request id) (op_delivery "run-2") 1 1 (print_value op_reason) zeros64.

Definition resend_the_unknown (id : string) : OperatorCall :=
  ActOnUnknown (op_request id) (op_delivery "run-3") 1 1 force_resend.

Lemma op_log_ok : log_ok (db op_world).
Proof. split; intros *; cbn; rewrite ?lookup_empty; [by intros []|done|done]. Qed.

Definition resent_world : World := Eval vm_compute in operate (resend_the_unknown "q-1") op_world.

Lemma resend_applies :
  operator_act_on_unknown_delivery (op_request "q-1") (op_delivery "run-3") 1 1 force_resend op_world
  = (Ok OperatorApplied, resent_world).
Proof. vm_cast_no_check (eq_refl (Ok (E := StateError) OperatorApplied, resent_world)). Qed.

Lemma retry_applies : operator_answer (retry_the_delivery "q-2") op_world = Ok OperatorApplied.
Proof. vm_cast_no_check (eq_refl (Ok (E := StateError) OperatorApplied)). Qed.

Lemma run_retry_applies :
  (operator_retry_scheduled_run (op_request "q-3") "run-1" 1 1 (print_value op_reason) zeros64 232
     op_world).1 = Ok OperatorApplied.
Proof. vm_cast_no_check (eq_refl (Ok (E := StateError) OperatorApplied)). Qed.

(** The three requests, and what they leave. *)
Example operators_move_the_sample :
  (r_state <$> runs (db (operate (retry_the_run "q-3" 232) op_world)) !! "run-1",
   d_state <$> deliveries (db (operate (retry_the_delivery "q-2") op_world)) !! op_delivery "run-2",
   d_state <$> deliveries (db resent_world) !! op_delivery "run-3")
  = (Some Pending, Some DPending, Some DPending).
Proof. vm_compute. reflexivity. Qed.

Lemma log_stays_exact_witness :
  log_ok (db (history [OfOperator (resend_the_unknown "q-1"); OfRun (ReclaimSnapshot 300)] op_world)).
Proof. apply (log_stays_exact _ op_world), op_log_ok. Defined.

Lemma run_retry_exact_witness :
  exists r, run_retried (op_request "q-3") "run-1" 1 1 (print_value op_reason) zeros64 232
    (db op_world) (db (operate (retry_the_run "q-3" 232) op_world)) r
    (operator_action_id (op_request "q-3")).
Proof.
  destruct (run_retry_exact (op_request "q-3") "run-1" 1 1 (print_value op_reason) zeros64 232 op_world
    (Ok OperatorApplied) (operate (retry_the_run "q-3" 232) op_world) op_log_ok) as [[Hne _]|[_ Hr]];
    [apply fst_is, run_retry_applies|by contradict Hne|exact Hr].
Defined.

Lemma delivery_retry_exact_witness :
  operator_consumptions (db (operate (retry_the_delivery "q-2") op_world))
    !! operator_action_id (op_request "q-2") <> None.
Proof.
  destruct (delivery_retry_exact (op_request "q-2") (op_delivery "run-2") 1 1 (print_value op_reason)
    zeros64 op_world (Ok OperatorApplied) (operate (retry_the_delivery "q-2") op_world) op_log_ok)
    as [[Hne _]|(_ & next & r & _ & Hc & _)];
    [apply fst_is, retry_applies|by contradict Hne|]. by rewrite Hc, lookup_insert_eq.
Defined.

Lemma unknown_action_exact_witness :
  exists parts r, delivery_resolved (op_request "q-1") (op_delivery "run-3") 1 1 force_resend parts
    (db op_world) (db resent_world) r.
Proof.
  destruct (unknown_action_exact (op_request "q-1") (op_delivery "run-3") 1 1 force_resend op_world
    (Ok OperatorApplied) resent_world op_log_ok resend_applies) as [[Hne _]|(_ & parts & r & Hr & _)];
    [by contradict Hne|by exists parts, r].
Defined.

Lemma request_applies_once_witness :
  operator_answer (RetryDelivery (op_request "q-1") (op_delivery "run-2") 1 1 (print_value op_reason)
    zeros64) (history [OfRun (ReclaimSnapshot 300)] (operate (resend_the_unknown "q-1") op_world))
  <> Ok OperatorApplied.
Proof.
  apply (request_applies_once [OfRun (ReclaimSnapshot 300)] (resend_the_unknown "q-1"));
    [cbn [operator_answer resend_the_unknown]; by rewrite resend_applies|reflexivity|reflexivity].
Defined.

Lemma applied_retry_is_replayed_witness :
  let d := db (history [OfRun (ReclaimSnapshot 300)] (operate (retry_the_delivery "q-2") op_world)) in
  operator_answer (retry_the_delivery "q-2") (mkWorld d []) = Ok OperatorReplay
  /\ db (operate (retry_the_delivery "q-2") (mkWorld d [])) = d.
Proof.
  apply (applied_retry_is_replayed [OfRun (ReclaimSnapshot 300)] (retry_the_delivery "q-2") op_world);
    [apply op_log_ok|reflexivity|apply retry_applies].
Defined.

Lemma applied_action_is_not_repeated_witness :
  let d := db (history [OfRun (ReclaimSnapshot 300)] resent_world) in
  operator_act_on_unknown_delivery (op_request "q-1") (op_delivery "run-3") 1 1 force_resend
    (mkWorld d [])
  = (Ok (if is_some (delivery_at (op_delivery "run-3") 1 1 d) then OperatorReplay
         else OperatorConflict), mkWorld d []).
Proof.
  apply (applied_action_is_not_repeated [OfRun (ReclaimSnapshot 300)] (op_request "q-1")
    (op_delivery "run-3") 1 1 force_resend op_world resent_world);
    [apply op_log_ok|apply resend_applies].
Defined.

Lemma request_does_only_its_action_witness :
  op_delivery "run-3" = op_delivery "run-3" /\ 1 = 1 /\ 1 = 1 /\ op_parts = op_parts.
Proof.
  refine (request_does_only_its_action op_principal "q-1" (op_delivery "run-3") 1 1 force_resend
    op_parts 200 (op_request "q-1") (op_delivery "run-3") 1 1 force_resend op_parts op_world
    resent_world _ _ _ _ resend_applies).
  - vm_compute. reflexivity.
  - vm_compute. reflexivity.
  - vm_compute. reflexivity.
  - cbv zeta. split_and!; [apply serde_of_faithful; vm_compute; reflexivity..|done].
Defined.

End OperatorSafety.
