(* ===== verification/Tasks.v ===== *)
(** * Tasks that take turns

    An [async] operation as the sequence of its atomic actions: a transaction of
    the store, a call of a provider, a lock taken and released.  Tasks of several
    processes share one state; between two actions of one task the others may
    act, a task may be dropped, and a process may stop with all of its tasks.
    What an action answers beyond the shared state (a storage fault, the
    provider's answer, the clock) is an input of the move that performs it.  A
    value with a destructor (a permit) guards the actions in its scope: the
    destructor runs at the end of the scope, or when the task is dropped in it.

    [Discipline] is what a component proves of its actions: what a task may hold
    at each point, and an invariant of the shared state and of everything that is
    held.  [histories_keep] then gives the invariant in every history. *)

From stdpp Require Import base tactics list.
From S2P Require Import Prelude.

Module Tasks.

Section Programs.
Context {Op : Type} {Res : Op -> Type}.

Inductive Prog (A : Type) : Type :=
| Ret (a : A)
| Do (o : Op) (guards : list Op) (k : Res o -> Prog A).
Arguments Ret {A} a.
Arguments Do {A} o guards k.

Definition act (o : Op) : Prog (Res o) := Do o [] Ret.

Fixpoint bind {A B} (m : Prog A) (k : A -> Prog B) : Prog B :=
  match m with
  | Ret a => k a
  | Do o gs c => Do o gs (fun r => bind (c r) k)
  end.

(** A scope with a guard: [g] is its destructor. *)
Fixpoint guarded {A} (g : Op) (m : Prog A) : Prog A :=
  match m with
  | Ret a => Ret a
  | Do o gs c => Do o (g :: gs) (fun r => guarded g (c r))
  end.

(** At the end of the scope the destructor is an action of its own; it still
    guards itself, so that it is never skipped. *)
Definition scoped {A} (g : Op) (m : Prog A) : Prog A :=
  bind (guarded g m) (fun a => Do g [g] (fun _ => Ret a)).

(** [m.await?]: an error ends the operation with the error [f] makes of it. *)
Definition try_bind {E F A B} (f : E -> F) (m : Prog (result E A))
    (k : A -> Prog (result F B)) : Prog (result F B) :=
  bind m (fun r => match r with Ok a => k a | Err e => Ret (Err (f e)) end).

Definition map_prog {A B} (f : A -> B) (m : Prog A) : Prog B := bind m (fun a => Ret (f a)).

(** A task alone, with the input of every action given by [input]. *)
Fixpoint run_alone {Env State A} (exec : forall o : Op, Env -> State -> Res o * State)
    (input : Op -> Env) (p : Prog A) (s : State) : A * State :=
  match p with
  | Ret a => (a, s)
  | Do o _ k => let '(r, s') := exec o (input o) s in run_alone exec input (k r) s'
  end.

Lemma run_bind {Env State A B} (exec : forall o : Op, Env -> State -> Res o * State) input
    (m : Prog A) (k : A -> Prog B) s :
  run_alone exec input (bind m k) s
  = run_alone exec input (k (run_alone exec input m s).1) (run_alone exec input m s).2.
Proof.
  revert s. induction m as [a|o gs c IH]; intros s; [done|]. cbn.
  destruct (exec o (input o) s) as [r s']. apply IH.
Qed.

Lemma run_try {Env State E F A B} (exec : forall o : Op, Env -> State -> Res o * State) input
    (f : E -> F) (m : Prog (result E A)) (k : A -> Prog (result F B)) s :
  run_alone exec input (try_bind f m k) s
  = match run_alone exec input m s with
    | (Ok a, s') => run_alone exec input (k a) s'
    | (Err e, s') => (Err (f e), s')
    end.
Proof.
  unfold try_bind. rewrite run_bind. by destruct (run_alone exec input m s) as [[a|e] s'].
Qed.

Lemma run_scoped {Env State A} (exec : forall o : Op, Env -> State -> Res o * State) input
    (g : Op) (m : Prog A) s :
  run_alone exec input (scoped g m) s
  = ((run_alone exec input m s).1, (exec g (input g) (run_alone exec input m s).2).2).
Proof.
  unfold scoped. rewrite run_bind.
  assert (run_alone exec input (guarded g m) s = run_alone exec input m s) as ->.
  { revert s. induction m as [a|o gs c IH]; intros s; [done|]. cbn.
    destruct (exec o (input o) s) as [r s']. apply IH. }
  cbn. by destruct (exec g (input g) _).
Qed.

(** ** What a task holds *)

Section Held.
Context {Owner Held : Type} (allowed : Owner -> Held -> Op -> Prop)
        (guarding : Owner -> Held -> list Op -> Prop)
        (after : Owner -> Held -> forall o : Op, Res o -> Held).

Fixpoint follows_to {A} (q : Owner) (h : Held) (p : Prog A) (post : A -> Held -> Prop) : Prop :=
  match p with
  | Ret a => post a h
  | Do o gs k =>
      (allowed q h o /\ guarding q h gs) /\ forall r, follows_to q (after q h o r) (k r) post
  end.

(** A task that has ended guards nothing. *)
Definition follows {A} (q : Owner) (h : Held) (p : Prog A) : Prop :=
  follows_to q h p (fun _ h' => guarding q h' []).

Lemma follows_bind {A B} q h (m : Prog A) (k : A -> Prog B) post :
  follows_to q h m (fun a h' => follows_to q h' (k a) post) -> follows_to q h (bind m k) post.
Proof.
  revert h. induction m as [a|o gs c IH]; cbn; [done|]. intros h [Hok Hk].
  split; [done|]. intros r. apply IH, Hk.
Qed.

Lemma follows_weaken {A} q h (m : Prog A) (post post' : A -> Held -> Prop) :
  (forall a h', post a h' -> post' a h') -> follows_to q h m post -> follows_to q h m post'.
Proof.
  intros Himp. revert h. induction m as [a|o gs c IH]; cbn; [auto|]. intros h [Hok Hk]. eauto.
Qed.

Lemma follows_try {E F A B} (f : E -> F) q h (m : Prog (result E A))
    (k : A -> Prog (result F B)) post :
  follows_to q h m (fun r h' => match r with
    | Ok a => follows_to q h' (k a) post
    | Err e => post (Err (f e)) h'
    end) ->
  follows_to q h (try_bind f m k) post.
Proof.
  intros H. apply follows_bind. eapply follows_weaken; [|exact H]. by intros [a|e] h'.
Qed.
End Held.

(** In the scope of a guard, every action is guarded by it. *)
Lemma follows_guarded {Owner Held A} (allowed : Owner -> Held -> Op -> Prop)
    (guarding : Owner -> Held -> list Op -> Prop)
    (after : Owner -> Held -> forall o : Op, Res o -> Held) g q h (m : Prog A) post :
  follows_to allowed (fun q h gs => guarding q h (g :: gs)) after q h m post ->
  follows_to allowed guarding after q h (guarded g m) post.
Proof.
  revert h. induction m as [a|o gs c IH]; cbn; [done|]. intros h [Hok Hk]. eauto.
Qed.
End Programs.

Arguments Prog {Op} Res A.
Arguments Ret {Op Res A} a.
Arguments Do {Op Res A} o guards k.

(** ** A pool of tasks *)

Section Pool.
Context {Op : Type} {Res : Op -> Type} {Env State Owner Call Outside A : Type}
        `{EqDecision Owner}.
Context (exec : forall o : Op, Env -> State -> Res o * State)
        (program : Owner -> Call -> Prog Res A)
        (release : Op -> State -> State)
        (stopped : Owner -> State -> State)
        (outside : Outside -> State -> State).

Inductive Move :=
| Start (q : Owner) (c : Call)
| Advance (i : nat) (input : Env)
| Drop (i : nat)
| Stop (q : Owner)
| Other (x : Outside).

(** The tasks of the pool with the process of each; a dropped one is [None]. *)
Definition Pool : Type := State * list (Owner * option (Prog Res A)).

(** The guards of a task, in the order they are dropped. *)
Definition guards_of (p : option (Prog Res A)) : list Op :=
  match p with Some (Do _ gs _) => gs | _ => [] end.

Definition release_all (gs : list Op) (s : State) : State := foldl (fun s g => release g s) s gs.

Definition without_owner {B} (q : Owner) (gone : B) (t : Owner * B) : Owner * B :=
  if decide (t.1 = q) then (t.1, gone) else t.

Definition move (m : Move) (w : Pool) : Pool :=
  let '(s, tasks) := w in
  match m with
  | Start q c => (s, tasks ++ [(q, Some (program q c))])
  | Advance i input =>
      match tasks !! i with
      | Some (q, Some (Do o _ k)) =>
          let '(r, s') := exec o input s in (s', <[i := (q, Some (k r))]> tasks)
      | _ => w
      end
  | Drop i =>
      match tasks !! i with
      | Some (q, p) => (release_all (guards_of p) s, <[i := (q, None)]> tasks)
      | None => w
      end
  | Stop q => (stopped q s, map (without_owner q None) tasks)
  | Other x => (outside x s, tasks)
  end.

Definition run_moves (ms : list Move) (w : Pool) : Pool := foldl (fun w m => move m w) w ms.

Lemma omap_without {B C} (f : Owner * B -> option C) q (gone : B) hs :
  f (q, gone) = None -> omap f (map (without_owner q gone) hs) ⊆+ omap f hs.
Proof.
  intros Hf. induction hs as [|[q' h] hs IH]; [done|]. cbn. unfold without_owner at 1. cbn.
  case_decide as Hq; [subst q'; rewrite Hf|]; destruct (f (_, h)); try done.
  - by apply submseteq_cons.
  - by apply submseteq_skip.
Qed.

Section Discipline.
Context {Held : Type} (nothing : Held) (allowed : Owner -> Held -> Op -> Prop)
        (guarding : Owner -> Held -> list Op -> Prop)
        (after : Owner -> Held -> forall o : Op, Res o -> Held)
        (I : State -> list (Owner * Held) -> Prop).

Class Discipline : Prop := {
  program_follows q c : follows allowed guarding after q nothing (program q c);
  nothing_guards q : guarding q nothing [];
  start_keeps s hs q : I s hs -> I s (hs ++ [(q, nothing)]);
  action_keeps s hs i q h o input r s' :
    I s hs -> hs !! i = Some (q, h) -> allowed q h o -> exec o input s = (r, s') ->
    I s' (<[i := (q, after q h o r)]> hs);
  drop_keeps s hs i q h gs :
    I s hs -> hs !! i = Some (q, h) -> guarding q h gs ->
    I (release_all gs s) (<[i := (q, nothing)]> hs);
  stop_keeps s hs q : I s hs -> I (stopped q s) (map (without_owner q nothing) hs);
  outside_keeps s hs x : I s hs -> I (outside x s) hs
}.

Definition task_ok (h : Owner * Held) (t : Owner * option (Prog Res A)) : Prop :=
  t.1 = h.1 /\ match t.2 with
    | Some p => follows allowed guarding after h.1 h.2 p
    | None => guarding h.1 h.2 []
    end.

Definition pool_ok (w : Pool) : Prop :=
  exists hs, I w.1 hs /\ Forall2 task_ok hs w.2.

Context `{!Discipline}.

Lemma advance_keeps s tasks i input :
  pool_ok (s, tasks) -> pool_ok (move (Advance i input) (s, tasks)).
Proof.
  intros (hs & HI & Hall). cbn in HI, Hall |- *.
  destruct (tasks !! i) as [[q [[a|o gs k]|]]|] eqn:E; try (by exists hs).
  destruct (Forall2_lookup_r _ _ _ _ _ Hall E) as ([q' h] & Eh & Hq & Hp).
  cbn in Hq, Hp. subst q'. destruct Hp as [[Hallowed _] Hk].
  destruct (exec o input s) as [r s'] eqn:Ee. exists (<[i := (q, after q h o r)]> hs). split.
  - by eapply action_keeps.
  - apply Forall2_insert; [done|]. split; [done|]. apply Hk.
Qed.

Lemma drop_task_keeps s tasks i : pool_ok (s, tasks) -> pool_ok (move (Drop i) (s, tasks)).
Proof.
  intros (hs & HI & Hall). cbn in HI, Hall |- *.
  destruct (tasks !! i) as [[q p]|] eqn:E; [|by exists hs].
  destruct (Forall2_lookup_r _ _ _ _ _ Hall E) as ([q' h] & Eh & Hq & Hp).
  cbn in Hq, Hp. subst q'. exists (<[i := (q, nothing)]> hs). split.
  - apply (drop_keeps _ _ _ _ h); [done..|]. destruct p as [[a|o gs k]|]; cbn; [done| |done].
    apply Hp.
  - apply Forall2_insert; [done|]. split; [done|]. apply nothing_guards.
Qed.

Lemma move_keeps m w : pool_ok w -> pool_ok (move m w).
Proof.
  destruct w as [s tasks]. destruct m as [q c|i input|i|q|x];
    [|apply advance_keeps|apply drop_task_keeps|..]; intros (hs & HI & Hall); cbn in HI, Hall |- *.
  - exists (hs ++ [(q, nothing)]). split; [by apply start_keeps|].
    apply Forall2_app; [done|]. constructor; [|done]. split; [done|]. apply program_follows.
  - exists (map (without_owner q nothing) hs). split; [by apply stop_keeps|].
    apply Forall2_fmap, (Forall2_impl _ _ _ _ Hall). intros [q1 h] [q2 p] [Hq Hp].
    cbn in Hq. subst q2. unfold without_owner. cbn. case_decide; [|done].
    split; [done|]. apply nothing_guards.
  - exists hs. split; [by apply outside_keeps|done].
Qed.

Theorem histories_keep ms w : pool_ok w -> pool_ok (run_moves ms w).
Proof.
  revert w. induction ms as [|m ms IH]; cbn; [done|]. intros w Hw. by apply IH, move_keeps.
Qed.
End Discipline.
End Pool.

(** A history depends on the programs it starts only. *)
Lemma run_moves_ext {Op} {Res : Op -> Type} {Env State Owner Call Outside A} `{EqDecision Owner}
    (exec : forall o : Op, Env -> State -> Res o * State) (program program' : Owner -> Call -> Prog Res A)
    release stopped (outside : Outside -> State -> State) ms (w : Pool) :
  (forall q c, Start q c ∈ ms -> program q c = program' q c) ->
  run_moves exec program release stopped outside ms w
  = run_moves exec program' release stopped outside ms w.
Proof.
  revert w. induction ms as [|m ms IH]; [done|]. intros w Hms. cbn.
  assert (move exec program release stopped outside m w
          = move exec program' release stopped outside m w) as ->.
  { destruct w as [s tasks], m; try done. cbn. by rewrite Hms by left. }
  apply IH. intros q c Hin. apply Hms. by right.
Qed.

Arguments Start {Env Owner Call Outside} q c.
Arguments Advance {Env Owner Call Outside} i input.
Arguments Drop {Env Owner Call Outside} i.
Arguments Stop {Env Owner Call Outside} q.
Arguments Other {Env Owner Call Outside} x.

End Tasks.
