(* ===== verification/Channels.v ===== *)
(** * Channel events and messages (crates/channel/contract)

    The provider-neutral event a channel delivers and the message a caller asks
    a channel to send, with the checks their constructors make. *)

From stdpp Require Import base tactics list strings.
From Stdlib Require Import ZArith Ascii.
From S2P Require Import Prelude.

Module Channels.

Inductive ChannelContractError :=
| EmptyField (field : string)
| InvalidLimit (field : string)
| UnsupportedCapability (capability : string)
| UnsupportedReplyTarget (target : string).

#[export] Instance contract_error_eq_dec : EqDecision ChannelContractError.
Proof. solve_decision. Defined.

Definition require_non_empty (value field : string) : result ChannelContractError unit :=
  bail? is_empty (trim value) with EmptyField field in Ok tt.

Inductive ChannelEventKind :=
| MessageReceived
| MentionReceived
| DirectMessageReceived
| SlashCommandReceived
| InteractionReceived
| ReactionReceived.

#[export] Instance event_kind_eq_dec : EqDecision ChannelEventKind.
Proof. solve_decision. Defined.

Inductive ChannelReplyTarget :=
| Channel (channel_id : string)
| Thread (channel_id thread_id : string)
| DirectMessage (user_account_id : string)
| Ephemeral (channel_id user_account_id : string).

#[export] Instance reply_target_eq_dec : EqDecision ChannelReplyTarget.
Proof. solve_decision. Defined.

Definition validate (target : ChannelReplyTarget) : result ChannelContractError unit :=
  match target with
  | Channel channel_id => require_non_empty channel_id "channel_id"
  | Thread channel_id thread_id =>
      check? require_non_empty channel_id "channel_id" in
      require_non_empty thread_id "thread_id"
  | DirectMessage user_account_id => require_non_empty user_account_id "user_account_id"
  | Ephemeral channel_id user_account_id =>
      check? require_non_empty channel_id "channel_id" in
      require_non_empty user_account_id "user_account_id"
  end.

Record ChannelEvent := mkEvent {
  ev_provider : string;
  ev_connector_id : string;
  ev_workspace_id : string;
  ev_event_id : string;
  ev_dedupe_key : string;
  ev_kind : ChannelEventKind;
  ev_text : option string;
  ev_reply_target : option ChannelReplyTarget;
  ev_source_reference : option string
}.

#[export] Instance event_eq_dec : EqDecision ChannelEvent.
Proof. solve_decision. Defined.

(** [ChannelEvent::new] *)
Definition new_event (provider connector_id workspace_id event_id dedupe_key : string)
    (kind : ChannelEventKind) : result ChannelContractError ChannelEvent :=
  check? require_non_empty provider "provider" in
  check? require_non_empty connector_id "connector_id" in
  check? require_non_empty workspace_id "workspace_id" in
  check? require_non_empty event_id "event_id" in
  check? require_non_empty dedupe_key "dedupe_key" in
  Ok (mkEvent provider connector_id workspace_id event_id dedupe_key kind None None None).

(** [text.chars().take(n).collect()]: a character starts at every byte that is
    not a continuation byte. *)
Definition is_continuation (b : ascii) : bool := N.eqb (N.land (N_of_ascii b) 192) 128.

Fixpoint take_chars (n : nat) (s : string) : string :=
  match s with
  | EmptyString => EmptyString
  | String b rest =>
      if is_continuation b then String b (take_chars n rest)
      else match n with
           | O => EmptyString
           | S n => String b (take_chars n rest)
           end
  end.

Definition MAX_TEXT_CHARS : nat := N.to_nat 4000.

Definition bounded_text (text : string) : option string :=
  if is_empty text then None else Some (take_chars MAX_TEXT_CHARS text).

Definition with_text (text : option string) (e : ChannelEvent) : ChannelEvent :=
  mkEvent (ev_provider e) (ev_connector_id e) (ev_workspace_id e) (ev_event_id e)
    (ev_dedupe_key e) (ev_kind e) (text ≫= bounded_text) (ev_reply_target e)
    (ev_source_reference e).

Definition with_source_details (reply_target : ChannelReplyTarget) (source_reference : string)
    (e : ChannelEvent) : result ChannelContractError ChannelEvent :=
  check? validate reply_target in
  check? require_non_empty source_reference "source_reference" in
  Ok (mkEvent (ev_provider e) (ev_connector_id e) (ev_workspace_id e) (ev_event_id e)
        (ev_dedupe_key e) (ev_kind e) (ev_text e) (Some reply_target) (Some source_reference)).

Record ChannelMessageRequest := mkMessageRequest {
  mr_connector_id : string;
  mr_workspace_id : string;
  mr_dedupe_key : string;
  mr_target : ChannelReplyTarget;
  mr_text : string
}.

(** [ChannelMessageRequest::new] *)
Definition new_message_request (connector_id workspace_id dedupe_key : string)
    (target : ChannelReplyTarget) (text : string) :
    result ChannelContractError ChannelMessageRequest :=
  check? require_non_empty connector_id "connector_id" in
  check? require_non_empty workspace_id "workspace_id" in
  check? require_non_empty dedupe_key "dedupe_key" in
  check? require_non_empty text "text" in
  check? validate target in
  Ok (mkMessageRequest connector_id workspace_id dedupe_key target text).

Record ChannelMessageReceipt := mkMessageReceipt {
  mc_connector_id : string;
  mc_workspace_id : string;
  mc_request_dedupe_key : string;
  mc_message_id : string
}.

#[export] Instance message_receipt_eq_dec : EqDecision ChannelMessageReceipt.
Proof. solve_decision. Defined.

Record ChannelContextRequest := mkContextRequest {
  xr_connector_id : string;
  xr_workspace_id : string;
  xr_target : ChannelReplyTarget;
  xr_limit : Z;
  xr_cursor : option string
}.

(** [ChannelContextRequest::new] *)
Definition new_context_request (connector_id workspace_id : string) (target : ChannelReplyTarget)
    (limit : Z) : result ChannelContractError ChannelContextRequest :=
  check? require_non_empty connector_id "connector_id" in
  check? require_non_empty workspace_id "workspace_id" in
  check? validate target in
  bail? limit =? 0 with InvalidLimit "limit" in
  Ok (mkContextRequest connector_id workspace_id target limit None).

Record ChannelContextPage := mkContextPage {
  xp_events : list ChannelEvent;
  xp_next_cursor : option string
}.

End Channels.
