(* ===== verification/ChatStore.v ===== *)
(** * The chat work store (crates/state/src/store.rs and the migrations of its tables)

    The durable queue of channel events, the outbox of Slack messages with its
    receipts and per-channel throttles, the indicators of running work, the
    memory of conversations, and their retention.  A table is a finite map from
    its unique key to the other columns of its row; a row keeps its [id] where a
    statement orders by it.  Every operation is one statement or one transaction
    on a pool of one connection, so it either takes effect as a whole or reports
    an error and leaves the tables as they were.

    A [datetime('now')] column holds whole seconds in a text whose order is the
    order of the seconds; it is the number of seconds here. *)

From stdpp Require Import base tactics list strings numbers gmap.
From Stdlib Require Import ZArith Lia Ascii.
From S2P Require Import Prelude.
From S2P Require Import Tables.
From S2P Require Import Channels.

(** The date functions of SQLite that the statements call:
    [datetime('now', '+n seconds')] at a clock, and [datetime(t, 'unixepoch',
    '-n days')], NULL outside the years it can print. *)
Class SqliteDates := {
  seconds_after : Z -> Z -> option Z;
  days_before : Z -> Z -> option Z
}.

(** [serde_json::to_string] and [from_str] at the derived implementations of
    [ChannelEvent]. *)
Class EventJson := {
  event_to_string : Channels.ChannelEvent -> option string;
  event_from_str : string -> option Channels.ChannelEvent
}.

Module ChatStore.
Import Channels.

(** ** Errors *)

Inductive SqlError :=
| Busy          (* SQLite's busy and locked codes *)
| Rejected      (* a CHECK, a NOT NULL, a key or a foreign key *)
| RowNotFound   (* [fetch_one] without a row *)
| Unavailable.  (* any other failure of the pool or the engine *)

#[export] Instance sql_error_eq_dec : EqDecision SqlError.
Proof. solve_decision. Defined.

Inductive StateError :=
| PersistSlackSourceEvent (source : SqlError)
| SerializeChannelEvent
| SerializeStatePayload (context : string)
| QueryChannelEventState (source : SqlError)
| ChannelEventQueue (source : SqlError)
| DeserializeChannelEvent
| SlackDelivery (source : SqlError)
| CleanupRetainedData (source : SqlError)
| InvalidSlackDeliveryStatus (status : string)
| InvalidSlackDeliveryOperation (operation : string)
| InvalidSlackProcessingIndicatorStatus (status : string)
| InvalidChannelEventStatus (status : string)
| SerializeSlackDeliveryResponse
| ContextFetchAttempt (source : SqlError).

#[export] Instance state_error_eq_dec : EqDecision StateError.
Proof. solve_decision. Defined.

Definition is_transient_storage_contention (error : StateError) : bool :=
  match error with SlackDelivery Busy => true | _ => false end.

(** ** Rows

    Columns that no statement writes or reads are left out. *)

Inductive SlackDeliverySender := Bot | User (key : string).

#[export] Instance sender_eq_dec : EqDecision SlackDeliverySender.
Proof. solve_decision. Defined.

Definition kind (sender : SlackDeliverySender) : string :=
  match sender with Bot => "bot" | User _ => "user" end.
Definition key (sender : SlackDeliverySender) : option string :=
  match sender with Bot => None | User key => Some key end.

Definition from_parts (kind : string) (key : option string) :
    result StateError SlackDeliverySender :=
  if String.eqb kind "bot" then Ok Bot
  else if String.eqb kind "user" then
    match key with
    | Some key => Ok (User key)
    | None => Err (InvalidSlackDeliveryStatus "missing user sender key")
    end
  else Err (InvalidSlackDeliveryStatus kind).

(** A row of [slack_delivery_queue], keyed by workspace and dedupe key. *)
Record OutboxRow := mkOutbox {
  q_id : Z;
  q_connector_id : string;
  q_channel_id : string;
  q_thread_ts : option string;
  q_message_ts : option string;
  q_text : string;
  q_operation : string;
  q_status : string;
  q_available_at : Z;
  q_attempt_count : Z;
  q_sender_kind : string;
  q_sender_key : option string;
  q_created_at : Z;
  q_updated_at : Z
}.

(** A row of [slack_delivery_receipts], keyed likewise. *)
Record ReceiptRow := mkReceiptRow {
  p_connector_id : string;
  p_channel_id : string;
  p_thread_ts : option string;
  p_message_ts : string;
  p_slack_response_json : string;
  p_sender_kind : string;
  p_sender_key : option string;
  p_created_at : Z
}.

(** A row of [slack_source_events], keyed by workspace and dedupe key. *)
Record SourceEventRow := mkSource {
  s_event_kind : string;
  s_envelope_id : option string;
  s_event_id : option string;
  s_channel_id : option string;
  s_thread_ts : option string;
  s_message_ts : option string;
  s_user_id : option string;
  s_raw_payload_json : string;
  s_status : string;
  s_received_at : Z
}.

(** A row of [channel_event_queue], keyed by provider, workspace and dedupe key. *)
Record QueueEventRow := mkQueueEvent {
  e_id : Z;
  e_event_kind : string;
  e_payload_json : string;
  e_status : string;
  e_available_at : Z;
  e_attempt_count : Z;
  e_last_error : option string;
  e_updated_at : Z
}.

(** A row of [slack_processing_indicators], keyed by workspace and event. *)
Record IndicatorRow := mkIndicator {
  n_channel_id : string;
  n_thread_ts : option string;
  n_message_ts : string;
  n_status : string;
  n_error : option string;
  n_created_at : Z;
  n_updated_at : Z;
  n_completed_at : option Z
}.

Record AgentDraft := mkDraft {
  ad_provider : string;
  ad_channel_id : option string;
  ad_thread_id : option string;
  ad_message_ts : option string;
  ad_user_id : option string;
  ad_event_id : string;
  ad_dedupe_key : string;
  ad_content : string
}.

Record ContextFetchAttemptRecord := mkFetchAttempt {
  cf_operation : string;
  cf_provider : string;
  cf_workspace_id : string;
  cf_connector_id : string;
  cf_dedupe_key : string;
  cf_channel_id : option string;
  cf_thread_id : option string;
  cf_message_ts : option string;
  cf_status : string;
  cf_error_kind : option string;
  cf_error_message : option string
}.

Record ChannelConversationKey := mkConversationKey {
  ck_provider : string;
  ck_workspace_id : string;
  ck_conversation_kind : string;
  ck_channel_id : option string;
  ck_thread_id : option string;
  ck_user_id : option string
}.

#[export] Instance conversation_key_eq_dec : EqDecision ChannelConversationKey.
Proof. solve_decision. Defined.

(** The primary key of the conversation tables. *)
Abbreviation ConversationId := (string * string * string * string * string * string)%type.

Abbreviation WorkKey := (string * string)%type.

(** [agent_drafts] is keyed by its unique [channel_event_queue_id] and keeps its
    [id]; [context_fetch_attempts] is in [id] order, with [created_at]. *)
Record ChatDb := mkChatDb {
  source_events : gmap WorkKey SourceEventRow;
  event_queue : gmap (string * string * string) QueueEventRow;
  conversations : gmap ConversationId string;
  summaries : gmap ConversationId (string * Z);
  drafts : gmap Z (Z * AgentDraft);
  fetch_attempts : list (ContextFetchAttemptRecord * Z);
  outbox : gmap WorkKey OutboxRow;
  receipts : gmap WorkKey ReceiptRow;
  throttles : gmap WorkKey Z;
  indicators : gmap WorkKey IndicatorRow
}.

Definition empty_chat : ChatDb := mkChatDb ∅ ∅ ∅ ∅ ∅ [] ∅ ∅ ∅ ∅.

Definition with_source_events (d : ChatDb) (x : gmap WorkKey SourceEventRow) : ChatDb :=
  mkChatDb x (event_queue d) (conversations d) (summaries d) (drafts d) (fetch_attempts d)
    (outbox d) (receipts d) (throttles d) (indicators d).
Definition with_event_queue (d : ChatDb) (x : gmap (string * string * string) QueueEventRow) :
    ChatDb :=
  mkChatDb (source_events d) x (conversations d) (summaries d) (drafts d) (fetch_attempts d)
    (outbox d) (receipts d) (throttles d) (indicators d).
Definition with_conversations (d : ChatDb) (x : gmap ConversationId string) : ChatDb :=
  mkChatDb (source_events d) (event_queue d) x (summaries d) (drafts d) (fetch_attempts d)
    (outbox d) (receipts d) (throttles d) (indicators d).
Definition with_summaries (d : ChatDb) (x : gmap ConversationId (string * Z)) : ChatDb :=
  mkChatDb (source_events d) (event_queue d) (conversations d) x (drafts d) (fetch_attempts d)
    (outbox d) (receipts d) (throttles d) (indicators d).
Definition with_drafts (d : ChatDb) (x : gmap Z (Z * AgentDraft)) : ChatDb :=
  mkChatDb (source_events d) (event_queue d) (conversations d) (summaries d) x
    (fetch_attempts d) (outbox d) (receipts d) (throttles d) (indicators d).
Definition with_fetch_attempts (d : ChatDb) (x : list (ContextFetchAttemptRecord * Z)) : ChatDb :=
  mkChatDb (source_events d) (event_queue d) (conversations d) (summaries d) (drafts d) x
    (outbox d) (receipts d) (throttles d) (indicators d).
Definition with_outbox (d : ChatDb) (x : gmap WorkKey OutboxRow) : ChatDb :=
  mkChatDb (source_events d) (event_queue d) (conversations d) (summaries d) (drafts d)
    (fetch_attempts d) x (receipts d) (throttles d) (indicators d).
Definition with_receipts (d : ChatDb) (x : gmap WorkKey ReceiptRow) : ChatDb :=
  mkChatDb (source_events d) (event_queue d) (conversations d) (summaries d) (drafts d)
    (fetch_attempts d) (outbox d) x (throttles d) (indicators d).
Definition with_throttles (d : ChatDb) (x : gmap WorkKey Z) : ChatDb :=
  mkChatDb (source_events d) (event_queue d) (conversations d) (summaries d) (drafts d)
    (fetch_attempts d) (outbox d) (receipts d) x (indicators d).
Definition with_indicators (d : ChatDb) (x : gmap WorkKey IndicatorRow) : ChatDb :=
  mkChatDb (source_events d) (event_queue d) (conversations d) (summaries d) (drafts d)
    (fetch_attempts d) (outbox d) (receipts d) (throttles d) x.

(** ** Statements *)

(** What an operation meets: a storage failure, if any, and [datetime('now')]. *)
Record Conditions := mkConditions {
  fault : option SqlError;
  clock : Z
}.

(** A statement or a transaction: all of [body], or an error and nothing. *)
Definition atomically {A} (wrap : SqlError -> StateError) (c : Conditions)
    (body : ChatDb -> result StateError (A * ChatDb)) (d : ChatDb) :
    result StateError A * ChatDb :=
  match fault c with
  | Some e => (Err (wrap e), d)
  | None => match body d with Ok (a, d') => (Ok a, d') | Err e => (Err e, d) end
  end.

(** A read: [fetch_optional] or [fetch_one] outside a transaction. *)
Definition reading {A} (wrap : SqlError -> StateError) (c : Conditions) (q : ChatDb -> A)
    (d : ChatDb) : result StateError A :=
  match fault c with Some e => Err (wrap e) | None => Ok (q d) end.

(** [length(x) > 0]: SQLite counts the characters before the first NUL. *)
Definition has_length (s : string) : bool :=
  match s with EmptyString => false | String b _ => negb (N.eqb (N_of_ascii b) 0) end.

(** [x is null or length(x) > 0] *)
Definition null_or_length (o : option string) : bool :=
  match o with Some s => has_length s | None => true end.

(** The next [integer primary key]. *)
Definition next_id (ids : list Z) : Z := 1 + foldr Z.max 0 ids.

(** [i64::try_from(t).unwrap_or(i64::MAX)] and [u64::try_from(t).unwrap_or(0)]. *)
Definition to_i64 (t : Z) : Z := if t <=? i64_max then t else i64_max.
Definition to_u64 (t : Z) : Z := if t <? 0 then 0 else t.

(** ** The outbox *)

Record SlackDeliveryRequest := mkDeliveryRequest {
  dr_connector_id : string;
  dr_workspace_id : string;
  dr_request_dedupe_key : string;
  dr_channel_id : string;
  dr_thread_ts : option string;
  dr_text : string;
  dr_sender : SlackDeliverySender
}.

Record SlackStopStreamDeliveryRequest := mkStopRequest {
  sr_connector_id : string;
  sr_workspace_id : string;
  sr_request_dedupe_key : string;
  sr_channel_id : string;
  sr_thread_ts : option string;
  sr_message_ts : string;
  sr_text : string;
  sr_sender : SlackDeliverySender
}.

Record SlackDeliveryReceipt := mkReceipt {
  rc_connector_id : string;
  rc_workspace_id : string;
  rc_channel_id : string;
  rc_thread_ts : option string;
  rc_message_ts : string;
  rc_request_dedupe_key : string;
  rc_sender : SlackDeliverySender
}.

#[export] Instance delivery_request_eq_dec : EqDecision SlackDeliveryRequest.
Proof. solve_decision. Defined.
#[export] Instance stop_request_eq_dec : EqDecision SlackStopStreamDeliveryRequest.
Proof. solve_decision. Defined.
#[export] Instance delivery_receipt_eq_dec : EqDecision SlackDeliveryReceipt.
Proof. solve_decision. Defined.

Inductive SlackDeliveryClaim :=
| Ready (request : SlackDeliveryRequest)
| Delivered (receipt : SlackDeliveryReceipt)
| Deferred (available_at : Z).

Inductive SlackDeliveryOperationClaim :=
| PostMessage (request : SlackDeliveryRequest)
| StopStream (request : SlackStopStreamDeliveryRequest)
| OperationDelivered (receipt : SlackDeliveryReceipt)
| OperationDeferred (available_at : Z).

Inductive SlackDeliveryStatusKind :=
| StatusPending | StatusDeferred | StatusProcessing | StatusDelivered | StatusFailed.

Record SlackDeliveryStatus := mkDeliveryStatus {
  ds_connector_id : string;
  ds_workspace_id : string;
  ds_channel_id : string;
  ds_thread_ts : option string;
  ds_message_ts : option string;
  ds_request_dedupe_key : string;
  ds_status : SlackDeliveryStatusKind;
  ds_available_at : option Z;
  ds_attempt_count : option Z;
  ds_sender_kind : string;
  ds_sender_key : option string
}.

(** The checks on the sender columns of the queue and of the receipts. *)
Definition sender_checks (kind : string) (key : option string) : bool :=
  match key with
  | None => String.eqb kind "bot"
  | Some key => String.eqb kind "user" && has_length key
  end.

Definition outbox_checks (k : WorkKey) (r : OutboxRow) : bool :=
  has_length (q_connector_id r) && has_length k.1 && has_length k.2
  && has_length (q_channel_id r) && has_length (q_text r)
  && bool_decide (q_status r ∈ ["pending"; "processing"; "delivered"; "failed"])
  && (0 <=? q_attempt_count r)
  && sender_checks (q_sender_kind r) (q_sender_key r)
  && bool_decide (q_operation r ∈ ["post_message"; "stop_stream"])
  && null_or_length (q_message_ts r).

Definition receipt_checks `{Sqlite} (k : WorkKey) (r : ReceiptRow) : bool :=
  has_length (p_connector_id r) && has_length k.1 && has_length (p_channel_id r)
  && has_length (p_message_ts r) && has_length k.2 && json_valid (p_slack_response_json r)
  && sender_checks (p_sender_kind r) (p_sender_key r).

Definition throttle_checks (k : WorkKey) : bool := has_length k.1 && has_length k.2.

Definition outbox_ids (d : ChatDb) : list Z := map (fun kr => q_id kr.2) (map_to_list (outbox d)).

(** [insert into slack_delivery_queue .. on conflict(workspace_id,
    request_dedupe_key) do nothing]: the rows affected. *)
Definition insert_outbox (k : WorkKey) (r : OutboxRow) (d : ChatDb) :
    result StateError (bool * ChatDb) :=
  bail? negb (outbox_checks k r) with SlackDelivery Rejected in
  match outbox d !! k with
  | Some _ => Ok (false, d)
  | None => Ok (true, with_outbox d (<[k := r]> (outbox d)))
  end.

Definition post_message_row (request : SlackDeliveryRequest) (now id clock : Z) : OutboxRow :=
  mkOutbox id (dr_connector_id request) (dr_channel_id request) (dr_thread_ts request) None
    (dr_text request) "post_message" "pending" (to_i64 now) 0 (kind (dr_sender request))
    (key (dr_sender request)) clock clock.

Definition enqueue_slack_delivery (request : SlackDeliveryRequest) (now_unix_seconds : Z)
    (c : Conditions) : ChatDb -> result StateError bool * ChatDb :=
  atomically SlackDelivery c (fun d =>
    insert_outbox (dr_workspace_id request, dr_request_dedupe_key request)
      (post_message_row request now_unix_seconds (next_id (outbox_ids d)) (clock c)) d).

Definition stop_stream_row (request : SlackStopStreamDeliveryRequest) (now id clock : Z) :
    OutboxRow :=
  mkOutbox id (sr_connector_id request) (sr_channel_id request) (sr_thread_ts request)
    (Some (sr_message_ts request)) (sr_text request) "stop_stream" "pending" (to_i64 now) 0
    (kind (sr_sender request)) (key (sr_sender request)) clock clock.

Definition enqueue_slack_stop_stream_delivery (request : SlackStopStreamDeliveryRequest)
    (now_unix_seconds : Z) (c : Conditions) : ChatDb -> result StateError bool * ChatDb :=
  atomically SlackDelivery c (fun d =>
    insert_outbox (sr_workspace_id request, sr_request_dedupe_key request)
      (stop_stream_row request now_unix_seconds (next_id (outbox_ids d)) (clock c)) d).

(** [update slack_delivery_queue set .. where workspace_id = ?1 and
    request_dedupe_key = ?2 and ..]: the rows affected. *)
Definition update_outbox (k : WorkKey) (where_ : OutboxRow -> bool) (set : OutboxRow -> OutboxRow)
    (d : ChatDb) : result StateError (Z * ChatDb) :=
  match outbox d !! k with
  | Some r =>
      if where_ r then
        bail? negb (outbox_checks k (set r)) with SlackDelivery Rejected in
        Ok (1, with_outbox d (<[k := set r]> (outbox d)))
      else Ok (0, d)
  | None => Ok (0, d)
  end.

Definition is_pending (r : OutboxRow) : bool := String.eqb (q_status r) "pending".

Definition set_status (status : string) (available_at attempt_count clock : Z) (r : OutboxRow) :
    OutboxRow :=
  mkOutbox (q_id r) (q_connector_id r) (q_channel_id r) (q_thread_ts r) (q_message_ts r)
    (q_text r) (q_operation r) status available_at attempt_count (q_sender_kind r)
    (q_sender_key r) (q_created_at r) clock.

Definition claim_set (clock : Z) (r : OutboxRow) : OutboxRow :=
  set_status "processing" (q_available_at r) (q_attempt_count r + 1) clock r.

(** [TryFrom<ReceiptRow> for SlackDeliveryReceipt] *)
Definition receipt_of (k : WorkKey) (r : ReceiptRow) : result StateError SlackDeliveryReceipt :=
  let? sender := from_parts (p_sender_kind r) (p_sender_key r) in
  Ok (mkReceipt (p_connector_id r) k.1 (p_channel_id r) (p_thread_ts r) (p_message_ts r) k.2
        sender).

(** [TryFrom<DeliveryRow>] for the two requests and for the claim. *)
Definition request_of (k : WorkKey) (r : OutboxRow) : result StateError SlackDeliveryRequest :=
  let? sender := from_parts (q_sender_kind r) (q_sender_key r) in
  Ok (mkDeliveryRequest (q_connector_id r) k.1 k.2 (q_channel_id r) (q_thread_ts r) (q_text r)
        sender).

Definition stop_request_of (k : WorkKey) (r : OutboxRow) :
    result StateError SlackStopStreamDeliveryRequest :=
  let? sender := from_parts (q_sender_kind r) (q_sender_key r) in
  let? message_ts := ok_or (q_message_ts r) (InvalidSlackDeliveryOperation (q_operation r)) in
  Ok (mkStopRequest (q_connector_id r) k.1 k.2 (q_channel_id r) (q_thread_ts r) message_ts
        (q_text r) sender).

Definition operation_of (k : WorkKey) (r : OutboxRow) :
    result StateError SlackDeliveryOperationClaim :=
  if String.eqb (q_operation r) "post_message" then
    let? request := request_of k r in Ok (PostMessage request)
  else if String.eqb (q_operation r) "stop_stream" then
    let? request := stop_request_of k r in Ok (StopStream request)
  else Err (InvalidSlackDeliveryOperation (q_operation r)).

(** [row.available_at.max(channel_available_at.unwrap_or(0))] *)
Definition eligible_at (d : ChatDb) (k : WorkKey) (r : OutboxRow) : Z :=
  Z.max (q_available_at r) (default 0 (throttles d !! (k.1, q_channel_id r))).

Definition claim_slack_delivery (workspace_id request_dedupe_key : string) (now_unix_seconds : Z)
    (c : Conditions) : ChatDb -> result StateError SlackDeliveryClaim * ChatDb :=
  let k := (workspace_id, request_dedupe_key) in
  let now := to_i64 now_unix_seconds in
  atomically SlackDelivery c (fun d =>
    match receipts d !! k with
    | Some receipt => let? receipt := receipt_of k receipt in Ok (Delivered receipt, d)
    | None =>
        let? row := ok_or (outbox d !! k) (SlackDelivery RowNotFound) in
        bail? negb (String.eqb (q_operation row) "post_message")
          with SlackDelivery RowNotFound in
        if negb (is_pending row) then
          Ok (Deferred (u64_saturating_add now_unix_seconds 1), d)
        else
          let available_at := eligible_at d k row in
          if now <? available_at then Ok (Deferred (to_u64 available_at), d)
          else
            let? delivery := request_of k row in
            let? (claimed, d') := update_outbox k is_pending (claim_set (clock c)) d in
            if claimed =? 0 then Ok (Deferred (u64_saturating_add now_unix_seconds 1), d')
            else Ok (Ready delivery, d')
    end).

Definition claim_slack_delivery_operation (workspace_id request_dedupe_key : string)
    (now_unix_seconds : Z) (c : Conditions) :
    ChatDb -> result StateError SlackDeliveryOperationClaim * ChatDb :=
  let k := (workspace_id, request_dedupe_key) in
  let now := to_i64 now_unix_seconds in
  atomically SlackDelivery c (fun d =>
    match receipts d !! k with
    | Some receipt => let? receipt := receipt_of k receipt in Ok (OperationDelivered receipt, d)
    | None =>
        let? row := ok_or (outbox d !! k) (SlackDelivery RowNotFound) in
        if negb (is_pending row) then
          Ok (OperationDeferred (u64_saturating_add now_unix_seconds 1), d)
        else
          let available_at := eligible_at d k row in
          if now <? available_at then Ok (OperationDeferred (to_u64 available_at), d)
          else
            let? claim := operation_of k row in
            let? (claimed, d') := update_outbox k is_pending (claim_set (clock c)) d in
            if claimed =? 0 then
              Ok (OperationDeferred (u64_saturating_add now_unix_seconds 1), d')
            else Ok (claim, d')
    end).

(** [order by max(available_at, coalesce(next_available_at, 0)), created_at, id] *)
Definition due_before (d : ChatDb) (x y : WorkKey * OutboxRow) : bool :=
  let a := eligible_at d x.1 x.2 in
  let b := eligible_at d y.1 y.2 in
  if a =? b then
    if q_created_at x.2 =? q_created_at y.2 then q_id x.2 <? q_id y.2
    else q_created_at x.2 <? q_created_at y.2
  else a <? b.

(** [queue.status = 'pending' and max(..) <= ?1], for the given operations. *)
Definition is_due (now : Z) (posts_only : bool) (d : ChatDb) (k : WorkKey) (r : OutboxRow) : bool :=
  is_pending r && (negb posts_only || String.eqb (q_operation r) "post_message")
  && (eligible_at d k r <=? now).

Definition next_due (now : Z) (posts_only : bool) (d : ChatDb) : option (WorkKey * OutboxRow) :=
  first_by (due_before d) (Tables.matching (is_due now posts_only d) (outbox d)).

Definition claim_next_due_slack_delivery (now_unix_seconds : Z) (c : Conditions) :
    ChatDb -> result StateError (option SlackDeliveryClaim) * ChatDb :=
  atomically SlackDelivery c (fun d =>
    match next_due (to_i64 now_unix_seconds) true d with
    | None => Ok (None, d)
    | Some (k, row) =>
        let? delivery := request_of k row in
        let? (claimed, d') := update_outbox
          (dr_workspace_id delivery, dr_request_dedupe_key delivery) is_pending
          (claim_set (clock c)) d in
        if claimed =? 0 then Ok (None, d') else Ok (Some (Ready delivery), d')
    end).

Definition claim_next_due_slack_delivery_operation (now_unix_seconds : Z) (c : Conditions) :
    ChatDb -> result StateError (option SlackDeliveryOperationClaim) * ChatDb :=
  atomically SlackDelivery c (fun d =>
    match next_due (to_i64 now_unix_seconds) false d with
    | None => Ok (None, d)
    | Some (k, row) =>
        let? claim := operation_of k row in
        let? (claimed, d') := update_outbox k is_pending (claim_set (clock c)) d in
        if claimed =? 0 then Ok (None, d') else Ok (Some claim, d')
    end).

Definition retry_slack_delivery (workspace_id request_dedupe_key : string) (available_at : Z)
    (c : Conditions) : ChatDb -> result StateError unit * ChatDb :=
  atomically SlackDelivery c (fun d =>
    let? (_, d') := update_outbox (workspace_id, request_dedupe_key) (fun _ => true)
      (fun r => set_status "pending" (to_i64 available_at) (q_attempt_count r) (clock c) r) d in
    Ok (tt, d')).

Definition receipt_row (receipt : SlackDeliveryReceipt) (response_json : string) (clock : Z) :
    ReceiptRow :=
  mkReceiptRow (rc_connector_id receipt) (rc_channel_id receipt) (rc_thread_ts receipt)
    (rc_message_ts receipt) response_json (kind (rc_sender receipt)) (key (rc_sender receipt))
    clock.

Definition receipt_key (receipt : SlackDeliveryReceipt) : WorkKey :=
  (rc_workspace_id receipt, rc_request_dedupe_key receipt).

Definition receipt_channel (receipt : SlackDeliveryReceipt) : WorkKey :=
  (rc_workspace_id receipt, rc_channel_id receipt).

(** [insert into slack_delivery_receipts .. on conflict .. do nothing] *)
Definition insert_receipt `{Sqlite} (k : WorkKey) (r : ReceiptRow) (d : ChatDb) :
    result StateError ChatDb :=
  bail? negb (receipt_checks k r) with SlackDelivery Rejected in
  match receipts d !! k with
  | Some _ => Ok d
  | None => Ok (with_receipts d (<[k := r]> (receipts d)))
  end.

(** [insert into slack_channel_throttles .. do update set next_available_at =
    max(slack_channel_throttles.next_available_at, excluded.next_available_at)] *)
Definition raise_throttle (k : WorkKey) (t : Z) (d : ChatDb) : result StateError ChatDb :=
  bail? negb (throttle_checks k) with SlackDelivery Rejected in
  let next := match throttles d !! k with Some t0 => Z.max t0 t | None => t end in
  Ok (with_throttles d (<[k := next]> (throttles d))).

Definition complete_slack_delivery `{Sqlite} (receipt : SlackDeliveryReceipt)
    (response_json : string) (next_available_at : Z) (c : Conditions) :
    ChatDb -> result StateError unit * ChatDb :=
  atomically SlackDelivery c (fun d =>
    let? d1 := insert_receipt (receipt_key receipt) (receipt_row receipt response_json (clock c))
      d in
    let? (_, d2) := update_outbox (receipt_key receipt) (fun _ => true)
      (fun r => set_status "delivered" (q_available_at r) (q_attempt_count r) (clock c) r) d1 in
    let? d3 := raise_throttle (receipt_channel receipt) (to_i64 next_available_at) d2 in
    Ok (tt, d3)).

Definition slack_delivery_receipt_count (c : Conditions) : ChatDb -> result StateError Z :=
  reading SlackDelivery c (fun d => Z.of_nat (size (receipts d))).

Definition row_status (available_at now : Z) (status : string) :
    result StateError SlackDeliveryStatusKind :=
  if String.eqb status "pending" then
    Ok (if now <? available_at then StatusDeferred else StatusPending)
  else if String.eqb status "processing" then Ok StatusProcessing
  else if String.eqb status "failed" then Ok StatusFailed
  else if String.eqb status "delivered" then Ok StatusDelivered
  else Err (InvalidSlackDeliveryStatus status).

(** The three reads run outside a transaction; here they see one state. *)
Definition slack_delivery_status (workspace_id request_dedupe_key : string)
    (now_unix_seconds : Z) (c : Conditions) (d : ChatDb) :
    result StateError (option SlackDeliveryStatus) :=
  let k := (workspace_id, request_dedupe_key) in
  let? receipt := reading SlackDelivery c (fun d => receipts d !! k) d in
  match receipt with
  | Some r =>
      let? sender := from_parts (p_sender_kind r) (p_sender_key r) in
      Ok (Some (mkDeliveryStatus (p_connector_id r) workspace_id (p_channel_id r)
        (p_thread_ts r) (Some (p_message_ts r)) request_dedupe_key StatusDelivered None None
        (kind sender) (key sender)))
  | None =>
      match outbox d !! k with
      | None => Ok None
      | Some r =>
          let available_at := eligible_at d k r in
          let? status := row_status available_at (to_i64 now_unix_seconds) (q_status r) in
          let? sender := from_parts (q_sender_kind r) (q_sender_key r) in
          Ok (Some (mkDeliveryStatus (q_connector_id r) workspace_id (q_channel_id r)
            (q_thread_ts r) (q_message_ts r) request_dedupe_key status
            (Some (to_u64 available_at)) (Some (q_attempt_count r)) (kind sender)
            (key sender)))
      end
  end.

(** ** Channel events *)

Record SlackSourceEvent := mkSourceEvent {
  se_workspace_id : string;
  se_event_kind : string;
  se_dedupe_key : string;
  se_envelope_id : option string;
  se_event_id : option string;
  se_channel_id : option string;
  se_thread_ts : option string;
  se_message_ts : option string;
  se_user_id : option string;
  se_raw_payload_json : string
}.

Record ClaimedChannelEvent := mkClaimedEvent {
  ce_id : Z;
  ce_attempt_count : Z;
  ce_event : ChannelEvent
}.

Inductive ChannelEventStatusKind := EventPending | EventProcessing | EventProcessed | EventFailed.

Record ChannelEventStatus := mkEventStatus {
  es_status : ChannelEventStatusKind;
  es_attempt_count : Z
}.

Definition source_event_checks `{Sqlite} (k : WorkKey) (r : SourceEventRow) : bool :=
  has_length k.1 && has_length (s_event_kind r) && has_length k.2
  && json_valid (s_raw_payload_json r)
  && bool_decide (s_status r ∈ ["received"; "queued"; "processed"; "failed"]).

Definition queue_event_checks `{Sqlite} (k : string * string * string) (r : QueueEventRow) : bool :=
  has_length k.1.1 && has_length k.1.2 && has_length k.2 && has_length (e_event_kind r)
  && json_valid (e_payload_json r)
  && bool_decide (e_status r ∈ ["pending"; "processing"; "processed"; "failed"])
  && (0 <=? e_attempt_count r).

(** [format!("{:?}", event.kind)] *)
Definition debug_kind (kind : ChannelEventKind) : string :=
  match kind with
  | MessageReceived => "MessageReceived"
  | MentionReceived => "MentionReceived"
  | DirectMessageReceived => "DirectMessageReceived"
  | SlashCommandReceived => "SlashCommandReceived"
  | InteractionReceived => "InteractionReceived"
  | ReactionReceived => "ReactionReceived"
  end.

Definition source_row (source : SlackSourceEvent) (clock : Z) : SourceEventRow :=
  mkSource (se_event_kind source) (se_envelope_id source) (se_event_id source)
    (se_channel_id source) (se_thread_ts source) (se_message_ts source) (se_user_id source)
    (se_raw_payload_json source) "queued" clock.

Definition event_key (event : ChannelEvent) : string * string * string :=
  (ev_provider event, ev_workspace_id event, ev_dedupe_key event).

Definition queue_ids (d : ChatDb) : list Z :=
  map (fun kr => e_id kr.2) (map_to_list (event_queue d)).

Definition queued_event_row (event : ChannelEvent) (payload_json : string) (id clock : Z) :
    QueueEventRow :=
  mkQueueEvent id (debug_kind (ev_kind event)) payload_json "pending" clock 0 None clock.

(** [insert into channel_event_queue .. on conflict .. do nothing] *)
Definition insert_queue_event `{Sqlite} (k : string * string * string) (r : QueueEventRow)
    (d : ChatDb) : result StateError ChatDb :=
  bail? negb (queue_event_checks k r) with PersistSlackSourceEvent Rejected in
  match event_queue d !! k with
  | Some _ => Ok d
  | None => Ok (with_event_queue d (<[k := r]> (event_queue d)))
  end.

Definition persist_slack_source_event `{Sqlite} `{EventJson} (source : SlackSourceEvent)
    (event : ChannelEvent) (c : Conditions) (d : ChatDb) : result StateError bool * ChatDb :=
  match event_to_string event with
  | None => (Err SerializeChannelEvent, d)
  | Some payload_json =>
      let k := (se_workspace_id source, se_dedupe_key source) in
      let row := source_row source (clock c) in
      atomically PersistSlackSourceEvent c (fun d =>
        bail? negb (source_event_checks k row) with PersistSlackSourceEvent Rejected in
        match source_events d !! k with
        | Some _ => Ok (false, d)
        | None =>
            let d1 := with_source_events d (<[k := row]> (source_events d)) in
            let? d2 := insert_queue_event (event_key event)
              (queued_event_row event payload_json (next_id (queue_ids d1)) (clock c)) d1 in
            Ok (true, d2)
        end) d
  end.

Definition channel_event_queue_count (c : Conditions) : ChatDb -> result StateError Z :=
  reading QueryChannelEventState c (fun d => Z.of_nat (size (event_queue d))).

Definition slack_source_event_count (c : Conditions) : ChatDb -> result StateError Z :=
  reading QueryChannelEventState c (fun d => Z.of_nat (size (source_events d))).

(** [order by available_at, id] *)
Definition queued_before (x y : (string * string * string) * QueueEventRow) : bool :=
  if e_available_at x.2 =? e_available_at y.2 then e_id x.2 <? e_id y.2
  else e_available_at x.2 <? e_available_at y.2.

Definition event_is_due (now : Z) (_ : string * string * string) (r : QueueEventRow) : bool :=
  String.eqb (e_status r) "pending" && (e_available_at r <=? now).

Definition set_event (status : string) (available_at attempt_count : Z)
    (last_error : option string) (clock : Z) (r : QueueEventRow) : QueueEventRow :=
  mkQueueEvent (e_id r) (e_event_kind r) (e_payload_json r) status available_at attempt_count
    last_error clock.

(** [update channel_event_queue set .. where id = ?1 and status = ..]: every row
    is checked again, and the rows affected are returned as they are now. *)
Definition update_events `{Sqlite} (id : Z) (status : string)
    (set : QueueEventRow -> QueueEventRow) (d : ChatDb) :
    result StateError (list QueueEventRow * ChatDb) :=
  let where_ := fun (_ : string * string * string) r =>
    (e_id r =? id) && String.eqb (e_status r) status in
  let hit := Tables.matching where_ (event_queue d) in
  bail? negb (forallb (fun kr => queue_event_checks kr.1 (set kr.2)) hit)
    with ChannelEventQueue Rejected in
  Ok (map (fun kr => set kr.2) hit,
      with_event_queue d (Tables.update_rows where_ set (event_queue d))).

(** The update commits by itself: a payload that cannot be read is an error
    after the row was taken. *)
Definition claim_next_channel_event `{Sqlite} `{EventJson} (c : Conditions) (d : ChatDb) :
    result StateError (option ClaimedChannelEvent) * ChatDb :=
  let '(row, d') := atomically ChannelEventQueue c (fun d =>
    match first_by queued_before (Tables.matching (event_is_due (clock c)) (event_queue d)) with
    | None => Ok (None, d)
    | Some (_, r) =>
        let? (rows, d') := update_events (e_id r) "pending"
          (fun r => set_event "processing" (e_available_at r) (e_attempt_count r + 1)
                      (e_last_error r) (clock c) r) d in
        Ok (head rows, d')
    end) d in
  (let? row := row in
   match row with
   | None => Ok None
   | Some r =>
       let? event := ok_or (event_from_str (e_payload_json r)) DeserializeChannelEvent in
       Ok (Some (mkClaimedEvent (e_id r) (e_attempt_count r) event))
   end, d').

Definition complete_channel_event `{Sqlite} (id : Z) (c : Conditions) :
    ChatDb -> result StateError unit * ChatDb :=
  atomically ChannelEventQueue c (fun d =>
    let? (_, d') := update_events id "processing"
      (fun r => set_event "processed" (e_available_at r) (e_attempt_count r) (e_last_error r)
                  (clock c) r) d in
    Ok (tt, d')).

(** [delay] is the whole seconds of the [Duration]. *)
Definition release_channel_event `{Sqlite} `{SqliteDates} (id delay : Z) (c : Conditions) :
    ChatDb -> result StateError unit * ChatDb :=
  atomically ChannelEventQueue c (fun d =>
    match seconds_after (clock c) (Z.max delay 1) with
    | Some available_at =>
        let? (_, d') := update_events id "processing"
          (fun r => set_event "pending" available_at (Z.max (e_attempt_count r - 1) 0)
                      (e_last_error r) (clock c) r) d in
        Ok (tt, d')
    | None =>
        (* a NULL [available_at] is refused when there is a row to update *)
        let? (rows, _) := update_events id "processing" (fun r => r) d in
        match rows with [] => Ok (tt, d) | _ => Err (ChannelEventQueue Rejected) end
    end).

Definition fail_channel_event `{Sqlite} (id : Z) (error : string) (c : Conditions) :
    ChatDb -> result StateError unit * ChatDb :=
  atomically ChannelEventQueue c (fun d =>
    let? (_, d') := update_events id "processing"
      (fun r => set_event "failed" (e_available_at r) (e_attempt_count r) (Some error)
                  (clock c) r) d in
    Ok (tt, d')).

(** [TryFrom<ChannelEventStatusRow>] *)
Definition event_status_of (r : QueueEventRow) : result StateError ChannelEventStatus :=
  let? status :=
    (if String.eqb (e_status r) "pending" then Ok EventPending
     else if String.eqb (e_status r) "processing" then Ok EventProcessing
     else if String.eqb (e_status r) "processed" then Ok EventProcessed
     else if String.eqb (e_status r) "failed" then Ok EventFailed
     else Err (InvalidChannelEventStatus (e_status r))) in
  Ok (mkEventStatus status (e_attempt_count r)).

Definition channel_event_status (provider workspace_id dedupe_key : string) (c : Conditions)
    (d : ChatDb) : result StateError (option ChannelEventStatus) :=
  let? row := reading QueryChannelEventState c
    (fun d => event_queue d !! (provider, workspace_id, dedupe_key)) d in
  match row with
  | None => Ok None
  | Some r => let? status := event_status_of r in Ok (Some status)
  end.

Definition channel_event `{EventJson} (provider workspace_id dedupe_key : string)
    (c : Conditions) (d : ChatDb) : result StateError (option ChannelEvent) :=
  let? row := reading QueryChannelEventState c
    (fun d => event_queue d !! (provider, workspace_id, dedupe_key)) d in
  match row with
  | None => Ok None
  | Some r =>
      let? event := ok_or (event_from_str (e_payload_json r)) DeserializeChannelEvent in
      Ok (Some event)
  end.

(** ** Conversations *)

Definition normalized_key_part (value : option string) : string := default "" value.

Definition conversation_id (key : ChannelConversationKey) : ConversationId :=
  (ck_provider key, ck_workspace_id key, ck_conversation_kind key,
   normalized_key_part (ck_channel_id key), normalized_key_part (ck_thread_id key),
   normalized_key_part (ck_user_id key)).

(** The checks [channel_conversations] and [channel_conversation_summaries]
    share; [length(x) = 0] is the negation of [length(x) > 0]. *)
Definition conversation_checks (id : ConversationId) (content : string) : bool :=
  let '(provider, workspace, kind, channel, thread, user) := id in
  has_length provider && has_length workspace
  && bool_decide (kind ∈ ["thread"; "dm"; "channel"])
  && has_length content
  && (negb (String.eqb kind "thread")
      || (has_length channel && has_length thread && negb (has_length user)))
  && (negb (String.eqb kind "dm")
      || (has_length channel && negb (has_length thread) && has_length user))
  && (negb (String.eqb kind "channel")
      || (has_length channel && negb (has_length thread) && negb (has_length user))).

Definition channel_conversation_thread_id (key : ChannelConversationKey) (c : Conditions) :
    ChatDb -> result StateError (option string) :=
  reading ChannelEventQueue c (fun d => conversations d !! conversation_id key).

Definition upsert_channel_conversation_thread_id (key : ChannelConversationKey)
    (codex_thread_id : string) (c : Conditions) : ChatDb -> result StateError unit * ChatDb :=
  atomically ChannelEventQueue c (fun d =>
    bail? negb (conversation_checks (conversation_id key) codex_thread_id)
      with ChannelEventQueue Rejected in
    Ok (tt, with_conversations d
              (<[conversation_id key := codex_thread_id]> (conversations d)))).

(** The summary with its [updated_at]. *)
Definition channel_conversation_summary (key : ChannelConversationKey) (c : Conditions) :
    ChatDb -> result StateError (option (string * Z)) :=
  reading ChannelEventQueue c (fun d => summaries d !! conversation_id key).

Definition upsert_channel_conversation_summary (key : ChannelConversationKey)
    (summary : string) (c : Conditions) : ChatDb -> result StateError unit * ChatDb :=
  atomically ChannelEventQueue c (fun d =>
    bail? negb (conversation_checks (conversation_id key) summary)
      with ChannelEventQueue Rejected in
    Ok (tt, with_summaries d
              (<[conversation_id key := (summary, clock c)]> (summaries d)))).

(** ** Drafts and context fetches *)

Definition draft_checks (draft : AgentDraft) : bool :=
  has_length (ad_provider draft) && has_length (ad_event_id draft)
  && has_length (ad_dedupe_key draft) && has_length (ad_content draft).

(** The foreign key on [channel_event_queue (id)] holds for every stored draft. *)
Definition save_agent_draft (queue_event_id : Z) (draft : AgentDraft) (c : Conditions) :
    ChatDb -> result StateError unit * ChatDb :=
  atomically ChannelEventQueue c (fun d =>
    bail? negb (draft_checks draft) with ChannelEventQueue Rejected in
    match drafts d !! queue_event_id with
    | Some _ => Ok (tt, d)
    | None =>
        bail? negb (bool_decide (queue_event_id ∈ queue_ids d))
          with ChannelEventQueue Rejected in
        let id := next_id (map (fun kr => kr.2.1) (map_to_list (drafts d))) in
        Ok (tt, with_drafts d (<[queue_event_id := (id, draft)]> (drafts d)))
    end).

Definition latest_agent_draft (c : Conditions) : ChatDb -> result StateError (option AgentDraft) :=
  reading QueryChannelEventState c (fun d =>
    snd <$> (snd <$> first_by (fun x y => y.2.1 <? x.2.1) (map_to_list (drafts d)))).

Definition fetch_attempt_checks (attempt : ContextFetchAttemptRecord) : bool :=
  has_length (cf_provider attempt) && has_length (cf_workspace_id attempt)
  && has_length (cf_connector_id attempt) && has_length (cf_dedupe_key attempt)
  && has_length (cf_operation attempt)
  && bool_decide (cf_status attempt ∈ ["success"; "failed"]).

Definition record_context_fetch_attempt (attempt : ContextFetchAttemptRecord) (c : Conditions) :
    ChatDb -> result StateError unit * ChatDb :=
  atomically ContextFetchAttempt c (fun d =>
    bail? negb (fetch_attempt_checks attempt) with ContextFetchAttempt Rejected in
    Ok (tt, with_fetch_attempts d (fetch_attempts d ++ [(attempt, clock c)]))).

Definition latest_context_fetch_attempt (workspace_id dedupe_key : string) (c : Conditions) :
    ChatDb -> result StateError (option ContextFetchAttemptRecord) :=
  reading ContextFetchAttempt c (fun d =>
    fst <$> last (List.filter (fun a => String.eqb (cf_workspace_id a.1) workspace_id
                                        && String.eqb (cf_dedupe_key a.1) dedupe_key)
                    (fetch_attempts d))).

(** ** Processing indicators *)

Inductive SlackProcessingIndicatorStatusKind :=
| IndicatorStarted | IndicatorCompleted | IndicatorFailed.

Record SlackProcessingIndicator := mkProcessingIndicator {
  pi_workspace_id : string;
  pi_event_dedupe_key : string;
  pi_channel_id : string;
  pi_thread_ts : option string;
  pi_message_ts : string;
  pi_status : SlackProcessingIndicatorStatusKind;
  pi_error : option string;
  pi_created_at : Z;
  pi_updated_at : Z;
  pi_completed_at : option Z
}.

Definition indicator_checks (k : WorkKey) (r : IndicatorRow) : bool :=
  has_length k.1 && has_length k.2 && has_length (n_channel_id r)
  && null_or_length (n_thread_ts r) && has_length (n_message_ts r)
  && ((String.eqb (n_status r) "started" && negb (Tables.is_some (n_completed_at r)))
      || (bool_decide (n_status r ∈ ["completed"; "failed"])
          && Tables.is_some (n_completed_at r))).

Definition create_slack_processing_indicator (workspace_id event_dedupe_key channel_id : string)
    (thread_ts : option string) (message_ts : string) (c : Conditions) :
    ChatDb -> result StateError bool * ChatDb :=
  let k := (workspace_id, event_dedupe_key) in
  let row := mkIndicator channel_id thread_ts message_ts "started" None (clock c) (clock c)
               None in
  atomically SlackDelivery c (fun d =>
    bail? negb (indicator_checks k row) with SlackDelivery Rejected in
    match indicators d !! k with
    | Some _ => Ok (false, d)
    | None => Ok (true, with_indicators d (<[k := row]> (indicators d)))
    end).

(** [TryFrom<SlackProcessingIndicatorRow>] *)
Definition indicator_of (k : WorkKey) (r : IndicatorRow) :
    result StateError SlackProcessingIndicator :=
  let? status :=
    (if String.eqb (n_status r) "started" then Ok IndicatorStarted
     else if String.eqb (n_status r) "completed" then Ok IndicatorCompleted
     else if String.eqb (n_status r) "failed" then Ok IndicatorFailed
     else Err (InvalidSlackProcessingIndicatorStatus (n_status r))) in
  Ok (mkProcessingIndicator k.1 k.2 (n_channel_id r) (n_thread_ts r) (n_message_ts r) status
        (n_error r) (n_created_at r) (n_updated_at r) (n_completed_at r)).

Definition slack_processing_indicator (workspace_id event_dedupe_key : string) (c : Conditions)
    (d : ChatDb) : result StateError (option SlackProcessingIndicator) :=
  let k := (workspace_id, event_dedupe_key) in
  let? row := reading SlackDelivery c (fun d => indicators d !! k) d in
  match row with
  | None => Ok None
  | Some r => let? indicator := indicator_of k r in Ok (Some indicator)
  end.

(** [set status = .., error = .., completed_at = coalesce(completed_at,
    datetime('now')), updated_at = datetime('now')] *)
Definition end_indicator (k : WorkKey) (status : string) (error : option string) (clock : Z)
    (d : ChatDb) : result StateError (unit * ChatDb) :=
  match indicators d !! k with
  | None => Ok (tt, d)
  | Some r =>
      let r' := mkIndicator (n_channel_id r) (n_thread_ts r) (n_message_ts r) status error
                  (n_created_at r) clock (Some (default clock (n_completed_at r))) in
      bail? negb (indicator_checks k r') with SlackDelivery Rejected in
      Ok (tt, with_indicators d (<[k := r']> (indicators d)))
  end.

Definition complete_slack_processing_indicator (workspace_id event_dedupe_key : string)
    (c : Conditions) : ChatDb -> result StateError unit * ChatDb :=
  atomically SlackDelivery c
    (end_indicator (workspace_id, event_dedupe_key) "completed" None (clock c)).

Definition fail_slack_processing_indicator (workspace_id event_dedupe_key error : string)
    (c : Conditions) : ChatDb -> result StateError unit * ChatDb :=
  atomically SlackDelivery c
    (end_indicator (workspace_id, event_dedupe_key) "failed" (Some error) (clock c)).

(** ** Retention *)

Record RetentionPolicy := mkRetention {
  enabled : bool;
  inbound_payload_days : Z;
  delivery_days : Z;
  context_attempt_days : Z;
  conversation_summary_days : Z;
  artifact_days : Z;
  scheduled_run_days : Z;
  scheduled_delivery_days : Z;
  scheduled_retention_batch_limit : Z
}.

Definition default_retention : RetentionPolicy := mkRetention true 30 30 14 90 7 30 30 100.

(** The rows of the chat tables that a cleanup removed. *)
Record RetentionCleanupReport := mkReport {
  rr_slack_source_events : Z;
  rr_channel_event_queue : Z;
  rr_slack_delivery_queue : Z;
  rr_slack_delivery_receipts : Z;
  rr_slack_processing_indicators : Z;
  rr_context_fetch_attempts : Z;
  rr_channel_conversation_summaries : Z
}.

(** [t < datetime(?1, 'unixepoch', ?2)]: never against NULL. *)
Definition older (cutoff : option Z) (t : Z) : bool :=
  match cutoff with Some cutoff => t <? cutoff | None => false end.

(** [?3 is null or workspace_id = ?3] *)
Definition in_scope (scope : option string) (workspace_id : string) : bool :=
  match scope with Some s => String.eqb workspace_id s | None => true end.

Definition delete_rows {K Row} `{Countable K} (where_ : K -> Row -> bool) (t : gmap K Row) :
    Z * gmap K Row :=
  (Z.of_nat (length (Tables.matching where_ t)), filter (fun kr => where_ kr.1 kr.2 = false) t).

(** [exists (select 1 from channel_event_queue queue where .. status in
    ('pending', 'processing'))] *)
Definition has_active_event (d : ChatDb) (k : WorkKey) : bool :=
  existsb (fun kr => String.eqb kr.1.1.2 k.1 && String.eqb kr.1.2 k.2
                     && bool_decide (e_status kr.2 ∈ ["pending"; "processing"]))
    (map_to_list (event_queue d)).

Definition source_event_expired (cutoff : option Z) (scope : option string) (d : ChatDb)
    (k : WorkKey) (r : SourceEventRow) : bool :=
  older cutoff (s_received_at r) && in_scope scope k.1 && negb (has_active_event d k).

Definition queue_event_expired (cutoff : option Z) (scope : option string)
    (k : string * string * string) (r : QueueEventRow) : bool :=
  older cutoff (e_updated_at r) && bool_decide (e_status r ∈ ["processed"; "failed"])
  && in_scope scope k.1.2.

Definition receipt_expired (cutoff : option Z) (scope : option string) (k : WorkKey)
    (r : ReceiptRow) : bool :=
  older cutoff (p_created_at r) && in_scope scope k.1.

Definition outbox_expired (cutoff : option Z) (scope : option string) (k : WorkKey)
    (r : OutboxRow) : bool :=
  older cutoff (q_updated_at r) && bool_decide (q_status r ∈ ["delivered"; "failed"])
  && in_scope scope k.1.

Definition indicator_expired (cutoff : option Z) (scope : option string) (k : WorkKey)
    (r : IndicatorRow) : bool :=
  older cutoff (default (n_updated_at r) (n_completed_at r))
  && bool_decide (n_status r ∈ ["completed"; "failed"]) && in_scope scope k.1.

Definition fetch_expired (cutoff : option Z) (scope : option string)
    (a : ContextFetchAttemptRecord * Z) : bool :=
  older cutoff a.2 && in_scope scope (cf_workspace_id a.1).

Definition summary_expired (cutoff : option Z) (scope : option string) (k : ConversationId)
    (r : string * Z) : bool :=
  let '(_, workspace, _, _, _, _) := k in older cutoff r.2 && in_scope scope workspace.

(** [on delete cascade] from the event queue to the drafts. *)
Definition cascade_drafts (t : gmap (string * string * string) QueueEventRow)
    (x : gmap Z (Z * AgentDraft)) : gmap Z (Z * AgentDraft) :=
  let ids := map (fun kr => e_id kr.2) (map_to_list t) in
  filter (fun kr => bool_decide (kr.1 ∈ ids) = true) x.

(** The transaction of [cleanup_retained_data] over the chat tables. *)
Definition cleanup_retained_chat `{SqliteDates} (workspace_id : option string)
    (now_unix_seconds : Z) (policy : RetentionPolicy) (c : Conditions) (d : ChatDb) :
    result StateError RetentionCleanupReport * ChatDb :=
  if negb (enabled policy) then (Ok (mkReport 0 0 0 0 0 0 0), d)
  else
    let now := to_i64 now_unix_seconds in
    let inbound := days_before now (inbound_payload_days policy) in
    let delivery := days_before now (delivery_days policy) in
    let context := days_before now (context_attempt_days policy) in
    let summary := days_before now (conversation_summary_days policy) in
    atomically CleanupRetainedData c (fun d =>
      let '(sources, t) := delete_rows (source_event_expired inbound workspace_id d)
        (source_events d) in
      let d := with_source_events d t in
      let '(events, t) := delete_rows (queue_event_expired inbound workspace_id)
        (event_queue d) in
      let d := with_drafts (with_event_queue d t) (cascade_drafts t (drafts d)) in
      let '(deleted_receipts, t) := delete_rows (receipt_expired delivery workspace_id)
        (receipts d) in
      let d := with_receipts d t in
      let '(deliveries, t) := delete_rows (outbox_expired delivery workspace_id) (outbox d) in
      let d := with_outbox d t in
      let '(ended, t) := delete_rows (indicator_expired context workspace_id) (indicators d) in
      let d := with_indicators d t in
      let kept := List.filter (fun a => negb (fetch_expired context workspace_id a))
        (fetch_attempts d) in
      let attempts := Z.of_nat (length (fetch_attempts d)) - Z.of_nat (length kept) in
      let d := with_fetch_attempts d kept in
      let '(forgotten, t) := delete_rows (summary_expired summary workspace_id) (summaries d) in
      let d := with_summaries d t in
      Ok (mkReport sources events deliveries deleted_receipts ended attempts forgotten, d)) d.

(** ** Effects of the outbox operations *)

Lemma atomically_cases {A} wrap c (body : ChatDb -> result StateError (A * ChatDb)) d r d' :
  atomically wrap c body d = (r, d') ->
  (exists e, r = Err e /\ d' = d) \/ (exists a, r = Ok a /\ body d = Ok (a, d')).
Proof.
  unfold atomically. destruct (fault c); [naive_solver|].
  destruct (body d) as [[a d1]|e]; naive_solver.
Qed.

Lemma update_outbox_ok k where_ set d n d' :
  update_outbox k where_ set d = Ok (n, d') ->
  (n = 0 /\ d' = d /\ forall r, outbox d !! k = Some r -> where_ r = false)
  \/ (n = 1 /\ exists r, outbox d !! k = Some r /\ where_ r = true
      /\ outbox_checks k (set r) = true /\ d' = with_outbox d (<[k := set r]> (outbox d))).
Proof.
  unfold update_outbox. intros H. peel H; bool_facts; naive_solver.
Qed.

Lemma insert_outbox_ok k r d b d' :
  insert_outbox k r d = Ok (b, d') ->
  (b = false /\ d' = d /\ exists r0, outbox d !! k = Some r0)
  \/ (b = true /\ outbox d !! k = None /\ outbox_checks k r = true
      /\ d' = with_outbox d (<[k := r]> (outbox d))).
Proof. unfold insert_outbox. intros H. peel H; bool_facts; naive_solver. Qed.

(** A claim that hands out a message takes the pending row it is read from. *)
Definition claims_row (k : WorkKey) (r : OutboxRow) (now clock : Z) (d d' : ChatDb) : Prop :=
  outbox d !! k = Some r /\ is_pending r = true /\ eligible_at d k r <= to_i64 now
  /\ d' = with_outbox d (<[k := claim_set clock r]> (outbox d)).

Lemma pending_update_one k r clock d n d' :
  outbox d !! k = Some r -> is_pending r = true ->
  update_outbox k is_pending (claim_set clock) d = Ok (n, d') ->
  n = 1 /\ d' = with_outbox d (<[k := claim_set clock r]> (outbox d)).
Proof.
  intros Hr Hp [(_ & _ & Hno)|(-> & r' & Hr' & _ & _ & ->)]%update_outbox_ok.
  - rewrite (Hno _ Hr) in Hp. done.
  - by simplify_eq.
Qed.

Lemma claim_one_effect ws key now c d r d' :
  claim_slack_delivery ws key now c d = (r, d') ->
  (d' = d /\ forall x, r <> Ok (Ready x))
  \/ exists row x, claims_row (ws, key) row now (clock c) d d' /\ receipts d !! (ws, key) = None
     /\ q_operation row = "post_message" /\ request_of (ws, key) row = Ok x /\ r = Ok (Ready x).
Proof.
  intros [(e & -> & ->)|(a & -> & Hb)]%atomically_cases; [by left|].
  cbv beta in Hb. destruct (receipts d !! (ws, key)) as [p|] eqn:Ep.
  { peel Hb. by left. }
  destruct (outbox d !! (ws, key)) as [row|] eqn:Erow; [|done]. cbn [ok_or] in Hb.
  destruct (String.eqb_spec (q_operation row) "post_message") as [Hop|]; [|done]. cbn in Hb.
  destruct (is_pending row) eqn:Hp; cbn in Hb; [|by left; simplify_eq].
  destruct (to_i64 now <? eligible_at d (ws, key) row) eqn:Ht; [by left; simplify_eq|].
  destruct (request_of (ws, key) row) as [x|] eqn:Ex; [|done].
  destruct (update_outbox _ _ _ d) as [[n d1]|] eqn:Eu; [|done].
  destruct (pending_update_one _ _ _ _ _ _ Erow Hp Eu) as [-> ->].
  cbn in Hb. simplify_eq. right. bool_facts. exists row, x. unfold claims_row. naive_solver.
Qed.

Lemma next_due_facts now posts_only d k r :
  next_due now posts_only d = Some (k, r) ->
  outbox d !! k = Some r /\ is_pending r = true /\ eligible_at d k r <= now.
Proof.
  intros [Hr Hdue]%first_by_elem%Tables.elem_of_matching. unfold is_due in Hdue. by bool_facts.
Qed.

Lemma claim_next_effect now c d r d' :
  claim_next_due_slack_delivery_operation now c d = (r, d') ->
  (d' = d /\ forall x, r <> Ok (Some x))
  \/ exists k row x, claims_row k row now (clock c) d d' /\ operation_of k row = Ok x
     /\ r = Ok (Some x).
Proof.
  intros [(e & -> & ->)|(a & -> & Hb)]%atomically_cases; [by left|].
  cbv beta in Hb. destruct (next_due _ _ d) as [[k row]|] eqn:En; [|by left; simplify_eq].
  apply next_due_facts in En as (Erow & Hp & Hle).
  destruct (operation_of k row) as [x|] eqn:Ex; [|done].
  destruct (update_outbox _ _ _ d) as [[n d1]|] eqn:Eu; [|done].
  destruct (pending_update_one _ _ _ _ _ _ Erow Hp Eu) as [-> ->].
  cbn in Hb. simplify_eq. right. exists k, row, x. unfold claims_row. naive_solver.
Qed.

Lemma enqueue_effect {request now c d r d'} :
  enqueue_slack_delivery request now c d = (r, d') ->
  let k := (dr_workspace_id request, dr_request_dedupe_key request) in
  (d' = d /\ r <> Ok true)
  \/ exists id, let row := post_message_row request now id (clock c) in
     r = Ok true /\ outbox d !! k = None /\ outbox_checks k row = true
     /\ d' = with_outbox d (<[k := row]> (outbox d)).
Proof.
  intros [(e & -> & ->)|(a & -> & Hb)]%atomically_cases k; [by left|].
  apply insert_outbox_ok in Hb as [(-> & -> & _)|(-> & Hnone & Hck & ->)]; [by left|].
  right. eexists. cbv zeta. split_and!; [done|exact Hnone|exact Hck|reflexivity].
Qed.

Lemma enqueue_stop_effect {request now c d r d'} :
  enqueue_slack_stop_stream_delivery request now c d = (r, d') ->
  let k := (sr_workspace_id request, sr_request_dedupe_key request) in
  (d' = d /\ r <> Ok true)
  \/ exists id, let row := stop_stream_row request now id (clock c) in
     r = Ok true /\ outbox d !! k = None /\ outbox_checks k row = true
     /\ d' = with_outbox d (<[k := row]> (outbox d)).
Proof.
  intros [(e & -> & ->)|(a & -> & Hb)]%atomically_cases k; [by left|].
  apply insert_outbox_ok in Hb as [(-> & -> & _)|(-> & Hnone & Hck & ->)]; [by left|].
  right. eexists. cbv zeta. split_and!; [done|exact Hnone|exact Hck|reflexivity].
Qed.

(** An unconditional update of one row of the outbox. *)
Lemma update_always_ok k set d n d' :
  update_outbox k (fun _ => true) set d = Ok (n, d') ->
  d' = with_outbox d (alter set k (outbox d)).
Proof.
  intros [(_ & -> & Hno)|(_ & r & Hr & _ & _ & ->)]%update_outbox_ok.
  - rewrite alter_id; [by destruct d|]. intros r Hr. by specialize (Hno r Hr).
  - f_equal. apply map_eq. intros k'. destruct (decide (k' = k)) as [->|Hne].
    + by rewrite lookup_insert_eq, lookup_alter_eq, Hr.
    + by rewrite lookup_insert_ne, lookup_alter_ne.
Qed.

Lemma retry_effect {ws key t c d r d'} :
  retry_slack_delivery ws key t c d = (r, d') ->
  (d' = d /\ exists e, r = Err e)
  \/ (r = Ok tt /\ d' = with_outbox d (alter
        (fun r => set_status "pending" (to_i64 t) (q_attempt_count r) (clock c) r)
        (ws, key) (outbox d))).
Proof.
  intros [(e & -> & ->)|(a & -> & Hb)]%atomically_cases; [eauto|].
  cbv beta in Hb. destruct (update_outbox _ _ _ d) as [[n d1]|] eqn:Eu; [|done]. simplify_eq.
  right. split; [done|]. by apply update_always_ok in Eu.
Qed.

(** What a completion leaves: the first receipt of the key, a delivered row, and
    a throttle that is at least the given time. *)
Definition completed (receipt : SlackDeliveryReceipt) (json : string) (t clock : Z)
    (d : ChatDb) : ChatDb :=
  with_throttles
    (with_outbox
      (with_receipts d match receipts d !! receipt_key receipt with
         | Some _ => receipts d
         | None => <[receipt_key receipt := receipt_row receipt json clock]> (receipts d)
         end)
      (alter (fun r => set_status "delivered" (q_available_at r) (q_attempt_count r) clock r)
         (receipt_key receipt) (outbox d)))
    (<[receipt_channel receipt := match throttles d !! receipt_channel receipt with
        | Some t0 => Z.max t0 (to_i64 t) | None => to_i64 t end]> (throttles d)).

Lemma complete_effect `{Sqlite} {receipt json t c d r d'} :
  complete_slack_delivery receipt json t c d = (r, d') ->
  (d' = d /\ exists e, r = Err e) \/ (r = Ok tt /\ d' = completed receipt json t (clock c) d).
Proof.
  intros [(e & -> & ->)|(a & -> & Hb)]%atomically_cases; [eauto|].
  cbv beta in Hb. destruct (insert_receipt _ _ d) as [d1|] eqn:E1; [|done].
  destruct (update_outbox _ _ _ d1) as [[n d2]|] eqn:E2; [|done].
  destruct (raise_throttle _ _ d2) as [d3|] eqn:E3; [|done]. simplify_eq.
  right. split; [done|]. apply update_always_ok in E2 as ->.
  unfold raise_throttle in E3. destruct (negb _); [done|]. simplify_eq.
  unfold insert_receipt in E1. destruct (negb _); [done|]. unfold completed.
  destruct (receipts d !! receipt_key receipt); injection E1 as <-; by destruct d.
Qed.

Lemma complete_ok `{Sqlite} receipt json t c d :
  fault c = None ->
  receipt_checks (receipt_key receipt) (receipt_row receipt json (clock c)) = true ->
  (forall r, outbox d !! receipt_key receipt = Some r ->
     outbox_checks (receipt_key receipt) r = true) ->
  exists d', complete_slack_delivery receipt json t c d = (Ok tt, d').
Proof.
  intros Hf Hck Hrow. unfold complete_slack_delivery, atomically. rewrite Hf.
  unfold insert_receipt. rewrite Hck. cbn [negb].
  set (d1 := match receipts d !! receipt_key receipt with Some _ => _ | None => _ end).
  assert (exists d1', d1 = Ok d1' /\ outbox d1' = outbox d) as (d1' & -> & Ho).
  { subst d1. destruct (receipts d !! _); eexists; split; [done|done|done|by destruct d]. }
  cbn. unfold update_outbox. rewrite Ho.
  assert (throttle_checks (receipt_channel receipt) = true) as Hth.
  { unfold receipt_checks in Hck. unfold throttle_checks. bool_facts. cbn in *.
    apply andb_true_iff. done. }
  unfold raise_throttle. rewrite Hth. cbn.
  destruct (outbox d !! receipt_key receipt) as [r|] eqn:Er; [|by eexists].
  assert (outbox_checks (receipt_key receipt)
    (set_status "delivered" (q_available_at r) (q_attempt_count r) (clock c) r) = true) as ->.
  { specialize (Hrow r eq_refl). unfold outbox_checks in *. bool_facts. cbn.
    rewrite !andb_true_iff. split_and!; try done; by (apply Z.leb_le || apply bool_decide_eq_true). }
  by eexists.
Qed.

End ChatStore.
