(* ===== verification/SlackQueue.v ===== *)
(** * The Slack delivery queue (crates/channel/slack/src/delivery.rs)

    [SlackDeliveryQueue] on the outbox of the chat store: a call of [deliver] or
    [drain_due_once] is a task whose actions are the transactions of the store,
    the calls of Slack's Web API, and the accesses to the memory of its process
    (the clock cell, the completions that could not be stored yet, the throttles
    of channels).  Every lock is taken and released within one action.

    The answers of the Web API client are inputs: any success and any error may
    come back.  [happened] records what the outside saw: the messages that were
    accepted into the outbox, the ones Slack acknowledged, and the rows that
    retention removed. *)

From stdpp Require Import base tactics list strings numbers gmap.
From Stdlib Require Import ZArith Lia Ascii.
From S2P Require Import Prelude.
From S2P Require Import Tables.
From S2P Require Import Channels.
From S2P Require Import ChatStore.
From S2P Require Import Tasks.

(** [Display] of a state error, which ends in the text of the storage engine. *)
Class ErrorText := { error_text : ChatStore.StateError -> string }.

Module SlackQueue.
Import Channels ChatStore Tasks.

Inductive SlackApiErrorClass := Invalid | Unauthorized | TargetUnavailable | Transient.
Inductive SlackApiErrorScope := GlobalProvider | Target | Unknown.

Inductive SlackWebApiError :=
| Request (message : string)
| RateLimited (retry_after_seconds : option Z)
| ChannelUnavailable
| InvalidResponse (message : string)
| Provider (message : string)
| Api (classification : SlackApiErrorClass) (scope : SlackApiErrorScope)
| UnsupportedTarget
| DeliveryDeferred (available_at : Z).

Record SlackPostedMessage := mkPosted {
  sp_channel_id : string;
  sp_thread_ts : option string;
  sp_response_message_ts : option string;
  sp_response_team_id : option string;
  sp_message_ts : string;
  sp_response_body : string
}.

Record SlackStreamMessage := mkStream {
  sm_channel_id : string;
  sm_thread_ts : option string;
  sm_message_ts : string;
  sm_response_body : string
}.

Record PendingSlackCompletion := mkCompletion {
  pc_receipt : SlackDeliveryReceipt;
  pc_response_json : string;
  pc_next_attempt_at : Z;
  pc_retry_delay_seconds : Z;
  pc_next_available_at : Z
}.

(** The cells of one [SlackDeliveryQueue]. *)
Record Memory := mkMemory {
  now_unix_seconds : Z;
  pending_completions : list PendingSlackCompletion;
  in_memory_channel_throttles : gmap WorkKey Z
}.

Definition new_memory (now : Z) : Memory := mkMemory now [] ∅.

Definition channel_interval_seconds : Z := 1.
Definition INITIAL_COMPLETION_PERSISTENCE_RETRY_DELAY_SECONDS : Z := 1.
Definition MAX_COMPLETION_PERSISTENCE_RETRY_DELAY_SECONDS : Z := 60.

(** ** What the outside sees *)

Inductive Message :=
| Post (request : SlackDeliveryRequest)
| Stop (request : SlackStopStreamDeliveryRequest).

#[export] Instance message_eq_dec : EqDecision Message.
Proof. solve_decision. Defined.

Definition message_key (m : Message) : WorkKey :=
  match m with
  | Post d => (dr_workspace_id d, dr_request_dedupe_key d)
  | Stop d => (sr_workspace_id d, sr_request_dedupe_key d)
  end.

Inductive Happened :=
| Accepted (m : Message)
| Acknowledged (m : Message) (receipt : SlackDeliveryReceipt)
| Forgotten (k : WorkKey).

Record Shared := mkShared {
  chat : ChatDb;
  memories : gmap nat Memory;
  happened : list Happened
}.

Definition with_chat (s : Shared) (d : ChatDb) : Shared := mkShared d (memories s) (happened s).
Definition memory (s : Shared) (q : nat) : Memory := default (new_memory 0) (memories s !! q).
Definition with_memory (s : Shared) (q : nat) (m : Memory) : Shared :=
  mkShared (chat s) (<[q := m]> (memories s)) (happened s).
Definition note (s : Shared) (h : Happened) : Shared :=
  mkShared (chat s) (memories s) (happened s ++ [h]).

(** The receipt of an acknowledged message. *)
Definition post_receipt (delivery : SlackDeliveryRequest) (posted : SlackPostedMessage) :
    SlackDeliveryReceipt :=
  mkReceipt (dr_connector_id delivery) (dr_workspace_id delivery) (sp_channel_id posted)
    (match sp_thread_ts posted with Some t => Some t | None => dr_thread_ts delivery end)
    (sp_message_ts posted) (dr_request_dedupe_key delivery) (dr_sender delivery).

Definition stop_receipt (delivery : SlackStopStreamDeliveryRequest) (posted : SlackStreamMessage) :
    SlackDeliveryReceipt :=
  mkReceipt (sr_connector_id delivery) (sr_workspace_id delivery) (sm_channel_id posted)
    (match sm_thread_ts posted with Some t => Some t | None => sr_thread_ts delivery end)
    (sm_message_ts posted) (sr_request_dedupe_key delivery) (sr_sender delivery).

(** ** The memory of a process *)

Definition in_memory_channel_available_at (delivery : SlackDeliveryRequest) (now : Z)
    (m : Memory) : option Z :=
  match in_memory_channel_throttles m !! (dr_workspace_id delivery, dr_channel_id delivery) with
  | Some available_at => if now <? available_at then Some available_at else None
  | None => None
  end.

Definition set_in_memory_channel_throttle (receipt : SlackDeliveryReceipt)
    (next_available_at : Z) (m : Memory) : Memory :=
  let k := receipt_channel receipt in
  let throttle := default next_available_at (in_memory_channel_throttles m !! k) in
  mkMemory (now_unix_seconds m) (pending_completions m)
    (<[k := Z.max throttle next_available_at]> (in_memory_channel_throttles m)).

Definition clear_in_memory_channel_throttle (receipt : SlackDeliveryReceipt)
    (persisted_next_available_at : Z) (m : Memory) : Memory :=
  let k := receipt_channel receipt in
  match in_memory_channel_throttles m !! k with
  | Some available_at =>
      if available_at <=? persisted_next_available_at then
        mkMemory (now_unix_seconds m) (pending_completions m)
          (delete k (in_memory_channel_throttles m))
      else m
  | None => m
  end.

Definition push_back (completion : PendingSlackCompletion) (m : Memory) : Memory :=
  mkMemory (now_unix_seconds m) (pending_completions m ++ [completion])
    (in_memory_channel_throttles m).

(** [pending.iter().position(..)] and [pending.remove(position)]. *)
Fixpoint remove_due (now : Z) (l : list PendingSlackCompletion) :
    option (PendingSlackCompletion * list PendingSlackCompletion) :=
  match l with
  | [] => None
  | completion :: rest =>
      if pc_next_attempt_at completion <=? now then Some (completion, rest)
      else match remove_due now rest with
           | Some (found, rest') => Some (found, completion :: rest')
           | None => None
           end
  end.

Definition take_due_pending (now : Z) (m : Memory) : option PendingSlackCompletion * Memory :=
  match remove_due now (pending_completions m) with
  | Some (completion, rest) =>
      (Some completion,
       mkMemory (now_unix_seconds m) rest (in_memory_channel_throttles m))
  | None => (None, m)
  end.

(** ** Actions *)

Inductive Action :=
| ReadNow (q : nat)
| Enqueue (request : SlackDeliveryRequest) (now : Z)
| ChannelThrottle (q : nat) (delivery : SlackDeliveryRequest) (now : Z)
| ClaimDelivery (workspace_id request_dedupe_key : string) (now : Z)
| ClaimNextOperation (now : Z)
| RetryDelivery (workspace_id request_dedupe_key : string) (available_at : Z)
| PostMessageAs (delivery : SlackDeliveryRequest)
| StopStreamCall (delivery : SlackStopStreamDeliveryRequest)
| SetThrottle (q : nat) (receipt : SlackDeliveryReceipt) (next_available_at : Z)
| ClearThrottle (q : nat) (receipt : SlackDeliveryReceipt) (persisted : Z)
| CompleteDelivery (receipt : SlackDeliveryReceipt) (response_json : string) (next_available_at : Z)
| PushCompletion (q : nat) (completion : PendingSlackCompletion)
| TakeDue (q : nat) (now : Z).

Definition Answer (a : Action) : Type :=
  match a with
  | ReadNow _ => Z
  | Enqueue _ _ => result StateError bool
  | ChannelThrottle _ _ _ => option Z
  | ClaimDelivery _ _ _ => result StateError SlackDeliveryClaim
  | ClaimNextOperation _ => result StateError (option SlackDeliveryOperationClaim)
  | RetryDelivery _ _ _ => result StateError unit
  | PostMessageAs _ => result SlackWebApiError SlackPostedMessage
  | StopStreamCall _ => result SlackWebApiError SlackStreamMessage
  | SetThrottle _ _ _ => unit
  | ClearThrottle _ _ _ => unit
  | CompleteDelivery _ _ _ => result StateError unit
  | PushCompletion _ _ => unit
  | TakeDue _ _ => option PendingSlackCompletion
  end.

(** The storage conditions of an action and the answers of the Web API. *)
Record Input := mkInput {
  conditions : Conditions;
  post_answer : result SlackWebApiError SlackPostedMessage;
  stop_answer : result SlackWebApiError SlackStreamMessage
}.

(** A transaction of the store. *)
Definition on_chat {A} (f : ChatDb -> result StateError A * ChatDb) (s : Shared) :
    result StateError A * Shared :=
  let '(r, d) := f (chat s) in (r, with_chat s d).

Definition perform `{Sqlite} (a : Action) (i : Input) (s : Shared) : Answer a * Shared :=
  match a with
  | ReadNow q => (now_unix_seconds (memory s q), s)
  | Enqueue request now =>
      let '(r, s') := on_chat (enqueue_slack_delivery request now (conditions i)) s in
      (r, match r with Ok true => note s' (Accepted (Post request)) | _ => s' end)
  | ChannelThrottle q delivery now =>
      (in_memory_channel_available_at delivery now (memory s q), s)
  | ClaimDelivery ws key now => on_chat (claim_slack_delivery ws key now (conditions i)) s
  | ClaimNextOperation now =>
      on_chat (claim_next_due_slack_delivery_operation now (conditions i)) s
  | RetryDelivery ws key t => on_chat (retry_slack_delivery ws key t (conditions i)) s
  | PostMessageAs delivery =>
      (post_answer i, match post_answer i with
        | Ok posted => note s (Acknowledged (Post delivery) (post_receipt delivery posted))
        | Err _ => s
        end)
  | StopStreamCall delivery =>
      (stop_answer i, match stop_answer i with
        | Ok posted => note s (Acknowledged (Stop delivery) (stop_receipt delivery posted))
        | Err _ => s
        end)
  | SetThrottle q receipt t =>
      (tt, with_memory s q (set_in_memory_channel_throttle receipt t (memory s q)))
  | ClearThrottle q receipt t =>
      (tt, with_memory s q (clear_in_memory_channel_throttle receipt t (memory s q)))
  | CompleteDelivery receipt json t =>
      on_chat (complete_slack_delivery receipt json t (conditions i)) s
  | PushCompletion q completion => (tt, with_memory s q (push_back completion (memory s q)))
  | TakeDue q now =>
      let '(taken, m) := take_due_pending now (memory s q) in (taken, with_memory s q m)
  end.

(** ** Operations *)

Abbreviation Task := (Prog Answer).

Notation "'await!' x := m 'in' k" := (bind m (fun x => k))
  (at level 10, x pattern, m at level 100, k at level 200) : codeoff_scope.

Definition request_to_delivery (request : ChannelMessageRequest) :
    result SlackWebApiError SlackDeliveryRequest :=
  let? (channel_id, thread_ts) :=
    match mr_target request with
    | Thread channel_id thread_id => Ok (channel_id, Some thread_id)
    | DirectMessage user_account_id => Ok (user_account_id, None)
    | Channel _ | Ephemeral _ _ => Err UnsupportedTarget
    end in
  Ok (mkDeliveryRequest (mr_connector_id request) (mr_workspace_id request)
        (mr_dedupe_key request) channel_id thread_ts (mr_text request) Bot).

Definition receipt_to_channel (receipt : SlackDeliveryReceipt) : ChannelMessageReceipt :=
  mkMessageReceipt (rc_connector_id receipt) (rc_workspace_id receipt)
    (rc_request_dedupe_key receipt) (rc_message_ts receipt).

Definition state_error `{ErrorText} (error : StateError) : SlackWebApiError :=
  Request ("slack delivery state error: " +:+ error_text error).

Notation "'await?' x := m 'in' k" := (try_bind state_error m (fun x => k))
  (at level 10, x pattern, m at level 100, k at level 200) : codeoff_scope.

Section Operations.
Context `{ErrorText}.

(** Whether the completion was put off. *)
Definition persist_or_defer_completion (q : nat) (receipt : SlackDeliveryReceipt)
    (response_json : string) (next_available_at now : Z) :
    Task (result SlackWebApiError bool) :=
  await! completed := act (CompleteDelivery receipt response_json next_available_at) in
  match completed with
  | Ok _ => Ret (Ok false)
  | Err error =>
      if is_transient_storage_contention error then
        await! _ := act (PushCompletion q (mkCompletion receipt response_json
          (u64_saturating_add now INITIAL_COMPLETION_PERSISTENCE_RETRY_DELAY_SECONDS)
          INITIAL_COMPLETION_PERSISTENCE_RETRY_DELAY_SECONDS next_available_at)) in
        Ret (Ok true)
      else Ret (Err (state_error error))
  end.

(** The end of [post_and_record] and of [stop_stream_and_record]. *)
Definition record_acknowledged (q : nat) (receipt : SlackDeliveryReceipt)
    (response_body : string) (now : Z) : Task (result SlackWebApiError ChannelMessageReceipt) :=
  let next_available_at := u64_saturating_add now channel_interval_seconds in
  await! _ := act (SetThrottle q receipt next_available_at) in
  await! deferred := persist_or_defer_completion q receipt response_body next_available_at now in
  match deferred with
  | Err error => Ret (Err error)
  | Ok deferred =>
      if deferred then Ret (Ok (receipt_to_channel receipt))
      else
        await! _ := act (ClearThrottle q receipt next_available_at) in
        Ret (Ok (receipt_to_channel receipt))
  end.

(** When the next attempt of a message that was refused is due. *)
Definition retry_at (now : Z) (error : SlackWebApiError) : Z :=
  match error with
  | RateLimited retry_after_seconds => u64_saturating_add now (default 1 retry_after_seconds)
  | _ => u64_saturating_add now 1
  end.

Definition post_and_record (q : nat) (delivery : SlackDeliveryRequest) (now : Z) :
    Task (result SlackWebApiError ChannelMessageReceipt) :=
  await! posted := act (PostMessageAs delivery) in
  match posted with
  | Err error =>
      await? _ := act (RetryDelivery (dr_workspace_id delivery) (dr_request_dedupe_key delivery)
        (retry_at now error)) in
      Ret (Err error)
  | Ok posted =>
      record_acknowledged q (post_receipt delivery posted) (sp_response_body posted) now
  end.

Definition stop_stream_and_record (q : nat) (delivery : SlackStopStreamDeliveryRequest)
    (now : Z) : Task (result SlackWebApiError ChannelMessageReceipt) :=
  await! posted := act (StopStreamCall delivery) in
  match posted with
  | Err error =>
      await? _ := act (RetryDelivery (sr_workspace_id delivery) (sr_request_dedupe_key delivery)
        (retry_at now error)) in
      Ret (Err error)
  | Ok posted =>
      record_acknowledged q (stop_receipt delivery posted) (sm_response_body posted) now
  end.

Definition deliver (q : nat) (request : ChannelMessageRequest) :
    Task (result SlackWebApiError ChannelMessageReceipt) :=
  match request_to_delivery request with
  | Err error => Ret (Err error)
  | Ok queued =>
      await! now := act (ReadNow q) in
      await? _ := act (Enqueue queued now) in
      await! available_at := act (ChannelThrottle q queued now) in
      match available_at with
      | Some available_at => Ret (Err (DeliveryDeferred available_at))
      | None =>
          await? claim := act (ClaimDelivery (dr_workspace_id queued)
            (dr_request_dedupe_key queued) now) in
          match claim with
          | Delivered receipt => Ret (Ok (receipt_to_channel receipt))
          | Deferred available_at => Ret (Err (DeliveryDeferred available_at))
          | Ready delivery => post_and_record q delivery now
          end
      end
  end.

(** The completion after a further attempt met contention. *)
Definition backed_off (pending : PendingSlackCompletion) (now : Z) : PendingSlackCompletion :=
  let delay := Z.min (u64_saturating_mul (pc_retry_delay_seconds pending) 2)
                 MAX_COMPLETION_PERSISTENCE_RETRY_DELAY_SECONDS in
  mkCompletion (pc_receipt pending) (pc_response_json pending) (u64_saturating_add now delay)
    delay (pc_next_available_at pending).

Definition complete_due_pending (q : nat) (now : Z) :
    Task (result SlackWebApiError (option SlackDeliveryReceipt)) :=
  await! pending := act (TakeDue q now) in
  match pending with
  | None => Ret (Ok None)
  | Some pending =>
      await! completed := act (CompleteDelivery (pc_receipt pending) (pc_response_json pending)
        (pc_next_available_at pending)) in
      match completed with
      | Ok _ =>
          await! _ := act (ClearThrottle q (pc_receipt pending) (pc_next_available_at pending)) in
          Ret (Ok (Some (pc_receipt pending)))
      | Err error =>
          if is_transient_storage_contention error then
            await! _ := act (PushCompletion q (backed_off pending now)) in
            Ret (Ok None)
          else Ret (Err (state_error error))
      end
  end.

Definition drain_due_once (q : nat) :
    Task (result SlackWebApiError (option ChannelMessageReceipt)) :=
  let some (r : result SlackWebApiError ChannelMessageReceipt) :=
    match r with Ok receipt => Ok (Some receipt) | Err error => Err error end in
  await! now := act (ReadNow q) in
  await! flushed := complete_due_pending q now in
  match flushed with
  | Err error => Ret (Err error)
  | Ok (Some receipt) => Ret (Ok (Some (receipt_to_channel receipt)))
  | Ok None =>
      await? claim := act (ClaimNextOperation now) in
      match claim with
      | Some (PostMessage delivery) =>
          await! available_at := act (ChannelThrottle q delivery now) in
          match available_at with
          | Some available_at =>
              await? _ := act (RetryDelivery (dr_workspace_id delivery)
                (dr_request_dedupe_key delivery) available_at) in
              Ret (Ok None)
          | None => map_prog some (post_and_record q delivery now)
          end
      | Some (StopStream delivery) => map_prog some (stop_stream_and_record q delivery now)
      | Some (OperationDelivered receipt) => Ret (Ok (Some (receipt_to_channel receipt)))
      | Some (OperationDeferred available_at) => Ret (Err (DeliveryDeferred available_at))
      | None => Ret (Ok None)
      end
  end.
End Operations.

(** ** Histories *)

Inductive Call := Deliver (request : ChannelMessageRequest) | DrainDueOnce.

Definition call `{ErrorText} (q : nat) (c : Call) :
    Task (result SlackWebApiError (option ChannelMessageReceipt)) :=
  match c with
  | Deliver request =>
      map_prog (fun r => match r with Ok receipt => Ok (Some receipt) | Err e => Err e end)
        (deliver q request)
  | DrainDueOnce => drain_due_once q
  end.

(** What others do to the shared state: the clock of a queue is set, the runtime
    and the channel tools queue a message or the end of a stream, and retention
    runs. *)
Inductive Environment :=
| SetNow (q : nat) (now : Z)
| QueueMessage (request : SlackDeliveryRequest) (now : Z) (c : Conditions)
| QueueStopStream (request : SlackStopStreamDeliveryRequest) (now : Z) (c : Conditions)
| Cleanup (workspace_id : option string) (now : Z) (policy : RetentionPolicy) (c : Conditions).

Definition set_now_unix_seconds (now : Z) (m : Memory) : Memory :=
  mkMemory now (pending_completions m) (in_memory_channel_throttles m).

(** The outbox rows of [d] that [d'] no longer has. *)
Definition removed_rows (d d' : ChatDb) : list WorkKey :=
  List.filter (fun k => negb (Tables.is_some (outbox d' !! k))) (map fst (map_to_list (outbox d))).

Definition environment `{SqliteDates} (x : Environment) (s : Shared) : Shared :=
  match x with
  | SetNow q now => with_memory s q (set_now_unix_seconds now (memory s q))
  | QueueMessage request now c =>
      let '(r, s') := on_chat (enqueue_slack_delivery request now c) s in
      match r with Ok true => note s' (Accepted (Post request)) | _ => s' end
  | QueueStopStream request now c =>
      let '(r, s') := on_chat (enqueue_slack_stop_stream_delivery request now c) s in
      match r with Ok true => note s' (Accepted (Stop request)) | _ => s' end
  | Cleanup workspace_id now policy c =>
      let '(_, d) := cleanup_retained_chat workspace_id now policy c (chat s) in
      mkShared d (memories s)
        (happened s ++ map Forgotten (removed_rows (chat s) d))
  end.

(** A process that stops loses its memory. *)
Definition process_stopped (q : nat) (s : Shared) : Shared :=
  mkShared (chat s) (delete q (memories s)) (happened s).

(** The queue keeps no lock across actions. *)
Definition no_guard (_ : Action) (s : Shared) : Shared := s.

Definition Move : Type := Tasks.Move (Env := Input) (Owner := nat) (Call := Call)
  (Outside := Environment).

Definition World : Type :=
  Tasks.Pool (Res := Answer) (State := Shared) (Owner := nat)
    (A := result SlackWebApiError (option ChannelMessageReceipt)).

Definition history `{Sqlite} `{SqliteDates} `{ErrorText} (ms : list Move) (w : World) : World :=
  run_moves perform call no_guard process_stopped environment ms w.

Definition start : World := (mkShared empty_chat ∅ [], []).

End SlackQueue.
