(* ===== verification/SlackSafety.v ===== *)
(** * What the Slack delivery queue guarantees

    Any number of processes share the outbox; their calls interleave action by
    action, calls are dropped, processes stop, the store fails, Slack answers
    what it wants and retention runs.  In every such history a message is
    acknowledged at most once for each time it was in the outbox, only messages
    that were accepted are sent, every stored receipt is an answer of Slack's,
    and a channel whose last message is not recorded yet stays throttled. *)

From stdpp Require Import base tactics list strings numbers gmap.
From Stdlib Require Import ZArith Lia Ascii.
From S2P Require Import Prelude.
From S2P Require Import Tables.
From S2P Require Import Channels.
From S2P Require Import ChatStore.
From S2P Require Import Tasks.
From S2P Require Import SlackQueue.

Module SlackSafety.
Import Channels ChatStore Tasks SlackQueue.

(** ** What a call holds *)

Inductive Held :=
| Nothing
| Claimed (m : Message)                             (* taken from the outbox *)
| Answered (receipt : SlackDeliveryReceipt)         (* acknowledged by Slack *)
| Marked (receipt : SlackDeliveryReceipt) (t : Z)   (* .. and the channel throttled *)
| Recorded (receipt : SlackDeliveryReceipt) (t : Z). (* .. and the receipt stored *)

Definition allowed (q : nat) (h : Held) (a : Action) : Prop :=
  match a with
  | ReadNow _ | Enqueue _ _ | ChannelThrottle _ _ _ => True
  | ClaimDelivery _ _ _ | ClaimNextOperation _ => h = Nothing
  | RetryDelivery ws key _ => exists m, h = Claimed m /\ message_key m = (ws, key)
  | PostMessageAs delivery => h = Claimed (Post delivery)
  | StopStreamCall delivery => h = Claimed (SlackQueue.Stop delivery)
  | SetThrottle q' receipt _ => q' = q /\ h = Answered receipt
  | CompleteDelivery receipt _ t => h = Marked receipt t
  | ClearThrottle q' receipt t => q' = q /\ h = Recorded receipt t
  | PushCompletion q' p => q' = q /\ h = Marked (pc_receipt p) (pc_next_available_at p)
  | TakeDue q' _ => q' = q /\ h = Nothing
  end.

Definition after (_ : nat) (h : Held) (a : Action) : Answer a -> Held :=
  match a with
  | ClaimDelivery _ _ _ => fun r => match r with Ok (Ready d) => Claimed (Post d) | _ => Nothing end
  | ClaimNextOperation _ => fun r =>
      match r with
      | Ok (Some (PostMessage d)) => Claimed (Post d)
      | Ok (Some (StopStream d)) => Claimed (SlackQueue.Stop d)
      | _ => Nothing
      end
  | RetryDelivery _ _ _ => fun _ => Nothing
  | PostMessageAs d => fun r => match r with Ok posted => Answered (post_receipt d posted) | _ => h end
  | StopStreamCall d => fun r => match r with Ok posted => Answered (stop_receipt d posted) | _ => h end
  | SetThrottle _ receipt t => fun _ => Marked receipt t
  | CompleteDelivery receipt _ t => fun r => match r with Ok _ => Recorded receipt t | _ => h end
  | ClearThrottle _ _ _ | PushCompletion _ _ => fun _ => Nothing
  | TakeDue _ _ => fun r =>
      match r with Some p => Marked (pc_receipt p) (pc_next_available_at p) | None => Nothing end
  | _ => fun _ => h
  end.

Definition unguarded (_ : nat) (_ : Held) (guards : list Action) : Prop := guards = [].

Section Follows.
Context `{ErrorText}.
Abbreviation follows := (Tasks.follows allowed unguarded after).
Abbreviation follows_to := (Tasks.follows_to allowed unguarded after).

Lemma record_follows q receipt body now :
  follows q (Answered receipt) (record_acknowledged q receipt body now).
Proof.
  cbn. split; [done|]. intros _. split; [done|]. intros [[]|e]; cbn.
  - split; [done|]. done.
  - destruct (is_transient_storage_contention e); cbn; [|done]. split; done.
Qed.

Lemma post_follows q delivery now : follows q (Claimed (Post delivery)) (post_and_record q delivery now).
Proof.
  split; [done|]. intros [posted|e]; [apply record_follows|].
  cbn. split; [split; [by exists (Post delivery)|done]|]. by intros [[]|e'].
Qed.

Lemma stop_follows q delivery now :
  follows q (Claimed (SlackQueue.Stop delivery)) (stop_stream_and_record q delivery now).
Proof.
  split; [done|]. intros [posted|e]; [apply record_follows|].
  cbn. split; [split; [by exists (SlackQueue.Stop delivery)|done]|]. by intros [[]|e'].
Qed.

Lemma flush_follows q now :
  follows_to q Nothing (complete_due_pending q now)
    (fun r h => match r with Ok None => h = Nothing | _ => True end).
Proof.
  cbn. split; [done|]. intros [p|]; cbn; [|done]. split; [done|]. intros [[]|e]; cbn.
  - done.
  - destruct (is_transient_storage_contention e); cbn; done.
Qed.

#[local] Arguments map_prog : simpl never.
#[local] Arguments post_and_record : simpl never.
#[local] Arguments stop_stream_and_record : simpl never.

Lemma map_follows {A B} q h (f : A -> B) (m : Prog Answer A) :
  follows q h m -> follows q h (map_prog f m).
Proof. intros Hm. apply follows_bind. by eapply follows_weaken; [|exact Hm]. Qed.

Lemma call_follows q c : follows q Nothing (call q c).
Proof.
  destruct c as [request|].
  - apply map_follows. unfold deliver. destruct (request_to_delivery request) as [queued|]; [|done].
    cbn. split; [done|]. intros now. split; [done|]. intros [b|e]; cbn; [|done].
    split; [done|]. intros [t|]; cbn; [done|]. split; [done|].
    intros [[d|r|t]|e]; cbn; try done. apply post_follows.
  - split; [done|]. intros now.
    apply (follows_bind allowed unguarded after q Nothing (complete_due_pending q now)).
    eapply follows_weaken; [|apply flush_follows].
    intros [[r|]|e] h Hh; cbn in *; try done. subst h. split; [done|].
    intros [[[d|d|r|t]|]|e]; cbn; try done.
    + split; [done|]. intros [t|]; cbn; [|by apply map_follows, post_follows].
      split; [split; [by exists (Post d)|done]|]. by intros [[]|e].
    + apply map_follows, stop_follows.
Qed.
End Follows.

(** ** At most once *)

(** How often Slack acknowledged a message under a key, and how often retention
    removed the key from the outbox. *)
Definition acknowledged (k : WorkKey) (l : list Happened) : Z :=
  counted (fun h => match h with Acknowledged m _ => bool_decide (message_key m = k) | _ => false end) l.
Definition forgotten (k : WorkKey) (l : list Happened) : Z :=
  counted (fun h => match h with Forgotten k' => bool_decide (k' = k) | _ => false end) l.

(** The message a row of the outbox stands for. *)
Definition row_message (k : WorkKey) (r : OutboxRow) (m : Message) : Prop :=
  operation_of k r = Ok (match m with Post d => PostMessage d | SlackQueue.Stop d => StopStream d end).

(** No task has sent the message of the key since it entered the outbox. *)
Definition unsent (k : WorkKey) (d : ChatDb) (C : list Message) : Prop :=
  k ∈ map message_key C
  \/ forall r, outbox d !! k = Some r -> is_pending r = true.

(** The invariant, over the messages that tasks hold and the receipts that are
    not stored yet. *)
Record once (d : ChatDb) (l : list Happened) (C : list Message)
    (R : list SlackDeliveryReceipt) : Prop := {
  o_unique : NoDup (map message_key C ++ map receipt_key R);
  o_busy k : k ∈ map message_key C ++ map receipt_key R ->
    exists r, outbox d !! k = Some r /\ q_status r = "processing";
  o_once k : acknowledged k l <= forgotten k l + 1;
  o_unsent k : unsent k d C -> acknowledged k l <= forgotten k l;
  o_rows k r : outbox d !! k = Some r ->
    exists m, row_message k r m /\ message_key m = k /\ Accepted m ∈ l;
  o_checked k r : outbox d !! k = Some r -> outbox_checks k r = true;
  o_claimed m : m ∈ C -> Accepted m ∈ l;
  o_answers m r : Acknowledged m r ∈ l -> Accepted m ∈ l /\ receipt_key r = message_key m;
  o_owed r : r ∈ R -> exists m, Acknowledged m r ∈ l;
  o_receipts k p : receipts d !! k = Some p ->
    exists m r json t, Acknowledged m r ∈ l /\ receipt_key r = k /\ p = receipt_row r json t
}.

Lemma once_weaken d l C R C' R' : C' ⊆+ C -> R' ⊆+ R -> once d l C R -> once d l C' R'.
Proof.
  intros HC HR [Hu Hb Ho Hs Hr Hck Hc Ha Hw Hp].
  assert (map message_key C' ++ map receipt_key R' ⊆+ map message_key C ++ map receipt_key R) as Hsub.
  { apply submseteq_app; by apply fmap_submseteq. }
  split; [| |done| |done|done| |done| |done].
  - by eapply NoDup_sub.
  - intros k Hk. apply Hb. by eapply elem_of_submseteq.
  - intros k [Hk|Hk]; apply Hs; [left|by right]. eapply elem_of_submseteq; [exact Hk|].
    by apply fmap_submseteq.
  - intros m Hm. apply Hc. by eapply elem_of_submseteq.
  - intros r Hr'. apply Hw. by eapply elem_of_submseteq.
Qed.

Lemma acknowledged_other k l h :
  (forall m r, h <> Acknowledged m r) -> acknowledged k (l ++ [h]) = acknowledged k l.
Proof.
  intros Hh. unfold acknowledged. rewrite counted_one.
  destruct h as [m|m r|k']; [lia|by destruct (Hh m r)|lia].
Qed.

Lemma forgotten_other k l h : (forall k, h <> Forgotten k) -> forgotten k (l ++ [h]) = forgotten k l.
Proof.
  intros Hh. unfold forgotten. rewrite counted_one.
  destruct h as [m|m r|k']; [lia..|by destruct (Hh k')].
Qed.

Lemma row_message_key k r m : row_message k r m -> message_key m = k.
Proof.
  unfold row_message, operation_of, request_of, stop_request_of. intros Hm.
  destruct k, m; peel Hm; done.
Qed.

Lemma row_message_unique k r m m' : row_message k r m -> row_message k r m' -> m = m'.
Proof.
  unfold row_message. intros Hm Hm'. rewrite Hm in Hm'. by destruct m, m'; simplify_eq.
Qed.

Lemma not_pending r status : q_status r = status -> status <> "pending" -> is_pending r = false.
Proof. unfold is_pending. intros -> Hne. by apply String.eqb_neq. Qed.

Lemma busy_not_pending d l C R k r :
  once d l C R -> k ∈ map message_key C ++ map receipt_key R -> outbox d !! k = Some r ->
  is_pending r = false.
Proof.
  intros Ho Hk Hr. destruct (o_busy _ _ _ _ Ho k Hk) as (r' & Hr' & Hs). simplify_eq.
  by eapply not_pending.
Qed.

(** Every row keeps to the checks of its table. *)
Lemma checks_status k r status t n clock :
  outbox_checks k r = true -> status ∈ ["pending"; "processing"; "delivered"; "failed"] ->
  0 <= n -> outbox_checks k (set_status status t n clock r) = true.
Proof.
  unfold outbox_checks. intros Hck Hst Hn. bool_facts. cbn. rewrite !andb_true_iff.
  split_and!; try done; by (apply Z.leb_le || apply bool_decide_eq_true).
Qed.

Definition checked (t : gmap WorkKey OutboxRow) : Prop :=
  forall k r, t !! k = Some r -> outbox_checks k r = true.

Lemma checked_insert t k r : checked t -> outbox_checks k r = true -> checked (<[k := r]> t).
Proof.
  intros Ht Hr k' r'. destruct (decide (k' = k)) as [->|Hne].
  - rewrite lookup_insert_eq. by intros [= <-].
  - rewrite lookup_insert_ne by done. apply Ht.
Qed.

Lemma checked_alter t k f :
  checked t -> (forall r, outbox_checks k r = true -> outbox_checks k (f r) = true) ->
  checked (alter f k t).
Proof.
  intros Ht Hf k' r'. destruct (decide (k' = k)) as [->|Hne].
  - rewrite lookup_alter_eq. destruct (t !! k) as [r|] eqn:E; [|done]. intros [= <-].
    by apply Hf, Ht.
  - rewrite lookup_alter_ne by done. apply Ht.
Qed.

(** A claim takes one pending row. *)
Lemma once_claim k r m now clock d d' l C R :
  claims_row k r now clock d d' -> row_message k r m ->
  once d l C R -> once d' l (m :: C) R.
Proof.
  intros (Hr & Hp & _ & ->) Hm Ho. pose proof (row_message_key _ _ _ Hm) as Hk.
  destruct (o_rows _ _ _ _ Ho k r Hr) as (m' & Hm' & _ & Hacc).
  rewrite <- (row_message_unique _ _ _ _ Hm Hm') in Hacc. clear m' Hm'.
  assert (k ∉ map message_key C ++ map receipt_key R) as Hfree.
  { intros Hin. pose proof (busy_not_pending _ _ _ _ _ _ Ho Hin Hr). congruence. }
  assert (acknowledged k l <= forgotten k l) as Hle.
  { apply (o_unsent _ _ _ _ Ho). right. intros r' Hr'. by simplify_eq. }
  destruct Ho as [Hu Hb Honce Hs Hrows Hck Hc Ha Hw Hrc]. split; cbn; try done.
  - rewrite Hk. by constructor.
  - intros k' [->|Hin]%elem_of_cons; [|destruct (decide (k' = k)) as [->|Hne]; [done|]].
    + rewrite Hk, lookup_insert_eq. eauto.
    + rewrite lookup_insert_ne by done. by apply Hb.
  - intros k' Hun. destruct (decide (k' = k)) as [->|Hne]; [done|]. apply Hs.
    destruct Hun as [[He|Hin]%elem_of_cons|Hall]; [congruence|by left|right].
    cbn in Hall. by rewrite lookup_insert_ne in Hall by done.
  - intros k' r' Hr'. destruct (decide (k' = k)) as [->|Hne].
    + rewrite lookup_insert_eq in Hr'. simplify_eq. by exists m.
    + rewrite lookup_insert_ne in Hr' by done. by apply Hrows.
  - apply checked_insert; [exact Hck|]. apply checks_status; [by apply Hck|set_solver|].
    apply Hck in Hr. unfold outbox_checks in Hr. bool_facts. lia.
  - intros m' [->|Hin]%elem_of_cons; [done|by apply Hc].
Qed.

(** A task gives its row back. *)
Lemma once_retry m t clock d l C R :
  once d l (m :: C) R ->
  once (with_outbox d (alter (fun r => set_status "pending" t (q_attempt_count r) clock r)
          (message_key m)
          (outbox d))) l C R.
Proof.
  intros Ho. set (k := message_key m).
  pose proof (o_unique _ _ _ _ Ho) as Hu. cbn in Hu. apply NoDup_cons in Hu as [Hfree Hu].
  destruct Ho as [_ Hb Honce Hs Hrows Hck Hc Ha Hw Hrc]. split; cbn; try done.
  - intros k' Hk'. assert (k' <> k) as Hne by (intros ->; by apply Hfree).
    rewrite lookup_alter_ne by done. apply Hb. by right.
  - intros k' Hun. apply Hs. destruct (decide (k' = k)) as [->|Hne]; [left; by left|].
    destruct Hun as [Hin|Hall]; [left; by right|right]. cbn in Hall.
    by rewrite lookup_alter_ne in Hall by done.
  - intros k' r' Hr'. destruct (decide (k' = k)) as [->|Hne].
    + rewrite lookup_alter_eq in Hr'. destruct (outbox d !! k) as [r|] eqn:Er; [|done].
      cbn in Hr'. simplify_eq. by apply Hrows in Er.
    + rewrite lookup_alter_ne in Hr' by done. by apply Hrows.
  - apply checked_alter; [exact Hck|]. intros r Hr. apply checks_status; [done|set_solver|].
    unfold outbox_checks in Hr. bool_facts. done.
  - intros m' Hin. apply Hc. by right.
Qed.

(** Slack acknowledges a message that a task holds. *)
Lemma once_acknowledge m r d l C R :
  receipt_key r = message_key m -> once d l (m :: C) R ->
  once d (l ++ [Acknowledged m r]) C (r :: R).
Proof.
  intros Hk Ho. pose proof (o_unsent _ _ _ _ Ho (message_key m)) as Hfirst.
  pose proof (o_unique _ _ _ _ Ho) as Hu. cbn in Hu. apply NoDup_cons in Hu as [Hfree Hu].
  destruct Ho as [_ Hb Honce Hs Hrows Hck Hc Ha Hw Hrc].
  assert (forall k, forgotten k (l ++ [Acknowledged m r]) = forgotten k l) as Hf
    by (intros k; by apply forgotten_other).
  assert (forall k, k <> message_key m ->
    acknowledged k (l ++ [Acknowledged m r]) = acknowledged k l) as Hack.
  { intros k Hne. unfold acknowledged. rewrite counted_one, bool_decide_false by done. lia. }
  assert (acknowledged (message_key m) (l ++ [Acknowledged m r])
          = acknowledged (message_key m) l + 1) as Hself.
  { unfold acknowledged. by rewrite counted_one, bool_decide_true. }
  split; cbn.
  - rewrite Hk, <- Permutation_middle. by constructor.
  - intros k. rewrite <- Permutation_middle, Hk. apply Hb.
  - intros k. rewrite Hf. destruct (decide (k = message_key m)) as [->|Hne].
    + rewrite Hself. assert (unsent (message_key m) d (m :: C)) as Hm by (left; left).
      specialize (Hfirst Hm). lia.
    + by rewrite Hack.
  - intros k Hun. rewrite Hf. assert (k <> message_key m) as Hne.
    { intros ->. destruct Hun as [Hin|Hall].
      - apply Hfree. apply elem_of_app. by left.
      - destruct (Hb (message_key m)) as (row & Hrow & Hst); [by left|].
        specialize (Hall _ Hrow). by rewrite (not_pending row "processing") in Hall. }
    rewrite Hack by done. apply Hs. destruct Hun as [Hin|Hall]; [left; by right|by right].
  - intros k row Hrow. destruct (Hrows k row Hrow) as (m' & ? & ? & ?). exists m'.
    rewrite elem_of_app. auto.
  - done.
  - intros m' Hin. apply elem_of_app. left. apply Hc. by right.
  - intros m' r' [Hin|Hin%list_elem_of_singleton]%elem_of_app; rewrite elem_of_app.
    + apply Ha in Hin as [? ?]. auto.
    + simplify_eq. split; [left; apply Hc; by left|done].
  - intros r' [->|Hin]%elem_of_cons.
    + exists m. apply elem_of_app. right. by left.
    + destruct (Hw r' Hin) as [m' Hm']. exists m'. apply elem_of_app. by left.
  - intros k p Hp. destruct (Hrc k p Hp) as (m' & r' & json & t & Hin & ? & ?).
    exists m', r', json, t. rewrite elem_of_app. auto.
Qed.

(** A receipt that was owed is stored. *)
Lemma once_complete r json t clock d l C R :
  once d l C (r :: R) -> once (completed r json t clock d) l C R.
Proof.
  intros Ho. set (k := receipt_key r).
  pose proof (o_unique _ _ _ _ Ho) as Hu. cbn in Hu. rewrite <- Permutation_middle in Hu.
  apply NoDup_cons in Hu as [Hfree Hu].
  destruct Ho as [_ Hb Honce Hs Hrows Hck Hc Ha Hw Hrc].
  assert (forall k', k' ∈ map message_key C ++ map receipt_key R -> k' <> k) as Hother.
  { intros k' Hin ->. by apply Hfree. }
  split; cbn; fold k; try done.
  - intros k' Hk'. rewrite lookup_alter_ne by (symmetry; by apply Hother). apply Hb.
    cbn. rewrite <- Permutation_middle. by right.
  - intros k' Hun. apply Hs. destruct Hun as [Hin|Hall]; [by left|].
    destruct (decide (k' = k)) as [->|Hne]; cbn in Hall; fold k in Hall.
    + destruct (Hb k) as (row & Hrow & _); [cbn; rewrite <- Permutation_middle; by left|].
      rewrite lookup_alter_eq, Hrow in Hall. by specialize (Hall _ eq_refl).
    + right. by rewrite lookup_alter_ne in Hall by done.
  - intros k' row Hrow. destruct (decide (k' = k)) as [->|Hne].
    + rewrite lookup_alter_eq in Hrow. destruct (outbox d !! k) as [row0|] eqn:Er; [|done].
      cbn in Hrow. simplify_eq. by apply Hrows in Er.
    + rewrite lookup_alter_ne in Hrow by done. by apply Hrows.
  - apply checked_alter; [exact Hck|]. intros row Hrow. apply checks_status; [done|set_solver|].
    unfold outbox_checks in Hrow. bool_facts. done.
  - intros r' Hin. apply Hw. by right.
  - intros k' p. destruct (receipts d !! k) as [p0|] eqn:Ep; [apply Hrc|].
    destruct (decide (k' = k)) as [->|Hne].
    + rewrite lookup_insert_eq. intros [= <-]. destruct (Hw r) as [m Hm]; [by left|].
      by exists m, r, json, clock.
    + rewrite lookup_insert_ne by done. apply Hrc.
Qed.

(** A new message enters the outbox. *)
Lemma once_accept m r d l C R :
  outbox d !! message_key m = None -> is_pending r = true -> row_message (message_key m) r m ->
  outbox_checks (message_key m) r = true -> once d l C R ->
  once (with_outbox d (<[message_key m := r]> (outbox d))) (l ++ [Accepted m]) C R.
Proof.
  intros Hnone Hp Hm Hok Ho. set (k := message_key m) in *.
  destruct Ho as [Hu Hb Honce Hs Hrows Hck Hc Ha Hw Hrc].
  split; cbn; try done.
  - intros k' Hk'. destruct (Hb k' Hk') as (r' & Hr' & Hst). exists r'. split; [|done].
    rewrite lookup_insert_ne; [done|]. intros <-. congruence.
  - intros k'. rewrite acknowledged_other, forgotten_other by done. done.
  - intros k' Hun. rewrite acknowledged_other, forgotten_other by done. apply Hs.
    destruct Hun as [Hin|Hall]; [by left|right]. intros r' Hr'.
    destruct (decide (k' = k)) as [->|Hne]; [congruence|]. apply Hall. cbn.
    by rewrite lookup_insert_ne.
  - intros k' r' Hr'. destruct (decide (k' = k)) as [->|Hne].
    + rewrite lookup_insert_eq in Hr'. simplify_eq. exists m. split_and!; [done..|].
      apply elem_of_app. right. by left.
    + rewrite lookup_insert_ne in Hr' by done. destruct (Hrows k' r' Hr') as (m' & ? & ? & ?).
      exists m'. rewrite elem_of_app. auto.
  - by apply checked_insert.
  - intros m' Hin. apply elem_of_app. left. by apply Hc.
  - intros m' r' [Hin|Hin%list_elem_of_singleton]%elem_of_app; [|done].
    apply Ha in Hin as [? ?]. rewrite elem_of_app. auto.
  - intros r' Hin. destruct (Hw r' Hin) as [m' Hm']. exists m'. apply elem_of_app. by left.
  - intros k' p Hpk. destruct (Hrc k' p Hpk) as (m' & r' & json & t & Hin & ? & ?).
    exists m', r', json, t. rewrite elem_of_app. auto.
Qed.

(** Retention removes delivered and failed rows, and receipts. *)
Record retained (d d' : ChatDb) : Prop := {
  rt_outbox k r : outbox d' !! k = Some r -> outbox d !! k = Some r;
  rt_removed k r : outbox d !! k = Some r -> outbox d' !! k = None ->
    q_status r = "delivered" \/ q_status r = "failed";
  rt_receipts k p : receipts d' !! k = Some p -> receipts d !! k = Some p;
  rt_throttles : throttles d' = throttles d
}.

Lemma lookup_delete_rows {K Row} `{Countable K} (where_ : K -> Row -> bool) (t : gmap K Row) k r :
  (delete_rows where_ t).2 !! k = Some r <-> t !! k = Some r /\ where_ k r = false.
Proof. unfold delete_rows. cbn. by rewrite map_lookup_filter_Some. Qed.

Lemma cleanup_retains `{SqliteDates} ws now policy c d r d' :
  cleanup_retained_chat ws now policy c d = (r, d') -> retained d d'.
Proof.
  unfold cleanup_retained_chat. destruct (negb (enabled policy)).
  { intros [= <- <-]. split; naive_solver. }
  intros [(e & -> & ->)|(a & -> & Hb)]%atomically_cases; [split; naive_solver|].
  cbn in Hb. injection Hb as <- <-. split; cbn.
  - intros k row [Hr _]%map_lookup_filter_Some. done.
  - intros k row Hr Hgone. destruct (outbox_expired (days_before (to_i64 now) (delivery_days policy))
      ws k row) eqn:E.
    + unfold outbox_expired in E. bool_facts. set_solver.
    + exfalso. apply (map_lookup_filter_None_1 _ _ k) in Hgone. naive_solver.
  - intros k p [Hp _]%map_lookup_filter_Some. done.
  - done.
Qed.

Lemma removed_row k d d' :
  k ∈ removed_rows d d' <-> (exists r, outbox d !! k = Some r) /\ outbox d' !! k = None.
Proof.
  unfold removed_rows. rewrite list_elem_of_In, filter_In, <- list_elem_of_In.
  rewrite negb_true_iff. split.
  - intros [Hin Hnone]. split; [|by destruct (outbox d' !! k)].
    apply list_elem_of_fmap in Hin as ([k' r] & -> & Hr%elem_of_map_to_list). eauto.
  - intros [[r Hr] Hnone]. split; [|by rewrite Hnone].
    apply list_elem_of_fmap. exists (k, r). split; [done|]. by apply elem_of_map_to_list.
Qed.

Lemma forgotten_all k ks :
  0 <= forgotten k (map Forgotten ks) /\ (k ∈ ks -> 1 <= forgotten k (map Forgotten ks)).
Proof.
  unfold forgotten, counted. split; [lia|]. intros Hin.
  induction ks as [|k' ks IH]; [by apply elem_of_nil in Hin|]. cbn.
  destruct (bool_decide (k' = k)) eqn:E; cbn; [lia|]. bool_facts.
  apply elem_of_cons in Hin as [->|Hin]; [done|]. by apply IH.
Qed.

Lemma acknowledged_forgotten k ks : acknowledged k (map Forgotten ks) = 0.
Proof. unfold acknowledged, counted. by induction ks. Qed.

Lemma once_forget d d' l C R :
  retained d d' -> once d l C R -> once d' (l ++ map Forgotten (removed_rows d d')) C R.
Proof.
  intros [Hsub Hgone Hrcs _] [Hu Hb Honce Hs Hrows Hck Hc Ha Hw Hrc].
  set (ks := removed_rows d d').
  assert (forall k, acknowledged k (l ++ map Forgotten ks) = acknowledged k l) as Hack.
  { intros k. unfold acknowledged at 1. rewrite counted_app. fold (acknowledged k l).
    fold (acknowledged k (map Forgotten ks)). rewrite acknowledged_forgotten. lia. }
  assert (forall k, forgotten k (l ++ map Forgotten ks)
    = forgotten k l + forgotten k (map Forgotten ks)) as Hforg by (intros k; apply counted_app).
  assert (forall m, Accepted m ∈ l -> Accepted m ∈ l ++ map Forgotten ks) as Hacc.
  { intros m Hm. apply elem_of_app. by left. }
  assert (forall m r, Acknowledged m r ∈ l ++ map Forgotten ks <-> Acknowledged m r ∈ l) as Hans.
  { intros m r. rewrite elem_of_app. split; [|by left]. intros [?|Hin]; [done|].
    by apply list_elem_of_fmap in Hin as (? & ? & _). }
  split; try done.
  - intros k Hk. destruct (Hb k Hk) as (r & Hr & Hst). exists r. split; [|done].
    destruct (outbox d' !! k) as [r'|] eqn:E; [apply Hsub in E; congruence|].
    destruct (Hgone k r Hr E); congruence.
  - intros k. rewrite Hack, Hforg. specialize (Honce k). pose proof (forgotten_all k ks). lia.
  - intros k Hun. rewrite Hack, Hforg. pose proof (forgotten_all k ks) as [Hge Hone].
    destruct (decide (k ∈ ks)) as [Hk|Hk]; [specialize (Honce k); specialize (Hone Hk); lia|].
    enough (acknowledged k l <= forgotten k l) by lia. apply Hs.
    destruct Hun as [Hin|Hall]; [by left|right]. intros r Hr. apply Hall.
    destruct (outbox d' !! k) as [r'|] eqn:E; [apply Hsub in E; congruence|].
    contradict Hk. apply removed_row. eauto.
  - intros k r Hr%Hsub. destruct (Hrows k r Hr) as (m & ? & ? & ?). eauto.
  - intros k r Hr%Hsub. by apply Hck.
  - intros m Hm. by apply Hacc, Hc.
  - intros m r Hin%Hans. apply Ha in Hin as [? ?]. auto.
  - intros r Hr. destruct (Hw r Hr) as [m Hm]. exists m. by apply Hans.
  - intros k p Hp%Hrcs. destruct (Hrc k p Hp) as (m & r & json & t & Hin & ? & ?).
    exists m, r, json, t. by rewrite Hans.
Qed.

(** *** Tasks *)

Definition claim_of (h : Held) : option Message :=
  match h with Claimed m => Some m | _ => None end.
Definition owed_by (h : Held) : option SlackDeliveryReceipt :=
  match h with Answered r | Marked r _ => Some r | _ => None end.

Definition claimed (hs : list (nat * Held)) : list Message := omap (fun t => claim_of t.2) hs.
Definition owed (hs : list (nat * Held)) : list SlackDeliveryReceipt :=
  omap (fun t => owed_by t.2) hs.

Definition memory_receipts (m : Memory) : list SlackDeliveryReceipt :=
  map pc_receipt (pending_completions m).
Definition receipts_in (ms : gmap nat Memory) : list SlackDeliveryReceipt :=
  map_to_list ms ≫= (fun qm => memory_receipts qm.2).

Definition sends_once (s : Shared) (hs : list (nat * Held)) : Prop :=
  once (chat s) (happened s) (claimed hs) (owed hs ++ receipts_in (memories s)).

Lemma receipts_at s q :
  receipts_in (memories s) ≡ₚ memory_receipts (memory s q) ++ receipts_in (delete q (memories s)).
Proof.
  unfold memory, receipts_in. destruct (memories s !! q) as [m|] eqn:E; cbn.
  - by rewrite <- (map_to_list_delete _ _ _ E).
  - by rewrite delete_id.
Qed.

Lemma receipts_set ms q m :
  receipts_in (<[q := m]> ms) ≡ₚ memory_receipts m ++ receipts_in (delete q ms).
Proof.
  unfold receipts_in. rewrite <- insert_delete_eq.
  by rewrite map_to_list_insert by apply lookup_delete_eq.
Qed.

(** An action changes what its own task holds, and leaves the memories alone. *)
Lemma once_at s s' hs i q h h' :
  hs !! i = Some (q, h) -> receipts_in (memories s') ≡ₚ receipts_in (memories s) ->
  (forall C R, once (chat s) (happened s) (option_list (claim_of h) ++ C)
                 (option_list (owed_by h) ++ R) ->
     once (chat s') (happened s') (option_list (claim_of h') ++ C) (option_list (owed_by h') ++ R)) ->
  sends_once s hs -> sends_once s' (<[i := (q, h')]> hs).
Proof.
  intros Hi Hp Hstep Ho. unfold sends_once, claimed, owed.
  eapply once_weaken; [..|apply (Hstep (claimed (delete i hs))
    (owed (delete i hs) ++ receipts_in (memories s)))].
  - apply Permutation_submseteq, (omap_insert (fun t => claim_of t.2) _ _ _ (q, h') Hi).
  - apply Permutation_submseteq.
    rewrite (omap_insert (fun t => owed_by t.2) _ _ _ (q, h') Hi), Hp. by rewrite <- app_assoc.
  - eapply once_weaken; [..|exact Ho]; apply Permutation_submseteq.
    + symmetry. apply (omap_at (fun t => claim_of t.2) _ _ _ Hi).
    + rewrite app_assoc. f_equiv. symmetry. apply (omap_at (fun t => owed_by t.2) _ _ _ Hi).
Qed.

(** Receipts move between a task and the memory of its process. *)
Lemma once_move s hs i q q' h h' m :
  hs !! i = Some (q, h) -> claim_of h' = claim_of h ->
  option_list (owed_by h') ++ memory_receipts m
    ≡ₚ option_list (owed_by h) ++ memory_receipts (memory s q') ->
  sends_once s hs -> sends_once (with_memory s q' m) (<[i := (q, h')]> hs).
Proof.
  intros Hi Hc Hp Ho. eapply once_weaken; [..|exact Ho]; apply Permutation_submseteq.
  - unfold claimed. rewrite (omap_insert (fun t => claim_of t.2) _ _ _ (q, h') Hi).
    rewrite (omap_at (fun t => claim_of t.2) _ _ _ Hi). cbn. by rewrite Hc.
  - unfold owed. cbn. rewrite receipts_set, (receipts_at s q').
    rewrite (omap_insert (fun t => owed_by t.2) _ _ _ (q, h') Hi).
    rewrite (omap_at (fun t => owed_by t.2) _ _ _ Hi). cbn.
    set (O := omap _ (delete i hs)). set (P := receipts_in (delete q' (memories s))).
    rewrite <- !app_assoc, (app_assoc O), (Permutation_app_comm O).
    rewrite (app_assoc O (memory_receipts (memory s q'))), (Permutation_app_comm O (memory_receipts _)).
    rewrite <- !app_assoc, !(app_assoc (option_list _)). by rewrite Hp.
Qed.

Lemma once_memory s q m hs :
  memory_receipts m = memory_receipts (memory s q) -> sends_once s hs ->
  sends_once (with_memory s q m) hs.
Proof.
  intros Hm Ho. eapply once_weaken; [..|exact Ho]; [done|]. apply Permutation_submseteq.
  f_equiv. cbn. by rewrite receipts_set, Hm, <- receipts_at.
Qed.

Lemma once_stopped s q hs :
  sends_once s hs -> sends_once (process_stopped q s) (map (without_owner q Nothing) hs).
Proof.
  intros Ho. eapply once_weaken; [..|exact Ho]; [by apply omap_without|].
  apply submseteq_app; [by apply omap_without|]. cbn. rewrite (receipts_at s q).
  by apply submseteq_inserts_l.
Qed.

Lemma remove_due_spec now l p rest : remove_due now l = Some (p, rest) -> l ≡ₚ p :: rest.
Proof.
  revert rest. induction l as [|x l IH]; intros rest; [done|]. cbn.
  destruct (pc_next_attempt_at x <=? now); [by intros [= -> ->]|].
  destruct (remove_due now l) as [[found rest']|]; [|done]. intros [= -> <-].
  rewrite (IH rest' eq_refl). constructor.
Qed.

Lemma accept_message m r :
  q_status r = "pending" ->
  match m with
  | Post d => q_operation r = "post_message" /\ request_of (message_key m) r = Ok d
  | SlackQueue.Stop d => q_operation r = "stop_stream" /\ stop_request_of (message_key m) r = Ok d
  end ->
  is_pending r = true /\ row_message (message_key m) r m.
Proof.
  intros Hs Hm. unfold is_pending, row_message, operation_of. rewrite Hs. split; [done|].
  destruct m; destruct Hm as [-> Hm]; by rewrite Hm.
Qed.

Lemma sender_parts sender : from_parts (kind sender) (key sender) = Ok sender.
Proof. by destruct sender. Qed.

Section OnceDiscipline.
Context `{Sqlite} `{SqliteDates} `{ErrorText}.

Lemma once_enqueue request now c s hs r s' :
  on_chat (enqueue_slack_delivery request now c) s = (r, s') -> sends_once s hs ->
  sends_once (match r with Ok true => note s' (Accepted (Post request)) | _ => s' end) hs.
Proof.
  unfold on_chat. destruct (enqueue_slack_delivery request now c (chat s)) as [r0 d] eqn:E.
  intros [= <- <-] Ho. destruct (enqueue_effect E) as [[-> Hne]|(id & -> & Hnone & Hck & ->)].
  - by destruct r0 as [[]|e]; destruct s.
  - destruct (accept_message (Post request) (post_message_row request now id (clock c)))
      as [Hp Hm]; [done| |].
    { split; [done|]. unfold request_of. cbn. rewrite sender_parts. by destruct request. }
    by apply (once_accept (Post request)).
Qed.

Lemma once_enqueue_stop request now c s hs r s' :
  on_chat (enqueue_slack_stop_stream_delivery request now c) s = (r, s') -> sends_once s hs ->
  sends_once (match r with Ok true => note s' (Accepted (SlackQueue.Stop request)) | _ => s' end) hs.
Proof.
  unfold on_chat.
  destruct (enqueue_slack_stop_stream_delivery request now c (chat s)) as [r0 d] eqn:E.
  intros [= <- <-] Ho. destruct (enqueue_stop_effect E) as [[-> Hne]|(id & -> & Hnone & Hck & ->)].
  - by destruct r0 as [[]|e]; destruct s.
  - destruct (accept_message (SlackQueue.Stop request) (stop_stream_row request now id (clock c)))
      as [Hp Hm]; [done| |].
    { split; [done|]. unfold stop_request_of. cbn. rewrite sender_parts. by destruct request. }
    by apply (once_accept (SlackQueue.Stop request)).
Qed.

Lemma once_claim_one ws key now c s hs i q r d :
  claim_slack_delivery ws key now c (chat s) = (r, d) -> hs !! i = Some (q, Nothing) ->
  sends_once s hs ->
  sends_once (with_chat s d)
    (<[i := (q, match r with Ok (Ready x) => Claimed (Post x) | _ => Nothing end)]> hs).
Proof.
  intros E Hi. apply once_at with (h := Nothing); [done..|]. intros C R Ho. cbn in Ho |- *.
  destruct (claim_one_effect _ _ _ _ _ _ _ E) as [[-> Hno]|(row & x & Hrow & _ & Hop & Hx & ->)].
  - by destruct r as [[x| |]|e]; [destruct (Hno x)|..].
  - eapply once_claim; [exact Hrow| |done]. unfold row_message, operation_of.
    by rewrite Hop, Hx.
Qed.

Lemma operation_is_message k row x :
  operation_of k row = Ok x ->
  exists m, row_message k row m
    /\ x = match m with Post d => PostMessage d | SlackQueue.Stop d => StopStream d end.
Proof.
  unfold row_message. intros Hx. destruct x as [d|d|r|t].
  - by exists (Post d).
  - by exists (SlackQueue.Stop d).
  - unfold operation_of in Hx. peel Hx.
  - unfold operation_of in Hx. peel Hx.
Qed.

Lemma once_claim_next now c s hs i q r d :
  claim_next_due_slack_delivery_operation now c (chat s) = (r, d) ->
  hs !! i = Some (q, Nothing) -> sends_once s hs ->
  sends_once (with_chat s d) (<[i := (q, after q Nothing (ClaimNextOperation now) r)]> hs).
Proof.
  intros E Hi. apply once_at with (h := Nothing); [done..|]. intros C R Ho. cbn in Ho |- *.
  destruct (claim_next_effect _ _ _ _ _ E) as [[-> Hno]|(k & row & x & Hrow & Hx & ->)].
  - by destruct r as [[x|]|e]; [destruct (Hno x)|..].
  - destruct (operation_is_message _ _ _ Hx) as ([d0|d0] & Hm & ->); by eapply once_claim.
Qed.

Lemma once_action s hs i q h a input r s' :
  sends_once s hs -> hs !! i = Some (q, h) -> allowed q h a -> perform a input s = (r, s') ->
  sends_once s' (<[i := (q, after q h a r)]> hs).
Proof.
  intros Ho Hi Hal Hp.
  destruct a as [q'|request now|q' delivery now|ws key now|now|ws key t|delivery|delivery
    |q' receipt t|q' receipt t|receipt json t|q' completion|q' now]; cbn in Hp, Hal; cbn [after].
  - injection Hp as <- <-. by rewrite list_insert_id.
  - destruct (on_chat _ s) as [r0 s0] eqn:E. injection Hp as <- <-.
    rewrite list_insert_id by done. by eapply once_enqueue.
  - injection Hp as <- <-. by rewrite list_insert_id.
  - subst h. unfold on_chat in Hp. destruct (claim_slack_delivery _ _ _ _ _) as [r0 d] eqn:E.
    injection Hp as <- <-. by eapply once_claim_one.
  - subst h. unfold on_chat in Hp.
    destruct (claim_next_due_slack_delivery_operation _ _ _) as [r0 d] eqn:E.
    injection Hp as <- <-. by eapply once_claim_next.
  - destruct Hal as (m & -> & Hk). unfold on_chat in Hp.
    destruct (retry_slack_delivery _ _ _ _ _) as [r0 d] eqn:E. injection Hp as <- <-.
    revert Ho. apply once_at with (h := Claimed m); [done..|]. intros C R Ho. cbn in Ho |- *.
    destruct (retry_effect E) as [[-> _]|[_ ->]].
    + eapply once_weaken; [..|exact Ho]; [|done]. by apply submseteq_cons.
    + rewrite <- Hk. exact (once_retry m _ _ _ _ _ _ Ho).
  - subst h. injection Hp as <- <-. destruct (post_answer input) as [posted|e].
    + revert Ho. apply once_at with (h := Claimed (Post delivery)); [done..|]. intros C R.
      by apply once_acknowledge.
    + by rewrite list_insert_id.
  - subst h. injection Hp as <- <-. destruct (stop_answer input) as [posted|e].
    + revert Ho. apply once_at with (h := Claimed (SlackQueue.Stop delivery)); [done..|].
      intros C R. by apply once_acknowledge.
    + by rewrite list_insert_id.
  - destruct Hal as [_ ->]. injection Hp as <- <-. by eapply once_move.
  - destruct Hal as [_ ->]. injection Hp as <- <-. eapply once_move; try done.
    unfold clear_in_memory_channel_throttle. repeat split_match; done.
  - subst h. unfold on_chat in Hp. destruct (complete_slack_delivery _ _ _ _ _) as [r0 d] eqn:E.
    injection Hp as <- <-. revert Ho. apply once_at with (h := Marked receipt t); [done..|].
    intros C R Ho. destruct (complete_effect E) as [[-> [e ->]]|[-> ->]]; [done|].
    cbn in Ho |- *. by apply once_complete.
  - destruct Hal as [-> ->]. injection Hp as <- <-. eapply once_move; try done. cbn.
    unfold memory_receipts. cbn. rewrite map_app. cbn. by rewrite <- Permutation_cons_append.
  - destruct Hal as [-> ->]. unfold take_due_pending in Hp.
    destruct (remove_due now (pending_completions (memory s q))) as [[p rest]|] eqn:E;
      cbn in Hp; injection Hp as <- <-; eapply once_move; try done. cbn.
    unfold memory_receipts. cbn. apply remove_due_spec in E. by rewrite E.
Qed.

#[export] Instance once_discipline :
  Discipline (A := result SlackWebApiError (option ChannelMessageReceipt))
    perform call no_guard process_stopped environment Nothing allowed unguarded after sends_once.
Proof.
  split.
  - apply call_follows.
  - done.
  - intros s hs q. unfold sends_once, claimed, owed. rewrite !omap_app. cbn. by rewrite !app_nil_r.
  - intros *. apply once_action.
  - intros s hs i q h gs Ho Hi ->. revert Ho. apply once_at with (h := h); [done..|]. intros C R.
    apply once_weaken; apply submseteq_inserts_l; done.
  - intros s hs q. apply once_stopped.
  - intros s hs [q now|request now c|request now c|ws now policy c] Ho; cbn [environment].
    + by apply once_memory.
    + destruct (on_chat _ s) as [r s'] eqn:E. by eapply once_enqueue.
    + destruct (on_chat _ s) as [r s'] eqn:E. by eapply once_enqueue_stop.
    + destruct (cleanup_retained_chat _ _ _ _ _) as [r d] eqn:E. cbn.
      apply once_forget; [|done]. by eapply cleanup_retains.
Qed.
End OnceDiscipline.

(** ** Channels stay throttled *)

(** Throttles are only ever raised. *)
Definition throttles_grow (d d' : ChatDb) : Prop :=
  forall k t, throttles d !! k = Some t -> exists t', throttles d' !! k = Some t' /\ t <= t'.

#[export] Instance throttles_grow_preorder : PreOrder throttles_grow.
Proof.
  split; [intros d k t Hk; exists t; split; [done|lia]|].
  intros d1 d2 d3 H12 H23 k t (t2 & (t3 & ? & ?)%H23 & ?)%H12. exists t3. split; [done|lia].
Qed.

Lemma same_throttles d d' : throttles d' = throttles d -> throttles_grow d d'.
Proof. intros He k t Hk. exists t. rewrite He. split; [done|lia]. Qed.

Lemma completed_grows r json t clock d : throttles_grow d (completed r json t clock d).
Proof.
  intros k t0 Hk. cbn. destruct (decide (k = receipt_channel r)) as [->|Hne].
  - rewrite lookup_insert_eq, Hk. eexists. split; [done|lia].
  - rewrite lookup_insert_ne by done. exists t0. split; [done|lia].
Qed.

Section Throttles.
Context `{Sqlite} `{SqliteDates} `{ErrorText}.

Lemma action_grows a input s r s' : perform a input s = (r, s') -> throttles_grow (chat s) (chat s').
Proof.
  destruct a as [q'|request now|q' delivery now|ws key now|now|ws key t|delivery|delivery
    |q' receipt t|q' receipt t|receipt json t|q' completion|q' now]; cbn; unfold on_chat.
  - by intros [= <- <-].
  - destruct (enqueue_slack_delivery _ _ _ _) as [r0 d] eqn:E. intros [= <- <-].
    apply same_throttles. destruct (enqueue_effect E) as [[-> _]|(id & -> & _ & _ & ->)];
      by repeat split_match.
  - by intros [= <- <-].
  - destruct (claim_slack_delivery _ _ _ _ _) as [r0 d] eqn:E. intros [= <- <-].
    destruct (claim_one_effect _ _ _ _ _ _ _ E) as [[-> _]|(row & x & (_ & _ & _ & ->) & _)];
      by apply same_throttles.
  - destruct (claim_next_due_slack_delivery_operation _ _ _) as [r0 d] eqn:E. intros [= <- <-].
    destruct (claim_next_effect _ _ _ _ _ E) as [[-> _]|(k & row & x & (_ & _ & _ & ->) & _)];
      by apply same_throttles.
  - destruct (retry_slack_delivery _ _ _ _ _) as [r0 d] eqn:E. intros [= <- <-].
    destruct (retry_effect E) as [[-> _]|[_ ->]]; by apply same_throttles.
  - intros [= <- <-]. by destruct (post_answer input).
  - intros [= <- <-]. by destruct (stop_answer input).
  - by intros [= <- <-].
  - by intros [= <- <-].
  - destruct (complete_slack_delivery _ _ _ _ _) as [r0 d] eqn:E. intros [= <- <-].
    destruct (complete_effect E) as [[-> _]|[_ ->]]; [done|apply completed_grows].
  - by intros [= <- <-].
  - destruct (take_due_pending _ _) as [taken m]. by intros [= <- <-].
Qed.

Lemma environment_grows x s : throttles_grow (chat s) (chat (environment x s)).
Proof.
  destruct x as [q now|request now c|request now c|ws now policy c]; cbn; unfold on_chat.
  - done.
  - destruct (enqueue_slack_delivery _ _ _ _) as [r0 d] eqn:E. apply same_throttles.
    destruct (enqueue_effect E) as [[-> _]|(id & -> & _ & _ & ->)]; by repeat split_match.
  - destruct (enqueue_slack_stop_stream_delivery _ _ _ _) as [r0 d] eqn:E. apply same_throttles.
    destruct (enqueue_stop_effect E) as [[-> _]|(id & -> & _ & _ & ->)]; by repeat split_match.
  - destruct (cleanup_retained_chat _ _ _ _ _) as [r d] eqn:E. cbn.
    apply same_throttles, (rt_throttles _ _ (cleanup_retains _ _ _ _ _ _ _ E)).
Qed.

Lemma no_guards_release gs s : release_all no_guard gs s = s.
Proof. by induction gs. Qed.

Lemma move_grows (m : SlackQueue.Move) (w : World) :
  throttles_grow (chat w.1) (chat (move perform call no_guard process_stopped environment m w).1).
Proof.
  destruct w as [s tasks]. destruct m as [q c|i input|i|q|x]; cbn; try done.
  - destruct (tasks !! i) as [[q [[a|o gs k]|]]|]; try done.
    destruct (perform o input s) as [r s'] eqn:E. by eapply action_grows.
  - destruct (tasks !! i) as [[q p]|]; [|done]. cbn. rewrite no_guards_release. done.
  - apply environment_grows.
Qed.

Lemma history_grows ms (w : World) : throttles_grow (chat w.1) (chat (history ms w).1).
Proof.
  revert w. induction ms as [|m ms IH]; intros w; [done|]. cbn.
  etransitivity; [apply move_grows|apply IH].
Qed.
End Throttles.

(** The channel of a receipt is throttled until [t], in the store or in the
    memory of the process. *)
Definition stored_until (d : ChatDb) (r : SlackDeliveryReceipt) (t : Z) : Prop :=
  exists t0, throttles d !! receipt_channel r = Some t0 /\ to_i64 t <= t0.
Definition remembered_until (m : Memory) (r : SlackDeliveryReceipt) (t : Z) : Prop :=
  exists t0, in_memory_channel_throttles m !! receipt_channel r = Some t0 /\ t <= t0.
Definition covered (s : Shared) (q : nat) (r : SlackDeliveryReceipt) (t : Z) : Prop :=
  remembered_until (memory s q) r t \/ stored_until (chat s) r t.

Definition held_covered (s : Shared) (t : nat * Held) : Prop :=
  match t.2 with
  | Marked r t' => covered s t.1 r t'
  | Recorded r t' => stored_until (chat s) r t'
  | _ => True
  end.

Definition pending_covered (s : Shared) : Prop :=
  forall q p, p ∈ pending_completions (memory s q) ->
    covered s q (pc_receipt p) (pc_next_available_at p).

Definition spaced (s : Shared) (hs : list (nat * Held)) : Prop :=
  pending_covered s /\ Forall (held_covered s) hs.

Lemma to_i64_mono a b : a <= b -> to_i64 a <= to_i64 b.
Proof. unfold to_i64. intros Hab. destruct (Z.leb_spec a i64_max), (Z.leb_spec b i64_max); lia. Qed.

Lemma stored_grows d d' r t : throttles_grow d d' -> stored_until d r t -> stored_until d' r t.
Proof. intros Hg (t0 & (t1 & ? & ?)%Hg & ?). exists t1. split; [done|lia]. Qed.

Lemma memory_set s q m q' : memory (with_memory s q m) q' = if decide (q' = q) then m else memory s q'.
Proof.
  unfold memory. cbn. case_decide as Hq; [subst; by rewrite lookup_insert_eq|].
  by rewrite lookup_insert_ne.
Qed.

(** What one state covers the next one covers, for the tasks that go on. *)
Definition covers (s s' : Shared) : Prop :=
  throttles_grow (chat s) (chat s') /\ forall q r t, covered s q r t -> covered s' q r t.

Lemma held_covers s s' t : covers s s' -> held_covered s t -> held_covered s' t.
Proof.
  intros [Hg Hc]. destruct t as [q []]; cbn; try done; [by apply Hc|by apply stored_grows].
Qed.

Lemma spaced_covers s s' hs :
  covers s s' -> pending_covered s' -> spaced s hs -> spaced s' hs.
Proof.
  intros Hc Hp [_ Hh]. split; [done|]. eapply Forall_weaken; [exact Hh|].
  intros t. by apply held_covers.
Qed.

(** An action of one task, with what that task holds after it. *)
Lemma spaced_at s s' hs i q h h' :
  hs !! i = Some (q, h) -> covers s s' -> pending_covered s' ->
  (held_covered s (q, h) -> held_covered s' (q, h')) ->
  spaced s hs -> spaced s' (<[i := (q, h')]> hs).
Proof.
  intros Hi Hc Hp Hstep Hs. assert (held_covered s (q, h)) as Hh.
  { destruct Hs as [_ Hs]. by apply (Forall_lookup_1 _ _ _ _ Hs Hi). }
  destruct (spaced_covers s s' hs Hc Hp Hs) as [_ Hs']. split; [done|].
  apply Forall_insert; [done|by apply Hstep].
Qed.

(** The chat store moves on and the memories stay. *)
Lemma covers_chat s s' :
  memories s' = memories s -> throttles_grow (chat s) (chat s') ->
  covers s s' /\ (pending_covered s -> pending_covered s').
Proof.
  intros Hm Hg. assert (covers s s') as Hc.
  { split; [done|]. intros q r t [Hr|Hr]; [left; unfold memory in *; by rewrite Hm|right].
    by eapply stored_grows. }
  split; [done|]. intros Hp q p. unfold memory. rewrite Hm. intros Hin. by apply Hc, Hp.
Qed.

Lemma spaced_chat s s' hs :
  memories s' = memories s -> throttles_grow (chat s) (chat s') -> spaced s hs -> spaced s' hs.
Proof.
  intros Hm Hg Hs. destruct (covers_chat s s' Hm Hg) as [Hc Hp].
  apply (spaced_covers s); [done|apply Hp, Hs|done].
Qed.

(** One memory changes. *)
Lemma covers_memory s q m :
  (forall r t, remembered_until (memory s q) r t ->
     remembered_until m r t \/ stored_until (chat s) r t) ->
  covers s (with_memory s q m)
  /\ ((forall p, p ∈ pending_completions m -> p ∈ pending_completions (memory s q)
        \/ covered (with_memory s q m) q (pc_receipt p) (pc_next_available_at p)) ->
      pending_covered s -> pending_covered (with_memory s q m)).
Proof.
  intros Hm. assert (covers s (with_memory s q m)) as Hc.
  { split; [done|]. intros q' r t Hr. unfold covered. rewrite memory_set.
    destruct Hr as [Hr|Hr]; [|by right]. case_decide; [subst|by left]. by apply Hm. }
  split; [done|]. intros Hsub Hp q' p. rewrite memory_set. case_decide as Hq; intros Hin.
  - subst q'. destruct (Hsub p Hin) as [Hin'|]; [|done]. by apply Hc, Hp.
  - by apply Hc, Hp.
Qed.

Lemma set_throttle_remembers receipt t m :
  remembered_until (set_in_memory_channel_throttle receipt t m) receipt t
  /\ forall r t', remembered_until m r t' ->
       remembered_until (set_in_memory_channel_throttle receipt t m) r t'.
Proof.
  unfold remembered_until. cbn. split.
  - rewrite lookup_insert_eq. eexists. split; [done|lia].
  - intros r t' (t0 & Ht & Hle). destruct (decide (receipt_channel r = receipt_channel receipt)) as [He|Hne].
    + rewrite He in *. rewrite lookup_insert_eq, Ht. eexists. split; [done|]. cbn. lia.
    + rewrite lookup_insert_ne by done. eauto.
Qed.

Lemma clear_throttle_covers d receipt t m r t' :
  stored_until d receipt t -> remembered_until m r t' ->
  remembered_until (clear_in_memory_channel_throttle receipt t m) r t' \/ stored_until d r t'.
Proof.
  intros (ts & Hs & Hle) (t0 & Ht & Ht'). unfold clear_in_memory_channel_throttle, remembered_until.
  destruct (in_memory_channel_throttles m !! receipt_channel receipt) as [a|] eqn:Ea; [|left; eauto].
  destruct (Z.leb_spec a t) as [Ha|Ha]; [|left; eauto]. cbn.
  destruct (decide (receipt_channel r = receipt_channel receipt)) as [He|Hne].
  - right. exists ts. rewrite He in *. split; [done|]. simplify_eq.
    pose proof (to_i64_mono t' t). lia.
  - left. exists t0. by rewrite lookup_delete_ne by done.
Qed.

Lemma clear_keeps_pending receipt t m :
  pending_completions (clear_in_memory_channel_throttle receipt t m) = pending_completions m.
Proof. unfold clear_in_memory_channel_throttle. by repeat split_match. Qed.

Section SpacedDiscipline.
Context `{Sqlite} `{SqliteDates} `{ErrorText}.

(** An action on the store alone, unless it stores a receipt, leaves its task
    with nothing that must be covered. *)
Lemma spaced_store s s' hs i q h h' :
  hs !! i = Some (q, h) -> memories s' = memories s -> throttles_grow (chat s) (chat s') ->
  (held_covered s (q, h) -> held_covered s' (q, h')) ->
  spaced s hs -> spaced s' (<[i := (q, h')]> hs).
Proof.
  intros Hi Hm Hg Hh Hs. destruct (covers_chat s s' Hm Hg) as [Hc Hp].
  eapply spaced_at; try done. apply Hp, Hs.
Qed.

Lemma completed_stores r json t clock d : stored_until (completed r json t clock d) r t.
Proof.
  unfold stored_until. cbn. rewrite lookup_insert_eq. eexists. split; [done|].
  destruct (throttles d !! receipt_channel r); lia.
Qed.

Lemma spaced_action s hs i q h a input r s' :
  spaced s hs -> hs !! i = Some (q, h) -> allowed q h a -> perform a input s = (r, s') ->
  spaced s' (<[i := (q, after q h a r)]> hs).
Proof.
  intros Hs Hi Hal Hp. pose proof (action_grows _ _ _ _ _ Hp) as Hg. revert Hs.
  destruct a as [q'|request now|q' delivery now|ws key now|now|ws key t|delivery|delivery
    |q' receipt t|q' receipt t|receipt json t|q' completion|q' now]; cbn in Hp, Hal; cbn [after].
  - injection Hp as <- <-. by rewrite list_insert_id.
  - destruct (on_chat _ s) as [r0 s0] eqn:E. injection Hp as <- <-.
    assert (memories s0 = memories s) as Hm.
    { unfold on_chat in E. destruct (enqueue_slack_delivery _ _ _ _). by injection E as <- <-. }
    apply spaced_store with (h := h); [done|by destruct r0 as [[]|]|done|].
    apply held_covers, covers_chat; [by destruct r0 as [[]|]|done].
  - injection Hp as <- <-. by rewrite list_insert_id.
  - subst h. apply spaced_store with (h := Nothing); [done| |done|].
    + unfold on_chat in Hp. destruct (claim_slack_delivery _ _ _ _ _). by injection Hp as <- <-.
    + by destruct r as [[]|].
  - subst h. apply spaced_store with (h := Nothing); [done| |done|].
    + unfold on_chat in Hp. destruct (claim_next_due_slack_delivery_operation _ _ _).
      by injection Hp as <- <-.
    + by destruct r as [[[]|]|].
  - destruct Hal as (m & -> & _). apply spaced_store with (h := Claimed m); [done| |done|done].
    unfold on_chat in Hp. destruct (retry_slack_delivery _ _ _ _ _). by injection Hp as <- <-.
  - subst h. injection Hp as <- <-. apply spaced_store with (h := Claimed (Post delivery));
      [done|by destruct (post_answer input)|done|by destruct (post_answer input)].
  - subst h. injection Hp as <- <-. apply spaced_store with (h := Claimed (SlackQueue.Stop delivery));
      [done|by destruct (stop_answer input)|done|by destruct (stop_answer input)].
  - destruct Hal as [-> ->]. injection Hp as <- <-. intros Hs.
    destruct (set_throttle_remembers receipt t (memory s q)) as [Hself Hkeep].
    destruct (covers_memory s q (set_in_memory_channel_throttle receipt t (memory s q)))
      as [Hc Hpend]; [by auto|].
    eapply spaced_at; [done..| | |exact Hs].
    + apply Hpend; [by left|]. apply Hs.
    + intros _. left. rewrite memory_set. by rewrite decide_True.
  - destruct Hal as [-> ->]. injection Hp as <- <-. intros Hs.
    assert (stored_until (chat s) receipt t) as Hst.
    { destruct Hs as [_ Hs]. by apply (Forall_lookup_1 _ _ _ _ Hs Hi). }
    destruct (covers_memory s q (clear_in_memory_channel_throttle receipt t (memory s q)))
      as [Hc Hpend]; [by intros; apply clear_throttle_covers|].
    eapply spaced_at; [done..| |done|exact Hs].
    apply Hpend; [|apply Hs]. intros p. rewrite clear_keeps_pending. by left.
  - subst h. unfold on_chat in Hp. destruct (complete_slack_delivery _ _ _ _ _) as [r0 d] eqn:E.
    injection Hp as <- <-. apply spaced_store with (h := Marked receipt t); [done..|].
    destruct (complete_effect E) as [[-> [e ->]]|[-> ->]]; [by destruct s|].
    intros _. apply completed_stores.
  - destruct Hal as [-> ->]. injection Hp as <- <-. intros Hs.
    assert (covered s q (pc_receipt completion) (pc_next_available_at completion)) as Hcov.
    { destruct Hs as [_ Hs]. by apply (Forall_lookup_1 _ _ _ _ Hs Hi). }
    destruct (covers_memory s q (push_back completion (memory s q))) as [Hc Hpend]; [by left|].
    eapply spaced_at; [done..| |done|exact Hs]. apply Hpend; [|apply Hs]. cbn.
    intros p [Hin|Hin%list_elem_of_singleton]%elem_of_app; [by left|right]. subst p. by apply Hc.
  - destruct Hal as [-> ->]. unfold take_due_pending in Hp.
    destruct (remove_due now (pending_completions (memory s q))) as [[p rest]|] eqn:E;
      cbn in Hp; injection Hp as <- <-; intros Hs.
    + apply remove_due_spec in E.
      destruct (covers_memory s q (mkMemory (now_unix_seconds (memory s q)) rest
        (in_memory_channel_throttles (memory s q)))) as [Hc Hpend]; [by left|].
      eapply spaced_at; [done..| | |exact Hs].
      * apply Hpend; [|apply Hs]. intros p' Hin. left. rewrite E. by right.
      * intros _. cbn. apply Hc, Hs. rewrite E. by left.
    + destruct (covers_memory s q (memory s q)) as [Hc Hpend]; [by left|].
      eapply spaced_at; [done..| |done|exact Hs]. apply Hpend; [by left|apply Hs].
Qed.

Lemma spaced_stopped s q hs :
  spaced s hs -> spaced (process_stopped q s) (map (without_owner q Nothing) hs).
Proof.
  intros [Hp Hh].
  assert (forall q', q' <> q -> memory (process_stopped q s) q' = memory s q') as Hother.
  { intros q' Hne. unfold memory. cbn. by rewrite lookup_delete_ne. }
  split.
  - intros q' p. destruct (decide (q' = q)) as [->|Hne].
    + unfold memory at 1. cbn. rewrite lookup_delete_eq. cbn. by intros ?%elem_of_nil.
    + unfold covered. rewrite Hother by done. apply Hp.
  - apply Forall_map. eapply Forall_weaken; [exact Hh|]. intros [q' h].
    unfold without_owner. cbn. case_decide as Hq; [done|].
    destruct h; cbn; try done. unfold covered. by rewrite Hother.
Qed.

#[export] Instance spaced_discipline :
  Discipline (A := result SlackWebApiError (option ChannelMessageReceipt))
    perform call no_guard process_stopped environment Nothing allowed unguarded after spaced.
Proof.
  split.
  - apply call_follows.
  - done.
  - intros s hs q [Hp Hh]. split; [done|]. apply Forall_app. split; [done|]. by constructor.
  - intros *. apply spaced_action.
  - intros s hs i q h gs [Hp Hh] Hi ->. split; [done|]. by apply Forall_insert.
  - intros s hs q. apply spaced_stopped.
  - intros s hs x Hs. pose proof (environment_grows x s) as Hg.
    destruct x as [q now|request now c|request now c|ws now policy c]; cbn in Hg |- *.
    + destruct (covers_memory s q (set_now_unix_seconds now (memory s q))) as [Hc Hpend]; [by left|].
      eapply spaced_covers; [done| |done]. apply Hpend; [by left|apply Hs].
    + unfold on_chat in *. destruct (enqueue_slack_delivery _ _ _ _) as [r d].
      apply (spaced_chat s); [by destruct r as [[]|]|done..].
    + unfold on_chat in *. destruct (enqueue_slack_stop_stream_delivery _ _ _ _) as [r d].
      apply (spaced_chat s); [by destruct r as [[]|]|done..].
    + destruct (cleanup_retained_chat _ _ _ _ _) as [r d].
      by apply (spaced_chat s).
Qed.
End SpacedDiscipline.

(** ** Guarantees *)

Section Guarantees.
Context `{Sqlite} `{SqliteDates} `{ErrorText}.

Definition reached (ms : list SlackQueue.Move) : Shared := (history ms start).1.

Lemma reached_once ms : exists hs, sends_once (reached ms) hs.
Proof.
  assert (pool_ok allowed unguarded after sends_once (history ms start)) as (hs & Hs & _).
  { apply (histories_keep perform call no_guard process_stopped environment Nothing); [apply _|].
    exists (@nil (nat * Held)). split; [|done].
    split; cbn; try (by intros; set_solver); try done. by constructor. }
  by exists hs.
Qed.

Lemma reached_spaced ms : pending_covered (reached ms).
Proof.
  assert (pool_ok allowed unguarded after spaced (history ms start)) as (hs & [Hs _] & _).
  { apply (histories_keep perform call no_guard process_stopped environment Nothing); [apply _|].
    exists (@nil (nat * Held)). split; [|done].
    split; [|done]. intros q p. unfold memory. cbn. rewrite lookup_empty. by intros ?%elem_of_nil. }
  done.
Qed.

(** C6. At most once: in every history of concurrent deliveries and drains of any
    number of processes, with dropped calls, stopped processes, storage failures
    and any answers of Slack, a message is acknowledged by Slack at most once for
    each time its key was in the outbox.  Without a retention that removed the
    key, that is once. *)
Theorem acknowledged_at_most_once ms k :
  acknowledged k (happened (reached ms)) <= forgotten k (happened (reached ms)) + 1.
Proof. destruct (reached_once ms) as [hs Hs]. apply (o_once _ _ _ _ Hs). Qed.

(** Whatever Slack acknowledged is exactly a message that was accepted into
    the outbox, with its channel, thread, text and sender; and the receipt made
    of the answer carries the key of that message. *)
Theorem only_accepted_messages_are_sent ms m r :
  Acknowledged m r ∈ happened (reached ms) ->
  Accepted m ∈ happened (reached ms) /\ receipt_key r = message_key m.
Proof. destruct (reached_once ms) as [hs Hs]. apply (o_answers _ _ _ _ Hs). Qed.

(** Every stored receipt is an answer of Slack's to the accepted message of
    its key: nothing is reported as delivered that was not. *)
Theorem stored_receipts_are_answers ms k p :
  receipts (chat (reached ms)) !! k = Some p ->
  exists m r json t, Acknowledged m r ∈ happened (reached ms)
    /\ Accepted m ∈ happened (reached ms) /\ message_key m = k /\ p = receipt_row r json t.
Proof.
  destruct (reached_once ms) as [hs Hs]. intros Hp.
  destruct (o_receipts _ _ _ _ Hs k p Hp) as (m & r & json & t & Hin & Hk & ->).
  destruct (o_answers _ _ _ _ Hs m r Hin) as [Hacc Hk'].
  exists m, r, json, t. split_and!; [done..|congruence|done].
Qed.

(** While a message that Slack acknowledged is not recorded yet, the process
    that sent it posts nothing to its channel before the channel's interval is
    over: a delivery to that channel is either put off by the memory of the
    process or not eligible in the outbox. *)
Theorem unrecorded_channel_stays_throttled ms q p delivery now :
  p ∈ pending_completions (memory (reached ms) q) ->
  receipt_channel (pc_receipt p) = (dr_workspace_id delivery, dr_channel_id delivery) ->
  now < pc_next_available_at p -> now < i64_max ->
  (exists t, in_memory_channel_available_at delivery now (memory (reached ms) q) = Some t)
  \/ forall key row, q_channel_id row = dr_channel_id delivery ->
       to_i64 now < eligible_at (chat (reached ms)) (dr_workspace_id delivery, key) row.
Proof.
  intros Hin Hch Hnow Hmax. destruct (reached_spaced ms q p Hin) as [(t0 & Ht & Hle)|(t0 & Ht & Hle)];
    rewrite Hch in Ht.
  - left. exists t0. unfold in_memory_channel_available_at. rewrite Ht.
    destruct (Z.ltb_spec now t0); [done|lia].
  - right. intros key row Hrow. unfold eligible_at. cbn. rewrite Hrow, Ht. cbn.
    revert Hle. unfold to_i64. destruct (Z.leb_spec now i64_max), (Z.leb_spec (pc_next_available_at p) i64_max);
      lia.
Qed.

(** The throttle of a channel never goes back, whatever happens after. *)
Theorem throttle_never_goes_back ms ms' k t :
  throttles (chat (reached ms)) !! k = Some t ->
  exists t', throttles (chat (reached (ms ++ ms'))) !! k = Some t' /\ t <= t'.
Proof.
  intros Hk. assert (reached (ms ++ ms') = (history ms' (history ms start)).1) as ->.
  { unfold reached, history, run_moves. by rewrite foldl_app. }
  exact (history_grows ms' (history ms start) k t Hk).
Qed.

(** C14. A completion that was put off is stored as soon as the store answers: a
    drain at a time it is due stores the receipt, marks the row delivered if it
    is still there, takes the completion out of the memory and returns the
    receipt, after any history. *)
Theorem due_completion_is_stored ms q p rest input :
  remove_due (now_unix_seconds (memory (reached ms) q))
    (pending_completions (memory (reached ms) q)) = Some (p, rest) ->
  fault (conditions input) = None ->
  receipt_checks (receipt_key (pc_receipt p))
    (receipt_row (pc_receipt p) (pc_response_json p) (clock (conditions input))) = true ->
  exists s', run_alone perform (fun _ => input) (drain_due_once q) (reached ms)
      = (Ok (Some (receipt_to_channel (pc_receipt p))), s')
    /\ pending_completions (memory s' q) = rest
    /\ is_Some (receipts (chat s') !! receipt_key (pc_receipt p))
    /\ exists r, outbox (chat s') !! receipt_key (pc_receipt p) = Some r
         /\ q_status r = "delivered".
Proof.
  intros Hdue Hf Hck. destruct (reached_once ms) as [hs Hs]. set (s := reached ms) in *.
  assert (exists r, outbox (chat s) !! receipt_key (pc_receipt p) = Some r) as [row Hrow].
  { destruct (o_busy _ _ _ _ Hs (receipt_key (pc_receipt p))) as (r & Hr & _); [|eauto].
    apply elem_of_app. right. apply list_elem_of_fmap. exists (pc_receipt p). split; [done|].
    apply elem_of_app. right. rewrite (receipts_at s q). apply elem_of_app. left.
    apply list_elem_of_fmap. exists p. split; [done|]. rewrite (remove_due_spec _ _ _ _ Hdue). by left. }
  destruct (complete_ok (pc_receipt p) (pc_response_json p) (pc_next_available_at p)
    (conditions input) (chat s) Hf Hck) as [d Hd]; [intros r; apply (o_checked _ _ _ _ Hs)|].
  cbn. unfold take_due_pending. rewrite Hdue. cbn. unfold on_chat. cbn. rewrite Hd. cbn.
  eexists. split; [reflexivity|]. rewrite memory_set, decide_True by done.
  rewrite clear_keeps_pending. cbn. unfold memory. cbn. rewrite lookup_insert_eq. cbn.
  split; [done|]. destruct (complete_effect Hd) as [[_ [e He]]|[_ ->]]; [done|]. cbn. split.
  - destruct (receipts (chat s) !! receipt_key (pc_receipt p)) eqn:E; [by rewrite E|].
    rewrite lookup_insert_eq. done.
  - rewrite lookup_alter_eq, Hrow. cbn. eauto.
Qed.
End Guarantees.

(** *** A delivery that is asked for twice *)

Lemma outbox_checks_row k d now now' id id' clock clock' :
  outbox_checks k (post_message_row d now id clock)
  = outbox_checks k (post_message_row d now' id' clock').
Proof. done. Qed.

Lemma receipt_of_row receipt json clock :
  receipt_of (receipt_key receipt) (receipt_row receipt json clock) = Ok receipt.
Proof. unfold receipt_of. cbn. rewrite sender_parts. by destruct receipt. Qed.

Lemma request_of_row queued now id clock :
  request_of (message_key (Post queued)) (post_message_row queued now id clock) = Ok queued.
Proof. unfold request_of. cbn. rewrite sender_parts. by destruct queued. Qed.

Lemma memory_stays s d q : memory (with_chat s d) q = memory s q.
Proof. done. Qed.

Lemma clear_keeps_now receipt t m :
  now_unix_seconds (clear_in_memory_channel_throttle receipt t m) = now_unix_seconds m.
Proof. unfold clear_in_memory_channel_throttle. by repeat split_match. Qed.

(** A marked throttle that is cleared with the same time leaves a channel that
    was free as it was. *)
Lemma throttle_passes receipt delivery now m :
  in_memory_channel_available_at delivery now m = None ->
  in_memory_channel_available_at delivery now
    (clear_in_memory_channel_throttle receipt (u64_saturating_add now 1)
       (set_in_memory_channel_throttle receipt (u64_saturating_add now 1) m)) = None.
Proof.
  unfold in_memory_channel_available_at, clear_in_memory_channel_throttle. intros Hfree. cbn.
  rewrite lookup_insert_eq. set (k := (dr_workspace_id delivery, dr_channel_id delivery)) in *.
  destruct (decide (receipt_channel receipt = k)) as [<-|Hne].
  - destruct (Z.leb_spec (Z.max (default (u64_saturating_add now 1)
      (in_memory_channel_throttles m !! receipt_channel receipt)) (u64_saturating_add now 1))
      (u64_saturating_add now 1)) as [Hle|Hlt]; cbn.
    + by rewrite lookup_delete_eq.
    + rewrite lookup_insert_eq. revert Hfree Hlt.
      destruct (in_memory_channel_throttles m !! receipt_channel receipt) as [t|]; cbn; [|lia].
      destruct (Z.ltb_spec now t); [done|]. unfold u64_saturating_add.
      intros _ Hlt. destruct (Z.ltb_spec now (Z.max t (Z.min u64_max (now + 1)))); [|done]. lia.
  - destruct (_ <=? _); cbn; [rewrite lookup_delete_ne by done|];
      by rewrite lookup_insert_ne by done.
Qed.

#[local] Arguments claim_slack_delivery : simpl never.
#[local] Arguments complete_slack_delivery {_} : simpl never.
#[local] Arguments enqueue_slack_delivery : simpl never.
#[local] Arguments memory : simpl never.

Section Repeated.
Context `{Sqlite} `{ErrorText}.
Context (s : Shared) (q : nat) (request : ChannelMessageRequest) (queued : SlackDeliveryRequest)
        (input : Input) (posted : SlackPostedMessage).
#[local] Abbreviation now := (now_unix_seconds (memory s q)).
#[local] Abbreviation k := (dr_workspace_id queued, dr_request_dedupe_key queued).

(** The message is new, its channel is free, and the store takes it. *)
Record deliverable : Prop := {
  dl_request : request_to_delivery request = Ok queued;
  dl_row : outbox (chat s) !! k = None;
  dl_receipt : receipts (chat s) !! k = None;
  dl_memory : in_memory_channel_available_at queued now (memory s q) = None;
  dl_throttle : default 0 (throttles (chat s) !! (dr_workspace_id queued, dr_channel_id queued))
    <= to_i64 now;
  dl_fault : fault (conditions input) = None;
  dl_checks : outbox_checks k (post_message_row queued now 0 0) = true;
  dl_receipt_checks : receipt_checks k (receipt_row (post_receipt queued posted)
    (sp_response_body posted) (clock (conditions input))) = true;
  dl_answer : post_answer input = Ok posted
}.

Definition answered_once : result SlackWebApiError ChannelMessageReceipt :=
  Ok (receipt_to_channel (post_receipt queued posted)).

Lemma enqueue_new :
  deliverable -> exists id, enqueue_slack_delivery queued now (conditions input) (chat s)
    = (Ok true, with_outbox (chat s)
        (<[k := post_message_row queued now id (clock (conditions input))]> (outbox (chat s)))).
Proof.
  intros []. exists (next_id (outbox_ids (chat s))).
  unfold enqueue_slack_delivery, atomically, insert_outbox. rewrite dl_fault0.
  by rewrite (outbox_checks_row _ _ _ now _ 0 _ 0), dl_checks0, dl_row0.
Qed.

Lemma claim_new d row :
  deliverable -> receipts d !! k = None -> throttles d = throttles (chat s) ->
  outbox d !! k = Some row -> row = post_message_row queued now (q_id row) (q_created_at row) ->
  exists row', claim_slack_delivery (dr_workspace_id queued) (dr_request_dedupe_key queued) now
      (conditions input) d = (Ok (Ready queued), with_outbox d (<[k := row']> (outbox d)))
    /\ outbox_checks k row' = true.
Proof.
  intros [] Hr Ht Hrow Hnew. exists (claim_set (clock (conditions input)) row).
  assert (outbox_checks k row = true) as Hck by (by rewrite Hnew, (outbox_checks_row _ _ _ now _ 0 _ 0)).
  assert (outbox_checks k (claim_set (clock (conditions input)) row) = true) as Hck'.
  { apply checks_status; [done|set_solver|]. rewrite Hnew. cbn. lia. }
  split; [|done]. unfold claim_slack_delivery, atomically. rewrite dl_fault0.
  rewrite Hr, Hrow. cbn [ok_or].
  assert (is_pending row = true) as Hp by by rewrite Hnew.
  assert (String.eqb (q_operation row) "post_message" = true) as -> by by rewrite Hnew.
  rewrite Hp. cbn [negb]. cbv zeta.
  assert (eligible_at d k row <= to_i64 now) as Hel.
  { unfold eligible_at. rewrite Ht. rewrite Hnew at 1 2. cbn. lia. }
  destruct (Z.ltb_spec (to_i64 now) (eligible_at d k row)); [lia|].
  assert (request_of k row = Ok queued) as -> by (rewrite Hnew; apply request_of_row).
  unfold update_outbox. by rewrite Hrow, Hp, Hck'.
Qed.

Lemma first_delivery :
  deliverable -> exists s1, run_alone perform (fun _ => input) (deliver q request) s = (answered_once, s1)
    /\ happened s1 = happened s ++ [Accepted (Post queued);
         Acknowledged (Post queued) (post_receipt queued posted)]
    /\ receipts (chat s1) !! k = Some (receipt_row (post_receipt queued posted)
         (sp_response_body posted) (clock (conditions input)))
    /\ is_Some (outbox (chat s1) !! k)
    /\ now_unix_seconds (memory s1 q) = now
    /\ in_memory_channel_available_at queued now (memory s1 q) = None
    /\ forall c, c <> receipt_channel (post_receipt queued posted) ->
         throttles (chat s1) !! c = throttles (chat s) !! c.
Proof.
  intros Hd. destruct (enqueue_new Hd) as [id Henq]. pose proof Hd as [].
  unfold deliver. rewrite dl_request0. cbn. unfold on_chat at 1.
  rewrite Henq. cbn. change (memory (note _ _) q) with (memory s q). rewrite dl_memory0. cbn.
  unfold on_chat at 1. cbn.
  set (row := post_message_row queued now id (clock (conditions input))).
  destruct (claim_new (with_outbox (chat s) (<[k := row]> (outbox (chat s)))) row)
    as (row' & Hclaim & Hck'); [done..|by cbn; rewrite lookup_insert_eq|done|].
  rewrite Hclaim. cbn. rewrite dl_answer0. cbn. unfold on_chat. cbn.
  destruct (complete_ok (post_receipt queued posted) (sp_response_body posted)
    (u64_saturating_add now channel_interval_seconds) (conditions input)
    (with_outbox (with_outbox (chat s) (<[k := row]> (outbox (chat s))))
       (<[k := row']> (<[k := row]> (outbox (chat s)))))) as [d Hdone]; [done|done| |].
  { intros r. cbn. change (receipt_key (post_receipt queued posted)) with k.
    rewrite lookup_insert_eq. by intros [= <-]. }
  rewrite Hdone. cbn. destruct (complete_effect Hdone) as [[_ [e He]]|[_ ->]]; [done|].
  eexists. split; [reflexivity|]. rewrite memory_set, decide_True by done. cbn.
  change (receipt_key (post_receipt queued posted)) with k.
  split; [by rewrite <- app_assoc|]. split_and!.
  - by rewrite dl_receipt0, lookup_insert_eq.
  - by rewrite lookup_alter_eq, lookup_insert_eq.
  - rewrite clear_keeps_now, memory_stays, memory_set, decide_True by done. done.
  - rewrite memory_stays, memory_set, decide_True by done. by apply throttle_passes.
  - intros c Hc. by rewrite lookup_insert_ne.
Qed.

(** A delivery is idempotent: when a new message is delivered and the same
    request is made again, Slack is asked once and both calls return the same
    receipt, whatever Slack would answer the second time. *)
Theorem repeated_delivery_is_answered_once input' :
  deliverable -> fault (conditions input') = None ->
  exists s1 s2,
    run_alone perform (fun _ => input) (deliver q request) s = (answered_once, s1)
    /\ run_alone perform (fun _ => input') (deliver q request) s1 = (answered_once, s2)
    /\ happened s2 = happened s1
    /\ happened s1 = happened s ++ [Accepted (Post queued);
         Acknowledged (Post queued) (post_receipt queued posted)].
Proof.
  intros Hd Hf. destruct (first_delivery Hd) as (s1 & Hrun & Hh & Hr & [row Hrow] & Hnow & Hmem & _).
  pose proof Hd as []. exists s1. unfold deliver at 2. rewrite dl_request0. cbn. rewrite Hnow.
  unfold on_chat at 1, enqueue_slack_delivery, atomically, insert_outbox. rewrite Hf.
  rewrite (outbox_checks_row _ _ _ now _ 0 _ 0), dl_checks0, Hrow. cbn.
  rewrite memory_stays, Hmem. cbn. unfold on_chat, claim_slack_delivery, atomically. rewrite Hf.
  cbn. rewrite Hr.
  change k with (receipt_key (post_receipt queued posted)). rewrite receipt_of_row. cbn.
  eexists. split_and!; [done|reflexivity|done|done].
Qed.

(** C15. The interval between the messages of a channel is kept for the channel
    that Slack's answer names: a delivery to an address that Slack answers with
    another channel, as it does for a user of a direct message, leaves the
    throttle of that address as it was, in the store and in memory, so the next
    message to it is eligible in the same second. *)
Theorem throttle_follows_the_answer :
  deliverable -> sp_channel_id posted <> dr_channel_id queued ->
  exists s1, run_alone perform (fun _ => input) (deliver q request) s = (answered_once, s1)
    /\ throttles (chat s1) !! (dr_workspace_id queued, dr_channel_id queued)
       = throttles (chat s) !! (dr_workspace_id queued, dr_channel_id queued)
    /\ in_memory_channel_available_at queued now (memory s1 q) = None
    /\ forall key row, q_channel_id row = dr_channel_id queued ->
         eligible_at (chat s1) (dr_workspace_id queued, key) row
         = eligible_at (chat s) (dr_workspace_id queued, key) row.
Proof.
  intros Hd Hne. destruct (first_delivery Hd) as (s1 & Hrun & _ & _ & _ & _ & Hmem & Hth).
  assert (throttles (chat s1) !! (dr_workspace_id queued, dr_channel_id queued)
    = throttles (chat s) !! (dr_workspace_id queued, dr_channel_id queued)) as Hsame.
  { apply Hth. unfold receipt_channel. cbn. congruence. }
  exists s1. split_and!; [done..|]. intros key row Hrow. unfold eligible_at. cbn.
  by rewrite Hrow, Hsame.
Qed.
End Repeated.

(** ** Witnesses *)

Definition chat_sqlite : Sqlite := {|
  json_valid s := String.eqb s "{}"; json_extract_integer _ _ := None;
  json_extract_text _ _ := None; json_minify _ := None; json_elements _ := [];
  json_type _ _ := None; json_root_type _ := None; datetime_unixepoch _ := None |}.
Definition chat_dates : SqliteDates := {|
  seconds_after t n := Some (t + n); days_before t n := Some (t - n * 86400) |}.
Definition chat_errors : ErrorText := {| error_text _ := "storage" |}.

#[local] Existing Instances chat_sqlite chat_dates chat_errors.

Definition hello : ChannelMessageRequest :=
  mkMessageRequest "slack" "T1" "key-1" (Thread "C1" "1.0") "hello".
Definition hello_delivery : SlackDeliveryRequest :=
  mkDeliveryRequest "slack" "T1" "key-1" "C1" (Some "1.0") "hello" Bot.
Definition posted_to (channel : string) : SlackPostedMessage :=
  mkPosted channel None None None "2.0" "{}".
Definition hello_receipt : SlackDeliveryReceipt := post_receipt hello_delivery (posted_to "C1").
Definition meets (f : option SqlError) : Input :=
  mkInput (mkConditions f 100) (Ok (posted_to "C1")) (Err ChannelUnavailable).

(** A delivery that is recorded, and one whose completion meets contention. *)
Definition delivered_moves : list SlackQueue.Move :=
  [Other (SetNow 0 100); Start 0%nat (Deliver hello)] ++ repeat (Advance 0 (meets None)) 8.
Definition deferred_moves : list SlackQueue.Move :=
  [Other (SetNow 0 100); Start 0%nat (Deliver hello)] ++ repeat (Advance 0 (meets None)) 6
  ++ [Advance 0 (meets (Some Busy)); Advance 0 (meets None)].
Definition hello_completion : PendingSlackCompletion := mkCompletion hello_receipt "{}" 101 1 101.

Lemma only_accepted_messages_are_sent_witness :
  Accepted (Post hello_delivery) ∈ happened (reached delivered_moves)
  /\ receipt_key hello_receipt = message_key (Post hello_delivery).
Proof.
  apply (only_accepted_messages_are_sent delivered_moves). vm_compute. right. left.
Defined.

Lemma stored_receipts_are_answers_witness :
  exists m r json t, Acknowledged m r ∈ happened (reached delivered_moves)
    /\ Accepted m ∈ happened (reached delivered_moves) /\ message_key m = ("T1", "key-1")
    /\ receipt_row hello_receipt "{}" 100 = receipt_row r json t.
Proof. apply (stored_receipts_are_answers delivered_moves). vm_compute. reflexivity. Defined.

Lemma unrecorded_channel_stays_throttled_witness :
  (exists t, in_memory_channel_available_at hello_delivery 100 (memory (reached deferred_moves) 0) = Some t)
  \/ forall key row, q_channel_id row = "C1" ->
       to_i64 100 < eligible_at (chat (reached deferred_moves)) ("T1", key) row.
Proof.
  apply (unrecorded_channel_stays_throttled deferred_moves 0 hello_completion hello_delivery 100).
  - vm_compute. left.
  - reflexivity.
  - reflexivity.
  - reflexivity.
Defined.

Lemma throttle_never_goes_back_witness :
  exists t', throttles (chat (reached (delivered_moves ++ deferred_moves))) !! ("T1", "C1") = Some t'
    /\ 101 <= t'.
Proof. apply (throttle_never_goes_back delivered_moves deferred_moves). vm_compute. reflexivity. Defined.

Lemma due_completion_is_stored_witness :
  exists s', run_alone perform (fun _ => meets None) (drain_due_once 0)
      (reached (deferred_moves ++ [Other (SetNow 0 101)]))
      = (Ok (Some (receipt_to_channel hello_receipt)), s')
    /\ pending_completions (memory s' 0) = []
    /\ is_Some (receipts (chat s') !! ("T1", "key-1"))
    /\ exists r, outbox (chat s') !! ("T1", "key-1") = Some r /\ q_status r = "delivered".
Proof.
  apply (due_completion_is_stored (deferred_moves ++ [Other (SetNow 0 101)]) 0 hello_completion []);
    vm_compute; reflexivity.
Defined.

Lemma hello_deliverable request queued channel :
  (request, queued, channel) ∈ [(hello, hello_delivery, "C1");
    (mkMessageRequest "slack" "T1" "key-1" (DirectMessage "U1") "hello",
     mkDeliveryRequest "slack" "T1" "key-1" "U1" None "hello" Bot, "D1")] ->
  deliverable (mkShared empty_chat ∅ []) 0 request queued
    (mkInput (mkConditions None 100) (Ok (posted_to channel)) (Err ChannelUnavailable))
    (posted_to channel).
Proof.
  intros [Heq|Heq%list_elem_of_singleton]%elem_of_cons; simplify_eq; split; vm_compute; done.
Qed.

Lemma repeated_delivery_is_answered_once_witness :
  exists s1 s2,
    run_alone perform (fun _ => meets None) (deliver 0 hello) (mkShared empty_chat ∅ [])
      = (answered_once hello_delivery (posted_to "C1"), s1)
    /\ run_alone perform (fun _ => meets None) (deliver 0 hello) s1
      = (answered_once hello_delivery (posted_to "C1"), s2)
    /\ happened s2 = happened s1
    /\ happened s1 = [Accepted (Post hello_delivery);
         Acknowledged (Post hello_delivery) hello_receipt].
Proof.
  apply (repeated_delivery_is_answered_once (mkShared empty_chat ∅ []) 0 hello hello_delivery
    (meets None) (posted_to "C1") (meets None)); [|reflexivity].
  apply hello_deliverable. left.
Defined.

Lemma throttle_follows_the_answer_witness :
  let direct := mkDeliveryRequest "slack" "T1" "key-1" "U1" None "hello" Bot in
  exists s1, run_alone perform
      (fun _ => mkInput (mkConditions None 100) (Ok (posted_to "D1")) (Err ChannelUnavailable))
      (deliver 0 (mkMessageRequest "slack" "T1" "key-1" (DirectMessage "U1") "hello"))
      (mkShared empty_chat ∅ []) = (answered_once direct (posted_to "D1"), s1)
    /\ throttles (chat s1) !! ("T1", "U1") = throttles empty_chat !! ("T1", "U1")
    /\ in_memory_channel_available_at direct 0 (memory s1 0) = None
    /\ forall key row, q_channel_id row = "U1" ->
         eligible_at (chat s1) ("T1", key) row = eligible_at empty_chat ("T1", key) row.
Proof.
  intros direct.
  assert (deliverable (mkShared empty_chat ∅ []) 0
    (mkMessageRequest "slack" "T1" "key-1" (DirectMessage "U1") "hello") direct
    (mkInput (mkConditions None 100) (Ok (posted_to "D1")) (Err ChannelUnavailable))
    (posted_to "D1")) as Hd by (apply hello_deliverable; right; left).
  exact (throttle_follows_the_answer _ _ _ _ _ _ Hd ltac:(done)).
Defined.

End SlackSafety.
