(* ===== verification/SlackSources.v ===== *)
(** * Slack source references (crates/state/src/store.rs)

    What the store reads back of the Slack payload behind a queued event: its
    coordinates, from the columns of the source row, and the links, attachments
    and files found in the payload itself. *)

From stdpp Require Import base tactics list strings numbers gmap.
From Stdlib Require Import ZArith Lia Ascii.
From S2P Require Import Prelude.
From S2P Require Import Json.
From S2P Require Import ChatStore.

Module SlackSources.
Import ChatStore.

Record SlackSourceLink := mkLink {
  lk_url : string;
  lk_text : option string
}.

Record SlackSourceAttachment := mkAttachment {
  at_title : option string;
  at_text : option string
}.

Record SlackSourceFile := mkFile {
  fl_resource_id : option string;
  fl_name : option string;
  fl_title : option string;
  fl_media_type : option string;
  fl_size_bytes : option Z
}.

Record SlackSourceReferences := mkReferences {
  rf_found : bool;
  rf_event_kind : option string;
  rf_channel_id : option string;
  rf_thread_id : option string;
  rf_message_ts : option string;
  rf_user_id : option string;
  rf_text_preview : option string;
  rf_links : list SlackSourceLink;
  rf_attachments : list SlackSourceAttachment;
  rf_files : list SlackSourceFile
}.

Record SlackSourceMetadata := mkMetadata {
  sm_text_preview : option string;
  sm_links : list SlackSourceLink;
  sm_attachments : list SlackSourceAttachment;
  sm_files : list SlackSourceFile
}.

#[export] Instance link_eq_dec : EqDecision SlackSourceLink.
Proof. solve_decision. Defined.
#[export] Instance attachment_eq_dec : EqDecision SlackSourceAttachment.
Proof. solve_decision. Defined.
#[export] Instance file_eq_dec : EqDecision SlackSourceFile.
Proof. solve_decision. Defined.

(** ** Text *)

(** [str::split_whitespace]: every step takes at least one byte, so the length
    is enough fuel. *)
Fixpoint split_white (fuel : nat) (word l : list N) : list (list N) :=
  match fuel, l with
  | S fuel', b :: rest =>
      match white_space_prefix l with
      | Some n => reverse word :: split_white fuel' [] (drop n l)
      | None => split_white fuel' (b :: word) rest
      end
  | _, _ => [reverse word]
  end.

Definition split_whitespace (s : string) : list string :=
  List.filter (fun w => negb (is_empty w))
    (map of_bytes (split_white (String.length s) [] (to_bytes s))).

(** [str::trim_matches] for a set of ASCII characters. *)
Fixpoint trim_start_bytes (p : N -> bool) (l : list N) : list N :=
  match l with
  | [] => []
  | b :: rest => if p b then trim_start_bytes p rest else l
  end.

Definition trim_matches (p : N -> bool) (s : string) : string :=
  of_bytes (reverse (trim_start_bytes p (reverse (trim_start_bytes p (to_bytes s))))).

Definition starts_with (p s : string) : bool :=
  match strip_prefix p s with Some _ => true | None => false end.

(** Less-than, greater-than, both quotes, both parentheses, comma, full stop,
    semicolon and colon. *)
Definition is_link_punctuation (b : N) : bool :=
  existsb (N.eqb b) [60; 62; 34; 39; 41; 40; 44; 46; 59; 58]%N.

(** ** Links *)

Definition collect_text_links (text : option string) : list SlackSourceLink :=
  match text with
  | None => []
  | Some text =>
      omap (fun token =>
        let url := trim_matches is_link_punctuation token in
        if starts_with "http://" url || starts_with "https://" url
        then Some (mkLink url None) else None) (split_whitespace text)
  end.

(** The object's own link comes before those of its values. *)
Definition own_link (object : list (string * Value)) : list SlackSourceLink :=
  if bool_decide ((map_get "type" object ≫= as_str) = Some "link") then
    match map_get "url" object ≫= as_str with
    | Some url => [mkLink url (map_get "text" object ≫= as_str)]
    | None => []
    end
  else [].

Fixpoint block_links (value : Value) : list SlackSourceLink :=
  match value with
  | Arr items =>
      (fix go items := match items with
       | [] => []
       | item :: items => block_links item ++ go items
       end) items
  | Obj object =>
      own_link object ++
      (fix go fields := match fields with
       | [] => []
       | (_, value) :: fields => block_links value ++ go fields
       end) object
  | _ => []
  end.

Definition collect_block_links (value : option Value) : list SlackSourceLink :=
  match value with Some value => block_links value | None => [] end.

(** ** Attachments and files *)

Definition get_str (field : string) (value : Value) : option string := get field value ≫= as_str.

Definition attachment_link (attachment : Value) : option SlackSourceLink :=
  url ← get_str "title_link" attachment; Some (mkLink url (get_str "title" attachment)).

Definition attachment_of (attachment : Value) : option SlackSourceAttachment :=
  let title := get_str "title" attachment in
  let text := get_str "text" attachment in
  match title, text with
  | None, None => None
  | _, _ => Some (mkAttachment title text)
  end.

(** The attachments, and the links they add. *)
Definition collect_attachments (value : option Value) :
    list SlackSourceAttachment * list SlackSourceLink :=
  match value ≫= as_array with
  | Some attachments => (omap attachment_of attachments, omap attachment_link attachments)
  | None => ([], [])
  end.

Definition collect_file (file : Value) : SlackSourceFile :=
  mkFile (get_str "id" file) (get_str "name" file) (get_str "title" file)
    ((match get "mimetype" file with
      | Some value => Some value
      | None => get "filetype" file
      end) ≫= as_str)
    (get "size" file ≫= as_u64).

Definition collect_files (value : option Value) : list SlackSourceFile :=
  match value ≫= as_array with
  | Some files => map collect_file files
  | None => []
  end.

(** ** The references of an event *)

Definition slack_source_metadata `{Serde} (raw_payload_json : string) : SlackSourceMetadata :=
  let root := default Null (from_slice raw_payload_json) in
  let event := default root (get "event" root) in
  let text := get_str "text" event in
  let '(attachments, attachment_links) := collect_attachments (get "attachments" event) in
  mkMetadata text
    (collect_text_links text ++ collect_block_links (get "blocks" event) ++ attachment_links)
    attachments (collect_files (get "files" event)).

(** [From<SlackSourceReferenceRow>] *)
Definition references_of `{Serde} (row : SourceEventRow) : SlackSourceReferences :=
  let metadata := slack_source_metadata (s_raw_payload_json row) in
  mkReferences true (Some (s_event_kind row)) (s_channel_id row) (s_thread_ts row)
    (s_message_ts row) (s_user_id row) (sm_text_preview metadata) (sm_links metadata)
    (sm_attachments metadata) (sm_files metadata).

Definition no_references : SlackSourceReferences :=
  mkReferences false None None None None None None [] [] [].

Definition slack_source_references `{Serde} (workspace_id dedupe_key : string) (c : Conditions)
    (d : ChatDb) : result StateError SlackSourceReferences :=
  let? row := reading QueryChannelEventState c
    (fun d => source_events d !! (workspace_id, dedupe_key)) d in
  Ok (match row with Some row => references_of row | None => no_references end).

(** ** Properties *)

Lemma text_links_are_urls text link :
  link ∈ collect_text_links text ->
  lk_text link = None
  /\ exists rest, lk_url link = "http://" +:+ rest \/ lk_url link = "https://" +:+ rest.
Proof.
  destruct text as [text|]; cbn; [|by intros ?%elem_of_nil].
  rewrite list_elem_of_omap. intros (token & _ & Hlink).
  destruct (_ || _) eqn:E in Hlink; [|done]. injection Hlink as <-. split; [done|].
  unfold starts_with in E. bool_cases; split_match_in E; try done;
    match goal with H : strip_prefix _ _ = Some ?r |- _ => exists r;
      apply strip_prefix_spec in H; cbn; auto end.
Qed.

(** A value nested in another, at any depth. *)
Inductive within : Value -> Value -> Prop :=
| within_self v : within v v
| within_item v item items : item ∈ items -> within v item -> within v (Arr items)
| within_field v k value fields : (k, value) ∈ fields -> within v value -> within v (Obj fields).

(** The links of the blocks are exactly the link objects nested in them. *)
Lemma block_links_exact value link :
  link ∈ block_links value <->
  exists object, within (Obj object) value /\ link ∈ own_link object.
Proof.
  induction value as [|b|n|s|items IH|fields IH] using value_ind'; cbn.
  1-4: split; [by intros ?%elem_of_nil|]; intros (object & Hin & _); inversion Hin.
  - transitivity (exists item, item ∈ items /\ link ∈ block_links item).
    + clear IH. induction items as [|item items IHl].
      * split; [by intros ?%elem_of_nil|]. by intros (? & ?%elem_of_nil & _).
      * rewrite elem_of_app, IHl. setoid_rewrite elem_of_cons. naive_solver.
    + rewrite Forall_forall in IH. split.
      * intros (item & Hin & Hl). apply (IH item Hin) in Hl as (object & Hw & Ho).
        exists object. split; [by eapply within_item|done].
      * intros (object & Hw & Ho). inversion Hw; subst. exists item. split; [done|].
        apply IH; [done|]. eauto.
  - rewrite elem_of_app.
    assert (link ∈ (fix go fields := match fields with
       | [] => []
       | (_, value) :: fields => block_links value ++ go fields
       end) fields <-> exists k value, (k, value) ∈ fields /\ link ∈ block_links value) as ->.
    { clear IH. induction fields as [|[k value] fields IHl].
      - split; [by intros ?%elem_of_nil|]. by intros (? & ? & ?%elem_of_nil & _).
      - rewrite elem_of_app, IHl. setoid_rewrite elem_of_cons. naive_solver. }
    rewrite Forall_forall in IH. split.
    + intros [Ho|(k & value & Hin & Hl)]; [exists fields; split; [constructor|done]|].
      apply (IH (k, value) Hin) in Hl as (object & Hw & Ho).
      exists object. split; [by eapply within_field|done].
    + intros (object & Hw & Ho). inversion Hw; subst; [by left|right].
      exists k, value. split; [done|]. apply (IH (k, value)); [done|]. eauto.
Qed.

End SlackSources.
