(* ===== verification/SlackIntake.v ===== *)
(** * Slack intake (crates/channel/slack: normalize.rs, mention_filter.rs, intake.rs, worker.rs)

    From a Socket Mode envelope to a queued channel event: the worker that
    receives and acknowledges envelopes, the filter of mentions, the
    normalisation of the supported payloads, and the intake that stores an event
    once. *)

From stdpp Require Import base tactics list strings numbers gmap.
From Stdlib Require Import ZArith Lia Ascii.
From S2P Require Import Prelude.
From S2P Require Import Json.
From S2P Require Import Tables.
From S2P Require Import Channels.
From S2P Require Import ChatStore.

(** The envelope of Socket Mode, and serde_json at the derived implementations of
    the two envelope types. *)
Record SocketModeEnvelope := mkEnvelope {
  en_envelope_id : option string;
  en_envelope_type : string;
  en_payload : Value
}.

Class SocketJson := {
  envelope_from_str : string -> option SocketModeEnvelope;
  socket_envelope_from_str : string -> option string
}.

Module SlackIntake.
Import Channels ChatStore.

(** ** Mentions *)

Definition SlackMentionFilter : Type := gset string.

(** [text.split("<@")] *)
Fixpoint split_mentions (s : string) : list string :=
  match s with
  | EmptyString => [""]
  | String a rest =>
      match rest with
      | String b rest' =>
          if Ascii.eqb a "<" && Ascii.eqb b "@" then "" :: split_mentions rest'
          else match split_mentions rest with
               | piece :: pieces => String a piece :: pieces
               | [] => [String a ""]
               end
      | EmptyString => [String a ""]
      end
  end.

Definition matches_text (filter : SlackMentionFilter) (text : string) : bool :=
  existsb (fun mention => match split_once ">" mention with
    | Some (user_id, _) => bool_decide (user_id ∈ filter)
    | None => false
    end) (tail (split_mentions text)).

(** ** Normalisation *)

Inductive SlackNormalizeError :=
| InvalidEnvelope
| SerializePayload
| UnsupportedPayload (payload_type : string)
| MissingField (payload_type field : string)
| InvalidChannelEvent (source : ChannelContractError).

Record NormalizedSlackEvent := mkNormalized {
  ne_event : ChannelEvent;
  ne_source_event : SlackSourceEvent
}.

Definition optional_string (value : Value) (field : string) : option string :=
  get field value ≫= as_str.

Definition field (value : Value) (name payload_type : string) : result SlackNormalizeError Value :=
  ok_or (get name value) (MissingField payload_type name).

(** [.filter(|value| !value.is_empty())] *)
Definition non_empty (o : option string) : option string :=
  s ← o; if is_empty s then None else Some s.

Definition string_field (value : Value) (name payload_type : string) :
    result SlackNormalizeError string :=
  ok_or (non_empty (optional_string value name)) (MissingField payload_type name).

Definition nested_string (value : Value) (parent child payload_type : string) :
    result SlackNormalizeError string :=
  let? inner := field value parent payload_type in
  string_field inner child payload_type.

Definition dedupe_key (envelope_id event_id command_fallback interaction_fallback : option string) :
    result SlackNormalizeError string :=
  match non_empty envelope_id with
  | Some value => Ok ("slack:envelope:" +:+ value)
  | None =>
      match non_empty event_id with
      | Some value => Ok ("slack:event:" +:+ value)
      | None =>
          match command_fallback with
          | Some value => Ok ("slack:" +:+ value)
          | None =>
              match interaction_fallback with
              | Some value => Ok ("slack:" +:+ value)
              | None => Err (MissingField "socket_mode" "dedupe identifier")
              end
          end
      end
  end.

Definition event_user_matches_authorized_user (payload event : Value) : bool :=
  match optional_string event "user" with
  | None => false
  | Some event_user =>
      match get "authorizations" payload ≫= as_array with
      | Some authorizations =>
          existsb (fun authorization =>
            bool_decide (optional_string authorization "user_id" = Some event_user)) authorizations
      | None => false
      end
  end.

Definition is_ignored_events_api_event (payload event : Value) : bool :=
  default false (get "hidden" event ≫= as_bool)
  || Tables.is_some (optional_string event "bot_id")
  || Tables.is_some (optional_string event "subtype")
  || event_user_matches_authorized_user payload event.

Definition normalize_message_event (event : Value) (mention_filter : option SlackMentionFilter)
    (channel_id user_id thread_ts : string) : ChannelEventKind * ChannelReplyTarget :=
  let is_target_mention :=
    match mention_filter, optional_string event "text" with
    | Some filter, Some text => matches_text filter text
    | _, _ => false
    end in
  if is_target_mention then (MentionReceived, Thread channel_id thread_ts)
  else if bool_decide (optional_string event "channel_type" = Some "im")
  then (DirectMessageReceived, DirectMessage user_id)
  else (MessageReceived, Thread channel_id thread_ts).

Definition slack_reference (workspace_id channel_id ts : string) : string :=
  "slack://" +:+ workspace_id +:+ "/" +:+ channel_id +:+ "/" +:+ ts.

(** [ChannelEvent::new(..)?.with_text(..).with_source_details(..)?] *)
Definition build_event (connector_id workspace_id event_id dedupe_key : string)
    (kind : ChannelEventKind) (text : option string) (target : ChannelReplyTarget)
    (reference : string) : result SlackNormalizeError ChannelEvent :=
  let? event := map_err InvalidChannelEvent
    (new_event "slack" connector_id workspace_id event_id dedupe_key kind) in
  map_err InvalidChannelEvent (with_source_details target reference (with_text text event)).

Definition normalize_event_api (envelope : SocketModeEnvelope)
    (connector_id raw_payload_json : string) (mention_filter : option SlackMentionFilter) :
    result SlackNormalizeError NormalizedSlackEvent :=
  let payload := en_payload envelope in
  let? event := field payload "event" "events_api" in
  let? event_type := string_field event "type" "events_api" in
  let? workspace_id := string_field payload "team_id" "events_api" in
  let event_id := optional_string payload "event_id" in
  bail? is_ignored_events_api_event payload event
    with UnsupportedPayload ("events_api:" +:+ event_type) in
  let? channel_id := string_field event "channel" "events_api" in
  let? user_id := string_field event "user" "events_api" in
  let? message_ts := string_field event "ts" "events_api" in
  let thread_ts := default message_ts (optional_string event "thread_ts") in
  let message_text := optional_string event "text" in
  let? (kind, reply_target) :=
    (if String.eqb event_type "app_mention"
     then Ok (MentionReceived, Thread channel_id thread_ts)
     else if String.eqb event_type "message"
     then Ok (normalize_message_event event mention_filter channel_id user_id thread_ts)
     else Err (UnsupportedPayload ("events_api:" +:+ event_type))) in
  let? dedupe_key := dedupe_key (en_envelope_id envelope) event_id None None in
  let? normalized := build_event connector_id workspace_id (default message_ts event_id) dedupe_key
    kind message_text reply_target (slack_reference workspace_id channel_id message_ts) in
  Ok (mkNormalized normalized
        (mkSourceEvent workspace_id event_type dedupe_key (en_envelope_id envelope) event_id
           (Some channel_id) (Some thread_ts) (Some message_ts) (Some user_id) raw_payload_json)).

Definition normalize_slash_command (envelope : SocketModeEnvelope)
    (connector_id raw_payload_json : string) : result SlackNormalizeError NormalizedSlackEvent :=
  let payload := en_payload envelope in
  let? workspace_id := string_field payload "team_id" "slash_commands" in
  let? channel_id := string_field payload "channel_id" "slash_commands" in
  let? user_id := string_field payload "user_id" "slash_commands" in
  let? trigger_id := string_field payload "trigger_id" "slash_commands" in
  let timestamp := default trigger_id (optional_string payload "trigger_ts") in
  let fallback := "command:" +:+ trigger_id +:+ ":" +:+ workspace_id +:+ ":" +:+ channel_id
                    +:+ ":" +:+ user_id +:+ ":" +:+ timestamp in
  let? dedupe_key := dedupe_key (en_envelope_id envelope) None (Some fallback) None in
  let? normalized := build_event connector_id workspace_id trigger_id dedupe_key
    SlashCommandReceived None (Ephemeral channel_id user_id)
    (slack_reference workspace_id channel_id timestamp) in
  Ok (mkNormalized normalized
        (mkSourceEvent workspace_id "slash_command" dedupe_key (en_envelope_id envelope) None
           (Some channel_id) None (Some timestamp) (Some user_id) raw_payload_json)).

Definition normalize_interaction (envelope : SocketModeEnvelope)
    (connector_id raw_payload_json : string) : result SlackNormalizeError NormalizedSlackEvent :=
  let payload := en_payload envelope in
  let? workspace_id := nested_string payload "team" "id" "interactive" in
  let? channel_id := nested_string payload "channel" "id" "interactive" in
  let? user_id := nested_string payload "user" "id" "interactive" in
  let? actions := field payload "actions" "interactive" in
  let? action := ok_or (as_array actions ≫= head) (MissingField "interactive" "actions[0]") in
  let? action_id := string_field action "action_id" "interactive" in
  let? message_ts := nested_string payload "message" "ts" "interactive" in
  let callback_id := optional_string payload "callback_id" in
  let fallback := "interaction:" +:+ action_id +:+ ":" +:+ default message_ts callback_id in
  let? dedupe_key := dedupe_key (en_envelope_id envelope) None None (Some fallback) in
  let? normalized := build_event connector_id workspace_id message_ts dedupe_key
    InteractionReceived None (Thread channel_id message_ts)
    (slack_reference workspace_id channel_id message_ts) in
  Ok (mkNormalized normalized
        (mkSourceEvent workspace_id "interaction" dedupe_key (en_envelope_id envelope) callback_id
           (Some channel_id) (Some message_ts) (Some message_ts) (Some user_id) raw_payload_json)).

Definition normalize_socket_mode_envelope_with_mention_filter `{Serde} `{SocketJson}
    (raw_envelope connector_id : string) (mention_filter : option SlackMentionFilter) :
    result SlackNormalizeError NormalizedSlackEvent :=
  let? envelope := ok_or (envelope_from_str raw_envelope) InvalidEnvelope in
  let? raw_payload_json := ok_or (to_vec (en_payload envelope)) SerializePayload in
  if String.eqb (en_envelope_type envelope) "events_api"
  then normalize_event_api envelope connector_id raw_payload_json mention_filter
  else if String.eqb (en_envelope_type envelope) "slash_commands"
  then normalize_slash_command envelope connector_id raw_payload_json
  else if String.eqb (en_envelope_type envelope) "interactive"
  then normalize_interaction envelope connector_id raw_payload_json
  else Err (UnsupportedPayload (en_envelope_type envelope)).

(** ** Intake *)

Inductive SlackIntakeError :=
| NormalizeFailed (source : SlackNormalizeError)
| StateFailed (source : StateError).

Inductive SlackIntakeResult := Queued | Duplicate | Ignored.

Record SlackIntake := mkIntake {
  in_connector_id : string;
  in_mention_filter : SlackMentionFilter;
  in_allowed_dm_user_ids : gset string
}.

Definition allows_direct_message_sender (intake : SlackIntake) (normalized : NormalizedSlackEvent) :
    bool :=
  negb (bool_decide (ev_kind (ne_event normalized) = DirectMessageReceived))
  || bool_decide (in_allowed_dm_user_ids intake = ∅)
  || match se_user_id (ne_source_event normalized) with
     | Some user_id => bool_decide (user_id ∈ in_allowed_dm_user_ids intake)
     | None => false
     end.

Definition accept `{Serde} `{SocketJson} `{Sqlite} `{EventJson} (intake : SlackIntake)
    (raw_envelope : string) (c : Conditions) (d : ChatDb) :
    result SlackIntakeError SlackIntakeResult * ChatDb :=
  match normalize_socket_mode_envelope_with_mention_filter raw_envelope (in_connector_id intake)
          (Some (in_mention_filter intake)) with
  | Err (UnsupportedPayload _) => (Ok Ignored, d)
  | Err error => (Err (NormalizeFailed error), d)
  | Ok normalized =>
      if negb (allows_direct_message_sender intake normalized) then (Ok Ignored, d)
      else
        let '(inserted, d') :=
          persist_slack_source_event (ne_source_event normalized) (ne_event normalized) c d in
        (let? inserted := map_err StateFailed inserted in
         Ok (if inserted then Queued else Duplicate), d')
  end.

(** ** The receive worker *)

Inductive TransportReceive := Envelope (raw : string) | IgnoredItem | Disconnected.

Inductive SlackSocketError :=
| Open
| OpenResponse (reason : string)
| MissingSocketUrl
| WebSocketOpen
| NotConnected
| Receive
| Acknowledge
| ReconnectLimit.

Inductive SocketWorkerAction := Continue | Shutdown.

(** One turn of the transport: what [receive] gives, what the call that follows
    it ([acknowledge] or [open]) gives, and what the slow path then decides. *)
Record Turn := mkTurn {
  tn_received : result SlackSocketError TransportReceive;
  tn_called : result SlackSocketError unit;
  tn_processed : SocketWorkerAction
}.

(** What the worker does to the outside, in order. *)
Inductive WorkerEffect := Opened | Acknowledged (envelope_id : string) | Processed (raw : string).

(** The loop over the turns there are; [None] is a worker that still waits. *)
Fixpoint worker_loop `{SocketJson} (max_reconnects acknowledged reconnects : Z)
    (turns : list Turn) : list WorkerEffect * option (result SlackSocketError Z) :=
  match turns with
  | [] => ([], None)
  | turn :: turns =>
      match tn_received turn with
      | Err e => ([], Some (Err e))
      | Ok (Envelope raw_envelope) =>
          match socket_envelope_from_str raw_envelope with
          | None => worker_loop max_reconnects acknowledged reconnects turns
          | Some envelope_id =>
              if is_empty (trim envelope_id)
              then worker_loop max_reconnects acknowledged reconnects turns
              else match tn_called turn with
                | Err e => ([Acknowledged envelope_id], Some (Err e))
                | Ok _ =>
                    match tn_processed turn with
                    | Shutdown => ([Acknowledged envelope_id; Processed raw_envelope],
                                   Some (Ok (acknowledged + 1)))
                    | Continue =>
                        let '(effects, out) :=
                          worker_loop max_reconnects (acknowledged + 1) reconnects turns in
                        (Acknowledged envelope_id :: Processed raw_envelope :: effects, out)
                    end
                end
          end
      | Ok Disconnected =>
          if reconnects =? max_reconnects then ([], Some (Err ReconnectLimit))
          else match tn_called turn with
            | Err e => ([Opened], Some (Err e))
            | Ok _ =>
                let '(effects, out) :=
                  worker_loop max_reconnects acknowledged (reconnects + 1) turns in
                (Opened :: effects, out)
            end
      | Ok IgnoredItem => worker_loop max_reconnects acknowledged reconnects turns
      end
  end.

Definition run_socket_worker `{SocketJson} (max_reconnects : Z)
    (opened : result SlackSocketError unit) (turns : list Turn) :
    list WorkerEffect * option (result SlackSocketError Z) :=
  match opened with
  | Err e => ([Opened], Some (Err e))
  | Ok _ =>
      let '(effects, out) := worker_loop max_reconnects 0 0 turns in (Opened :: effects, out)
  end.

(** ** What a mention is *)

Lemma mention_ind (P : string -> Prop)
    (Hnil : P "") (Hmark : forall r, P r -> P ("<@" +:+ r))
    (Hcons : forall a s, strip_prefix "<@" (String a s) = None -> P s -> P (String a s)) :
  forall s, P s.
Proof.
  intros s. remember (String.length s) as n eqn:Hn. revert s Hn.
  induction (lt_wf n) as [n _ IH]. intros [|a s] ->; [done|].
  destruct (strip_prefix "<@" (String a s)) as [r|] eqn:Hp.
  - apply strip_prefix_spec in Hp. rewrite Hp. apply Hmark, (IH (String.length r)); [|done].
    rewrite Hp. cbn. lia.
  - apply Hcons; [done|]. apply (IH (String.length s)); [|done]. cbn. lia.
Qed.

Lemma split_mentions_nonempty s : exists piece pieces, split_mentions s = piece :: pieces.
Proof.
  destruct s as [|a s]; [by eexists _, _|]. cbn [split_mentions].
  destruct s as [|b rest]; [by eexists _, _|]. destruct (_ && _); [by eexists _, _|].
  destruct (split_mentions _); by eexists _, _.
Qed.

Lemma split_mentions_cons a s :
  strip_prefix "<@" (String a s) = None ->
  exists piece pieces, split_mentions s = piece :: pieces
    /\ split_mentions (String a s) = String a piece :: pieces.
Proof.
  intros Hp. destruct (split_mentions_nonempty s) as (piece & pieces & E).
  exists piece, pieces. split; [done|]. destruct s as [|b rest]; [cbn in E |- *; by simplify_eq|].
  replace (split_mentions (String a (String b rest))) with
    (if Ascii.eqb a "<" && Ascii.eqb b "@" then "" :: split_mentions rest
     else match split_mentions (String b rest) with
          | piece :: pieces => String a piece :: pieces
          | [] => [String a ""]
          end) by done.
  rewrite E. destruct (Ascii.eqb_spec a "<") as [->|]; [|done].
  by destruct (Ascii.eqb_spec b "@") as [->|].
Qed.

Lemma no_mark_app a s t :
  strip_prefix "<@" (String a s) = None -> first_byte t <> Some "@"%char ->
  strip_prefix "<@" (String a (s +:+ t)) = None.
Proof.
  intros Hs Ht. destruct (strip_prefix "<@" (String a (s +:+ t))) as [r|] eqn:E; [|done].
  apply strip_prefix_spec in E. cbn in E. injection E as -> E. destruct s as [|b s]; cbn in E.
  - by rewrite E in Ht.
  - injection E as -> _. by cbn in Hs.
Qed.

(** A mark splits the text, wherever it is. *)
Lemma split_mentions_app pre rest :
  split_mentions (pre +:+ "<@" +:+ rest) = split_mentions pre ++ split_mentions rest.
Proof.
  induction pre as [|r IH|a s Hp IH] using mention_ind; [done| |].
  - change (split_mentions (("<@" +:+ r) +:+ "<@" +:+ rest))
      with ("" :: split_mentions (r +:+ "<@" +:+ rest)). by rewrite IH.
  - destruct (split_mentions_cons a s Hp) as (x & xs & Ex & ->).
    destruct (split_mentions_cons a (s +:+ "<@" +:+ rest)) as (y & ys & Ey & Es).
    + by apply no_mark_app.
    + cbn in Es |- *. rewrite Es. rewrite IH, Ex in Ey. cbn in Ey |- *. by simplify_eq.
Qed.

Lemma concat_mentions s : String.concat "<@" (split_mentions s) = s.
Proof.
  induction s as [|r IH|a s Hp IH] using mention_ind; [done| |].
  - change (split_mentions ("<@" +:+ r)) with ("" :: split_mentions r).
    destruct (split_mentions_nonempty r) as (x & xs & Ex). rewrite Ex in IH |- *.
    rewrite concat_cons. by rewrite IH.
  - destruct (split_mentions_cons a s Hp) as (x & xs & Ex & ->). rewrite Ex in IH.
    rewrite <- IH. by destruct xs.
Qed.

Definition marked (s : string) : Prop := exists a b, s = a +:+ "<@" +:+ b.

Lemma unmarked_piece s : ~ marked s -> split_mentions s = [s].
Proof.
  induction s as [|r IH|a s Hp IH] using mention_ind; [done| |]; intros Hm.
  - destruct Hm. by exists "", r.
  - destruct (split_mentions_cons a s Hp) as (x & xs & Ex & ->). rewrite IH in Ex; [by simplify_eq|].
    intros (u & v & ->). destruct Hm. by exists (String a u), v.
Qed.

Lemma pieces_unmarked s : Forall (fun piece => ~ marked piece) (split_mentions s).
Proof.
  induction s as [|r IH|a s Hp IH] using mention_ind.
  - constructor; [|done]. by intros ([|? ?] & ? & [=]).
  - change (split_mentions ("<@" +:+ r)) with ("" :: split_mentions r).
    constructor; [|done]. by intros ([|? ?] & ? & [=]).
  - pose proof (concat_mentions s) as Hs.
    destruct (split_mentions_cons a s Hp) as (x & xs & Ex & ->). rewrite Ex in IH, Hs.
    apply Forall_cons in IH as [Hx Hxs]. constructor; [|done].
    intros ([|b u] & v & E); cbn in E; injection E as -> ->; [|destruct Hx; by exists u, v].
    rewrite <- Hs in Hp. by destruct xs.
Qed.

Lemma concat_app_mark l m r : l <> [] ->
  exists pre post, String.concat "<@" (l ++ m :: r) = pre +:+ "<@" +:+ m +:+ post.
Proof.
  assert (exists post, String.concat "<@" (m :: r) = m +:+ post) as [post Hpost].
  { destruct r as [|x r]; [exists ""; symmetry; apply append_empty|].
    rewrite concat_cons. eauto. }
  induction l as [|x l IH]; [done|]. intros _. destruct l as [|y l].
  - exists x, post. cbn [app]. by rewrite concat_cons, Hpost.
  - destruct IH as (pre & post' & IH); [done|]. cbn [app] in IH |- *. rewrite concat_cons, IH.
    exists (x +:+ "<@" +:+ pre), post'. by rewrite !append_assoc.
Qed.

(** The filter matches exactly the texts with a complete mention of a listed
    user. *)
Lemma matches_text_exact filter text :
  matches_text filter text = true <->
  exists pre user post, text = pre +:+ "<@" +:+ user +:+ ">" +:+ post
    /\ user ∈ filter /\ without ">" user = true /\ ~ marked user.
Proof.
  unfold matches_text. rewrite existsb_exists. split.
  - intros (mention & Hin & Hm). apply list_elem_of_In in Hin.
    destruct (split_once ">" mention) as [[user p]|] eqn:E; [|done]. bool_facts.
    apply split_once_spec in E as [-> Hw].
    destruct (split_mentions_nonempty text) as (x & xs & Ex).
    pose proof (pieces_unmarked text) as Hu. pose proof (concat_mentions text) as Ht.
    rewrite Ex in Hin, Hu, Ht. cbn in Hin.
    apply list_elem_of_split in Hin as (l & r & ->).
    destruct (concat_app_mark (x :: l) (user +:+ String ">" p) r) as (pre & post & E); [done|].
    exists pre, user, (p +:+ post). split_and!; [|done|done|].
    + rewrite <- Ht. cbn [app] in E. rewrite E. by rewrite append_assoc.
    + rewrite Forall_forall in Hu. intros (u & v & ->).
      apply (Hu ((u +:+ "<@" +:+ v) +:+ String ">" p)).
      * right. apply elem_of_app. right. by left.
      * exists u, (v +:+ String ">" p). by rewrite !append_assoc.
  - intros (pre & user & post & -> & Hin & Hw & Hm).
    rewrite split_mentions_app. destruct (split_mentions_nonempty pre) as (x & xs & ->).
    assert (exists piece pieces, split_mentions (user +:+ ">" +:+ post)
              = (user +:+ String ">" piece) :: pieces) as (piece & pieces & ->).
    { clear -Hm. induction user as [|r IH|a s Hp IH] using mention_ind.
      - destruct (split_mentions_cons ">" post) as (? & ? & _ & ?); [done|]. by eexists _, _.
      - destruct Hm. by exists "", r.
      - destruct IH as (piece & pieces & E).
        { intros (u & v & ->). destruct Hm. by exists (String a u), v. }
        destruct (split_mentions_cons a (s +:+ ">" +:+ post)) as (y & ys & Ey & Es).
        + by apply no_mark_app.
        + rewrite E in Ey. injection Ey as <- <-. by exists piece, pieces. }
    exists (user +:+ String ">" piece). split.
    + apply list_elem_of_In. cbn. apply elem_of_app. right. by left.
    + rewrite (proj2 (split_once_spec ">" _ user piece)); [|done]. by apply bool_decide_eq_true.
Qed.

(** ** What is normalised *)

(** The event and its source row are the same event: one workspace and key, and
    the channel, the user and the message are known. *)
Record addressed (n : NormalizedSlackEvent) : Prop := {
  ad_provider : ev_provider (ne_event n) = "slack";
  ad_workspace : se_workspace_id (ne_source_event n) = ev_workspace_id (ne_event n);
  ad_key : se_dedupe_key (ne_source_event n) = ev_dedupe_key (ne_event n);
  ad_channel : exists channel, se_channel_id (ne_source_event n) = Some channel /\ channel <> "";
  ad_user : exists user, se_user_id (ne_source_event n) = Some user /\ user <> "";
  ad_message : exists ts, se_message_ts (ne_source_event n) = Some ts
}.

Lemma string_field_ok value name payload_type s :
  string_field value name payload_type = Ok s <-> optional_string value name = Some s /\ s <> "".
Proof.
  unfold string_field. rewrite ok_or_ok. unfold non_empty.
  destruct (optional_string value name) as [t|]; cbn; [|split; [done|by intros [? _]]].
  destruct t as [|b t]; cbn.
  - split; [done|]. by intros [[= <-] ?].
  - split; [by intros [= <-]|]. by intros [[= <-] _].
Qed.

Lemma build_event_ok connector workspace id key kind text target reference event :
  build_event connector workspace id key kind text target reference = Ok event ->
  event = mkEvent "slack" connector workspace id key kind (text ≫= bounded_text) (Some target)
            (Some reference)
  /\ validate target = Ok tt.
Proof.
  unfold build_event, new_event, with_source_details. intros Hb.
  repeat (split_match_in Hb; simplify_eq/=; try done).
  split; [done|]. by destruct (validate target) as [[]|].
Qed.

Lemma normalized_addressed `{Serde} `{SocketJson} raw connector filter n :
  normalize_socket_mode_envelope_with_mention_filter raw connector filter = Ok n -> addressed n.
Proof.
  unfold normalize_socket_mode_envelope_with_mention_filter, normalize_event_api,
    normalize_slash_command, normalize_interaction, nested_string.
  intros Hn. peel Hn; simplify_eq;
    repeat match goal with
    | H : string_field _ _ _ = Ok _ |- _ => apply string_field_ok in H as [? ?]
    | H : build_event _ _ _ _ _ _ _ _ = Ok _ |- _ => apply build_event_ok in H as [-> _]
    end; split; cbn; eauto.
Qed.

(** ** What is accepted *)

Section Accept.
Context `{Serde} `{SocketJson} `{Sqlite} `{EventJson}.
Context (intake : SlackIntake).

Definition normalized_by (raw : string) : result SlackNormalizeError NormalizedSlackEvent :=
  normalize_socket_mode_envelope_with_mention_filter raw (in_connector_id intake)
    (Some (in_mention_filter intake)).

(** A message of a direct channel, as Slack sends it: its author and text. *)
Record direct_message (envelope : SocketModeEnvelope) (user : string) (text : option string)
    (event : Value) : Prop := {
  dm_api : en_envelope_type envelope = "events_api";
  dm_event : get "event" (en_payload envelope) = Some event;
  dm_type : optional_string event "type" = Some "message";
  dm_im : optional_string event "channel_type" = Some "im";
  dm_user : optional_string event "user" = Some user;
  dm_text : optional_string event "text" = text
}.

Definition mentions_target (text : option string) : bool :=
  match text with Some text => matches_text (in_mention_filter intake) text | None => false end.

Lemma direct_message_kind raw envelope user text event n :
  envelope_from_str raw = Some envelope -> direct_message envelope user text event ->
  normalized_by raw = Ok n ->
  ev_kind (ne_event n) = (if mentions_target text then MentionReceived else DirectMessageReceived)
  /\ se_user_id (ne_source_event n) = Some user.
Proof.
  intros Hr [Hapi Hev Htype Him Huser <-] Hn.
  unfold normalized_by, normalize_socket_mode_envelope_with_mention_filter in Hn.
  rewrite Hr in Hn. cbn [ok_or] in Hn. rewrite Hapi in Hn. cbn in Hn.
  unfold normalize_event_api, field in Hn. rewrite Hev in Hn. cbn [ok_or] in Hn.
  peel Hn;
    repeat match goal with
    | H : string_field _ _ _ = Ok _ |- _ => apply string_field_ok in H as [? ?]
    | H : build_event _ _ _ _ _ _ _ _ = Ok _ |- _ => apply build_event_ok in H as [-> _]
    end; simplify_eq/=; try congruence.
  match goal with H : normalize_message_event _ _ _ _ _ = _ |- _ => revert H end.
  unfold normalize_message_event, mentions_target. rewrite Him.
  destruct (optional_string event "text") as [t|]; [destruct (matches_text _ t)|];
    cbn; intros [= <- <-]; done.
Qed.

(** What [accept] stores of a normalised event. *)
Definition stored (n : NormalizedSlackEvent) (c : Conditions) (d : ChatDb) :
    result SlackIntakeError SlackIntakeResult * ChatDb :=
  let '(inserted, d') := persist_slack_source_event (ne_source_event n) (ne_event n) c d in
  (match inserted with
   | Ok inserted => Ok (if inserted then Queued else Duplicate)
   | Err e => Err (StateFailed e)
   end, d').

Lemma accept_normalized raw n c d :
  normalized_by raw = Ok n ->
  accept intake raw c d
  = if allows_direct_message_sender intake n then stored n c d else (Ok Ignored, d).
Proof.
  intros Hn. unfold accept, stored. unfold normalized_by in Hn. rewrite Hn.
  destruct (allows_direct_message_sender intake n); [|done]. cbn.
  by destruct (persist_slack_source_event _ _ c d) as [[b|e] d'].
Qed.

(** C12. The list of users allowed to send direct messages holds for direct
    messages without a mention only: a direct message of a user who is not on the
    list is ignored, unless its text mentions a target user; then it is stored as
    a mention, like a message of a channel. *)
Theorem direct_message_gate raw envelope user text event n c d :
  envelope_from_str raw = Some envelope -> direct_message envelope user text event ->
  normalized_by raw = Ok n ->
  in_allowed_dm_user_ids intake <> ∅ -> user ∉ in_allowed_dm_user_ids intake ->
  accept intake raw c d = if mentions_target text then stored n c d else (Ok Ignored, d).
Proof.
  intros Hr Hdm Hn Hne Hnot. rewrite (accept_normalized raw n) by done.
  destruct (direct_message_kind _ _ _ _ _ _ Hr Hdm Hn) as [Hk Hu].
  unfold allows_direct_message_sender. rewrite Hk, Hu.
  rewrite (bool_decide_eq_false_2 _ Hne), (bool_decide_eq_false_2 _ Hnot).
  by destruct (mentions_target text).
Qed.

(** ** Once *)

Lemma persist_queued source event c d d' :
  persist_slack_source_event source event c d = (Ok true, d') ->
  let k := (se_workspace_id source, se_dedupe_key source) in
  source_events d !! k = None
  /\ source_events d' = <[k := source_row source (clock c)]> (source_events d)
  /\ is_Some (event_queue d' !! event_key event)
  /\ is_Some (event_to_string event)
  /\ source_event_checks k (source_row source (clock c)) = true.
Proof.
  unfold persist_slack_source_event, atomically. cbn zeta. intros Hp.
  destruct (event_to_string event) as [payload|]; [|done].
  destruct (fault c); [done|].
  destruct (source_event_checks _ _) eqn:Hc; cbn in Hp; [|done].
  destruct (source_events d !! _) eqn:Hs; [done|].
  unfold insert_queue_event in Hp. destruct (queue_event_checks _ _); cbn in Hp; [|done].
  destruct (event_queue d !! event_key event) eqn:He; injection Hp as <-; cbn.
  - by rewrite He.
  - by rewrite lookup_insert_eq.
Qed.

(** As long as its source row is kept, an envelope is stored once: whatever
    becomes of the event, the same envelope is a duplicate and changes nothing. *)
Theorem accepted_again raw c d d1 c' d2 :
  accept intake raw c d = (Ok Queued, d1) ->
  (forall k, is_Some (source_events d1 !! k) -> is_Some (source_events d2 !! k)) ->
  fault c' = None -> accept intake raw c' d2 = (Ok Duplicate, d2).
Proof.
  intros Ha Hkept Hf. destruct (normalized_by raw) as [n|e] eqn:Hn.
  2: { unfold accept in Ha. unfold normalized_by in Hn. rewrite Hn in Ha. by destruct e. }
  rewrite (accept_normalized raw n) in Ha |- * by done.
  destruct (allows_direct_message_sender intake n); [|done]. unfold stored in Ha |- *.
  destruct (persist_slack_source_event _ _ c d) as [[[|]|e] d'] eqn:Hp; simplify_eq.
  destruct (persist_queued _ _ _ _ _ Hp) as (_ & Hs & _ & [payload Hpay] & Hc).
  unfold persist_slack_source_event, atomically. cbn zeta. rewrite Hpay, Hf.
  assert (source_event_checks (se_workspace_id (ne_source_event n), se_dedupe_key (ne_source_event n))
            (source_row (ne_source_event n) (clock c')) = true) as -> by exact Hc.
  destruct (Hkept (se_workspace_id (ne_source_event n), se_dedupe_key (ne_source_event n)))
    as [row Hrow]; [rewrite Hs; by rewrite lookup_insert_eq|]. cbn. by rewrite Hrow.
Qed.

End Accept.

(** ** The worker *)

(** What the worker does to the outside: it opens, acknowledges an envelope and
    then processes it, and nothing else; it stops only after an acknowledgement,
    an opening or a failed receive. *)
Inductive worker_trace `{SocketJson} : list WorkerEffect -> Prop :=
| trace_nil : worker_trace []
| trace_open l : worker_trace l -> worker_trace (Opened :: l)
| trace_failed id : is_empty (trim id) = false -> worker_trace [Acknowledged id]
| trace_envelope raw id l :
    socket_envelope_from_str raw = Some id -> is_empty (trim id) = false -> worker_trace l ->
    worker_trace (Acknowledged id :: Processed raw :: l).

Definition effects_of (f : WorkerEffect -> bool) (l : list WorkerEffect) : Z :=
  Z.of_nat (length (List.filter f l)).
Definition is_opened (e : WorkerEffect) : bool := match e with Opened => true | _ => false end.
Definition is_processed (e : WorkerEffect) : bool :=
  match e with Processed _ => true | _ => false end.

Lemma worker_loop_exact `{SocketJson} max turns acknowledged reconnects effects out :
  reconnects <= max ->
  worker_loop max acknowledged reconnects turns = (effects, out) ->
  worker_trace effects
  /\ reconnects + effects_of is_opened effects <= max
  /\ (forall n, out = Some (Ok n) -> n = acknowledged + effects_of is_processed effects).
Proof.
  revert acknowledged reconnects effects out.
  induction turns as [|turn turns IH]; intros ack rec effects out Hle; cbn;
    [by intros [= <- <-]; split_and!; [constructor|unfold effects_of; cbn; lia|done]|].
  destruct (tn_received turn) as [[raw| |]|e]; [| |
    |by intros [= <- <-]; split_and!; [constructor|unfold effects_of; cbn; lia|done]].
  - destruct (socket_envelope_from_str raw) as [id|] eqn:Er; [|by apply IH].
    destruct (is_empty (trim id)) eqn:Et; [by apply IH|].
    destruct (tn_called turn) as [u|e].
    2: { intros [= <- <-]. split_and!; [by constructor|unfold effects_of; cbn; lia|done]. }
    destruct (tn_processed turn).
    + destruct (worker_loop max (ack + 1) rec turns) as [l o] eqn:E. intros [= <- <-].
      destruct (IH _ _ _ _ Hle E) as (Ht & Ho & Hn). split_and!.
      * by constructor.
      * exact Ho.
      * intros n Hs. rewrite (Hn n Hs). unfold effects_of. cbn. lia.
    + intros [= <- <-]. split_and!; [by repeat constructor|unfold effects_of; cbn; lia|].
      intros n [= <-]. unfold effects_of. cbn. lia.
  - by apply IH.
  - destruct (Z.eqb_spec rec max) as [->|Hne].
    { intros [= <- <-]. split_and!; [constructor|unfold effects_of; cbn; lia|done]. }
    destruct (tn_called turn) as [u|e].
    2: { intros [= <- <-]. split_and!; [by repeat constructor| |done].
         unfold effects_of. cbn. lia. }
    destruct (worker_loop max ack (rec + 1) turns) as [l o] eqn:E. intros [= <- <-].
    assert (rec + 1 <= max) as Hle' by lia.
    destruct (IH _ _ _ _ Hle' E) as (Ht & Ho & Hn). split_and!; [by constructor| |exact Hn].
    unfold effects_of in *. cbn in *. lia.
Qed.

(** Whatever the transport does, the worker acknowledges every envelope
    before it processes it, processes nothing it did not acknowledge, reconnects at
    most as often as its limit, and reports how many envelopes it processed. *)
Theorem worker_acknowledges_first `{SocketJson} max opened turns effects out :
  0 <= max -> run_socket_worker max opened turns = (effects, out) ->
  worker_trace effects
  /\ effects_of is_opened effects <= max + 1
  /\ (forall n, out = Some (Ok n) -> n = effects_of is_processed effects).
Proof.
  unfold run_socket_worker. intros Hmax. destruct opened as [u|e].
  - destruct (worker_loop max 0 0 turns) as [l o] eqn:E. intros [= <- <-].
    destruct (worker_loop_exact _ _ _ _ _ _ Hmax E) as (Ht & Ho & Hn).
    split_and!; [by constructor| |exact Hn]. unfold effects_of in *. cbn in *. lia.
  - intros [= <- <-]. split_and!; [by repeat constructor| |done]. unfold effects_of. cbn. lia.
Qed.

(** ** Witnesses *)

Section Witnesses.

Definition hello_event : Value := json_object
  [("type", Str "message"); ("channel_type", Str "im"); ("channel", Str "D1"); ("user", Str "U9");
   ("ts", Str "1.0"); ("text", Str "<@U1> hello")].
Definition hello_payload : Value := json_object [("team_id", Str "T1"); ("event", hello_event)].
Definition hello_envelope : SocketModeEnvelope := mkEnvelope (Some "E1") "events_api" hello_payload.

Definition hello_serde : Serde := serde_of [hello_payload].
Definition hello_socket : SocketJson := {|
  envelope_from_str s := if String.eqb s "hello" then Some hello_envelope else None;
  socket_envelope_from_str s := if String.eqb s "hello" then Some "E1" else None
|}.
Definition hello_sqlite : Sqlite := {|
  json_valid _ := true; json_extract_integer _ _ := None;
  json_extract_text _ _ := None; json_minify _ := None; json_elements _ := [];
  json_type _ _ := None; json_root_type _ := None; datetime_unixepoch _ := None |}.
Definition hello_events : EventJson := {|
  event_to_string e := Some "{}"; event_from_str s := None
|}.

Definition hello_intake : SlackIntake := mkIntake "slack" {["U1"]} {["U2"]}.
#[local] Existing Instance hello_serde.
#[local] Existing Instance hello_socket.
#[local] Existing Instance hello_events.
#[local] Existing Instance hello_sqlite.

Definition hello_conditions : Conditions := mkConditions None 100.

Definition hello_normalized : NormalizedSlackEvent :=
  match normalized_by hello_intake "hello" with
  | Ok n => n
  | Err _ => mkNormalized (mkEvent "" "" "" "" "" MessageReceived None None None)
               (mkSourceEvent "" "" "" None None None None None None "")
  end.

(** User U9 is not on the list, and the message comes in. *)
Lemma direct_message_gate_witness :
  accept hello_intake "hello" hello_conditions empty_chat
  = stored hello_normalized hello_conditions empty_chat
  /\ (accept hello_intake "hello" hello_conditions empty_chat).1 = Ok Queued.
Proof.
  split; [|by vm_compute].
  assert (mentions_target hello_intake (Some "<@U1> hello") = true) as Hm by (by vm_compute).
  pose proof (direct_message_gate hello_intake "hello" hello_envelope "U9" (Some "<@U1> hello")
    hello_event hello_normalized hello_conditions empty_chat) as Hg.
  rewrite Hm in Hg. apply Hg; [done|by split|by vm_compute|by vm_compute|].
  refine (bool_decide_eq_false_1 _ _). by vm_compute.
Defined.

Lemma accepted_again_witness :
  exists d1, accept hello_intake "hello" hello_conditions empty_chat = (Ok Queued, d1)
    /\ accept hello_intake "hello" (mkConditions None 200) d1 = (Ok Duplicate, d1).
Proof.
  exists (accept hello_intake "hello" hello_conditions empty_chat).2.
  assert (accept hello_intake "hello" hello_conditions empty_chat
          = (Ok Queued, (accept hello_intake "hello" hello_conditions empty_chat).2)) as Ha
    by (by vm_compute).
  split; [exact Ha|].
  exact (accepted_again hello_intake "hello" hello_conditions empty_chat _ (mkConditions None 200) _
           Ha (fun k Hk => Hk) eq_refl).
Defined.

End Witnesses.

End SlackIntake.
