(* ===== verification/Agents.v ===== *)
(** * The agent contract (crates/agent/contract)

    The bounded unit of work the runtime hands to an agent backend, who asked for
    it and where it came from, and what an agent gives back. *)

From stdpp Require Import base tactics list strings numbers.
From Stdlib Require Import ZArith Ascii.
From S2P Require Import Prelude.

Module Agents.

Inductive InvocationSource :=
| FromChannelEvent (provider workspace_id event_id dedupe_key : string)
    (source_reference : option string)
| ScheduledRun (job_id run_id scheduled_for : string)
| TrustedOperator (request_id : string)
| InternalService (service request_id : string).

(** [InvocationPrincipal], with the identity it holds. *)
Inductive InvocationPrincipal :=
| ChannelActor (provider workspace_id actor_id : string)
| Service (service : string).

Inductive SessionMode := Fresh | Resume (thread_id : string).

Inductive ConversationKind := ChannelConversation | ThreadConversation | DirectConversation.

Inductive ChannelReplyStrategy := DynamicTool | FinalAnswer.

Record ChannelTaskContext := mkTaskContext {
  tc_provider : string;
  tc_workspace_id : string;
  tc_conversation_key : string;
  tc_conversation_kind : ConversationKind;
  tc_reply_strategy : ChannelReplyStrategy;
  tc_message_text : option string;
  tc_channel_id : option string;
  tc_thread_id : option string;
  tc_message_ts : option string;
  tc_user_id : option string;
  tc_recent_context : option string;
  tc_conversation_summary : option string
}.

Record PreviousSuccessContext := mkPreviousSuccess {
  ps_content : string;
  ps_was_truncated : bool
}.

Inductive ToolPolicy := NoTools | NamedSet (names : list string).

Inductive FeedbackTarget :=
| FeedbackChannel (conversation_kind : ConversationKind) (channel_id : string)
    (thread_id message_ts : option string).

Record AgentTask := mkTask {
  t_task_id : string;
  t_instruction : string;
  t_source : InvocationSource;
  t_principal : InvocationPrincipal;
  t_session : SessionMode;
  t_channel : option ChannelTaskContext;
  t_previous_success : option PreviousSuccessContext;
  t_tool_policy : ToolPolicy;
  t_feedback_target : option FeedbackTarget
}.

#[export] Instance conversation_kind_eq_dec : EqDecision ConversationKind.
Proof. solve_decision. Defined.
#[export] Instance session_mode_eq_dec : EqDecision SessionMode.
Proof. solve_decision. Defined.

(** [AgentTask::validate] *)
Definition validate (task : AgentTask) : result string unit :=
  match t_source task with
  | ScheduledRun _ _ _ =>
      bail? negb (bool_decide (t_session task = Fresh))
        with "scheduled_run_requires_fresh_session" in
      match t_channel task with
      | Some _ => Err "scheduled_run_disallows_channel_context"
      | None =>
          match t_feedback_target task with
          | Some _ => Err "scheduled_run_disallows_feedback_target"
          | None => Ok tt
          end
      end
  | _ => Ok tt
  end.

Inductive AgentTaskResult :=
| Draft (content : string) (codex_thread_id : option string)
| AcceptedDispatch (codex_thread_id : option string).

Definition draft_content (r : AgentTaskResult) : option string :=
  match r with Draft content _ => Some content | AcceptedDispatch _ => None end.

Definition codex_thread_id (r : AgentTaskResult) : option string :=
  match r with Draft _ id => id | AcceptedDispatch id => id end.

Definition with_codex_thread_id (thread_id : string) (r : AgentTaskResult) : AgentTaskResult :=
  match r with
  | Draft content _ => Draft content (Some thread_id)
  | AcceptedDispatch _ => AcceptedDispatch (Some thread_id)
  end.

Definition scheduled_final_text (max_bytes : Z) (r : AgentTaskResult) : result string string :=
  match draft_content r with
  | None => Err "missing_result"
  | Some content =>
      let content := trim content in
      bail? is_empty content with "missing_result" in
      bail? max_bytes <? len content with "result_too_large" in
      Ok content
  end.

Lemma scheduled_final_text_exact max_bytes r text :
  scheduled_final_text max_bytes r = Ok text <->
  exists content, draft_content r = Some content /\ text = trim content
    /\ text <> "" /\ len text <= max_bytes.
Proof.
  unfold scheduled_final_text. destruct (draft_content r) as [content|].
  - rewrite !bail_ok. split.
    + intros (He & Hl & [= <-]). exists content. split_and!; [done|done| |].
      * intros E. by rewrite E in He.
      * bool_facts. lia.
    + intros (content' & [= <-] & -> & He & Hl). split_and!; [|by apply Z.ltb_ge|done].
      by destruct (trim content).
  - split; [done|]. by intros (? & ? & _).
Qed.

End Agents.
