(* ===== verification/Conversations.v ===== *)
(** * What the dispatcher makes of an event (crates/runtime/src/lib.rs)

    The pure half of the dispatch of a channel event: which conversation it
    belongs to, the task an agent gets for it, the context the task carries, and
    the summary of the conversation that is kept for the next one. *)

From stdpp Require Import base tactics list strings numbers pretty gmap.
From Stdlib Require Import ZArith Lia Ascii.
From S2P Require Import Prelude.
From S2P Require Import Json.
From S2P Require Import Tables.
From S2P Require Import Channels.
From S2P Require Import ChatStore.
From S2P Require Import SlackQueue.
From S2P Require Import SlackSources.
From S2P Require Import Agents.

(** [serde_json::to_string_pretty] *)
Class PrettyJson := { to_string_pretty : Value -> option string }.

Module Conversations.
Import Channels ChatStore SlackSources Agents.

(** ** Conversations *)

Definition is_dispatchable_slack_event (kind : ChannelEventKind) : bool :=
  match kind with
  | MessageReceived | MentionReceived | DirectMessageReceived => true
  | _ => false
  end.

Definition source_channel_id (event : ChannelEvent) : option string :=
  match ev_reply_target event with
  | Some (Channel channel_id) | Some (Thread channel_id _) => Some channel_id
  | _ => None
  end.

Definition source_thread_id (event : ChannelEvent) : option string :=
  match ev_reply_target event with
  | Some (Thread _ thread_id) => Some thread_id
  | _ => None
  end.

(** [a.or_else(|| b)] *)
Definition or_else {A} (a b : option A) : option A :=
  match a with Some _ => a | None => b end.

Definition dm_conversation (provider workspace_id channel_id user_id : string) :
    string * ChannelConversationKey :=
  ("slack:" +:+ workspace_id +:+ ":dm:" +:+ channel_id +:+ ":" +:+ user_id,
   mkConversationKey provider workspace_id "dm" (Some channel_id) None (Some user_id)).

Definition thread_conversation (provider workspace_id channel_id thread_id : string) :
    string * ChannelConversationKey :=
  ("slack:" +:+ workspace_id +:+ ":thread:" +:+ channel_id +:+ ":" +:+ thread_id,
   mkConversationKey provider workspace_id "thread" (Some channel_id) (Some thread_id) None).

Definition plain_conversation (provider workspace_id channel_id : string) :
    string * ChannelConversationKey :=
  ("slack:" +:+ workspace_id +:+ ":channel:" +:+ channel_id,
   mkConversationKey provider workspace_id "channel" (Some channel_id) None None).

Definition channel_conversation_key (event : ChannelEvent) (source : SlackSourceReferences) :
    option (string * ChannelConversationKey) :=
  if negb (String.eqb (ev_provider event) "slack") then None
  else
    let channel_id := or_else (rf_channel_id source) (source_channel_id event) in
    let thread_id := or_else (rf_thread_id source) (source_thread_id event) in
    let threaded :=
      match channel_id, thread_id with
      | Some channel_id, Some thread_id =>
          Some (thread_conversation (ev_provider event) (ev_workspace_id event) channel_id thread_id)
      | Some channel_id, None =>
          Some (plain_conversation (ev_provider event) (ev_workspace_id event) channel_id)
      | None, _ => None
      end in
    match ev_kind event, channel_id, rf_user_id source with
    | DirectMessageReceived, Some channel_id, Some user_id =>
        Some (dm_conversation (ev_provider event) (ev_workspace_id event) channel_id user_id)
    | _, _, _ => threaded
    end.

(** The targets of the reply, and the conversation with its fallback, as
    [dispatch] computes them. *)
Definition target_channel_id (event : ChannelEvent) : option string :=
  match ev_reply_target event with
  | Some (Thread channel_id _) | Some (Channel channel_id) => Some channel_id
  | _ => None
  end.

Definition target_thread_id (event : ChannelEvent) : option string :=
  match ev_reply_target event with Some (Thread _ thread_id) => Some thread_id | _ => None end.

Definition conversation_of (event : ChannelEvent) (source : SlackSourceReferences) :
    string * ChannelConversationKey :=
  default
    (ev_provider event +:+ ":" +:+ ev_workspace_id event +:+ ":" +:+ ev_dedupe_key event,
     mkConversationKey (ev_provider event) (ev_workspace_id event) "channel"
       (target_channel_id event) None None)
    (channel_conversation_key event source).

(** ** Tools and tasks *)

Definition CHANNEL_DYNAMIC_TOOL_NAMES : list string :=
  ["channel_reply_to_event"; "channel_send_message"; "channel_get_thread_context";
   "channel_get_recent_messages"; "channel_get_current_event";
   "channel_get_current_conversation"; "channel_get_context_pack";
   "channel_get_delivery_status"; "channel_get_message"; "channel_get_resource_info";
   "channel_read_resource_text"; "channel_download_resource"; "channel_search_users";
   "channel_get_user"; "channel_resolve_user"; "channel_search_channels";
   "channel_get_channel"; "channel_resolve_channel"; "channel_list_senders";
   "channel_list_workspaces"; "channel_get_connector_status"; "channel_reply_to_thread"].

Definition SCHEDULE_DYNAMIC_TOOL_NAMES : list string :=
  ["schedule_create"; "schedule_get"; "schedule_list"; "schedule_update"; "schedule_pause";
   "schedule_resume"; "schedule_delete"].

Definition conversation_kind_of (conversation : ChannelConversationKey) : ConversationKind :=
  if String.eqb (ck_conversation_kind conversation) "dm" then DirectConversation
  else if String.eqb (ck_conversation_kind conversation) "thread" then ThreadConversation
  else ChannelConversation.

Definition build_slack_agent_task (event : ChannelEvent) (source : SlackSourceReferences)
    (conversation_key : string) (conversation : ChannelConversationKey)
    (resume_thread_id recent_context conversation_summary channel_id thread_id : option string) :
    AgentTask :=
  let conversation_kind := conversation_kind_of conversation in
  let reply_strategy :=
    if bool_decide (conversation_kind = DirectConversation) then FinalAnswer else DynamicTool in
  mkTask
    ("slack:" +:+ ev_workspace_id event +:+ ":" +:+ ev_dedupe_key event)
    "Prepare a bounded private draft or action plan for the queued Slack event."
    (FromChannelEvent (ev_provider event) (ev_workspace_id event) (ev_event_id event)
       (ev_dedupe_key event) (ev_source_reference event))
    (match rf_user_id source with
     | None => Service "codeoff:slack-ingress"
     | Some user_id => ChannelActor (ev_provider event) (ev_workspace_id event) user_id
     end)
    (match resume_thread_id with None => Fresh | Some thread_id => Resume thread_id end)
    (Some (mkTaskContext (ev_provider event) (ev_workspace_id event) conversation_key
             conversation_kind reply_strategy (ev_text event) channel_id thread_id
             (rf_message_ts source) (rf_user_id source) recent_context conversation_summary))
    None
    (NamedSet (CHANNEL_DYNAMIC_TOOL_NAMES
               ++ match rf_user_id source with
                  | Some _ => SCHEDULE_DYNAMIC_TOOL_NAMES
                  | None => []
                  end))
    ((fun channel_id =>
        FeedbackChannel conversation_kind channel_id thread_id (rf_message_ts source))
     <$> channel_id).

(** ** The summary of a conversation *)

Definition CHANNEL_CONVERSATION_SUMMARY_LIMIT : Z := 2000.

Definition newline : string := String "010" EmptyString.

Definition non_empty_trimmed (value : option string) : option string :=
  value ← value;
  let value := trim value in
  if is_empty value then None else Some value.

(** [str::trim_start] *)
Definition trim_start (s : string) : string :=
  of_bytes (drop_while_white white_space_prefix (String.length s) (to_bytes s)).

Fixpoint drop_bytes (n : nat) (s : string) : string :=
  match n, s with
  | S n, String _ rest => drop_bytes n rest
  | _, _ => s
  end.

(** [while !summary.is_char_boundary(start) { start += 1 }] from a start inside
    the text. *)
Fixpoint to_char_boundary (s : string) : string :=
  match s with
  | String b rest => if is_continuation b then to_char_boundary rest else s
  | EmptyString => s
  end.

Definition bound_summary (summary : string) : string :=
  if len summary <=? CHANNEL_CONVERSATION_SUMMARY_LIMIT then summary
  else trim_start (to_char_boundary
         (drop_bytes (Z.to_nat (len summary - CHANNEL_CONVERSATION_SUMMARY_LIMIT)) summary)).

Definition section (title : string) (value : option string) : list string :=
  match non_empty_trimmed value with
  | Some value => [title +:+ newline +:+ value]
  | None => []
  end.

Definition updated_conversation_summary (previous_summary user_message assistant_reply :
    option string) : option string :=
  let sections := section "Previous context:" previous_summary
                  ++ section "Latest user message:" user_message
                  ++ section "Latest assistant reply:" assistant_reply in
  match sections with
  | [] => None
  | _ => Some (bound_summary ("Conversation State" +:+ newline
                              +:+ String.concat (newline +:+ newline) sections))
  end.

(** ** The context of the message *)

Inductive ChannelContextProviderError :=
| ContextRequestFailed (message : string)
| ContextRateLimited (retry_after_seconds : option Z)
| ContextUnavailable
| ContextInvalidResponse (message : string)
| ContextProviderError (message : string)
| ContextUnsupportedTarget
| ContextDeferred (available_at : Z).

Inductive ChannelResourceProviderError :=
| ResourceRequestFailed (message : string)
| ResourceRateLimited (retry_after_seconds : option Z)
| ResourceUnavailable
| ResourceInvalidResponse (message : string)
| ResourceProviderFailed (message : string)
| UnsupportedResource
| ResourceDeferred (available_at : Z).

Inductive ChannelToolError :=
| MissingSourceEvent
| MissingReplyTarget
| ToolUnsupportedTarget
| InvalidSender (value : string)
| InvalidRequest (error : ChannelContractError)
| ContextProvider (error : ChannelContextProviderError)
| ResourceProvider (error : ChannelResourceProviderError)
| ToolState (error : StateError).

(** [{:?}] of an [Option<u64>], and [{}] of a [u64]. *)
Definition show_u64 (n : Z) : string := pretty (Z.to_N n).
Definition debug_option (o : option Z) : string :=
  match o with Some n => "Some(" +:+ show_u64 n +:+ ")" | None => "None" end.

Definition contract_error_text (error : ChannelContractError) : string :=
  match error with
  | EmptyField field => field +:+ " must not be empty"
  | InvalidLimit field => field +:+ " must be greater than zero"
  | UnsupportedCapability capability => "connector does not support capability " +:+ capability
  | UnsupportedReplyTarget target => "connector does not support reply target " +:+ target
  end.

Definition context_error_text (error : ChannelContextProviderError) : string :=
  match error with
  | ContextRequestFailed message => "context request failed: " +:+ message
  | ContextRateLimited retry =>
      "context provider was rate limited; retry after " +:+ debug_option retry +:+ " seconds"
  | ContextUnavailable => "context target is unavailable"
  | ContextInvalidResponse message =>
      "context provider returned an invalid response: " +:+ message
  | ContextProviderError message => "context provider error: " +:+ message
  | ContextUnsupportedTarget => "context target is unsupported"
  | ContextDeferred available_at => "context fetch deferred until " +:+ show_u64 available_at
  end.

Definition resource_error_text (error : ChannelResourceProviderError) : string :=
  match error with
  | ResourceRequestFailed message => "resource request failed: " +:+ message
  | ResourceRateLimited retry =>
      "resource provider was rate limited; retry after " +:+ debug_option retry +:+ " seconds"
  | ResourceUnavailable => "resource target is unavailable"
  | ResourceInvalidResponse message =>
      "resource provider returned an invalid response: " +:+ message
  | ResourceProviderFailed message => "resource provider error: " +:+ message
  | UnsupportedResource => "resource target is unsupported"
  | ResourceDeferred available_at => "resource fetch deferred until " +:+ show_u64 available_at
  end.

Definition tool_error_text `{ErrorText} (error : ChannelToolError) : string :=
  match error with
  | MissingSourceEvent => "source event was not found"
  | MissingReplyTarget => "source event does not include a Slack channel/message target"
  | ToolUnsupportedTarget =>
      "channel operation supports only thread replies and direct messages"
  | InvalidSender value => "invalid channel sender: " +:+ value
  | InvalidRequest error => "invalid channel request: " +:+ contract_error_text error
  | ContextProvider error => "channel context provider failed: " +:+ context_error_text error
  | ResourceProvider error => "channel resource provider failed: " +:+ resource_error_text error
  | ToolState error => "state operation failed: " +:+ error_text error
  end.

Definition context_provider_error_kind (error : ChannelContextProviderError) : string :=
  match error with
  | ContextRequestFailed _ => "request"
  | ContextRateLimited _ => "rate_limited"
  | ContextUnavailable => "unavailable"
  | ContextInvalidResponse _ => "invalid_response"
  | ContextProviderError _ => "provider"
  | ContextUnsupportedTarget => "unsupported_target"
  | ContextDeferred _ => "deferred"
  end.

Definition context_fetch_error_kind (error : ChannelToolError) : string :=
  match error with
  | ContextProvider error => context_provider_error_kind error
  | MissingReplyTarget => "missing_reply_target"
  | InvalidRequest _ => "invalid_request"
  | ToolState _ => "state"
  | MissingSourceEvent => "missing_source_event"
  | ToolUnsupportedTarget => "unsupported_target"
  | InvalidSender _ => "invalid_sender"
  | ResourceProvider _ => "resource_provider"
  end.

Definition json_str (s : option string) : Value := json_option Str s.

(** The derived [Serialize] of a reply target and of an event. *)
Definition reply_target_to_value (target : ChannelReplyTarget) : Value :=
  match target with
  | Channel channel_id => json_object [("Channel", json_object [("channel_id", Str channel_id)])]
  | Thread channel_id thread_id =>
      json_object [("Thread", json_object [("channel_id", Str channel_id);
                                           ("thread_id", Str thread_id)])]
  | DirectMessage user => json_object [("DirectMessage", json_object [("user_account_id", Str user)])]
  | Ephemeral channel_id user =>
      json_object [("Ephemeral", json_object [("channel_id", Str channel_id);
                                              ("user_account_id", Str user)])]
  end.

Definition event_to_value (event : ChannelEvent) : Value :=
  json_object (
    [("provider", Str (ev_provider event)); ("connector_id", Str (ev_connector_id event));
     ("workspace_id", Str (ev_workspace_id event)); ("event_id", Str (ev_event_id event));
     ("dedupe_key", Str (ev_dedupe_key event)); ("kind", Str (debug_kind (ev_kind event)))]
    ++ match ev_text event with Some text => [("text", Str text)] | None => [] end
    ++ [("reply_target", json_option reply_target_to_value (ev_reply_target event));
        ("source_reference", json_str (ev_source_reference event))]).

(** What [bootstrap_slack_context] asks for, before and after the provider. *)
Definition bootstrap_target_kind (event : ChannelEvent) (thread_id : option string) : string :=
  if bool_decide (ev_kind event = DirectMessageReceived) then "direct_message"
  else match thread_id with Some _ => "thread" | None => "channel" end.

Definition bootstrap_request (event : ChannelEvent) (channel_id thread_id : option string)
    (limit : Z) : result ChannelToolError (string * ChannelContextRequest) :=
  let? channel_id := ok_or (or_else channel_id (source_channel_id event)) MissingReplyTarget in
  let target :=
    match String.eqb (bootstrap_target_kind event thread_id) "thread", thread_id with
    | true, Some thread_id => Thread channel_id thread_id
    | _, _ => Channel channel_id
    end in
  let? request := map_err InvalidRequest
    (new_context_request (ev_connector_id event) (ev_workspace_id event) target limit) in
  Ok (channel_id, request).

Definition bootstrap_context (event : ChannelEvent) (channel_id : string)
    (thread_id : option string) (page : ChannelContextPage) : Value :=
  let target_kind := bootstrap_target_kind event thread_id in
  json_object
    [("target_kind", Str target_kind); ("channel_id", Str channel_id);
     ("thread_id", json_str (if String.eqb target_kind "thread" then thread_id else None));
     ("events", Arr (map event_to_value (xp_events page)));
     ("next_cursor", json_str (xp_next_cursor page))].

(** The text of a context event, or the whole event where it has none. *)
Definition context_event_key `{Serde} (event : Value) : string :=
  default (display event) (non_empty_trimmed (get "text" event ≫= as_str)).

(** [events.retain(|event| seen.insert(key))] *)
Fixpoint retain_new `{Serde} (seen : gset string) (events : list Value) : list Value :=
  match events with
  | [] => []
  | event :: events =>
      let key := context_event_key event in
      if bool_decide (key ∈ seen) then retain_new seen events
      else event :: retain_new ({[key]} ∪ seen) events
  end.

Definition dedup_context_events `{Serde} (context : Value) : Value :=
  match context with
  | Obj fields =>
      match map_get "events" fields with
      | Some (Arr events) => Obj (map_insert "events" (Arr (retain_new ∅ events)) fields)
      | _ => context
      end
  | _ => context
  end.

Definition compact_reply_target_json (target : option ChannelReplyTarget) : Value :=
  match target with
  | Some (Thread channel_id thread_id) =>
      json_object [("kind", Str "thread"); ("channel_id", Str channel_id);
                   ("thread_ts", Str thread_id)]
  | Some (Channel channel_id) =>
      json_object [("kind", Str "channel"); ("channel_id", Str channel_id)]
  | Some (DirectMessage user) =>
      json_object [("kind", Str "direct_message"); ("user_account_id", Str user)]
  | Some (Ephemeral channel_id user) =>
      json_object [("kind", Str "ephemeral"); ("channel_id", Str channel_id);
                   ("user_account_id", Str user)]
  | None => Null
  end.

Definition compact_source_reply_target_json (source : SlackSourceReferences)
    (fallback : option ChannelReplyTarget) : Value :=
  match rf_channel_id source, rf_thread_id source with
  | Some channel_id, Some thread_id =>
      json_object [("kind", Str "thread"); ("channel_id", Str channel_id);
                   ("thread_ts", Str thread_id)]
  | Some channel_id, None =>
      json_object [("kind", Str "channel"); ("channel_id", Str channel_id)]
  | None, _ => compact_reply_target_json fallback
  end.

Definition context_warning (event : ChannelEvent) (source : SlackSourceReferences)
    (channel_id thread_id : option string) (error_kind error_message : string) : Value :=
  json_object
    [("kind", Str "context_fetch_failed"); ("operation", Str "slack_bootstrap_context");
     ("error_kind", Str error_kind); ("error_message", Str error_message);
     ("dedupe_key", Str (ev_dedupe_key event)); ("channel_id", json_str channel_id);
     ("thread_id", json_str thread_id); ("message_ts", json_str (rf_message_ts source))].

Definition context_envelope (event : ChannelEvent) (source : SlackSourceReferences)
    (conversation_summary : option string) (recent_context : option Value)
    (warnings : list Value) : Value :=
  let conversation_kind :=
    match channel_conversation_key event source with
    | Some (_, key) => ck_conversation_kind key
    | None => "channel"
    end in
  json_object (
    [("schema", Str "codeoff.channel_context.v1");
     ("context_hint",
        Str "Detailed communication context is available through channel.* tools.");
     ("current_message", json_object
        [("source_provider", Str (ev_provider event));
         ("workspace_id", Str (ev_workspace_id event));
         ("connector_id", Str (ev_connector_id event)); ("event_id", Str (ev_event_id event));
         ("event_dedupe_key", Str (ev_dedupe_key event));
         ("conversation_kind", Str conversation_kind);
         ("kind", Str (debug_kind (ev_kind event))); ("text", json_str (ev_text event));
         ("source_reference", json_str (ev_source_reference event));
         ("channel_id", json_str (rf_channel_id source));
         ("thread_id", json_str (rf_thread_id source));
         ("thread_ts", json_str (rf_thread_id source));
         ("message_ts", json_str (rf_message_ts source));
         ("sender", json_object [("user_id", json_str (rf_user_id source))]);
         ("reply_target", compact_source_reply_target_json source (ev_reply_target event))])]
    ++ match conversation_summary with
       | Some summary => [("conversation_summary", Str summary)]
       | None => []
       end
    ++ match recent_context with
       | Some context => [("recent_context", context)]
       | None => []
       end
    ++ match warnings with [] => [] | _ => [("warnings", Arr warnings)] end).

(** ** The summary stays bounded *)

Lemma drop_while_is_drop prefix fuel l : exists m, drop_while_white prefix fuel l = drop m l.
Proof.
  revert l. induction fuel as [|fuel IH]; intros l; [by exists O|]. cbn.
  destruct (prefix l) as [n|]; [|by exists O]. destruct (IH (drop n l)) as [m ->].
  exists (n + m)%nat. by rewrite drop_drop.
Qed.

Lemma of_drop_bytes m s : of_bytes (drop m (to_bytes s)) = drop_bytes m s.
Proof.
  revert s. induction m as [|m IH]; intros [|b s]; try done.
  - change (drop 0 (to_bytes (String b s))) with (to_bytes (String b s)). apply of_to_bytes.
  - cbn. apply IH.
Qed.

Lemma drop_bytes_suffix m s : exists p, s = p +:+ drop_bytes m s.
Proof.
  revert s. induction m as [|m IH]; intros [|b s]; try by exists "".
  destruct (IH s) as [p Hp]. exists (String b p). cbn. by rewrite <- Hp.
Qed.

Lemma char_boundary_suffix s : exists p, s = p +:+ to_char_boundary s.
Proof.
  induction s as [|b s [p Hp]]; [by exists ""|]. cbn. destruct (is_continuation b); [|by exists ""].
  exists (String b p). cbn. by rewrite <- Hp.
Qed.

Lemma trim_start_suffix s : exists p, s = p +:+ trim_start s.
Proof.
  unfold trim_start. destruct (drop_while_is_drop white_space_prefix (String.length s) (to_bytes s))
    as [m ->]. rewrite of_drop_bytes. apply drop_bytes_suffix.
Qed.

Lemma len_drop_bytes m s : Z.of_nat m <= len s -> len (drop_bytes m s) = len s - Z.of_nat m.
Proof.
  revert s. induction m as [|m IH]; intros [|b s]; unfold len in *; cbn; intros; try lia.
  rewrite IH by lia. lia.
Qed.

Lemma suffix_len p s t : t = p +:+ s -> len s <= len t.
Proof. intros ->. rewrite len_app. unfold len. lia. Qed.

Lemma bound_summary_spec text :
  len (bound_summary text) <= CHANNEL_CONVERSATION_SUMMARY_LIMIT
  /\ exists dropped, text = dropped +:+ bound_summary text
     /\ (len text <= CHANNEL_CONVERSATION_SUMMARY_LIMIT -> dropped = "").
Proof.
  unfold bound_summary, CHANNEL_CONVERSATION_SUMMARY_LIMIT.
  destruct (Z.leb_spec (len text) 2000) as [Hle|Hgt]; [split; [done|]; by exists ""|].
  set (kept := drop_bytes _ text). destruct (drop_bytes_suffix (Z.to_nat (len text - 2000)) text) as [p1 E1].
  destruct (char_boundary_suffix kept) as [p2 E2].
  destruct (trim_start_suffix (to_char_boundary kept)) as [p3 E3]. split.
  - apply suffix_len in E2, E3. subst kept. rewrite len_drop_bytes in E2 by lia. lia.
  - exists (p1 +:+ p2 +:+ p3). split; [|lia]. rewrite !append_assoc, <- E3, <- E2. exact E1.
Qed.

(** Everything there is to say about a conversation. *)
Definition whole_summary (previous_summary user_message assistant_reply : option string) : string :=
  "Conversation State" +:+ newline
  +:+ String.concat (newline +:+ newline)
        (section "Previous context:" previous_summary
         ++ section "Latest user message:" user_message
         ++ section "Latest assistant reply:" assistant_reply).

(** C13. The summary that is kept of a conversation never exceeds its limit of
    bytes, however long the messages are and however often it is renewed: it is
    the end of the whole text, so that the latest reply survives, and the whole
    text where that fits. *)
Theorem summary_is_bounded previous user reply summary :
  updated_conversation_summary previous user reply = Some summary ->
  len summary <= CHANNEL_CONVERSATION_SUMMARY_LIMIT
  /\ exists dropped, whole_summary previous user reply = dropped +:+ summary
     /\ (len (whole_summary previous user reply) <= CHANNEL_CONVERSATION_SUMMARY_LIMIT ->
         dropped = "").
Proof.
  unfold updated_conversation_summary, whole_summary. cbv zeta.
  destruct (section "Previous context:" previous ++ _) as [|x l]; [done|]. intros [= <-].
  apply bound_summary_spec.
Qed.

Lemma summary_is_bounded_witness :
  len (default "" (updated_conversation_summary None (Some "hello") (Some "hi"))) <= 2000.
Proof.
  exact (proj1 (summary_is_bounded None (Some "hello") (Some "hi") _ eq_refl)).
Defined.

(** ** Repeated messages are shown once *)

Lemma retain_new_sublist `{Serde} seen events : retain_new seen events `sublist_of` events.
Proof.
  revert seen. induction events as [|event events IH]; intros seen; [constructor|]. cbn.
  case_bool_decide; [apply sublist_cons, IH|apply sublist_skip, IH].
Qed.

Lemma retain_new_keys `{Serde} seen events :
  NoDup (map context_event_key (retain_new seen events))
  /\ Forall (fun event => context_event_key event ∉ seen) (retain_new seen events).
Proof.
  revert seen. induction events as [|event events IH]; intros seen; cbn; [by repeat constructor|].
  case_bool_decide as Hs; [apply IH|]. destruct (IH ({[context_event_key event]} ∪ seen)) as [Hn Hf].
  split; cbn.
  - constructor; [|done]. intros (e & Hk & Hin)%list_elem_of_fmap.
    rewrite Forall_forall in Hf. specialize (Hf e Hin). set_solver.
  - constructor; [done|]. apply (Forall_weaken _ _ _ Hf). set_solver.
Qed.

(** Every message of the context is shown, or one with the same text is. *)
Lemma retain_new_complete `{Serde} seen events event :
  event ∈ events ->
  context_event_key event ∈ seen
  \/ exists e, e ∈ retain_new seen events /\ context_event_key e = context_event_key event.
Proof.
  revert seen. induction events as [|x events IH]; intros seen; [by intros ?%elem_of_nil|].
  intros [->|Hin]%elem_of_cons; cbn.
  - case_bool_decide; [by left|]. right. exists x. split; [by left|done].
  - case_bool_decide; [by apply IH|].
    destruct (IH ({[context_event_key x]} ∪ seen) Hin) as [[Hx%elem_of_singleton|?]%elem_of_union|(e & ? & ?)].
    + right. exists x. split; [by left|done].
    + by left.
    + right. exists e. split; [by right|done].
Qed.

End Conversations.
