(* ===== verification/EventQueue.v ===== *)
(** * Effects on the queue of channel events

    What each operation of the chat store does to the queued events, the drafts
    and the conversations: the facts the dispatcher's theorems rest on. *)

From stdpp Require Import base tactics list strings numbers gmap.
From Stdlib Require Import ZArith Lia.
From S2P Require Import Prelude.
From S2P Require Import Tables.
From S2P Require Import Channels.
From S2P Require Import ChatStore.

Module EventQueue.
Import Channels ChatStore.

Abbreviation EventKey := (string * string * string)%type.
Abbreviation Queue := (gmap EventKey QueueEventRow).

(** ** Rows by their id *)

Definition unique_ids (t : Queue) : Prop :=
  forall k1 k2 r1 r2, t !! k1 = Some r1 -> t !! k2 = Some r2 -> e_id r1 = e_id r2 -> k1 = k2.

Lemma one_match (where_ : EventKey -> QueueEventRow -> bool) (t : Queue) :
  (forall k1 k2 r1 r2, t !! k1 = Some r1 -> t !! k2 = Some r2 ->
     where_ k1 r1 = true -> where_ k2 r2 = true -> k1 = k2) ->
  Tables.matching where_ t = []
  \/ exists k r, t !! k = Some r /\ where_ k r = true /\ Tables.matching where_ t = [(k, r)].
Proof.
  intros Hone. pose proof (Tables.matching_NoDup where_ t) as Hnd.
  assert (forall k r, (k, r) ∈ Tables.matching where_ t -> t !! k = Some r /\ where_ k r = true)
    as Hin by (by intros k r ?%Tables.elem_of_matching).
  destruct (Tables.matching where_ t) as [|[k r] [|[k' r'] l]]; [by left| |].
  - right. exists k, r. destruct (Hin k r) as [? ?]; [by left|]. done.
  - exfalso. cbn in Hnd. apply NoDup_cons in Hnd as [Hnot _].
    destruct (Hin k r) as [? ?]; [by left|]. destruct (Hin k' r') as [? ?]; [right; by left|].
    apply Hnot. rewrite (Hone k k' r r') by done. by left.
Qed.

Lemma update_one (where_ : EventKey -> QueueEventRow -> bool) (set : QueueEventRow -> QueueEventRow)
    (t : Queue) k r :
  (forall k1 k2 r1 r2, t !! k1 = Some r1 -> t !! k2 = Some r2 ->
     where_ k1 r1 = true -> where_ k2 r2 = true -> k1 = k2) ->
  t !! k = Some r -> where_ k r = true -> Tables.update_rows where_ set t = <[k := set r]> t.
Proof.
  intros Hone Hr Hw. apply map_eq. intros k'. rewrite Tables.lookup_update_rows.
  destruct (decide (k' = k)) as [->|Hne]; [by rewrite lookup_insert_eq, Hr; cbn; rewrite Hw|].
  rewrite lookup_insert_ne by done. destruct (t !! k') as [r'|] eqn:E; [|done]. cbn.
  destruct (where_ k' r') eqn:Hw'; [|done]. contradict Hne. by eapply Hone.
Qed.

Section Effects.
Context `{Sqlite} `{SqliteDates} `{EventJson}.

(** The row of an id, in a given state: rewritten by [set], or there is none. *)
Lemma update_events_ok id status set d rows d' :
  unique_ids (event_queue d) -> update_events id status set d = Ok (rows, d') ->
  (rows = [] /\ d' = d
   /\ forall k r, event_queue d !! k = Some r -> e_id r = id -> e_status r <> status)
  \/ exists k r, event_queue d !! k = Some r /\ e_id r = id /\ e_status r = status
     /\ queue_event_checks k (set r) = true
     /\ rows = [set r] /\ d' = with_event_queue d (<[k := set r]> (event_queue d)).
Proof.
  intros Hu. unfold update_events.
  set (where_ := fun (_ : EventKey) r => (e_id r =? id) && String.eqb (e_status r) status).
  assert (forall k1 k2 r1 r2, event_queue d !! k1 = Some r1 -> event_queue d !! k2 = Some r2 ->
     where_ k1 r1 = true -> where_ k2 r2 = true -> k1 = k2) as Hone.
  { subst where_. cbn. intros k1 k2 r1 r2 Hr1 Hr2 Hw1 Hw2. bool_facts. eapply Hu; [done..|congruence]. }
  destruct (one_match where_ (event_queue d) Hone) as [E|(k & r & Hr & Hw & E)].
  - rewrite E. cbn. intros [= <- <-]. left. rewrite Tables.update_rows_none by done.
    split_and!; [done|by destruct d|]. intros k r Hr Hid Hst.
    assert ((k, r) ∈ Tables.matching where_ (event_queue d)) as Hin.
    { apply Tables.elem_of_matching. split; [done|]. subst where_. cbn.
      rewrite Hid, Z.eqb_refl. by apply String.eqb_eq. }
    rewrite E in Hin. by apply elem_of_nil in Hin.
  - rewrite E. cbn. destruct (queue_event_checks k (set r)) eqn:Hck; cbn; [|done].
    intros [= <- <-]. right. exists k, r. rewrite (update_one where_ set _ k r) by done.
    subst where_. cbn in Hw. apply andb_true_iff in Hw as [Hi Hs]. apply Z.eqb_eq in Hi.
    apply String.eqb_eq in Hs. done.
Qed.

(** A row that only changed its state. *)
Record moved_on (status : string) (r r' : QueueEventRow) : Prop := {
  mo_id : e_id r' = e_id r;
  mo_payload : e_payload_json r' = e_payload_json r;
  mo_status : e_status r' = status
}.

Lemma set_event_moves status t n e c r : moved_on status r (set_event status t n e c r).
Proof. done. Qed.

Lemma close_with id status0 status f c d r d' wrap :
  unique_ids (event_queue d) ->
  (forall x, moved_on status x (f x)) ->
  atomically wrap c (fun d =>
    match update_events id status0 f d with
    | Ok (_, d') => Ok (tt, d')
    | Err e => Err e
    end) d = (r, d') ->
  (d' = d /\ (r = Ok tt -> forall k x, event_queue d !! k = Some x -> e_id x = id ->
                e_status x <> status0))
  \/ exists k x x', r = Ok tt /\ event_queue d !! k = Some x /\ e_id x = id
     /\ e_status x = status0 /\ moved_on status x x'
     /\ d' = with_event_queue d (<[k := x']> (event_queue d)).
Proof.
  intros Hu Hf [(e & -> & ->)|(a & -> & Hb)]%atomically_cases; [by left|]. cbv beta in Hb.
  destruct (update_events id status0 f d) as [[rows d1]|] eqn:E; [|done]. simplify_eq.
  apply update_events_ok in E as [(-> & -> & Hno)|(k & x & Hx & Hid & Hst & _ & -> & ->)];
    [by left| |done].
  right. exists k, x, (f x). done.
Qed.

Lemma complete_event_effect {id c d r d'} :
  unique_ids (event_queue d) -> complete_channel_event id c d = (r, d') ->
  (d' = d /\ (r = Ok tt -> forall k x, event_queue d !! k = Some x -> e_id x = id ->
                e_status x <> "processing"))
  \/ exists k x x', r = Ok tt /\ event_queue d !! k = Some x /\ e_id x = id
     /\ e_status x = "processing" /\ moved_on "processed" x x'
     /\ d' = with_event_queue d (<[k := x']> (event_queue d)).
Proof.
  intros Hu Hc. unfold complete_channel_event in Hc. eapply close_with; [done| |exact Hc].
  intros x. apply set_event_moves.
Qed.

Lemma fail_event_effect {id error c d r d'} :
  unique_ids (event_queue d) -> fail_channel_event id error c d = (r, d') ->
  (d' = d /\ (r = Ok tt -> forall k x, event_queue d !! k = Some x -> e_id x = id ->
                e_status x <> "processing"))
  \/ exists k x x', r = Ok tt /\ event_queue d !! k = Some x /\ e_id x = id
     /\ e_status x = "processing" /\ moved_on "failed" x x'
     /\ d' = with_event_queue d (<[k := x']> (event_queue d)).
Proof.
  intros Hu Hc. unfold fail_channel_event in Hc. eapply close_with; [done| |exact Hc].
  intros x. apply set_event_moves.
Qed.

Lemma release_event_effect {id delay c d r d'} :
  unique_ids (event_queue d) -> release_channel_event id delay c d = (r, d') ->
  (d' = d /\ (r = Ok tt -> forall k x, event_queue d !! k = Some x -> e_id x = id ->
                e_status x <> "processing"))
  \/ exists k x x', r = Ok tt /\ event_queue d !! k = Some x /\ e_id x = id
     /\ e_status x = "processing" /\ moved_on "pending" x x'
     /\ d' = with_event_queue d (<[k := x']> (event_queue d)).
Proof.
  intros Hu. unfold release_channel_event.
  destruct (seconds_after (clock c) (Z.max delay 1)) as [t|].
  - intros Hc. eapply close_with; [done| |exact Hc]. intros x. apply set_event_moves.
  - intros [(e & -> & ->)|(a & -> & Hb)]%atomically_cases; [by left|]. cbv beta in Hb.
    destruct (update_events id "processing" (fun r => r) d) as [[rows d1]|] eqn:E; [|done].
    apply update_events_ok in E as [(-> & -> & Hno)|(k & x & _ & _ & _ & _ & -> & _)]; [|done|done].
    left. by simplify_eq.
Qed.

(** A claim takes the pending row it answers with. *)
Lemma claim_event_effect {c d r d'} :
  unique_ids (event_queue d) -> claim_next_channel_event c d = (r, d') ->
  (d' = d /\ forall x, r <> Ok (Some x))
  \/ exists k x x', event_queue d !! k = Some x /\ e_status x = "pending"
     /\ moved_on "processing" x x'
     /\ d' = with_event_queue d (<[k := x']> (event_queue d))
     /\ r = match event_from_str (e_payload_json x) with
            | Some event => Ok (Some (mkClaimedEvent (e_id x) (e_attempt_count x') event))
            | None => Err DeserializeChannelEvent
            end.
Proof.
  intros Hu. unfold claim_next_channel_event.
  destruct (atomically ChannelEventQueue c _ d) as [row d1] eqn:Ea.
  apply atomically_cases in Ea as [(e & -> & ->)|(a & -> & Hb)]; [intros [= <- <-]; by left|].
  cbv beta in Hb.
  destruct (first_by queued_before _) as [[k x]|] eqn:Ef; [|simplify_eq; intros [= <- <-]; by left].
  apply first_by_elem, Tables.elem_of_matching in Ef as [Hx Hdue].
  unfold event_is_due in Hdue. apply andb_true_iff in Hdue as [Hpend%String.eqb_eq _].
  destruct (update_events (e_id x) "pending" _ d) as [[rows d2]|] eqn:Eu; [|done].
  apply update_events_ok in Eu as [(-> & -> & Hno)|(k' & x' & Hx' & Hid & Hst & _ & -> & ->)];
    [by destruct (Hno k x)| |done].
  assert (k' = k) as -> by (by eapply Hu). rewrite Hx in Hx'. simplify_eq. cbn.
  intros [= <- <-]. right. eexists k, x', _. split_and!; [done|done|apply set_event_moves|done|].
  by destruct (event_from_str (e_payload_json x')).
Qed.

Lemma update_events_conversations id status set d rows d' :
  update_events id status set d = Ok (rows, d') -> conversations d' = conversations d.
Proof. unfold update_events. destruct (forallb _ _); cbn; [|done]. by intros [= _ <-]. Qed.

(** Closing an event leaves the conversations alone, whatever the table holds. *)
Lemma complete_event_conversations id c d r d' :
  complete_channel_event id c d = (r, d') -> conversations d' = conversations d.
Proof.
  intros [(e & _ & ->)|(a & _ & Hb)]%atomically_cases; [done|]. cbv beta in Hb. peel Hb.
  by eapply update_events_conversations.
Qed.

Lemma fail_event_conversations id error c d r d' :
  fail_channel_event id error c d = (r, d') -> conversations d' = conversations d.
Proof.
  intros [(e & _ & ->)|(a & _ & Hb)]%atomically_cases; [done|]. cbv beta in Hb. peel Hb.
  by eapply update_events_conversations.
Qed.

Lemma release_event_conversations id delay c d r d' :
  release_channel_event id delay c d = (r, d') -> conversations d' = conversations d.
Proof.
  intros [(e & _ & ->)|(a & _ & Hb)]%atomically_cases; [done|]. cbv beta in Hb.
  destruct (seconds_after _ _); [|by peel Hb]. peel Hb. by eapply update_events_conversations.
Qed.

Lemma claim_event_conversations c d r d' :
  claim_next_channel_event c d = (r, d') -> conversations d' = conversations d.
Proof.
  unfold claim_next_channel_event. destruct (atomically _ _ _ _) as [r1 d1] eqn:E. intros [= _ <-].
  apply atomically_cases in E as [(e & _ & ->)|(a & _ & Hb)]; [done|]. cbv beta in Hb.
  destruct (first_by _ _) as [[k x]|]; [|by simplify_eq]. peel Hb.
  by eapply update_events_conversations.
Qed.

Lemma next_id_fresh ids : Forall (fun i => i < next_id ids) ids.
Proof.
  unfold next_id. assert (Forall (fun i => i <= foldr Z.max 0 ids) ids) as Hle.
  { induction ids as [|i ids IH]; constructor; cbn; [lia|].
    apply (Forall_weaken _ _ _ IH). intros. lia. }
  apply (Forall_weaken _ _ _ Hle). intros. lia.
Qed.

(** An event comes in as a pending row with a new id, or the queue stays as it
    is. *)
Lemma persist_effect {source event c d r d'} :
  persist_slack_source_event source event c d = (r, d') ->
  drafts d' = drafts d /\ conversations d' = conversations d
  /\ (event_queue d' = event_queue d
      \/ exists x, event_queue d !! event_key event = None
         /\ event_queue d' = <[event_key event := x]> (event_queue d)
         /\ e_status x = "pending" /\ event_to_string event = Some (e_payload_json x)
         /\ forall k y, event_queue d !! k = Some y -> e_id y <> e_id x).
Proof.
  unfold persist_slack_source_event. destruct (event_to_string event) as [payload|]; [|naive_solver].
  intros [(e & -> & ->)|(a & -> & Hb)]%atomically_cases; [naive_solver|]. cbv beta zeta in Hb.
  destruct (source_event_checks _ _); cbn in Hb; [|done].
  destruct (source_events d !! _); [simplify_eq; naive_solver|].
  unfold insert_queue_event in Hb. destruct (queue_event_checks _ _); cbn in Hb; [|done].
  destruct (event_queue d !! event_key event) eqn:He; injection Hb as <- <-; cbn;
    [by split_and!; [..|left]|].
  split_and!; [done|done|]. right. eexists. split_and!; [done|reflexivity|done|done|].
  intros k y Hy. cbn. pose proof (next_id_fresh (queue_ids d)) as Hall.
  rewrite Forall_forall in Hall. assert (e_id y ∈ queue_ids d) as Hin.
  { unfold queue_ids. apply list_elem_of_fmap. exists (k, y). split; [done|].
    by apply elem_of_map_to_list. }
  specialize (Hall _ Hin). change (queue_ids (with_source_events d _)) with (queue_ids d). lia.
Qed.

(** Retention removes events that ended, with their drafts. *)
Record events_retained (d d' : ChatDb) : Prop := {
  er_queue k r : event_queue d' !! k = Some r -> event_queue d !! k = Some r;
  er_removed k r : event_queue d !! k = Some r -> event_queue d' !! k = None ->
    e_status r = "processed" \/ e_status r = "failed";
  er_drafts id x : drafts d' !! id = Some x -> drafts d !! id = Some x;
  er_conversations : conversations d' = conversations d
}.

Lemma cleanup_events ws now policy c d r d' :
  cleanup_retained_chat ws now policy c d = (r, d') -> events_retained d d'.
Proof.
  unfold cleanup_retained_chat. destruct (negb (enabled policy)).
  { intros [= <- <-]. split; naive_solver. }
  intros [(e & -> & ->)|(a & -> & Hb)]%atomically_cases; [split; naive_solver|].
  cbn in Hb. injection Hb as <- <-. split; cbn.
  - by intros k row [Hr _]%map_lookup_filter_Some.
  - intros k row Hr Hgone.
    destruct (queue_event_expired (days_before (to_i64 now) (inbound_payload_days policy))
      ws k row) eqn:E.
    + unfold queue_event_expired in E. bool_facts. set_solver.
    + exfalso. apply (map_lookup_filter_None_1 _ _ k) in Hgone. naive_solver.
  - by intros id x [Hx _]%map_lookup_filter_Some.
  - done.
Qed.

(** ** What leaves the events alone *)

Record same_events (d d' : ChatDb) : Prop := {
  sv_queue : event_queue d' = event_queue d;
  sv_drafts : drafts d' = drafts d
}.

#[export] Instance same_events_refl : Reflexive same_events.
Proof. by split. Qed.

(** .. and the conversations as well *)
Definition same_work (d d' : ChatDb) : Prop :=
  same_events d d' /\ conversations d' = conversations d.

#[export] Instance same_work_refl : Reflexive same_work.
Proof. by split. Qed.

Lemma record_fetch_effect attempt c d r d' :
  record_context_fetch_attempt attempt c d = (r, d') -> same_work d d'.
Proof.
  intros [(e & -> & ->)|(a & -> & Hb)]%atomically_cases; [done|]. cbv beta in Hb.
  destruct (fetch_attempt_checks attempt); cbn in Hb; [|done]. by simplify_eq.
Qed.

Lemma store_summary_effect key summary c d r d' :
  upsert_channel_conversation_summary key summary c d = (r, d') -> same_work d d'.
Proof.
  intros [(e & -> & ->)|(a & -> & Hb)]%atomically_cases; [done|]. cbv beta in Hb.
  destruct (conversation_checks _ _); cbn in Hb; [|done]. by simplify_eq.
Qed.

Lemma enqueue_stop_same request now c d r d' :
  enqueue_slack_stop_stream_delivery request now c d = (r, d') -> same_work d d'.
Proof. intros [[-> _]|(id & _ & _ & _ & ->)]%enqueue_stop_effect; done. Qed.

Lemma complete_indicator_same ws key c d r d' :
  complete_slack_processing_indicator ws key c d = (r, d') -> same_work d d'.
Proof.
  intros [(e & -> & ->)|(a & -> & Hb)]%atomically_cases; [done|]. unfold end_indicator in Hb.
  destruct (indicators d !! (ws, key)); [|by simplify_eq].
  destruct (indicator_checks _ _); cbn in Hb; [|done]. by simplify_eq.
Qed.

(** A thread is stored under a conversation the table admits. *)
Lemma store_thread_effect {key thread_id c d r d'} :
  upsert_channel_conversation_thread_id key thread_id c d = (r, d') ->
  (d' = d /\ r <> Ok tt)
  \/ (r = Ok tt /\ conversation_checks (conversation_id key) thread_id = true
      /\ d' = with_conversations d (<[conversation_id key := thread_id]> (conversations d))).
Proof.
  intros [(e & -> & ->)|(a & -> & Hb)]%atomically_cases; [by left|]. cbv beta in Hb.
  destruct (conversation_checks _ _); cbn in Hb; [|done]. simplify_eq. by right.
Qed.

Lemma save_draft_effect {id draft c d r d'} :
  save_agent_draft id draft c d = (r, d') ->
  event_queue d' = event_queue d /\ conversations d' = conversations d
  /\ (d' = d \/ exists n, r = Ok tt /\ draft_checks draft = true /\ drafts d !! id = None
        /\ id ∈ queue_ids d /\ drafts d' = <[id := (n, draft)]> (drafts d)).
Proof.
  intros [(e & -> & ->)|(a & -> & Hb)]%atomically_cases; [naive_solver|]. cbv beta in Hb.
  destruct (draft_checks draft); cbn in Hb; [|done].
  destruct (drafts d !! id) eqn:E; [simplify_eq; naive_solver|].
  destruct (bool_decide (id ∈ queue_ids d)) eqn:Hq; cbn in Hb; [|done]. bool_facts.
  injection Hb as <- <-. split_and!; [done|done|]. right. eexists. done.
Qed.
End Effects.

End EventQueue.
