(* ===== verification/Dispatch.v ===== *)
(** * The dispatch of channel events (crates/runtime/src/lib.rs)

    [dispatch_next_channel_event_with_processing_streams_context_and_locks] as a
    task: it claims one queued event, takes the lock of its conversation, reads
    what is known of the conversation, runs the agent, and stores the draft, the
    agent's thread and the summary before it completes the event.  Its actions
    are the operations of the chat store, the locks of its process, the calls of
    the context provider and of the agent.  The permit of a conversation is a
    guard of the rest of the task, released wherever the task ends or is dropped.

    The answers of the agent and of the context provider are inputs.  [happened]
    records the tasks the agent was given with its answers, and the events that
    retention removed. *)

From stdpp Require Import base tactics list strings numbers gmap.
From Stdlib Require Import ZArith Lia Ascii.
From S2P Require Import Prelude.
From S2P Require Import Json.
From S2P Require Import Tables.
From S2P Require Import Channels.
From S2P Require Import ChatStore.
From S2P Require Import Tasks.
From S2P Require Import SlackQueue.
From S2P Require Import SlackSources.
From S2P Require Import Agents.
From S2P Require Import Conversations.

(** [AgentBackend::provider_name]; [run] is an action of the task. *)
Class AgentBackend := { provider_name : string }.

Module Dispatch.
Import Channels ChatStore Tasks SlackSources Agents Conversations.

Inductive DispatchOutcome :=
| Idle
| Ignored (event_id : string)
| Dispatched (event_id : string)
| Accepted (event_id : string)
| Failed (event_id : string).

#[export] Instance outcome_eq_dec : EqDecision DispatchOutcome.
Proof. solve_decision. Defined.

Record ProcessingStreamFinishRequest := mkFinish {
  fr_connector_id : string;
  fr_workspace_id : string;
  fr_event_dedupe_key : string;
  fr_request_dedupe_key : string;
  fr_channel_id : string;
  fr_thread_ts : option string;
  fr_text : string;
  fr_sender : SlackDeliverySender;
  fr_now_unix_seconds : Z
}.

Record ProcessingStreamFinishOutcome := mkFinished {
  fo_request_dedupe_key : string;
  fo_queued : bool;
  fo_completed_existing_stream : bool
}.

(** ** Shared state *)

Inductive Happened :=
| AgentRan (task : AgentTask) (answer : result string AgentTaskResult)
| Forgotten (k : string * string * string).

(** [active] are the conversations each process has locked. *)
Record Shared := mkShared {
  chat : ChatDb;
  active : gmap nat (gset string);
  happened : list Happened
}.

Definition with_chat (s : Shared) (d : ChatDb) : Shared := mkShared d (active s) (happened s).
Definition locked (s : Shared) (q : nat) : gset string := default ∅ (active s !! q).
Definition with_locked (s : Shared) (q : nat) (l : gset string) : Shared :=
  mkShared (chat s) (<[q := l]> (active s)) (happened s).
Definition note (s : Shared) (h : Happened) : Shared :=
  mkShared (chat s) (active s) (happened s ++ [h]).

(** [ConversationDispatchLocks::try_acquire] and the drop of a permit. *)
Definition try_acquire (q : nat) (key : string) (s : Shared) : bool * Shared :=
  if bool_decide (key ∈ locked s q) then (false, s)
  else (true, with_locked s q ({[key]} ∪ locked s q)).

Definition drop_permit (q : nat) (key : string) (s : Shared) : Shared :=
  with_locked s q (locked s q ∖ {[key]}).

(** ** Actions *)

Inductive Action :=
| ClaimEvent
| CompleteEvent (id : Z)
| ReleaseEvent (id delay : Z)
| FailEvent (id : Z) (error : string)
| ReadSource (workspace_id dedupe_key : string)
| TryAcquire (q : nat) (key : string)
| DropPermit (q : nat) (key : string)
| ReadThreadId (key : ChannelConversationKey)
| ReadSummary (key : ChannelConversationKey)
| FetchContext (request : ChannelContextRequest)
| RecordFetch (attempt : ContextFetchAttemptRecord)
| RunAgent (task : AgentTask)
| SaveDraft (id : Z) (draft : AgentDraft)
| StoreThreadId (key : ChannelConversationKey) (thread_id : string)
| StoreSummary (key : ChannelConversationKey) (summary : string)
| ReadIndicator (workspace_id event_dedupe_key : string)
| EnqueueStop (request : SlackStopStreamDeliveryRequest) (now : Z)
| CompleteIndicator (workspace_id event_dedupe_key : string)
| SystemNow.

Definition Answer (a : Action) : Type :=
  match a with
  | ClaimEvent => result StateError (option ClaimedChannelEvent)
  | CompleteEvent _ | ReleaseEvent _ _ | FailEvent _ _ => result StateError unit
  | ReadSource _ _ => result StateError SlackSourceReferences
  | TryAcquire _ _ => bool
  | DropPermit _ _ => unit
  | ReadThreadId _ => result StateError (option string)
  | ReadSummary _ => result StateError (option (string * Z))
  | FetchContext _ => result ChannelContextProviderError ChannelContextPage
  | RecordFetch _ => result StateError unit
  | RunAgent _ => result string AgentTaskResult
  | SaveDraft _ _ | StoreThreadId _ _ | StoreSummary _ _ => result StateError unit
  | ReadIndicator _ _ => result StateError (option SlackProcessingIndicator)
  | EnqueueStop _ _ => result StateError bool
  | CompleteIndicator _ _ => result StateError unit
  | SystemNow => Z
  end.

(** The storage conditions of an action, the answers of the agent and of the
    context provider, and the system clock in seconds. *)
Record Input := mkInput {
  conditions : Conditions;
  agent_answer : result string AgentTaskResult;
  context_answer : result ChannelContextProviderError ChannelContextPage;
  system_now : Z
}.

Definition on_chat {A} (f : ChatDb -> result StateError A * ChatDb) (s : Shared) :
    result StateError A * Shared :=
  let '(r, d) := f (chat s) in (r, with_chat s d).

Definition perform `{Serde} `{Sqlite} `{SqliteDates} `{EventJson} (a : Action) (i : Input)
    (s : Shared) : Answer a * Shared :=
  let c := conditions i in
  match a with
  | ClaimEvent => on_chat (claim_next_channel_event c) s
  | CompleteEvent id => on_chat (complete_channel_event id c) s
  | ReleaseEvent id delay => on_chat (release_channel_event id delay c) s
  | FailEvent id error => on_chat (fail_channel_event id error c) s
  | ReadSource workspace_id dedupe_key =>
      (slack_source_references workspace_id dedupe_key c (chat s), s)
  | TryAcquire q key => try_acquire q key s
  | DropPermit q key => (tt, drop_permit q key s)
  | ReadThreadId key => (channel_conversation_thread_id key c (chat s), s)
  | ReadSummary key => (channel_conversation_summary key c (chat s), s)
  | FetchContext _ => (context_answer i, s)
  | RecordFetch attempt => on_chat (record_context_fetch_attempt attempt c) s
  | RunAgent task => (agent_answer i, note s (AgentRan task (agent_answer i)))
  | SaveDraft id draft => on_chat (save_agent_draft id draft c) s
  | StoreThreadId key thread_id =>
      on_chat (upsert_channel_conversation_thread_id key thread_id c) s
  | StoreSummary key summary => on_chat (upsert_channel_conversation_summary key summary c) s
  | ReadIndicator workspace_id key => (slack_processing_indicator workspace_id key c (chat s), s)
  | EnqueueStop request now => on_chat (enqueue_slack_stop_stream_delivery request now c) s
  | CompleteIndicator workspace_id key =>
      on_chat (complete_slack_processing_indicator workspace_id key c) s
  | SystemNow => (system_now i, s)
  end.

Abbreviation Task := (Prog Answer).

Definition same (error : StateError) : StateError := error.

Notation "'await!' x := m 'in' k" := (bind m (fun x => k))
  (at level 10, x pattern, m at level 100, k at level 200) : codeoff_scope.
Notation "'await?' x := m 'in' k" := (try_bind same m (fun x => k))
  (at level 10, x pattern, m at level 100, k at level 200) : codeoff_scope.

(** ** Processing streams *)

(** [ProcessingStreamManager]: the two implementations of the runtime. *)
Class ProcessingStreams := {
  finish_processing_stream :
    ProcessingStreamFinishRequest -> Task (result StateError ProcessingStreamFinishOutcome)
}.

(** [NoopProcessingStreamManager] *)
Definition noop_streams : ProcessingStreams := {|
  finish_processing_stream request :=
    Ret (Ok (mkFinished (fr_request_dedupe_key request) false false))
|}.

(** [StateProcessingStreamManager] *)
Definition state_streams : ProcessingStreams := {|
  finish_processing_stream request :=
    let untouched := mkFinished (fr_request_dedupe_key request) false false in
    await? indicator := act (ReadIndicator (fr_workspace_id request)
                               (fr_event_dedupe_key request)) in
    match indicator with
    | None => Ret (Ok untouched)
    | Some indicator =>
        match pi_status indicator with
        | IndicatorStarted =>
            await? queued := act (EnqueueStop
              (mkStopRequest (fr_connector_id request) (fr_workspace_id request)
                 (fr_request_dedupe_key request) (pi_channel_id indicator)
                 (pi_thread_ts indicator) (pi_message_ts indicator) (fr_text request)
                 (fr_sender request)) (fr_now_unix_seconds request)) in
            await? _ := act (CompleteIndicator (fr_workspace_id request)
                               (fr_event_dedupe_key request)) in
            Ret (Ok (mkFinished (fr_request_dedupe_key request) queued true))
        | _ => Ret (Ok untouched)
        end
    end
|}.

(** ** The task *)

Section Operations.
Context `{Serde} `{PrettyJson} `{ErrorText} `{AgentBackend} `{ProcessingStreams}.

Definition fetch_record (event : ChannelEvent) (source : SlackSourceReferences)
    (channel_id thread_id : option string) (status : string)
    (error : option (string * string)) : ContextFetchAttemptRecord :=
  mkFetchAttempt "slack_bootstrap_context" (ev_provider event) (ev_workspace_id event)
    (ev_connector_id event) (ev_dedupe_key event) channel_id thread_id (rf_message_ts source)
    status (fst <$> error) (snd <$> error).

(** [bootstrap_slack_context] *)
Definition bootstrap_slack_context (event : ChannelEvent) (channel_id thread_id : option string)
    (limit : Z) : Task (result ChannelToolError Value) :=
  match bootstrap_request event channel_id thread_id limit with
  | Err error => Ret (Err error)
  | Ok (channel_id, request) =>
      await! page := act (Res := Answer) (FetchContext request) in
      Ret (match page with
           | Ok page => Ok (bootstrap_context event channel_id thread_id page)
           | Err error => Err (ContextProvider error)
           end)
  end.

Definition print_envelope (envelope : Value) : result StateError (option string) :=
  match to_string_pretty envelope with
  | Some text => Ok (Some text)
  | None => Err (SerializeStatePayload "channel context envelope")
  end.

Definition build_channel_context_envelope (context_provider : bool) (event : ChannelEvent)
    (source : SlackSourceReferences) (channel_id thread_id : option string) (limit : Z)
    (conversation_summary : option string) : Task (result StateError (option string)) :=
  if context_provider then
    await! context := bootstrap_slack_context event channel_id thread_id limit in
    match context with
    | Ok context =>
        await? _ := act (RecordFetch
          (fetch_record event source channel_id thread_id "success" None)) in
        Ret (print_envelope (context_envelope event source conversation_summary
               (Some (dedup_context_events context)) []))
    | Err error =>
        let error_kind := context_fetch_error_kind error in
        let error_message := tool_error_text error in
        await? _ := act (RecordFetch (fetch_record event source channel_id thread_id "failed"
          (Some (error_kind, error_message)))) in
        Ret (print_envelope (context_envelope event source conversation_summary None
               [context_warning event source channel_id thread_id error_kind error_message]))
    end
  else
    Ret (print_envelope (context_envelope event source conversation_summary None [])).

Definition draft_of (event : ChannelEvent) (source : SlackSourceReferences) (content : string) :
    AgentDraft :=
  mkDraft provider_name (or_else (rf_channel_id source) (source_channel_id event))
    (or_else (rf_thread_id source) (source_thread_id event)) (rf_message_ts source)
    (rf_user_id source) (ev_event_id event) (ev_dedupe_key event) content.

(** What is stored of the agent's answer: the draft, the thread where it is not
    the one that was resumed, and the summary.  Then the event is completed. *)
Definition store_result (id : Z) (event : ChannelEvent) (source : SlackSourceReferences)
    (key : ChannelConversationKey) (resume_thread_id conversation_summary : option string)
    (r : AgentTaskResult) : Task (result StateError DispatchOutcome) :=
  await? _ := match draft_content r with
    | Some content => act (SaveDraft id (draft_of event source content))
    | None => Ret (Ok tt)
    end in
  await? _ := match codex_thread_id r with
    | Some thread_id =>
        if bool_decide (resume_thread_id = Some thread_id) then Ret (Ok tt)
        else act (StoreThreadId key thread_id)
    | None => Ret (Ok tt)
    end in
  await? _ := match updated_conversation_summary conversation_summary (ev_text event)
                      (draft_content r) with
    | Some summary => act (StoreSummary key summary)
    | None => Ret (Ok tt)
    end in
  await? _ := act (CompleteEvent id) in
  Ret (Ok (match draft_content r with
           | Some _ => Dispatched (ev_event_id event)
           | None => Accepted (ev_event_id event)
           end)).

Definition error_notice (event : ChannelEvent) (source : SlackSourceReferences)
    (channel_id : string) (now : Z) : ProcessingStreamFinishRequest :=
  mkFinish (ev_connector_id event) (ev_workspace_id event) (ev_dedupe_key event)
    (ev_dedupe_key event +:+ ":processing-error") channel_id
    (or_else (rf_thread_id source) (source_thread_id event))
    "I hit an internal error while processing this message. Please try again." Bot now.

(** An agent that failed: its stream is stopped where there is a channel, and
    whatever becomes of that, the event fails. *)
Definition store_failure (id : Z) (event : ChannelEvent) (source : SlackSourceReferences)
    (error : string) : Task (result StateError DispatchOutcome) :=
  await! _ := match or_else (rf_channel_id source) (source_channel_id event) with
    | Some channel_id =>
        await! now := act (Res := Answer) SystemNow in
        await! _ := finish_processing_stream (error_notice event source channel_id now) in
        Ret tt
    | None => Ret tt
    end in
  await? _ := act (FailEvent id error) in
  Ret (Ok (Failed (ev_event_id event))).

(** From the lock of the conversation to the end. *)
Definition converse (context_provider : bool) (context_limit : option Z) (id : Z)
    (event : ChannelEvent) (source : SlackSourceReferences) (text : string)
    (key : ChannelConversationKey) : Task (result StateError DispatchOutcome) :=
  let channel_id := or_else (rf_channel_id source) (target_channel_id event) in
  let thread_id := or_else (rf_thread_id source) (target_thread_id event) in
  await? resume_thread_id := act (ReadThreadId key) in
  await? summary := act (ReadSummary key) in
  let conversation_summary := fst <$> summary in
  await? channel_context := build_channel_context_envelope context_provider event source
    channel_id thread_id (default 20 context_limit) conversation_summary in
  await! answer := act (Res := Answer) (RunAgent (build_slack_agent_task event source text key
    resume_thread_id channel_context conversation_summary channel_id thread_id)) in
  match answer with
  | Ok r => store_result id event source key resume_thread_id conversation_summary r
  | Err error => store_failure id event source error
  end.

Definition dispatch (q : nat) (context_provider : bool) (context_limit : option Z)
    (conversation_locks : bool) : Task (result StateError DispatchOutcome) :=
  await? claimed := act ClaimEvent in
  match claimed with
  | None => Ret (Ok Idle)
  | Some claimed =>
      let id := ce_id claimed in
      let event := ce_event claimed in
      if negb (String.eqb (ev_provider event) "slack")
         || negb (is_dispatchable_slack_event (ev_kind event)) then
        await? _ := act (CompleteEvent id) in
        Ret (Ok (Ignored (ev_event_id event)))
      else
        await? source := act (ReadSource (ev_workspace_id event) (ev_dedupe_key event)) in
        let '(text, key) := conversation_of event source in
        if conversation_locks then
          await! acquired := (act (TryAcquire q text) : Task bool) in
          if acquired then
            scoped (DropPermit q text)
              (converse context_provider context_limit id event source text key)
          else
            await? _ := act (ReleaseEvent id 0) in
            Ret (Ok Idle)
        else converse context_provider context_limit id event source text key
  end.
End Operations.

(** ** Histories *)

(** The arguments of a call: whether there is a context provider, the limit of
    its pages, and whether the locks of the process are used. *)
Record Call := mkCall {
  c_context_provider : bool;
  c_context_limit : option Z;
  c_conversation_locks : bool
}.

(** What others do: an event comes in, retention runs, and the outbox with its
    receipts, throttles and indicators changes in any way. *)
Inductive Environment :=
| Received (source : SlackSourceEvent) (event : ChannelEvent) (c : Conditions)
| Retained (workspace_id : option string) (now : Z) (policy : RetentionPolicy) (c : Conditions)
| Elsewhere (o : gmap WorkKey OutboxRow) (r : gmap WorkKey ReceiptRow) (t : gmap WorkKey Z)
    (n : gmap WorkKey IndicatorRow).

(** The queued events of [d] that [d'] no longer has. *)
Definition removed_events (d d' : ChatDb) : list (string * string * string) :=
  List.filter (fun k => negb (Tables.is_some (event_queue d' !! k)))
    (map fst (map_to_list (event_queue d))).

Definition environment `{Sqlite} `{SqliteDates} `{EventJson} (x : Environment) (s : Shared) :
    Shared :=
  match x with
  | Received source event c => (on_chat (persist_slack_source_event source event c) s).2
  | Retained workspace_id now policy c =>
      let '(_, d) := cleanup_retained_chat workspace_id now policy c (chat s) in
      mkShared d (active s) (happened s ++ map Forgotten (removed_events (chat s) d))
  | Elsewhere o r t n =>
      with_chat s (with_indicators (with_throttles (with_receipts (with_outbox (chat s) o) r) t) n)
  end.

(** A process that stops loses its locks. *)
Definition process_stopped (q : nat) (s : Shared) : Shared :=
  mkShared (chat s) (delete q (active s)) (happened s).

(** The destructor of a permit. *)
Definition release (a : Action) (s : Shared) : Shared :=
  match a with DropPermit q key => drop_permit q key s | _ => s end.

Definition call `{Serde} `{PrettyJson} `{ErrorText} `{AgentBackend} `{ProcessingStreams}
    (q : nat) (c : Call) : Task (result StateError DispatchOutcome) :=
  dispatch q (c_context_provider c) (c_context_limit c) (c_conversation_locks c).

Definition Move : Type := Tasks.Move (Env := Input) (Owner := nat) (Call := Call)
  (Outside := Environment).

Definition World : Type :=
  Tasks.Pool (Res := Answer) (State := Shared) (Owner := nat)
    (A := result StateError DispatchOutcome).

Definition history `{Serde} `{PrettyJson} `{ErrorText} `{AgentBackend} `{ProcessingStreams}
    `{Sqlite} `{SqliteDates} `{EventJson} (ms : list Move) (w : World) : World :=
  run_moves perform call release process_stopped environment ms w.

Definition start : World := (mkShared empty_chat ∅ [], []).

End Dispatch.
