(* ===== verification/DispatchSafety.v ===== *)
(** * What holds of every history of dispatches

    Any number of processes dispatch concurrently; events come in, retention
    runs, tasks are dropped and processes stop between any two actions, the store
    fails and the agent answers as it likes.  An event is still run at most once,
    every draft is what the agent said about its event, and with the locks of one
    process the agent always resumes the thread that is stored. *)

From stdpp Require Import base tactics list strings numbers gmap.
From Stdlib Require Import ZArith Lia Ascii.
From S2P Require Import Prelude.
From S2P Require Import Json.
From S2P Require Import Tables.
From S2P Require Import Channels.
From S2P Require Import ChatStore.
From S2P Require Import Tasks.
From S2P Require Import SlackQueue.
From S2P Require Import SlackSources.
From S2P Require Import Agents.
From S2P Require Import Conversations.
From S2P Require Import EventQueue.
From S2P Require Import Dispatch.

Module DispatchSafety.
Import Channels ChatStore Tasks SlackSources Agents Conversations EventQueue Dispatch.

(** ** Conversations *)

(** The text of the lock of a conversation, from the key of its row. *)
Definition text_of (id : ConversationId) : string :=
  let '(_, workspace, kind, channel, thread, user) := id in
  if String.eqb kind "dm" then "slack:" +:+ workspace +:+ ":dm:" +:+ channel +:+ ":" +:+ user
  else if String.eqb kind "thread"
  then "slack:" +:+ workspace +:+ ":thread:" +:+ channel +:+ ":" +:+ thread
  else "slack:" +:+ workspace +:+ ":channel:" +:+ channel.

(** A conversation the tables admit. *)
Definition storable (id : ConversationId) : Prop :=
  exists content, conversation_checks id content = true.

Lemma target_ids event :
  target_channel_id event = source_channel_id event
  /\ target_thread_id event = source_thread_id event.
Proof.
  unfold target_channel_id, source_channel_id, target_thread_id, source_thread_id.
  by destruct (ev_reply_target event) as [[]|].
Qed.

Lemma or_else_none {A} (a b : option A) : or_else a b = None -> a = None /\ b = None.
Proof. by destruct a. Qed.

(** A conversation that can be stored has one lock, whichever event it comes
    from. *)
Lemma conversation_text event source text key :
  ev_provider event = "slack" -> conversation_of event source = (text, key) ->
  storable (conversation_id key) -> text = text_of (conversation_id key).
Proof.
  unfold conversation_of, channel_conversation_key. intros -> Hc [content Hs]. cbn in Hc.
  destruct (or_else (rf_channel_id source) (source_channel_id event)) as [channel|] eqn:Ec.
  - destruct (ev_kind event), (rf_user_id source),
      (or_else (rf_thread_id source) (source_thread_id event)); cbn in Hc;
      by injection Hc as <- <-.
  - apply or_else_none in Ec as [_ Ec]. destruct (target_ids event) as [Ht _].
    rewrite Ht, Ec in Hc. exfalso.
    destruct (ev_kind event); cbn in Hc; injection Hc as <- <-; cbn in Hs; bool_facts; by cbn in *.
Qed.

Definition kind_name (kind : ConversationKind) : string :=
  match kind with
  | DirectConversation => "dm"
  | ThreadConversation => "thread"
  | ChannelConversation => "channel"
  end.

(** The conversation a task belongs to, from what the agent is told. *)
Definition task_conversation (task : AgentTask) : option ConversationId :=
  (fun c =>
     (tc_provider c, tc_workspace_id c, kind_name (tc_conversation_kind c),
      normalized_key_part (tc_channel_id c),
      match tc_conversation_kind c with
      | ThreadConversation => normalized_key_part (tc_thread_id c)
      | _ => ""
      end,
      match tc_conversation_kind c with
      | DirectConversation => normalized_key_part (tc_user_id c)
      | _ => ""
      end)) <$> t_channel task.

Lemma task_conversation_of event source text key resume context summary :
  ev_provider event = "slack" -> conversation_of event source = (text, key) ->
  task_conversation (build_slack_agent_task event source text key resume context summary
    (or_else (rf_channel_id source) (target_channel_id event))
    (or_else (rf_thread_id source) (target_thread_id event)))
  = Some (conversation_id key).
Proof.
  unfold conversation_of, channel_conversation_key. intros Hp Hc. rewrite Hp in Hc. cbn in Hc.
  destruct (target_ids event) as [Hch Hth]. rewrite Hch in Hc |- *. rewrite Hth.
  unfold task_conversation. cbn. rewrite Hp.
  destruct (or_else (rf_channel_id source) (source_channel_id event)) as [channel|] eqn:Ec.
  - destruct (ev_kind event), (rf_user_id source) as [user|] eqn:Hu,
      (or_else (rf_thread_id source) (source_thread_id event)) as [thread|];
      cbn in Hc; injection Hc as <- <-; cbn; by rewrite ?Hu, ?Hp.
  - apply or_else_none in Ec as [_ Ec]. rewrite Ec in Hc.
    destruct (ev_kind event); cbn in Hc; injection Hc as <- <-; cbn; by rewrite ?Hp.
Qed.

Definition session_of (thread : option string) : SessionMode :=
  match thread with None => Fresh | Some thread_id => Resume thread_id end.

(** The event a task is run for. *)
Definition run_key (task : AgentTask) : option (string * string * string) :=
  match t_source task with
  | FromChannelEvent provider workspace_id _ dedupe_key _ =>
      Some (provider, workspace_id, dedupe_key)
  | _ => None
  end.

(** ** What a dispatch holds *)

(** The claimed event and whether it was run, the agent's answer, the permit, and
    the thread of the conversation as it was read or written last. *)
Record Held := mkHeld {
  h_claim : option (Z * ChannelEvent * bool);
  h_answer : option (AgentTask * result string AgentTaskResult);
  h_permit : option string;
  h_thread : option (ChannelConversationKey * option string)
}.

Definition nothing : Held := mkHeld None None None None.

(** A draft repeats the answer the agent gave about the event. *)
Definition drafted (task : AgentTask) (r : AgentTaskResult) (draft : AgentDraft) : Prop :=
  draft_content r = Some (ad_content draft)
  /\ exists provider workspace_id reference,
     t_source task = FromChannelEvent provider workspace_id (ad_event_id draft)
                       (ad_dedupe_key draft) reference.

(** In a [strict] history only process 0 dispatches, with its locks. *)
Definition permitted (strict : bool) (q : nat) (h : Held) (key : ChannelConversationKey) : Prop :=
  strict = true ->
  q = O /\ exists text, h_permit h = Some text
    /\ (storable (conversation_id key) -> text = text_of (conversation_id key)).

Definition allowed (strict : bool) (q : nat) (h : Held) (a : Action) : Prop :=
  match a with
  | ClaimEvent => h = nothing
  | CompleteEvent id | FailEvent id _ => exists event ran, h_claim h = Some (id, event, ran)
  | ReleaseEvent id _ => exists event, h_claim h = Some (id, event, false)
  | TryAcquire q' _ => q' = q /\ h_permit h = None /\ h_thread h = None
  | DropPermit q' text => q' = q /\ h_permit h = Some text
  | ReadThreadId key => permitted strict q h key
  | RunAgent task =>
      (exists id event, h_claim h = Some (id, event, false)
         /\ run_key task = Some (event_key event))
      /\ exists key thread, h_thread h = Some (key, thread)
         /\ t_session task = session_of thread
         /\ task_conversation task = Some (conversation_id key)
  | SaveDraft id draft =>
      exists task r, h_answer h = Some (task, Ok r) /\ drafted task r draft
  | StoreThreadId key _ => exists thread, h_thread h = Some (key, thread)
  | _ => True
  end.

Definition after (_ : nat) (h : Held) (a : Action) : Answer a -> Held :=
  match a with
  | ClaimEvent => fun r =>
      match r with
      | Ok (Some claimed) =>
          mkHeld (Some (ce_id claimed, ce_event claimed, false)) (h_answer h) (h_permit h)
            (h_thread h)
      | _ => h
      end
  | CompleteEvent _ | FailEvent _ _ | ReleaseEvent _ _ => fun r =>
      match r with
      | Ok _ => mkHeld None (h_answer h) (h_permit h) (h_thread h)
      | Err _ => h
      end
  | TryAcquire _ text => fun acquired =>
      if acquired then mkHeld (h_claim h) (h_answer h) (Some text) (h_thread h) else h
  | DropPermit _ _ => fun _ => mkHeld (h_claim h) (h_answer h) None None
  | ReadThreadId key => fun r =>
      match r with
      | Ok thread => mkHeld (h_claim h) (h_answer h) (h_permit h) (Some (key, thread))
      | Err _ => h
      end
  | StoreThreadId key thread_id => fun r =>
      match r with
      | Ok _ => mkHeld (h_claim h) (h_answer h) (h_permit h) (Some (key, Some thread_id))
      | Err _ => h
      end
  | RunAgent task => fun answer =>
      mkHeld ((fun c => (c.1, true)) <$> h_claim h) (Some (task, answer)) (h_permit h) (h_thread h)
  | _ => fun _ => h
  end.

(** A dispatch guards exactly its permit. *)
Definition guarding (q : nat) (h : Held) (guards : list Action) : Prop :=
  guards = match h_permit h with Some text => [DropPermit q text] | None => [] end.

(** ** Every dispatch keeps to it *)

(** A processing stream touches the outbox and its indicator only. *)
Fixpoint quiet {A} (p : Task A) : Prop :=
  match p with
  | Ret _ => True
  | Do a guards k =>
      guards = []
      /\ match a with
         | ReadIndicator _ _ | EnqueueStop _ _ | CompleteIndicator _ _ => True
         | _ => False
         end
      /\ forall r, quiet (k r)
  end.

Class QuietStreams `{ProcessingStreams} : Prop :=
  finish_quiet request : quiet (finish_processing_stream request).

#[export] Instance noop_quiet : @QuietStreams noop_streams.
Proof. done. Qed.

#[export] Instance state_quiet : @QuietStreams state_streams.
Proof.
  intros request. cbn. split_and!; [done..|]. intros [[indicator|]|e]; cbn; [|done..].
  destruct (pi_status indicator); cbn; [|done..]. split_and!; [done..|]. intros [queued|e]; cbn; [|done].
  split_and!; [done..|]. by intros [[]|e].
Qed.

Section Follows.
Context `{Serde} `{PrettyJson} `{ErrorText} `{AgentBackend} `{QuietStreams}.
Context (strict : bool) (G : nat -> Held -> list Action -> Prop) (q : nat) (p : option string).
Context (HG : forall h, h_permit h = p -> G q h []).

Abbreviation follows_to := (Tasks.follows_to (allowed strict) G after).

Lemma quiet_follows {A} h (m : Task A) post :
  h_permit h = p -> quiet m -> (forall a, post a h) -> follows_to q h m post.
Proof.
  intros Hp. induction m as [a|a gs k IH]; cbn; [done|]. intros (-> & Ha & Hk) Hpost.
  split; [split; [by destruct a|by apply HG]|]. intros r.
  assert (after q h a r = h) as -> by (by destruct a). by apply IH.
Qed.

Definition ends (_ : result StateError DispatchOutcome) (h : Held) : Prop := h_permit h = p.

Lemma store_result_follows h id event source key resume summary r task ran :
  h_permit h = p -> h_claim h = Some (id, event, ran) -> h_answer h = Some (task, Ok r) ->
  t_source task = FromChannelEvent (ev_provider event) (ev_workspace_id event) (ev_event_id event)
                    (ev_dedupe_key event) (ev_source_reference event) ->
  (exists thread, h_thread h = Some (key, thread)) ->
  follows_to q h (store_result id event source key resume summary r) ends.
Proof.
  intros Hp Hc Ha Hs Hth. unfold store_result.
  apply follows_try. apply (follows_weaken _ _ _ _ _ _ (fun _ h' => h' = h)).
  { intros [u|e] h' ->; [|done]. apply follows_try.
    apply (follows_weaken _ _ _ _ _ _ (fun _ h' => h_permit h' = p /\ h_claim h' = h_claim h)).
    - intros [u1|e] h1 [Hp1 Hc1]; [|done]. apply follows_try.
      apply (follows_weaken _ _ _ _ _ _ (fun _ h' => h' = h1)).
      + intros [u2|e] h2 ->; [|done]. cbn. split; [split; [|by apply HG]|].
        * rewrite Hc1. eauto.
        * intros [[]|e]; cbn; done.
      + destruct (updated_conversation_summary _ _ _); cbn; [|done].
        split; [split; [done|by apply HG]|done].
    - destruct (codex_thread_id r) as [thread_id|]; cbn; [|done].
      case_bool_decide; cbn; [done|]. split; [split; [done|by apply HG]|]. by intros [[]|e]. }
  destruct (draft_content r) as [content|] eqn:Hr; cbn; [|done].
  split; [split; [|by apply HG]|done]. exists task, r. split; [done|]. split; [done|].
  cbn. rewrite Hs. eauto.
Qed.

Lemma store_failure_follows h id event source error ran :
  h_permit h = p -> h_claim h = Some (id, event, ran) ->
  follows_to q h (store_failure id event source error) ends.
Proof.
  intros Hp Hc. unfold store_failure. apply follows_bind.
  apply (follows_weaken _ _ _ _ _ _ (fun _ h' => h' = h)).
  - intros _ h' ->. cbn. split; [split; [|by apply HG]|].
    + rewrite Hc. eauto.
    + by intros [[]|e].
  - destruct (or_else _ _); [|done]. cbn. split; [split; [done|by apply HG]|]. intros now.
    apply follows_bind. apply quiet_follows; [done|apply finish_quiet|]. done.
Qed.

Lemma context_follows h provider event source channel thread limit summary :
  h_permit h = p ->
  follows_to q h (build_channel_context_envelope provider event source channel thread limit summary)
    (fun _ h' => h' = h).
Proof.
  intros Hp. unfold build_channel_context_envelope, bootstrap_slack_context.
  destruct provider; [|done].
  destruct (bootstrap_request event channel thread limit) as [[c request]|e]; cbn.
  - split; [split; [done|by apply HG]|]. intros [page|e]; cbn;
      (split; [split; [done|by apply HG]|]); by intros [[]|e'].
  - split; [split; [done|by apply HG]|]. by intros [[]|e'].
Qed.

Lemma converse_follows h provider limit id event source text key :
  h = mkHeld (Some (id, event, false)) None p None ->
  ev_provider event = "slack" -> conversation_of event source = (text, key) ->
  (strict = true -> q = O /\ p = Some text) ->
  follows_to q h (converse provider limit id event source text key) ends.
Proof.
  intros -> Hprov Hconv Hstrict. unfold converse. cbn zeta. apply follows_try. cbn.
  split; [split|].
  - intros Hs. destruct (Hstrict Hs) as [-> ->]. split; [done|]. exists text. split; [done|].
    by eapply conversation_text.
  - by apply HG.
  - intros [resume|e]; [|done]. cbn. split; [split; [done|by apply HG]|].
    intros [summary|e]; [|done].
    set (h1 := mkHeld _ _ _ _).
    apply (follows_try (allowed strict) G after).
    eapply follows_weaken; [|by apply context_follows].
    intros [context|e] h' ->; [|done]. cbn. split; [split|].
    + split; [by exists id, event|]. exists key, resume. split_and!; [done..|].
      exact (task_conversation_of event source text key resume context (fst <$> summary) Hprov Hconv).
    + by apply HG.
    + intros [r|error]; cbn.
      * eapply store_result_follows; [done..|]. by eexists.
      * eapply store_failure_follows; done.
Qed.
End Follows.

Section Call.
Context `{Serde} `{PrettyJson} `{ErrorText} `{AgentBackend} `{QuietStreams}.

Lemma scoped_follows {A} strict q text h (m : Task A) :
  h_permit h = Some text ->
  Tasks.follows_to (allowed strict) (fun q0 h gs => guarding q0 h (DropPermit q text :: gs)) after q h m
    (fun _ h' => h_permit h' = Some text) ->
  Tasks.follows (allowed strict) guarding after q h (scoped (DropPermit q text) m).
Proof.
  intros Hp Hm. unfold scoped. apply follows_bind, follows_guarded.
  eapply follows_weaken; [|exact Hm]. intros a h' Hh'. cbn. unfold guarding at 1. rewrite Hh'. done.
Qed.

#[local] Arguments scoped : simpl never.
#[local] Arguments converse : simpl never.

Lemma dispatch_follows strict q c :
  (strict = true -> q = O /\ c_conversation_locks c = true) ->
  Tasks.follows (allowed strict) guarding after q nothing (call q c).
Proof.
  intros Hstrict. unfold call, dispatch. cbn. split; [done|]. intros [[claimed|]|e]; cbn; [|done..].
  destruct (String.eqb_spec (ev_provider (ce_event claimed)) "slack") as [Hprov|]; cbn.
  2: { split; [split; [eauto|done]|]. by intros [[]|e]. }
  destruct (is_dispatchable_slack_event (ev_kind (ce_event claimed))); cbn.
  2: { split; [split; [eauto|done]|]. by intros [[]|e]. }
  split; [done|]. intros [source|e]; cbn; [|done].
  destruct (conversation_of (ce_event claimed) source) as [text key] eqn:Hconv.
  destruct (c_conversation_locks c); cbn.
  - split; [done|]. intros [|].
    + apply scoped_follows; [done|]. eapply converse_follows; [|done..|].
      * intros h Hh. unfold guarding. by rewrite Hh.
      * intros Hs. by destruct (Hstrict Hs).
    + cbn. split; [split; [eauto|done]|]. by intros [[]|e].
  - assert (forall h, h_permit h = None -> guarding q h []) as HG.
    { intros h Hh. unfold guarding. by rewrite Hh. }
    eapply follows_weaken; [|apply (converse_follows strict guarding q None HG); try done].
    + intros r h Hh. by apply HG.
    + intros Hs. by destruct (Hstrict Hs).
Qed.
End Call.

(** ** An event is run at most once *)

(** How often the agent was run for an event, and how often retention removed
    the event from the queue. *)
Definition runs (k : EventKey) (l : list Happened) : Z :=
  counted (fun h => match h with
    | AgentRan task _ => bool_decide (run_key task = Some k) | _ => false end) l.
Definition forgotten (k : EventKey) (l : list Happened) : Z :=
  counted (fun h => match h with Forgotten k' => bool_decide (k' = k) | _ => false end) l.

Abbreviation Claim := (Z * ChannelEvent * bool)%type.

(** Nobody has run the event since it entered the queue. *)
Definition unrun (k : EventKey) (d : ChatDb) (C : list Claim) : Prop :=
  (exists id event, (id, event, false) ∈ C /\ event_key event = k)
  \/ forall r, event_queue d !! k = Some r -> e_status r = "pending".

(** The invariant, over the claims and the answers that tasks hold. *)
Record once `{EventJson} (d : ChatDb) (l : list Happened) (C : list Claim)
    (R : list (AgentTask * result string AgentTaskResult)) : Prop := {
  o_ids : unique_ids (event_queue d);
  o_payload k r : event_queue d !! k = Some r ->
    exists event, event_to_string event = Some (e_payload_json r) /\ event_key event = k;
  o_distinct : NoDup (map (fun c : Claim => c.1.1) C);
  o_busy id event ran : (id, event, ran) ∈ C ->
    exists r, event_queue d !! event_key event = Some r /\ e_id r = id
      /\ e_status r = "processing";
  o_once k : runs k l <= forgotten k l + 1;
  o_unrun k : unrun k d C -> runs k l <= forgotten k l;
  o_answers task answer : (task, answer) ∈ R -> AgentRan task answer ∈ l;
  o_drafts id n draft : drafts d !! id = Some (n, draft) ->
    exists task r, AgentRan task (Ok r) ∈ l /\ drafted task r draft
}.

Section Once.
Context `{Serde} `{Sqlite} `{SqliteDates} `{EventJson}.
Context (event_reads_back : forall event text,
           event_to_string event = Some text -> event_from_str text = Some event).

Lemma event_once_weaken d l C R C' R' : C' ⊆+ C -> R' ⊆+ R -> once d l C R -> once d l C' R'.
Proof.
  intros HC HR [Hi Hp Hd Hb Ho Hu Ha Hdr]. split; try done.
  - eapply NoDup_sub; [|exact Hd]. by apply fmap_submseteq.
  - intros id event ran Hin. eapply Hb, elem_of_submseteq; [exact Hin|done].
  - intros k Hk. apply Hu. destruct Hk as [(id & event & Hin & Hk)|Hk]; [left|by right].
    exists id, event. split; [|done]. by eapply elem_of_submseteq.
  - intros task answer Hin. by eapply Ha, elem_of_submseteq.
Qed.

Lemma once_same d d' l C R : same_events d d' -> once d l C R -> once d' l C R.
Proof.
  intros [Hq Hd] [Hi Hp Hdi Hb Ho Hu Ha Hdr]. split; rewrite ?Hq, ?Hd; try done.
  intros k Hk. apply Hu. unfold unrun in *. by rewrite <- Hq.
Qed.

(** A row that changes its state in the hands of its task. *)
Lemma ids_insert d k r r' :
  unique_ids (event_queue d) -> event_queue d !! k = Some r -> e_id r' = e_id r ->
  unique_ids (<[k := r']> (event_queue d)).
Proof.
  intros Hu Hr Hid k1 k2 r1 r2 H1' H2' He.
  apply lookup_insert_Some in H1' as [[<- <-]|[? ?]], H2' as [[<- <-]|[? ?]]; [done| | |by eapply Hu].
  - eapply Hu; [exact Hr|done|congruence].
  - eapply Hu; [done|exact Hr|congruence].
Qed.

Lemma payload_insert d k r r' :
  (forall k r, event_queue d !! k = Some r ->
     exists event, event_to_string event = Some (e_payload_json r) /\ event_key event = k) ->
  event_queue d !! k = Some r -> e_payload_json r' = e_payload_json r ->
  forall k0 r0, <[k := r']> (event_queue d) !! k0 = Some r0 ->
    exists event, event_to_string event = Some (e_payload_json r0) /\ event_key event = k0.
Proof.
  intros Hp Hr He k0 r0 [[<- <-]|[_ Hr0]]%lookup_insert_Some; [|by apply Hp].
  rewrite He. by apply Hp.
Qed.

Lemma event_once_claim c d l C R r d' :
  once d l C R -> claim_next_channel_event c d = (r, d') ->
  once d' l (match r with Ok (Some x) => (ce_id x, ce_event x, false) :: C | _ => C end) R.
Proof.
  intros Ho Hc. pose proof Ho as [Hi Hp Hd Hb Hon Hu Ha Hdr].
  destruct (claim_event_effect Hi Hc) as [[-> Hno]|(k & x & x' & Hx & Hst & [Hid Hpl Hst'] & -> & ->)].
  { destruct r as [[x|]|e]; [by destruct (Hno x)|done..]. }
  destruct (Hp k x Hx) as (event & Hev & Hk). rewrite (event_reads_back _ _ Hev). cbn.
  assert (forall id e ran, (id, e, ran) ∈ C -> event_key e <> k) as Hother.
  { intros id e ran Hin Hek. destruct (Hb _ _ _ Hin) as (y & Hy & _ & Hys).
    rewrite Hek, Hx in Hy. injection Hy as <-. congruence. }
  split; cbn.
  - by eapply ids_insert.
  - by eapply payload_insert.
  - constructor; [|done]. intros ([[id e] ran] & Hid' & Hin)%list_elem_of_fmap. cbn in Hid'.
    destruct (Hb _ _ _ Hin) as (y & Hy & Hyid & _).
    apply (Hother _ _ _ Hin). apply (Hi _ _ _ _ Hy Hx). congruence.
  - intros id e ran [[= -> -> ->]|Hin]%elem_of_cons.
    + exists x'. rewrite Hk, lookup_insert_eq. done.
    + destruct (Hb _ _ _ Hin) as (y & Hy & ? & ?). exists y.
      rewrite lookup_insert_ne by (intros Hkk; by eapply Hother). done.
  - done.
  - intros k0 Hk0. apply Hu. destruct (decide (k0 = k)) as [->|Hne].
    { right. intros y Hy. by simplify_eq. }
    destruct Hk0 as [(id & e & [[= -> ->]|Hin]%elem_of_cons & Hek)|Hpend]; [congruence|left; eauto|right].
    intros y Hy. apply Hpend. cbn. by rewrite lookup_insert_ne.
  - done.
  - done.
Qed.

(** A task that ends its claim: the row it held moves on. *)
Lemma once_close id event ran status d l C R k x x' :
  once d l ((id, event, ran) :: C) R -> (status = "pending" -> ran = false) ->
  event_queue d !! k = Some x -> e_id x = id -> moved_on status x x' ->
  once (with_event_queue d (<[k := x']> (event_queue d))) l C R.
Proof.
  intros [Hi Hp Hd Hb Hon Hu Ha Hdr] Hran Hx Hidx [Hid Hpl Hst].
  destruct (Hb id event ran) as (y & Hy & Hyid & Hyst); [by left|].
  assert (event_key event = k) as Hek by (apply (Hi _ _ _ _ Hy Hx); congruence). subst k.
  rewrite Hx in Hy. injection Hy as <-. cbn in Hd. apply NoDup_cons in Hd as [Hnot Hd].
  assert (forall id' e ran', (id', e, ran') ∈ C -> event_key e <> event_key event) as Hother.
  { intros id' e ran' Hin Hek. destruct (Hb id' e ran') as (y & Hy & Hyid' & _); [by right|].
    rewrite Hek, Hx in Hy. injection Hy as <-. apply Hnot, list_elem_of_fmap.
    exists (id', e, ran'). cbn. split; [congruence|done]. }
  split; cbn; try done.
  - by eapply ids_insert.
  - by eapply payload_insert.
  - intros id' e ran' Hin. destruct (Hb id' e ran') as (y & Hy & ? & ?); [by right|]. exists y.
    rewrite lookup_insert_ne by (intros Hkk; by eapply Hother). done.
  - intros k0 Hk0. apply Hu. destruct Hk0 as [(id' & e & Hin & Hek)|Hpend].
    { left. exists id', e. split; [by right|done]. }
    cbn in Hpend. destruct (decide (k0 = event_key event)) as [->|Hne].
    + left. exists id, event. split; [|done]. rewrite lookup_insert_eq in Hpend.
      rewrite (Hran (eq_trans (eq_sym Hst) (Hpend x' eq_refl))). by left.
    + right. intros y Hy. apply Hpend. by rewrite lookup_insert_ne.
Qed.

Lemma runs_other k l h : (forall t a, h <> AgentRan t a) -> runs k (l ++ [h]) = runs k l.
Proof.
  intros Hh. unfold runs. rewrite counted_one. destruct h as [t a|k']; [by destruct (Hh t a)|lia].
Qed.

Lemma once_run id event task answer d l C R :
  run_key task = Some (event_key event) ->
  once d l ((id, event, false) :: C) R ->
  once d (l ++ [AgentRan task answer]) ((id, event, true) :: C) ((task, answer) :: R).
Proof.
  intros Hk [Hi Hp Hd Hb Hon Hu Ha Hdr].
  assert (forall k, forgotten k (l ++ [AgentRan task answer]) = forgotten k l) as Hf.
  { intros k. unfold forgotten. rewrite counted_one. lia. }
  assert (forall k, runs k (l ++ [AgentRan task answer])
            = runs k l + (if bool_decide (event_key event = k) then 1 else 0)) as Hr.
  { intros k. unfold runs. rewrite counted_one, Hk.
    by rewrite (bool_decide_ext (Some (event_key event) = Some k) (event_key event = k))
      by (split; congruence). }
  assert (unrun (event_key event) d ((id, event, false) :: C)) as Hun.
  { left. exists id, event. split; [by left|done]. }
  split; try done.
  - intros id' e ran [[= -> -> ->]|Hin]%elem_of_cons; [eapply Hb; by left|eapply Hb; by right].
  - intros k. rewrite Hr, Hf. specialize (Hon k). case_bool_decide as E; [|lia].
    rewrite <- E in *. specialize (Hu _ Hun). lia.
  - intros k Hk0. rewrite Hr, Hf. case_bool_decide as E.
    + exfalso. subst k. destruct (Hb id event false) as (y & Hy & Hyid & Hyst); [by left|].
      destruct Hk0 as [(id' & e & Hin & Hek)|Hpend].
      * apply elem_of_cons in Hin as [[=]|Hin].
        destruct (Hb id' e false) as (y' & Hy' & Hyid' & _); [by right|].
        rewrite Hek in Hy'. simplify_eq. cbn in Hd. apply NoDup_cons in Hd as [Hnot _].
        apply Hnot, list_elem_of_fmap. by exists (e_id y, e, false).
      * specialize (Hpend y Hy). congruence.
    + rewrite Z.add_0_r. apply Hu. destruct Hk0 as [(id' & e & Hin & Hek)|Hpend]; [left|by right].
      apply elem_of_cons in Hin as [[=]|Hin]. exists id', e. split; [by right|done].
  - intros t a [[= -> ->]|Hin]%elem_of_cons; apply elem_of_app; [right; by left|left; by apply Ha].
  - intros i n draft Hdraft. destruct (Hdr i n draft Hdraft) as (t & r & Hin & ?).
    exists t, r. rewrite elem_of_app. auto.
Qed.

Lemma once_draft id draft c d l C R r d' task res :
  once d l C R -> (task, Ok res) ∈ R -> drafted task res draft ->
  save_agent_draft id draft c d = (r, d') -> once d' l C R.
Proof.
  intros Ho Hin Hdr (Hq & _ & Hd)%save_draft_effect. destruct Hd as [->|(n & _ & _ & _ & _ & Hd)]; [done|].
  pose proof (o_answers _ _ _ _ Ho _ _ Hin) as Hran.
  destruct Ho as [Hi Hp Hdi Hb Hon Hu Ha Hdrs]. split; rewrite ?Hq; try done.
  - intros k Hk. apply Hu. unfold unrun in *. by rewrite <- Hq.
  - rewrite Hd. intros i m x [[<- [= <- <-]]|[_ Hx]]%lookup_insert_Some; [by exists task, res|].
    by eapply Hdrs.
Qed.

Lemma once_received source event c d l C R r d' :
  once d l C R -> persist_slack_source_event source event c d = (r, d') -> once d' l C R.
Proof.
  intros Ho (Hd & _ & Hq)%persist_effect.
  destruct Hq as [Hq|(x & Hnone & Hq & Hst & Hpl & Hfresh)]; [by apply (once_same d)|].
  destruct Ho as [Hi Hp Hdi Hb Hon Hu Ha Hdr]. split; rewrite ?Hd; try done.
  - rewrite Hq. intros k1 k2 r1 r2 H1' H2' He.
    apply lookup_insert_Some in H1' as [[<- <-]|[? Hr1]], H2' as [[<- <-]|[? Hr2]];
      [done| | |by eapply Hi].
    + by destruct (Hfresh _ _ Hr2).
    + by destruct (Hfresh _ _ Hr1).
  - rewrite Hq. intros k y [[<- <-]|[_ Hy]]%lookup_insert_Some; [by exists event|by apply Hp].
  - intros id e ran Hin. destruct (Hb id e ran Hin) as (y & Hy & Hid & Hs). exists y.
    rewrite Hq, lookup_insert_ne; [done|]. intros Hkk. congruence.
  - intros k Hk. apply Hu. destruct Hk as [?|Hpend]; [by left|right]. intros y Hy. apply Hpend.
    rewrite Hq, lookup_insert_ne; [done|]. intros Hkk. congruence.
Qed.

Lemma removed_event k d d' :
  k ∈ removed_events d d' <-> (exists r, event_queue d !! k = Some r) /\ event_queue d' !! k = None.
Proof.
  unfold removed_events. rewrite list_elem_of_In, filter_In, <- list_elem_of_In.
  rewrite negb_true_iff. split.
  - intros [Hin Hnone]. split; [|by destruct (event_queue d' !! k)].
    apply list_elem_of_fmap in Hin as ([k' r] & -> & Hr%elem_of_map_to_list). eauto.
  - intros [[r Hr] Hnone]. split; [|by rewrite Hnone].
    apply list_elem_of_fmap. exists (k, r). split; [done|]. by apply elem_of_map_to_list.
Qed.

Lemma forgotten_events_all k ks :
  0 <= forgotten k (map Forgotten ks) /\ (k ∈ ks -> 1 <= forgotten k (map Forgotten ks)).
Proof.
  unfold forgotten, counted. split; [lia|]. intros Hin.
  induction ks as [|k' ks IH]; [by apply elem_of_nil in Hin|]. cbn.
  destruct (bool_decide (k' = k)) eqn:E; cbn; [lia|]. bool_facts.
  apply elem_of_cons in Hin as [->|Hin]; [done|]. by apply IH.
Qed.

Lemma event_once_forget d d' l C R :
  events_retained d d' -> once d l C R -> once d' (l ++ map Forgotten (removed_events d d')) C R.
Proof.
  intros [Hsub Hgone Hdrs _] [Hi Hp Hd Hb Hon Hu Ha Hdr].
  set (ks := removed_events d d').
  assert (forall k, runs k (l ++ map Forgotten ks) = runs k l) as Hr.
  { intros k. unfold runs. rewrite counted_app.
    assert (counted (fun h => match h with
      | AgentRan task _ => bool_decide (run_key task = Some k) | _ => false end)
      (map Forgotten ks) = 0) as ->; [|lia]. unfold counted. by induction ks. }
  assert (forall k, forgotten k (l ++ map Forgotten ks)
    = forgotten k l + forgotten k (map Forgotten ks)) as Hf by (intros k; apply counted_app).
  split; try done.
  - intros k1 k2 r1 r2 H1'%Hsub H2'%Hsub. by eapply Hi.
  - intros k r Hk%Hsub. by apply Hp.
  - intros id e ran Hin. destruct (Hb id e ran Hin) as (r & Hr' & Hid & Hst). exists r.
    split; [|done]. destruct (event_queue d' !! event_key e) as [r'|] eqn:E.
    + apply Hsub in E. congruence.
    + destruct (Hgone _ r Hr' E); congruence.
  - intros k. rewrite Hr, Hf. specialize (Hon k). pose proof (forgotten_events_all k ks). lia.
  - intros k Hun. rewrite Hr, Hf. pose proof (forgotten_events_all k ks) as [Hge Hone].
    destruct (decide (k ∈ ks)) as [Hk|Hk]; [specialize (Hon k); specialize (Hone Hk); lia|].
    enough (runs k l <= forgotten k l) by lia. apply Hu.
    destruct Hun as [?|Hall]; [by left|right]. intros r Hr'. apply Hall.
    destruct (event_queue d' !! k) as [r'|] eqn:E; [apply Hsub in E; congruence|].
    contradict Hk. apply removed_event. eauto.
  - intros t a Hin. apply elem_of_app. left. by apply Ha.
  - intros i n draft Hd'%Hdrs. destruct (Hdr _ _ _ Hd') as (t & r & Hin & ?).
    exists t, r. rewrite elem_of_app. auto.
Qed.
End Once.

Section OnceDiscipline.
Context `{Serde} `{PrettyJson} `{ErrorText} `{AgentBackend} `{QuietStreams}.
Context `{Sqlite} `{SqliteDates} `{EventJson}.
Context (event_reads_back : forall event text,
           event_to_string event = Some text -> event_from_str text = Some event).

Definition claims (hs : list (nat * Held)) : list Claim := omap (fun t => h_claim t.2) hs.
Definition answers (hs : list (nat * Held)) : list (AgentTask * result string AgentTaskResult) :=
  omap (fun t => h_answer t.2) hs.

Definition runs_once (s : Shared) (hs : list (nat * Held)) : Prop :=
  once (chat s) (happened s) (claims hs) (answers hs).

(** An action changes what its own task holds. *)
Lemma event_once_at s s' hs i q h h' :
  hs !! i = Some (q, h) ->
  (forall C R, once (chat s) (happened s) (option_list (h_claim h) ++ C)
                 (option_list (h_answer h) ++ R) ->
     once (chat s') (happened s') (option_list (h_claim h') ++ C)
       (option_list (h_answer h') ++ R)) ->
  runs_once s hs -> runs_once s' (<[i := (q, h')]> hs).
Proof.
  intros Hi Hstep Ho. unfold runs_once, claims, answers.
  eapply event_once_weaken; [..|apply (Hstep (claims (delete i hs)) (answers (delete i hs)))].
  - apply Permutation_submseteq, (omap_insert (fun t => h_claim t.2) _ _ _ (q, h') Hi).
  - apply Permutation_submseteq, (omap_insert (fun t => h_answer t.2) _ _ _ (q, h') Hi).
  - eapply event_once_weaken; [..|exact Ho]; apply Permutation_submseteq; symmetry.
    + apply (omap_at (fun t => h_claim t.2) _ _ _ Hi).
    + apply (omap_at (fun t => h_answer t.2) _ _ _ Hi).
Qed.

(** An action that changes neither the events nor what counts of the task. *)
Lemma once_quiet s s' hs i q h h' :
  hs !! i = Some (q, h) -> h_claim h' = h_claim h -> h_answer h' = h_answer h ->
  same_events (chat s) (chat s') -> happened s' = happened s ->
  runs_once s hs -> runs_once s' (<[i := (q, h')]> hs).
Proof.
  intros Hi Hc Ha Hs Hh. apply (event_once_at s s' hs i q h h' Hi). rewrite Hc, Ha, Hh. intros C R.
  by apply once_same.
Qed.

Lemma once_closed s hs i q h id event ran status d r :
  hs !! i = Some (q, h) -> h_claim h = Some (id, event, ran) -> (status = "pending" -> ran = false) ->
  ((d = chat s /\ (r = Ok tt -> forall k x, event_queue (chat s) !! k = Some x -> e_id x = id ->
                     e_status x <> "processing"))
   \/ exists k x x', r = Ok tt /\ event_queue (chat s) !! k = Some x /\ e_id x = id
      /\ e_status x = "processing" /\ moved_on status x x'
      /\ d = with_event_queue (chat s) (<[k := x']> (event_queue (chat s)))) ->
  runs_once s hs ->
  runs_once (with_chat s d)
    (<[i := (q, match r : result StateError unit with
                | Ok _ => mkHeld None (h_answer h) (h_permit h) (h_thread h)
                | Err _ => h
                end)]> hs).
Proof.
  intros Hi Hc Hran Heff. apply event_once_at with (h := h); [done|]. rewrite Hc. cbn [happened with_chat chat].
  intros C R Ho. cbn in Ho. destruct Heff as [[-> Hno]|(k & x & x' & -> & Hx & Hid & _ & Hm & ->)].
  - destruct r as [[]|e]; [exfalso|by rewrite Hc].
    destruct (o_busy _ _ _ _ Ho id event ran) as (x & Hx & Hid & Hst); [by left|].
    by apply (Hno eq_refl _ _ Hx Hid).
  - cbn. by eapply once_close.
Qed.

Lemma event_once_action s hs i q h a input r s' :
  runs_once s hs -> hs !! i = Some (q, h) -> allowed false q h a -> perform a input s = (r, s') ->
  runs_once s' (<[i := (q, after q h a r)]> hs).
Proof.
  intros Ho Hi Hal Hp. pose proof (o_ids _ _ _ _ Ho) as Hids.
  destruct a; cbn [allowed perform after] in *; unfold on_chat in Hp;
    try (injection Hp as <- <-; by apply (once_quiet s _ hs i q h)).
  - subst h. destruct (claim_next_channel_event _ _) as [r0 d] eqn:E. injection Hp as <- <-.
    revert Ho. apply event_once_at with (h := nothing); [done|]. intros C R Ho. cbn in Ho |- *.
    pose proof (event_once_claim event_reads_back _ _ _ _ _ _ _ Ho E) as Hn.
    by destruct r0 as [[x|]|e].
  - destruct Hal as (event & ran & Hc).
    destruct (complete_channel_event id _ _) as [r0 d] eqn:E. injection Hp as <- <-.
    eapply once_closed; [done|done| |exact (complete_event_effect Hids E)|done]. done.
  - destruct Hal as (event & Hc).
    destruct (release_channel_event id delay _ _) as [r0 d] eqn:E. injection Hp as <- <-.
    eapply once_closed; [done|done| |exact (release_event_effect Hids E)|done]. done.
  - destruct Hal as (event & ran & Hc).
    destruct (fail_channel_event id error _ _) as [r0 d] eqn:E. injection Hp as <- <-.
    eapply once_closed; [done|done| |exact (fail_event_effect Hids E)|done]. done.
  - unfold try_acquire in Hp. case_bool_decide; injection Hp as <- <-; by apply (once_quiet s _ hs i q h).
  - injection Hp as <- <-.
    destruct (channel_conversation_thread_id _ _ _); by apply (once_quiet s _ hs i q h).
  - destruct (record_context_fetch_attempt _ _ _) as [r0 d] eqn:E. injection Hp as <- <-.
    apply (once_quiet s _ hs i q h); try done. by apply record_fetch_effect in E as [? _].
  - destruct Hal as [(id & event & Hc & Hk) _]. injection Hp as <- <-.
    revert Ho. apply event_once_at with (h := h); [done|]. rewrite Hc. intros C R Ho. cbn in Ho |- *.
    apply (once_run id event); [done|]. eapply event_once_weaken; [..|exact Ho]; [done|].
    by apply submseteq_inserts_l.
  - destruct Hal as (task & res & Ha & Hd).
    destruct (save_agent_draft id draft _ _) as [r0 d] eqn:E. injection Hp as <- <-.
    rewrite list_insert_id by done. eapply once_draft; [exact Ho| |exact Hd|exact E].
    apply list_elem_of_omap. exists (q, h). split; [|done]. by eapply list_elem_of_lookup_2.
  - destruct (upsert_channel_conversation_thread_id _ _ _ _) as [r0 d] eqn:E. injection Hp as <- <-.
    apply (once_quiet s _ hs i q h); try done; [by destruct r0..|].
    apply store_thread_effect in E as [[-> _]|(_ & _ & ->)]; done.
  - destruct (upsert_channel_conversation_summary _ _ _ _) as [r0 d] eqn:E. injection Hp as <- <-.
    apply (once_quiet s _ hs i q h); try done. by apply store_summary_effect in E as [? _].
  - destruct (enqueue_slack_stop_stream_delivery _ _ _ _) as [r0 d] eqn:E. injection Hp as <- <-.
    apply (once_quiet s _ hs i q h); try done. by apply enqueue_stop_same in E as [? _].
  - destruct (complete_slack_processing_indicator _ _ _ _) as [r0 d] eqn:E. injection Hp as <- <-.
    apply (once_quiet s _ hs i q h); try done. by apply complete_indicator_same in E as [? _].
Qed.

Lemma release_events gs s : same_events (chat s) (chat (release_all release gs s))
  /\ happened (release_all release gs s) = happened s.
Proof.
  revert s. induction gs as [|g gs IH]; intros s; [by split|]. cbn.
  destruct (IH (release g s)) as [[Hq Hd] Hh]. split; [split|].
  - etransitivity; [exact Hq|]. by destruct g.
  - etransitivity; [exact Hd|]. by destruct g.
  - etransitivity; [exact Hh|]. by destruct g.
Qed.

Lemma once_discipline :
  Discipline (A := result StateError DispatchOutcome)
    perform call release process_stopped environment nothing (allowed false) guarding after runs_once.
Proof.
  split.
  - intros q c. by apply dispatch_follows.
  - done.
  - intros s hs q. unfold runs_once, claims, answers. rewrite !omap_app. cbn. by rewrite !app_nil_r.
  - intros *. apply event_once_action.
  - intros s hs i q h gs Ho Hi _. destruct (release_events gs s) as [Hs Hh]. revert Ho.
    apply event_once_at with (h := h); [done|]. rewrite Hh. intros C R Ho.
    eapply once_same; [exact Hs|]. eapply event_once_weaken; [..|exact Ho]; by apply submseteq_inserts_l.
  - intros s hs q Ho. eapply event_once_weaken; [..|exact Ho]; by apply omap_without.
  - intros s hs [source event c|ws now policy c|o rc t n] Ho; cbn [environment].
    + unfold on_chat. destruct (persist_slack_source_event _ _ _ _) as [r d] eqn:E. cbn.
      by eapply once_received.
    + destruct (cleanup_retained_chat _ _ _ _ _) as [r d] eqn:E. cbn.
      apply event_once_forget; [|done]. by eapply cleanup_events.
    + by eapply once_same; [|exact Ho].
Qed.
End OnceDiscipline.

(** ** The agent resumes the stored thread *)

Definition permit_of (t : nat * Held) : option (nat * string) := (fun text => (t.1, text)) <$> h_permit t.2.
Definition permits (hs : list (nat * Held)) : list (nat * string) := omap permit_of hs.

(** A task that knows a conversation's thread has its lock, in process 0, and
    knows the thread that is stored. *)
Definition knows (s : Shared) (q : nat) (h : Held) : Prop :=
  forall key thread, h_thread h = Some (key, thread) ->
    q = O
    /\ (exists text, h_permit h = Some text
        /\ (storable (conversation_id key) -> text = text_of (conversation_id key)))
    /\ conversations (chat s) !! conversation_id key = thread.

Record settled (s : Shared) (hs : list (nat * Held)) : Prop := {
  st_permits : NoDup (permits hs);
  st_locked q text : (q, text) ∈ permits hs -> text ∈ locked s q;
  st_knows i q h : hs !! i = Some (q, h) -> knows s q h;
  st_stored id thread : conversations (chat s) !! id = Some thread -> storable id
}.

Lemma permits_at hs i q h :
  hs !! i = Some (q, h) -> permits hs ≡ₚ option_list (permit_of (q, h)) ++ permits (delete i hs).
Proof. apply omap_at. Qed.

Lemma permits_insert hs i q h h' :
  hs !! i = Some (q, h) ->
  permits (<[i := (q, h')]> hs) ≡ₚ option_list (permit_of (q, h')) ++ permits (delete i hs).
Proof. apply omap_insert. Qed.

(** Two tasks never have the same permit. *)
Lemma permits_exclusive hs i j q h1 h2 text :
  NoDup (permits hs) -> hs !! i = Some (q, h1) -> hs !! j = Some (q, h2) ->
  h_permit h1 = Some text -> h_permit h2 = Some text -> i = j.
Proof.
  intros Hnd Hi Hj H1 H2. destruct (decide (i = j)) as [|Hne]; [done|]. exfalso.
  rewrite (permits_at hs i q h1 Hi) in Hnd. unfold permit_of at 1 in Hnd. cbn in Hnd. rewrite H1 in Hnd.
  apply NoDup_cons in Hnd as [Hnot _]. apply Hnot. apply list_elem_of_omap.
  exists (q, h2). split; [|unfold permit_of; cbn; by rewrite H2].
  rewrite delete_take_drop. destruct (decide (j < i)%nat).
  - apply elem_of_app. left. apply (list_elem_of_lookup_2 _ j). by rewrite lookup_take_lt.
  - apply elem_of_app. right. apply (list_elem_of_lookup_2 _ (j - S i)). rewrite lookup_drop.
    by replace (S i + (j - S i))%nat with j by lia.
Qed.

Lemma settled_held s s' hs i q h h' :
  settled s hs -> hs !! i = Some (q, h) ->
  (forall q, locked s' q = locked s q) -> conversations (chat s') = conversations (chat s) ->
  h_permit h' = h_permit h -> knows s q h' -> settled s' (<[i := (q, h')]> hs).
Proof.
  intros [Hp Hl Hk Hst] Hi Hlock Hconv Hper Hknow.
  assert (permits (<[i := (q, h')]> hs) ≡ₚ permits hs) as Hperm.
  { rewrite (permits_insert hs i q h h' Hi), (permits_at hs i q h Hi).
    unfold permit_of. cbn. by rewrite Hper. }
  split.
  - by rewrite Hperm.
  - intros q' text. rewrite Hperm, Hlock. apply Hl.
  - intros j q' h'' [(<- & [= <- <-] & _)|[Hne Hj]]%list_lookup_insert_Some.
    + unfold knows. rewrite Hconv. exact Hknow.
    + unfold knows. rewrite Hconv. by apply (Hk j).
  - rewrite Hconv. done.
Qed.

Lemma locked_with s q l q' :
  locked (with_locked s q l) q' = if decide (q' = q) then l else locked s q'.
Proof.
  unfold locked, with_locked. cbn. case_decide as Hq.
  - subst q'. by rewrite lookup_insert_eq.
  - by rewrite lookup_insert_ne.
Qed.

Lemma settled_acquire s hs i q h text :
  settled s hs -> hs !! i = Some (q, h) -> h_permit h = None -> h_thread h = None ->
  text ∉ locked s q ->
  settled (with_locked s q ({[text]} ∪ locked s q))
    (<[i := (q, mkHeld (h_claim h) (h_answer h) (Some text) (h_thread h))]> hs).
Proof.
  intros [Hp Hl Hk Hst] Hi Hper Hth Hnot. set (h' := mkHeld _ _ _ _).
  assert (permits (<[i := (q, h')]> hs) ≡ₚ (q, text) :: permits hs) as Hperm.
  { rewrite (permits_insert hs i q h h' Hi), (permits_at hs i q h Hi).
    unfold permit_of. cbn. by rewrite Hper. }
  split.
  - rewrite Hperm. constructor; [|done]. by intros Hin%Hl.
  - intros q' t. rewrite Hperm, locked_with.
    intros [[= -> ->]|Hin%Hl]%elem_of_cons; case_decide; set_solver.
  - intros j q' h'' [(<- & [= <- <-] & _)|[Hne Hj]]%list_lookup_insert_Some.
    + intros key thread Ht. cbn in Ht. congruence.
    + by apply (Hk j).
  - done.
Qed.

Lemma settled_released s hs i q h h' text :
  settled s hs -> hs !! i = Some (q, h) -> h_permit h = Some text ->
  h_permit h' = None -> h_thread h' = None ->
  settled (drop_permit q text s) (<[i := (q, h')]> hs).
Proof.
  intros [Hp Hl Hk Hst] Hi Hper Hper' Hth'.
  assert (permits hs ≡ₚ (q, text) :: permits (<[i := (q, h')]> hs)) as Hperm.
  { rewrite (permits_insert hs i q h h' Hi), (permits_at hs i q h Hi).
    unfold permit_of. cbn. by rewrite Hper, Hper'. }
  rewrite Hperm in Hp. apply NoDup_cons in Hp as [Hnot Hp]. split.
  - done.
  - intros q' t Hin. unfold drop_permit. rewrite locked_with.
    assert (t ∈ locked s q') as Hin' by (apply Hl; rewrite Hperm; by right).
    case_decide as Hq; [|done]. subst q'. apply elem_of_difference. split; [done|].
    intros ->%elem_of_singleton. done.
  - intros j q' h'' [(<- & [= <- <-] & _)|[Hne Hj]]%list_lookup_insert_Some.
    + intros key thread Ht. congruence.
    + by apply (Hk j).
  - done.
Qed.

Lemma settled_store s hs i q h key thread0 thread_id :
  settled s hs -> hs !! i = Some (q, h) -> h_thread h = Some (key, thread0) ->
  storable (conversation_id key) ->
  settled (with_chat s (with_conversations (chat s)
             (<[conversation_id key := thread_id]> (conversations (chat s)))))
    (<[i := (q, mkHeld (h_claim h) (h_answer h) (h_permit h) (Some (key, Some thread_id)))]> hs).
Proof.
  intros Hs Hi Hth Hok. pose proof Hs as [Hp Hl Hk Hst]. set (h' := mkHeld _ _ _ _).
  assert (permits (<[i := (q, h')]> hs) ≡ₚ permits hs) as Hperm.
  { by rewrite (permits_insert hs i q h h' Hi), (permits_at hs i q h Hi). }
  destruct (Hk i q h Hi key thread0 Hth) as (-> & (text & Ht & Htext) & _). split.
  - by rewrite Hperm.
  - intros q' t. rewrite Hperm. apply Hl.
  - intros j q' h'' [(<- & [= <- <-] & _)|[Hne Hj]]%list_lookup_insert_Some.
    + intros key' thread [= <- <-]. split_and!; [done|eauto|]. cbn. by rewrite lookup_insert_eq.
    + intros key' thread Hth'. destruct (Hk j q' h'' Hj key' thread Hth') as (-> & (text' & Ht' & Htext') & Hc).
      split_and!; [done|eauto|]. cbn. rewrite lookup_insert_ne; [done|]. intros Heq.
      destruct Hne. eapply (permits_exclusive hs); [done..|].
      rewrite Ht'. rewrite Htext', Htext by (done || by rewrite <- Heq). by rewrite Heq.
  - intros id thread. cbn. intros [[<- <-]|[_ Hc]]%lookup_insert_Some; [done|by eapply Hst].
Qed.

Section SettledDiscipline.
Context `{Serde} `{PrettyJson} `{ErrorText} `{AgentBackend} `{QuietStreams}.
Context `{Sqlite} `{SqliteDates} `{EventJson}.

(** One process serves, and every worker of it uses its locks. *)
Definition served (q : nat) (c : Call) : bool := bool_decide (q = O) && c_conversation_locks c.

Definition served_call (q : nat) (c : Call) : Task (result StateError DispatchOutcome) :=
  if served q c then call q c else Ret (Ok Idle).

Lemma settled_chat s hs d :
  conversations d = conversations (chat s) -> settled s hs -> settled (with_chat s d) hs.
Proof.
  intros Hc [Hp Hl Hk Hst]. split; try done.
  - intros i q h Hi. unfold knows. cbn. rewrite Hc. by apply (Hk i).
  - cbn. by rewrite Hc.
Qed.

Lemma settled_action s hs i q h a input r s' :
  settled s hs -> hs !! i = Some (q, h) -> allowed true q h a -> perform a input s = (r, s') ->
  settled s' (<[i := (q, after q h a r)]> hs).
Proof.
  intros Hs Hi Hal Hp. pose proof (st_knows _ _ Hs i q h Hi) as Hk.
  destruct a; cbn [allowed perform after] in *; unfold on_chat in Hp;
    try (injection Hp as <- <-; by apply (settled_held s _ hs i q h)).
  - subst h. destruct (claim_next_channel_event _ _) as [r0 d] eqn:E. injection Hp as <- <-.
    assert (conversations d = conversations (chat s)) as Hc by (by eapply claim_event_conversations).
    apply (settled_held s _ hs i q nothing); try done; by destruct r0 as [[x|]|e].
  - destruct (complete_channel_event id _ _) as [r0 d] eqn:E. injection Hp as <- <-.
    apply (settled_held s _ hs i q h); try done; [|by destruct r0..].
    by apply complete_event_conversations in E.
  - destruct (release_channel_event id delay _ _) as [r0 d] eqn:E. injection Hp as <- <-.
    apply (settled_held s _ hs i q h); try done; [|by destruct r0..].
    by apply release_event_conversations in E.
  - destruct (fail_channel_event id error _ _) as [r0 d] eqn:E. injection Hp as <- <-.
    apply (settled_held s _ hs i q h); try done; [|by destruct r0..].
    by apply fail_event_conversations in E.
  - destruct Hal as (-> & Hper & Hth). unfold try_acquire in Hp.
    case_bool_decide; injection Hp as <- <-; [by apply (settled_held s _ hs i q h)|].
    by apply settled_acquire.
  - destruct Hal as [-> Hper]. injection Hp as <- <-. by eapply settled_released.
  - injection Hp as <- <-. apply (settled_held s _ hs i q h); try done.
    + by destruct (channel_conversation_thread_id _ _ _).
    + unfold channel_conversation_thread_id, reading. destruct (fault _); [done|].
      intros key' thread [= <- <-]. destruct (Hal eq_refl) as (-> & text & Ht & Htext).
      split_and!; [done|cbn; eauto|done].
  - destruct (record_context_fetch_attempt _ _ _) as [r0 d] eqn:E. injection Hp as <- <-.
    apply (settled_held s _ hs i q h); try done. by apply record_fetch_effect in E as [_ ?].
  - destruct (save_agent_draft id draft _ _) as [r0 d] eqn:E. injection Hp as <- <-.
    apply (settled_held s _ hs i q h); try done. by apply save_draft_effect in E as (_ & ? & _).
  - destruct Hal as [thread Hth].
    destruct (upsert_channel_conversation_thread_id _ _ _ _) as [r0 d] eqn:E. injection Hp as <- <-.
    apply store_thread_effect in E as [[-> Hr]|(-> & Hck & ->)].
    + apply (settled_held s _ hs i q h); try done; destruct r0 as [[]|]; done.
    + eapply settled_store; [done..|]. by exists thread_id.
  - destruct (upsert_channel_conversation_summary _ _ _ _) as [r0 d] eqn:E. injection Hp as <- <-.
    apply (settled_held s _ hs i q h); try done. by apply store_summary_effect in E as [_ ?].
  - destruct (enqueue_slack_stop_stream_delivery _ _ _ _) as [r0 d] eqn:E. injection Hp as <- <-.
    apply (settled_held s _ hs i q h); try done. by apply enqueue_stop_same in E as [_ ?].
  - destruct (complete_slack_processing_indicator _ _ _ _) as [r0 d] eqn:E. injection Hp as <- <-.
    apply (settled_held s _ hs i q h); try done. by apply complete_indicator_same in E as [_ ?].
Qed.

Lemma settled_stopped s hs q :
  settled s hs -> settled (process_stopped q s) (map (without_owner q nothing) hs).
Proof.
  intros [Hp Hl Hk Hst]. pose proof (omap_without permit_of q nothing hs eq_refl) as Hsub. split.
  - by eapply NoDup_sub.
  - intros q' text Hin. assert (q' <> q) as Hne.
    { apply list_elem_of_omap in Hin as ([q0 h] & Hin & Ht).
      apply list_elem_of_fmap in Hin as ([q1 h1] & Heq & _). unfold without_owner in Heq.
      cbn in Heq. case_decide as Hq; injection Heq as -> ->; [done|]. unfold permit_of in Ht.
      cbn in Ht. destruct (h_permit h1); [|done]. by injection Ht as -> _. }
    unfold locked, process_stopped. cbn. rewrite lookup_delete_ne by done.
    apply Hl. by eapply elem_of_submseteq.
  - intros i q' h Hi. apply list_lookup_fmap_Some in Hi as ([q1 h1] & Heq & Hi).
    unfold without_owner in Heq. cbn in Heq. case_decide as Hq; injection Heq as -> ->.
    + by intros key thread.
    + by apply (Hk i).
  - done.
Qed.

Lemma settled_discipline :
  Discipline (A := result StateError DispatchOutcome)
    perform served_call release process_stopped environment nothing (allowed true) guarding after
    settled.
Proof.
  split.
  - intros q c. unfold served_call, served. destruct (bool_decide_reflect (q = O)) as [->|]; [|done].
    destruct (c_conversation_locks c) eqn:Hc; [|done]. cbn [andb]. by apply dispatch_follows.
  - done.
  - intros s hs q [Hp Hl Hk Hst].
    assert (permits (hs ++ [(q, nothing)]) = permits hs) as Hperm.
    { unfold permits. rewrite omap_app. cbn. by rewrite app_nil_r. }
    split; rewrite ?Hperm; try done. intros i q' h [Hi|[_ Hi]]%lookup_app_Some; [by apply (Hk i)|].
    apply list_lookup_singleton_Some in Hi as [_ [= <- <-]]. by intros key thread.
  - intros *. apply settled_action.
  - intros s hs i q h gs Hs Hi Hg. unfold guarding in Hg.
    destruct (h_permit h) as [text|] eqn:Hper; subst gs; cbn.
    + by eapply settled_released.
    + by apply (settled_held s _ hs i q h).
  - intros s hs q. apply settled_stopped.
  - intros s hs [source event c|ws now policy c|o rc t n] Hs; cbn [environment].
    + unfold on_chat. destruct (persist_slack_source_event _ _ _ _) as [r d] eqn:E. cbn.
      apply settled_chat; [|done]. by apply persist_effect in E as (_ & ? & _).
    + destruct (cleanup_retained_chat _ _ _ _ _) as [r d] eqn:E.
      apply cleanup_events, er_conversations in E.
      destruct (settled_chat s hs d E Hs) as [Hp Hl Hk Hst]. by split.
    + by apply settled_chat.
Qed.
End SettledDiscipline.

(** ** Guarantees *)

Section Guarantees.
Context `{Serde} `{PrettyJson} `{ErrorText} `{AgentBackend} `{QuietStreams}.
Context `{Sqlite} `{SqliteDates} `{EventJson}.

Definition reached (ms : list Dispatch.Move) : Shared := (history ms start).1.

(** Task [i] of a history waits to hand its task to the agent. *)
Definition about_to_run (ms : list Dispatch.Move) (i : nat) (task : AgentTask) : Prop :=
  exists q gs k, (history ms start).2 !! i = Some (q, Some (Do (RunAgent task) gs k)).

(** Every dispatch is one of process 0 that uses its locks. *)
Definition one_server (ms : list Dispatch.Move) : Prop :=
  forall q c, Tasks.Start q c ∈ ms -> served q c = true.

Lemma reached_settled ms :
  one_server ms -> pool_ok (allowed true) guarding after settled (history ms start).
Proof.
  intros Hone. unfold history.
  rewrite (run_moves_ext perform call served_call).
  - apply (histories_keep perform served_call release process_stopped environment nothing);
      [apply settled_discipline|].
    exists (@nil (nat * Held)). split; [|done].
    split; [by constructor|by intros ? ? ?%elem_of_nil|done|].
    intros id thread. cbn. by rewrite lookup_empty.
  - intros q c Hin. unfold served_call. by rewrite (Hone q c Hin).
Qed.

Lemma ready_held (w : Dispatch.World) strict I i task :
  pool_ok (allowed strict) guarding after I w ->
  (exists q gs k, w.2 !! i = Some (q, Some (Do (RunAgent task) gs k))) ->
  exists hs q h, I w.1 hs /\ hs !! i = Some (q, h) /\ allowed strict q h (RunAgent task).
Proof.
  intros (hs & HI & Hall) (q & gs & k & Hi).
  destruct (Forall2_lookup_r _ _ _ _ _ Hall Hi) as ([q' h] & Eh & Hq & Hp). cbn in Hq, Hp. subst q'.
  exists hs, q, h. split_and!; [done|done|]. apply Hp.
Qed.

Section Once.
Context (event_reads_back : forall event text,
           event_to_string event = Some text -> event_from_str text = Some event).

Lemma reached_runs_once ms : exists hs, runs_once (reached ms) hs.
Proof.
  assert (pool_ok (allowed false) guarding after runs_once (history ms start)) as (hs & Hs & _).
  { apply (histories_keep perform call release process_stopped environment nothing);
      [by apply once_discipline|].
    exists (@nil (nat * Held)). split; [|done].
    split; cbn; try (by intros; set_solver); try done. by constructor. }
  by exists hs.
Qed.

(** C7. At most once: in every history of concurrent dispatches of any number of
    processes, with dropped tasks, stopped processes, storage failures and any
    answers of the agent, the agent is run for an event at most once for each
    time the event was in the queue; without a retention that removed the event,
    that is once.  The queue's JSON reads back what was written. *)
Theorem event_is_run_at_most_once ms k :
  runs k (happened (reached ms)) <= forgotten k (happened (reached ms)) + 1.
Proof. destruct (reached_runs_once ms) as [hs Hs]. apply (o_once _ _ _ _ Hs). Qed.

(** Every stored draft is what the agent answered when it was run for the
    draft's event. *)
Theorem drafts_are_answers ms id n draft :
  drafts (chat (reached ms)) !! id = Some (n, draft) ->
  exists task r, AgentRan task (Ok r) ∈ happened (reached ms) /\ drafted task r draft.
Proof. destruct (reached_runs_once ms) as [hs Hs]. apply (o_drafts _ _ _ _ Hs). Qed.
End Once.

(** C8. No lost thread: while one process serves, with any number of workers,
    dropped tasks and restarts, an agent is always handed the thread that is
    stored for its conversation at that moment, and a fresh session exactly when
    none is stored. *)
Theorem agent_resumes_stored_thread ms i task :
  one_server ms -> about_to_run ms i task ->
  exists id, task_conversation task = Some id
    /\ t_session task = session_of (conversations (chat (reached ms)) !! id).
Proof.
  intros Hone Hi. destruct (ready_held _ _ _ _ _ (reached_settled ms Hone) Hi)
    as (hs & q & h & Hs & Hh & _ & key & thread & Hth & Hses & Hconv).
  exists (conversation_id key). split; [done|].
  destruct (st_knows _ _ Hs i q h Hh key thread Hth) as (_ & _ & Hc). rewrite Hses. by rewrite <- Hc.
Qed.

(** C9. One at a time: while one process serves, two of its workers never hand
    tasks of the same conversation to the agent. *)
Theorem conversation_is_served_alone ms i j task1 task2 id :
  one_server ms -> about_to_run ms i task1 -> about_to_run ms j task2 -> i <> j ->
  task_conversation task1 = Some id -> storable id -> task_conversation task2 <> Some id.
Proof.
  intros Hone (q1 & gs1 & k1 & Hi) (q2 & gs2 & k2 & Hj) Hne H1' Hok H2'. apply Hne.
  destruct (reached_settled ms Hone) as (hs & Hs & Hall).
  destruct (Forall2_lookup_r _ _ _ _ _ Hall Hi) as ([q1' h1] & Eh1 & Hq1 & Hp1).
  destruct (Forall2_lookup_r _ _ _ _ _ Hall Hj) as ([q2' h2] & Eh2 & Hq2 & Hp2).
  destruct Hp1 as [[[_ (key1 & t1 & Ht1 & _ & Hc1)] _] _].
  destruct Hp2 as [[[_ (key2 & t2 & Ht2 & _ & Hc2)] _] _]. cbn in *.
  destruct (st_knows _ _ Hs _ _ _ Eh1 _ _ Ht1) as (-> & (text1 & Hx1 & Htext1) & _).
  destruct (st_knows _ _ Hs _ _ _ Eh2 _ _ Ht2) as (-> & (text2 & Hx2 & Htext2) & _).
  assert (conversation_id key1 = id) as E1 by congruence.
  assert (conversation_id key2 = id) as E2 by congruence.
  rewrite E1 in Htext1. rewrite E2 in Htext2.
  eapply (permits_exclusive hs i j); [apply Hs|done|done|done|].
  rewrite Hx2, (Htext1 Hok). by rewrite (Htext2 Hok).
Qed.
End Guarantees.

(** ** What a stopped dispatch leaves behind *)

Section Abandoned.
Context `{Serde} `{PrettyJson} `{ErrorText} `{AgentBackend} `{QuietStreams}.
Context `{Sqlite} `{SqliteDates} `{EventJson}.
Context (event_reads_back : forall event text,
           event_to_string event = Some text -> event_from_str text = Some event).
Context (k : EventKey) (n : Z).

(** The event is being processed, by nobody, and was run [n] times. *)
Definition abandoned (s : Shared) (hs : list (nat * Held)) : Prop :=
  runs_once s hs
  /\ (exists r, event_queue (chat s) !! k = Some r /\ e_status r = "processing")
  /\ (forall i q h id event ran, hs !! i = Some (q, h) -> h_claim h = Some (id, event, ran) ->
        event_key event <> k)
  /\ runs k (happened s) = n.

(** The row that a task closes is the one it claimed. *)
Lemma closed_is_claimed s hs i q h id event ran k' x :
  runs_once s hs -> hs !! i = Some (q, h) -> h_claim h = Some (id, event, ran) ->
  event_queue (chat s) !! k' = Some x -> e_id x = id -> event_key event = k'.
Proof.
  intros Ho Hi Hc Hx Hid.
  destruct (o_busy _ _ _ _ Ho id event ran) as (y & Hy & Hyid & _).
  { apply list_elem_of_omap. exists (q, h). split; [by eapply list_elem_of_lookup_2|done]. }
  eapply (o_ids _ _ _ _ Ho); [exact Hy|exact Hx|congruence].
Qed.

Lemma abandoned_held s s' hs i q h h' :
  runs_once s' (<[i := (q, h')]> hs) -> abandoned s hs -> hs !! i = Some (q, h) ->
  (event_queue (chat s') !! k = event_queue (chat s) !! k) ->
  runs k (happened s') = runs k (happened s) ->
  (forall id event ran, h_claim h' = Some (id, event, ran) -> event_key event <> k) ->
  abandoned s' (<[i := (q, h')]> hs).
Proof.
  intros Ho (_ & Hr & Hother & Hn) Hi Hq Hruns Hc. split; [done|]. rewrite Hq, Hruns.
  split_and!; [done| |done].
  intros j q' h'' id event ran [(<- & [= <- <-] & _)|[_ Hj]]%list_lookup_insert_Some; [by apply Hc|].
  by apply (Hother j q').
Qed.

Lemma abandoned_action s hs i q h a input r s' :
  abandoned s hs -> hs !! i = Some (q, h) -> allowed false q h a -> perform a input s = (r, s') ->
  abandoned s' (<[i := (q, after q h a r)]> hs).
Proof.
  intros Hab Hi Hal Hp. pose proof Hab as (Ho & (y & Hy & Hys) & Hother & Hn).
  pose proof (event_once_action event_reads_back _ _ _ _ _ _ _ _ _ Ho Hi Hal Hp) as Ho'.
  pose proof (o_ids _ _ _ _ Ho) as Hids. pose proof (Hother i q h) as Hown.
  destruct a; cbn [allowed perform after] in *; unfold on_chat in Hp;
    try (injection Hp as <- <-; apply (abandoned_held s _ hs i q h); by eauto).
  - subst h. destruct (claim_next_channel_event _ _) as [r0 d] eqn:E. injection Hp as <- <-.
    destruct (claim_event_effect Hids E) as [[-> Hno]|(k' & x & x' & Hx & Hst & _ & -> & ->)].
    { apply (abandoned_held s _ hs i q nothing); try done.
      destruct r0 as [[x|]|e]; [by destruct (Hno x)|done..]. }
    assert (k' <> k) as Hne by (intros ->; congruence).
    apply (abandoned_held s _ hs i q nothing); try done.
    + cbn. by rewrite lookup_insert_ne.
    + destruct (o_payload _ _ _ _ Ho k' x Hx) as (event & Hev & Hk).
      rewrite (event_reads_back _ _ Hev). cbn. intros id e ran [= <- <- <-]. congruence.
  - destruct Hal as (event & ran & Hc).
    destruct (complete_channel_event id _ _) as [r0 d] eqn:E. injection Hp as <- <-.
    apply (abandoned_held s _ hs i q h); try done; [|by destruct r0; eauto].
    destruct (complete_event_effect Hids E) as [[-> _]|(k' & x & x' & _ & Hx & Hid & _ & _ & ->)]; [done|].
    cbn. rewrite lookup_insert_ne; [done|]. intros ->. eapply (Hown id event ran); [done..|].
    exact (closed_is_claimed _ _ _ _ _ _ _ _ _ _ Ho Hi Hc Hx Hid).
  - destruct Hal as (event & Hc).
    destruct (release_channel_event id delay _ _) as [r0 d] eqn:E. injection Hp as <- <-.
    apply (abandoned_held s _ hs i q h); try done; [|by destruct r0; eauto].
    destruct (release_event_effect Hids E) as [[-> _]|(k' & x & x' & _ & Hx & Hid & _ & _ & ->)]; [done|].
    cbn. rewrite lookup_insert_ne; [done|]. intros ->. eapply (Hown id event false); [done..|].
    exact (closed_is_claimed _ _ _ _ _ _ _ _ _ _ Ho Hi Hc Hx Hid).
  - destruct Hal as (event & ran & Hc).
    destruct (fail_channel_event id error _ _) as [r0 d] eqn:E. injection Hp as <- <-.
    apply (abandoned_held s _ hs i q h); try done; [|by destruct r0; eauto].
    destruct (fail_event_effect Hids E) as [[-> _]|(k' & x & x' & _ & Hx & Hid & _ & _ & ->)]; [done|].
    cbn. rewrite lookup_insert_ne; [done|]. intros ->. eapply (Hown id event ran); [done..|].
    exact (closed_is_claimed _ _ _ _ _ _ _ _ _ _ Ho Hi Hc Hx Hid).
  - unfold try_acquire in Hp.
    case_bool_decide; injection Hp as <- <-; apply (abandoned_held s _ hs i q h); by eauto.
  - injection Hp as <- <-.
    destruct (channel_conversation_thread_id _ _ _); apply (abandoned_held s _ hs i q h); by eauto.
  - destruct (record_context_fetch_attempt _ _ _) as [r0 d] eqn:E. injection Hp as <- <-.
    apply record_fetch_effect in E as [[Hq _] _].
    apply (abandoned_held s _ hs i q h); try done; [cbn; by rewrite Hq|by eauto].
  - destruct Hal as [(id & event & Hc & Hk) _]. injection Hp as <- <-.
    apply (abandoned_held s _ hs i q h); try done.
    + unfold runs. cbn. rewrite counted_one, Hk. rewrite bool_decide_eq_false_2; [lia|].
      intros [= Hk']. by eapply (Hown id event false).
    + cbn. rewrite Hc. intros id' e ran [= <- <- <-]. by eapply (Hown id event false).
  - destruct (save_agent_draft id draft _ _) as [r0 d] eqn:E. injection Hp as <- <-.
    apply save_draft_effect in E as (Hq & _ & _).
    apply (abandoned_held s _ hs i q h); try done; [cbn; by rewrite Hq|by eauto].
  - destruct (upsert_channel_conversation_thread_id _ _ _ _) as [r0 d] eqn:E. injection Hp as <- <-.
    apply (abandoned_held s _ hs i q h); try done; [|by destruct r0; eauto].
    apply store_thread_effect in E as [[-> _]|(_ & _ & ->)]; done.
  - destruct (upsert_channel_conversation_summary _ _ _ _) as [r0 d] eqn:E. injection Hp as <- <-.
    apply store_summary_effect in E as [[Hq _] _].
    apply (abandoned_held s _ hs i q h); try done; [cbn; by rewrite Hq|by eauto].
  - destruct (enqueue_slack_stop_stream_delivery _ _ _ _) as [r0 d] eqn:E. injection Hp as <- <-.
    apply enqueue_stop_same in E as [[Hq _] _].
    apply (abandoned_held s _ hs i q h); try done; [cbn; by rewrite Hq|by eauto].
  - destruct (complete_slack_processing_indicator _ _ _ _) as [r0 d] eqn:E. injection Hp as <- <-.
    apply complete_indicator_same in E as [[Hq _] _].
    apply (abandoned_held s _ hs i q h); try done; [cbn; by rewrite Hq|by eauto].
Qed.

Lemma abandoned_environment s hs x : abandoned s hs -> abandoned (environment x s) hs.
Proof.
  intros (Ho & (y & Hy & Hys) & Hother & Hn).
  destruct (once_discipline event_reads_back) as [_ _ _ _ _ _ He].
  pose proof (He s hs x Ho) as Ho'.
  split; [exact Ho'|]. destruct x as [source event c|ws now policy c|o rc t m]; cbn [environment].
  - unfold on_chat. destruct (persist_slack_source_event _ _ _ _) as [r d] eqn:E. cbn.
    split_and!; [|done|done]. exists y. split; [|done].
    apply persist_effect in E as (_ & _ & [->|(x & Hnone & -> & _)]); [done|].
    rewrite lookup_insert_ne; [done|congruence].
  - destruct (cleanup_retained_chat _ _ _ _ _) as [r d] eqn:E. cbn.
    apply cleanup_events in E as [Hsub Hgone _ _]. split_and!; [|done|].
    + exists y. split; [|done]. destruct (event_queue d !! k) as [y'|] eqn:E.
      * apply Hsub in E. congruence.
      * destruct (Hgone k y Hy E); congruence.
    + unfold runs. rewrite counted_app. rewrite <- Hn. unfold runs.
      assert (forall ks, counted (fun h => match h with
        | AgentRan task _ => bool_decide (run_key task = Some k) | _ => false end)
        (map Forgotten ks) = 0) as ->; [|lia].
      intros ks. unfold counted. by induction ks.
  - split_and!; [by exists y|done|done].
Qed.

Lemma abandoned_discipline :
  Discipline (A := result StateError DispatchOutcome)
    perform call release process_stopped environment nothing (allowed false) guarding after abandoned.
Proof.
  destruct (once_discipline event_reads_back) as [Hf Hg Hs Ha Hd Hst He]. split; try done.
  - intros s hs q (Ho & Hr & Hother & Hn). split; [by apply Hs|]. split_and!; [done| |done].
    intros i q' h id event ran [Hi|[_ Hi]]%lookup_app_Some; [by apply (Hother i q')|].
    by apply list_lookup_singleton_Some in Hi as [_ [= <- <-]].
  - intros *. apply abandoned_action.
  - intros s hs i q h gs Hab Hi Hgs. destruct (release_events gs s) as [[Hq _] Hh].
    apply (abandoned_held s _ hs i q h); [|done|done|by rewrite Hq|by rewrite Hh|done].
    eapply Hd; [apply Hab|done..].
  - intros s hs q (Ho & Hr & Hother & Hn). split; [by apply Hst|]. split_and!; [done| |done].
    intros i q' h id event ran Hi Hc.
    apply list_lookup_fmap_Some in Hi as ([q1 h1] & Heq & Hi). unfold without_owner in Heq.
    cbn in Heq. case_decide as Hq; injection Heq as -> ->; [done|]. by eapply (Hother i).
  - intros *. apply abandoned_environment.
Qed.
End Abandoned.

Section Lost.
Context `{Serde} `{PrettyJson} `{ErrorText} `{AgentBackend} `{QuietStreams}.
Context `{Sqlite} `{SqliteDates} `{EventJson}.
Context (event_reads_back : forall event text,
           event_to_string event = Some text -> event_from_str text = Some event).

(** No dispatch is under way: every task ended, was dropped or was stopped. *)
Definition at_rest (w : Dispatch.World) : Prop :=
  Forall (fun t => match t.2 with Some (Do _ _ _) => False | _ => True end) w.2.

(** C11. An event whose dispatch was interrupted is lost: once no dispatch is
    under way, an event that is still being processed stays so in everything that
    follows, however many dispatches there are, and is never run again; nothing
    puts it back into the queue. *)
Theorem interrupted_event_is_lost ms ms' k r :
  at_rest (history ms start) -> event_queue (chat (reached ms)) !! k = Some r ->
  e_status r = "processing" ->
  (exists r', event_queue (chat (reached (ms ++ ms'))) !! k = Some r' /\ e_status r' = "processing")
  /\ runs k (happened (reached (ms ++ ms'))) = runs k (happened (reached ms)).
Proof.
  intros Hrest Hr Hst.
  assert (reached (ms ++ ms') = (history ms' (history ms start)).1) as ->.
  { unfold reached, history, run_moves. by rewrite foldl_app. }
  destruct (reached_runs_once event_reads_back ms) as [hs Ho].
  assert (pool_ok (allowed false) guarding after (abandoned k (runs k (happened (reached ms))))
            (history ms' (history ms start))) as (hs' & (_ & Hk & _ & Hn) & _); [|done].
  apply (histories_keep perform call release process_stopped environment nothing);
    [by apply abandoned_discipline|].
  exists (map (fun t => (t.1, nothing)) (history ms start).2). split.
  - assert (claims (map (fun t => (t.1, nothing)) (history ms start).2) = []
            /\ answers (map (fun t => (t.1, nothing)) (history ms start).2) = []) as [Hc Ha].
    { unfold claims, answers. by induction (history ms start).2. }
    split_and!; [|by eauto| |done].
    + unfold runs_once. rewrite Hc, Ha. eapply event_once_weaken; [..|exact Ho]; apply submseteq_nil_l.
    + intros i q h id event ran Hi. by apply list_lookup_fmap_Some in Hi as (t & [= -> ->] & _).
  - unfold at_rest in Hrest. induction Hrest as [|[q p] tasks Hp Hall IH]; constructor; [|done].
    split; [done|]. cbn in Hp |- *. by destruct p as [[|]|].
Qed.
End Lost.

End DispatchSafety.
