(* ===== verification/DispatchExact.v ===== *)
(** * What one dispatch does

    A dispatch on its own, with a store that answers: what it leaves in every
    table when the agent answers, when it fails, and when another worker has the
    conversation.  The witnesses of the guarantees over histories are here too. *)

From stdpp Require Import base tactics list strings numbers gmap.
From Stdlib Require Import ZArith Lia Ascii.
From S2P Require Import Prelude.
From S2P Require Import Json.
From S2P Require Import Tables.
From S2P Require Import Channels.
From S2P Require Import ChatStore.
From S2P Require Import Tasks.
From S2P Require Import SlackQueue.
From S2P Require Import SlackSources.
From S2P Require Import Agents.
From S2P Require Import Conversations.
From S2P Require Import EventQueue.
From S2P Require Import Dispatch.
From S2P Require Import DispatchSafety.

Module DispatchExact.
Import Channels ChatStore Tasks SlackSources Agents Conversations EventQueue Dispatch DispatchSafety.

(** ** Operations that succeed *)

Section Success.
Context `{Sqlite} `{EventJson}.

Lemma checks_set_event k status t n e c r :
  queue_event_checks k r = true -> status ∈ ["pending"; "processing"; "processed"; "failed"] ->
  0 <= n -> queue_event_checks k (set_event status t n e c r) = true.
Proof.
  unfold queue_event_checks. intros Hck Hst Hn. bool_facts. cbn. rewrite !andb_true_iff.
  split_and!; try done; by (apply Z.leb_le || apply bool_decide_eq_true).
Qed.

Lemma update_events_hit id status set d k r :
  unique_ids (event_queue d) -> event_queue d !! k = Some r -> e_id r = id -> e_status r = status ->
  queue_event_checks k (set r) = true ->
  update_events id status set d
  = Ok ([set r], with_event_queue d (<[k := set r]> (event_queue d))).
Proof.
  intros Hu Hr Hid Hst Hck. destruct (update_events id status set d) as [[rows d']|e] eqn:E.
  - apply update_events_ok in E as [(_ & _ & Hno)|(k' & r' & Hr' & Hid' & _ & _ & -> & ->)];
      [by destruct (Hno k r)| |done].
    assert (k' = k) as -> by (eapply Hu; [done..|congruence]). by simplify_eq.
  - exfalso. revert E. unfold update_events.
    set (where_ := fun (_ : EventKey) r => (e_id r =? id) && String.eqb (e_status r) status).
    destruct (one_match where_ (event_queue d)) as [Hn|(k' & r' & Hr' & Hw & Hm)].
    + subst where_. cbn. intros k1 k2 r1 r2 Hr1 Hr2 Hw1 Hw2. bool_facts.
      eapply Hu; [done..|congruence].
    + assert ((k, r) ∈ Tables.matching where_ (event_queue d)) as Hin.
      { apply Tables.elem_of_matching. split; [done|]. subst where_. cbn.
        rewrite Hid, Z.eqb_refl. by apply String.eqb_eq. }
      rewrite Hn in Hin. by apply elem_of_nil in Hin.
    + rewrite Hm. cbn. subst where_. cbn in Hw. apply andb_true_iff in Hw as [Hi%Z.eqb_eq _].
      assert (k' = k) as -> by (eapply Hu; [done..|congruence]). simplify_eq. by rewrite Hck.
Qed.

Lemma claim_succeeds c d k r event :
  fault c = None -> unique_ids (event_queue d) ->
  first_by queued_before (Tables.matching (event_is_due (clock c)) (event_queue d)) = Some (k, r) ->
  queue_event_checks k r = true -> event_from_str (e_payload_json r) = Some event ->
  claim_next_channel_event c d
  = (Ok (Some (mkClaimedEvent (e_id r) (e_attempt_count r + 1) event)),
     with_event_queue d (<[k := set_event "processing" (e_available_at r) (e_attempt_count r + 1)
                                  (e_last_error r) (clock c) r]> (event_queue d))).
Proof.
  intros Hf Hu Hn Hck He. unfold claim_next_channel_event, atomically. rewrite Hf, Hn.
  apply first_by_elem, Tables.elem_of_matching in Hn as [Hr Hdue]. unfold event_is_due in Hdue.
  apply andb_true_iff in Hdue as [Hpend%String.eqb_eq _].
  assert (0 <= e_attempt_count r) as Hge by (unfold queue_event_checks in Hck; by bool_facts).
  rewrite (update_events_hit _ _ _ d k r) by
    (done || (apply checks_set_event; [done|set_solver|lia])).
  cbn. by rewrite He.
Qed.

Lemma complete_succeeds c d k r :
  fault c = None -> unique_ids (event_queue d) -> event_queue d !! k = Some r ->
  e_status r = "processing" -> queue_event_checks k r = true ->
  complete_channel_event (e_id r) c d
  = (Ok tt, with_event_queue d (<[k := set_event "processed" (e_available_at r)
       (e_attempt_count r) (e_last_error r) (clock c) r]> (event_queue d))).
Proof.
  intros Hf Hu Hr Hst Hck. unfold complete_channel_event, atomically. rewrite Hf.
  assert (0 <= e_attempt_count r) as Hge by (unfold queue_event_checks in Hck; by bool_facts).
  by rewrite (update_events_hit _ _ _ d k r) by
    (done || (apply checks_set_event; [done|set_solver|lia])).
Qed.

Lemma fail_succeeds c d k r error :
  fault c = None -> unique_ids (event_queue d) -> event_queue d !! k = Some r ->
  e_status r = "processing" -> queue_event_checks k r = true ->
  fail_channel_event (e_id r) error c d
  = (Ok tt, with_event_queue d (<[k := set_event "failed" (e_available_at r)
       (e_attempt_count r) (Some error) (clock c) r]> (event_queue d))).
Proof.
  intros Hf Hu Hr Hst Hck. unfold fail_channel_event, atomically. rewrite Hf.
  assert (0 <= e_attempt_count r) as Hge by (unfold queue_event_checks in Hck; by bool_facts).
  by rewrite (update_events_hit _ _ _ d k r) by
    (done || (apply checks_set_event; [done|set_solver|lia])).
Qed.

Lemma release_succeeds `{SqliteDates} c d k r delay t :
  fault c = None -> unique_ids (event_queue d) -> event_queue d !! k = Some r ->
  e_status r = "processing" -> queue_event_checks k r = true ->
  seconds_after (clock c) (Z.max delay 1) = Some t ->
  release_channel_event (e_id r) delay c d
  = (Ok tt, with_event_queue d (<[k := set_event "pending" t (Z.max (e_attempt_count r - 1) 0)
       (e_last_error r) (clock c) r]> (event_queue d))).
Proof.
  intros Hf Hu Hr Hst Hck Ht. unfold release_channel_event, atomically. rewrite Hf, Ht.
  by rewrite (update_events_hit _ _ _ d k r) by
    (done || (apply checks_set_event; [done|set_solver|lia])).
Qed.
End Success.

(** ** One dispatch *)

Section Exact.
Context `{Serde} `{PrettyJson} `{ErrorText} `{AgentBackend} `{ProcessingStreams}.
Context `{Sqlite} `{SqliteDates} `{EventJson}.
Context (q : nat) (provider : bool) (limit : option Z) (input : Input) (s : Shared).
Context (k : EventKey) (r : QueueEventRow) (event : ChannelEvent).

Abbreviation c := (conditions input).
Abbreviation run := (run_alone perform (fun _ => input)).

(** What is known of the event's source and of its conversation. *)
Definition known_source : SlackSourceReferences :=
  match source_events (chat s) !! (ev_workspace_id event, ev_dedupe_key event) with
  | Some row => references_of row
  | None => no_references
  end.
Definition known_text : string := (conversation_of event known_source).1.
Definition known_key : ChannelConversationKey := (conversation_of event known_source).2.
Definition known_thread : option string := conversations (chat s) !! conversation_id known_key.
Definition known_summary : option string := fst <$> summaries (chat s) !! conversation_id known_key.

(** The event is a Slack message at the head of the queue, and the store, the
    printer and the context table take what they get. *)
Record dispatchable : Prop := {
  dp_fault : fault c = None;
  dp_print v : is_Some (to_string_pretty v);
  dp_ids : unique_ids (event_queue (chat s));
  dp_next : first_by queued_before
    (Tables.matching (event_is_due (clock c)) (event_queue (chat s))) = Some (k, r);
  dp_checks : queue_event_checks k r = true;
  dp_read : event_from_str (e_payload_json r) = Some event;
  dp_slack : ev_provider event = "slack";
  dp_kind : is_dispatchable_slack_event (ev_kind event) = true;
  dp_names : has_length (ev_workspace_id event) && has_length (ev_connector_id event)
             && has_length (ev_dedupe_key event) = true
}.

Definition claimed_row : QueueEventRow :=
  set_event "processing" (e_available_at r) (e_attempt_count r + 1) (e_last_error r) (clock c) r.
Definition claimed_chat : ChatDb :=
  with_event_queue (chat s) (<[k := claimed_row]> (event_queue (chat s))).

Lemma next_row : dispatchable -> event_queue (chat s) !! k = Some r /\ e_status r = "pending".
Proof.
  intros [_ _ _ Hn _ _ _ _ _]. apply first_by_elem, Tables.elem_of_matching in Hn as [Hr Hdue].
  unfold event_is_due in Hdue. by apply andb_true_iff in Hdue as [?%String.eqb_eq _].
Qed.

Lemma claimed_row_facts :
  dispatchable -> event_queue claimed_chat !! k = Some claimed_row
    /\ unique_ids (event_queue claimed_chat) /\ queue_event_checks k claimed_row = true.
Proof.
  intros Hd. destruct (next_row Hd) as [Hr _]. pose proof Hd as [].
  assert (0 <= e_attempt_count r) by (unfold queue_event_checks in dp_checks0; by bool_facts).
  split_and!.
  - cbn. by rewrite lookup_insert_eq.
  - cbn. by eapply ids_insert.
  - apply checks_set_event; [done|set_solver|lia].
Qed.

(** The claim, the source and the conversation. *)
Lemma dispatch_head locks :
  dispatchable ->
  run (dispatch q provider limit locks) s
  = run (let body := converse provider limit (e_id r) event known_source known_text known_key in
         if locks then
           await! acquired := (act (TryAcquire q known_text) : Task bool) in
           if acquired then scoped (DropPermit q known_text) body
           else await? _ := act (ReleaseEvent (e_id r) 0) in Ret (Ok Idle)
         else body) (with_chat s claimed_chat).
Proof.
  intros Hd. pose proof Hd as []. unfold dispatch. rewrite run_try. cbn [run_alone act perform].
  unfold on_chat. rewrite (claim_succeeds c (chat s) k r event) by done. cbn [ce_id ce_event].
  rewrite dp_slack0, dp_kind0, String.eqb_refl. cbn [negb orb].
  rewrite run_try. cbn [run_alone act perform]. unfold slack_source_references, reading.
  rewrite dp_fault0. cbn [chat with_chat].
  unfold known_text, known_key, known_source, claimed_chat, claimed_row. cbn [source_events with_event_queue].
  destruct (conversation_of event _) as [text key]. by destruct locks.
Qed.

Lemma context_runs s1 channel thread summary :
  dispatchable ->
  exists text d, run (build_channel_context_envelope provider event known_source channel thread
                        (default 20 limit) summary) s1 = (Ok (Some text), with_chat s1 d)
    /\ same_work (chat s1) d /\ summaries d = summaries (chat s1).
Proof.
  intros []. unfold build_channel_context_envelope.
  assert (forall v, exists text, print_envelope v = Ok (Some text)) as Hprint.
  { intros v. unfold print_envelope. destruct (dp_print0 v) as [text ->]. by exists text. }
  assert (forall status error, status ∈ ["success"; "failed"] ->
    exists d, run (act (RecordFetch (fetch_record event known_source channel thread status error))
                     : Task (result StateError unit)) s1
      = (Ok tt, with_chat s1 d) /\ same_work (chat s1) d /\ summaries d = summaries (chat s1)) as Hrec.
  { intros status error Hst. cbn [run_alone act perform]. unfold on_chat, record_context_fetch_attempt,
      atomically. rewrite dp_fault0. unfold fetch_attempt_checks. cbn. rewrite dp_slack0.
    apply andb_true_iff in dp_names0 as [[-> ->]%andb_true_iff ->]. cbn.
    rewrite bool_decide_eq_true_2 by done. cbn. eexists. split_and!; [done|by split|done]. }
  destruct provider.
  - rewrite run_bind.
    assert (exists answer, run (bootstrap_slack_context event channel thread (default 20 limit)) s1
              = (answer, s1)) as [answer ->].
    { unfold bootstrap_slack_context. destruct (bootstrap_request _ _ _ _) as [[ch request]|e]; cbn; eauto. }
    cbn [fst snd]. destruct answer as [context|e].
    + destruct (Hrec "success" None) as (d & Hr & Hs & Hsum); [set_solver|].
      rewrite run_try, Hr. destruct (Hprint (context_envelope event known_source summary
        (Some (dedup_context_events context)) [])) as [text ->]. by exists text, d.
    + destruct (Hrec "failed" (Some (context_fetch_error_kind e, tool_error_text e)))
        as (d & Hr & Hs & Hsum); [set_solver|].
      rewrite run_try, Hr. destruct (Hprint (context_envelope event known_source summary None
        [context_warning event known_source channel thread (context_fetch_error_kind e)
           (tool_error_text e)])) as [text ->]. by exists text, d.
  - destruct (Hprint (context_envelope event known_source summary None [])) as [text ->].
    exists text, (chat s1). cbn. split_and!; [by destruct s1|done|done].
Qed.

(** What the agent is told of the event, up to the printed context. *)
Definition task_for (context : option string) : AgentTask :=
  build_slack_agent_task event known_source known_text known_key known_thread context known_summary
    (or_else (rf_channel_id known_source) (target_channel_id event))
    (or_else (rf_thread_id known_source) (target_thread_id event)).

Lemma converse_runs s1 :
  dispatchable -> conversations (chat s1) = conversations (chat s) ->
  summaries (chat s1) = summaries (chat s) ->
  exists context d,
    run (converse provider limit (e_id r) event known_source known_text known_key) s1
    = run (match agent_answer input with
           | Ok res => store_result (e_id r) event known_source known_key known_thread known_summary res
           | Err error => store_failure (e_id r) event known_source error
           end) (note (with_chat s1 d) (AgentRan (task_for context) (agent_answer input)))
    /\ same_work (chat s1) d /\ summaries d = summaries (chat s1).
Proof.
  intros Hd Hc Hs. pose proof Hd as []. unfold converse. cbn zeta.
  rewrite run_try. cbn [run_alone act perform]. unfold channel_conversation_thread_id, reading.
  rewrite dp_fault0, Hc. fold known_thread. rewrite run_try. cbn [run_alone act perform].
  unfold channel_conversation_summary, reading. rewrite dp_fault0, Hs. fold known_summary.
  destruct (context_runs s1 (or_else (rf_channel_id known_source) (target_channel_id event))
    (or_else (rf_thread_id known_source) (target_thread_id event)) known_summary Hd)
    as (context & d & Hrun & Hsame & Hsum).
  rewrite run_try, Hrun. exists (Some context), d. split_and!; [|done|congruence].
  rewrite run_bind. cbn [run_alone act perform fst snd]. done.
Qed.

(** An answer the tables take: a draft is the first of its event and admitted, and
    so are a new thread and the summary. *)
Record storable_answer (res : AgentTaskResult) : Prop := {
  sa_answer : agent_answer input = Ok res;
  sa_draft content : draft_content res = Some content ->
    drafts (chat s) !! e_id r = None
    /\ draft_checks (draft_of event known_source content) = true;
  sa_thread thread : codex_thread_id res = Some thread ->
    conversation_checks (conversation_id known_key) thread = true;
  sa_summary summary :
    updated_conversation_summary known_summary (ev_text event) (draft_content res) = Some summary ->
    conversation_checks (conversation_id known_key) summary = true
}.

(** What a completed dispatch leaves in the tables. *)
Record completed (res : AgentTaskResult) (d : ChatDb) : Prop := {
  cm_event : exists r', event_queue d = <[k := r']> (event_queue (chat s))
    /\ moved_on "processed" r r';
  cm_draft : match draft_content res with
    | Some content => exists n, drafts d
        = <[e_id r := (n, draft_of event known_source content)]> (drafts (chat s))
    | None => drafts d = drafts (chat s)
    end;
  cm_thread : conversations d = match codex_thread_id res with
    | Some thread => <[conversation_id known_key := thread]> (conversations (chat s))
    | None => conversations (chat s)
    end;
  cm_summary : fst <$> summaries d !! conversation_id known_key
    = or_else (updated_conversation_summary known_summary (ev_text event) (draft_content res))
        known_summary
}.

Definition outcome_of (res : AgentTaskResult) : DispatchOutcome :=
  match draft_content res with
  | Some _ => Dispatched (ev_event_id event)
  | None => Accepted (ev_event_id event)
  end.

Lemma draft_runs res s2 :
  fault c = None -> storable_answer res -> drafts (chat s2) = drafts (chat s) ->
  e_id r ∈ queue_ids (chat s2) ->
  exists D, run (match draft_content res with
      | Some content => act (SaveDraft (e_id r) (draft_of event known_source content))
      | None => Ret (Ok tt)
      end : Task (result StateError unit)) s2 = (Ok tt, with_chat s2 (with_drafts (chat s2) D))
    /\ match draft_content res with
       | Some content => exists n,
           D = <[e_id r := (n, draft_of event known_source content)]> (drafts (chat s))
       | None => D = drafts (chat s)
       end.
Proof.
  intros Hf [_ Hdr _ _] Hdrs Hid. destruct (draft_content res) as [content|].
  - destruct (Hdr content eq_refl) as [Hnew Hck]. cbn [run_alone act perform].
    unfold on_chat, save_agent_draft, atomically. rewrite Hf, Hck, Hdrs, Hnew. cbn [negb].
    rewrite (bool_decide_eq_true_2 _ Hid). cbn [negb]. eexists. split; [done|]. by eexists.
  - exists (drafts (chat s)). split; [|done]. cbn. rewrite <- Hdrs. by destruct s2 as [[]].
Qed.

Lemma thread_runs res s2 :
  fault c = None -> storable_answer res -> conversations (chat s2) = conversations (chat s) ->
  run (match codex_thread_id res with
      | Some thread_id =>
          if bool_decide (known_thread = Some thread_id) then Ret (Ok tt)
          else act (StoreThreadId known_key thread_id)
      | None => Ret (Ok tt)
      end : Task (result StateError unit)) s2
  = (Ok tt, with_chat s2 (with_conversations (chat s2) (match codex_thread_id res with
      | Some thread => <[conversation_id known_key := thread]> (conversations (chat s))
      | None => conversations (chat s)
      end))).
Proof.
  intros Hf [_ _ Hth _] Hconv. destruct (codex_thread_id res) as [thread|].
  - case_bool_decide as Hk.
    + cbn. unfold known_thread in Hk. rewrite insert_id by done. rewrite <- Hconv.
      by destruct s2 as [[]].
    + cbn [run_alone act perform]. unfold on_chat, upsert_channel_conversation_thread_id, atomically.
      rewrite Hf, (Hth thread eq_refl). cbn. by rewrite Hconv.
  - cbn. rewrite <- Hconv. by destruct s2 as [[]].
Qed.

Lemma summary_runs res s2 :
  fault c = None -> storable_answer res -> summaries (chat s2) = summaries (chat s) ->
  let new := updated_conversation_summary known_summary (ev_text event) (draft_content res) in
  exists d, run (match new with
      | Some summary => act (StoreSummary known_key summary)
      | None => Ret (Ok tt)
      end : Task (result StateError unit)) s2 = (Ok tt, with_chat s2 d)
    /\ event_queue d = event_queue (chat s2) /\ drafts d = drafts (chat s2)
    /\ conversations d = conversations (chat s2)
    /\ fst <$> summaries d !! conversation_id known_key = or_else new known_summary.
Proof.
  intros Hf [_ _ _ Hsum] Hsums new. fold new in Hsum. destruct new as [summary|] eqn:Hnew.
  - cbn [run_alone act perform]. unfold on_chat, upsert_channel_conversation_summary, atomically.
    rewrite Hf, (Hsum summary eq_refl). cbn. eexists. split_and!; [done..|]. cbn.
    by rewrite lookup_insert_eq.
  - exists (chat s2). split_and!; [by destruct s2|done..|]. cbn. by rewrite Hsums.
Qed.

Lemma store_result_runs res s2 :
  dispatchable -> storable_answer res ->
  event_queue (chat s2) = event_queue claimed_chat -> drafts (chat s2) = drafts (chat s) ->
  conversations (chat s2) = conversations (chat s) -> summaries (chat s2) = summaries (chat s) ->
  exists d, run (store_result (e_id r) event known_source known_key known_thread known_summary res) s2
            = (Ok (outcome_of res), with_chat s2 d)
    /\ completed res d.
Proof.
  intros Hd Ha Hq Hdrs Hconv Hsums. pose proof Hd as [Hf _ _ _ _ _ _ _ _].
  destruct (claimed_row_facts Hd) as (Hrow & Hids & Hck). unfold store_result.
  assert (e_id r ∈ queue_ids (chat s2)) as Hid.
  { unfold queue_ids. rewrite Hq. apply list_elem_of_fmap. exists (k, claimed_row).
    split; [done|]. by apply elem_of_map_to_list. }
  destruct (draft_runs res s2 Hf Ha Hdrs Hid) as (D & HrunD & HD). rewrite run_try, HrunD.
  rewrite run_try, (thread_runs res) by done.
  set (s3 := with_chat (with_chat s2 _) _). rewrite run_try.
  destruct (summary_runs res s3 Hf Ha Hsums) as (d3 & Hrun & Hq3 & Hd3 & Hc3 & Hs3).
  rewrite Hrun, run_try. cbn [run_alone act perform]. unfold on_chat. cbn [chat with_chat].
  assert (event_queue d3 = event_queue claimed_chat) as Hq4 by (by rewrite Hq3).
  rewrite (complete_succeeds c d3 k claimed_row) by (done || by rewrite Hq4).
  eexists. split; [done|]. split; cbn.
  - eexists. rewrite Hq4. cbn. split; [by rewrite insert_insert_eq|done].
  - rewrite Hd3. exact HD.
  - by rewrite Hc3.
  - exact Hs3.
Qed.

Lemma relock L text : text ∉ L -> ({[text]} ∪ L) ∖ {[text]} = (L : gset string).
Proof. set_solver. Qed.

(** C10. A dispatch that gets an answer completes: when the first due event is a
    dispatchable Slack message of a free conversation, the store answers, and the
    agent gives a draft or an accepted dispatch, with or without a thread, that the
    tables take, then the agent is run once, on the stored thread; the draft where
    there is one, the thread where there is one and the summary are stored, the
    event is processed, the lock is free again, and the outcome says whether there
    was a draft. *)
Theorem answered_event_is_completed res :
  dispatchable -> storable_answer res -> known_text ∉ locked s q ->
  exists context s', run (dispatch q provider limit true) s = (Ok (outcome_of res), s')
    /\ happened s' = happened s ++ [AgentRan (task_for context) (Ok res)]
    /\ t_session (task_for context) = session_of known_thread
    /\ completed res (chat s') /\ locked s' q = locked s q.
Proof.
  intros Hd Ha Hfree. rewrite dispatch_head by done. cbn zeta. rewrite run_bind.
  cbn [run_alone act perform]. unfold try_acquire.
  rewrite (bool_decide_eq_false_2 (known_text ∈ locked (with_chat s claimed_chat) q)) by done.
  cbn [fst snd]. rewrite run_scoped. set (s1 := with_locked _ _ _).
  destruct (converse_runs s1 Hd eq_refl eq_refl) as (context & d & -> & [[Hq Hdr] Hc] & Hs).
  rewrite (sa_answer _ Ha).
  destruct (store_result_runs res (note (with_chat s1 d) (AgentRan (task_for context) (Ok res))))
    as (d' & -> & Hdone); [done|done|done|done|done|done|].
  exists context. eexists. split_and!; [done|done|reflexivity|done|].
  cbn. unfold drop_permit. rewrite locked_with, decide_True by done.
  unfold locked. cbn. rewrite lookup_insert_eq. cbn. apply relock. exact Hfree.
Qed.

(** Another worker has the conversation: the event goes back into the
    queue, one attempt less, and nothing else happens. *)
Lemma busy_conversation_is_put_back t :
  dispatchable -> known_text ∈ locked s q -> seconds_after (clock c) 1 = Some t ->
  exists r', run (dispatch q provider limit true) s
    = (Ok Idle, with_chat s (with_event_queue (chat s) (<[k := r']> (event_queue (chat s)))))
    /\ moved_on "pending" r r' /\ e_available_at r' = t /\ e_attempt_count r' = e_attempt_count r.
Proof.
  intros Hd Hbusy Ht. pose proof Hd as [Hf _ _ _ Hchk _ _ _ _].
  destruct (claimed_row_facts Hd) as (Hrow & Hids & Hck).
  rewrite dispatch_head by done. cbn zeta. rewrite run_bind. cbn [run_alone act perform].
  unfold try_acquire.
  rewrite (bool_decide_eq_true_2 (known_text ∈ locked (with_chat s claimed_chat) q)) by done.
  cbn [fst snd]. rewrite run_try. cbn [run_alone act perform]. unfold on_chat.
  cbn [chat with_chat]. rewrite (release_succeeds c claimed_chat k claimed_row 0 t) by done.
  exists (set_event "pending" t (Z.max (e_attempt_count claimed_row - 1) 0) (e_last_error claimed_row)
    (clock c) claimed_row). split_and!; [|done|done|].
  - unfold claimed_chat. cbn. rewrite insert_insert_eq. done.
  - cbn. unfold queue_event_checks in Hchk. bool_facts. lia.
Qed.
End Exact.

(** ** An agent that fails *)

Section Failure.
Context `{Serde} `{PrettyJson} `{ErrorText} `{AgentBackend} `{QuietStreams}.
Context `{Sqlite} `{SqliteDates} `{EventJson}.
Context (q : nat) (provider : bool) (limit : option Z) (input : Input) (s : Shared).
Context (k : EventKey) (r : QueueEventRow) (event : ChannelEvent).

Abbreviation run := (run_alone perform (fun _ => input)).

(** A processing stream leaves the events, the locks and the log alone. *)
Lemma quiet_runs {A} (p : Task A) s1 :
  quiet p -> exists a d, run p s1 = (a, with_chat s1 d) /\ same_work (chat s1) d.
Proof.
  revert s1. induction p as [a|a gs next IH]; intros s1; cbn [quiet run_alone].
  - intros _. exists a, (chat s1). by destruct s1.
  - intros (_ & Ha & Hk).
    assert (exists b d, perform a input s1 = (b, with_chat s1 d) /\ same_work (chat s1) d)
      as (b & d & Hp & Hs).
    { destruct a; try done; cbn [perform].
      - eexists _, (chat s1). by destruct s1.
      - unfold on_chat. destruct (enqueue_slack_stop_stream_delivery _ _ _ _) as [b d] eqn:E.
        exists b, d. split; [done|]. by eapply enqueue_stop_same.
      - unfold on_chat. destruct (complete_slack_processing_indicator _ _ _ _) as [b d] eqn:E.
        exists b, d. split; [done|]. by eapply complete_indicator_same. }
    rewrite Hp. destruct (IH b (with_chat s1 d) (Hk b)) as (a' & d' & -> & [[Hq Hdr] Hc]).
    destruct Hs as [[Hq0 Hdr0] Hc0]. exists a', d'. split; [done|].
    split; [split|]; cbn in *; congruence.
Qed.

(** A dispatch whose agent fails fails its event: whatever becomes of the
    processing stream, the event is marked failed with the agent's error, the
    lock is free again, and no draft or thread is stored. *)
Theorem failed_agent_fails_event error :
  dispatchable input s k r event -> agent_answer input = Err error ->
  known_text s event ∉ locked s q ->
  exists context s' r', run (dispatch q provider limit true) s = (Ok (Failed (ev_event_id event)), s')
    /\ happened s' = happened s ++ [AgentRan (task_for s event context) (Err error)]
    /\ event_queue (chat s') = <[k := r']> (event_queue (chat s))
    /\ moved_on "failed" r r' /\ e_last_error r' = Some error
    /\ drafts (chat s') = drafts (chat s) /\ conversations (chat s') = conversations (chat s)
    /\ locked s' q = locked s q.
Proof.
  intros Hd Ha Hfree. pose proof Hd as [Hf _ _ _ _ _ _ _ _].
  destruct (claimed_row_facts input s k r event Hd) as (Hrow & Hids & Hck).
  rewrite (dispatch_head q provider limit input s k r event) by done. cbn zeta. rewrite run_bind.
  cbn [run_alone act perform]. unfold try_acquire.
  rewrite (bool_decide_eq_false_2 (known_text s event ∈ locked (with_chat s _) q)) by done.
  cbn [fst snd]. rewrite run_scoped. set (s1 := with_locked _ _ _).
  destruct (converse_runs provider limit input s k r event s1 Hd eq_refl eq_refl)
    as (context & d & -> & [[Hq Hdr] Hc] & Hs).
  rewrite Ha. set (s2 := note _ _). unfold store_failure. rewrite run_bind.
  assert (exists d2, (run (match or_else (rf_channel_id (known_source s event)) (source_channel_id event) with
      | Some channel_id =>
          await! now := act (Res := Answer) SystemNow in
          await! _ := finish_processing_stream (error_notice event (known_source s event) channel_id now) in
          Ret tt
      | None => Ret tt
      end) s2).2 = with_chat s2 d2 /\ same_work (chat s2) d2) as (d2 & Hrun & [[Hq2 Hdr2] Hc2]).
  { destruct (or_else _ _) as [channel|]; [|exists (chat s2); split; [|done]; by subst s2].
    rewrite run_bind. cbn [run_alone act perform fst snd]. rewrite run_bind.
    destruct (quiet_runs (finish_processing_stream (error_notice event (known_source s event) channel
      (system_now input))) s2 (finish_quiet _)) as (a & d2 & -> & Hsame). by exists d2. }
  rewrite Hrun. clear Hrun. rewrite run_try. cbn [run_alone act perform]. unfold on_chat.
  cbn [chat with_chat].
  assert (event_queue d2 = event_queue (claimed_chat input s k r)) as Hq3 by (rewrite Hq2; exact Hq).
  rewrite (fail_succeeds (conditions input) d2 k (claimed_row input r)) by (done || by rewrite Hq3).
  exists context. eexists. exists (set_event "failed" (e_available_at r) (e_attempt_count r + 1)
    (Some error) (clock (conditions input)) (claimed_row input r)).
  split_and!; [done|done| |done|done| | |].
  - cbn. rewrite Hq3. cbn. by rewrite insert_insert_eq.
  - cbn. rewrite Hdr2. exact Hdr.
  - cbn. rewrite Hc2. exact Hc.
  - cbn. unfold drop_permit. rewrite locked_with, decide_True by done.
    unfold locked. cbn. rewrite lookup_insert_eq. cbn. apply relock. exact Hfree.
Qed.
End Failure.

(** ** Witnesses *)

(** The task an unfinished dispatch waits to hand to the agent. *)
Definition next_task (w : Dispatch.World) (i : nat) : option AgentTask :=
  match w.2 !! i with
  | Some (_, Some (Do o _ _)) => match o with RunAgent task => Some task | _ => None end
  | _ => None
  end.

Lemma next_task_ready `{Serde} `{PrettyJson} `{ErrorText} `{AgentBackend} `{ProcessingStreams}
    `{Sqlite} `{SqliteDates} `{EventJson} ms i task :
  next_task (history ms start) i = Some task -> about_to_run ms i task.
Proof.
  unfold next_task, about_to_run. destruct ((history ms start).2 !! i) as [[q [[a|o gs k]|]]|]; try done.
  destruct o; try done. intros [= ->]. by exists q, gs, k.
Qed.

Definition resting (w : Dispatch.World) : bool :=
  forallb (fun t => match t.2 with Some (Do _ _ _) => false | _ => true end) w.2.

Lemma resting_at_rest w : resting w = true -> at_rest w.
Proof.
  unfold resting, at_rest. intros Hw. apply Forall_forall. intros [q p] Hin.
  rewrite forallb_forall in Hw. specialize (Hw (q, p)). rewrite <- list_elem_of_In in Hw.
  specialize (Hw Hin). cbn in *. by destruct p as [[|]|].
Qed.

Section Witnesses.

Definition hi : ChannelEvent :=
  mkEvent "slack" "slack" "T1" "E1" "K1" MentionReceived (Some "hi") (Some (Thread "C1" "1.0")) None.
Definition hi_source : SlackSourceEvent :=
  mkSourceEvent "T1" "mention" "K1" None (Some "E1") (Some "C1") (Some "1.0") (Some "1.0") (Some "U1") "{}".
Definition again : ChannelEvent :=
  mkEvent "slack" "slack" "T1" "E2" "K2" MentionReceived (Some "more") (Some (Thread "C1" "1.0")) None.
Definition again_source : SlackSourceEvent :=
  mkSourceEvent "T1" "mention" "K2" None (Some "E2") (Some "C1") (Some "1.0") (Some "2.0") (Some "U1") "{}".
Definition other : ChannelEvent :=
  mkEvent "slack" "slack" "T1" "E3" "K3" MentionReceived (Some "hi") (Some (Thread "C1" "9.0")) None.
Definition other_source : SlackSourceEvent :=
  mkSourceEvent "T1" "mention" "K3" None (Some "E3") (Some "C1") (Some "9.0") (Some "9.0") (Some "U1") "{}".

Definition some_serde : Serde := serde_of [].
Definition some_printer : PrettyJson := {| to_string_pretty _ := Some "{}" |}.
Definition some_errors : ErrorText := {| error_text _ := "storage" |}.
Definition codex : AgentBackend := {| provider_name := "codex" |}.
Definition any_json : Sqlite := {|
  json_valid _ := true; json_extract_integer _ _ := None;
  json_extract_text _ _ := None; json_minify _ := None; json_elements _ := [];
  json_type _ _ := None; json_root_type _ := None; datetime_unixepoch _ := None |}.
Definition dates : SqliteDates := {|
  seconds_after t n := Some (t + n); days_before t n := Some (t - n * 86400) |}.
Definition three_events : EventJson := {|
  event_to_string e :=
    if bool_decide (e = hi) then Some "1" else if bool_decide (e = again) then Some "2"
    else if bool_decide (e = other) then Some "3" else None;
  event_from_str s :=
    if String.eqb s "1" then Some hi else if String.eqb s "2" then Some again
    else if String.eqb s "3" then Some other else None
|}.

#[local] Existing Instances some_serde some_printer some_errors codex state_streams any_json dates
  three_events.

Lemma three_events_read_back event text :
  event_to_string event = Some text -> event_from_str text = Some event.
Proof. cbn. repeat case_bool_decide; intros; by simplify_eq. Qed.

Definition answers_with (thread : string) : Input :=
  mkInput (mkConditions None 100) (Ok (Draft "hello" (Some thread)))
    (Err ContextUnavailable) 100.

(** The first event is answered, the second is claimed and waits for the agent. *)
Definition hi_moves : list Dispatch.Move :=
  [Other (Received hi_source hi (mkConditions None 100)); Tasks.Start 0%nat (mkCall false None true)].
Definition answered_moves : list Dispatch.Move :=
  hi_moves ++ repeat (Advance 0 (answers_with "thread-1")) 11.
Definition resumed_moves : list Dispatch.Move :=
  answered_moves
  ++ [Other (Received again_source again (mkConditions None 101)); Tasks.Start 0%nat (mkCall false None true)]
  ++ repeat (Advance 1 (mkInput (mkConditions None 101) (Err "") (Err ContextUnavailable) 101)) 5.
(** The process stops once the first event is claimed. *)
Definition stopped_moves : list Dispatch.Move :=
  hi_moves ++ [Advance 0 (answers_with "thread-1"); Stop 0%nat].
(** Two workers of one process, each with an event of its own conversation. *)
Definition two_workers : list Dispatch.Move :=
  hi_moves
  ++ [Other (Received other_source other (mkConditions None 100)); Tasks.Start 0%nat (mkCall false None true)]
  ++ repeat (Advance 0 (answers_with "thread-1")) 5 ++ repeat (Advance 1 (answers_with "thread-2")) 5.

Definition waiting (ms : list Dispatch.Move) (i : nat) : AgentTask :=
  default (mkTask "" "" (TrustedOperator "") (Service "") Fresh None None NoTools None)
    (next_task (history ms start) i).

Lemma waiting_ready ms i :
  Tables.is_some (next_task (history ms start) i) = true -> about_to_run ms i (waiting ms i).
Proof.
  intros Hi. apply next_task_ready. unfold waiting. by destruct (next_task (history ms start) i).
Qed.

Lemma served_one_server ms :
  forallb (fun m => match m with Tasks.Start q c => served q c | _ => true end) ms = true ->
  one_server ms.
Proof.
  intros Hall q c Hin. rewrite forallb_forall in Hall. specialize (Hall (Tasks.Start q c)).
  rewrite <- list_elem_of_In in Hall. by apply Hall.
Qed.

Lemma event_is_run_at_most_once_witness :
  runs ("slack", "T1", "K1") (happened (reached answered_moves)) = 1
  /\ runs ("slack", "T1", "K1") (happened (reached answered_moves))
     <= forgotten ("slack", "T1", "K1") (happened (reached answered_moves)) + 1.
Proof.
  split; [by vm_compute|]. exact (event_is_run_at_most_once three_events_read_back answered_moves _).
Defined.

Lemma drafts_are_answers_witness :
  exists task r, AgentRan task (Ok r) ∈ happened (reached answered_moves)
    /\ drafted task r (draft_of hi (references_of (source_row hi_source 100)) "hello").
Proof.
  apply (drafts_are_answers three_events_read_back answered_moves 1 1). by vm_compute.
Defined.

Lemma agent_resumes_stored_thread_witness :
  t_session (waiting resumed_moves 1) = Resume "thread-1"
  /\ exists id, task_conversation (waiting resumed_moves 1) = Some id
     /\ t_session (waiting resumed_moves 1)
        = session_of (conversations (chat (reached resumed_moves)) !! id).
Proof.
  split; [by vm_compute|]. apply (agent_resumes_stored_thread resumed_moves 1).
  - apply served_one_server. by vm_compute.
  - apply waiting_ready. by vm_compute.
Defined.

Lemma conversation_is_served_alone_witness :
  task_conversation (waiting two_workers 1) <> Some ("slack", "T1", "thread", "C1", "1.0", "").
Proof.
  apply (conversation_is_served_alone two_workers 0 1 (waiting two_workers 0)).
  - apply served_one_server. by vm_compute.
  - apply waiting_ready. by vm_compute.
  - apply waiting_ready. by vm_compute.
  - lia.
  - by vm_compute.
  - exists "thread-1". by vm_compute.
Defined.

Lemma interrupted_event_is_lost_witness :
  (exists r', event_queue (chat (reached (stopped_moves ++ answered_moves))) !! ("slack", "T1", "K1")
              = Some r' /\ e_status r' = "processing")
  /\ runs ("slack", "T1", "K1") (happened (reached (stopped_moves ++ answered_moves)))
     = runs ("slack", "T1", "K1") (happened (reached stopped_moves)).
Proof.
  apply (interrupted_event_is_lost three_events_read_back stopped_moves answered_moves
    ("slack", "T1", "K1") (mkQueueEvent 1 "MentionReceived" "1" "processing" 100 1 None 100)).
  - apply resting_at_rest. by vm_compute.
  - by vm_compute.
  - reflexivity.
Defined.

(** The queue holds the one event. *)
Definition hi_row : QueueEventRow := queued_event_row hi "1" 1 100.
Definition hi_key : EventKey := ("slack", "T1", "K1").

Lemma hi_queue : event_queue (chat (reached hi_moves)) = {[hi_key := hi_row]}.
Proof. vm_compute. reflexivity. Qed.

Lemma hi_dispatchable answer :
  dispatchable (mkInput (mkConditions None 100) answer (Err ContextUnavailable) 100)
    (reached hi_moves) hi_key hi_row hi.
Proof.
  split; [|by eexists|rewrite hi_queue| | | | | |]; try (vm_compute; reflexivity).
  intros k1 k2 r1 r2 [<- <-]%lookup_singleton_Some [<- <-]%lookup_singleton_Some. done.
Qed.

Lemma answered_event_is_completed_witness :
  let res := Draft "hello" (Some "thread-1") in
  exists context s',
    run_alone perform (fun _ => answers_with "thread-1") (dispatch 0 false None true) (reached hi_moves)
      = (Ok (Dispatched "E1"), s')
    /\ happened s' = happened (reached hi_moves)
       ++ [AgentRan (task_for (reached hi_moves) hi context) (Ok res)]
    /\ t_session (task_for (reached hi_moves) hi context) = session_of (known_thread (reached hi_moves) hi)
    /\ completed (reached hi_moves) hi_key hi_row hi res (chat s')
    /\ locked s' 0 = locked (reached hi_moves) 0.
Proof.
  apply (answered_event_is_completed 0 false None (answers_with "thread-1") (reached hi_moves)
    hi_key hi_row hi (Draft "hello" (Some "thread-1"))).
  - apply hi_dispatchable.
  - split.
    + reflexivity.
    + intros content [= <-]. split; vm_compute; reflexivity.
    + intros thread [= <-]. vm_compute. reflexivity.
    + intros summary Hs. vm_compute in Hs. injection Hs as <-. vm_compute. reflexivity.
  - set_solver.
Defined.

Lemma failed_agent_fails_event_witness :
  exists context s' r',
    run_alone perform (fun _ => mkInput (mkConditions None 100) (Err "crashed")
      (Err ContextUnavailable) 100) (dispatch 0 false None true) (reached hi_moves)
      = (Ok (Failed "E1"), s')
    /\ happened s' = happened (reached hi_moves)
       ++ [AgentRan (task_for (reached hi_moves) hi context) (Err "crashed")]
    /\ event_queue (chat s') = <[hi_key := r']> (event_queue (chat (reached hi_moves)))
    /\ moved_on "failed" hi_row r' /\ e_last_error r' = Some "crashed"
    /\ drafts (chat s') = drafts (chat (reached hi_moves))
    /\ conversations (chat s') = conversations (chat (reached hi_moves))
    /\ locked s' 0 = locked (reached hi_moves) 0.
Proof.
  apply (failed_agent_fails_event 0 false None (mkInput (mkConditions None 100) (Err "crashed")
    (Err ContextUnavailable) 100) (reached hi_moves) hi_key hi_row hi "crashed").
  - apply hi_dispatchable.
  - reflexivity.
  - set_solver.
Defined.
End Witnesses.

End DispatchExact.
